(* ===== verification/_CoqProject ===== *)
-Q . S2P
Prelude.v
GoTime.v
Tenancy.v
Json.v
Sha256.v
Float64.v
Scope.v
GoJson.v
TimeText.v
Postgres.v
ScopeSpec.v
ScopeStore.v
ScopeStoreSpec.v
FrameworkScope.v
FrameworkScopeSpec.v
EvalState.v
EvalQuery.v
Eval.v
EvalSpec.v
Freshness.v
FreshnessSpec.v
Drift.v
DriftSpec.v
Staleness.v
StalenessSpec.v
Exception.v
ExceptionSpec.v
AuditPeriod.v
AuditPeriodSpec.v
Risk.v
RiskDB.v
RiskStore.v
RiskAggregate.v
RiskResidual.v
RiskSpec.v
RiskResidualSpec.v
RiskOrgSpec.v
RiskStoreSpec.v
ChaCha8.v
Sampler.v
AuditSample.v
AuditSampleSpec.v
Redact.v
RedactSpec.v
EvidenceRecord.v
Ingest.v
Http.v
EvidenceVerify.v
StreamBuf.v
IngestSpec.v
EvidenceVerifySpec.v
StreamBufSpec.v
IngestDemo.v
Bearer.v
CredStore.v
ApiKey.v
ApiKeySpec.v
CredSpec.v
CredApi.v
CredApiSpec.v
Token.v
Session.v
AuthSpec.v
Policy.v
PolicyAck.v
PolicySeed.v
PolicyApi.v
PolicyAckApi.v
PolicySpec.v
PolicyAckSpec.v
PolicyApiSpec.v
PolicyAckApiSpec.v
ActionPlan.v
ActionPlanApi.v
ActionPlanSpec.v
ActionPlanPages.v
AggRule.v
AggRuleStore.v
AggRuleSpec.v
AggRuleEngineSpec.v
