(* ===== verification/Prelude.v ===== *)
(** * A verification library for security-atlas

    security-atlas is a multi-tenant compliance platform written in Go.  Evidence
    about a tenant's controls is pushed with a credential and appended to a ledger;
    an evaluation engine turns it into control states, per scope cell; read models
    derive freshness and daily drift from the two ledgers; workflows (exceptions,
    framework scopes, policies and their acknowledgements, action plans) change what
    is in force under approval rules; audit periods freeze the auditor's view, and
    samples are drawn from it; a register holds risks, their scores, residuals and
    aggregations; background workers sweep, refresh and notify.  Every store runs its
    statements in a transaction bound to the tenant of the request.  This library
    models that core in Rocq and proves what makes it correct.

    ** Conventions

    - A Go call returning a value and an error is a [result]; a store operation
      is a [Tx], a function of the database state that returns a result and the
      state reached.  [Tenancy.inTx] is the begin / set tenant / run / commit
      wrapper the stores repeat: on error the database is rolled back, what has
      left the process (an external sink) is not.  Failures of the pool are
      inputs ([Infra]); [healthy] has none.  Where the code goes on after a failed
      statement, the transaction is a [Session] of Postgres, which refuses
      everything after an error.
    - A table is a list of rows in insertion order.  A statement is a definition
      named after its sqlc query, translated from internal/db/queries, with the
      constraints of migrations/sql checked where the statement can violate them.
      The tenant filter of row-level security coincides with the tenant_id
      condition every statement carries; where a caller could make them differ
      (ApiKey) both are modelled.
    - What other transactions commit while a call runs is an input where a claim
      depends on it: rival rows that a unique index sees ([env_rivals] of Ingest,
      [ae_rivals] of PolicyAck), whole rival transactions between a read and a
      write ([env_rival] of ActionPlan).
    - An order the program does not choose (a query without ORDER BY, a range
      over a Go map) is the [Planner] parameter; the collation of ORDER BY on
      text is a parameter too.
    - Times are nanoseconds since Go's zero time, in UTC ([GoTime] has the
      calendar, [TimeText] the textual forms); what uuid.New, rand.Read, time.Now
      and now() return are arguments.  A timestamptz column holds microseconds;
      [to_micros] is written where Ingest, Eval, ApiKey, Token, Session, PolicyAck,
      PolicyApi and ActionPlan store or compare a time the program computed; in the
      other components (Exception, FrameworkScope, AuditPeriod, Freshness, Drift) the
      instants handed to a statement are taken to be whole microseconds.
    - Where the code shares a mutable object, the model has the store it lives in:
      the records of CredStore are a heap that two maps point into.
    - Code outside the repository is a parameter with its documented behaviour as
      a class: google/uuid ([UUIDText], [KeyText], [UUIDv5]), Postgres jsonb
      ([JsonB], [JsonBNum]), the JSON Schema validator ([JSONSchema]), the protobuf
      runtime ([StructPB], [ProtoMarshal], [ProtoJson], [ProtoWire]), sort.Slice
      beyond what it promises ([GoSort]), NATS ([JetStream]), the YAML parser
      ([Yaml]), go-jose ([Jose]), OPA, Postgres as a query evaluator and PaesslerAG/jsonpath
      (arguments of EvalQuery, [SeverityPolicy]).  The Go standard library is
      modelled: encoding/json and strings.TrimSpace (Json, GoJson), crypto/sha256
      and encoding/hex (Sha256), crypto/hmac and encoding/base32 (Bearer), time
      (GoTime, TimeText), math/rand/v2's ChaCha8 (ChaCha8), float64 and
      strconv.ParseFloat (Float64, on Stdlib's SpecFloat), the regular expressions
      of the SQL guard (EvalQuery).  Of math.Log10 and strings.ToLower only what
      the theorems need is assumed.

    ** Files

    - Prelude: errors, transactions, tables, planners, greatest elements, tactics.
    - GoTime, Json, Sha256, Float64, GoJson, TimeText: the standard library as far
      as it is used.  Postgres: what the stores meet of the database.  Http: what
      the handlers share.
    - Tenancy: internal/tenancy and the transaction wrapper, with its atomicity.
    - Scope, ScopeSpec: internal/scope/expr.go and canonical.go.  [Evaluate] is
      related to a denotation of scope expressions over cells.
    - ScopeStore, ScopeStoreSpec: internal/scope/store.go.
    - FrameworkScope, FrameworkScopeSpec: internal/frameworkscope and the bounce
      trigger of its migration.
    - EvalState, EvalQuery, Eval, EvalSpec: internal/eval.  The engine reaches the
      scope store through the class [CellResolver], which scope_resolver
      implements.
    - Freshness, FreshnessSpec: internal/freshness.
    - Drift, DriftSpec: internal/drift and internal/freshnessdrift.
    - Staleness, StalenessSpec: internal/staleness.
    - Exception, ExceptionSpec: internal/exception.
    - AuditPeriod, AuditPeriodSpec: internal/audit/period.
    - Risk (scores, severities, treatments), RiskDB (tables and statements),
      RiskStore (risks, org units, themes), RiskAggregate, RiskResidual:
      internal/risk; RiskSpec, RiskResidualSpec, RiskOrgSpec, RiskStoreSpec.
    - ChaCha8, Sampler, AuditSample, AuditSampleSpec: internal/audit/sample and
      internal/audit (populations, samples, annotations).
    - Redact, RedactSpec: internal/evidence/redact.
    - EvidenceRecord (the record, canonical JSON, its hash), Ingest, EvidenceVerify
      (rebuilding a row's hash, the ledger walk), StreamBuf (the stream buffer):
      internal/evidence and internal/canonjson; IngestSpec, EvidenceVerifySpec,
      StreamBufSpec, IngestDemo.
    - Bearer (internal/auth/bearer), CredStore (internal/api/credstore, with the
      interface [Persister] and its laws [DurableKeys]), ApiKey
      (internal/auth/apikeystore), ApiKeySpec (the table keeps the laws), CredSpec
      (processes, restarts), CredApi, CredApiSpec (the gRPC interceptor and
      AdminCredentials service, the routes of internal/api/admincreds).
    - Token: module Jwt (internal/auth/jwt, the verification of
      internal/auth/tokensign), Revocation (internal/auth/revocation, revoke.go and
      introspect.go of internal/api/oauth), JwtMw (the authentication chain of
      internal/api/httpserver.go: internal/auth/jwtmw, [jwtBypass],
      [requireCredential], internal/api/tenancymw).  Session (internal/auth/sessions,
      logout, the routes of internal/api/me/sessions.go).  AuthSpec: modules JwtSpec
      and SessionSpec, which puts the routes behind the chain.
    - Policy, PolicyAck, PolicySeed: internal/policy; PolicyApi, PolicyAckApi: its
      handlers; PolicySpec, PolicyAckSpec, PolicyApiSpec, PolicyAckApiSpec.
    - ActionPlan (internal/actionplan and the trigger of its migration),
      ActionPlanApi (its handlers), ActionPlanSpec, ActionPlanPages (the pages of
      the list).
    - AggRule (rule documents, severity functions), AggRuleStore (engine and
      store), AggRuleSpec, AggRuleEngineSpec: internal/risk/aggrule.

    A file without the suffix Spec holds the translation; the Spec file beside it
    holds the abstract view, the lemmas and the theorems.  The concrete inputs on
    which the theorems are applied are in a module whose name ends in Demo, in the
    last Spec file of the component (in the file IngestDemo for ingestion).

    ** What is proved

    - Ingestion: a push is idempotent under its key; what is accepted passed every
      check and is stored redacted; the ledger only grows; an accepted row verifies,
      and the verifier's walk checks every row once; a buffered record is stored
      at most once, and once when the ledger's constraints allow it, and one delivered
      too late is lost.
    - Credentials: a restart keeps the live keys, with the predicate and lifetime in
      the form the table stores them, and a revocation survives it, for every backend
      that keeps the interface; rotation hands over at its deadline; writes fail
      closed; the two stores agree at boot on the keys of the table; the
      administration routes keep to their tenant; and where the code falls short of
      this: expiry and revocation over HTTP wait for a restart, and a restart locks
      an unrestricted key out of ingestion.
    - Access tokens and sessions: a request reaches a route only with a token that
      verifies, validates and is not revoked, bound to that token's tenant; a revoked
      token is refused and reported inactive whatever sweeps follow, as long as ids are
      unique among the tokens signed with the platform's keys; a session lives
      while it is used within the threshold and dies when idle; an ended session is
      never read again; and where the code falls short of this: logout ends no
      session, and users of access tokens can neither see nor end theirs.
    - Exceptions: each call of the store takes exactly the step of its name in a
      five-state lifecycle machine, with its audit entry, or changes nothing; in every
      reachable world the 365-day cap, segregation of duties and the agreement of
      audit trail and status hold; terminal rows never change; a sweep expires
      exactly the overdue ones; writes stay in the tenant; and the sink is told
      before the commit.
    - Audit periods: a freeze commits to content only, is final, gives exactly the
      attached populations without a horizon that instant and changes nothing else;
      the frozen view changes only by backdated evidence.
    - Audit samples: a draw is a duplicate-free, reproducible choice; drawing a
      frozen population again gives the same records.
    - Scopes: [Evaluate] returns the cells an expression denotes; cells are unique
      up to the order of their dimensions; seeding is idempotent; a control applies
      to the cells its stored expression denotes.
    - Framework scopes: hashes are those of the stored predicates; an approval
      covers the predicate in force while a row is approved, and a scope in force or
      superseded was approved before, with those columns; one scope at most is in
      force per framework version, an approved one can always be activated, and a
      superseded one names its successor; requests follow the lifecycle; activation
      replaces; the effective scope is an
      intersection; canonicalization is idempotent; and two places where an
      activated scope does not behave as its ADR says.
    - Evaluation: what one evaluation appends; the roll-up law; the freshness
      window; determinism; agreement of the fixture runner with the engine; error
      paths; and the places where comments and code disagree.
    - Read models: a freshness refresh is a map overlay with the engine's own
      verdicts; a snapshot holds exactly the passing controls; a report is the
      difference of the official snapshots of its window; redelivery is harmless.
    - Staleness: each event is delivered exactly once; a second pass in a period
      is silent; the weekly digest is unreachable from most start times.
    - Policies: the store refines its lifecycle; what is published was reviewed;
      an acknowledgement lasts a year and repeating it changes nothing; the rates
      count due users, and the list's one-query rate is the per-policy rate.
    - Action plans: no interleaving of calls leaves the state machine; alone, calls
      leave an audit log that tells every version; the pages cover the list; and
      where edits race, or a frozen view follows later edits.
    - Risks: stored 5x5 scores read back on the grid; severities stay in their range
      in float64 arithmetic; a residual is derived from the risk's own links alone and
      stays between zero and a finite non-negative inherent score; the parent chain of
      org units ends;
      aggregating again finds the same parent; the subscriber writes residuals only.
    - Aggregation rules: a rule reads back whole; its audit log replays to its
      status; an evaluation counts exactly the eligible risks since its window and
      the last activation, writes one ledger row and at most its own flagged meta-risk
      and its links; repeating it creates nothing.

    ** Bounds and fuel

    Json's scanners recurse on the text itself; the loops over elements and members
    take the length of the remaining text as fuel, which each element shortens, and
    nesting is cut at 10,000 as in encoding/json.  The scan for schema-qualified
    names of the SQL guard is given one unit of fuel per character and one more.
    The recursive parent query takes the number of org units as fuel, which
    [parent_chain_terminates] shows to be enough; the version chain of a policy and
    the ledger walk take the number of rows and one more, enough by
    [version_history_is_single] and [walkTenant_complete]; the pages of action plans
    the number of plans and one more, enough by [pages_cover]; ChaCha8's refill loop
    two turns, enough by [Uint64_returns].  All other recursion is structural.
    Counters stored as int4 go through [int32], and the theorems that need it assume
    fewer than 2^31 rows.

    ** Not modelled

    The handlers of other components, connectors, sign-in and the minting of tokens
    (OIDC, OAuth grants, passwords, key rotation), command-line tools, the generated
    query layer and the front end: I/O, third-party protocols or generated code.
    Bodies of requests arrive decoded.  corsMiddleware, which comes before the
    authentication chain, adds headers and answers every OPTIONS request with 204, is
    not part of [JwtMw.chain], which is the way of all other requests; the issue and
    last-use times of the credential that jwtmw makes of a token are left out, which
    no modelled route reads.  A record's unknown protobuf fields are kept at the
    top level only.  The ledger walk reads one state of the ledger, although each of
    its pages is a transaction of its own.  Of two drift snapshots captured at the same
    instant the one inserted last is read, where the query leaves the choice open.
    Ticker and JetStream loops are modelled by the sequence of steps they run.
    Transactions run one after the other, except for the rivals named above; several
    processes over one table, failures of single page reads in the ledger walk, the
    spreadsheet export of policies and the demo data, which inserts published
    policies directly, are not modelled.

    ** Plan

    Left are the status machines of decisions, changes, incidents, access reviews
    and vendors, sign-in and feature flags, the metrics catalogue, and the handlers
    over the stores modelled here. *)

From stdpp Require Export base tactics list strings gmap sorting numbers relations.
From Stdlib Require Export Lia.

#[global] Unset Program Cases.
#[global] Set Default Goal Selector "!".
Open Scope Z_scope.

(** ** Errors as values *)

(** A Go call returning [(A, error)]: the value when the error is nil, the
    error otherwise. *)
Inductive result (E A : Type) : Type :=
| Ok (a : A)
| Err (e : E).
Arguments Ok {E A} _.
Arguments Err {E A} _.

#[global] Instance result_ret (E : Type) : MRet (result E) := λ A, Ok.
#[global] Instance result_bind (E : Type) : MBind (result E) :=
  λ A B f m, match m with Ok a => f a | Err e => Err e end.

Definition is_Ok {E A} (r : result E A) : bool :=
  match r with Ok _ => true | Err _ => false end.

Definition map_err {E E' A} (f : E → E') (r : result E A) : result E' A :=
  match r with Ok a => Ok a | Err e => Err (f e) end.

(** ** State and error *)

(** A stateful Go function: it may change the state before it fails, so the
    final state accompanies an error too; what an error undoes is decided by
    whoever opened the transaction (see [Tenancy.inTx]). *)
Definition Tx (S E A : Type) : Type := S → result E A * S.

#[global] Instance tx_ret (S E : Type) : MRet (Tx S E) := λ A a s, (Ok a, s).
#[global] Instance tx_bind (S E : Type) : MBind (Tx S E) :=
  λ A B f m s, match m s with
               | (Ok a, s') => f a s'
               | (Err e, s') => (Err e, s')
               end.

Definition tx_fail {S E A} (e : E) : Tx S E A := λ s, (Err e, s).
Definition tx_gets {S E A} (f : S → A) : Tx S E A := λ s, (Ok (f s), s).
Definition tx_modify {S E} (f : S → S) : Tx S E () := λ s, (Ok (), f s).
Definition tx_lift {S E A} (r : result E A) : Tx S E A := λ s, (r, s).

(** Runs [m] and hands its outcome, error included, to [k]: the shape of
    [row, err := q.Query(...); if err != nil {...}]. *)
Definition tx_try {S E E' A B} (m : Tx S E A) (k : result E A → Tx S E' B) : Tx S E' B :=
  λ s, let '(r, s') := m s in k r s'.

(** [for _, x := range xs { if err := f(x); err != nil { return err } }] *)
Fixpoint tx_iter {S E A} (f : A → Tx S E ()) (xs : list A) : Tx S E () :=
  match xs with
  | [] => mret ()
  | x :: xs => _ ← f x; tx_iter f xs
  end.

(** ** Orders the source leaves open *)

(** The rows of a query without ORDER BY, and the keys of a Go map under
    [range], come in an order the program does not choose. *)
Class Planner := {
  plan : ∀ {A : Type}, list A → list A;
  plan_perm {A} (l : list A) : plan l ≡ₚ l;
}.

(** One possible choice: the order of the table. *)
Definition table_order : Planner.
Proof. by refine {| plan A l := l |}. Defined.

Lemma elem_of_plan {PL : Planner} {A} (x : A) l : x ∈ plan l ↔ x ∈ l.
Proof. by rewrite plan_perm. Qed.

(** ** Machine integers *)

(** Conversion to [int32]. *)
Definition int32 (n : Z) : Z := (n + 2 ^ 31) mod 2 ^ 32 - 2 ^ 31.

Lemma int32_small n : - 2 ^ 31 ≤ n < 2 ^ 31 → int32 n = n.
Proof. intros H. unfold int32. rewrite Z.mod_small by lia. lia. Qed.

(** ** Time and identifiers *)

(** [time.Time] as nanoseconds since Go's zero instant (year 1, UTC), and
    [time.Duration] as nanoseconds. *)
Abbreviation Time := Z (only parsing).
Abbreviation Duration := Z (only parsing).

Definition time_zero : Time := 0.
Definition IsZero (t : Time) : bool := bool_decide (t = time_zero).
Definition After (t u : Time) : bool := bool_decide (u < t).
Definition Before (t u : Time) : bool := bool_decide (t < u).
Definition time_Hour : Duration := 3600 * 1000000000.

(** [uuid.UUID], a 128-bit value; [uuid.Nil] is all zeroes. *)
Abbreviation UUID := N (only parsing).
Definition uuid_Nil : UUID := 0%N.

(** ** Automation *)

Create HintDb atlas discriminated.

(** Splits every boolean test, [decide] and [match] in sight, then closes or
    simplifies the branches. *)
Ltac split_tests :=
  repeat match goal with
         | H : context [bool_decide ?P] |- _ =>
             destruct (bool_decide_reflect P); simpl in H
         | |- context [bool_decide ?P] =>
             destruct (bool_decide_reflect P); simpl
         end.

Ltac split_match :=
  match goal with
  | H : context [match ?x with _ => _ end] |- _ => destruct x eqn:?; simplify_eq/=
  | |- context [match ?x with _ => _ end] => destruct x eqn:?; simplify_eq/=
  end.

Ltac crush := repeat (split_match || case_match); simplify_eq/=; try done; auto with atlas.

(** ** Result and transaction lemmas *)

Lemma result_bind_Ok {E A B} (f : A → result E B) m b :
  m ≫= f = Ok b ↔ ∃ a, m = Ok a ∧ f a = Ok b.
Proof. destruct m; naive_solver. Qed.

Lemma result_bind_Err {E A B} (f : A → result E B) m e :
  m ≫= f = Err e → m = Err e ∨ ∃ a, m = Ok a ∧ f a = Err e.
Proof. destruct m; naive_solver. Qed.

Lemma tx_bind_Ok {S E A B} (f : A → Tx S E B) (m : Tx S E A) s b s' :
  (m ≫= f) s = (Ok b, s') ↔ ∃ a s0, m s = (Ok a, s0) ∧ f a s0 = (Ok b, s').
Proof.
  unfold mbind, tx_bind. destruct (m s) as [[a|e] s0]; naive_solver.
Qed.

Lemma tx_lift_Ok {S E A} (r : result E A) (s : S) a s' : tx_lift r s = (Ok a, s') → r = Ok a ∧ s' = s.
Proof. by intros [= -> ->]. Qed.

Lemma tx_fail_eq {S E A} (e : E) (s s' : S) (r : result E A) :
  tx_fail e s = (r, s') → r = Err e ∧ s' = s.
Proof. by intros [= <- <-]. Qed.

(** ** Tables as lists of rows *)

(** [UPDATE t SET f WHERE p]. *)
Definition update_where {A} (p : A → bool) (f : A → A) (t : list A) : list A :=
  map (λ r, if p r then f r else r) t.

(** The rows [SELECT * FROM t WHERE p] returns, before any ORDER BY. *)
Definition select_where {A} (p : A → bool) (t : list A) : list A :=
  filter (λ r, p r = true) t.

(** The rows [UPDATE t SET f WHERE p RETURNING *] returns. *)
Definition updated_rows {A} (p : A → bool) (f : A → A) (t : list A) : list A :=
  f <$> select_where p t.

Lemma elem_of_select_where {A} (p : A → bool) t (r : A) :
  r ∈ select_where p t ↔ p r = true ∧ r ∈ t.
Proof. unfold select_where. by rewrite list_elem_of_filter. Qed.

Lemma select_where_ext {A} (p q : A → bool) l :
  (∀ x, x ∈ l → p x = q x) → select_where p l = select_where q l.
Proof.
  unfold select_where. induction l as [|x l IH]; intros H; [done|]. rewrite !filter_cons, (H x) by left.
  rewrite IH; [done|]. intros y Hy. apply H. by right.
Qed.

Lemma select_where_app {A} (p : A → bool) l k : select_where p (l ++ k) = select_where p l ++ select_where p k.
Proof. apply filter_app. Qed.

Lemma select_where_none {A} (p : A → bool) l : (∀ x, x ∈ l → p x = false) → select_where p l = [].
Proof.
  unfold select_where. induction l as [|x l IH]; intros H; [done|]. rewrite filter_cons, decide_False, IH; [done| |].
  - intros y Hy. apply H. by right.
  - rewrite (H x) by left. done.
Qed.

Lemma elem_of_update_where {A} (p : A → bool) f t (r : A) :
  r ∈ update_where p f t ↔ ∃ r0, r0 ∈ t ∧ r = if p r0 then f r0 else r0.
Proof. unfold update_where. rewrite list_elem_of_In, in_map_iff. setoid_rewrite list_elem_of_In. naive_solver. Qed.

(** A statement whose condition selects one row replaces that row in place. *)
Lemma update_where_single {A} (q : A → bool) f l x :
  select_where q l = [x] →
  ∃ l1 l2, l = l1 ++ x :: l2 ∧ update_where q f l = l1 ++ f x :: l2.
Proof.
  unfold select_where, update_where. induction l as [|y l IH]; [done|]. rewrite filter_cons. simpl.
  destruct (q y) eqn:E; simpl.
  - intros [= -> Hl]. exists [], l. split; [done|]. simpl. f_equal.
    rewrite <- (map_id l) at 2. apply map_ext_in. intros z Hz%list_elem_of_In.
    destruct (q z) eqn:Ez; [|done]. assert (z ∈ []) as []%elem_of_nil.
    rewrite <- Hl. apply list_elem_of_filter. by rewrite Ez.
  - intros (l1 & l2 & -> & Hu)%IH. exists (y :: l1), l2. simpl. by rewrite Hu.
Qed.

Lemma bool_decide_if {A} P `{Decision P} (x y : A) :
  (if bool_decide P then x else y) = (if decide P then x else y).
Proof. case_bool_decide; case_decide; done. Qed.

(** An update that keeps a key leaves the list of keys alone. *)
Lemma update_where_key {A K} (key : A → K) (p : A → bool) f t :
  (∀ r, p r = true → key (f r) = key r) → key <$> update_where p f t = key <$> t.
Proof.
  intros Hk. induction t as [|r t IH]; [done|]. csimpl. rewrite IH. f_equal.
  destruct (p r) eqn:E; auto.
Qed.

Lemma NoDup_key_inj {A K} (key : A → K) t (r1 r2 : A) :
  NoDup (key <$> t) → r1 ∈ t → r2 ∈ t → key r1 = key r2 → r1 = r2.
Proof.
  induction t as [|r t IH]; [by intros _ ?%elem_of_nil|]. csimpl.
  intros [Hr Ht]%NoDup_cons [->|H1]%elem_of_cons [->|H2]%elem_of_cons He; auto.
  - destruct Hr. rewrite He. by apply list_elem_of_fmap_2.
  - destruct Hr. rewrite <- He. by apply list_elem_of_fmap_2.
Qed.

(** A condition that only one key meets selects the row of that key. *)
Lemma select_key_unique {A K} (key : A → K) (p : A → bool) t r :
  NoDup (key <$> t) → r ∈ t → p r = true → (∀ x, p x = true → key x = key r) → select_where p t = [r].
Proof.
  unfold select_where. induction t as [|x t IH]; [by intros _ ?%elem_of_nil|]. csimpl. rewrite filter_cons.
  intros [Hx Ht]%NoDup_cons [->|Hr]%elem_of_cons Hp Hk.
  - rewrite decide_True by done. f_equal. apply (select_where_none p). intros y Hy. apply not_true_iff_false. intros Hpy.
    apply Hx. rewrite <- (Hk y Hpy). by apply list_elem_of_fmap_2.
  - rewrite decide_False; [by apply IH|]. intros Hpx. apply Hx. rewrite (Hk x Hpx). by apply list_elem_of_fmap_2.
Qed.

Lemma Forall2_impl_elem {A B} (P Q : A → B → Prop) l k :
  Forall2 P l k → (∀ x y, x ∈ l → P x y → Q x y) → Forall2 Q l k.
Proof.
  induction 1; intros HQ; constructor; [apply HQ; [left|done]|].
  apply IHForall2. intros. apply HQ; [by right|done].
Qed.

(** ** Greatest elements *)

(** [m] is the greatest of [ts], [None] when there is none. *)
Definition is_max (ts : list Time) (m : option Time) : Prop :=
  match m with
  | None => ts = []
  | Some t => t ∈ ts ∧ ∀ u, u ∈ ts → u ≤ t
  end.

Lemma is_max_unique ts ts' m m' : ts ≡ₚ ts' → is_max ts m → is_max ts' m' → m = m'.
Proof.
  intros Hp. destruct m as [t|], m' as [t'|]; simpl; intros H H'.
  - destruct H as [H1 H2], H' as [H1' H2']. f_equal.
    specialize (H2 t'). specialize (H2' t). rewrite Hp in H2. rewrite <- Hp in H2'. specialize (H2 H1'). specialize (H2' H1). lia.
  - rewrite H', Permutation_nil_r in Hp. destruct H as [H _]. by rewrite Hp, elem_of_nil in H.
  - rewrite H in Hp. apply Permutation_nil_l in Hp. destruct H' as [H' _]. by rewrite <- Hp, elem_of_nil in H'.
  - done.
Qed.

(** [r] has the greatest key of [l], and is the last of those that do: the row
    [DISTINCT ON ... ORDER BY key DESC] keeps when rows are appended in order. *)
Definition last_max {A} (key : A → Z) (l : list A) (r : A) : Prop :=
  ∃ l1 l2, l = l1 ++ r :: l2 ∧ (∀ x, x ∈ l1 → key x ≤ key r) ∧ (∀ x, x ∈ l2 → key x < key r).

Lemma last_max_elem {A} (key : A → Z) l r : last_max key l r → r ∈ l.
Proof. intros (l1 & l2 & -> & _). apply elem_of_app. right. left. Qed.

Lemma last_max_unique {A} (key : A → Z) l r r' : last_max key l r → last_max key l r' → r = r'.
Proof.
  intros (l1 & l2 & E & H1 & H2) (k1 & k2 & E' & H1' & H2'). rewrite E in E'.
  apply app_eq_inv in E' as [(k & -> & Ek)|(k & -> & Ek)]; destruct k as [|x k]; injection Ek; intros; subst; try done.
  all: exfalso; match goal with
                | H1 : ∀ y, y ∈ _ ++ ?u :: _ → _ ≤ _ ?v, H2 : ∀ y, y ∈ _ ++ ?v :: _ → _ < _ ?u |- _ =>
                    specialize (H1 u ltac:(set_solver)); specialize (H2 v ltac:(set_solver)); lia
                end.
Qed.

(** The scan that keeps a row unless a later one is as great finds it. *)
Lemma last_max_fold {A} (key : A → Z) (l : list A) :
  match fold_left (λ best r, match best with
                             | Some b => if bool_decide (key b ≤ key r) then Some r else best
                             | None => Some r
                             end) l None with
  | Some r => last_max key l r
  | None => l = []
  end.
Proof.
  induction l as [|x l IH] using rev_ind; [done|]. rewrite fold_left_app. simpl.
  destruct (fold_left _ l None) as [b|]; [|by subst; exists [], []; set_solver].
  destruct IH as (l1 & l2 & -> & H1 & H2). case_bool_decide as Hb.
  - exists (l1 ++ b :: l2), []. split_and!; [done| |set_solver].
    intros y [Hy|[->|Hy]%elem_of_cons]%elem_of_app; [specialize (H1 y Hy)| |specialize (H2 y Hy)]; lia.
  - exists l1, (l2 ++ [x]). split_and!; [by rewrite <- app_assoc|done|].
    intros y [Hy| ->%list_elem_of_singleton]%elem_of_app; [by apply H2|lia].
Qed.

Lemma last_max_snoc {A} (key : A → Z) l r : (∀ x, x ∈ l → key x ≤ key r) → last_max key (l ++ [r]) r.
Proof. intros H. exists l, []. set_solver. Qed.
