(* ===== verification/GoTime.v ===== *)
(** * Calendar arithmetic of Go's [time] package (UTC)

    The proleptic Gregorian calendar as the stores use it: the civil date of an
    instant, its RFC 3339 rendering, [AddDate] and truncation to a day. *)

From S2P Require Import Prelude.

Definition ns_per_second : Z := 1000000000.
Definition ns_per_day : Z := 86400 * ns_per_second.

(** Day number of an instant: day 0 is 1 January of year 1. *)
Definition day_of (t : Time) : Z := t / ns_per_day.

(** (year, month, day) of a day number.  Years are counted from 1 March, so
    that the leap day is the last of its year; 306 days separate 1 March of
    year 0 from 1 January of year 1. *)
Definition civil_of_day (n : Z) : Z * Z * Z :=
  let z := n + 306 in
  let era := z / 146097 in
  let doe := z mod 146097 in
  let yoe := (doe - doe / 1460 + doe / 36524 - doe / 146096) / 365 in
  let doy := doe - (365 * yoe + yoe / 4 - yoe / 100) in
  let mp := (5 * doy + 2) / 153 in
  let d := doy - (153 * mp + 2) / 5 + 1 in
  let m := if mp <? 10 then mp + 3 else mp - 9 in
  (yoe + era * 400 + (if m <=? 2 then 1 else 0), m, d).

(** Day number of a civil date; a day outside the month spills over, as in
    [time.Date]. *)
Definition day_of_civil (y m d : Z) : Z :=
  let y' := y + (m - 1) / 12 in
  let m' := (m - 1) mod 12 + 1 in
  let y'' := if m' <=? 2 then y' - 1 else y' in
  let era := y'' / 400 in
  let yoe := y'' mod 400 in
  let mp := if 2 <? m' then m' - 3 else m' + 9 in
  let doy := (153 * mp + 2) / 5 + (d - 1) in
  let doe := yoe * 365 + yoe / 4 - yoe / 100 + doy in
  era * 146097 + doe - 306.

(** [t.AddDate(years, months, days)] for [t] in UTC. *)
Definition AddDate (t : Time) (years months days : Z) : Time :=
  let '(y, m, d) := civil_of_day (day_of t) in
  day_of_civil (y + years) (m + months) (d + days) * ns_per_day + t mod ns_per_day.

(** [time.Date(t.Year(), t.Month(), t.Day(), 0, 0, 0, 0, time.UTC)] *)
Definition truncDate (t : Time) : Time :=
  let '(y, m, d) := civil_of_day (day_of t) in
  day_of_civil y m d * ns_per_day.

(** Decimal digits, zero-padded to [w] places. *)
Fixpoint digits (w : nat) (n : Z) : string :=
  match w with
  | O => ""
  | S w => digits w (n / 10) +:+ String (Ascii.ascii_of_nat (Z.to_nat (48 + n mod 10))) ""
  end.

(** [t.UTC().Format(time.RFC3339)] for years 0 to 9999. *)
Definition FormatRFC3339 (t : Time) : string :=
  let '(y, m, d) := civil_of_day (day_of t) in
  let s := t mod ns_per_day / ns_per_second in
  digits 4 y +:+ "-" +:+ digits 2 m +:+ "-" +:+ digits 2 d +:+ "T" +:+
  digits 2 (s / 3600) +:+ ":" +:+ digits 2 (s / 60 mod 60) +:+ ":" +:+
  digits 2 (s mod 60) +:+ "Z".

Example unix_epoch :
  FormatRFC3339 (719162 * ns_per_day) = "1970-01-01T00:00:00Z".
Proof. vm_compute. reflexivity. Qed.

Example leap_day_spills :
  FormatRFC3339 (AddDate (day_of_civil 2024 2 29 * ns_per_day) 5 0 0) = "2029-03-01T00:00:00Z".
Proof. vm_compute. reflexivity. Qed.

(** ** The two conversions are inverse *)

Ltac div_lia := Z.to_euclidean_division_equations; lia.

(** Where day [doe] of a 400-year era falls: its year, and its day in it. *)
Lemma yoe_bounds doe :
  0 ≤ doe < 146097 →
  0 ≤ (doe - doe / 1460 + doe / 36524 - doe / 146096) / 365 < 400.
Proof. intros. div_lia. Qed.

Lemma doy_lower doe :
  0 ≤ doe < 146097 →
  let yoe := (doe - doe / 1460 + doe / 36524 - doe / 146096) / 365 in
  0 ≤ doe - (365 * yoe + yoe / 4 - yoe / 100).
Proof. intros H yoe. subst yoe. div_lia. Qed.

Lemma doy_upper doe :
  0 ≤ doe < 146097 →
  let yoe := (doe - doe / 1460 + doe / 36524 - doe / 146096) / 365 in
  doe - (365 * yoe + yoe / 4 - yoe / 100) ≤ 366.
Proof.
  intros H yoe. subst yoe.
  set (a := doe / 1460). set (b := doe / 36524). set (c := doe / 146096).
  assert (1460 * a ≤ doe < 1460 * a + 1460) by (subst a; div_lia).
  assert (36524 * b ≤ doe < 36524 * b + 36524) by (subst b; div_lia).
  assert (146096 * c ≤ doe < 146096 * c + 146096) by (subst c; div_lia).
  clearbody a b c.
  assert (b = 0 ∨ b = 1 ∨ b = 2 ∨ b = 3 ∨ b = 4) as Hb by lia.
  assert (c = 0 ∨ c = 1) as Hc by lia.
  destruct Hb as [->|[->|[->|[->| ->]]]], Hc as [->| ->]; div_lia.
Qed.

(** The month and day derived from a day of the (March-based) year lead back
    to it. *)
Lemma march_month doy :
  0 ≤ doy ≤ 366 →
  let mp := (5 * doy + 2) / 153 in
  0 ≤ mp ≤ 11.
Proof. intros H mp. subst mp. div_lia. Qed.

Lemma civil_roundtrip n :
  let '(y, m, d) := civil_of_day n in day_of_civil y m d = n ∧ 1 ≤ m ≤ 12.
Proof.
  unfold civil_of_day.
  pose proof (Z.mod_pos_bound (n + 306) 146097 eq_refl) as Hdoe.
  pose proof (Z.div_mod (n + 306) 146097 ltac:(done)) as Hn.
  set (doe := (n + 306) mod 146097) in *. set (era := (n + 306) / 146097) in *.
  pose proof (yoe_bounds doe Hdoe) as Hy. pose proof (doy_lower doe Hdoe) as Hd0.
  pose proof (doy_upper doe Hdoe) as Hd1. cbv zeta in Hd0, Hd1.
  set (yoe := (doe - doe / 1460 + doe / 36524 - doe / 146096) / 365) in *.
  set (doy := doe - (365 * yoe + yoe / 4 - yoe / 100)) in *.
  pose proof (march_month doy ltac:(lia)) as Hm. cbv zeta in Hm.
  set (mp := (5 * doy + 2) / 153) in *.
  clearbody yoe mp.
  unfold day_of_civil. destruct (Z.ltb_spec mp 10).
  - destruct (Z.leb_spec (mp + 3) 2); [lia|].
    replace ((mp + 3 - 1) / 12) with ((mp + 2) / 12) by (f_equal; lia).
    replace (mp + 3 - 1) with (mp + 2) by lia.
    rewrite (Z.div_small (mp + 2)), (Z.mod_small (mp + 2)) by lia.
    destruct (Z.leb_spec (mp + 2 + 1) 2); [lia|]. destruct (Z.ltb_spec 2 (mp + 2 + 1)); [|lia].
    replace (yoe + era * 400 + 0 + 0) with (yoe + era * 400) by lia.
    rewrite Z.div_add, Z.mod_add, (Z.div_small yoe), (Z.mod_small yoe) by lia.
    replace (mp + 2 + 1 - 3) with mp by lia. lia.
  - destruct (Z.leb_spec (mp - 9) 2); [|lia].
    replace (mp - 9 - 1) with (mp - 10) by lia.
    rewrite (Z.div_small (mp - 10)), (Z.mod_small (mp - 10)) by lia.
    destruct (Z.leb_spec (mp - 10 + 1) 2); [|lia]. destruct (Z.ltb_spec 2 (mp - 10 + 1)); [lia|].
    replace (yoe + era * 400 + 1 + 0 - 1) with (yoe + era * 400) by lia.
    rewrite Z.div_add, Z.mod_add, (Z.div_small yoe), (Z.mod_small yoe) by lia.
    replace (mp - 10 + 1 + 9) with mp by lia. lia.
Qed.

(** Truncation goes back to midnight of the same day. *)
Lemma truncDate_spec t : truncDate t = day_of t * ns_per_day.
Proof.
  unfold truncDate. pose proof (civil_roundtrip (day_of t)) as H.
  destruct (civil_of_day (day_of t)) as [[y m] d]. by destruct H as [-> _].
Qed.

(** Within a month, days are consecutive. *)
Lemma day_of_civil_add_days y m d k :
  day_of_civil y m (d + k) = day_of_civil y m d + k.
Proof. unfold day_of_civil. lia. Qed.

(** Adding days only is adding multiples of 24 hours. *)
Lemma AddDate_days t k : AddDate t 0 0 k = t + k * ns_per_day.
Proof.
  unfold AddDate. pose proof (civil_roundtrip (day_of t)) as H.
  destruct (civil_of_day (day_of t)) as [[y m] d]. destruct H as [H _].
  rewrite !Z.add_0_r, day_of_civil_add_days, H. unfold day_of, ns_per_day, ns_per_second.
  pose proof (Z.div_mod t (86400 * 1000000000)). lia.
Qed.
