(* ===== verification/Tenancy.v ===== *)
(** * Tenancy: the tenant of a request, and transactions bound to it

    Models internal/tenancy (context.go, apply.go) and the [inTx] wrapper every
    store repeats. *)

From Stdlib Require Import Ascii.
From S2P Require Import Prelude.

(** ** The tenant carried by a context *)

(** [context.Context] as far as tenancy looks at it: the value stored under
    [ctxKey{}], if any. *)
Record Context := { ctx_tenant : option string }.

Inductive TenancyErr := ErrNoTenant | ErrInvalidTenantID (id : string) | ErrSetConfig.

(** Failures a pgx pool can report around the statements of a transaction. *)
Record Infra := { begin_ok : bool; set_config_ok : bool; commit_ok : bool }.
Definition healthy : Infra := {| begin_ok := true; set_config_ok := true; commit_ok := true |}.

(** ** Textual identifiers *)

(** The characters of a printed identifier. *)
Definition uuid_char (c : ascii) : bool :=
  let n := N_of_ascii c in
  ((48 <=? n) && (n <=? 57) || (97 <=? n) && (n <=? 102) || (n =? 45))%N.

Fixpoint uuid_text (s : string) : bool :=
  match s with "" => true | String c s => uuid_char c && uuid_text s end.

(** What the stores rely on of github.com/google/uuid: [Parse] reads back what
    [String] prints, and the printed form is a non-empty string of hexadecimal
    digits and dashes. *)
Class UUIDText := {
  uuid_Parse : string → option UUID;
  uuid_String : UUID → string;
  uuid_Parse_String u : uuid_Parse (uuid_String u) = Some u;
  uuid_String_nonempty u : uuid_String u ≠ "";
  uuid_String_text u : uuid_text (uuid_String u) = true;
}.

(** A concrete instance (binary digits after a letter), used where a witness
    needs one. *)
Fixpoint pos_text (p : positive) : string :=
  match p with
  | xH => "1"
  | xO p => String "0"%char (pos_text p)
  | xI p => String "1"%char (pos_text p)
  end.

Fixpoint text_pos (s : string) : option positive :=
  match s with
  | "1" => Some xH
  | String "0"%char s => xO <$> text_pos s
  | String "1"%char s => xI <$> text_pos s
  | _ => None
  end.

Lemma text_pos_text p : text_pos (pos_text p) = Some p.
Proof.
  induction p as [p IH|p IH|]; [..|done].
  - simpl. destruct (pos_text p) eqn:E; [by destruct p|]. by rewrite IH.
  - simpl. by rewrite IH.
Qed.

Definition binary_uuid : UUIDText.
Proof.
  refine {| uuid_Parse s := match s with
                            | String "a"%char "" => Some 0%N
                            | String "a"%char s => N.pos <$> text_pos s
                            | _ => None
                            end;
            uuid_String u := match u with N0 => "a" | N.pos p => String "a"%char (pos_text p) end |}.
  - intros [|p]; [done|]. destruct (pos_text p) eqn:E; [by destruct p|]. by rewrite <- E, text_pos_text.
  - by intros [|].
  - intros [|p]; [done|]. simpl. by induction p.
Defined.

Section Tenancy.
Context {UT : UUIDText}.

Definition WithTenant (ctx : Context) (tenantID : string) : result TenancyErr Context :=
  match uuid_Parse tenantID with
  | None => Err (ErrInvalidTenantID tenantID)
  | Some _ => Ok {| ctx_tenant := Some tenantID |}
  end.

Definition TenantFromContext (ctx : Context) : result TenancyErr string :=
  match ctx_tenant ctx with
  | None => Err ErrNoTenant
  | Some v => if bool_decide (v = "") then Err ErrNoTenant else Ok v
  end.

(** Returns the value the GUC [app.current_tenant] holds for the rest of the
    transaction. *)
Definition ApplyTenant (infra : Infra) (ctx : Context) : result TenancyErr string :=
  tenant ← TenantFromContext ctx;
  if set_config_ok infra then Ok tenant else Err ErrSetConfig.

(** ** Transactions *)

Inductive TxErr := TxTenancy (e : TenancyErr) | TxParseTenant | TxBegin | TxCommit.

(** A component's error type includes the failures of the transaction wrapper. *)
Class TxError (E : Type) := tx_error : TxErr → E.

(** What a rollback restores: [rollback before after] is the state left when a
    transaction begun in [before] is abandoned in [after]. *)
Class TxState (S : Type) := rollback : S → S → S.

(** [pool.Begin], [ApplyTenant], the body, [Commit]; the deferred [Rollback]
    takes effect on every path that does not commit. *)
Definition withTx {S E A} `{!TxState S, !TxError E} (infra : Infra) (ctx : Context)
    (body : Tx S E A) : Tx S E A := λ s,
  if negb (begin_ok infra) then (Err (tx_error TxBegin), s) else
  match ApplyTenant infra ctx with
  | Err e => (Err (tx_error (TxTenancy e)), rollback s s)
  | Ok _ =>
      match body s with
      | (Err e, s') => (Err e, rollback s s')
      | (Ok a, s') =>
          if commit_ok infra then (Ok a, s')
          else (Err (tx_error TxCommit), rollback s s')
      end
  end.

Definition inTx {S E A} `{!TxState S, !TxError E} (infra : Infra) (ctx : Context)
    (fn : UUID → Tx S E A) : Tx S E A := λ s,
  match TenantFromContext ctx with
  | Err e => (Err (tx_error (TxTenancy e)), s)
  | Ok tenantStr =>
      match uuid_Parse tenantStr with
      | None => (Err (tx_error TxParseTenant), s)
      | Some tenantID => withTx infra ctx (fn tenantID) s
      end
  end.

(** The tenant a context resolves to. *)
Definition tenant_of (ctx : Context) : option UUID :=
  match TenantFromContext ctx with Ok s => uuid_Parse s | Err _ => None end.

End Tenancy.

(** ** Transactions are atomic *)

(** A state whose database part a rollback restores. *)
Class Atomic {S D} (proj : S → D) `{!TxState S} :=
  rollback_proj (s s' : S) : proj (rollback s s') = proj s.

Section Atomicity.
Context {UT : UUIDText} {S D E A : Type} (proj : S → D) `{!TxState S, !Atomic proj, !TxError E}.

(** A transaction that succeeds ran its body to completion and committed; one
    that fails leaves the database as it found it. *)
Lemma withTx_cases infra ctx (body : Tx S E A) s r s' :
  withTx infra ctx body s = (r, s') →
  (∃ a, r = Ok a ∧ body s = (Ok a, s')) ∨ (∃ e, r = Err e ∧ proj s' = proj s).
Proof using All.
  unfold withTx. intros H. repeat split_match; eauto using rollback_proj.
Qed.

Lemma inTx_cases infra ctx (fn : UUID → Tx S E A) s r s' :
  inTx infra ctx fn s = (r, s') →
  (∃ t a, tenant_of ctx = Some t ∧ r = Ok a ∧ fn t s = (Ok a, s')) ∨
  (∃ e, r = Err e ∧ proj s' = proj s).
Proof using All.
  unfold inTx, tenant_of. intros H. repeat split_match; eauto.
  apply withTx_cases in H as [(? & ? & ?)|]; eauto 10.
Qed.

(** On a healthy pool the outcome is that of the body. *)
Lemma inTx_healthy ctx t (fn : UUID → Tx S E A) s :
  tenant_of ctx = Some t →
  inTx healthy ctx fn s =
  match fn t s with (Err e, s') => (Err e, rollback s s') | ok => ok end.
Proof using All.
  unfold tenant_of, inTx, withTx, ApplyTenant. intros H.
  destruct (TenantFromContext ctx) as [str|] eqn:E1; [|done]. rewrite H. simpl.
  unfold mbind, result_bind. by destruct (fn t s) as [[] ?].
Qed.
End Atomicity.
