(* ===== verification/Json.v ===== *)
(** * JSON as encoding/json reads it, and the canonical writer

    Go's scanner and string decoder on raw bytes, the decoding of a document
    into an untyped value ([any]), [strings.TrimSpace], and the canonical writer
    shared by internal/scope/canonical.go and internal/frameworkscope/canonical.go. *)

From Stdlib Require Import Ascii.
From S2P Require Import Prelude.

(** A Go string or []byte is a [string], one [ascii] per byte. *)
Abbreviation code c := (N_of_ascii c).
Definition byte (n : N) : ascii := ascii_of_N n.

(** JSON text is easier to read with single quotes: [js] turns them into
    double quotes. *)
Fixpoint js (s : string) : string :=
  match s with
  | "" => ""
  | String c s => String (if bool_decide (code c = 39%N) then byte 34 else c) (js s)
  end.

Definition dquote : ascii := byte 34.
Definition bslash : ascii := byte 92.

(** A parsed document: numbers keep their text ([Decoder.UseNumber]), objects
    their members in document order. *)
Inductive json :=
| JNull
| JBool (b : bool)
| JNum (lit : string)
| JStr (s : string)
| JArr (items : list json)
| JObj (members : list (string * json)).

(** ** Lexing *)

Definition is_space (c : ascii) : bool :=
  bool_decide (code c = 32%N) || bool_decide (code c = 9%N) ||
  bool_decide (code c = 13%N) || bool_decide (code c = 10%N).

Fixpoint skip_ws (s : string) : string :=
  match s with
  | String c t => if is_space c then skip_ws t else s
  | "" => ""
  end.

Definition between (lo hi : N) (c : ascii) : bool := (lo <=? code c)%N && (code c <=? hi)%N.
Definition is_digit : ascii → bool := between 48 57.
Definition is_cont : ascii → bool := between 128 191.

(** [utf8.DecodeRuneInString]: the length of the encoded rune at the head, 0
    when it is not a valid encoding. *)
Definition rune_len (s : string) : nat :=
  match s with
  | "" => 0
  | String c0 s1 =>
      if (code c0 <? 128)%N then 1 else
      match s1 with
      | "" => 0
      | String c1 s2 =>
          if between 194 223 c0 then if is_cont c1 then 2 else 0 else
          match s2 with
          | "" => 0
          | String c2 s3 =>
              let lo1 := if (code c0 =? 224)%N then 160%N else 128%N in
              let hi1 := if (code c0 =? 237)%N then 159%N else 191%N in
              if between 224 239 c0 then
                if between lo1 hi1 c1 && is_cont c2 then 3 else 0
              else
              match s3 with
              | "" => 0
              | String c3 _ =>
                  let lo1 := if (code c0 =? 240)%N then 144%N else 128%N in
                  let hi1 := if (code c0 =? 244)%N then 143%N else 191%N in
                  if between 240 244 c0 then
                    if between lo1 hi1 c1 && is_cont c2 && is_cont c3 then 4 else 0
                  else 0
              end
          end
      end
  end.

(** [utf8.EncodeRune] for a rune that is not a surrogate. *)
Definition utf8_encode (r : N) : string :=
  if (r <? 128)%N then String (byte r) ""
  else if (r <? 2048)%N then
    String (byte (192 + r / 64)) (String (byte (128 + r mod 64)) "")
  else if (r <? 65536)%N then
    String (byte (224 + r / 4096)) (String (byte (128 + r / 64 mod 64))
      (String (byte (128 + r mod 64)) ""))
  else
    String (byte (240 + r / 262144)) (String (byte (128 + r / 4096 mod 64))
      (String (byte (128 + r / 64 mod 64)) (String (byte (128 + r mod 64)) ""))).

Definition replacement : string := utf8_encode 65533.

Definition hex_val (c : ascii) : option N :=
  if is_digit c then Some (code c - 48)%N
  else if between 97 102 c then Some (code c - 87)%N
  else if between 65 70 c then Some (code c - 55)%N
  else None.

Definition hex4 (a b c d : ascii) : option N :=
  match hex_val a, hex_val b, hex_val c, hex_val d with
  | Some a, Some b, Some c, Some d => Some (((a * 16 + b) * 16 + c) * 16 + d)%N
  | _, _, _, _ => None
  end.

Definition is_high (r : N) : bool := (55296 <=? r)%N && (r <? 56320)%N.
Definition is_low (r : N) : bool := (56320 <=? r)%N && (r <? 57344)%N.

Definition simple_escape (c : ascii) : option ascii :=
  if bool_decide (c = dquote) || bool_decide (c = bslash) || bool_decide (code c = 47%N) then Some c
  else if bool_decide (code c = 98%N) then Some (byte 8)
  else if bool_decide (code c = 102%N) then Some (byte 12)
  else if bool_decide (code c = 110%N) then Some (byte 10)
  else if bool_decide (code c = 114%N) then Some (byte 13)
  else if bool_decide (code c = 116%N) then Some (byte 9)
  else None.

Definition prepend (a : string) (r : option (string * string)) : option (string * string) :=
  match r with Some (s, rest) => Some (a +:+ s, rest) | None => None end.

(** The body of a string literal, after its opening quote: the decoded bytes
    and what follows the closing quote.  Control characters are rejected, invalid
    UTF-8 becomes U+FFFD one byte at a time, and an unpaired surrogate escape
    becomes U+FFFD. *)
Fixpoint scan_string (s : string) : option (string * string) :=
  match s with
  | "" => None
  | String c s1 =>
      if bool_decide (c = dquote) then Some ("", s1)
      else if bool_decide (c = bslash) then
        match s1 with
        | "" => None
        | String e s2 =>
            if bool_decide (code e = 117%N) then
              match s2 with
              | String h1 (String h2 (String h3 (String h4 s3))) =>
                  match hex4 h1 h2 h3 h4 with
                  | None => None
                  | Some r =>
                      if is_high r || is_low r then
                        match s3 with
                        | String b (String u (String g1 (String g2 (String g3 (String g4 s4))))) =>
                            if bool_decide (b = bslash) && bool_decide (code u = 117%N) && is_high r then
                              match hex4 g1 g2 g3 g4 with
                              | Some r1 =>
                                  if is_low r1
                                  then prepend (utf8_encode (65536 + (r - 55296) * 1024 + (r1 - 56320)))
                                         (scan_string s4)
                                  else prepend replacement (scan_string s3)
                              | None => prepend replacement (scan_string s3)
                              end
                            else prepend replacement (scan_string s3)
                        | _ => prepend replacement (scan_string s3)
                        end
                      else prepend (utf8_encode r) (scan_string s3)
                  end
              | _ => None
              end
            else
              match simple_escape e with
              | Some x => prepend (String x "") (scan_string s2)
              | None => None
              end
        end
      else if (code c <? 32)%N then None
      else
        match rune_len s, s1 with
        | 1%nat, _ => prepend (String c "") (scan_string s1)
        | 2%nat, String c1 s2 => prepend (String c (String c1 "")) (scan_string s2)
        | 3%nat, String c1 (String c2 s3) =>
            prepend (String c (String c1 (String c2 ""))) (scan_string s3)
        | 4%nat, String c1 (String c2 (String c3 s4)) =>
            prepend (String c (String c1 (String c2 (String c3 "")))) (scan_string s4)
        | _, _ => prepend replacement (scan_string s1)
        end
  end.

Fixpoint span_digits (s : string) : string * string :=
  match s with
  | String c t => if is_digit c then let '(a, b) := span_digits t in (String c a, b) else ("", s)
  | "" => ("", "")
  end.

Definition scan_frac (s : string) : option (string * string) :=
  match s with
  | String c t =>
      if bool_decide (code c = 46%N) then
        match span_digits t with
        | ("", _) => None
        | (ds, rest) => Some (String c ds, rest)
        end
      else Some ("", s)
  | "" => Some ("", "")
  end.

Definition scan_exp (s : string) : option (string * string) :=
  match s with
  | String c t =>
      if bool_decide (code c = 101%N) || bool_decide (code c = 69%N) then
        let '(sign, t) := match t with
                          | String g t' =>
                              if bool_decide (code g = 43%N) || bool_decide (code g = 45%N)
                              then (String g "", t') else ("", t)
                          | "" => ("", "")
                          end in
        match span_digits t with
        | ("", _) => None
        | (ds, rest) => Some (String c (sign +:+ ds), rest)
        end
      else Some ("", s)
  | "" => Some ("", "")
  end.

Definition scan_int (s : string) : option (string * string) :=
  match s with
  | String c t =>
      if bool_decide (code c = 48%N) then Some (String c "", t)
      else if is_digit c then let '(ds, rest) := span_digits t in Some (String c ds, rest)
      else None
  | "" => None
  end.

Definition scan_number (s : string) : option (string * string) :=
  let '(sign, s) := match s with
                    | String c t => if bool_decide (code c = 45%N) then (String c "", t) else ("", s)
                    | "" => ("", "")
                    end in
  '(i, s) ← scan_int s; '(f, s) ← scan_frac s; '(e, s) ← scan_exp s;
  Some (sign +:+ i +:+ f +:+ e, s).

(** Strips [p] from the front of [s]. *)
Fixpoint strip (p s : string) : option string :=
  match p, s with
  | "", _ => Some s
  | String a p, String b s => if bool_decide (a = b) then strip p s else None
  | _, "" => None
  end.

(** ** Parsing *)

Section Containers.
Context (value : string → option (json * string)).

(** Elements of an array after its first one was announced; [n] bounds the
    number of elements, and every element takes at least one byte. *)
Fixpoint scan_items (n : nat) (s : string) : option (list json * string) :=
  match n with
  | O => None
  | S n =>
      '(v, s) ← value s;
      match skip_ws s with
      | String c t =>
          if bool_decide (code c = 44%N) then '(vs, s) ← scan_items n (skip_ws t); Some (v :: vs, s)
          else if bool_decide (code c = 93%N) then Some ([v], t)
          else None
      | "" => None
      end
  end.

Fixpoint scan_members (n : nat) (s : string) : option (list (string * json) * string) :=
  match n with
  | O => None
  | S n =>
      match s with
      | String q s =>
          if bool_decide (q = dquote) then
            '(k, s) ← scan_string s;
            match skip_ws s with
            | String c s =>
                if bool_decide (code c = 58%N) then
                  '(v, s) ← value (skip_ws s);
                  match skip_ws s with
                  | String c t =>
                      if bool_decide (code c = 44%N) then
                        '(ms, s) ← scan_members n (skip_ws t); Some ((k, v) :: ms, s)
                      else if bool_decide (code c = 125%N) then Some ([(k, v)], t)
                      else None
                  | "" => None
                  end
                else None
            | "" => None
            end
          else None
      | "" => None
      end
  end.
End Containers.

(** One value at the head of [s] (no leading space).  [depth] is how many more
    containers may be opened: Go stops at 10000. *)
Fixpoint scan_value (depth : nat) (s : string) : option (json * string) :=
  match s with
  | "" => None
  | String c t =>
      if bool_decide (c = dquote) then '(x, s) ← scan_string t; Some (JStr x, s)
      else if bool_decide (code c = 110%N) then s ← strip "null" s; Some (JNull, s)
      else if bool_decide (code c = 116%N) then s ← strip "true" s; Some (JBool true, s)
      else if bool_decide (code c = 102%N) then s ← strip "false" s; Some (JBool false, s)
      else if bool_decide (code c = 91%N) then
        match depth with
        | O => None
        | S depth =>
            match skip_ws t with
            | String c' t' =>
                if bool_decide (code c' = 93%N) then Some (JArr [], t')
                else '(vs, s) ← scan_items (scan_value depth) (String.length t) (skip_ws t);
                     Some (JArr vs, s)
            | "" => None
            end
        end
      else if bool_decide (code c = 123%N) then
        match depth with
        | O => None
        | S depth =>
            match skip_ws t with
            | String c' t' =>
                if bool_decide (code c' = 125%N) then Some (JObj [], t')
                else '(ms, s) ← scan_members (scan_value depth) (String.length t) (skip_ws t);
                     Some (JObj ms, s)
            | "" => None
            end
        end
      else '(n, s) ← scan_number s; Some (JNum n, s)
  end.

Definition maxNestingDepth : nat := 10000.
#[global] Opaque maxNestingDepth.

(** [Decoder.Decode]: the first value of a stream; what follows is left unread. *)
Definition decode_first (s : string) : option json :=
  '(v, _) ← scan_value maxNestingDepth (skip_ws s); Some v.

(** [checkValid] and the syntax side of [json.Unmarshal]: nothing but space may
    follow the value. *)
Definition decode_all (s : string) : option json :=
  '(v, rest) ← scan_value maxNestingDepth (skip_ws s);
  if bool_decide (skip_ws rest = "") then Some v else None.

Example decode_mixed :
  decode_all (js " {'a' : [1, -2.5e+3, true ], 'b':null}") =
  Some (JObj [("a", JArr [JNum "1"; JNum "-2.5e+3"; JBool true]); ("b", JNull)]).
Proof. vm_compute. reflexivity. Qed.

Example decode_escapes :
  decode_all (js "'\u0041\n\ud83d\ude00\ud800x'") =
  Some (JStr ("A" +:+ String (byte 10) "" +:+ utf8_encode 128512 +:+ replacement +:+ "x")).
Proof. vm_compute. reflexivity. Qed.

Example decode_rejects :
  decode_all "01" = None ∧ decode_all "[1,]" = None ∧ decode_all (js "{'a':1} x") = None ∧
  decode_first (js "{'a':1} x") = Some (JObj [("a", JNum "1")]).
Proof. vm_compute. repeat split. Qed.

(** ** Decoding into [any] *)

(** A Go [map[string]any] as its association list in key order: assignment
    replaces the value of an existing key. *)
Fixpoint map_put {A} (k : string) (v : A) (m : list (string * A)) : list (string * A) :=
  match m with
  | [] => [(k, v)]
  | (k', v') :: m' =>
      match String.compare k k' with
      | Lt => (k, v) :: m
      | Eq => (k, v) :: m'
      | Gt => (k', v') :: map_put k v m'
      end
  end.

Definition map_of {A} (ms : list (string * A)) : list (string * A) :=
  fold_left (λ m kv, map_put kv.1 kv.2 m) ms [].

(** The untyped value of a document: a repeated key keeps its last value. *)
Fixpoint to_any (j : json) : json :=
  match j with
  | JArr items => JArr (map to_any items)
  | JObj ms => JObj (map_of (map (λ kv, (kv.1, to_any kv.2)) ms))
  | _ => j
  end.

(** ** The canonical writer *)

Definition hex_digit (n : N) : ascii := if (n <? 10)%N then byte (48 + n) else byte (87 + n).

(** One byte of a string literal. *)
Definition escape_byte (c : ascii) : string :=
  if bool_decide (c = dquote) then String bslash (String dquote "")
  else if bool_decide (c = bslash) then String bslash (String bslash "")
  else if bool_decide (code c = 10%N) then String bslash "n"
  else if bool_decide (code c = 13%N) then String bslash "r"
  else if bool_decide (code c = 9%N) then String bslash "t"
  else if (code c <? 32)%N then
    String bslash ("u00" +:+ String (hex_digit (code c / 16)) (String (hex_digit (code c mod 16)) ""))
  else String c "".

Fixpoint escape (s : string) : string :=
  match s with
  | "" => ""
  | String c t => escape_byte c +:+ escape t
  end.

Definition quote (s : string) : string := String dquote (escape s +:+ String dquote "").

Fixpoint join (sep : string) (l : list string) : string :=
  match l with
  | [] => ""
  | [x] => x
  | x :: l => x +:+ sep +:+ join sep l
  end.

Definition key_le {A} (p q : string * A) : Prop := String.le p.1 q.1.
#[global] Instance key_le_dec {A} : RelDecision (@key_le A).
Proof. intros p q. unfold key_le. apply _. Defined.

(** Keys sorted inside every object, no space, numbers as they were read. *)
Fixpoint encode_canonical (j : json) : string :=
  match j with
  | JNull => "null"
  | JBool true => "true"
  | JBool false => "false"
  | JNum n => n
  | JStr s => quote s
  | JArr items => "[" +:+ join "," (map encode_canonical items) +:+ "]"
  | JObj ms =>
      "{" +:+ join "," (map (λ kv, quote kv.1 +:+ ":" +:+ kv.2)
                          (merge_sort key_le (map (λ kv, (kv.1, encode_canonical kv.2)) ms)))
          +:+ "}"
  end.

(** ** [strings.TrimSpace] *)

(** The Unicode space at the head of [s], by its length in bytes (0: none). *)
Definition space_len (s : string) : nat :=
  match s with
  | "" => 0
  | String c0 s1 =>
      if between 9 13 c0 || bool_decide (code c0 = 32%N) then 1 else
      match s1 with
      | "" => 0
      | String c1 s2 =>
          if bool_decide (code c0 = 194%N) && (bool_decide (code c1 = 133%N) || bool_decide (code c1 = 160%N))
          then 2 else
          match s2 with
          | "" => 0
          | String c2 _ =>
              if (bool_decide (code c0 = 225%N) && bool_decide (code c1 = 154%N) && bool_decide (code c2 = 128%N))
                 || (bool_decide (code c0 = 226%N) && bool_decide (code c1 = 128%N) &&
                     (between 128 138 c2 || bool_decide (code c2 = 168%N) || bool_decide (code c2 = 169%N) ||
                      bool_decide (code c2 = 175%N)))
                 || (bool_decide (code c0 = 226%N) && bool_decide (code c1 = 129%N) && bool_decide (code c2 = 159%N))
                 || (bool_decide (code c0 = 227%N) && bool_decide (code c1 = 128%N) && bool_decide (code c2 = 128%N))
              then 3 else 0
          end
      end
  end.

Fixpoint trim_left (s : string) : string :=
  match s with
  | "" => ""
  | String c0 s1 =>
      match space_len s, s1 with
      | 1%nat, _ => trim_left s1
      | 2%nat, String _ s2 => trim_left s2
      | 3%nat, String _ (String _ s3) => trim_left s3
      | _, _ => s
      end
  end.

(** Drops the longest suffix that is all space. *)
Fixpoint trim_right (s : string) : string :=
  match s with
  | "" => ""
  | String c t => if bool_decide (trim_left s = "") then "" else String c (trim_right t)
  end.

Definition TrimSpace (s : string) : string := trim_right (trim_left s).

(** An ASCII byte that is not a space stops trimming on either side. *)
Definition solid (c : ascii) : bool :=
  (code c <? 128)%N && negb (between 9 13 c || bool_decide (code c = 32%N)).

Lemma trim_left_solid c t : solid c = true → trim_left (String c t) = String c t.
Proof.
  unfold solid. intros [Hc Hs]%andb_true_iff. apply N.ltb_lt in Hc. apply negb_true_iff in Hs.
  assert (space_len (String c t) = 0%nat) as E; [|cbn [trim_left]; by rewrite E].
  unfold space_len. rewrite Hs. destruct t as [|c1 [|c2 t]]; [done|..];
    rewrite !(bool_decide_eq_false_2 (code c = _)) by lia; done.
Qed.

Lemma trim_right_solid c t : solid c = true → trim_right (String c t) = String c (trim_right t).
Proof. intros H. cbn [trim_right]. by rewrite trim_left_solid. Qed.

Example trim_nbsp :
  TrimSpace (String (byte 194) (String (byte 160) (" a b" +:+ String (byte 10) ""))) = "a b".
Proof. vm_compute. reflexivity. Qed.

Example encode_sorted :
  encode_canonical (to_any (JObj [("b", JNum "1"); ("a", JStr (js "x'y")); ("b", JNull)])) =
  js "{'a':'x\'y','b':null}".
Proof. vm_compute. reflexivity. Qed.

(** ** What is written is read back *)

Fixpoint utf8_valid (s : string) : bool :=
  match s with
  | "" => true
  | String c s1 =>
      match rune_len s, s1 with
      | 1%nat, _ => utf8_valid s1
      | 2%nat, String _ s2 => utf8_valid s2
      | 3%nat, String _ (String _ s3) => utf8_valid s3
      | 4%nat, String _ (String _ (String _ s4)) => utf8_valid s4
      | _, _ => false
      end
  end.

Lemma str_app_cons c (a b : string) : String c a +:+ b = String c (a +:+ b).
Proof. done. Qed.

Lemma str_nil_app (a : string) : "" +:+ a = a.
Proof. done. Qed.

Lemma str_app_assoc (a b c : string) : (a +:+ b) +:+ c = a +:+ b +:+ c.
Proof. induction a as [|x a IH]; [done|]. by rewrite !str_app_cons, IH. Qed.

Lemma str_app_nil (a : string) : a +:+ "" = a.
Proof. induction a as [|x a IH]; [done|]. by rewrite !str_app_cons, IH. Qed.

Lemma prepend_Some a s rest : prepend a (Some (s, rest)) = Some (a +:+ s, rest).
Proof. done. Qed.

(** Bytes from 128 up are written as they are. *)
Lemma escape_byte_high c : (128 <= code c)%N → escape_byte c = String c "".
Proof. destruct c as [[] [] [] [] [] [] [] []]; (done || by vm_compute). Qed.

(** An ASCII byte, escaped or not, is read back as itself. *)
Lemma scan_escape_ascii c t :
  (code c < 128)%N →
  scan_string (escape_byte c +:+ t) = prepend (String c "") (scan_string t).
Proof. destruct c as [[] [] [] [] [] [] [] []]; intros H; (by vm_compute in H) || done. Qed.

Lemma rune_len_1 c s : rune_len (String c s) = 1%nat → (code c < 128)%N.
Proof. unfold rune_len. intros. repeat case_match; try done. by apply N.ltb_lt. Qed.

Lemma scan_high c s :
  (128 <= code c)%N →
  scan_string (String c s) =
  match rune_len (String c s), s with
  | 1%nat, _ => prepend (String c "") (scan_string s)
  | 2%nat, String c1 s2 => prepend (String c (String c1 "")) (scan_string s2)
  | 3%nat, String c1 (String c2 s3) =>
      prepend (String c (String c1 (String c2 ""))) (scan_string s3)
  | 4%nat, String c1 (String c2 (String c3 s4)) =>
      prepend (String c (String c1 (String c2 (String c3 "")))) (scan_string s4)
  | _, _ => prepend replacement (scan_string s)
  end.
Proof.
  intros H. cbn [scan_string].
  rewrite !bool_decide_eq_false_2 by (intros ->; vm_compute in H; by apply H).
  destruct (N.ltb_spec (code c) 32); [lia|done].
Qed.

Lemma between_spec lo hi c : between lo hi c = true ↔ (lo <= code c <= hi)%N.
Proof. unfold between. by rewrite andb_true_iff, !N.leb_le. Qed.

Ltac bytes :=
  repeat match goal with
    | H : (_ && _) = true |- _ => apply andb_true_iff in H as []
    | H : between _ _ _ = true |- _ => apply between_spec in H
    | H : is_cont _ = true |- _ => apply between_spec in H
    | H : (_ <? _)%N = false |- _ => apply N.ltb_ge in H
    end.

(** A multi-byte rune is recognised by its own bytes, whatever follows, and all
    of them are above the ASCII range. *)
Lemma rune_len_2 c c1 s :
  rune_len (String c (String c1 s)) = 2%nat →
  (128 <= code c)%N ∧ (128 <= code c1)%N ∧ ∀ t, rune_len (String c (String c1 t)) = 2%nat.
Proof.
  unfold rune_len. destruct (code c <? 128)%N eqn:E0; [done|].
  destruct (between 194 223 c) eqn:E1.
  - destruct (is_cont c1) eqn:E2; [|done]. intros _. bytes. split_and!; (lia || done).
  - intros H. exfalso. repeat case_match; done.
Qed.

Lemma rune_len_3 c c1 c2 s :
  rune_len (String c (String c1 (String c2 s))) = 3%nat →
  (128 <= code c)%N ∧ (128 <= code c1)%N ∧ (128 <= code c2)%N ∧
  ∀ t, rune_len (String c (String c1 (String c2 t))) = 3%nat.
Proof.
  unfold rune_len. destruct (code c <? 128)%N eqn:E0; [done|].
  destruct (between 194 223 c) eqn:E1; [by destruct (is_cont c1)|].
  destruct (between 224 239 c) eqn:E2.
  - destruct (between _ _ c1 && is_cont c2) eqn:E3; [|done]. intros _. bytes.
    split_and!; try done; try lia; destruct (code c =? 224)%N; lia.
  - intros H. exfalso. repeat case_match; done.
Qed.

Lemma rune_len_4 c c1 c2 c3 s :
  rune_len (String c (String c1 (String c2 (String c3 s)))) = 4%nat →
  (128 <= code c)%N ∧ (128 <= code c1)%N ∧ (128 <= code c2)%N ∧ (128 <= code c3)%N ∧
  ∀ t, rune_len (String c (String c1 (String c2 (String c3 t)))) = 4%nat.
Proof.
  unfold rune_len. destruct (code c <? 128)%N eqn:E0; [done|].
  destruct (between 194 223 c) eqn:E1; [by destruct (is_cont c1)|].
  destruct (between 224 239 c) eqn:E2; [by destruct (_ && _)|].
  destruct (between 240 244 c) eqn:E3; [|done].
  destruct (between _ _ c1 && is_cont c2 && is_cont c3) eqn:E4; [|done]. intros _. bytes.
  split_and!; try done; try lia; destruct (code c =? 240)%N; lia.
Qed.

Lemma escape_cons_high c t : (128 <= code c)%N → escape (String c t) = String c (escape t).
Proof. intros. simpl. by rewrite escape_byte_high. Qed.

Lemma scan_escape s rest :
  utf8_valid s = true → scan_string (escape s +:+ String dquote rest) = Some (s, rest).
Proof.
  remember (String.length s) as n eqn:Hn. revert s Hn.
  induction n as [n IH] using (well_founded_induction Nat.lt_wf_0). intros s -> Hv.
  destruct s as [|c s1]; [done|]. cbn [utf8_valid] in Hv.
  destruct (rune_len (String c s1)) as [|[|[|[|[|]]]]] eqn:E; try done.
  - apply rune_len_1 in E. cbn [escape]. rewrite str_app_assoc, scan_escape_ascii by done.
    by rewrite (IH (String.length s1)) by (simpl; auto; lia).
  - destruct s1 as [|c1 s2]; [done|]. apply rune_len_2 in E as (H0 & H1 & Ht).
    rewrite !escape_cons_high, !str_app_cons, scan_high, Ht by done.
    by rewrite (IH (String.length s2)) by (simpl; auto; lia).
  - destruct s1 as [|c1 [|c2 s3]]; [done..|]. apply rune_len_3 in E as (H0 & H1 & H2 & Ht).
    rewrite !escape_cons_high, !str_app_cons, scan_high, Ht by done.
    by rewrite (IH (String.length s3)) by (simpl; auto; lia).
  - destruct s1 as [|c1 [|c2 [|c3 s4]]]; [done..|].
    apply rune_len_4 in E as (H0 & H1 & H2 & H3 & Ht).
    rewrite !escape_cons_high, !str_app_cons, scan_high, Ht by done.
    by rewrite (IH (String.length s4)) by (simpl; auto; lia).
Qed.

(** What may follow a value inside a document: nothing, a comma or a closing
    bracket. *)
Definition stops (s : string) : Prop :=
  match s with
  | "" => True
  | String c _ => code c = 44%N ∨ code c = 93%N ∨ code c = 125%N
  end.

Lemma code_inj c d : code c = code d → c = d.
Proof. intros H. by rewrite <- (ascii_N_embedding c), H, ascii_N_embedding. Qed.

Lemma stops_cases s :
  stops s → s = "" ∨ ∃ c t, s = String c t ∧ (c = byte 44 ∨ c = byte 93 ∨ c = byte 125).
Proof.
  destruct s as [|c t]; [by left|]. intros H. right. exists c, t. split; [done|].
  destruct H as [H|[H|H]]; [left|right; left|right; right]; by apply code_inj.
Qed.

(** Case analysis on what follows: five concrete shapes. *)
Ltac stop_cases H :=
  apply stops_cases in H as [->|(? & ? & -> & [->|[->| ->]])].

Lemma span_digits_app s rest :
  stops rest → span_digits (s +:+ rest) = (let '(a, b) := span_digits s in (a, b +:+ rest)).
Proof.
  intros Hr. induction s as [|c s IH].
  - stop_cases Hr; done.
  - rewrite str_app_cons. cbn [span_digits]. destruct (is_digit c); [|done].
    rewrite IH. by destruct (span_digits s).
Qed.

Lemma scan_frac_app s rest a b :
  stops rest → scan_frac s = Some (a, b) → scan_frac (s +:+ rest) = Some (a, b +:+ rest).
Proof.
  intros Hr. destruct s as [|c s].
  - intros [= <- <-]. stop_cases Hr; done.
  - rewrite str_app_cons. cbn [scan_frac]. case_bool_decide; [|by intros [= <- <-]].
    rewrite span_digits_app by done. destruct (span_digits s) as [[|x ds] r]; [done|].
    by intros [= <- <-].
Qed.

Lemma scan_exp_app s rest a b :
  stops rest → scan_exp s = Some (a, b) → scan_exp (s +:+ rest) = Some (a, b +:+ rest).
Proof.
  intros Hr. destruct s as [|c s].
  - intros [= <- <-]. stop_cases Hr; done.
  - rewrite str_app_cons. cbn [scan_exp]. case_match; [|by intros [= <- <-]].
    destruct s as [|g s].
    { done. }
    rewrite str_app_cons.
    destruct (bool_decide (code g = 43%N) || bool_decide (code g = 45%N)); cbv iota beta.
    + rewrite span_digits_app by done. destruct (span_digits s) as [[|x ds] r]; [done|].
      by intros [= <- <-].
    + rewrite <- str_app_cons, span_digits_app by done.
      destruct (span_digits (String g s)) as [[|x ds] r]; [done|]. by intros [= <- <-].
Qed.

Lemma scan_int_app s rest a b :
  stops rest → scan_int s = Some (a, b) → scan_int (s +:+ rest) = Some (a, b +:+ rest).
Proof.
  intros Hr. destruct s as [|c s]; [done|]. rewrite str_app_cons. cbn [scan_int].
  case_bool_decide; [by intros [= <- <-]|]. case_match; [|done].
  rewrite span_digits_app by done. destruct (span_digits s). by intros [= <- <-].
Qed.

Lemma scan_number_app s rest a b :
  stops rest → scan_number s = Some (a, b) → scan_number (s +:+ rest) = Some (a, b +:+ rest).
Proof.
  intros Hr. unfold scan_number. destruct s as [|c s]; [done|].
  assert (∀ sign t,
    ('(i, s) ← scan_int t; '(f, s) ← scan_frac s; '(e, s) ← scan_exp s;
       Some (sign +:+ i +:+ f +:+ e, s)) = Some (a, b) →
    ('(i, s) ← scan_int (t +:+ rest); '(f, s) ← scan_frac s; '(e, s) ← scan_exp s;
       Some (sign +:+ i +:+ f +:+ e, s)) = Some (a, b +:+ rest)) as Hrun.
  { intros sign t H.
    destruct (scan_int t) as [[i s1]|] eqn:E1; simplify_eq/=.
    destruct (scan_frac s1) as [[f s2]|] eqn:E2; simplify_eq/=.
    destruct (scan_exp s2) as [[e s3]|] eqn:E3; simplify_eq/=.
    rewrite (scan_int_app _ _ _ _ Hr E1). simpl.
    rewrite (scan_frac_app _ _ _ _ Hr E2). simpl.
    by rewrite (scan_exp_app _ _ _ _ Hr E3). }
  rewrite str_app_cons. case_bool_decide; [apply Hrun|].
  rewrite <- str_app_cons. apply Hrun.
Qed.

(** ** Well-formed values *)

Definition key_lt {A} (p q : string * A) : Prop := String.compare p.1 q.1 = Lt.

(** The values a decoder can produce: valid UTF-8, literal numbers, objects with
    strictly increasing keys. *)
Inductive wf : json → Prop :=
| wf_null : wf JNull
| wf_bool b : wf (JBool b)
| wf_num n : scan_number n = Some (n, "") → wf (JNum n)
| wf_str s : utf8_valid s = true → wf (JStr s)
| wf_arr l : Forall wf l → wf (JArr l)
| wf_obj ms :
    Forall (λ kv, utf8_valid kv.1 = true ∧ wf kv.2) ms → StronglySorted key_lt ms → wf (JObj ms).

Fixpoint height (j : json) : nat :=
  match j with
  | JArr l => S (max_list (map height l))
  | JObj ms => S (max_list (map (λ kv, height kv.2) ms))
  | _ => 0
  end.

(** Induction over documents with hypotheses for items and member values. *)
Fixpoint json_rect' (P : json → Prop)
    (Hnull : P JNull) (Hbool : ∀ b, P (JBool b)) (Hnum : ∀ n, P (JNum n)) (Hstr : ∀ s, P (JStr s))
    (Harr : ∀ l, Forall P l → P (JArr l))
    (Hobj : ∀ ms, Forall (λ kv, P kv.2) ms → P (JObj ms)) (j : json) : P j :=
  let rec := json_rect' P Hnull Hbool Hnum Hstr Harr Hobj in
  match j with
  | JNull => Hnull
  | JBool b => Hbool b
  | JNum n => Hnum n
  | JStr s => Hstr s
  | JArr l => Harr l ((fix go l : Forall P l :=
                         match l with
                         | [] => List.Forall_nil _
                         | x :: l => List.Forall_cons _ _ _ (rec x) (go l)
                         end) l)
  | JObj ms => Hobj ms ((fix go ms : Forall (λ kv, P kv.2) ms :=
                           match ms with
                           | [] => List.Forall_nil _
                           | kv :: ms => List.Forall_cons _ kv _ (rec kv.2) (go ms)
                           end) ms)
  end.

(** ** Sorting sorted members changes nothing *)

Lemma compare_lt_le s t : String.compare s t = Lt → String.le s t.
Proof. unfold String.le, String.leb. by intros ->. Qed.

Lemma compare_lt_irrefl s : String.compare s s ≠ Lt.
Proof.
  intros H. pose proof (String.compare_antisym s s) as Ha. by rewrite H in Ha.
Qed.

Lemma str_lt_trans s t u : String.compare s t = Lt → String.compare t u = Lt → String.compare s u = Lt.
Proof.
  intros H1 H2. assert (Hle : String.le s u) by (trans t; by apply compare_lt_le).
  unfold String.le, String.leb in Hle. destruct (String.compare s u) eqn:E; [|done..].
  apply String.compare_eq_iff in E as ->. by rewrite String.compare_antisym, H2 in H1.
Qed.

#[global] Instance key_le_total {A} : Total (@key_le A).
Proof. intros p q. unfold key_le. destruct (total String.le p.1 q.1); auto. Qed.
#[global] Instance key_le_trans {A} : Transitive (@key_le A).
Proof. intros p q r. unfold key_le. by etrans. Qed.

Lemma strictly_sorted_inj {A} (l : list (string * A)) p q :
  StronglySorted key_lt l → p ∈ l → q ∈ l → p.1 = q.1 → p = q.
Proof.
  induction 1 as [|x l Hl IH Hx]; [by intros ?%elem_of_nil|].
  rewrite Forall_forall in Hx.
  intros [->|Hp]%elem_of_cons [->|Hq]%elem_of_cons He; auto; exfalso.
  - apply (compare_lt_irrefl x.1). rewrite He at 2. by apply Hx.
  - apply (compare_lt_irrefl x.1). rewrite <- He at 2. by apply Hx.
Qed.

Lemma StronglySorted_impl {A} (R S : relation A) l :
  (∀ x y, R x y → S x y) → StronglySorted R l → StronglySorted S l.
Proof. intros H. induction 1; constructor; [done|]. eapply Forall_impl; eauto. Qed.

Lemma sort_sorted {A} (l : list (string * A)) :
  StronglySorted key_lt l → merge_sort key_le l = l.
Proof.
  intros Hl. symmetry. eapply (StronglySorted_unique_strong key_le).
  - intros p q Hp Hq Hpq Hqp. eapply strictly_sorted_inj; [done..| |].
    + by rewrite (merge_sort_Permutation key_le) in Hq.
    + by apply (anti_symm String.le).
  - eapply StronglySorted_impl; [|exact Hl]. intros x y. apply compare_lt_le.
  - apply StronglySorted_merge_sort; apply _.
  - symmetry. apply merge_sort_Permutation.
Qed.

Lemma StronglySorted_key_map {A B} (f : A → B) (l : list (string * A)) :
  StronglySorted key_lt l → StronglySorted key_lt (map (λ kv, (kv.1, f kv.2)) l).
Proof.
  induction 1 as [|x l Hl IH Hx]; constructor; [done|].
  rewrite Forall_forall in Hx. apply Forall_forall. intros y Hy.
  apply list_elem_of_In, in_map_iff in Hy as (z & <- & Hz%list_elem_of_In).
  exact (Hx z Hz).
Qed.

(** ** Writing in member order *)

(** The values a writer can print: valid UTF-8 and literal numbers. *)
Inductive writable : json → Prop :=
| writable_null : writable JNull
| writable_bool b : writable (JBool b)
| writable_num n : scan_number n = Some (n, "") → writable (JNum n)
| writable_str s : utf8_valid s = true → writable (JStr s)
| writable_arr l : Forall writable l → writable (JArr l)
| writable_obj ms : Forall (λ kv, utf8_valid kv.1 = true ∧ writable kv.2) ms → writable (JObj ms).

(** A way to print strings that the scanner reads back. *)
Class Quoting (q : string → string) :=
  quoting s rest : utf8_valid s = true → ∃ body,
    q s +:+ rest = String dquote body ∧ scan_string body = Some (s, rest).

#[global] Instance quote_quoting : Quoting quote.
Proof.
  intros s rest Hs. exists (escape s +:+ String dquote rest). split; [|by apply scan_escape].
  unfold quote. by rewrite str_app_cons, str_app_assoc, str_app_cons, str_nil_app.
Qed.

(** No space, members in the order given. *)
Fixpoint render (q : string → string) (j : json) : string :=
  match j with
  | JNull => "null"
  | JBool true => "true"
  | JBool false => "false"
  | JNum n => n
  | JStr s => q s
  | JArr items => "[" +:+ join "," (map (render q) items) +:+ "]"
  | JObj ms => "{" +:+ join "," (map (λ kv, q kv.1 +:+ ":" +:+ render q kv.2) ms) +:+ "}"
  end.

Lemma wf_writable v : wf v → writable v.
Proof.
  induction v as [| | | |l IH|ms IH] using json_rect'; intros H; inversion H; subst; constructor; auto.
  - rewrite Forall_forall in *. auto.
  - rewrite Forall_forall in *. naive_solver.
Qed.

Lemma encode_obj ms :
  StronglySorted key_lt ms →
  encode_canonical (JObj ms) =
  "{" +:+ join "," (map (λ kv, quote kv.1 +:+ ":" +:+ encode_canonical kv.2) ms) +:+ "}".
Proof.
  intros H. cbn [encode_canonical].
  rewrite (sort_sorted (map _ ms)) by by apply StronglySorted_key_map. by rewrite map_map.
Qed.

(** On values whose members are sorted the canonical writer is [render]. *)
Lemma encode_render v : wf v → encode_canonical v = render quote v.
Proof.
  induction v as [| | | |l IH|ms IH] using json_rect'; intros H; inversion H as [| | | |? Hl|? Hms Hs]; subst; try done.
  - cbn [encode_canonical render]. f_equal. f_equal. f_equal. apply map_ext_in.
    rewrite Forall_forall in *. intros x Hx%list_elem_of_In. auto.
  - rewrite encode_obj by done. cbn [render]. f_equal. f_equal. f_equal. apply map_ext_in.
    rewrite Forall_forall in *. intros x Hx%list_elem_of_In. simpl. by rewrite IH by naive_solver.
Qed.

(** ** Reading back *)

Definition opens (s : string) : Prop :=
  ∃ c t, s = String c t ∧ is_space c = false ∧ code c ≠ 93%N ∧ code c ≠ 125%N.

Lemma opens_app s t : opens s → opens (s +:+ t).
Proof. intros (c & u & -> & ?). exists c, (u +:+ t). by rewrite str_app_cons. Qed.

Lemma opens_skip s : opens s → skip_ws s = s.
Proof. intros (c & t & -> & H & _). simpl. by rewrite H. Qed.

Lemma number_head n : scan_number n = Some (n, "") → ∃ c t, n = String c t ∧ (is_digit c = true ∨ code c = 45%N).
Proof.
  destruct n as [|c t]; [done|]. intros H. exists c, t. split; [done|].
  unfold scan_number in H. case_bool_decide; [by right|]. left.
  destruct (scan_int (String c t)) as [[i u]|] eqn:E; [|done]. clear H.
  unfold scan_int in E. destruct (bool_decide_reflect (code c = 48%N)) as [H1|].
  - unfold is_digit, between. by rewrite H1.
  - by destruct (is_digit c).
Qed.

Lemma number_head_bytes c : is_digit c = true ∨ code c = 45%N → (45 <= code c <= 57)%N.
Proof. intros [H|H]; [apply between_spec in H|]; lia. Qed.

Lemma scan_value_number d n rest :
  stops rest → scan_number n = Some (n, "") → scan_value d (n +:+ rest) = Some (JNum n, rest).
Proof.
  intros Hr Hn. pose proof (scan_number_app _ _ _ _ Hr Hn) as E.
  apply number_head in Hn as (c & t & -> & Hc%number_head_bytes).
  rewrite str_app_cons in *.
  assert (c ≠ dquote) by (intros ->; vm_compute in Hc; naive_solver).
  destruct d; cbn [scan_value]; rewrite !bool_decide_eq_false_2 by (done || lia); by rewrite E.
Qed.

Lemma length_app_str a b : String.length (a +:+ b) = (String.length a + String.length b)%nat.
Proof. induction a as [|c a IH]; [done|]. rewrite str_app_cons. simpl. by rewrite IH. Qed.

Lemma join_opens v vs : opens v → opens (join "," (v :: vs)).
Proof. intros H. destruct vs; [done|]. by apply opens_app. Qed.

Lemma length_join l : Forall opens l → (length l ≤ String.length (join "," l))%nat.
Proof.
  induction 1 as [|v l (c & t & -> & _) Hl IH]; [simpl; lia|].
  destruct l as [|w l]; [simpl; lia|].
  change (join "," (String c t :: w :: l)) with (String c t +:+ "," +:+ join "," (w :: l)).
  rewrite !length_app_str. simpl in *. lia.
Qed.

Lemma le_max_list n l : n ∈ l → (n ≤ max_list l)%nat.
Proof. induction l as [|m l IH]; [by intros ?%elem_of_nil|]. intros [->|H]%elem_of_cons; simpl; [lia|]. apply IH in H. lia. Qed.

Lemma scan_value_arr d body :
  opens body →
  scan_value (S d) ("[" +:+ body) =
  ('(vs, s) ← scan_items (scan_value d) (String.length body) body; Some (JArr vs, s)).
Proof.
  intros H. pose proof (opens_skip _ H) as Hs. destruct H as (c & t & -> & _ & Hc & _).
  rewrite str_app_cons, str_nil_app. cbn [scan_value]. rewrite Hs. simpl.
  by rewrite (bool_decide_eq_false_2 (code c = 93%N)).
Qed.

Lemma scan_value_obj d body :
  opens body →
  scan_value (S d) ("{" +:+ body) =
  ('(ms, s) ← scan_members (scan_value d) (String.length body) body; Some (JObj ms, s)).
Proof.
  intros H. pose proof (opens_skip _ H) as Hs. destruct H as (c & t & -> & _ & _ & Hc).
  rewrite str_app_cons, str_nil_app. cbn [scan_value]. rewrite Hs. simpl.
  by rewrite (bool_decide_eq_false_2 (code c = 125%N)).
Qed.

(** The encoded elements are not longer than their text, so the fuel the
    scanner gives itself is enough. *)
Lemma fuel_enough {A} (f : A → string) (l : list A) rest :
  (∀ x, x ∈ l → opens (f x)) → (length l ≤ String.length (join "," (map f l) +:+ rest))%nat.
Proof.
  intros H. rewrite length_app_str. etrans; [|apply Nat.le_add_r].
  rewrite <- (length_map f). apply length_join. apply Forall_forall.
  intros x (w & <- & Hw%list_elem_of_In)%list_elem_of_In%in_map_iff. auto.
Qed.

Section Reading.
Context (q : string → string) {Q : Quoting q}.

Definition render_member (kv : string * json) : string := q kv.1 +:+ ":" +:+ render q kv.2.

Lemma quoting_opens s : utf8_valid s = true → opens (q s).
Proof using Q.
  intros Hs. destruct (quoting (q := q) s "" Hs) as (body & E & _). rewrite str_app_nil in E.
  exists dquote, body. split; [done|]. vm_compute. done.
Qed.

Lemma render_opens j : writable j → opens (render q j).
Proof using Q.
  intros H. destruct H as [|[]|n Hn|s Hs|l Hl|ms Hms]; try (eexists _, _; split; [done|vm_compute; done]).
  - apply number_head in Hn as (c & t & -> & Hc%number_head_bytes). exists c, t. split; [done|].
    unfold is_space. rewrite !bool_decide_eq_false_2 by lia. split_and!; [done|lia..].
  - by apply quoting_opens.
Qed.

Lemma member_opens kv : utf8_valid kv.1 = true → opens (render_member kv).
Proof using Q. intros H. unfold render_member. by apply opens_app, quoting_opens. Qed.

Section Elements.
Context (d : nat) (l : list json).
Hypothesis (Hl : ∀ v rest, v ∈ l → stops rest → scan_value d (render q v +:+ rest) = Some (v, rest)).
Hypothesis (Hwf : ∀ v, v ∈ l → writable v).

Lemma scan_items_rendered vs n rest :
  vs ≠ [] → (∀ v, v ∈ vs → v ∈ l) → (length vs ≤ n)%nat →
  scan_items (scan_value d) n (join "," (map (render q) vs) +:+ "]" +:+ rest) = Some (vs, rest).
Proof using Q Hl Hwf.
  revert n. induction vs as [|v vs IH]; intros n Hne Hin Hn; [done|].
  destruct n as [|n]; [simpl in Hn; lia|]. cbn [scan_items map].
  assert (Hv : v ∈ l) by (apply Hin; left).
  destruct vs as [|v' vs].
  - simpl. rewrite Hl by (done || by right; left). done.
  - change (join "," (render q v :: map (render q) (v' :: vs)))
      with (render q v +:+ "," +:+ join "," (map (render q) (v' :: vs))).
    rewrite !str_app_assoc, Hl by (done || by left). simpl.
    rewrite ?str_nil_app, opens_skip.
    2: { apply opens_app, join_opens, render_opens, Hwf, Hin. right. left. }
    rewrite IH; [done|done| |simpl in *; lia]. intros. apply Hin. by right.
Qed.

(** The key, the colon and the value at the head of a list of members. *)
Lemma scan_member k v n s :
  v ∈ l → utf8_valid k = true → stops s →
  scan_members (scan_value d) (S n) (render_member (k, v) +:+ s) =
  match skip_ws s with
  | String c t =>
      if bool_decide (code c = 44%N) then
        '(ms, s) ← scan_members (scan_value d) n (skip_ws t); Some ((k, v) :: ms, s)
      else if bool_decide (code c = 125%N) then Some ([(k, v)], t)
      else None
  | "" => None
  end.
Proof using Q Hl Hwf.
  intros Hv Hk Hs. destruct (quoting (q := q) k (":" +:+ render q v +:+ s) Hk) as (body & E & Hb).
  unfold render_member. rewrite !str_app_assoc. simpl fst. simpl snd. rewrite E. cbn [scan_members].
  rewrite bool_decide_eq_true_2, Hb by done. simpl. rewrite ?str_nil_app, opens_skip.
  - by rewrite Hl.
  - by apply opens_app, render_opens, Hwf.
Qed.

Lemma scan_members_rendered ms n rest :
  ms ≠ [] → (∀ kv, kv ∈ ms → kv.2 ∈ l ∧ utf8_valid kv.1 = true) → (length ms ≤ n)%nat →
  scan_members (scan_value d) n (join "," (map render_member ms) +:+ "}" +:+ rest) = Some (ms, rest).
Proof using Q Hl Hwf.
  revert n. induction ms as [|[k v] ms IH]; intros n Hne Hin Hn; [done|].
  destruct n as [|n]; [simpl in Hn; lia|]. cbn [map].
  destruct (Hin (k, v)) as [Hv Hk]; [left|]. simpl in Hv, Hk.
  destruct ms as [|m' ms].
  - cbn [map join]. rewrite scan_member by (done || by right; right). done.
  - change (join "," (render_member (k, v) :: map render_member (m' :: ms)))
      with (render_member (k, v) +:+ "," +:+ join "," (map render_member (m' :: ms))).
    rewrite !str_app_assoc, scan_member by (done || by left). simpl.
    rewrite ?str_nil_app, opens_skip.
    2: { apply opens_app, join_opens, member_opens. apply Hin. right. left. }
    rewrite IH; [done|done| |simpl in *; lia]. intros. apply Hin. by right.
Qed.
End Elements.

Definition reads (v : json) : Prop := ∀ d rest,
  writable v → (height v ≤ d)%nat → stops rest → scan_value d (render q v +:+ rest) = Some (v, rest).

Lemma reads_arr vs : Forall reads vs → reads (JArr vs).
Proof using Q.
  intros IH d rest Hwf Hd Hr. inversion Hwf as [| | | |? Hvs|]; subst. rewrite Forall_forall in IH, Hvs.
  destruct d as [|d]; simpl in Hd; [lia|]. destruct vs as [|v vs]; [done|].
  cbn [render]. rewrite !str_app_assoc, scan_value_arr.
  2: { apply opens_app. cbn [map]. apply join_opens, render_opens, Hvs. left. }
  rewrite (scan_items_rendered d (v :: vs)); [done|..|done|done|].
  - intros w r Hw Hs. apply IH; auto. etrans; [|apply le_S_n, Hd].
    apply le_max_list. by apply (list_elem_of_fmap_2 height (v :: vs)).
  - auto.
  - apply fuel_enough. auto using render_opens.
Qed.

Lemma reads_obj ms : Forall (λ kv, reads kv.2) ms → reads (JObj ms).
Proof using Q.
  intros IH d rest Hwf Hd Hr. inversion Hwf as [| | | | |? Hms]; subst.
  rewrite Forall_forall in IH, Hms. cbn [render]. change (map _ ms) with (map render_member ms).
  destruct d as [|d]; simpl in Hd; [lia|]. destruct ms as [|m ms]; [done|].
  rewrite !str_app_assoc, scan_value_obj.
  2: { apply opens_app. cbn [map]. apply join_opens, member_opens. apply Hms. left. }
  rewrite (scan_members_rendered d (map snd (m :: ms))); [done|..|done| |].
  - intros w r (kv & <- & Hw%list_elem_of_In)%list_elem_of_In%in_map_iff Hs. apply IH; [done|..|done].
    + by apply Hms.
    + etrans; [|apply le_S_n, Hd].
      apply le_max_list. by apply (list_elem_of_fmap_2 (λ kv, height kv.2) (m :: ms)).
  - intros w (kv & <- & Hw%list_elem_of_In)%list_elem_of_In%in_map_iff. by apply Hms.
  - intros kv Hkv. split; [by apply (list_elem_of_fmap_2 snd (m :: ms))|by apply Hms].
  - apply fuel_enough. intros kv Hkv. by apply member_opens, Hms.
Qed.

(** Reading the text of a value gives the value back and leaves the rest of the
    input alone. *)
Lemma scan_render v : reads v.
Proof using Q.
  induction v as [|b|n|s|l IH|ms IH] using json_rect'.
  - intros d rest _ _ _. by destruct d.
  - intros d rest _ _ _. by destruct d, b.
  - intros d rest Hwf _ Hr. inversion Hwf. by apply scan_value_number.
  - intros d rest Hwf _ Hr. inversion Hwf as [| | |? Hs| |]; subst. cbn [render].
    destruct (quoting (q := q) s rest Hs) as (body & -> & Hb).
    destruct d; cbn [scan_value]; rewrite bool_decide_eq_true_2, Hb by done; done.
  - by apply reads_arr.
  - by apply reads_obj.
Qed.

Lemma decode_render v :
  writable v → (height v ≤ maxNestingDepth)%nat → decode_all (render q v) = Some v.
Proof using Q.
  intros Hw Hh. unfold decode_all. pose proof (render_opens v Hw) as Ho.
  rewrite (opens_skip _ Ho), <- (str_app_nil (render q v)), scan_render by done. done.
Qed.
End Reading.

Lemma encode_opens j : wf j → opens (encode_canonical j).
Proof. intros H. rewrite encode_render by done. by apply (render_opens quote), wf_writable. Qed.

Lemma scan_encode v d rest :
  wf v → (height v ≤ d)%nat → stops rest → scan_value d (encode_canonical v +:+ rest) = Some (v, rest).
Proof. intros H ? ?. rewrite encode_render by done. apply (scan_render quote); auto using wf_writable. Qed.

Lemma decode_encode v :
  wf v → (height v ≤ maxNestingDepth)%nat → decode_all (encode_canonical v) = Some v.
Proof.
  intros Hwf Hh. unfold decode_all. pose proof (encode_opens v Hwf) as Ho.
  rewrite (opens_skip _ Ho), <- (str_app_nil (encode_canonical v)), scan_encode by done. done.
Qed.

(** Two well-formed values with the same canonical text are equal. *)
Lemma encode_inj v w : wf v → wf w → encode_canonical v = encode_canonical w → v = w.
Proof.
  intros Hv Hw E. set (d := (height v + height w)%nat).
  pose proof (scan_encode v d "" Hv ltac:(lia) I) as H1.
  pose proof (scan_encode w d "" Hw ltac:(lia) I) as H2.
  rewrite E in H1. congruence.
Qed.

(** ** What the decoder produces *)

(** A full rune at the front does not change whether the rest is valid. *)
Definition rune (p : string) : Prop := ∀ t, utf8_valid (p +:+ t) = utf8_valid t.

Lemma rune_ascii c : (code c < 128)%N → rune (String c "").
Proof.
  intros H t. rewrite str_app_cons, str_nil_app. cbn [utf8_valid].
  assert (rune_len (String c t) = 1%nat) as ->; [|done]. unfold rune_len.
  by rewrite (proj2 (N.ltb_lt _ _) H).
Qed.

Lemma code_byte n : (n < 256)%N → code (byte n) = n.
Proof. apply N_ascii_embedding. Qed.

Lemma rune_2 x y : (194 <= x <= 223)%N → (128 <= y <= 191)%N → rune (String (byte x) (String (byte y) "")).
Proof.
  intros Hx Hy t. rewrite !str_app_cons, str_nil_app. cbn [utf8_valid].
  assert (rune_len (String (byte x) (String (byte y) t)) = 2%nat) as ->; [|done].
  unfold rune_len, is_cont, between. rewrite !code_byte by lia.
  rewrite (proj2 (N.ltb_ge _ _)) by lia. by rewrite !(proj2 (N.leb_le _ _)) by lia.
Qed.

Lemma rune_3 x y z :
  (224 <= x <= 239)%N → (128 <= y <= 191)%N → (128 <= z <= 191)%N →
  (x = 224 → 160 <= y)%N → (x = 237 → y <= 159)%N →
  rune (String (byte x) (String (byte y) (String (byte z) ""))).
Proof.
  intros Hx Hy Hz Hlo Hhi t. rewrite !str_app_cons, str_nil_app. cbn [utf8_valid].
  assert (rune_len (String (byte x) (String (byte y) (String (byte z) t))) = 3%nat) as ->; [|done].
  unfold rune_len, is_cont, between. rewrite !code_byte by lia.
  rewrite (proj2 (N.ltb_ge _ _)), (proj2 (N.leb_gt x 223)), andb_false_r by lia.
  destruct (N.eqb_spec x 224), (N.eqb_spec x 237); by rewrite !(proj2 (N.leb_le _ _)) by lia.
Qed.

Lemma rune_4 x y z w :
  (240 <= x <= 244)%N → (128 <= y <= 191)%N → (128 <= z <= 191)%N → (128 <= w <= 191)%N →
  (x = 240 → 144 <= y)%N → (x = 244 → y <= 143)%N →
  rune (String (byte x) (String (byte y) (String (byte z) (String (byte w) "")))).
Proof.
  intros Hx Hy Hz Hw Hlo Hhi t. rewrite !str_app_cons, str_nil_app. cbn [utf8_valid].
  assert (rune_len (String (byte x) (String (byte y) (String (byte z) (String (byte w) t)))) = 4%nat)
    as ->; [|done].
  unfold rune_len, is_cont, between. rewrite !code_byte by lia.
  rewrite (proj2 (N.ltb_ge _ _)), (proj2 (N.leb_gt x 223)), (proj2 (N.leb_gt x 239)), !andb_false_r by lia.
  destruct (N.eqb_spec x 240), (N.eqb_spec x 244); by rewrite !(proj2 (N.leb_le _ _)) by lia.
Qed.

Lemma rune_encode r : (r < 55296 \/ 57344 <= r < 1114112)%N → rune (utf8_encode r).
Proof.
  intros Hr. unfold utf8_encode.
  repeat match goal with |- context [(r <? ?k)%N] => destruct (N.ltb_spec r k) end.
  - apply rune_ascii. rewrite code_byte; lia.
  - apply rune_2; zify; Z.to_euclidean_division_equations; lia.
  - apply rune_3; zify; Z.to_euclidean_division_equations; lia.
  - apply rune_4; zify; Z.to_euclidean_division_equations; lia.
Qed.

Lemma hex_val_lt c r : hex_val c = Some r → (r < 16)%N.
Proof. unfold hex_val. intros. repeat case_match; simplify_eq; unfold is_digit in *; bytes; lia. Qed.

Lemma hex4_lt a b c d r : hex4 a b c d = Some r → (r < 65536)%N.
Proof.
  unfold hex4. intros. repeat case_match; simplify_eq.
  repeat match goal with H : hex_val _ = Some _ |- _ => apply hex_val_lt in H end. lia.
Qed.

Lemma rune_replacement : rune replacement.
Proof. apply rune_encode. lia. Qed.

Lemma rune_simple_escape c x : simple_escape c = Some x → rune (String x "").
Proof.
  intros H. apply rune_ascii.
  destruct c as [[] [] [] [] [] [] [] []]; vm_compute in H; simplify_eq; done.
Qed.

Lemma prepend_valid a s x rest :
  rune a → (∀ y r, scan_string s = Some (y, r) → utf8_valid y = true) →
  prepend a (scan_string s) = Some (x, rest) → utf8_valid x = true.
Proof.
  intros Ha Hs. destruct (scan_string s) as [[y r]|]; [|done]. intros [= <- <-].
  rewrite Ha. by eapply Hs.
Qed.

(** The runs of a valid UTF-8 encoding of two to four bytes are runes. *)
Lemma rune_of_len_2 c c1 s : rune_len (String c (String c1 s)) = 2%nat → rune (String c (String c1 "")).
Proof. intros (_ & _ & H)%rune_len_2 t. rewrite !str_app_cons, str_nil_app. cbn [utf8_valid]. by rewrite H. Qed.

Lemma rune_of_len_3 c c1 c2 s :
  rune_len (String c (String c1 (String c2 s))) = 3%nat → rune (String c (String c1 (String c2 ""))).
Proof. intros (_ & _ & _ & H)%rune_len_3 t. rewrite !str_app_cons, str_nil_app. cbn [utf8_valid]. by rewrite H. Qed.

Lemma rune_of_len_4 c c1 c2 c3 s :
  rune_len (String c (String c1 (String c2 (String c3 s)))) = 4%nat →
  rune (String c (String c1 (String c2 (String c3 "")))).
Proof. intros (_ & _ & _ & _ & H)%rune_len_4 t. rewrite !str_app_cons, str_nil_app. cbn [utf8_valid]. by rewrite H. Qed.

Lemma rune_not_surrogate r :
  (r < 65536)%N → is_high r || is_low r = false → rune (utf8_encode r).
Proof.
  intros Hr H. apply rune_encode. unfold is_high, is_low in H.
  destruct (N.leb_spec 55296 r), (N.ltb_spec r 56320), (N.leb_spec 56320 r), (N.ltb_spec r 57344);
    simpl in H; done || lia.
Qed.

Lemma rune_pair r r1 :
  is_high r = true → is_low r1 = true →
  rune (utf8_encode (65536 + (r - 55296) * 1024 + (r1 - 56320))).
Proof.
  unfold is_high, is_low. rewrite !andb_true_iff, !N.leb_le, !N.ltb_lt. intros [??] [??].
  apply rune_encode. right. lia.
Qed.

Lemma scan_string_valid s x rest : scan_string s = Some (x, rest) → utf8_valid x = true.
Proof.
  remember (String.length s) as n eqn:Hn. revert s x rest Hn.
  induction n as [n IH] using (well_founded_induction Nat.lt_wf_0). intros s x rest -> H.
  assert (Hgo : ∀ a t y r, rune a → (String.length t < String.length s)%nat →
            prepend a (scan_string t) = Some (y, r) → utf8_valid y = true).
  { intros a t y r Ha Ht. apply prepend_valid; [done|]. intros z r' Hz. by eapply IH. }
  clear IH. destruct s as [|c s1]; [done|]. cbn [scan_string] in H.
  destruct (bool_decide (c = dquote)); [by simplify_eq|].
  destruct (bool_decide (c = bslash)).
  - destruct s1 as [|e s2]; [done|]. destruct (bool_decide (code e = 117%N)).
    + destruct s2 as [|h1 [|h2 [|h3 [|h4 s3]]]]; try done.
      destruct (hex4 h1 h2 h3 h4) as [r|] eqn:Er; [|done]. apply hex4_lt in Er.
      destruct (is_high r || is_low r) eqn:Es.
      * assert (Hrep : prepend replacement (scan_string s3) = Some (x, rest) → utf8_valid x = true).
        { apply Hgo; [apply rune_replacement|simpl; lia]. }
        destruct s3 as [|b [|u [|g1 [|g2 [|g3 [|g4 s4]]]]]]; try exact (Hrep H).
        destruct (_ && is_high r) eqn:Eh; [|exact (Hrep H)]. apply andb_true_iff in Eh as [_ Eh].
        destruct (hex4 g1 g2 g3 g4) as [r1|]; [|exact (Hrep H)].
        destruct (is_low r1) eqn:El; [|exact (Hrep H)].
        eapply Hgo, H; [by apply rune_pair|simpl; lia].
      * eapply Hgo, H; [by apply rune_not_surrogate|simpl; lia].
    + destruct (simple_escape e) eqn:Ee; [|done]. eapply Hgo, H; [by eapply rune_simple_escape|simpl; lia].
  - destruct (code c <? 32)%N; [done|].
    assert (Hrep : prepend replacement (scan_string s1) = Some (x, rest) → utf8_valid x = true).
    { apply Hgo; [apply rune_replacement|simpl; lia]. }
    destruct (rune_len (String c s1)) as [|[|[|[|[|]]]]] eqn:E; try exact (Hrep H).
    + eapply Hgo, H; [by eapply rune_ascii, rune_len_1|simpl; lia].
    + destruct s1 as [|c1 s2]; [exact (Hrep H)|]. eapply Hgo, H; [by eapply rune_of_len_2|simpl; lia].
    + destruct s1 as [|c1 [|c2 s2]]; try exact (Hrep H). eapply Hgo, H; [by eapply rune_of_len_3|simpl; lia].
    + destruct s1 as [|c1 [|c2 [|c3 s2]]]; try exact (Hrep H).
      eapply Hgo, H; [by eapply rune_of_len_4|simpl; lia].
Qed.

(** *** Number literals are their own text *)

Definition not_digit (s : string) : Prop :=
  match s with "" => True | String c _ => is_digit c = false end.

Lemma span_digits_own s a b r :
  span_digits s = (a, b) → not_digit r → span_digits (a +:+ r) = (a, r).
Proof.
  intros H Hr. revert a b H. induction s as [|c s IH]; intros a b H; simpl in H.
  - simplify_eq. rewrite str_nil_app. destruct r; [done|]. simpl in *. by rewrite Hr.
  - destruct (is_digit c) eqn:Ec.
    + destruct (span_digits s) as [a' b'] eqn:E. simplify_eq. rewrite str_app_cons. cbn [span_digits].
      by rewrite Ec, (IH _ _ eq_refl).
    + simplify_eq. rewrite str_nil_app. destruct r; [done|]. simpl in *. by rewrite Hr.
Qed.

Lemma scan_exp_own s a b : scan_exp s = Some (a, b) → scan_exp a = Some (a, "").
Proof.
  destruct s as [|c s]; [by intros [= <- <-]|]. cbn [scan_exp].
  destruct (_ || _) eqn:Ec; [|by intros [= <- <-]].
  destruct (match s with String g t' => _ | "" => _ end) as [sign t] eqn:Es.
  destruct (span_digits t) as [[|x ds] r] eqn:E; [done|]. intros [= <- <-].
  cbn [scan_exp]. rewrite Ec.
  pose proof (span_digits_own _ _ _ "" E I) as E'. rewrite str_app_nil in E'.
  assert (Hx : is_digit x = true).
  { clear -E. destruct t as [|y t]; simpl in E; [done|]. destruct (is_digit y) eqn:Ey; [|done].
    destruct (span_digits t). congruence. }
  assert (Hs : sign = "" ∨ ∃ g, sign = String g "" ∧
                 bool_decide (code g = 43%N) || bool_decide (code g = 45%N) = true).
  { clear -Es. destruct s as [|g s]; [naive_solver|]. destruct (_ || _) eqn:Eg; naive_solver. }
  destruct Hs as [->|(g & -> & Hg)].
  - rewrite str_nil_app. apply between_spec in Hx.
    rewrite !bool_decide_eq_false_2 by lia. cbn [orb]. by rewrite E'.
  - rewrite str_app_cons, str_nil_app, Hg. by rewrite E'.
Qed.

(** The exponent part is empty or starts with a letter. *)
Lemma scan_exp_head s a b :
  scan_exp s = Some (a, b) → not_digit a ∧ ∀ c t, a = String c t → code c ≠ 46%N.
Proof.
  destruct s as [|c s]; [by intros [= <- <-]|]. cbn [scan_exp].
  destruct (_ || _) eqn:Ec; [|by intros [= <- <-]].
  destruct (match s with String g t' => _ | "" => _ end) as [sign t].
  destruct (span_digits t) as [[|x ds] r]; [done|]. intros [= <- <-].
  assert (Hc : code c = 101%N ∨ code c = 69%N) by (split_tests; naive_solver).
  split; [|intros ? ? [= <- <-]; lia].
  cbn. unfold is_digit, between. destruct Hc as [-> | ->]; done.
Qed.

Lemma scan_frac_own s a b e :
  scan_frac s = Some (a, b) → not_digit e → (∀ c t, e = String c t → code c ≠ 46%N) →
  scan_frac (a +:+ e) = Some (a, e) ∧ not_digit (a +:+ e).
Proof.
  intros H He Hdot.
  assert (Hnil : scan_frac ("" +:+ e) = Some ("", e) ∧ not_digit ("" +:+ e)).
  { rewrite str_nil_app. split; [|done]. destruct e as [|c t]; [done|]. cbn [scan_frac].
    by rewrite bool_decide_eq_false_2 by by eapply Hdot. }
  destruct s as [|c s]; [by simplify_eq/=|]. cbn [scan_frac] in H.
  case_bool_decide as Hc; [|by simplify_eq].
  destruct (span_digits s) as [[|x ds] r] eqn:E; [done|]. injection H as <- <-.
  rewrite str_app_cons. split.
  - cbn [scan_frac]. rewrite bool_decide_eq_true_2 by done.
    by rewrite (span_digits_own _ _ _ e E).
  - cbn. unfold is_digit, between. by rewrite Hc.
Qed.

Lemma scan_int_own s a b r :
  scan_int s = Some (a, b) → not_digit r → scan_int (a +:+ r) = Some (a, r).
Proof.
  intros H Hr. destruct s as [|c s]; [done|]. cbn [scan_int] in H.
  destruct (bool_decide (code c = 48%N)) eqn:E0.
  - injection H as <- <-. rewrite str_app_cons, str_nil_app. cbn [scan_int]. by rewrite E0.
  - destruct (is_digit c) eqn:Ec; [|done]. destruct (span_digits s) as [ds t] eqn:E.
    injection H as <- <-. rewrite str_app_cons. cbn [scan_int].
    by rewrite E0, Ec, (span_digits_own _ _ _ r E).
Qed.

Lemma scan_int_head s a b : scan_int s = Some (a, b) → ∃ c t, a = String c t ∧ code c ≠ 45%N.
Proof.
  destruct s as [|c s]; [done|]. cbn [scan_int]. intros H.
  assert (code c ≠ 45%N ∧ ∃ t, a = String c t) as [? [t ->]]; [|by eauto].
  destruct (bool_decide_reflect (code c = 48%N)) as [E|]; [split; [lia|naive_solver]|].
  destruct (is_digit c) eqn:Ec; [|done]. apply between_spec in Ec.
  destruct (span_digits s). split; [lia|naive_solver].
Qed.

Lemma scan_number_own s n rest : scan_number s = Some (n, rest) → scan_number n = Some (n, "").
Proof.
  unfold scan_number at 1.
  destruct (match s with String c t => _ | "" => _ end) as [sign t] eqn:Es.
  destruct (scan_int t) as [[i u]|] eqn:Ei; [|done]. simpl.
  destruct (scan_frac u) as [[f v]|] eqn:Ef; [|done]. simpl.
  destruct (scan_exp v) as [[e w]|] eqn:Ee; [|done]. simpl. intros [= <- <-].
  pose proof (scan_exp_head _ _ _ Ee) as [He Hdot].
  destruct (scan_frac_own _ _ _ e Ef He Hdot) as [Hf Hnd].
  pose proof (scan_int_own _ _ _ _ Ei Hnd) as Hi.
  pose proof (scan_exp_own _ _ _ Ee) as He'.
  destruct (scan_int_head _ _ _ Ei) as (c & k & Hic & Hc).
  assert (Hs : sign = "" ∨ ∃ g, sign = String g "" ∧ code g = 45%N).
  { clear -Es. destruct s as [|g s]; [naive_solver|]. case_bool_decide; naive_solver. }
  unfold scan_number. destruct Hs as [->|(g & -> & Hg)].
  - rewrite str_nil_app. rewrite Hic at 1. rewrite str_app_cons. rewrite bool_decide_eq_false_2 by done.
    rewrite Hi. simpl. rewrite Hf. simpl. by rewrite He'.
  - rewrite !str_app_cons, !str_nil_app, bool_decide_eq_true_2 by done.
    rewrite Hi. simpl. rewrite Hf. simpl. by rewrite He'.
Qed.

(** *** Decoded values *)

(** What the scanner guarantees of a value: valid strings and literal numbers. *)
Inductive raw : json → Prop :=
| raw_null : raw JNull
| raw_bool b : raw (JBool b)
| raw_num n : scan_number n = Some (n, "") → raw (JNum n)
| raw_str s : utf8_valid s = true → raw (JStr s)
| raw_arr l : Forall raw l → raw (JArr l)
| raw_obj ms : Forall (λ kv, utf8_valid kv.1 = true ∧ raw kv.2) ms → raw (JObj ms).

Definition scanned (d : nat) (v : json) : Prop := raw v ∧ (height v ≤ d)%nat.

Lemma max_list_le l n : Forall (λ m, (m ≤ n)%nat) l → (max_list l ≤ n)%nat.
Proof. induction 1; simpl; lia. Qed.

Lemma scan_items_raw value d n s l rest :
  (∀ s v r, value s = Some (v, r) → scanned d v) →
  scan_items value n s = Some (l, rest) → Forall (scanned d) l.
Proof.
  intros Hv. revert s l rest. induction n as [|n IH]; intros s l rest; [done|]. cbn [scan_items].
  destruct (value s) as [[v t]|] eqn:E; [|done]. simpl. apply Hv in E.
  destruct (skip_ws t) as [|c u]; [done|]. case_bool_decide.
  - destruct (scan_items value n (skip_ws u)) as [[vs w]|] eqn:Er; [|done]. intros [= <- <-].
    constructor; [done|by eapply IH].
  - case_bool_decide; [|done]. intros [= <- <-]. by apply Forall_singleton.
Qed.

Lemma scan_members_raw value d n s ms rest :
  (∀ s v r, value s = Some (v, r) → scanned d v) →
  scan_members value n s = Some (ms, rest) →
  Forall (λ kv, utf8_valid kv.1 = true ∧ scanned d kv.2) ms.
Proof.
  intros Hv. revert s ms rest. induction n as [|n IH]; intros s ms rest; [done|]. cbn [scan_members].
  destruct s as [|q s]; [done|]. case_bool_decide; [|done].
  destruct (scan_string s) as [[k t]|] eqn:Ek; [|done]. simpl. apply scan_string_valid in Ek.
  destruct (skip_ws t) as [|c u]; [done|]. case_bool_decide; [|done].
  destruct (value (skip_ws u)) as [[v t']|] eqn:E; [|done]. simpl. apply Hv in E.
  destruct (skip_ws t') as [|c' u']; [done|]. case_bool_decide.
  - destruct (scan_members value n (skip_ws u')) as [[vs w]|] eqn:Er; [|done]. intros [= <- <-].
    constructor; [done|by eapply IH].
  - case_bool_decide; [|done]. intros [= <- <-]. by apply Forall_singleton.
Qed.

Lemma scanned_arr d l : Forall (scanned d) l → scanned (S d) (JArr l).
Proof.
  intros H. split.
  - constructor. eapply Forall_impl; [exact H|]. by intros ? [].
  - simpl. apply le_n_S, max_list_le. apply Forall_map. eapply Forall_impl; [exact H|]. by intros ? [].
Qed.

Lemma scanned_obj d ms :
  Forall (λ kv, utf8_valid kv.1 = true ∧ scanned d kv.2) ms → scanned (S d) (JObj ms).
Proof.
  intros H. split.
  - constructor. eapply Forall_impl; [exact H|]. by intros ? [? []].
  - simpl. apply le_n_S, max_list_le. apply Forall_map. eapply Forall_impl; [exact H|]. by intros ? [? []].
Qed.

Lemma strip_scanned p s d v w rest :
  raw v → height v = 0%nat → (s ← strip p s; Some (v, s)) = Some (w, rest) → scanned d w.
Proof. intros Hr Hh. destruct (strip p s); [|done]. intros [= <- <-]. split; [done|lia]. Qed.

Lemma scan_value_scanned d s v rest : scan_value d s = Some (v, rest) → scanned d v.
Proof.
  revert s v rest. induction d as [|d IH]; intros s v rest H; (destruct s as [|c t]; [done|]);
    cbn [scan_value] in H.
  all: destruct (bool_decide (c = dquote));
       [destruct (scan_string t) as [[x s']|] eqn:E; [|done]; injection H as <- <-;
        split; [constructor; by eapply scan_string_valid|simpl; lia]|].
  all: destruct (bool_decide (code c = 110%N)); [eapply strip_scanned, H; [constructor|done]|].
  all: destruct (bool_decide (code c = 116%N)); [eapply strip_scanned, H; [constructor|done]|].
  all: destruct (bool_decide (code c = 102%N)); [eapply strip_scanned, H; [constructor|done]|].
  all: destruct (bool_decide (code c = 91%N)); [|destruct (bool_decide (code c = 123%N))]; try done.
  all: try (destruct (scan_number _) as [[n s']|] eqn:E; [|done]; injection H as <- <-;
            split; [constructor; by eapply scan_number_own|simpl; lia]).
  all: destruct (skip_ws t) as [|c' t']; [done|]; case_bool_decide.
  - injection H as <- <-. by apply scanned_arr.
  - destruct (scan_items _ _ _) as [[vs s']|] eqn:E; [|done]. injection H as <- <-.
    eapply scanned_arr, scan_items_raw, E. exact IH.
  - injection H as <- <-. by apply scanned_obj.
  - destruct (scan_members _ _ _) as [[vs s']|] eqn:E; [|done]. injection H as <- <-.
    eapply scanned_obj, scan_members_raw, E. exact IH.
Qed.

(** *** Maps *)

Lemma elem_of_map_put {A} k (v : A) m p : p ∈ map_put k v m → p = (k, v) ∨ p ∈ m.
Proof.
  induction m as [|[k' v'] m IH]; simpl; [by intros ->%list_elem_of_singleton; left|].
  destruct (String.compare k k'); rewrite ?elem_of_cons; naive_solver.
Qed.

Lemma map_put_sorted {A} k (v : A) m : StronglySorted key_lt m → StronglySorted key_lt (map_put k v m).
Proof.
  induction 1 as [|[k' v'] m Hm IH Hx]; simpl; [by repeat constructor|].
  pose proof Hx as Hx'. rewrite Forall_forall in Hx'.
  destruct (String.compare k k') eqn:E.
  - apply String.compare_eq_iff in E as ->. by constructor.
  - constructor; [by constructor|]. constructor; [done|]. apply Forall_forall. intros p Hp.
    unfold key_lt in *. simpl in *. by eapply str_lt_trans, Hx'.
  - constructor; [done|]. apply Forall_forall. intros p [->|Hp]%elem_of_map_put; [|by apply Hx'].
    unfold key_lt. simpl. by rewrite String.compare_antisym, E.
Qed.

Lemma map_of_sorted {A} (ms : list (string * A)) : StronglySorted key_lt (map_of ms).
Proof.
  unfold map_of. assert (H : StronglySorted (key_lt (A := A)) []) by constructor. revert H.
  generalize (@nil (string * A)) as m. induction ms as [|kv ms IH]; intros m Hm; [done|].
  simpl. by apply IH, map_put_sorted.
Qed.

Lemma elem_of_map_of {A} (ms : list (string * A)) p : p ∈ map_of ms → p ∈ ms.
Proof.
  unfold map_of. enough (∀ m, p ∈ fold_left (λ m kv, map_put kv.1 kv.2 m) ms m → p ∈ m ∨ p ∈ ms) as H.
  { intros Hp. by destruct (H _ Hp) as [?%elem_of_nil|]. }
  induction ms as [|kv ms IH]; intros m Hp; [by left|]. simpl in Hp.
  apply IH in Hp as [[->|]%elem_of_map_put|]; [right|by left|right].
  - destruct kv. left.
  - by right.
Qed.

(** A map whose keys are already increasing is rebuilt as it is. *)
Lemma map_put_last {A} k (v : A) m :
  Forall (λ p, String.compare p.1 k = Lt) m → map_put k v m = m ++ [(k, v)].
Proof.
  induction 1 as [|[k' v'] m Hk Hm IH]; [done|]. simpl in *.
  rewrite String.compare_antisym, Hk. simpl. by rewrite IH.
Qed.

Lemma map_put_perm {A} k (v : A) m : k ∉ m.*1 → map_put k v m ≡ₚ (k, v) :: m.
Proof.
  induction m as [|[k' v'] m IH]; [done|]. simpl. intros [Hne Hk]%not_elem_of_cons.
  destruct (String.compare k k') eqn:E; [|done|].
  - by apply String.compare_eq_iff in E as ->.
  - rewrite IH by done. apply perm_swap.
Qed.

(** Without repeated keys, building the map only reorders the members. *)
Lemma map_of_perm {A} (ms : list (string * A)) : NoDup ms.*1 → map_of ms ≡ₚ ms.
Proof.
  unfold map_of.
  enough (∀ m, NoDup (m.*1 ++ ms.*1) → fold_left (λ m kv, map_put kv.1 kv.2 m) ms m ≡ₚ ms ++ m) as Hg.
  { intros H. rewrite (Hg []) by done. by rewrite app_nil_r. }
  induction ms as [|[k v] ms IH]; intros m H; [done|]. simpl.
  assert (Hp : map_put k v m ≡ₚ (k, v) :: m).
  { apply map_put_perm. intros Hk. apply NoDup_app in H as (_ & Hd & _). apply (Hd k Hk). left. }
  rewrite IH.
  - rewrite Hp. by rewrite Permutation_middle.
  - rewrite Hp. simpl. by rewrite Permutation_middle.
Qed.

Lemma map_of_id {A} (ms : list (string * A)) : StronglySorted key_lt ms → map_of ms = ms.
Proof.
  intros H. unfold map_of.
  enough (∀ m, StronglySorted key_lt (m ++ ms) →
          fold_left (λ m kv, map_put kv.1 kv.2 m) ms m = m ++ ms) as Hg; [by apply (Hg [])|].
  clear H. induction ms as [|[k v] ms IH]; intros m Hm; [by rewrite app_nil_r|]. simpl.
  rewrite map_put_last.
  - rewrite IH; rewrite <- app_assoc; done.
  - apply Forall_forall. intros p Hp. apply (StronglySorted_app_1_elem_of key_lt m ((k, v) :: ms) p (k, v));
      [done|done|left].
Qed.

(** *** [to_any] produces well-formed values *)

Lemma max_list_incl (l k : list nat) : (∀ n, n ∈ l → n ∈ k) → (max_list l ≤ max_list k)%nat.
Proof. intros H. apply max_list_le, Forall_forall. intros n Hn. by apply le_max_list, H. Qed.

Lemma to_any_wf v : raw v → wf (to_any v).
Proof.
  induction v as [|b|n|s|l IH|ms IH] using json_rect'; intros H; inversion H; subst; simpl; constructor; auto.
  - rewrite Forall_forall in *. intros x (w & <- & Hw%list_elem_of_In)%list_elem_of_In%in_map_iff. auto.
  - rewrite Forall_forall in *. intros p Hp%elem_of_map_of.
    apply list_elem_of_In, in_map_iff in Hp as (w & <- & Hw%list_elem_of_In). naive_solver.
  - apply map_of_sorted.
Qed.

Lemma to_any_height v : (height (to_any v) ≤ height v)%nat.
Proof.
  induction v as [|b|n|s|l IH|ms IH] using json_rect'; simpl; try lia.
  - apply le_n_S, max_list_le. rewrite map_map. apply Forall_map. rewrite Forall_forall in *.
    intros x Hx. etrans; [by apply IH|]. apply le_max_list. by apply (list_elem_of_fmap_2 height l).
  - apply le_n_S, max_list_le. apply Forall_map. rewrite Forall_forall in *.
    intros p Hp%elem_of_map_of. apply list_elem_of_In, in_map_iff in Hp as (w & <- & Hw%list_elem_of_In).
    simpl. etrans; [by apply IH|]. apply le_max_list. by apply (list_elem_of_fmap_2 (λ kv, height kv.2) ms).
Qed.

Lemma to_any_id v : wf v → to_any v = v.
Proof.
  induction v as [|b|n|s|l IH|ms IH] using json_rect'; intros H; inversion H; subst; simpl; try done.
  - f_equal. rewrite Forall_forall in *. rewrite <- (map_id l) at 2. apply map_ext_in.
    intros w Hw%list_elem_of_In. auto.
  - f_equal. assert (map (λ kv, (kv.1, to_any kv.2)) ms = ms) as ->; [|by apply map_of_id].
    rewrite <- (map_id ms) at 2. apply map_ext_in. rewrite Forall_forall in *.
    intros [k w] Hw%list_elem_of_In. simpl. f_equal. by apply (IH (k, w)), (H1 (k, w)).
Qed.

(** The document a decoder read, written canonically, decodes to the same value. *)
Lemma canonical_text_reads_back s v :
  decode_first s = Some v →
  wf (to_any v) ∧ decode_all (encode_canonical (to_any v)) = Some (to_any v).
Proof.
  unfold decode_first. destruct (scan_value _ _) as [[w r]|] eqn:E; [|done]. intros [= <-].
  apply scan_value_scanned in E as [Hr Hh]. pose proof (to_any_wf _ Hr) as Hw. split; [done|].
  apply decode_encode; [done|]. etrans; [apply to_any_height|exact Hh].
Qed.

(** ** Trimming canonical text *)

(** The last byte of [s] is solid. *)
Fixpoint last_solid (s : string) : bool :=
  match s with
  | "" => false
  | String c "" => solid c
  | String _ t => last_solid t
  end.

Fixpoint all_solid (s : string) : bool :=
  match s with "" => true | String c t => solid c && all_solid t end.

Lemma last_solid_tail c t : last_solid (String c t) = true → t = "" ∧ solid c = true ∨ last_solid t = true.
Proof. destruct t; naive_solver. Qed.

Lemma space_not_solid c t : space_len (String c t) = 1%nat → solid c = false.
Proof.
  unfold space_len, solid. intros H. destruct (between 9 13 c || _); [by rewrite andb_false_r|].
  repeat case_match; done.
Qed.

Lemma high_not_solid c : (128 <= code c)%N → solid c = false.
Proof. intros H. unfold solid. by rewrite (proj2 (N.ltb_ge _ _)). Qed.

Lemma space_len_2 c c1 t : space_len (String c (String c1 t)) = 2%nat → (128 <= code c1)%N.
Proof.
  unfold space_len. intros H. destruct (between 9 13 c || _); [done|].
  destruct (_ && _) eqn:E in H.
  - apply andb_true_iff in E as [_ E]. apply orb_true_iff in E as [E|E];
      apply bool_decide_eq_true in E; lia.
  - repeat case_match; done.
Qed.

Lemma space_len_3 c c1 c2 t : space_len (String c (String c1 (String c2 t))) = 3%nat → (128 <= code c2)%N.
Proof.
  unfold space_len. intros H. destruct (between 9 13 c || _); [done|].
  destruct (_ && _) eqn:E0 in H; [done|].
  match type of H with (if ?b then _ else _) = _ => destruct b eqn:E; [|done] end.
  rewrite !orb_true_iff, !andb_true_iff, !orb_true_iff in E.
  repeat match goal with
         | H : _ ∨ _ |- _ => destruct H
         | H : _ ∧ _ |- _ => destruct H
         | H : bool_decide _ = true |- _ => apply bool_decide_eq_true in H
         | H : between _ _ _ = true |- _ => apply between_spec in H
         end; lia.
Qed.

Lemma trim_left_last s : last_solid s = true → last_solid (trim_left s) = true.
Proof.
  remember (String.length s) as n eqn:Hn. revert s Hn.
  induction n as [n IH] using (well_founded_induction Nat.lt_wf_0). intros s -> H.
  destruct s as [|c s]; [done|]. cbn [trim_left].
  destruct (space_len (String c s)) as [|[|[|[|]]]] eqn:E; try done.
  - apply last_solid_tail in H as [[-> Hc]|H]; [by rewrite (space_not_solid _ _ E) in Hc|].
    eapply IH; [|done..]. simpl; lia.
  - destruct s as [|c1 s]; [done|].
    apply last_solid_tail in H as [[? _]|H]; [done|].
    apply last_solid_tail in H as [[-> Hc]|H].
    + by rewrite high_not_solid in Hc by by eapply space_len_2.
    + eapply IH; [|done..]. simpl; lia.
  - destruct s as [|c1 [|c2 s]]; [done..|].
    apply last_solid_tail in H as [[? _]|H]; [done|].
    apply last_solid_tail in H as [[? _]|H]; [done|].
    apply last_solid_tail in H as [[-> Hc]|H].
    + by rewrite high_not_solid in Hc by by eapply space_len_3.
    + eapply IH; [|done..]. simpl; lia.
Qed.

Lemma trim_right_last s : last_solid s = true → trim_right s = s.
Proof.
  induction s as [|c s IH]; [done|]. intros H. cbn [trim_right].
  pose proof (trim_left_last _ H) as Ht.
  rewrite bool_decide_eq_false_2 by by intros E; rewrite E in Ht.
  f_equal. apply last_solid_tail in H as [[-> _]|H]; auto.
Qed.

Lemma TrimSpace_id c s : solid c = true → last_solid (String c s) = true → TrimSpace (String c s) = String c s.
Proof. intros H1 H2. unfold TrimSpace. by rewrite trim_left_solid, trim_right_last. Qed.

Lemma last_solid_app a b : b ≠ "" → last_solid (a +:+ b) = last_solid b.
Proof.
  intros Hb. induction a as [|c a IH]; [done|]. rewrite str_app_cons. cbn [last_solid].
  destruct (a +:+ b) eqn:E; [|done]. destruct a; [by rewrite str_nil_app in E|].
  by rewrite str_app_cons in E.
Qed.

Lemma all_solid_app a b : all_solid (a +:+ b) = all_solid a && all_solid b.
Proof. induction a as [|c a IH]; [done|]. rewrite str_app_cons. simpl. by rewrite IH, andb_assoc. Qed.

Lemma all_solid_last s : s ≠ "" → all_solid s = true → last_solid s = true.
Proof.
  induction s as [|c s IH]; [done|]. intros _ [Hc Hs]%andb_true_iff. cbn [last_solid].
  destruct s; [done|]. by apply IH.
Qed.

Lemma solid_digit c : is_digit c = true → solid c = true.
Proof.
  intros H%between_spec. unfold solid, between. rewrite (proj2 (N.ltb_lt _ _)) by lia.
  rewrite (proj2 (N.leb_gt (code c) 13)), andb_false_r by lia. by rewrite bool_decide_eq_false_2 by lia.
Qed.

Lemma solid_code c n : code c = n → solid (byte n) = true → solid c = true.
Proof. intros <-. unfold byte. by rewrite ascii_N_embedding. Qed.

Lemma span_digits_solid s a b : span_digits s = (a, b) → all_solid a = true.
Proof.
  revert a b. induction s as [|c s IH]; intros a b H; simpl in H; [by simplify_eq|].
  destruct (is_digit c) eqn:E; [|by simplify_eq]. destruct (span_digits s). simplify_eq. simpl.
  by rewrite solid_digit, (IH _ _ eq_refl).
Qed.

Lemma scan_int_solid s a b : scan_int s = Some (a, b) → all_solid a = true.
Proof.
  destruct s as [|c s]; [done|]. cbn [scan_int]. case_bool_decide as H.
  - intros [= <- _]. simpl. by rewrite (solid_code _ _ H).
  - destruct (is_digit c) eqn:E; [|done]. destruct (span_digits s) eqn:Es. intros [= <- _]. simpl.
    by rewrite solid_digit, (span_digits_solid _ _ _ Es).
Qed.

Lemma scan_frac_solid s a b : scan_frac s = Some (a, b) → all_solid a = true.
Proof.
  destruct s as [|c s]; [by intros [= <- _]|]. cbn [scan_frac]. case_bool_decide as H; [|by intros [= <- _]].
  destruct (span_digits s) as [[|x ds] r] eqn:Es; [done|]. intros [= <- _].
  apply span_digits_solid in Es. cbn [all_solid] in *. by rewrite (solid_code _ _ H).
Qed.

Lemma scan_exp_solid s a b : scan_exp s = Some (a, b) → all_solid a = true.
Proof.
  destruct s as [|c s]; [by intros [= <- _]|]. cbn [scan_exp].
  destruct (_ || _) eqn:Ec; [|by intros [= <- _]].
  assert (Hc : solid c = true).
  { apply orb_true_iff in Ec as [H%bool_decide_eq_true|H%bool_decide_eq_true]; by apply (solid_code _ _ H). }
  destruct (match s with String g t' => _ | "" => _ end) as [sign t] eqn:Es.
  assert (Hg : all_solid sign = true).
  { destruct s as [|g s]; [by simplify_eq|]. destruct (_ || _) eqn:Eg in Es; simplify_eq; [|done].
    simpl. apply orb_true_iff in Eg as [H%bool_decide_eq_true|H%bool_decide_eq_true]; by rewrite (solid_code _ _ H). }
  destruct (span_digits t) as [[|x ds] r] eqn:Ed; [done|]. intros [= <- _].
  apply span_digits_solid in Ed. cbn [all_solid]. by rewrite Hc, all_solid_app, Hg, Ed.
Qed.

Lemma scan_number_solid s n r : scan_number s = Some (n, r) → all_solid n = true.
Proof.
  unfold scan_number. destruct (match s with String c t => _ | "" => _ end) as [sign t] eqn:Es.
  assert (Hg : all_solid sign = true).
  { destruct s as [|g s]; [by simplify_eq|]. case_bool_decide as H; simplify_eq; [|done].
    simpl. by rewrite (solid_code _ _ H). }
  destruct (scan_int t) as [[i u]|] eqn:Ei; [|done]. simpl.
  destruct (scan_frac u) as [[f v]|] eqn:Ef; [|done]. simpl.
  destruct (scan_exp v) as [[e w]|] eqn:Ee; [|done]. simpl. intros [= <- _].
  by rewrite !all_solid_app, Hg, (scan_int_solid _ _ _ Ei), (scan_frac_solid _ _ _ Ef), (scan_exp_solid _ _ _ Ee).
Qed.

(** Canonical text has no space to trim. *)
Lemma TrimSpace_canonical v : wf v → TrimSpace (encode_canonical v) = encode_canonical v.
Proof.
  intros H. destruct H as [|[]|n Hn|s Hs|l Hl|ms Hms Hs]; try done.
  - cbn [encode_canonical]. pose proof (scan_number_solid _ _ _ Hn) as Ha.
    apply number_head in Hn as (c & t & -> & _). apply TrimSpace_id.
    + simpl in Ha. by apply andb_true_iff in Ha as [? _].
    + by apply all_solid_last.
  - cbn [encode_canonical]. unfold quote. apply TrimSpace_id; [done|].
    change (String dquote (escape s +:+ String dquote "")) with (String dquote (escape s) +:+ String dquote "").
    by rewrite last_solid_app.
  - cbn [encode_canonical]. rewrite str_app_cons, str_nil_app. apply TrimSpace_id; [done|].
    rewrite <- str_app_cons. by rewrite last_solid_app.
  - cbn [encode_canonical]. rewrite str_app_cons, str_nil_app. apply TrimSpace_id; [done|].
    rewrite <- str_app_cons. by rewrite last_solid_app.
Qed.

(** ** Postgres jsonb *)

Fixpoint number_free (j : json) : bool :=
  match j with
  | JNum _ => false
  | JArr l => forallb number_free l
  | JObj ms => forallb (λ kv, number_free kv.2) ms
  | _ => true
  end.

Fixpoint distinct_keys (j : json) : bool :=
  match j with
  | JArr l => forallb distinct_keys l
  | JObj ms => bool_decide (NoDup ms.*1) && forallb (λ kv, distinct_keys kv.2) ms
  | _ => true
  end.

(** What the stores rely on of a jsonb column: the text read back has no
    repeated key and the same value as the one stored (white space and key order
    aside; numbers, which it may respell, are left out). *)
Class JsonB := {
  jsonb_in : string → option string;
  jsonb_same s t v :
    jsonb_in s = Some t → decode_all s = Some v → number_free v = true →
    ∃ w, decode_all t = Some w ∧ distinct_keys w = true ∧ to_any w = to_any v;
}.

Lemma fst_map {A B} (f : A → B) (l : list (string * A)) : (map (λ kv, (kv.1, f kv.2)) l).*1 = l.*1.
Proof. induction l as [|x l IH]; [done|]. csimpl. by rewrite <- IH. Qed.

Lemma sorted_keys_NoDup {A} (ms : list (string * A)) : StronglySorted key_lt ms → NoDup ms.*1.
Proof.
  induction 1 as [|x l Hl IH Hx]; simpl; constructor; [|done].
  intros (y & E & Hy)%list_elem_of_fmap. rewrite Forall_forall in Hx. specialize (Hx y Hy).
  unfold key_lt in Hx. rewrite <- E in Hx. by apply compare_lt_irrefl in Hx.
Qed.

Lemma wf_distinct v : wf v → distinct_keys v = true.
Proof.
  induction v as [|b|n|s|l IH|ms IH] using json_rect'; intros H; inversion H; subst; simpl; try done.
  - apply forallb_forall. rewrite Forall_forall in *. intros x Hx%list_elem_of_In. auto.
  - rewrite bool_decide_eq_true_2 by by apply sorted_keys_NoDup. simpl.
    apply forallb_forall. rewrite Forall_forall in *. intros x Hx%list_elem_of_In. naive_solver.
Qed.

Lemma decode_all_first s v : decode_all s = Some v → decode_first s = Some v.
Proof.
  unfold decode_all, decode_first. destruct (scan_value _ _) as [[w r]|]; [|done].
  cbn. case_bool_decide; congruence.
Qed.

(** An instance that stores the canonical text. *)
Definition canonical_jsonb : JsonB.
Proof.
  refine {| jsonb_in s := v ← decode_all s; Some (encode_canonical (to_any v)) |}.
  intros s t v H Hv _. rewrite Hv in H. injection H as <-. exists (to_any v).
  destruct (canonical_text_reads_back s v (decode_all_first s v Hv)) as [Hw ->].
  split_and!; [done|by apply wf_distinct|by apply to_any_id].
Defined.
