(* ===== verification/Sha256.v ===== *)
(** * SHA-256 and hexadecimal text

    [crypto/sha256.Sum256] followed by [encoding/hex.EncodeToString], as the two
    canonicalizers use them: the digest of a byte string in lower-case hex. *)

From Stdlib Require Import Ascii.
From S2P Require Import Prelude Json.

Section Words.
Local Open Scope N_scope.

Definition w32 (x : N) : N := x mod 4294967296.
Definition rotr (n x : N) : N := N.lor (N.shiftr x n) (w32 (N.shiftl x (32 - n))).
Definition Ch (x y z : N) : N := N.lxor (N.land x y) (N.land (N.lxor x 4294967295) z).
Definition Maj (x y z : N) : N := N.lxor (N.lxor (N.land x y) (N.land x z)) (N.land y z).
Definition Sigma0 (x : N) : N := N.lxor (N.lxor (rotr 2 x) (rotr 13 x)) (rotr 22 x).
Definition Sigma1 (x : N) : N := N.lxor (N.lxor (rotr 6 x) (rotr 11 x)) (rotr 25 x).
Definition sigma0 (x : N) : N := N.lxor (N.lxor (rotr 7 x) (rotr 18 x)) (N.shiftr x 3).
Definition sigma1 (x : N) : N := N.lxor (N.lxor (rotr 17 x) (rotr 19 x)) (N.shiftr x 10).

(** The largest [r] with [r ^ e <= x], bit by bit from bit [k - 1] down. *)
Fixpoint int_root (e : N) (k : nat) (x r : N) : N :=
  match k with
  | O => r
  | S k => let r' := r + 2 ^ N.of_nat k in int_root e k x (if r' ^ e <=? x then r' else r)
  end.

(** The first 32 bits of the fractional part of the [e]-th root of [p]. *)
Definition root_bits (e p : N) : N := w32 (int_root e 40 (p * 2 ^ (32 * e)) 0).

Definition prime_below (n : N) : bool :=
  forallb (λ d, negb (n mod (2 + N.of_nat d) =? 0)) (seq 0 (N.to_nat n - 2)).

(** The first 64 primes; the constants of FIPS 180-4 are derived from them. *)
Definition primes : list N :=
  Eval vm_compute in filter (λ n, prime_below n = true) (map (λ i, 2 + N.of_nat i) (seq 0 310)).

Definition round_constants : list N := Eval vm_compute in map (root_bits 3) primes.

(** The message schedule: words in reverse order, newest first. *)
Fixpoint extend (k : nat) (w : list N) : list N :=
  match k with
  | O => w
  | S k =>
      extend k (w32 (sigma1 (nth 1 w 0) + nth 6 w 0 + sigma0 (nth 14 w 0) + nth 15 w 0) :: w)
  end.

Definition round (st : list N) (kw : N * N) : list N :=
  match st with
  | [a; b; c; d; e; f; g; h] =>
      let t1 := h + Sigma1 e + Ch e f g + kw.1 + kw.2 in
      let t2 := Sigma0 a + Maj a b c in
      [w32 (t1 + t2); a; b; c; w32 (d + t1); e; f; g]
  | _ => st
  end.

Definition compress (st : list N) (block : list N) : list N :=
  let w := rev (extend 48 (rev block)) in
  zip_with (λ x y, w32 (x + y)) st (fold_left round (zip round_constants w) st).

Definition initial : list N := Eval vm_compute in map (root_bits 2) (take 8 primes).

(** Big-endian bytes of [x]. *)
Fixpoint be_bytes (k : nat) (x : N) : list N :=
  match k with O => [] | S k => be_bytes k (x / 256) ++ [x mod 256] end.

Definition pad (m : list N) : list N :=
  let zeros := ((119 - length m mod 64) mod 64)%nat in
  m ++ [128] ++ replicate zeros 0 ++ be_bytes 8 (8 * N.of_nat (length m)).

(** Groups of four bytes as words; a shorter tail is dropped. *)
Fixpoint words (bs : list N) : list N :=
  match bs with
  | a :: b :: c :: d :: bs => (((a * 256 + b) * 256 + c) * 256 + d) :: words bs
  | _ => []
  end.

Fixpoint blocks (k : nat) (ws : list N) (st : list N) : list N :=
  match k with
  | O => st
  | S k => blocks k (drop 16 ws) (compress st (take 16 ws))
  end.
End Words.

Fixpoint bytes_of (s : string) : list N :=
  match s with "" => [] | String c s => code c :: bytes_of s end.

Definition Sum256 (s : string) : list N :=
  let ws := words (pad (bytes_of s)) in
  (blocks (length ws / 16) ws initial) ≫= be_bytes 4.

Definition EncodeToString (bs : list N) : string :=
  foldr (λ b s, String (hex_digit (b / 16)) (String (hex_digit (b mod 16)) s)) "" bs.

Definition sha256_hex (s : string) : string := EncodeToString (Sum256 s).

Example constants_count : length primes = 64%nat ∧ length initial = 8%nat.
Proof. split; reflexivity. Qed.

Example sha256_empty :
  sha256_hex "" = "e3b0c44298fc1c149afbf4c8996fb92427ae41e4649b934ca495991b7852b855".
Proof. vm_compute. reflexivity. Qed.

Example sha256_abc :
  sha256_hex "abc" = "ba7816bf8f01cfea414140de5dae2223b00361a396177a9cb410ff61f20015ad".
Proof. vm_compute. reflexivity. Qed.

Example sha256_two_blocks :
  sha256_hex "abcdbcdecdefdefgefghfghighijhijkijkljklmklmnlmnomnopnopq" =
  "248d6a61d20638b8e5c026930c3e6039a33ce45964ff2167f6ecedd419db06c1".
Proof. vm_compute. reflexivity. Qed.

#[global] Opaque sha256_hex.
