(* ===== verification/Float64.v ===== *)
(** * IEEE 754 binary64 as Go's float64

    Arithmetic and comparison come from the Standard Library's executable
    specification (rounding to nearest, ties to even).  This file adds what the
    source takes from [math], [strconv] and the conversions of the language:
    [math.Ceil], conversion to [int], [strconv.ParseFloat] on a JSON number, the
    ["%.3f"] rendering read back by a NUMERIC column, and the shortest decimal
    that [encoding/json] writes. *)

From Stdlib Require Import Ascii SpecFloat.
From S2P Require Import Prelude Json.

Abbreviation float64 := spec_float (only parsing).

Definition of_Z (z : Z) : float64 := binary_normalize 53 1024 z 0 false.
Definition fadd : float64 → float64 → float64 := SFadd 53 1024.
Definition fsub : float64 → float64 → float64 := SFsub 53 1024.
Definition fmul : float64 → float64 → float64 := SFmul 53 1024.
Definition fdiv : float64 → float64 → float64 := SFdiv 53 1024.
Definition Sqrt : float64 → float64 := SFsqrt 53 1024.
Definition fabs : float64 → float64 := SFabs.

Definition flt (x y : float64) : bool := SFltb x y.
Definition fle (x y : float64) : bool := SFleb x y.
Definition feq (x y : float64) : bool := SFeqb x y.

Definition fzero : float64 := S754_zero false.
Definition fone : float64 := of_Z 1.

Definition IsNaN (x : float64) : bool := match x with S754_nan => true | _ => false end.
(** [math.IsInf(x, 0)] *)
Definition IsInf (x : float64) : bool := match x with S754_infinity _ => true | _ => false end.
Definition finite (x : float64) : bool := negb (IsNaN x) && negb (IsInf x).

(** ** Conversions to integers *)

(** [int] has 64 bits. *)
Definition int64 (n : Z) : Z := (n + 2 ^ 63) mod 2 ^ 64 - 2 ^ 63.

Lemma int64_small n : - 2 ^ 63 ≤ n < 2 ^ 63 → int64 n = n.
Proof. intros H. unfold int64. rewrite Z.mod_small by lia. lia. Qed.

Lemma int64_range n : - 2 ^ 63 ≤ int64 n < 2 ^ 63.
Proof. unfold int64. pose proof (Z.mod_pos_bound (n + 2 ^ 63) (2 ^ 64)). lia. Qed.

(** The integer part, towards zero. *)
Definition trunc (x : float64) : option Z :=
  match x with
  | S754_zero _ => Some 0
  | S754_finite s m e =>
      let a := if 0 <=? e then Z.pos m * 2 ^ e else Z.pos m / 2 ^ (- e) in
      Some (if s then - a else a)
  | _ => None
  end.

(** [int(x)]: the value outside the range of [int] is up to the implementation
    of the language. *)
Class GoArch := int_overflow : float64 → Z.

Definition int_of {GA : GoArch} (x : float64) : Z :=
  match trunc x with
  | Some z => if (- 2 ^ 63 <=? z) && (z <? 2 ^ 63) then z else int64 (int_overflow x)
  | None => int64 (int_overflow x)
  end.

(** The choice of amd64. *)
Definition amd64 : GoArch := λ _, - 2 ^ 63.

(** [math.Ceil] *)
Definition Ceil (x : float64) : float64 :=
  match x with
  | S754_finite s m e =>
      if 0 <=? e then x
      else
        let z := if s then - (Z.pos m / 2 ^ (- e)) else (Z.pos m + 2 ^ (- e) - 1) / 2 ^ (- e) in
        binary_normalize 53 1024 z 0 s
  | _ => x
  end.

Example ceil_ex : Ceil (fdiv (of_Z 18) (of_Z 5)) = of_Z 4 ∧ Ceil (of_Z 3) = of_Z 3.
Proof. vm_compute. auto. Qed.

(** ** Decimal text *)

Definition digit_val (c : ascii) : Z := Z.of_N (code c) - 48.

Fixpoint digits_val (s : string) (acc : Z) : Z :=
  match s with
  | "" => acc
  | String c s => digits_val s (acc * 10 + digit_val c)
  end.

(** The exponent of a literal: digits are ignored once it has passed 10000. *)
Fixpoint exp_val (s : string) (acc : Z) : Z :=
  match s with
  | "" => acc
  | String c s => exp_val s (if acc <? 10000 then acc * 10 + digit_val c else acc)
  end.

(** A literal as sign, coefficient and power of ten. *)
Definition split_number (lit : string) : option (bool * Z * Z) :=
  let '(neg, s) := match lit with
                   | String c t => if bool_decide (code c = 45%N) then (true, t) else (false, lit)
                   | "" => (false, "")
                   end in
  '(i, s) ← scan_int s; '(f, s) ← scan_frac s; '(e, s) ← scan_exp s;
  if bool_decide (s = "") then
    let frac := match f with "" => "" | String _ ds => ds end in
    let ex := match e with
              | String _ (String c ds) =>
                  if bool_decide (code c = 45%N) then - exp_val ds 0
                  else if bool_decide (code c = 43%N) then exp_val ds 0
                  else exp_val (String c ds) 0
              | _ => 0
              end in
    Some (neg, digits_val (i +:+ frac) 0, ex - Z.of_nat (String.length frac))
  else None.

(** The nearest float64 to [(-1)^neg * m * 10^e]. *)
Definition round_decimal (neg : bool) (m e : Z) : float64 :=
  match m with
  | Z.pos p =>
      if 0 <=? e then binary_round 53 1024 neg (p * Z.to_pos (10 ^ e)) 0
      else
        let '(mz, ez, lz) := SFdiv_core_binary 53 1024 m 0 (10 ^ (- e)) 0 in
        binary_round_aux 53 1024 neg mz ez lz
  | _ => S754_zero neg
  end.

(** Number of decimal digits. *)
Fixpoint ndigits (fuel : nat) (m : Z) : Z :=
  match fuel with
  | O => 0
  | S fuel => if m <=? 0 then 0 else 1 + ndigits fuel (m / 10)
  end.

(** [strconv.ParseFloat(lit, 64)] on the text of a JSON number; [None] when it
    is out of range.  Magnitudes far outside the range are settled without
    computing the power of ten. *)
Definition ParseFloat (lit : string) : option float64 :=
  '(neg, m, e) ← split_number lit;
  let top := e + ndigits (String.length lit) m in
  if m =? 0 then Some (S754_zero neg)
  else if 311 <? top then None
  else if top <? - 330 then Some (S754_zero neg)
  else let x := round_decimal neg m e in if IsInf x then None else Some x.

Example parse_tenth : ParseFloat "0.1" = Some (S754_finite false 7205759403792794 (-56)).
Proof. vm_compute. reflexivity. Qed.
Example parse_range :
  ParseFloat "1e309" = None ∧ ParseFloat "-1e-400" = Some (S754_zero true) ∧
  ParseFloat "1.7976931348623157e308" = Some (SFmax_float 53 1024) ∧ ParseFloat "25.0" = Some (of_Z 25).
Proof. vm_compute. auto. Qed.

(** [m / d] to the nearest integer, ties to even. *)
Definition div_nearest_even (m d : Z) : Z :=
  let q := m / d in
  match Z.compare (2 * (m mod d)) d with
  | Lt => q
  | Eq => if Z.even q then q else q + 1
  | Gt => q + 1
  end.

(** [fmt.Sprintf("%.3f", x)] read as a count of thousandths; [None] for NaN and
    the infinities. *)
Definition thousandths (x : float64) : option Z :=
  match x with
  | S754_zero _ => Some 0
  | S754_finite s m e =>
      let n := if 0 <=? e then Z.pos m * 2 ^ e * 1000 else div_nearest_even (Z.pos m * 1000) (2 ^ (- e)) in
      Some (if s then - n else n)
  | _ => None
  end.

(** A count of thousandths read back as float64. *)
Definition float_of_thousandths (n : Z) : float64 := round_decimal (n <? 0) (Z.abs n) (-3).

Example thousandths_ex :
  ParseFloat "0.3" = Some (float_of_thousandths 300) ∧ thousandths (float_of_thousandths 300) = Some 300.
Proof. vm_compute. auto. Qed.

(** ** Order *)

Lemma compare_swap x y : SFcompare y x = option_map CompOpp (SFcompare x y).
Proof.
  assert (Hc : ∀ m1 m2, Pos.compare_cont Eq m2 m1 = CompOpp (Pos.compare_cont Eq m1 m2)).
  { intros. change Eq with (CompOpp Eq) at 1. by rewrite Pos.compare_cont_antisym. }
  destruct x as [sx|sx| |sx mx ex], y as [sy|sy| |sy my ey]; try destruct sx; try destruct sy; try done.
  all: simpl; rewrite (Z.compare_antisym ex ey); destruct (ex ?= ey); simpl; try done; rewrite (Hc mx my); try done.
Qed.

Lemma compare_total x y : IsNaN x = false → IsNaN y = false → ∃ c, SFcompare x y = Some c.
Proof. destruct x, y; simpl; try done; eauto. Qed.

(** Numbers other than NaN are totally ordered. *)
Lemma not_flt_fle x y : IsNaN x = false → IsNaN y = false → flt x y = false → fle y x = true.
Proof.
  unfold flt, fle, SFltb, SFleb. rewrite (compare_swap x y). intros Hx Hy.
  destruct (compare_total x y Hx Hy) as [c ->]. by destruct c.
Qed.

Lemma fle_refl x : IsNaN x = false → fle x x = true.
Proof.
  unfold fle, SFleb. intros Hx. destruct x as [s|s| |s m e]; try done; [by destruct s..|].
  simpl. rewrite Z.compare_refl, Pos.compare_cont_refl. by destruct s.
Qed.

Lemma finite_not_nan x : finite x = true → IsNaN x = false.
Proof. by destruct x. Qed.

(** ** Finite operands do not make NaN *)

Lemma shr_1_nonneg r : 0 ≤ shr_m r → 0 ≤ shr_m (shr_1 r).
Proof. destruct r as [m r s]. simpl. destruct m as [|[]|[]]; simpl; lia. Qed.

Lemma iter_shr_nonneg p r : 0 ≤ shr_m r → 0 ≤ shr_m (SpecFloat.iter_pos shr_1 p r).
Proof. revert r. induction p as [p IH|p IH|]; intros r H; simpl; auto using shr_1_nonneg. Qed.

Lemma shr_fexp_nonneg m e l : 0 ≤ m → 0 ≤ shr_m (shr_fexp 53 1024 m e l).1.
Proof.
  intros H. unfold shr_fexp, shr.
  assert (0 ≤ shr_m (shr_record_of_loc m l)) by (destruct l as [|[]]; done).
  destruct (_ - e); simpl; auto using iter_shr_nonneg.
Qed.

Lemma round_aux_not_nan s m e l : 0 ≤ m → IsNaN (binary_round_aux 53 1024 s m e l) = false.
Proof.
  intros H. unfold binary_round_aux.
  pose proof (shr_fexp_nonneg m e l H) as H1. destruct (shr_fexp 53 1024 m e l) as [r1 e1]. simpl in H1.
  assert (H2 : 0 ≤ round_nearest_even (shr_m r1) (loc_of_shr_record r1))
    by (destruct r1 as [? [] []]; simpl in *; try case_match; lia).
  pose proof (shr_fexp_nonneg _ e1 loc_Exact H2) as H3.
  destruct (shr_fexp 53 1024 _ e1 loc_Exact) as [r2 e2]. simpl in H3.
  destruct (shr_m r2); [done|by case_match|lia].
Qed.

Lemma normalize_not_nan m e s : IsNaN (binary_normalize 53 1024 m e s) = false.
Proof.
  destruct m as [|p|p]; [done|..]; simpl; unfold binary_round.
  all: destruct (shl_align _ _ _); by apply round_aux_not_nan.
Qed.

Lemma of_Z_not_nan z : IsNaN (of_Z z) = false.
Proof. apply normalize_not_nan. Qed.

Lemma fmul_not_nan x y : finite x = true → finite y = true → IsNaN (fmul x y) = false.
Proof.
  destruct x as [| | |sx mx ex], y as [| | |sy my ey]; intros; try done. by apply round_aux_not_nan.
Qed.

Lemma fsub_not_nan x y : finite x = true → finite y = true → IsNaN (fsub x y) = false.
Proof.
  destruct x as [[]| | |sx mx ex], y as [[]| | |sy my ey]; intros; try done; apply normalize_not_nan.
Qed.

Lemma fadd_not_nan x y : finite x = true → finite y = true → IsNaN (fadd x y) = false.
Proof.
  destruct x as [[]| | |sx mx ex], y as [[]| | |sy my ey]; intros; try done; apply normalize_not_nan.
Qed.

#[export] Hint Resolve finite_not_nan fle_refl fmul_not_nan fsub_not_nan fadd_not_nan of_Z_not_nan : atlas.

(** ** Finite bounds *)

(** A number between two finite ones is finite. *)
Lemma between_finite lo x hi : finite lo = true → finite hi = true → fle lo x = true → fle x hi = true → finite x = true.
Proof. unfold fle, SFleb. by destruct lo as [[]|[]| |[]], x as [[]|[]| |[]], hi as [[]|[]| |[]]. Qed.

Lemma fle_not_nan x y : fle x y = true → IsNaN x = false ∧ IsNaN y = false.
Proof. unfold fle, SFleb. by destruct x, y. Qed.

(** ** Mantissas and overflow *)

Lemma shr_1_half r : 0 ≤ shr_m r → shr_m (shr_1 r) = shr_m r / 2.
Proof.
  destruct r as [m r s]. simpl. intros H. destruct m as [|[p|p|]|]; simpl; try done.
  - rewrite Pos2Z.inj_xI. apply (Z.div_unique _ _ _ 1); lia.
  - rewrite Pos2Z.inj_xO. apply (Z.div_unique _ _ _ 0); lia.
Qed.

Lemma iter_shr_div p r : 0 ≤ shr_m r → shr_m (SpecFloat.iter_pos shr_1 p r) = shr_m r / 2 ^ Z.pos p.
Proof.
  revert r. induction p as [p IH|p IH|]; intros r H; simpl SpecFloat.iter_pos.
  - pose proof (shr_1_nonneg r H) as H1. pose proof (iter_shr_nonneg p _ H1) as H2.
    rewrite (IH _ H2), (IH _ H1), shr_1_half by done. rewrite !Z.div_div by lia. f_equal.
    change 2 with (2 ^ 1) at 1. rewrite <- !Z.pow_add_r by lia. f_equal. lia.
  - pose proof (iter_shr_nonneg p r H) as H1. rewrite (IH _ H1), (IH _ H), Z.div_div by lia. f_equal.
    rewrite <- Z.pow_add_r by lia. f_equal. lia.
  - by rewrite shr_1_half.
Qed.

Lemma digits2_bound p : Z.pos p < 2 ^ Z.pos (digits2_pos p).
Proof.
  induction p as [p IH|p IH|]; simpl digits2_pos; [| |done].
  - rewrite Pos2Z.inj_xI, Pos2Z.inj_succ, Z.pow_succ_r by lia. lia.
  - rewrite (Pos2Z.inj_xO p), Pos2Z.inj_succ, Z.pow_succ_r by lia. lia.
Qed.

Lemma digits2_lower p : 2 ^ (Z.pos (digits2_pos p) - 1) ≤ Z.pos p.
Proof.
  assert (∀ p, Z.pos (Pos.succ p) - 1 = Z.succ (Z.pos p - 1)) as Hs by (intros; lia).
  induction p as [p IH|p IH|]; simpl digits2_pos; [| |done].
  - rewrite Hs, Pos2Z.inj_xI, Z.pow_succ_r by lia. lia.
  - rewrite Hs, (Pos2Z.inj_xO p), Z.pow_succ_r by lia. lia.
Qed.

Lemma Zdigits2_bound m : 0 ≤ m → 0 ≤ Zdigits2 m ∧ m < 2 ^ Zdigits2 m.
Proof. destruct m as [|p|p]; simpl; [done| |lia]. pose proof (digits2_bound p). lia. Qed.

(** [m] has at most [k] digits. *)
Lemma Zdigits2_le m k : 0 ≤ m < 2 ^ k → Zdigits2 m ≤ Z.max 0 k.
Proof.
  destruct m as [|p|p]; simpl; [lia| |lia]. intros [_ H].
  pose proof (digits2_lower p). destruct (Z.le_gt_cases (Z.pos (digits2_pos p)) k); [lia|].
  assert (2 ^ k ≤ 2 ^ (Z.pos (digits2_pos p) - 1)) by (apply Z.pow_le_mono_r; lia). lia.
Qed.

Lemma shr_fexp_spec m e l :
  0 ≤ m →
  let '(r, e') := shr_fexp 53 1024 m e l in
  e' = Z.max e (fexp 53 1024 (Zdigits2 m + e)) ∧ 0 ≤ shr_m r < 2 ^ 53 ∧ shr_m r ≤ m.
Proof.
  intros Hm. destruct (Zdigits2_bound m Hm) as [Hd Hb].
  unfold shr_fexp, shr. set (f := fexp 53 1024 (Zdigits2 m + e)).
  assert (Hf : Zdigits2 m + e - 53 ≤ f) by (unfold f, fexp; lia).
  assert (Hr : shr_m (shr_record_of_loc m l) = m) by by destruct l as [|[]].
  assert (Hsmall : f - e ≤ 0 → m < 2 ^ 53).
  { intros H. eapply Z.lt_le_trans; [exact Hb|]. apply Z.pow_le_mono_r; lia. }
  destruct (f - e) as [|p|p] eqn:E.
  - rewrite Hr. split_and!; lia.
  - rewrite iter_shr_div, Hr by lia. split_and!; [lia|apply Z.div_pos; lia| |apply Z.div_le_upper_bound; nia].
    apply Z.div_lt_upper_bound; [lia|]. rewrite <- Z.pow_add_r by lia.
    eapply Z.lt_le_trans; [exact Hb|]. apply Z.pow_le_mono_r; lia.
  - rewrite Hr. split_and!; lia.
Qed.

(** At most 53 significant bits. *)
Definition narrow (x : float64) : Prop :=
  match x with S754_finite _ m _ => Z.pos m < 2 ^ 53 | _ => True end.

Lemma round_nearest_bound r : 0 ≤ shr_m r → 0 ≤ round_nearest_even (shr_m r) (loc_of_shr_record r) ≤ shr_m r + 1.
Proof. destruct r as [m [] []]; simpl; intros; try case_match; lia. Qed.

Lemma round_aux_narrow s m e l : 0 ≤ m → narrow (binary_round_aux 53 1024 s m e l).
Proof.
  intros H. unfold binary_round_aux. pose proof (shr_fexp_spec m e l H) as H1.
  destruct (shr_fexp 53 1024 m e l) as [r1 e1]. destruct H1 as (_ & H1 & _).
  pose proof (round_nearest_bound r1 ltac:(lia)) as H2.
  pose proof (shr_fexp_spec _ e1 loc_Exact (proj1 H2)) as H3.
  destruct (shr_fexp 53 1024 _ e1 loc_Exact) as [r2 e2]. destruct H3 as (_ & H3 & _).
  destruct (shr_m r2); [done| |done]. case_match; [|done]. simpl. lia.
Qed.

Lemma round_aux_not_inf s m e l :
  0 ≤ m → e ≤ 900 → Zdigits2 m + e ≤ 900 → IsInf (binary_round_aux 53 1024 s m e l) = false.
Proof.
  intros H He Hde. unfold binary_round_aux. pose proof (shr_fexp_spec m e l H) as H1.
  destruct (shr_fexp 53 1024 m e l) as [r1 e1]. destruct H1 as (E1 & H1 & _).
  pose proof (round_nearest_bound r1 ltac:(lia)) as H2.
  pose proof (shr_fexp_spec _ e1 loc_Exact (proj1 H2)) as H3.
  assert (Hd2 : Zdigits2 (round_nearest_even (shr_m r1) (loc_of_shr_record r1)) ≤ Z.max 0 54)
    by (apply Zdigits2_le; change (2 ^ 54) with (2 ^ 53 + 2 ^ 53); lia).
  destruct (shr_fexp 53 1024 _ e1 loc_Exact) as [r2 e2]. destruct H3 as (E2 & H3 & _).
  destruct (shr_m r2); [done| |done]. unfold fexp, emin in *. case_match; [done|]. simpl. apply Z.leb_gt in H0. lia.
Qed.

Lemma digits2_shl p d : Z.pos (digits2_pos (Pos.iter xO p d)) = Z.pos (digits2_pos p) + Z.pos d.
Proof.
  induction d as [|d IH] using Pos.peano_ind; [simpl; lia|]. rewrite Pos.iter_succ. simpl. lia.
Qed.

Lemma shl_value p d : Z.pos (Pos.iter xO p d) = Z.pos p * 2 ^ Z.pos d.
Proof.
  induction d as [|d IH] using Pos.peano_ind; [simpl; lia|].
  rewrite Pos.iter_succ, (Pos2Z.inj_xO (Pos.iter _ _ _)), IH, Pos2Z.inj_succ, Z.pow_succ_r by lia. lia.
Qed.

Lemma normalize_finite z e s k :
  - 2 ^ k < z < 2 ^ k → 0 ≤ k → k + e ≤ 800 → e ≤ 800 → finite (binary_normalize 53 1024 z e s) = true.
Proof.
  intros Hz Hk Hke He. unfold finite. rewrite normalize_not_nan. simpl.
  assert (H : ∀ s p, Z.pos p < 2 ^ k → IsInf (binary_round 53 1024 s p e) = false).
  { clear z s Hz. intros s p Hp. pose proof (Zdigits2_le (Z.pos p) k ltac:(lia)) as Hd. simpl in Hd.
    unfold binary_round, shl_align. destruct (_ - e) as [|q|q] eqn:E; apply round_aux_not_inf; simpl; try lia.
    rewrite digits2_shl. lia. }
  destruct z as [|p|p]; [done|..]; simpl; rewrite H; try done; lia.
Qed.

(** The complement of an effectiveness is a finite number. *)
Lemma one_minus_finite c : narrow c → fle fzero c = true → fle c fone = true → finite (fsub fone c) = true.
Proof.
  unfold fle, SFleb. destruct c as [[]|[]| |[] m e]; try done. intros Hm _ Hc.
  assert (He : e ≤ - 52).
  { change fone with (S754_finite false 4503599627370496 (-52)) in Hc. cbn [SFcompare] in Hc.
    destruct (Z.compare_spec e (-52)); [lia|lia|done]. }
  change (fsub fone (S754_finite false m e)) with
    (binary_normalize 53 1024
       (Z.pos (fst (shl_align 4503599627370496 (-52) (Z.min (-52) e))) -
        Z.pos (fst (shl_align m e (Z.min (-52) e)))) (Z.min (-52) e) false).
  rewrite Z.min_r by lia. simpl in Hm.
  assert (E1 : Z.pos (fst (shl_align 4503599627370496 (-52) e)) = 2 ^ (- e)).
  { unfold shl_align. destruct (e - -52) as [|q|q] eqn:E; [by replace e with (-52) by lia|lia|].
    cbn [fst]. rewrite shl_value. change 4503599627370496 with (2 ^ 52). rewrite <- Z.pow_add_r by lia. f_equal. lia. }
  assert (E2 : fst (shl_align m e e) = m) by (unfold shl_align; by rewrite Z.sub_diag).
  rewrite E1, E2. pose proof (Z.pow_pos_nonneg 2 (- e)) as Hp.
  assert (H1 : 2 ^ (- e) ≤ 2 ^ Z.max (- e) 53) by (apply Z.pow_le_mono_r; lia).
  assert (H2 : 2 ^ 53 ≤ 2 ^ Z.max (- e) 53) by (apply Z.pow_le_mono_r; lia).
  apply (normalize_finite _ _ _ (Z.max (- e) 53)); lia.
Qed.

Lemma fdiv_narrow x y : narrow (fdiv x y).
Proof.
  destruct x as [| | |sx mx ex], y as [| | |sy my ey]; try done. unfold fdiv, SFdiv.
  destruct (SFdiv_core_binary _ _ _ _ _ _) as [[mz ez] lz] eqn:E. apply round_aux_narrow.
  unfold SFdiv_core_binary in E.
  destruct (Z.div_eucl _ (Z.pos my)) as [q r] eqn:Eq. injection E as <- _ _.
  match type of Eq with Z.div_eucl ?a ?b = _ => pose proof (Z.div_eucl_eq a b ltac:(done)) as Hd;
    assert (Hq : q = a / b) by (unfold Z.div; by rewrite Eq); assert (Ha : 0 ≤ a) end.
  { case_match; simpl; try lia. apply Z.shiftl_nonneg. lia. }
  rewrite Hq. apply Z.div_pos; lia.
Qed.
