(* ===== verification/Scope.v ===== *)
(** * Scope: dimensions, cells and the applicability expression engine

    Models internal/scope/expr.go and internal/scope/canonical.go: the JSON
    boolean AST ([node]) as encoding/json decodes it, its validation and
    evaluation over a universe of cells, and the canonical encoding of a cell's
    dimensions with its SHA-256 digest. *)

From Stdlib Require Import Ascii.
From S2P Require Import Prelude Json Sha256.

Module Scope.

(** ** Cells *)

Record Cell := mkCell {
  ID : UUID;
  TenantID : UUID;
  Label : string;
  Dimensions : gmap string string;
}.

(** ** The AST *)

(** [Values] distinguishes nil from an empty slice.  [values_tail] and
    [args_tail] are the elements a slice keeps in its backing array beyond its
    length: the decoder reuses them when a repeated key makes the slice grow
    back. *)
Inductive node := Node {
  Op : string;
  Dim : string;
  Value : option string;
  Values : option (list string);
  values_tail : list string;
  Args : list node;
  args_tail : list node;
  Arg : option node;
}.

Definition node_zero : node := Node "" "" None None [] [] [] None.

(** *** Decoding a document into a [node] *)

(** [foldName] of encoding/json: ASCII letters in upper case, and the two
    non-ASCII runes that fold to a letter, U+017F (s) and U+212A (k). *)
Fixpoint foldName (s : string) : string :=
  match s with
  | "" => ""
  | String a t =>
      match t with
      | String b t' =>
          if bool_decide (code a = 197%N) && bool_decide (code b = 191%N)
          then String "S" (foldName t')
          else
            match t' with
            | String c t'' =>
                if bool_decide (code a = 226%N) && bool_decide (code b = 132%N) &&
                   bool_decide (code c = 170%N)
                then String "K" (foldName t'')
                else String (if between 97 122 a then byte (code a - 32) else a) (foldName t)
            | "" => String (if between 97 122 a then byte (code a - 32) else a) (foldName t)
            end
      | "" => String (if between 97 122 a then byte (code a - 32) else a) (foldName t)
      end
  end.

(** A decoding step returns the new value and whether a type error was saved. *)
Definition decode_string (j : json) (s : string) : string * bool :=
  match j with
  | JStr x => (x, false)
  | JNull => (s, false)
  | _ => (s, true)
  end.

Definition decode_string_ptr (j : json) (p : option string) : option string * bool :=
  match j with
  | JNull => (None, false)
  | _ => let '(s, bad) := decode_string j (default "" p) in (Some s, bad)
  end.

Section DecodeElems.
Context {A : Type} (decode : json → A → A * bool) (zero : A).

(** The elements of an array, each decoded into what the backing array holds
    at its index. *)
Fixpoint decode_elems (items : list json) (backing : list A) : list A * list A * bool :=
  match items with
  | [] => ([], backing, false)
  | j :: items =>
      let '(x, bad) := decode j (hd zero backing) in
      let '(xs, rest, bad') := decode_elems items (tl backing) in
      (x :: xs, rest, bad || bad')
  end.
End DecodeElems.

Definition decode_values (j : json) (vs : option (list string)) (spare : list string)
  : option (list string) * list string * bool :=
  match j with
  | JNull => (None, [], false)
  | JArr [] => (Some [], [], false)
  | JArr items =>
      let '(xs, rest, bad) := decode_elems decode_string "" items (default [] vs ++ spare) in
      (Some xs, rest, bad)
  | _ => (vs, spare, true)
  end.

(** The field of the struct a key selects. *)
Inductive field := FOp | FDim | FValue | FValues | FArgs | FArg.

Definition field_of (key : string) : option field :=
  let f := foldName key in
  if bool_decide (f = "OP") then Some FOp
  else if bool_decide (f = "DIM") then Some FDim
  else if bool_decide (f = "VALUE") then Some FValue
  else if bool_decide (f = "VALUES") then Some FValues
  else if bool_decide (f = "ARGS") then Some FArgs
  else if bool_decide (f = "ARG") then Some FArg
  else None.

Definition set_args (n : node) (args spare : list node) : node :=
  Node (Op n) (Dim n) (Value n) (Values n) (values_tail n) args spare (Arg n).
Definition set_arg (n : node) (arg : option node) : node :=
  Node (Op n) (Dim n) (Value n) (Values n) (values_tail n) (Args n) (args_tail n) arg.

Section DecodeFields.
Context (decode : json → node → node * bool).

(** One member of the object, decoded into its field; unknown keys are skipped. *)
Definition decode_field (k : string) (v : json) (n : node) : node * bool :=
  match field_of k with
  | Some FOp =>
      let '(s, bad) := decode_string v (Op n) in
      (Node s (Dim n) (Value n) (Values n) (values_tail n) (Args n) (args_tail n) (Arg n), bad)
  | Some FDim =>
      let '(s, bad) := decode_string v (Dim n) in
      (Node (Op n) s (Value n) (Values n) (values_tail n) (Args n) (args_tail n) (Arg n), bad)
  | Some FValue =>
      let '(p, bad) := decode_string_ptr v (Value n) in
      (Node (Op n) (Dim n) p (Values n) (values_tail n) (Args n) (args_tail n) (Arg n), bad)
  | Some FValues =>
      let '(vs, spare, bad) := decode_values v (Values n) (values_tail n) in
      (Node (Op n) (Dim n) (Value n) vs spare (Args n) (args_tail n) (Arg n), bad)
  | Some FArgs =>
      match v with
      | JNull | JArr [] => (set_args n [] [], false)
      | JArr items =>
          let '(xs, rest, bad) := decode_elems decode node_zero items (Args n ++ args_tail n) in
          (set_args n xs rest, bad)
      | _ => (n, true)
      end
  | Some FArg =>
      match v with
      | JNull => (set_arg n None, false)
      | _ => let '(x, bad) := decode v (default node_zero (Arg n)) in (set_arg n (Some x), bad)
      end
  | None => (n, false)
  end.

Fixpoint decode_fields (ms : list (string * json)) (n : node) : node * bool :=
  match ms with
  | [] => (n, false)
  | (k, v) :: ms =>
      let '(n1, bad) := decode_field k v n in
      let '(n2, bad') := decode_fields ms n1 in (n2, bad || bad')
  end.
End DecodeFields.

(** [json.Unmarshal(doc, &node)] once the syntax is known to be valid. *)
Fixpoint decode_node (j : json) (n : node) {struct j} : node * bool :=
  match j with
  | JNull => (n, false)
  | JObj ms => decode_fields decode_node ms n
  | _ => (n, true)
  end.

Inductive Error :=
| ErrParse
| ErrEqDim | ErrEqValue
| ErrInDim | ErrInValues
| ErrArgsEmpty (op : string)
| ErrNotArg
| ErrMissingOp
| ErrUnknownOp (op : string)
| ErrUnreachableOp (op : string)
| ErrDimsEmpty
| ErrDimKeyEmpty.

(** [var node node; json.Unmarshal(exprJSON, &node)] *)
Definition Unmarshal_node (exprJSON : string) : result Error node :=
  match decode_all exprJSON with
  | None => Err ErrParse
  | Some j => let '(n, bad) := decode_node j node_zero in if bad then Err ErrParse else Ok n
  end.

(** *** Validation *)

(** The first error of a list of checks. *)
Fixpoint first_err {A} (f : A → option Error) (l : list A) : option Error :=
  match l with
  | [] => None
  | x :: l => match f x with Some e => Some e | None => first_err f l end
  end.

(** [nil] is [None]. *)
Fixpoint validate (n : node) : option Error :=
  if bool_decide (Op n = "true") then None
  else if bool_decide (Op n = "eq") then
    if bool_decide (Dim n = "") then Some ErrEqDim
    else if bool_decide (Value n = None) then Some ErrEqValue
    else None
  else if bool_decide (Op n = "in") then
    if bool_decide (Dim n = "") then Some ErrInDim
    else if bool_decide (Values n = None) then Some ErrInValues
    else None
  else if bool_decide (Op n = "and") || bool_decide (Op n = "or") then
    match Args n with
    | [] => Some (ErrArgsEmpty (Op n))
    | _ => first_err validate (Args n)
    end
  else if bool_decide (Op n = "not") then
    match Arg n with
    | None => Some ErrNotArg
    | Some a => validate a
    end
  else if bool_decide (Op n = "") then Some ErrMissingOp
  else Some (ErrUnknownOp (Op n)).

(** *** Evaluation on one cell *)

(** The outcome of a Go call that may also panic (a nil dereference). *)
Inductive outcome := Returns (r : result Error bool) | Panics.

Section Loops.
Context (f : node → outcome).

(** The loop of [and] with its two early returns. *)
Fixpoint match_all (l : list node) : outcome :=
  match l with
  | [] => Returns (Ok true)
  | x :: l =>
      match f x with
      | Returns (Ok true) => match_all l
      | Returns (Ok false) => Returns (Ok false)
      | Returns (Err e) => Returns (Err e)
      | Panics => Panics
      end
  end.

(** The loop of [or]. *)
Fixpoint match_any (l : list node) : outcome :=
  match l with
  | [] => Returns (Ok false)
  | x :: l =>
      match f x with
      | Returns (Ok true) => Returns (Ok true)
      | Returns (Ok false) => match_any l
      | Returns (Err e) => Returns (Err e)
      | Panics => Panics
      end
  end.
End Loops.

(** [match] of the source; [*n.Value] and [match(n.Arg, c)] panic on nil. *)
Fixpoint match_node (n : node) (c : Cell) : outcome :=
  if bool_decide (Op n = "true") then Returns (Ok true)
  else if bool_decide (Op n = "eq") then
    match Dimensions c !! Dim n with
    | None => Returns (Ok false)
    | Some v =>
        match Value n with
        | None => Panics
        | Some x => Returns (Ok (bool_decide (v = x)))
        end
    end
  else if bool_decide (Op n = "in") then
    match Dimensions c !! Dim n with
    | None => Returns (Ok false)
    | Some v => Returns (Ok (existsb (λ x, bool_decide (v = x)) (default [] (Values n))))
    end
  else if bool_decide (Op n = "and") then match_all (λ a, match_node a c) (Args n)
  else if bool_decide (Op n = "or") then match_any (λ a, match_node a c) (Args n)
  else if bool_decide (Op n = "not") then
    match Arg n with
    | None => Panics
    | Some a =>
        match match_node a c with
        | Returns (Ok b) => Returns (Ok (negb b))
        | r => r
        end
    end
  else Returns (Err (ErrUnreachableOp (Op n))).

(** *** Evaluation on a universe *)

Definition isEmptyExpr (b : string) : bool :=
  bool_decide (b = "") || bool_decide (TrimSpace b = "null") || bool_decide (TrimSpace b = "{}").

(** The loop of [Evaluate]: [None] when a call panics. *)
Fixpoint match_cells (n : node) (universe : list Cell) : option (result Error (list Cell)) :=
  match universe with
  | [] => Some (Ok [])
  | c :: universe =>
      match match_node n c with
      | Panics => None
      | Returns (Err e) => Some (Err e)
      | Returns (Ok ok) =>
          match match_cells n universe with
          | Some (Ok matches) => Some (Ok (if ok then c :: matches else matches))
          | r => r
          end
      end
  end.

Definition Evaluate (exprJSON : string) (universe : list Cell) : option (result Error (list Cell)) :=
  if isEmptyExpr exprJSON then Some (Ok universe)
  else
    match Unmarshal_node exprJSON with
    | Err e => Some (Err e)
    | Ok n =>
        match validate n with
        | Some e => Some (Err e)
        | None => match_cells n universe
        end
    end.

(** The [Engine] interface and its default implementation. *)
Class Engine := Applicability : string → list Cell → option (result Error (list Cell)).
Definition DefaultEngine : Engine := Evaluate.

Definition prod_expr : string := js "{'op':'eq','dim':'environment','value':'prod'}".
Definition cell_prod : Cell := mkCell 1 7 "prod" {[ "environment" := "prod" ]}.
Definition cell_dev : Cell := mkCell 2 7 "dev" {[ "environment" := "dev" ]}.

Example evaluate_eq : Evaluate prod_expr [cell_prod; cell_dev] = Some (Ok [cell_prod]).
Proof. vm_compute. reflexivity. Qed.

Example evaluate_nested :
  Evaluate (js "{'op':'and','args':[{'op':'not','arg':{'op':'in','dim':'environment','values':['dev']}},{'OP':'true'}]}")
    [cell_prod; cell_dev] = Some (Ok [cell_prod]).
Proof. vm_compute. reflexivity. Qed.

Example evaluate_errors :
  Evaluate (js "{'op':'and','args':[]}") [] = Some (Err (ErrArgsEmpty "and")) ∧
  Evaluate (js "{'op':'xor'}") [] = Some (Err (ErrUnknownOp "xor")) ∧
  Evaluate (js "{'op':'eq','dim':'e','value':3}") [] = Some (Err ErrParse) ∧
  Evaluate (js "{'op':'eq','dim':'e'} x") [] = Some (Err ErrParse).
Proof. vm_compute. repeat split. Qed.

(** A repeated [args] key decodes into the elements of the first array. *)
Example decode_repeated_args :
  Evaluate (js "{'op':'or','args':[{'op':'eq','dim':'environment','value':'prod'}],'args':[{'value':'dev'}]}")
    [cell_prod; cell_dev] = Some (Ok [cell_dev]).
Proof. vm_compute. reflexivity. Qed.

(** ** Canonical dimensions *)

(** [keys] is the order in which [range dims] yields the keys. *)
Definition Canonicalize (keys : list string) (dims : gmap string string)
  : result Error (string * string) :=
  if bool_decide (dims = ∅) then Err ErrDimsEmpty
  else if bool_decide ("" ∈ keys) then Err ErrDimKeyEmpty
  else
    let sorted := merge_sort String.le keys in
    let out := "{" +:+ join "," (map (λ k, quote k +:+ ":" +:+ quote (default "" (dims !! k))) sorted)
               +:+ "}" in
    Ok (out, sha256_hex out).

Definition range_of (keys : list string) (dims : gmap string string) : Prop :=
  keys ≡ₚ (map_to_list dims).*1.

Example canonicalize_sorts :
  match Canonicalize ["environment"; "business_unit"]
          {[ "environment" := "prod"; "business_unit" := "a" ]} with
  | Ok (out, _) => out = js "{'business_unit':'a','environment':'prod'}"
  | Err _ => False
  end.
Proof. vm_compute. reflexivity. Qed.

End Scope.
