(* ===== verification/GoJson.v ===== *)
(** * encoding/json between text and Go values

    [json.Unmarshal] into [any] and [map[string]any], with numbers as float64;
    decoding of optional numeric struct fields; and [json.Marshal], which escapes
    HTML characters and line separators and writes floats in their shortest
    decimal form. *)

From Stdlib Require Import Ascii SpecFloat.
From S2P Require Import Prelude GoTime Json Float64 Scope.

(** ** Decoding into [any] *)

Inductive any :=
| ANull
| ABool (b : bool)
| ANum (f : float64)
| AStr (s : string)
| AArr (items : list any)
| AObj (m : list (string * any)).

(** A number out of the range of float64 fails the whole document. *)
Fixpoint any_of (j : json) : option any :=
  match j with
  | JNull => Some ANull
  | JBool b => Some (ABool b)
  | JNum lit => ANum <$> ParseFloat lit
  | JStr s => Some (AStr s)
  | JArr items => AArr <$> mapM any_of items
  | JObj ms => (λ ms, AObj (map_of ms)) <$> mapM (λ kv, v ← any_of kv.2; Some (kv.1, v)) ms
  end.

(** [var v any; json.Unmarshal(b, &v)] *)
Definition Unmarshal_any (b : string) : option any := j ← decode_all b; any_of j.

(** [var m map[string]any; json.Unmarshal(b, &m)]: null leaves the map nil. *)
Definition Unmarshal_map (b : string) : option (list (string * any)) :=
  match Unmarshal_any b with
  | Some (AObj m) => Some m
  | Some ANull => Some []
  | _ => None
  end.

(** [m[key]] *)
Fixpoint get {A} (m : list (string * A)) (key : string) : option A :=
  match m with
  | [] => None
  | (k, v) :: m => if bool_decide (k = key) then Some v else get m key
  end.

(** The type assertions [m[key].(float64)], [.(string)] and [.(bool)]. *)
Definition get_num (m : list (string * any)) (key : string) : option float64 :=
  match get m key with Some (ANum f) => Some f | _ => None end.
Definition get_str (m : list (string * any)) (key : string) : option string :=
  match get m key with Some (AStr s) => Some s | _ => None end.
Definition get_bool (m : list (string * any)) (key : string) : option bool :=
  match get m key with Some (ABool b) => Some b | _ => None end.

(** ** Decoding into a struct of [*float64] fields *)

(** One member into a field: null clears the pointer, anything but a number in
    range is an error. *)
Definition decode_float_ptr (j : json) : option float64 * bool :=
  match j with
  | JNull => (None, false)
  | JNum lit => match ParseFloat lit with Some f => (Some f, false) | None => (None, true) end
  | _ => (None, true)
  end.

(** The fields, by their names in upper case; other members are ignored. *)
Fixpoint decode_floats (names : list string) (ms : list (string * json)) (st : list (option float64))
  : list (option float64) * bool :=
  match ms with
  | [] => (st, false)
  | (k, v) :: ms =>
      match list_find (λ n, n = Scope.foldName k) names with
      | Some (i, _) =>
          let '(p, bad) := decode_float_ptr v in
          let '(st', bad') := decode_floats names ms (<[i := p]> st) in (st', bad || bad')
      | None => decode_floats names ms st
      end
  end.

Definition Unmarshal_floats (names : list string) (b : string) : option (list (option float64)) :=
  match decode_all b with
  | Some JNull => Some (replicate (length names) None)
  | Some (JObj ms) =>
      let '(st, bad) := decode_floats names ms (replicate (length names) None) in
      if bad then None else Some st
  | _ => None
  end.

(** ** Decoding into a struct of string and int fields *)

Inductive slot := SStr (s : string) | SInt (z : Z).

Fixpoint all_digits (s : string) : bool :=
  match s with "" => true | String c t => is_digit c && all_digits t end.

(** [strconv.ParseInt(lit, 10, 64)] *)
Definition ParseInt (lit : string) : option Z :=
  let '(neg, ds) := match lit with
                    | String c t => if bool_decide (code c = 45%N) then (true, t) else (false, lit)
                    | "" => (false, "")
                    end in
  if bool_decide (ds = "") || negb (all_digits ds) then None
  else
    let n := if neg then - digits_val ds 0 else digits_val ds 0 in
    if (- 2 ^ 63 <=? n) && (n <? 2 ^ 63) then Some n else None.

(** One member into a field: null leaves it, a value of another kind is an
    error. *)
Definition into_slot (old : slot) (v : json) : slot * bool :=
  match old, v with
  | _, JNull => (old, false)
  | SStr _, JStr s => (SStr s, false)
  | SInt _, JNum lit => match ParseInt lit with Some z => (SInt z, false) | None => (old, true) end
  | _, _ => (old, true)
  end.

(** The fields, by their names in upper case; an unknown member is an error when
    [strict]. *)
Fixpoint decode_fields (strict : bool) (names : list string) (ms : list (string * json)) (st : list slot)
  : list slot * bool :=
  match ms with
  | [] => (st, false)
  | (k, v) :: ms =>
      match list_find (λ n, n = Scope.foldName k) names with
      | Some (i, _) =>
          match st !! i with
          | Some old =>
              let '(new, e) := into_slot old v in
              let '(st', e') := decode_fields strict names ms (<[i := new]> st) in (st', e || e')
          | None => decode_fields strict names ms st
          end
      | None => let '(st', e) := decode_fields strict names ms st in (st', strict || e)
      end
  end.

(** ** Strings as [json.Marshal] writes them *)

Definition u00 (c : ascii) : string :=
  String bslash ("u00" +:+ String (hex_digit (code c / 16)) (String (hex_digit (code c mod 16)) "")).

Definition go_escape_byte (c : ascii) : string :=
  if bool_decide (c = dquote) then String bslash (String dquote "")
  else if bool_decide (c = bslash) then String bslash (String bslash "")
  else if bool_decide (code c = 8%N) then String bslash "b"
  else if bool_decide (code c = 12%N) then String bslash "f"
  else if bool_decide (code c = 10%N) then String bslash "n"
  else if bool_decide (code c = 13%N) then String bslash "r"
  else if bool_decide (code c = 9%N) then String bslash "t"
  else if (code c <? 32)%N || bool_decide (code c = 60%N) || bool_decide (code c = 62%N) ||
          bool_decide (code c = 38%N) then u00 c
  else String c "".

(** U+2028 and U+2029 *)
Definition line_separator (c c1 c2 : ascii) : option string :=
  if bool_decide (code c = 226%N) && bool_decide (code c1 = 128%N) then
    if bool_decide (code c2 = 168%N) then Some (String bslash "u2028")
    else if bool_decide (code c2 = 169%N) then Some (String bslash "u2029")
    else None
  else None.

Fixpoint go_escape (s : string) : string :=
  match s with
  | "" => ""
  | String c s1 =>
      match rune_len s, s1 with
      | 1%nat, _ => go_escape_byte c +:+ go_escape s1
      | 2%nat, String c1 s2 => String c (String c1 (go_escape s2))
      | 3%nat, String c1 (String c2 s3) =>
          match line_separator c c1 c2 with
          | Some e => e +:+ go_escape s3
          | None => String c (String c1 (String c2 (go_escape s3)))
          end
      | 4%nat, String c1 (String c2 (String c3 s4)) =>
          String c (String c1 (String c2 (String c3 (go_escape s4))))
      | _, _ => String bslash "ufffd" +:+ go_escape s1
      end
  end.

Definition go_quote (s : string) : string := String dquote (go_escape s +:+ String dquote "").

(** ** Floats as [json.Marshal] writes them *)

Definition dec_digit (n : Z) : ascii := ascii_of_N (Z.to_N (48 + n)).

(** Decimal digits of [n], most significant first, in front of [acc]. *)
Fixpoint dec_go (fuel : nat) (n : Z) (acc : string) : string :=
  match fuel with
  | O => String (dec_digit (n mod 10)) acc
  | S fuel =>
      if n <? 10 then String (dec_digit n) acc
      else dec_go fuel (n / 10) (String (dec_digit (n mod 10)) acc)
  end.

Definition dec (n : Z) : string := dec_go (Z.to_nat (Z.log2 n)) n "".

(** [strconv.Itoa] *)
Definition Itoa (n : Z) : string := if n <? 0 then "-" +:+ dec (- n) else dec n.

Fixpoint zeros (n : nat) : string := match n with O => "" | S n => String "0" (zeros n) end.

(** The position of the decimal point of [num / den] when it is below one. *)
Fixpoint point_below (fuel : nat) (num den : Z) : Z :=
  match fuel with
  | O => 0
  | S fuel => if num * 10 <? den then point_below fuel (num * 10) den - 1 else 0
  end.

Definition point_of (num den : Z) : Z :=
  if den <=? num then Z.of_nat (String.length (dec (num / den))) else point_below 400 num den.

(** The fewest digits whose decimal is read back as [x], the nearer one first. *)
Fixpoint shortest (fuel : nat) (x : float64) (num den k n : Z) : Z * Z :=
  let '(u, v) := if n <=? k then (num, den * 10 ^ (k - n)) else (num * 10 ^ (n - k), den) in
  let lo := u / v in
  let hi := lo + 1 in
  let reads d := feq (round_decimal false d (k - n)) x in
  let '(a, b) := if 2 * (u - lo * v) <=? v then (lo, hi) else (hi, lo) in
  match fuel with
  | O => (hi, n)
  | S fuel =>
      if (0 <? a) && reads a then (a, n) else if (0 <? b) && reads b then (b, n)
      else shortest fuel x num den k (n + 1)
  end.

(** Digits [d], [n] of them, with the point after the first [k]. *)
Definition fixed_form (d : string) (k : Z) : string :=
  let n := Z.of_nat (String.length d) in
  if k <=? 0 then "0." +:+ zeros (Z.to_nat (- k)) +:+ d
  else if n <=? k then d +:+ zeros (Z.to_nat (k - n))
  else String.substring 0 (Z.to_nat k) d +:+ "." +:+ String.substring (Z.to_nat k) (Z.to_nat (n - k)) d.

Definition exp_form (d : string) (k : Z) : string :=
  let e := k - 1 in
  match d with
  | "" => ""
  | String c ds =>
      String c (if bool_decide (ds = "") then "" else "." +:+ ds) +:+
      (if e <? 0 then "e-" +:+ dec (- e) else "e+" +:+ (if e <? 10 then "0" else "") +:+ dec e)
  end.

(** [floatEncoder] of encoding/json; [None] for what it refuses. *)
Definition json_float (x : float64) : option string :=
  match x with
  | S754_zero s => Some (if s then "-0" else "0")
  | S754_finite s m e =>
      let '(num, den) := if 0 <=? e then (Z.pos m * 2 ^ e, 1) else (Z.pos m, 2 ^ (- e)) in
      let k := point_of num den in
      let '(d, n) := shortest 17 (fabs x) num den k 1 in
      let '(d, k) := if d =? 10 ^ n then (1, k + 1) else (d, k) in
      let text := if (num * 10 ^ 6 <? den) || (10 ^ 21 * den <=? num) then exp_form (dec d) k
                  else fixed_form (dec d) k in
      Some (if s then "-" +:+ text else text)
  | _ => None
  end.

Example float_texts :
  map json_float [of_Z 25; fdiv (of_Z 1) (of_Z 10); fdiv (of_Z 1) (of_Z 3); fdiv (of_Z (-5)) (of_Z 2);
                  of_Z (10 ^ 21); S754_finite false 1 (-1074); of_Z 1200000] =
  map Some ["25"; "0.1"; "0.3333333333333333"; "-2.5"; "1e+21"; "5e-324"; "1200000"].
Proof. vm_compute. reflexivity. Qed.

Example float_texts_small :
  map json_float [fdiv (of_Z 1) (of_Z (2 ^ 44)); fdiv (of_Z 1) (of_Z 10000000); fdiv (of_Z 999) (of_Z 1000)] =
  map Some ["5.684341886080802e-14"; "1e-7"; "0.999"].
Proof. vm_compute. reflexivity. Qed.

(** ** What [json.Marshal] writes reads back *)

Lemma scan_go_escape_ascii c t :
  (code c < 128)%N → scan_string (go_escape_byte c +:+ t) = prepend (String c "") (scan_string t).
Proof. destruct c as [[] [] [] [] [] [] [] []]; intros H; (by vm_compute in H) || done. Qed.

Lemma scan_line_separator c c1 c2 e t :
  line_separator c c1 c2 = Some e →
  scan_string (e +:+ t) = prepend (String c (String c1 (String c2 ""))) (scan_string t).
Proof.
  unfold line_separator.
  destruct (bool_decide_reflect (code c = 226%N)) as [H0|]; [|done].
  destruct (bool_decide_reflect (code c1 = 128%N)) as [H1|]; [|done]. simpl.
  rewrite (code_inj c (byte 226) H0), (code_inj c1 (byte 128) H1).
  destruct (bool_decide_reflect (code c2 = 168%N)) as [H2|];
    [|destruct (bool_decide_reflect (code c2 = 169%N)) as [H2|]; [|done]].
  - intros [= <-]. rewrite (code_inj c2 (byte 168) H2). by rewrite !str_app_cons, str_nil_app.
  - intros [= <-]. rewrite (code_inj c2 (byte 169) H2). by rewrite !str_app_cons, str_nil_app.
Qed.

Lemma scan_go_escape s rest :
  utf8_valid s = true → scan_string (go_escape s +:+ String dquote rest) = Some (s, rest).
Proof.
  remember (String.length s) as n eqn:Hn. revert s Hn.
  induction n as [n IH] using (well_founded_induction Nat.lt_wf_0). intros s -> Hv.
  destruct s as [|c s1]; [done|]. cbn [utf8_valid] in Hv. cbn [go_escape].
  destruct (rune_len (String c s1)) as [|[|[|[|[|]]]]] eqn:E; try done.
  - apply rune_len_1 in E. rewrite str_app_assoc, scan_go_escape_ascii by done.
    by rewrite (IH (String.length s1)) by (simpl; auto; lia).
  - destruct s1 as [|c1 s2]; [done|]. apply rune_len_2 in E as (H0 & H1 & Ht).
    rewrite !str_app_cons, scan_high, Ht by done.
    by rewrite (IH (String.length s2)) by (simpl; auto; lia).
  - destruct s1 as [|c1 [|c2 s3]]; [done..|]. apply rune_len_3 in E as (H0 & H1 & H2 & Ht).
    destruct (line_separator c c1 c2) as [e|] eqn:El.
    + rewrite str_app_assoc, (scan_line_separator _ _ _ _ _ El).
      by rewrite (IH (String.length s3)) by (simpl; auto; lia).
    + rewrite !str_app_cons, scan_high, Ht by done.
      by rewrite (IH (String.length s3)) by (simpl; auto; lia).
  - destruct s1 as [|c1 [|c2 [|c3 s4]]]; [done..|].
    apply rune_len_4 in E as (H0 & H1 & H2 & H3 & Ht).
    rewrite !str_app_cons, scan_high, Ht by done.
    by rewrite (IH (String.length s4)) by (simpl; auto; lia).
Qed.

#[global] Instance go_quoting : Quoting go_quote.
Proof.
  intros s rest Hs. exists (go_escape s +:+ String dquote rest). split; [|by apply scan_go_escape].
  unfold go_quote. by rewrite str_app_cons, str_app_assoc, str_app_cons, str_nil_app.
Qed.

(** *** Number literals *)

Lemma all_digits_app a b : all_digits (a +:+ b) = all_digits a && all_digits b.
Proof. induction a as [|c a IH]; [done|]. rewrite str_app_cons. simpl. by rewrite IH, andb_assoc. Qed.

Lemma span_all_digits a r : all_digits a = true → not_digit r → span_digits (a +:+ r) = (a, r).
Proof.
  intros Ha Hr. induction a as [|c a IH].
  - rewrite str_nil_app. destruct r as [|c r]; [done|]. simpl in *. by rewrite Hr.
  - apply andb_prop in Ha as [Hc Ha]. rewrite str_app_cons. cbn [span_digits]. by rewrite Hc, IH.
Qed.

(** The integer part of a literal: a zero, or digits that do not start with one. *)
Definition int_text (s : string) : Prop :=
  s = "0" ∨ ∃ c t, s = String c t ∧ is_digit c = true ∧ code c ≠ 48%N ∧ all_digits t = true.

Lemma scan_int_text i r : int_text i → not_digit r → scan_int (i +:+ r) = Some (i, r).
Proof.
  intros [->|(c & t & -> & Hc & H0 & Ht)] Hr.
  - done.
  - rewrite str_app_cons. unfold scan_int. by rewrite bool_decide_eq_false_2, Hc, span_all_digits.
Qed.

Lemma int_text_head i : int_text i → ∃ c t, i = String c t ∧ is_digit c = true.
Proof. intros [->|(c & t & -> & Hc & _)]; [by exists "0"%char, ""|by exists c, t]. Qed.

(** Fraction and exponent, each possibly absent. *)
Definition frac_text (s : string) : Prop := s = "" ∨ ∃ ds, s = "." +:+ ds ∧ ds ≠ "" ∧ all_digits ds = true.
Definition exp_text (s : string) : Prop :=
  s = "" ∨ ∃ g ds, s = "e" +:+ String g ds ∧ (code g = 43%N ∨ code g = 45%N) ∧ ds ≠ "" ∧ all_digits ds = true.

Lemma exp_text_head e : exp_text e → e = "" ∨ ∃ t, e = String "e" t.
Proof. intros [->|(g & ds & -> & _)]; [by left|]. right. by exists (String g ds). Qed.

Lemma scan_frac_text f e : frac_text f → exp_text e → scan_frac (f +:+ e) = Some (f, e).
Proof.
  intros Hf He. assert (Hd : not_digit e) by (apply exp_text_head in He as [->|[t ->]]; done).
  destruct Hf as [->|(ds & -> & Hn & Hds)].
  - apply exp_text_head in He as [->|[t ->]]; done.
  - rewrite str_app_assoc, str_app_cons, str_nil_app. unfold scan_frac. rewrite bool_decide_eq_true_2 by done.
    rewrite span_all_digits by done. by destruct ds.
Qed.

Lemma scan_exp_text e : exp_text e → scan_exp e = Some (e, "").
Proof.
  intros [->|(g & ds & -> & Hg & Hn & Hds)]; [done|]. rewrite str_app_cons, str_nil_app. unfold scan_exp.
  rewrite bool_decide_eq_true_2 by done. cbn [orb].
  assert (Eg : bool_decide (code g = 43%N) || bool_decide (code g = 45%N) = true)
    by (destruct Hg as [-> | ->]; done).
  pose proof (span_all_digits ds "" Hds I) as Es. rewrite str_app_nil in Es.
  rewrite Eg, Es. destruct ds; [done|]. by rewrite str_app_cons, str_nil_app.
Qed.

Lemma not_digit_frac_exp f e : frac_text f → exp_text e → not_digit (f +:+ e).
Proof.
  intros Hf He. destruct Hf as [->|(ds & -> & _)]; [|by rewrite str_app_assoc, str_app_cons].
  rewrite str_nil_app. apply exp_text_head in He as [->|[t ->]]; done.
Qed.

(** A literal with or without a minus sign. *)
Lemma scan_literal (neg : bool) i f e :
  int_text i → frac_text f → exp_text e →
  let t := (if neg then "-" else "") +:+ i +:+ f +:+ e in scan_number t = Some (t, "").
Proof.
  intros Hi Hf He. pose proof (scan_int_text i (f +:+ e) Hi (not_digit_frac_exp f e Hf He)) as Ei.
  destruct neg; simpl.
  - unfold scan_number. rewrite str_app_cons, str_nil_app. rewrite bool_decide_eq_true_2 by done. cbn.
    rewrite Ei. cbn. rewrite scan_frac_text by done. cbn. rewrite scan_exp_text by done. cbn.
    by rewrite !str_app_cons, !str_nil_app.
  - rewrite str_nil_app. unfold scan_number.
    apply int_text_head in Hi as (c & t & -> & Hc). rewrite str_app_cons in *.
    rewrite bool_decide_eq_false_2 by (intros E; unfold is_digit, between in Hc; by rewrite E in Hc).
    rewrite Ei. cbn. rewrite scan_frac_text by done. cbn. rewrite scan_exp_text by done. cbn.
    by rewrite !str_app_cons, !str_nil_app.
Qed.

(** *** Decimal digits *)

Lemma code_dec_digit n : 0 ≤ n < 10 → code (dec_digit n) = Z.to_N (48 + n).
Proof. intros H. unfold dec_digit. apply code_byte. lia. Qed.

Lemma is_digit_dec n : 0 ≤ n < 10 → is_digit (dec_digit n) = true.
Proof. intros H. unfold is_digit. apply between_spec. rewrite code_dec_digit by done. lia. Qed.

Lemma dec_go_text fuel n acc :
  0 < n → (Z.log2 n < Z.of_nat fuel ∨ n < 10) → all_digits acc = true →
  ∃ c t, dec_go fuel n acc = String c t ∧ is_digit c = true ∧ code c ≠ 48%N ∧ all_digits t = true.
Proof.
  revert n acc. induction fuel as [|fuel IH]; intros n acc Hn Hf Hacc.
  - destruct Hf as [Hf|Hf]; [pose proof (Z.log2_nonneg n); lia|]. simpl.
    rewrite Z.mod_small by lia. eexists _, _. split; [done|]. rewrite code_dec_digit by lia.
    split_and!; [apply is_digit_dec; lia|lia|done].
  - simpl. destruct (Z.ltb_spec n 10).
    + eexists _, _. split; [done|]. rewrite code_dec_digit by lia. split_and!; [apply is_digit_dec; lia|lia|done].
    + assert (Hm : 0 ≤ n mod 10 < 10) by (apply Z.mod_pos_bound; lia).
      apply IH; [apply Z.div_str_pos; lia| |simpl; by rewrite is_digit_dec].
      left. destruct Hf as [Hf|Hf]; [|lia].
      assert (n / 10 ≤ n / 2) by (apply Z.div_le_compat_l; lia).
      pose proof (Z.log2_le_mono _ _ H0). rewrite <- Z.div2_div, Z.div2_spec, Z.log2_shiftr in H1 by lia.
      assert (Z.log2 8 ≤ Z.log2 n) as H2 by (apply Z.log2_le_mono; lia). change (Z.log2 8) with 3 in H2. lia.
Qed.

(** The digits of a positive number do not start with a zero. *)
Lemma dec_text n : 0 < n → ∃ c t, dec n = String c t ∧ is_digit c = true ∧ code c ≠ 48%N ∧ all_digits t = true.
Proof.
  intros Hn. unfold dec. destruct (Z.ltb_spec n 10).
  - apply dec_go_text; [done|by right|done].
  - assert (H1 : 0 ≤ n mod 10 < 10) by (apply Z.mod_pos_bound; lia).
    assert (H2 : 3 ≤ Z.log2 n) by (change 3 with (Z.log2 8); apply Z.log2_le_mono; lia).
    destruct (Z.to_nat (Z.log2 n)) as [|f] eqn:Ef; [lia|]. simpl. destruct (Z.ltb_spec n 10); [lia|].
    apply dec_go_text; [apply Z.div_str_pos; lia| |simpl; by rewrite is_digit_dec].
    left. assert (H3 : n / 10 ≤ n / 2 / 2) by (rewrite Z.div_div by lia; apply Z.div_le_compat_l; lia).
    apply Z.log2_le_mono in H3. rewrite <- !Z.div2_div, !Z.div2_spec, Z.shiftr_shiftr, Z.log2_shiftr in H3; lia.
Qed.

Lemma dec_digits n : 0 ≤ n → dec n ≠ "" ∧ all_digits (dec n) = true.
Proof.
  intros Hn. destruct (decide (n = 0)) as [->|]; [done|].
  destruct (dec_text n) as (c & t & -> & Hc & _ & Ht); [lia|]. split; [done|]. simpl. by rewrite Hc, Ht.
Qed.

Lemma zeros_digits n : all_digits (zeros n) = true.
Proof. induction n; [done|]. simpl. by rewrite IHn. Qed.

Lemma substring_digits i n s : all_digits s = true → all_digits (String.substring i n s) = true.
Proof.
  revert i n. induction s as [|c s IH]; intros i n H; [by destruct i, n|].
  simpl in H. apply andb_prop in H as [Hc Hs]. destruct i as [|i], n as [|n]; simpl; try done; [|by apply IH..].
  by rewrite Hc, IH.
Qed.

Lemma length_substring i n s : (i + n ≤ String.length s)%nat → String.length (String.substring i n s) = n.
Proof.
  revert i n. induction s as [|c s IH]; intros i n H; simpl in H; [by destruct i, n; simpl; lia|].
  destruct i as [|i], n as [|n]; simpl; try done; [rewrite IH; lia|apply IH; lia|apply IH; lia].
Qed.

Lemma shortest_pos fuel x num den k n : 0 ≤ num → 0 < den → 0 < (shortest fuel x num den k n).1.
Proof.
  intros Hnum Hden. revert n. induction fuel as [|fuel IH]; intros n; cbn [shortest].
  all: destruct (if n <=? k then _ else _) as [u v] eqn:E.
  all: assert (Hu : 0 ≤ u ∧ 0 < v) by
         (destruct (Z.leb_spec n k); injection E as <- <-; split; try done;
          [apply Z.mul_pos_pos; [done|]|apply Z.mul_nonneg_nonneg; [done|]]; [apply Z.pow_pos_nonneg|apply Z.pow_nonneg]; lia).
  - assert (0 ≤ u / v) by (apply Z.div_pos; lia). destruct (if _ <=? v then _ else _). simpl. lia.
  - destruct (if 2 * _ <=? v then _ else _) as [a b].
    destruct ((0 <? a) && _) eqn:Ea; [apply andb_prop in Ea as [Ea%Z.ltb_lt _]; done|].
    destruct ((0 <? b) && _) eqn:Eb; [apply andb_prop in Eb as [Eb%Z.ltb_lt _]; done|]. apply IH.
Qed.

Lemma fixed_form_literal (neg : bool) d k :
  0 < d → let t := (if neg then "-" else "") +:+ fixed_form (dec d) k in scan_number t = Some (t, "").
Proof.
  intros Hd. destruct (dec_text d Hd) as (c & t & E & Hc & H0 & Ht).
  assert (Hall : all_digits (dec d) = true) by by apply dec_digits; lia.
  unfold fixed_form. destruct (Z.leb_spec k 0); [|destruct (Z.leb_spec (Z.of_nat (String.length (dec d))) k)].
  - pose proof (scan_literal neg "0" ("." +:+ zeros (Z.to_nat (- k)) +:+ dec d) "") as HL.
    rewrite str_app_nil in HL. apply HL; [by left|right|by left]. eexists. split; [done|].
    rewrite all_digits_app, zeros_digits, Hall. split; [|done]. rewrite E. by destruct (zeros _).
  - pose proof (scan_literal neg (dec d +:+ zeros (Z.to_nat (k - Z.of_nat (String.length (dec d))))) "" "") as HL.
    rewrite !str_app_nil in HL. apply HL; [right|by left|by left]. rewrite E, str_app_cons.
    eexists _, _. split; [done|]. by rewrite all_digits_app, zeros_digits, Ht.
  - pose proof (scan_literal neg (String.substring 0 (Z.to_nat k) (dec d))
      ("." +:+ String.substring (Z.to_nat k) (Z.to_nat (Z.of_nat (String.length (dec d)) - k)) (dec d)) "") as HL.
    rewrite !str_app_nil in HL. apply HL; [right|right|by left].
    + rewrite E. destruct (Z.to_nat k) as [|k'] eqn:Ek; [lia|]. simpl. eexists _, _. split; [done|].
      by rewrite substring_digits.
    + eexists. split; [done|]. rewrite substring_digits by done. split; [|done].
      intros Hn. apply (f_equal String.length) in Hn. rewrite length_substring in Hn by lia. simpl in Hn. lia.
Qed.

Lemma exp_form_literal (neg : bool) d k :
  0 < d → let t := (if neg then "-" else "") +:+ exp_form (dec d) k in scan_number t = Some (t, "").
Proof.
  intros Hd. destruct (dec_text d Hd) as (c & t & -> & Hc & H0 & Ht). unfold exp_form.
  rewrite str_app_cons.
  pose proof (scan_literal neg (String c "") (if bool_decide (t = "") then "" else "." +:+ t)
    (if k - 1 <? 0 then "e-" +:+ dec (- (k - 1)) else "e+" +:+ (if k - 1 <? 10 then "0" else "") +:+ dec (k - 1))) as HL.
  rewrite (str_app_cons c ""), str_nil_app in HL. apply HL.
  - right. by exists c, "".
  - case_bool_decide; [by left|right; eauto].
  - right. destruct (Z.ltb_spec (k - 1) 0).
    + exists "-"%char. eexists. rewrite !str_app_cons, !str_nil_app. split; [done|]. split; [by right|].
      apply dec_digits. lia.
    + exists "+"%char. eexists. rewrite !str_app_cons, !str_nil_app. split; [done|]. split; [by left|].
      destruct (dec_digits (k - 1)) as [H2 H3]; [lia|]. clear HL. destruct (k - 1 <? 10); rewrite ?str_app_cons, ?str_nil_app; done.
Qed.

(** What is written for a float is a number literal. *)
Lemma json_float_literal x t : json_float x = Some t → scan_number t = Some (t, "").
Proof.
  destruct x as [[]| | |s m e]; try (by intros [= <-]). unfold json_float.
  destruct (if 0 <=? e then _ else _) as [num den] eqn:E.
  assert (Hn : 0 ≤ num ∧ 0 < den).
  { destruct (Z.leb_spec 0 e); injection E as <- <-; split; lia. }
  pose proof (shortest_pos 17 (fabs (S754_finite s m e)) num den (point_of num den) 1) as Hp.
  destruct (shortest 17 _ num den _ 1) as [d n]. simpl in Hp.
  destruct (if d =? 10 ^ n then _ else _) as [d' k'] eqn:E'.
  assert (Hd : 0 < d') by (case_match; injection E' as <- <-; [lia|apply Hp; lia]).
  destruct (_ || _); intros [= <-].
  - pose proof (exp_form_literal s d' k' Hd) as HL. destruct s; [done|]. by rewrite str_nil_app in HL.
  - pose proof (fixed_form_literal s d' k' Hd) as HL. destruct s; [done|]. by rewrite str_nil_app in HL.
Qed.

Lemma Itoa_literal n : scan_number (Itoa n) = Some (Itoa n, "").
Proof.
  unfold Itoa. destruct (Z.ltb_spec n 0).
  - destruct (dec_text (- n)) as (c & t & E & Hc & H0 & Ht); [lia|].
    pose proof (scan_literal true (dec (- n)) "" "") as H1. rewrite !str_app_nil in H1.
    apply H1; [right|by left|by left]. eauto 10.
  - pose proof (scan_literal false (dec n) "" "") as H1. rewrite !str_app_nil, str_nil_app in H1.
    apply H1; [|by left|by left]. destruct (decide (n = 0)) as [->|]; [by left|].
    destruct (dec_text n) as (c & t & E & Hc & H0 & Ht); [lia|]. right. eauto 10.
Qed.

(** *** Integers are read back *)

Lemma dec_go_val fuel n acc :
  0 ≤ n < 10 ^ Z.of_nat (S fuel) → digits_val (dec_go fuel n acc) 0 = digits_val acc n.
Proof.
  assert (Hd : ∀ k, 0 ≤ k < 10 → digit_val (dec_digit k) = k).
  { intros k Hk. unfold digit_val. rewrite code_dec_digit by done. lia. }
  revert n acc. induction fuel as [|fuel IH]; intros n acc Hn; simpl.
  - rewrite Z.mod_small, Hd by lia. f_equal.
  - destruct (Z.ltb_spec n 10); [simpl; rewrite Hd by lia; f_equal|].
    rewrite IH; [|split; [apply Z.div_pos; lia|]].
    + simpl. rewrite Hd by (apply Z.mod_pos_bound; lia). f_equal. rewrite (Z.div_mod n 10) at 3 by lia. lia.
    + apply Z.div_lt_upper_bound; [lia|]. rewrite <- Z.pow_succ_r by lia.
      replace (Z.succ (Z.of_nat (S fuel))) with (Z.of_nat (S (S fuel))) by lia. lia.
Qed.

Lemma dec_val n : 0 ≤ n → digits_val (dec n) 0 = n.
Proof.
  intros Hn. unfold dec. rewrite dec_go_val; [done|]. split; [done|].
  pose proof (Z.log2_nonneg n). rewrite Nat2Z.inj_succ, Z2Nat.id by done.
  destruct (decide (n = 0)) as [->|]; [done|]. destruct (Z.log2_spec n) as [_ Hl]; [lia|].
  eapply Z.lt_le_trans; [exact Hl|]. apply Z.pow_le_mono_l. lia.
Qed.

Lemma split_number_dec n : 0 ≤ n → split_number (dec n) = Some (false, n, 0).
Proof.
  intros Hn. assert (Hi : int_text (dec n)).
  { destruct (decide (n = 0)) as [->|]; [by left|]. destruct (dec_text n) as (c & t & E & Hc & H0 & Ht); [lia|].
    right. eauto 10. }
  pose proof (scan_int_text (dec n) "" Hi I) as Hs. rewrite str_app_nil in Hs.
  pose proof (dec_val n Hn) as Hv. unfold split_number.
  destruct (int_text_head _ Hi) as (c & t & E & Hc). rewrite E in *.
  rewrite bool_decide_eq_false_2.
  - rewrite Hs. cbn -[digits_val]. rewrite str_app_nil, Hv. done.
  - intros Hc'. unfold is_digit in Hc. apply between_spec in Hc. lia.
Qed.

Lemma ndigits_le fuel n k : n < 10 ^ Z.of_nat k → ndigits fuel n ≤ Z.of_nat k.
Proof.
  revert n k. induction fuel as [|fuel IH]; intros n k Hn; simpl; [lia|]. destruct (Z.leb_spec n 0); [lia|].
  destruct k as [|k]; [simpl in Hn; lia|]. assert (ndigits fuel (n / 10) ≤ Z.of_nat k); [|lia].
  apply IH. apply Z.div_lt_upper_bound; [lia|]. rewrite <- Z.pow_succ_r by lia.
  by replace (Z.succ (Z.of_nat k)) with (Z.of_nat (S k)) by lia.
Qed.

(** An [int] written by [json.Marshal] is read as its float64. *)
Lemma ParseFloat_Itoa n : 0 ≤ n < 2 ^ 63 → ParseFloat (Itoa n) = Some (of_Z n).
Proof.
  intros Hn. unfold Itoa. destruct (Z.ltb_spec n 0); [lia|]. unfold ParseFloat.
  rewrite split_number_dec by lia. cbn [mbind option_bind]. destruct (Z.eqb_spec n 0) as [->|]; [done|].
  pose proof (ndigits_le (String.length (dec n)) n 19) as Hd.
  assert (0 ≤ ndigits (String.length (dec n)) n).
  { generalize (String.length (dec n)). intros f. clear. revert n.
    induction f as [|f IH]; intros n; simpl; [lia|]. case_match; [lia|]. specialize (IH (n / 10)). lia. }
  specialize (Hd ltac:(change (10 ^ Z.of_nat 19) with 10000000000000000000; lia)).
  destruct (Z.ltb_spec 311 (0 + ndigits (String.length (dec n)) n)); [lia|].
  destruct (Z.ltb_spec (0 + ndigits (String.length (dec n)) n) (-330)); [lia|].
  destruct n as [|p|p]; [done| |lia]. unfold round_decimal. cbn -[binary_round].
  rewrite Pos.mul_1_r. pose proof (normalize_finite (Z.pos p) 0 false 63) as Hf.
  specialize (Hf ltac:(lia) ltac:(lia) ltac:(lia) ltac:(lia)). unfold finite in Hf.
  apply andb_prop in Hf as [_ Hf%negb_true_iff]. unfold of_Z. cbn [binary_normalize] in *. by rewrite Hf.
Qed.

(** *** Structs are read back *)

Lemma ParseInt_Itoa z : - 2 ^ 63 ≤ z < 2 ^ 63 → ParseInt (Itoa z) = Some z.
Proof.
  intros Hz. unfold Itoa. destruct (Z.ltb_spec z 0).
  - unfold ParseInt. rewrite str_app_cons, str_nil_app. rewrite bool_decide_eq_true_2 by done.
    destruct (dec_digits (- z)) as [Hn Hd]; [lia|]. rewrite (bool_decide_eq_false_2 _ Hn), Hd, dec_val by lia. simpl.
    rewrite Z.opp_involutive. by rewrite (proj2 (Z.leb_le _ _)), (proj2 (Z.ltb_lt _ _)) by lia.
  - unfold ParseInt. destruct (dec_digits z) as [Hn Hd]; [lia|]. pose proof (dec_val z ltac:(lia)) as Hv.
    destruct (dec z) as [|c t] eqn:E; [done|].
    assert (Hc : code c ≠ 45%N).
    { simpl in Hd. apply andb_prop in Hd as [Hd _]. unfold is_digit in Hd. apply between_spec in Hd. lia. }
    rewrite bool_decide_eq_false_2 by done. rewrite (bool_decide_eq_false_2 _ Hn), Hd, Hv. simpl.
    by rewrite (proj2 (Z.leb_le _ _)), (proj2 (Z.ltb_lt _ _)) by lia.
Qed.

(** A string, a boolean, null or the text of an integer. *)
Definition plain (v : json) : Prop :=
  match v with
  | JNull | JBool _ | JStr _ => True
  | JNum lit => ∃ z, lit = Itoa z
  | JArr _ | JObj _ => False
  end.

(** A field as [json.Marshal] writes it, and the values it can hold. *)
Definition slot_json (s : slot) : json := match s with SStr s => JStr s | SInt z => JNum (Itoa z) end.
Definition slot_ok (s : slot) : Prop := match s with SStr s => utf8_valid s = true | SInt z => - 2 ^ 63 ≤ z < 2 ^ 63 end.
Definition same_kind (a b : slot) : Prop :=
  match a, b with SStr _, SStr _ | SInt _, SInt _ => True | _, _ => False end.

Lemma into_slot_json old s : same_kind old s → slot_ok s → into_slot old (slot_json s) = (s, false).
Proof. destruct old, s; simpl; try done. intros _ H. by rewrite ParseInt_Itoa. Qed.

Lemma slot_json_writable s : slot_ok s → writable (slot_json s) ∧ plain (slot_json s).
Proof. destruct s; simpl; intros H; (split; [constructor|by eauto]); [done|apply Itoa_literal]. Qed.

(** If every member of a document carries the value the field has in [vs], the
    fields it names end up as in [vs], whatever the order. *)
Lemma decode_fields_read strict names ms st vs :
  Forall2 same_kind st vs → Forall slot_ok vs →
  (∀ k j, (k, j) ∈ ms → ∃ i n s, list_find (λ n, n = Scope.foldName k) names = Some (i, n) ∧
                                  vs !! i = Some s ∧ j = slot_json s) →
  ∃ st', decode_fields strict names ms st = (st', false) ∧ Forall2 same_kind st' vs ∧
    (∀ i, st !! i = vs !! i → st' !! i = vs !! i) ∧
    (∀ k j i n, (k, j) ∈ ms → list_find (λ n, n = Scope.foldName k) names = Some (i, n) → st' !! i = vs !! i).
Proof.
  intros Hk Hok. revert st Hk. induction ms as [|[k j] ms IH]; intros st Hk Hms; cbn [decode_fields].
  { exists st. split_and!; [done..|]. by intros ? ? ? ? ?%elem_of_nil. }
  destruct (Hms k j) as (i & n & s & Hf & Hs & ->); [left|]. rewrite Hf.
  destruct (Forall2_lookup_r _ _ _ _ _ Hk Hs) as (old & Ho & Hkind). rewrite Ho.
  rewrite into_slot_json by (done || by eapply Forall_lookup_1).
  destruct (IH (<[i := s]> st)) as (st' & -> & Hk' & Hkeep & Hset).
  - apply Forall2_same_length_lookup_2; [by rewrite length_insert; eapply Forall2_length|]. intros x a b Ha Hb.
    destruct (decide (x = i)) as [->|].
    + rewrite list_lookup_insert_eq in Ha by by eapply lookup_lt_Some. rewrite Hs in Hb. simplify_eq. by destruct b.
    + rewrite list_lookup_insert_ne in Ha by done. by eapply Forall2_lookup_lr.
  - intros k' j' Hin. apply Hms. by right.
  - assert (Hi : <[i := s]> st !! i = vs !! i) by (rewrite list_lookup_insert_eq by (by eapply lookup_lt_Some); done).
    exists st'. split_and!; [done|done| |].
    + intros x Hx. apply Hkeep. destruct (decide (x = i)) as [->|]; [done|]. by rewrite list_lookup_insert_ne.
    + intros k' j' i' n' [E|Hin]%elem_of_cons Hf'; [|by eapply Hset].
      injection E as -> ->. rewrite Hf in Hf'. injection Hf' as -> ->. by apply Hkeep.
Qed.

(** ** jsonb and numbers *)

(** Postgres keeps the exact decimal value of a number and drops the sign of a
    zero. *)
Fixpoint unsigned_zero (a : any) : any :=
  match a with
  | ANum (S754_zero _) => ANum (S754_zero false)
  | AArr l => AArr (map unsigned_zero l)
  | AObj m => AObj (map (λ kv, (kv.1, unsigned_zero kv.2)) m)
  | _ => a
  end.

(** What the stores rely on of a jsonb column that holds numbers: the text read
    back decodes to the same Go value, has the same member names, each once, and
    shows plain members as they were. *)
Class JsonBNum {JB : JsonB} := {
  jsonb_any s t a : jsonb_in s = Some t → Unmarshal_any s = Some a →
    ∃ b, Unmarshal_any t = Some b ∧ unsigned_zero b = unsigned_zero a;
  jsonb_members s t ms : jsonb_in s = Some t → decode_all s = Some (JObj ms) → NoDup ms.*1 →
    ∃ ms', decode_all t = Some (JObj ms') ∧ ms'.*1 ≡ₚ ms.*1 ∧ ∀ k v, (k, v) ∈ ms → plain v → (k, v) ∈ ms';
}.

Section MapOf.
Context {A B : Type} (f : A → option B).
Definition member_of (kv : string * A) : option (string * B) := v ← f kv.2; Some (kv.1, v).

Lemma member_of_Some kv kw : member_of kv = Some kw ↔ kw.1 = kv.1 ∧ f kv.2 = Some kw.2.
Proof using.
  destruct kv as [k v], kw as [k' w]. unfold member_of. simpl. destruct (f v); simpl; naive_solver.
Qed.

Lemma map_put_members k v w m m' :
  f v = Some w → Forall2 (λ x y, member_of x = Some y) m m' →
  Forall2 (λ x y, member_of x = Some y) (map_put k v m) (map_put k w m').
Proof using.
  intros Hv. assert (Hk : member_of (k, v) = Some (k, w)) by by apply member_of_Some.
  induction 1 as [|[k0 v0] [k1 v1] m m' H Hm IH]; simpl; [by repeat constructor|].
  pose proof H as [E _]%member_of_Some. simpl in E. subst k1.
  destruct (String.compare k k0); repeat constructor; auto.
Qed.

Lemma mapM_map_of ms ms' : mapM member_of ms = Some ms' → mapM member_of (map_of ms) = Some (map_of ms').
Proof using.
  rewrite !mapM_Some. unfold map_of. intros H.
  assert (Hacc : Forall2 (λ x y, member_of x = Some y) [] []) by constructor. revert Hacc.
  generalize (@nil (string * A)) (@nil (string * B)). induction H as [|kv kw ms ms' H _ IH]; intros acc acc' Hacc; simpl; [done|].
  apply IH. apply member_of_Some in H as [-> H]. by apply map_put_members.
Qed.
End MapOf.

(** The untyped value does not depend on the order or repetition of members. *)
Lemma any_of_to_any v a : any_of v = Some a → any_of (to_any v) = Some a.
Proof.
  revert a. induction v as [| | | |l IH|ms IH] using json_rect'; intros a H; try done.
  - cbn in H |- *. destruct (mapM any_of l) as [l'|] eqn:E; [|done]. injection H as <-.
    assert (mapM any_of (map to_any l) = Some l') as ->; [|done].
    apply mapM_Some in E. apply mapM_Some. apply Forall2_fmap_l.
    rewrite Forall_forall in IH. eapply Forall2_impl_elem; [done|]. simpl. auto.
  - cbn in H |- *. change (λ kv : string * json, any_of kv.2 ≫= _) with (member_of any_of) in *.
    destruct (mapM (member_of any_of) ms) as [ms'|] eqn:E; [|done]. injection H as <-.
    rewrite (mapM_map_of any_of _ ms'); [cbn; by rewrite (map_of_id (map_of ms')) by apply map_of_sorted|].
    apply mapM_Some in E. apply mapM_Some. apply Forall2_fmap_l.
    rewrite Forall_forall in IH. eapply Forall2_impl_elem; [done|].
    intros x y Hx [E1 E2]%member_of_Some. apply member_of_Some. split; [done|]. by apply IH.
Qed.

Lemma elem_get {A} (m : list (string * A)) k v : NoDup m.*1 → (k, v) ∈ m → get m k = Some v.
Proof.
  induction m as [|[k' w] m IH]; simpl; [by intros _ ?%elem_of_nil|]. intros [Hk Hn]%NoDup_cons [[= -> ->]|H]%elem_of_cons.
  - by rewrite bool_decide_eq_true_2.
  - rewrite bool_decide_eq_false_2; [auto|]. intros ->. apply Hk. by apply (list_elem_of_fmap_2 fst _ (k, v)).
Qed.

Definition canonical_jsonb_num : @JsonBNum canonical_jsonb.
Proof.
  split.
  - intros s t a H Ha. unfold Unmarshal_any in Ha. simpl in H.
    destruct (decode_all s) as [v|] eqn:Hv; [|done]. injection H as <-. simpl in Ha.
    exists a. split; [|done]. unfold Unmarshal_any.
    destruct (canonical_text_reads_back s v (decode_all_first s v Hv)) as [_ ->]. by apply any_of_to_any.
  - intros s t ms H Hv Hn. simpl in H. rewrite Hv in H. injection H as <-.
    destruct (canonical_text_reads_back s _ (decode_all_first s _ Hv)) as [_ Hr].
    eexists. split; [exact Hr|]. split; [by rewrite map_of_perm, fst_map by by rewrite fst_map|].
    intros k v Hk Hp. rewrite map_of_perm by by rewrite fst_map. apply list_elem_of_In, in_map_iff. exists (k, v).
    split; [by destruct v|]. by apply list_elem_of_In.
Defined.
