(* ===== verification/TimeText.v ===== *)
(** * Times as text

    [time.Time.Format] and [time.Parse] for the layouts the program uses besides
    RFC3339, and that a nanosecond text reads back. *)

From Stdlib Require Import Ascii.
From S2P Require Import Prelude GoTime Json Float64 GoJson.

(** ** Printing *)

(** [t.UTC().Format("2006-01-02")] for years 0 to 9999. *)
Definition FormatDate (t : Time) : string :=
  let '(y, m, d) := civil_of_day (day_of t) in
  digits 4 y +:+ "-" +:+ digits 2 m +:+ "-" +:+ digits 2 d.

(** A fraction of a second, without trailing zeros. *)
Fixpoint drop_zeros (l : list ascii) : list ascii :=
  match l with c :: l' => if bool_decide (c = "0"%char) then drop_zeros l' else l | [] => [] end.
Definition frac_digits (ns : Z) : string :=
  if bool_decide (ns = 0) then ""
  else "." +:+ String.string_of_list_ascii (rev (drop_zeros (rev (String.list_ascii_of_string (digits 9 ns))))).

(** [t.Format(time.RFC3339Nano)] in UTC *)
Definition FormatRFC3339Nano (t : Time) : string :=
  let '(y, m, d) := civil_of_day (day_of t) in
  let s := t mod ns_per_day / ns_per_second in
  digits 4 y +:+ "-" +:+ digits 2 m +:+ "-" +:+ digits 2 d +:+ "T" +:+
  digits 2 (s / 3600) +:+ ":" +:+ digits 2 (s / 60 mod 60) +:+ ":" +:+ digits 2 (s mod 60) +:+
  frac_digits (t mod ns_per_second) +:+ "Z".

Example nano_text : FormatRFC3339Nano (719162 * ns_per_day + 1500000000) = "1970-01-01T00:00:01.5Z".
Proof. vm_compute. reflexivity. Qed.

(** ** Reading *)

(** [n] decimal digits off the front of a text. *)
Fixpoint take_digits (n : nat) (s : string) (acc : Z) : option (Z * string) :=
  match n, s with
  | O, s => Some (acc, s)
  | S n, String c s => if is_digit c then take_digits n s (acc * 10 + digit_val c) else None
  | S _, "" => None
  end.

Definition expect (c : ascii) (s : string) : option string :=
  match s with String c' s => if bool_decide (c = c') then Some s else None | "" => None end.

(** Midnight of a date given by its numbers, when there is such a date. *)
Definition date_of (y m d : Z) : option Time :=
  if bool_decide (1 ≤ m ≤ 12) && bool_decide (civil_of_day (day_of_civil y m d) = (y, m, d))
  then Some (day_of_civil y m d * ns_per_day) else None.

(** The date that opens every layout. *)
Definition take_date (s : string) : option (Time * string) :=
  '(y, s) ← take_digits 4 s 0; s ← expect "-" s;
  '(m, s) ← take_digits 2 s 0; s ← expect "-" s;
  '(d, s) ← take_digits 2 s 0;
  t ← date_of y m d; Some (t, s).

(** [time.Parse("2006-01-02", s)] *)
Definition ParseDate (s : string) : option Time :=
  '(t, s) ← take_date s; if bool_decide (s = "") then Some t else None.

(** The hour may be written with one digit. *)
Definition take_hour (s : string) : option (Z * string) :=
  match take_digits 2 s 0 with Some r => Some r | None => take_digits 1 s 0 end.

(** A number below [bound]. *)
Definition in_range (bound : Z) (n : Z) : option () := if bool_decide (n < bound) then Some () else None.

(** Nanoseconds after a point or comma; digits past the ninth are read and
    ignored. *)
Definition nanoseconds (ds : string) : Z :=
  let ds := String.substring 0 9 ds in digits_val ds 0 * 10 ^ (9 - Z.of_nat (String.length ds)).
Definition take_fraction (s : string) : Z * string :=
  match s with
  | String c t =>
      if bool_decide (c = "."%char ∨ c = ","%char) && negb (bool_decide ((span_digits t).1 = ""))
      then (nanoseconds (span_digits t).1, (span_digits t).2) else (0, s)
  | "" => (0, s)
  end.

(** [Z], or an offset in hours and minutes; in seconds. *)
Definition take_zone (s : string) : option (Z * string) :=
  match s with
  | String c t =>
      if bool_decide (c = "Z"%char) then Some (0, t)
      else '(h, t) ← take_digits 2 t 0; t ← expect ":" t; '(m, t) ← take_digits 2 t 0;
           _ ← in_range 25 h; _ ← in_range 61 m;
           let offset := (h * 60 + m) * 60 in
           if bool_decide (c = "+"%char) then Some (offset, t)
           else if bool_decide (c = "-"%char) then Some (- offset, t) else None
  | "" => None
  end.

(** [time.Parse(time.RFC3339Nano, s)], as an instant. *)
Definition ParseRFC3339Nano (s : string) : option Time :=
  '(t, s) ← take_date s; s ← expect "T" s;
  '(hh, s) ← take_hour s; _ ← in_range 24 hh; s ← expect ":" s;
  '(mm, s) ← take_digits 2 s 0; _ ← in_range 60 mm; s ← expect ":" s;
  '(ss, s) ← take_digits 2 s 0; _ ← in_range 60 ss;
  let '(ns, s) := take_fraction s in
  '(offset, s) ← take_zone s;
  if bool_decide (s = "") then Some (t + (hh * 3600 + mm * 60 + ss - offset) * ns_per_second + ns) else None.

Example parses_offset : ParseRFC3339Nano "1970-01-01T1:00:01,5+01:00" = Some (719162 * ns_per_day + 1500000000).
Proof. vm_compute. reflexivity. Qed.
Example no_such_day : ParseDate "2023-02-29" = None ∧ is_Some (ParseDate "2024-02-29").
Proof. vm_compute. eauto. Qed.

(** ** What is printed is read back *)

Lemma digit_of n : 0 ≤ n < 10 → is_digit (ascii_of_nat (Z.to_nat (48 + n))) = true ∧ digit_val (ascii_of_nat (Z.to_nat (48 + n))) = n.
Proof.
  intros Hn. assert (E : ascii_of_nat (Z.to_nat (48 + n)) = dec_digit n) by (unfold dec_digit, ascii_of_nat; f_equal; lia).
  rewrite E. split; [by apply is_digit_dec|]. unfold digit_val. rewrite code_dec_digit by done. lia.
Qed.

Lemma digits_all w n : all_digits (digits w n) = true.
Proof.
  revert n. induction w as [|w IH]; intros n; [done|]. cbn [digits]. rewrite all_digits_app, IH. cbn [all_digits].
  by rewrite (proj1 (digit_of (n mod 10) ltac:(apply Z.mod_pos_bound; lia))).
Qed.

Lemma digits_length w n : String.length (digits w n) = w.
Proof. revert n. induction w as [|w IH]; intros n; [done|]. cbn [digits]. rewrite length_app_str, IH. simpl. lia. Qed.

Lemma digits_val_app a b acc : digits_val (a +:+ b) acc = digits_val b (digits_val a acc).
Proof. revert acc. induction a as [|c a IH]; intros acc; [done|]. rewrite str_app_cons. apply IH. Qed.

Lemma digits_val_digits w n acc : 0 ≤ n < 10 ^ Z.of_nat w → digits_val (digits w n) acc = acc * 10 ^ Z.of_nat w + n.
Proof.
  revert n acc. induction w as [|w IH]; intros n acc Hn; [simpl in *; lia|]. cbn [digits]. rewrite digits_val_app.
  rewrite Nat2Z.inj_succ, Z.pow_succ_r in * by lia. pose proof (Z.div_mod n 10). pose proof (Z.mod_pos_bound n 10).
  rewrite IH by (split; [apply Z.div_pos|apply Z.div_lt_upper_bound]; lia). cbn [digits_val].
  rewrite (proj2 (digit_of (n mod 10) ltac:(apply Z.mod_pos_bound; lia))). lia.
Qed.

Lemma take_all_digits w s acc rest :
  all_digits s = true → String.length s = w → take_digits w (s +:+ rest) acc = Some (digits_val s acc, rest).
Proof.
  revert w acc. induction s as [|c s IH]; intros w acc; [by intros _ <-|].
  cbn [all_digits String.length]. intros [Hc Hs]%andb_prop <-. rewrite str_app_cons. cbn [take_digits digits_val]. by rewrite Hc, IH.
Qed.

Lemma take_digits_text w n rest : 0 ≤ n < 10 ^ Z.of_nat w → take_digits w (digits w n +:+ rest) 0 = Some (n, rest).
Proof. intros Hn. rewrite take_all_digits by auto using digits_all, digits_length. by rewrite digits_val_digits. Qed.

Lemma expect_text c rest : expect c (String c "" +:+ rest) = Some rest.
Proof. rewrite str_app_cons, str_nil_app. cbn [expect]. by rewrite bool_decide_eq_true_2. Qed.

(** Reads one field of a printed text. *)
Ltac read_field :=
  first [rewrite take_digits_text by (simpl; lia) | rewrite expect_text]; cbn [mbind option_bind].

Lemma civil_day_bounds n : let '(_, _, d) := civil_of_day n in 1 ≤ d ≤ 31.
Proof.
  unfold civil_of_day. pose proof (Z.mod_pos_bound (n + 306) 146097 eq_refl) as Hdoe.
  set (doe := (n + 306) mod 146097) in *. pose proof (doy_lower doe Hdoe) as Hd0. cbv zeta in Hd0.
  set (doy := doe - _) in *. clearbody doy. div_lia.
Qed.

(** The years four digits can hold. *)
Definition four_digit_year (t : Time) : Prop := 0 ≤ (civil_of_day (day_of t)).1.1 < 10000.

Lemma take_date_text t y m d rest :
  civil_of_day (day_of t) = (y, m, d) → four_digit_year t →
  take_date (digits 4 y +:+ "-" +:+ digits 2 m +:+ "-" +:+ digits 2 d +:+ rest) = Some (day_of t * ns_per_day, rest).
Proof.
  intros E Hy. unfold four_digit_year in Hy. rewrite E in Hy. cbn [fst] in Hy.
  pose proof (civil_roundtrip (day_of t)) as Hr. pose proof (civil_day_bounds (day_of t)) as Hd. rewrite E in Hr, Hd. destruct Hr as [Hr Hm].
  unfold take_date. do 5 read_field.
  unfold date_of. by rewrite Hr, !bool_decide_eq_true_2.
Qed.

Lemma FormatDate_reads t : four_digit_year t → ParseDate (FormatDate t) = Some (day_of t * ns_per_day).
Proof.
  intros Hy. unfold ParseDate, FormatDate. destruct (civil_of_day (day_of t)) as [[y m] d] eqn:E.
  pose proof (take_date_text t y m d "" E Hy) as H. rewrite str_app_nil in H. rewrite H. done.
Qed.

(** *** Fractions *)

Lemma drop_zeros_split l : ∃ k, l = replicate k "0"%char ++ drop_zeros l.
Proof.
  induction l as [|c l [k IH]]; [by exists 0%nat|]. simpl. case_bool_decide as Hc; [|by exists 0%nat].
  exists (S k). subst c. simpl. by rewrite <- IH.
Qed.

Definition trim_zeros (s : string) : string :=
  String.string_of_list_ascii (rev (drop_zeros (rev (String.list_ascii_of_string s)))).

Lemma string_of_list_app l k : String.string_of_list_ascii (l ++ k) = String.string_of_list_ascii l +:+ String.string_of_list_ascii k.
Proof. induction l as [|c l IH]; [done|]. simpl. rewrite IH. by rewrite str_app_cons. Qed.

Lemma trim_zeros_split s : ∃ k, s = trim_zeros s +:+ zeros k.
Proof.
  destruct (drop_zeros_split (rev (String.list_ascii_of_string s))) as [k Hk]. exists k. unfold trim_zeros.
  assert (Hz : zeros k = String.string_of_list_ascii (replicate k "0"%char)).
  { clear. induction k as [|k IH]; [done|]. simpl. by rewrite IH. }
  rewrite Hz, <- string_of_list_app. rewrite <- (String.string_of_list_ascii_of_string s) at 1. f_equal.
  rewrite <- (rev_involutive (String.list_ascii_of_string s)) at 1. set (l := rev _) in *. rewrite Hk at 1.
  rewrite rev_app_distr. f_equal. rewrite rev_alt. apply reverse_replicate.
Qed.

Lemma digits_val_zeros k acc : digits_val (zeros k) acc = acc * 10 ^ Z.of_nat k.
Proof.
  revert acc. induction k as [|k IH]; intros acc; [simpl; lia|]. cbn [zeros digits_val]. rewrite IH.
  rewrite Nat2Z.inj_succ, Z.pow_succ_r by lia. change (digit_val "0") with 0. lia.
Qed.

Lemma zeros_length k : String.length (zeros k) = k.
Proof. induction k as [|k IH]; [done|]. simpl. by rewrite IH. Qed.

Lemma substring_whole s n : (String.length s ≤ n)%nat → String.substring 0 n s = s.
Proof. revert n. induction s as [|c s IH]; intros [|n] H; simpl in *; try done; [lia|]. rewrite IH by lia. done. Qed.

Lemma nanoseconds_trim ns : 0 ≤ ns < 10 ^ 9 → nanoseconds (trim_zeros (digits 9 ns)) = ns ∧ all_digits (trim_zeros (digits 9 ns)) = true.
Proof.
  intros Hn. destruct (trim_zeros_split (digits 9 ns)) as [k Hk]. pose proof (digits_all 9 ns) as Ha. pose proof (digits_length 9 ns) as Hl.
  pose proof (digits_val_digits 9 ns 0 Hn) as Hv. rewrite Hk in Ha, Hl, Hv. rewrite all_digits_app in Ha. apply andb_prop in Ha as [Ha _].
  rewrite length_app_str, zeros_length in Hl. rewrite digits_val_app, digits_val_zeros in Hv. split; [|done].
  unfold nanoseconds. rewrite substring_whole by lia. rewrite Z.mul_0_l, Z.add_0_l in Hv.
  replace (9 - Z.of_nat _) with (Z.of_nat k) by lia. exact Hv.
Qed.

Lemma take_fraction_text ns rest :
  0 ≤ ns < 10 ^ 9 → not_digit rest → (∀ c t, rest = String c t → c ≠ "."%char ∧ c ≠ ","%char) →
  take_fraction (frac_digits ns +:+ rest) = (ns, rest).
Proof.
  intros Hn Hr Hc. unfold frac_digits. case_bool_decide as H0.
  - subst ns. rewrite str_nil_app. destruct rest as [|c t]; [done|]. unfold take_fraction.
    rewrite bool_decide_eq_false_2; [done|]. destruct (Hc c t eq_refl). tauto.
  - change (String.string_of_list_ascii _) with (trim_zeros (digits 9 ns)). destruct (nanoseconds_trim ns Hn) as [Hv Ha].
    rewrite str_app_assoc, str_app_cons, str_nil_app. unfold take_fraction. rewrite span_all_digits by done. cbn [fst snd].
    rewrite bool_decide_eq_true_2 by by left. rewrite bool_decide_eq_false_2; [by rewrite Hv|].
    intros E. rewrite E in Hv. by subst ns.
Qed.

(** A text of nanosecond precision reads back as the instant it was printed from. *)
Lemma FormatRFC3339Nano_reads t : four_digit_year t → ParseRFC3339Nano (FormatRFC3339Nano t) = Some t.
Proof.
  intros Hy. unfold ParseRFC3339Nano, FormatRFC3339Nano. destruct (civil_of_day (day_of t)) as [[y m] d] eqn:E.
  rewrite (take_date_text t y m d _ E Hy). cbn [mbind option_bind]. set (s := t mod ns_per_day / ns_per_second).
  assert (Hs : 0 ≤ s < 86400).
  { unfold s, ns_per_day, ns_per_second. pose proof (Z.mod_pos_bound t (86400 * 1000000000)). split; [apply Z.div_pos; lia|apply Z.div_lt_upper_bound; lia]. }
  assert (0 ≤ s / 3600 < 24) by div_lia. assert (0 ≤ s / 60 mod 60 < 60) by div_lia. assert (0 ≤ s mod 60 < 60) by div_lia.
  unfold in_range, take_hour. repeat first [read_field | rewrite bool_decide_eq_true_2 by lia; cbn [mbind option_bind]].
  rewrite take_fraction_text; [|apply Z.mod_pos_bound; done|done|by intros c r [= <- <-]].
  cbn [take_zone]. rewrite bool_decide_eq_true_2 by done. cbn [mbind option_bind]. rewrite bool_decide_eq_true_2 by done.
  f_equal. assert (Hr : s = s / 3600 * 3600 + s / 60 mod 60 * 60 + s mod 60) by div_lia. rewrite Z.sub_0_r, <- Hr.
  assert (Hq : t mod ns_per_second = t mod ns_per_day mod ns_per_second).
  { symmetry. apply Z.mod_mod_divide. by exists 86400. }
  rewrite Hq. unfold day_of, s. pose proof (Z.div_mod t ns_per_day ltac:(done)).
  pose proof (Z.div_mod (t mod ns_per_day) ns_per_second ltac:(done)). lia.
Qed.
