(* ===== verification/Postgres.v ===== *)
(** * What the stores meet of Postgres

    The outcomes of a statement, the state of a transaction after one that failed,
    the texts a column can hold and the precision of a timestamp. *)

From Stdlib Require Import Ascii.
From S2P Require Import Prelude Tenancy Json.

Inductive SqlErr :=
| NoRows
| UniqueViolation
| ForeignKeyViolation
| CheckViolation (constraint : string)
| OtherViolation
| InFailedTx.
#[global] Instance SqlErr_eq_dec : EqDecision SqlErr.
Proof. solve_decision. Defined.

(** A transaction's view; after an error Postgres refuses every further statement
    of the transaction. *)
Record Session (D : Type) := mkSession { s_db : D; aborted : bool }.
Arguments mkSession {D} _ _.
Arguments s_db {D} _.
Arguments aborted {D} _.

#[global] Instance Session_rollback {D} : TxState (Session D) := λ before _, before.
#[global] Instance Session_atomic {D} : Atomic (@s_db D).
Proof. done. Qed.

Definition stmt {D A} (f : D → result SqlErr (A * D)) : Tx (Session D) SqlErr A := λ s,
  if aborted s then (Err InFailedTx, s)
  else match f (s_db s) with
       | Ok (a, d) => (Ok a, mkSession d false)
       | Err e => (Err e, mkSession (s_db s) (negb (bool_decide (e = NoRows))))
       end.

(** A text Postgres stores: UTF-8 without NUL. *)
Fixpoint has_nul (s : string) : bool :=
  match s with "" => false | String c s => bool_decide (code c = 0%N) || has_nul s end.
Definition pg_text (s : string) : bool := utf8_valid s && negb (has_nul s).
Definition pg_text_opt (s : option string) : bool := match s with Some s => pg_text s | None => true end.

(** [length(s)]: characters, the bytes that do not continue one. *)
Fixpoint pg_length (s : string) : nat :=
  match s with "" => 0 | String c s => (if is_cont c then 0 else 1) + pg_length s end.

(** The column has microseconds. *)
Definition to_micros (t : Time) : Time := t / 1000 * 1000.

(** A statement without effect, and one that selects a single row. *)
Definition query {D A} (f : D → A) (d : D) : result SqlErr (A * D) := Ok (f d, d).
Definition first_row {D A} (rows : list A) (d : D) : result SqlErr (A * D) :=
  match rows with r :: _ => Ok (r, d) | [] => Err NoRows end.

(** What a nullable column holds of a [uuid.UUID], and the reverse. *)
Definition pgUUID (u : UUID) : option UUID := if bool_decide (u = uuid_Nil) then None else Some u.
Definition goUUID (u : option UUID) : UUID := default uuid_Nil u.

Lemma goUUID_pgUUID u : goUUID (pgUUID u) = u.
Proof. unfold pgUUID. by case_bool_decide. Qed.

Lemma pgUUID_Some u v : pgUUID u = Some v → u = v.
Proof. unfold pgUUID. case_bool_decide; [done|]. by intros [= ->]. Qed.

Definition stringPtr (s : string) : option string := if bool_decide (s = "") then None else Some s.

(** [a && b] on arrays of text. *)
Definition overlap (a b : list string) : bool := existsb (λ x, bool_decide (x ∈ b)) a.

Lemma overlap_spec a b : overlap a b = true ↔ ∃ x, x ∈ a ∧ x ∈ b.
Proof.
  unfold overlap. rewrite existsb_exists. setoid_rewrite <- list_elem_of_In.
  by setoid_rewrite bool_decide_eq_true.
Qed.

(** A statement in a transaction no statement of which has failed. *)
Lemma stmt_live {D A} (f : D → result SqlErr (A * D)) d r se :
  stmt f (mkSession d false) = (r, se) →
  (∃ a d', r = Ok a ∧ f d = Ok (a, d') ∧ se = mkSession d' false) ∨
  (∃ e, r = Err e ∧ f d = Err e ∧ se = mkSession d (negb (bool_decide (e = NoRows)))).
Proof. unfold stmt. cbn [aborted s_db]. destruct (f d) as [[a d']|e] eqn:E; naive_solver. Qed.

(** ... and what the rest of the function makes of its outcome. *)
Lemma try_live {D A B E} (f : D → result SqlErr (A * D)) (k : result SqlErr A → Tx (Session D) E B) d :
  tx_try (stmt f) k (mkSession d false) =
  match f d with
  | Ok (a, d') => k (Ok a) (mkSession d' false)
  | Err e => k (Err e) (mkSession d (negb (bool_decide (e = NoRows))))
  end.
Proof. unfold tx_try, stmt. cbn [aborted s_db]. by destruct (f d) as [[a d']|e]. Qed.

Lemma first_row_Ok {D A} (rows : list A) (d : D) a d' : first_row rows d = Ok (a, d') → a ∈ rows ∧ d' = d.
Proof. unfold first_row. destruct rows; [done|]. intros [= -> ->]. split; [left|done]. Qed.
