(* ===== verification/ScopeSpec.v ===== *)
(** * What the expression engine promises

    The abstract expressions an applicability text denotes, and the theorems that
    [Scope.Evaluate] is their denotation: it never panics, never drops a cell
    silently, and reads every well-formed expression as it is written. *)

From Stdlib Require Import Ascii.
From S2P Require Import Prelude Json Sha256 Scope.

Import Scope.

(** ** Abstract expressions *)

Inductive expr :=
| ETrue
| EEq (dim value : string)
| EIn (dim : string) (values : list string)
| EAnd (args : list expr)
| EOr (args : list expr)
| ENot (arg : expr).

Fixpoint holds (e : expr) (c : Cell) : bool :=
  match e with
  | ETrue => true
  | EEq d v => bool_decide (Dimensions c !! d = Some v)
  | EIn d vs => match Dimensions c !! d with Some v => bool_decide (v ∈ vs) | None => false end
  | EAnd es => forallb (λ e, holds e c) es
  | EOr es => existsb (λ e, holds e c) es
  | ENot e => negb (holds e c)
  end.

Definition satisfying (e : expr) (universe : list Cell) : list Cell :=
  filter (λ c, holds e c = true) universe.

(** The expression a decoded node stands for. *)
Fixpoint denote (n : node) : option expr :=
  if bool_decide (Op n = "true") then Some ETrue
  else if bool_decide (Op n = "eq") then
    if bool_decide (Dim n = "") then None else EEq (Dim n) <$> Value n
  else if bool_decide (Op n = "in") then
    if bool_decide (Dim n = "") then None else EIn (Dim n) <$> Values n
  else if bool_decide (Op n = "and") then
    match Args n with [] => None | _ => EAnd <$> mapM denote (Args n) end
  else if bool_decide (Op n = "or") then
    match Args n with [] => None | _ => EOr <$> mapM denote (Args n) end
  else if bool_decide (Op n = "not") then
    match Arg n with Some a => ENot <$> denote a | None => None end
  else None.

(** Induction with a hypothesis for every child. *)
Fixpoint node_ind' (P : node → Prop)
    (H : ∀ op dim value values vt args at_ arg,
           Forall P args → (∀ a, arg = Some a → P a) →
           P (Node op dim value values vt args at_ arg)) (n : node) : P n :=
  match n with
  | Node op dim value values vt args at_ arg =>
      H op dim value values vt args at_ arg
        ((fix go l : Forall P l :=
            match l with
            | [] => List.Forall_nil _
            | x :: l => List.Forall_cons _ x _ (node_ind' P H x) (go l)
            end) args)
        (match arg as o return (∀ a, o = Some a → P a) with
         | None => λ a E, match E in _ = o return (match o with Some _ => P a | None => True end) with eq_refl => I end
         | Some x => λ a E, match E in _ = o return (match o with Some y => P y | None => True end) with eq_refl => node_ind' P H x end
         end)
  end.

(** ** Validation is exactly denotability *)

Definition agrees (n : node) : Prop :=
  match validate n with
  | Some e => denote n = None ∧ ∀ op, e ≠ ErrUnreachableOp op
  | None => ∃ e, denote n = Some e ∧ ∀ c, match_node n c = Returns (Ok (holds e c))
  end.

Lemma agrees_args l :
  Forall agrees l →
  match first_err validate l with
  | Some e => mapM denote l = None ∧ ∀ op, e ≠ ErrUnreachableOp op
  | None => ∃ es, mapM denote l = Some es ∧
              ∀ c, match_all (λ a, match_node a c) l = Returns (Ok (forallb (λ e, holds e c) es)) ∧
                   match_any (λ a, match_node a c) l = Returns (Ok (existsb (λ e, holds e c) es))
  end.
Proof.
  induction 1 as [|n l Hn Hl IH]; [by exists []|]. simpl.
  unfold agrees in Hn. destruct (validate n) as [e|].
  - destruct Hn as [-> ?]. done.
  - destruct Hn as (e & -> & He). destruct (first_err validate l) as [err|].
    + destruct IH as [-> ?]. done.
    + destruct IH as (es & -> & Hes). exists (e :: es). split; [done|]. intros c. simpl.
      rewrite He. destruct (Hes c) as [-> ->]. by destruct (holds e c).
Qed.

Lemma existsb_elem v (vs : list string) : existsb (λ x, bool_decide (v = x)) vs = bool_decide (v ∈ vs).
Proof.
  induction vs as [|x vs IH]; [by rewrite bool_decide_eq_false_2 by apply not_elem_of_nil|].
  simpl. rewrite IH. destruct (bool_decide_reflect (v = x)) as [->|Hne]; simpl.
  - by rewrite bool_decide_eq_true_2 by left.
  - apply bool_decide_ext. rewrite elem_of_cons. naive_solver.
Qed.

Lemma validate_agrees n : agrees n.
Proof.
  induction n as [op dim value values vt args at_ arg IHargs IHarg] using node_ind'.
  unfold agrees. cbn [validate denote match_node Op Dim Value Values Args Arg].
  apply agrees_args in IHargs.
  destruct (bool_decide_reflect (op = "true")) as [_|]; [by exists ETrue|].
  destruct (bool_decide_reflect (op = "eq")) as [_|].
  { destruct (bool_decide_reflect (dim = "")) as [_|_]; [done|].
    destruct value as [v|]; [|by rewrite bool_decide_eq_true_2].
    rewrite bool_decide_eq_false_2 by done. exists (EEq dim v). split; [done|]. intros c. simpl.
    destruct (Dimensions c !! dim) as [w|]; [|by rewrite bool_decide_eq_false_2].
    do 2 f_equal. apply bool_decide_ext. naive_solver. }
  destruct (bool_decide_reflect (op = "in")) as [_|].
  { destruct (bool_decide_reflect (dim = "")) as [_|_]; [done|].
    destruct values as [vs|]; [|by rewrite bool_decide_eq_true_2].
    rewrite bool_decide_eq_false_2 by done. exists (EIn dim vs). split; [done|]. intros c. simpl.
    destruct (Dimensions c !! dim) as [w|]; [|done]. by rewrite existsb_elem. }
  destruct (bool_decide_reflect (op = "and")) as [_|]; simpl.
  { destruct args as [|a args]; [done|]. destruct (first_err _ _).
    - destruct IHargs as [-> ?]. done.
    - destruct IHargs as (es & -> & Hes). exists (EAnd es). split; [done|]. apply Hes. }
  destruct (bool_decide_reflect (op = "or")) as [_|].
  { destruct args as [|a args]; [done|]. destruct (first_err _ _).
    - destruct IHargs as [-> ?]. done.
    - destruct IHargs as (es & -> & Hes). exists (EOr es). split; [done|]. apply Hes. }
  destruct (bool_decide_reflect (op = "not")) as [_|].
  { destruct arg as [a|]; [|done]. specialize (IHarg a eq_refl). unfold agrees in IHarg.
    destruct (validate a) as [e|].
    - destruct IHarg as [-> ?]. done.
    - destruct IHarg as (e & -> & He). exists (ENot e). split; [done|]. intros c. by rewrite He. }
  by destruct (bool_decide_reflect (op = "")).
Qed.

Lemma match_cells_holds n e universe :
  (∀ c, match_node n c = Returns (Ok (holds e c))) →
  match_cells n universe = Some (Ok (satisfying e universe)).
Proof.
  intros H. unfold satisfying. induction universe as [|c u IH]; [done|]. simpl.
  rewrite H, IH, filter_cons. destruct (holds e c); by repeat case_decide.
Qed.

Lemma satisfying_true universe : satisfying ETrue universe = universe.
Proof.
  unfold satisfying. induction universe as [|c u IH]; [done|].
  rewrite filter_cons, decide_True by done. by rewrite IH.
Qed.

(** The expression a text denotes: the empty forms match every cell. *)
Definition expr_of (exprJSON : string) : option expr :=
  if isEmptyExpr exprJSON then Some ETrue
  else match Unmarshal_node exprJSON with Ok n => denote n | Err _ => None end.

Lemma Unmarshal_node_err exprJSON e : Unmarshal_node exprJSON = Err e → e = ErrParse.
Proof.
  unfold Unmarshal_node. destruct (decode_all exprJSON) as [j|]; [|congruence].
  destruct (decode_node j node_zero) as [n []]; congruence.
Qed.

Lemma evaluate_denotes (exprJSON : string) :
  match expr_of exprJSON with
  | Some e => ∀ universe, Evaluate exprJSON universe = Some (Ok (satisfying e universe))
  | None => ∃ err, (∀ op, err ≠ ErrUnreachableOp op) ∧
              ∀ universe, Evaluate exprJSON universe = Some (Err err)
  end.
Proof.
  unfold expr_of, Evaluate. destruct (isEmptyExpr exprJSON).
  { intros universe. by rewrite satisfying_true. }
  destruct (Unmarshal_node exprJSON) as [n|e] eqn:E.
  - pose proof (validate_agrees n) as H. unfold agrees in H. destruct (validate n) as [e|].
    + destruct H as [-> H]. by exists e.
    + destruct H as (e & -> & He). intros universe. by apply match_cells_holds.
  - exists e. split; [|done]. by apply Unmarshal_node_err in E as ->.
Qed.

(** C14: for every text whatsoever, [Evaluate] does not panic, and either the
    text denotes an expression and the result is exactly the cells satisfying
    it, in the order of the universe, or it denotes none and the call fails with
    one and the same error on every universe, which is never the "unreachable
    op" error of [match]. *)
Theorem Evaluate_denotes (exprJSON : string) :
  match expr_of exprJSON with
  | Some e => ∀ universe, Evaluate exprJSON universe = Some (Ok (satisfying e universe))
  | None => ∃ err, (∀ op, err ≠ ErrUnreachableOp op) ∧
              ∀ universe, Evaluate exprJSON universe = Some (Err err)
  end.
Proof. apply evaluate_denotes. Qed.

(** ** Every well-formed expression is read as written *)

(** The document of an expression, keys in order. *)
Fixpoint expr_json (e : expr) : json :=
  match e with
  | ETrue => JObj [("op", JStr "true")]
  | EEq d v => JObj [("dim", JStr d); ("op", JStr "eq"); ("value", JStr v)]
  | EIn d vs => JObj [("dim", JStr d); ("op", JStr "in"); ("values", JArr (map JStr vs))]
  | EAnd es => JObj [("args", JArr (map expr_json es)); ("op", JStr "and")]
  | EOr es => JObj [("args", JArr (map expr_json es)); ("op", JStr "or")]
  | ENot e => JObj [("arg", expr_json e); ("op", JStr "not")]
  end.

Fixpoint node_of (e : expr) : node :=
  match e with
  | ETrue => Node "true" "" None None [] [] [] None
  | EEq d v => Node "eq" d (Some v) None [] [] [] None
  | EIn d vs => Node "in" d None (Some vs) [] [] [] None
  | EAnd es => Node "and" "" None None [] (map node_of es) [] None
  | EOr es => Node "or" "" None None [] (map node_of es) [] None
  | ENot e => Node "not" "" None None [] [] [] (Some (node_of e))
  end.

(** What the grammar asks of an expression: named dimensions, non-empty
    argument lists, text in UTF-8. *)
Fixpoint well_formed (e : expr) : bool :=
  match e with
  | ETrue => true
  | EEq d v => bool_decide (d ≠ "") && utf8_valid d && utf8_valid v
  | EIn d vs => bool_decide (d ≠ "") && utf8_valid d && forallb utf8_valid vs
  | EAnd es | EOr es => bool_decide (es ≠ []) && forallb well_formed es
  | ENot e => well_formed e
  end.

Fixpoint expr_ind' (P : expr → Prop)
    (Htrue : P ETrue) (Heq : ∀ d v, P (EEq d v)) (Hin : ∀ d vs, P (EIn d vs))
    (Hand : ∀ es, Forall P es → P (EAnd es)) (Hor : ∀ es, Forall P es → P (EOr es))
    (Hnot : ∀ e, P e → P (ENot e)) (e : expr) : P e :=
  let rec := expr_ind' P Htrue Heq Hin Hand Hor Hnot in
  let all := fix all l : Forall P l :=
    match l with [] => List.Forall_nil _ | x :: l => List.Forall_cons _ x _ (rec x) (all l) end in
  match e with
  | ETrue => Htrue
  | EEq d v => Heq d v
  | EIn d vs => Hin d vs
  | EAnd es => Hand es (all es)
  | EOr es => Hor es (all es)
  | ENot e => Hnot e (rec e)
  end.

Lemma decode_strings_fresh vs : decode_elems decode_string "" (map JStr vs) [] = (vs, [], false).
Proof. induction vs as [|v vs IH]; [done|]. simpl. by rewrite IH. Qed.

Lemma decode_nodes_fresh es :
  Forall (λ e, decode_node (expr_json e) node_zero = (node_of e, false)) es →
  decode_elems decode_node node_zero (map expr_json es) [] = (map node_of es, [], false).
Proof. induction 1 as [|e es He Hes IH]; [done|]. cbn [map decode_elems hd tl]. by rewrite He, IH. Qed.

(** The keys the documents use select their fields. *)
Lemma field_of_keys :
  field_of "op" = Some FOp ∧ field_of "dim" = Some FDim ∧ field_of "value" = Some FValue ∧
  field_of "values" = Some FValues ∧ field_of "args" = Some FArgs ∧ field_of "arg" = Some FArg.
Proof. vm_compute. repeat split. Qed.

Ltac run_fields :=
  destruct field_of_keys as (Hop & Hdim & Hvalue & Hvalues & Hargs & Harg);
  cbn [decode_node decode_fields]; unfold decode_field; rewrite ?Hop, ?Hdim, ?Hvalue, ?Hvalues, ?Hargs, ?Harg.

Lemma decode_args op es :
  Forall (λ e, decode_node (expr_json e) node_zero = (node_of e, false)) es →
  decode_node (JObj [("args", JArr (map expr_json es)); ("op", JStr op)]) node_zero =
  (Node op "" None None [] (map node_of es) [] None, false).
Proof.
  intros H%decode_nodes_fresh. run_fields. destruct es as [|e es]; [done|]. cbn [map] in *.
  cbn [Args args_tail node_zero app]. by rewrite H.
Qed.

Lemma decode_expr e : decode_node (expr_json e) node_zero = (node_of e, false).
Proof.
  induction e as [|d v|d vs|es IH|es IH|e IH] using expr_ind'.
  1,2: by vm_compute.
  - cbn [expr_json node_of]. run_fields. destruct vs as [|v vs]; [done|].
    pose proof (decode_strings_fresh (v :: vs)) as H. cbn [map] in *. cbn [decode_values].
    cbn -[decode_elems]. by rewrite H.
  - by apply decode_args.
  - by apply decode_args.
  - cbn [expr_json node_of]. run_fields. cbn [default Arg node_zero].
    destruct (expr_json e) eqn:E; try by rewrite IH. by destruct e.
Qed.

Lemma mapM_denote es :
  Forall (λ e, well_formed e = true → denote (node_of e) = Some e) es →
  forallb well_formed es = true → mapM denote (map node_of es) = Some es.
Proof.
  induction 1 as [|e es He Hes IH]; [done|]. simpl. intros [H1 H2]%andb_true_iff.
  rewrite He by done. simpl. by rewrite IH.
Qed.

Lemma denote_node_of e : well_formed e = true → denote (node_of e) = Some e.
Proof.
  induction e as [|d v|d vs|es IH|es IH|e IH] using expr_ind'; cbn [well_formed]; intros H; [done|..].
  - rewrite !andb_true_iff in H. destruct H as [[H%bool_decide_eq_true _] _].
    change (denote _) with (if bool_decide (d = "") then None else Some (EEq d v)).
    by rewrite bool_decide_eq_false_2.
  - rewrite !andb_true_iff in H. destruct H as [[H%bool_decide_eq_true _] _].
    change (denote _) with (if bool_decide (d = "") then None else Some (EIn d vs)).
    by rewrite bool_decide_eq_false_2.
  - apply andb_true_iff in H as [Hne%bool_decide_eq_true Hall].
    pose proof (mapM_denote es IH Hall) as Hm. destruct es as [|e es]; [done|].
    change (denote _) with (EAnd <$> mapM denote (map node_of (e :: es))). by rewrite Hm.
  - apply andb_true_iff in H as [Hne%bool_decide_eq_true Hall].
    pose proof (mapM_denote es IH Hall) as Hm. destruct es as [|e es]; [done|].
    change (denote _) with (EOr <$> mapM denote (map node_of (e :: es))). by rewrite Hm.
  - change (denote _) with (ENot <$> denote (node_of e)). by rewrite (IH H).
Qed.

(** *** The document is well formed and not an empty form *)

Lemma wf_strings vs : forallb utf8_valid vs = true → Forall wf (map JStr vs).
Proof.
  induction vs as [|v vs IH]; simpl; [by constructor|]. intros [H1 H2]%andb_true_iff.
  constructor; [by constructor|auto].
Qed.

Lemma wf_exprs es :
  Forall (λ e, well_formed e = true → wf (expr_json e)) es →
  forallb well_formed es = true → Forall wf (map expr_json es).
Proof.
  induction 1 as [|e es He Hes IH]; simpl; [by constructor|]. intros [H1 H2]%andb_true_iff.
  constructor; auto.
Qed.

Ltac wf_members :=
  repeat (apply Forall_cons; split; [split; [by vm_compute|]|]); [..|by apply Forall_nil].

Lemma sorted_keys {A} (ms : list (string * A)) :
  bool_decide (Sorted (λ a b, String.compare a b = Lt) ms.*1) = true → StronglySorted key_lt ms.
Proof.
  intros H%bool_decide_eq_true. apply Sorted_StronglySorted in H.
  2: { intros x y z. apply str_lt_trans. }
  remember ms.*1 as ks eqn:E. revert ms E. induction H as [|k ks Hks IH Hk]; intros [|[k' v] ms] E;
    [constructor|done|done|]. simplify_eq/=. constructor; [by apply IH|].
  rewrite Forall_fmap in Hk. exact Hk.
Qed.

Lemma wf_expr e : well_formed e = true → wf (expr_json e).
Proof.
  induction e as [|d v|d vs|es IH|es IH|e IH] using expr_ind'; cbn [well_formed expr_json]; intros H.
  all: apply wf_obj; [|apply sorted_keys; by vm_compute]; wf_members; simpl.
  all: try (by constructor).
  all: try (constructor; rewrite ?andb_true_iff in H; naive_solver).
  - apply wf_arr, wf_strings. rewrite !andb_true_iff in H. naive_solver.
  - apply wf_arr, wf_exprs; [done|]. rewrite !andb_true_iff in H. naive_solver.
  - apply wf_arr, wf_exprs; [done|]. rewrite !andb_true_iff in H. naive_solver.
  - auto.
Qed.

(** A text that starts like an object with a member is none of the empty forms. *)
Lemma not_empty_form s : isEmptyExpr (String "{" (String dquote s)) = false.
Proof.
  unfold isEmptyExpr, TrimSpace. rewrite trim_left_solid, !trim_right_solid by done.
  by rewrite !bool_decide_eq_false_2.
Qed.

Lemma expr_text e : ∃ s, encode_canonical (expr_json e) = String "{" (String dquote s).
Proof. destruct e; eexists; cbn; reflexivity. Qed.

(** An expression of the grammar, written as canonical JSON, selects exactly
    the cells of the universe that satisfy it, in their order. *)
Theorem Evaluate_reads_expression (e : expr) (universe : list Cell) :
  well_formed e = true → (height (expr_json e) ≤ maxNestingDepth)%nat →
  Evaluate (encode_canonical (expr_json e)) universe = Some (Ok (satisfying e universe)).
Proof.
  intros Hw Hh. unfold Evaluate. destruct (expr_text e) as [s Hs].
  replace (isEmptyExpr _) with false by (by rewrite Hs, not_empty_form).
  unfold Unmarshal_node. rewrite decode_encode by auto using wf_expr. rewrite decode_expr.
  pose proof (validate_agrees (node_of e)) as Ha. unfold agrees in Ha.
  rewrite (denote_node_of e Hw) in Ha. destruct (validate (node_of e)) as [err|]; [naive_solver|].
  destruct Ha as (e' & [= <-] & He). by apply match_cells_holds.
Qed.

Definition demo_expr : expr := EAnd [ENot (EIn "environment" ["dev"; "sandbox"]); EEq "environment" "prod"].

Lemma Evaluate_reads_expression_witness :
  Evaluate (encode_canonical (expr_json demo_expr)) [cell_prod; cell_dev] = Some (Ok [cell_prod]).
Proof.
  apply (Evaluate_reads_expression demo_expr [cell_prod; cell_dev]);
    [reflexivity|apply Nat.leb_le; vm_compute; reflexivity].
Defined.

(** ** Canonical dimensions do not depend on map iteration order *)

Lemma sort_perm (k1 k2 : list string) : k1 ≡ₚ k2 → merge_sort String.le k1 = merge_sort String.le k2.
Proof.
  intros H. apply (StronglySorted_unique String.le).
  - apply StronglySorted_merge_sort; apply _.
  - apply StronglySorted_merge_sort; apply _.
  - by rewrite !merge_sort_Permutation.
Qed.

Lemma canonicalize_perm (k1 k2 : list string) (dims : gmap string string) :
  range_of k1 dims → range_of k2 dims → Canonicalize k1 dims = Canonicalize k2 dims.
Proof.
  unfold range_of, Canonicalize. intros H1 H2. assert (H : k1 ≡ₚ k2) by by rewrite H1, H2.
  rewrite (sort_perm _ _ H). rewrite (bool_decide_ext ("" ∈ k1) ("" ∈ k2)) by by rewrite H. done.
Qed.
