(* ===== verification/ScopeStore.v ===== *)
(** * The scope store: dimensions and cells of a tenant

    Models internal/scope/store.go with its statements
    (internal/db/queries/scope.sql) and the constraints of
    migrations/sql/20260511000003_scope.sql. *)

From S2P Require Import Prelude Tenancy Json Sha256 Scope.

Module ScopeStore.
Import Scope.

(** ** Data *)

Record DimensionSeed := mkSeed {
  seed_Name : string;
  seed_ValueType : string;
  seed_AllowedValues : option (list string);
  seed_IsRequired : bool;
}.

Definition BuiltinDimensions : list DimensionSeed :=
  [mkSeed "business_unit" "string" None false;
   mkSeed "environment" "string" (Some ["prod"; "staging"; "dev"; "sandbox"]) true;
   mkSeed "geography" "string" None false;
   mkSeed "cloud_account" "string" None false;
   mkSeed "data_classification" "string"
     (Some ["restricted"; "confidential"; "internal"; "public"]) true;
   mkSeed "product_line" "string" None false].

Definition DefaultCellDimensions : gmap string string :=
  {[ "business_unit" := "default"; "environment" := "prod"; "data_classification" := "internal" ]}.

(** A row of [scope_dimensions] ([dbx.ScopeDimension]). *)
Record DimRow := mkDim {
  dim_ID : UUID;
  dim_TenantID : UUID;
  dim_Name : string;
  dim_ValueType : string;
  dim_AllowedValues : string;
  dim_IsRequired : bool;
  dim_IsBuiltin : bool;
}.

(** A row of [scope_cells] ([dbx.ScopeCell]). *)
Record CellRow := mkCellRow {
  cell_ID : UUID;
  cell_TenantID : UUID;
  cell_Label : string;
  cell_Dimensions : string;
  cell_DimensionsHash : string;
  cell_CreatedAt : Time;
}.

(** The columns of [controls] the store reads. *)
Record ControlRow := mkControl {
  control_ID : UUID;
  control_TenantID : UUID;
  control_ApplicabilityExpr : string;
}.

Record DB := mkDB {
  scope_dimensions : list DimRow;
  scope_cells : list CellRow;
  controls : list ControlRow;
}.

#[global] Instance DB_rollback : TxState DB := λ before _, before.
#[global] Instance DB_atomic : Atomic (λ d : DB, d).
Proof. done. Qed.

Inductive StoreError :=
| ErrCellExists
| ErrInvalidDimension (what name : string)
| ErrExpr (e : Scope.Error)
| ErrControlNotFound (id : UUID)
| ErrWrap (msg : string)
| ErrPanic
| ErrTx (e : TxErr).

#[global] Instance Error_tx : TxError StoreError := ErrTx.

Inductive QueryErr := NoRows | PgUnique | PgCheck | PgInvalidJSON.

(** ** Statements *)

Section Statements.
Context {JB : JsonB}.
(** The collation of the database, for ORDER BY on text. *)
Context (collate : string → string → Prop) `{!RelDecision collate}.

Definition at_name (tenantID : UUID) (name : string) (r : DimRow) : bool :=
  bool_decide (dim_TenantID r = tenantID) && bool_decide (dim_Name r = name).

Definition CreateScopeDimension (id tenantID : UUID) (name valueType allowed : string)
    (required builtin : bool) : Tx DB QueryErr DimRow := λ d,
  match jsonb_in allowed with
  | None => (Err PgInvalidJSON, d)
  | Some a =>
      let r := mkDim id tenantID name valueType a required builtin in
      if bool_decide (valueType ≠ "string") then (Err PgCheck, d)
      else if bool_decide (id ∈ (dim_ID <$> scope_dimensions d)) then (Err PgUnique, d)
      else if bool_decide (select_where (at_name tenantID name) (scope_dimensions d) ≠ [])
      then (Err PgUnique, d)
      else (Ok r, mkDB (scope_dimensions d ++ [r]) (scope_cells d) (controls d))
  end.

Definition GetScopeDimensionByName (tenantID : UUID) (name : string) : Tx DB QueryErr DimRow := λ d,
  match select_where (at_name tenantID name) (scope_dimensions d) with
  | [] => (Err NoRows, d)
  | r :: _ => (Ok r, d)
  end.

(** ORDER BY is_builtin DESC, name ASC *)
Definition builtin_first (r1 r2 : DimRow) : Prop :=
  (dim_IsBuiltin r1 = true ∧ dim_IsBuiltin r2 = false) ∨
  (dim_IsBuiltin r1 = dim_IsBuiltin r2 ∧ collate (dim_Name r1) (dim_Name r2)).
#[global] Instance builtin_first_dec : RelDecision builtin_first.
Proof using RelDecision0. intros r1 r2. unfold builtin_first. apply _. Defined.

Definition ListScopeDimensions (tenantID : UUID) (d : DB) : list DimRow :=
  merge_sort builtin_first
    (select_where (λ r, bool_decide (dim_TenantID r = tenantID)) (scope_dimensions d)).

Definition at_hash (tenantID : UUID) (hash : string) (r : CellRow) : bool :=
  bool_decide (cell_TenantID r = tenantID) && bool_decide (cell_DimensionsHash r = hash).

Definition CreateScopeCell (now : Time) (id tenantID : UUID) (label dimensions hash : string)
  : Tx DB QueryErr CellRow := λ d,
  match jsonb_in dimensions with
  | None => (Err PgInvalidJSON, d)
  | Some t =>
      let r := mkCellRow id tenantID label t hash now in
      if bool_decide (id ∈ (cell_ID <$> scope_cells d)) then (Err PgUnique, d)
      else if bool_decide (select_where (at_hash tenantID hash) (scope_cells d) ≠ [])
      then (Err PgUnique, d)
      else (Ok r, mkDB (scope_dimensions d) (scope_cells d ++ [r]) (controls d))
  end.

(** ORDER BY created_at DESC, id ASC *)
Definition newest_first (r1 r2 : CellRow) : Prop :=
  cell_CreatedAt r2 < cell_CreatedAt r1 ∨
  (cell_CreatedAt r1 = cell_CreatedAt r2 ∧ (cell_ID r1 ≤ cell_ID r2)%N).
#[global] Instance newest_first_dec : RelDecision newest_first.
Proof using. intros r1 r2. unfold newest_first. apply _. Defined.

Definition ListScopeCells (tenantID : UUID) (d : DB) : list CellRow :=
  merge_sort newest_first
    (select_where (λ r, bool_decide (cell_TenantID r = tenantID)) (scope_cells d)).

Definition GetScopeCellByHash (tenantID : UUID) (hash : string) : Tx DB QueryErr CellRow := λ d,
  match select_where (at_hash tenantID hash) (scope_cells d) with
  | [] => (Err NoRows, d)
  | r :: _ => (Ok r, d)
  end.

Definition GetControlApplicabilityExpr (tenantID id : UUID) : Tx DB QueryErr string := λ d,
  match select_where (λ r, bool_decide (control_TenantID r = tenantID) && bool_decide (control_ID r = id))
          (controls d) with
  | [] => (Err NoRows, d)
  | r :: _ => (Ok (control_ApplicabilityExpr r), d)
  end.
End Statements.

(** ** Helpers *)

(** [json.Unmarshal] into a [map[string]string]: null leaves the map nil, a
    null value stores the empty string, any other value is an error. *)
Fixpoint string_map (ms : list (string * json)) (m : gmap string string) : option (gmap string string) :=
  match ms with
  | [] => Some m
  | (k, JStr s) :: ms => string_map ms (<[k := s]> m)
  | (k, JNull) :: ms => string_map ms (<[k := ""]> m)
  | _ :: ms => None
  end.

Definition decodeCanonicalDims (blob : string) : option (gmap string string) :=
  match decode_all blob with
  | Some JNull => Some ∅
  | Some (JObj ms) => string_map ms ∅
  | _ => None
  end.

Definition rowToCell (r : CellRow) : Cell :=
  mkCell (cell_ID r) (cell_TenantID r) (cell_Label r) (default ∅ (decodeCanonicalDims (cell_Dimensions r))).

(** [json.Marshal] of one byte of a string of printable ASCII: the encoder also
    escapes the HTML characters. *)
Definition marshal_byte (c : Ascii.ascii) : string :=
  if bool_decide (code c = 60%N) then "\u003c"
  else if bool_decide (code c = 62%N) then "\u003e"
  else if bool_decide (code c = 38%N) then "\u0026"
  else if bool_decide (code c = 8%N) then "\b"
  else if bool_decide (code c = 12%N) then "\f"
  else escape_byte c.

Fixpoint marshal_text (s : string) : string :=
  match s with "" => "" | String c s => marshal_byte c +:+ marshal_text s end.

Definition marshalAllowedValues (vs : option (list string)) : string :=
  match vs with
  | None => "[]"
  | Some vs =>
      "[" +:+ join "," (map (λ s, String dquote (marshal_text s +:+ String dquote "")) vs) +:+ "]"
  end.

Definition checkAllowedValue (dim : DimRow) (value : string) : result StoreError () :=
  let a := dim_AllowedValues dim in
  if bool_decide (a = "") || bool_decide (a = "[]") || bool_decide (a = "null") then Ok ()
  else
    match decode_all a with
    | None => Ok ()
    | Some j =>
        let '(allowed, _, bad) := decode_values j None [] in
        if bad then Ok ()
        else if existsb (λ x, bool_decide (x = value)) (default [] allowed) then Ok ()
        else Err (ErrInvalidDimension "not in allowed values" (dim_Name dim))
    end.

Definition isLegacyTrueExpr (s : string) : bool :=
  bool_decide (TrimSpace s = "true") || bool_decide (TrimSpace s = "").

(** The last row of a name wins in the [declared] map. *)
Definition declared (rows : list DimRow) : gmap string DimRow :=
  fold_left (λ m r, <[dim_Name r := r]> m) rows ∅.

Fixpoint check_declared (m : gmap string DimRow) (keys : list string) (dims : gmap string string)
  : result StoreError () :=
  match keys with
  | [] => Ok ()
  | name :: keys =>
      match m !! name with
      | None => Err (ErrInvalidDimension "not a declared dimension" name)
      | Some dim =>
          match checkAllowedValue dim (default "" (dims !! name)) with
          | Err e => Err e
          | Ok _ => check_declared m keys dims
          end
      end
  end.

Fixpoint check_required (rows : list DimRow) (dims : gmap string string) : result StoreError () :=
  match rows with
  | [] => Ok ()
  | d :: rows =>
      if negb (dim_IsRequired d) then check_required rows dims
      else match dims !! dim_Name d with
           | None => Err (ErrInvalidDimension "required dimension missing" (dim_Name d))
           | Some _ => check_required rows dims
           end
  end.

(** ** The store *)

Record Env := mkEnv { env_ctx : Context; env_infra : Infra; env_now : Time }.

Section Store.
Context {UT : UUIDText} {JB : JsonB}.
Context (collate : string → string → Prop) `{!RelDecision collate}.

Definition inTx {A} (env : Env) (fn : UUID → Tx DB StoreError A) : Tx DB StoreError A :=
  Tenancy.inTx (env_infra env) (env_ctx env) fn.

(** [keys] is the order [range dims] yields the keys in. *)
Definition validateDimensions (keys : list string) (tenantID : UUID) (dims : gmap string string)
  : Tx DB StoreError () :=
  if bool_decide (dims = ∅) then tx_fail (ErrInvalidDimension "empty dimension map" "")
  else
    rows ← tx_gets (ListScopeDimensions collate tenantID);
    _ ← tx_lift (check_declared (declared rows) keys dims);
    tx_lift (check_required rows dims).

(** One round of the seeding loop: [continue] when the dimension exists. *)
Definition seedDimension (tenantID : UUID) (p : UUID * DimensionSeed) : Tx DB StoreError () :=
  tx_try (GetScopeDimensionByName tenantID (seed_Name p.2))
    (λ r, match r with
          | Ok _ => mret ()
          | Err NoRows =>
              tx_try (CreateScopeDimension p.1 tenantID (seed_Name p.2) (seed_ValueType p.2)
                        (marshalAllowedValues (seed_AllowedValues p.2)) (seed_IsRequired p.2) true)
                (λ r, match r with
                      | Ok _ => mret ()
                      | Err _ => tx_fail (ErrWrap "create dimension")
                      end)
          | Err _ => tx_fail (ErrWrap "get dimension")
          end).

(** [newID i] is the value [uuid.New] draws for the i-th builtin dimension and,
    last, for the cell; [keys] is the iteration order of [DefaultCellDimensions]. *)
Definition SeedTenant (env : Env) (newID : nat → UUID) (keys : list string)
  : Tx DB StoreError Cell :=
  inTx env (λ tenantID,
    _ ← tx_iter (seedDimension tenantID) (imap (λ i d, (newID i, d)) BuiltinDimensions);
    match Canonicalize keys DefaultCellDimensions with
    | Err e => tx_fail (ErrExpr e)
    | Ok (canon, hash) =>
        tx_try (GetScopeCellByHash tenantID hash)
          (λ r, match r with
                | Ok existing => mret (rowToCell existing)
                | Err NoRows =>
                    tx_try (CreateScopeCell (env_now env) (newID (length BuiltinDimensions)) tenantID
                              "default" canon hash)
                      (λ r, match r with
                            | Ok row => mret (rowToCell row)
                            | Err _ => tx_fail (ErrWrap "create default cell")
                            end)
                | Err _ => tx_fail (ErrWrap "get default cell")
                end)
    end).

(** [k1] and [k2] are the orders of the two iterations over [dims]. *)
Definition CreateCell (env : Env) (cellID : UUID) (k1 k2 : list string) (label : string)
    (dims : gmap string string) : Tx DB StoreError Cell :=
  inTx env (λ tenantID,
    _ ← validateDimensions k1 tenantID dims;
    match Canonicalize k2 dims with
    | Err e => tx_fail (ErrExpr e)
    | Ok (canon, hash) =>
        tx_try (CreateScopeCell (env_now env) cellID tenantID label canon hash)
          (λ r, match r with
                | Ok row => mret (rowToCell row)
                | Err PgUnique => tx_fail ErrCellExists
                | Err _ => tx_fail (ErrWrap "create cell")
                end)
    end).

Definition listCellsInTx (tenantID : UUID) : Tx DB StoreError (list Cell) :=
  rows ← tx_gets (ListScopeCells tenantID); mret (map rowToCell rows).

Definition ListCells (env : Env) : Tx DB StoreError (list Cell) := inTx env listCellsInTx.

Definition ListDimensions (env : Env) : Tx DB StoreError (list DimRow) :=
  inTx env (λ tenantID, tx_gets (ListScopeDimensions collate tenantID)).

Definition ControlApplicability (env : Env) (controlID : UUID) : Tx DB StoreError (list Cell) :=
  inTx env (λ tenantID,
    tx_try (GetControlApplicabilityExpr tenantID controlID)
      (λ r, match r with
            | Err NoRows => tx_fail (ErrControlNotFound controlID)
            | Err _ => tx_fail (ErrWrap "get applicability_expr")
            | Ok expr =>
                universe ← listCellsInTx tenantID;
                if isLegacyTrueExpr expr then mret universe
                else match Evaluate expr universe with
                     | None => tx_fail ErrPanic
                     | Some (Err e) => tx_fail (ErrExpr e)
                     | Some (Ok out) => mret out
                     end
            end)).
End Store.
End ScopeStore.
