(* ===== verification/ScopeStoreSpec.v ===== *)
(** * What the scope store promises

    A created cell reads back with the dimensions it was given; no tenant ever
    has two cells with the same dimensions; seeding is idempotent; the cells a
    control applies to are those its expression denotes. *)

From S2P Require Import Prelude Tenancy Json Sha256 Scope ScopeSpec ScopeStore.

Import Scope ScopeStore.

Definition utf8_dims (dims : gmap string string) : Prop :=
  map_Forall (λ k v, utf8_valid k = true ∧ utf8_valid v = true) dims.

(** ** The canonical text is the JSON of the map *)

Definition dims_list (keys : list string) (dims : gmap string string) : list (string * string) :=
  map (λ k, (k, default "" (dims !! k))) (merge_sort String.le keys).

Definition strs (l : list (string * string)) : list (string * json) :=
  map (λ kv, (kv.1, JStr kv.2)) l.

Lemma range_NoDup keys dims : range_of keys dims → NoDup keys.
Proof. intros ->. apply NoDup_fst_map_to_list. Qed.

Lemma sorted_strict (ks : list string) :
  StronglySorted String.le ks → NoDup ks → StronglySorted (λ a b, String.compare a b = Lt) ks.
Proof.
  induction 1 as [|k ks Hks IH Hk]; intros Hn; [constructor|]. apply NoDup_cons in Hn as [Hin Hn].
  constructor; [auto|]. rewrite Forall_forall in *. intros x Hx. specialize (Hk x Hx).
  unfold String.le, String.leb in Hk. destruct (String.compare k x) eqn:E; [|done..].
  apply String.compare_eq_iff in E as ->. done.
Qed.

Lemma keyed_sorted {A} (f : string → A) ks :
  StronglySorted (λ a b, String.compare a b = Lt) ks → StronglySorted key_lt (map (λ k, (k, f k)) ks).
Proof.
  induction 1 as [|k ks Hks IH Hk]; simpl; constructor; [done|]. apply Forall_map. exact Hk.
Qed.

Lemma strs_sorted keys dims :
  range_of keys dims → StronglySorted key_lt (strs (dims_list keys dims)).
Proof.
  intros H. unfold strs, dims_list. rewrite map_map. apply keyed_sorted, sorted_strict.
  - apply StronglySorted_merge_sort; apply _.
  - rewrite merge_sort_Permutation. by eapply range_NoDup.
Qed.

Lemma Canonicalize_json keys dims out h :
  range_of keys dims → Canonicalize keys dims = Ok (out, h) →
  out = encode_canonical (JObj (strs (dims_list keys dims))) ∧ h = sha256_hex out.
Proof.
  intros Hr. unfold Canonicalize. repeat case_bool_decide; try done. intros [= <- <-]. split; [|done].
  rewrite encode_obj by by apply strs_sorted. unfold strs, dims_list. by rewrite !map_map.
Qed.

Lemma map_fst {A B C} (f : A → C) (l : list (A * B)) : map f l.*1 = map (λ kv, f kv.1) l.
Proof. induction l as [|x l IH]; [done|]. csimpl. by rewrite <- IH. Qed.

Lemma dims_list_keyed (keys : list string) (dims : gmap string string) :
  keys ≡ₚ (map_to_list dims).*1 → map (λ k, (k, default "" (dims !! k))) keys ≡ₚ map_to_list dims.
Proof.
  intros ->. rewrite map_fst.
  rewrite <- (map_id (map_to_list dims)) at 2. erewrite map_ext_in; [done|].
  intros [k v] Hkv%list_elem_of_In%elem_of_map_to_list. simpl. by rewrite Hkv.
Qed.

Lemma dims_list_map keys dims :
  range_of keys dims → NoDup (dims_list keys dims).*1 ∧ list_to_map (dims_list keys dims) = dims.
Proof.
  intros H. assert (Hp : dims_list keys dims ≡ₚ map_to_list dims).
  { unfold dims_list. apply dims_list_keyed. by rewrite merge_sort_Permutation. }
  assert (Hn : NoDup (dims_list keys dims).*1) by (rewrite Hp; apply NoDup_fst_map_to_list).
  split; [done|]. rewrite (list_to_map_proper _ _ Hn Hp). apply list_to_map_to_list.
Qed.

Lemma dims_json_wf keys dims :
  range_of keys dims → utf8_dims dims → wf (JObj (strs (dims_list keys dims))).
Proof.
  intros Hr Hu. apply wf_obj; [|by apply strs_sorted].
  destruct (dims_list_map keys dims Hr) as [Hn Hm]. apply Forall_forall. unfold strs.
  intros x ([k v] & <- & Hkv%list_elem_of_In)%list_elem_of_In%in_map_iff. simpl.
  apply (elem_of_list_to_map_1 _ _ _ Hn) in Hkv. rewrite Hm in Hkv.
  destruct (Hu k v Hkv). split; [done|]. by constructor.
Qed.

Lemma strs_height l : (height (JObj (strs l)) ≤ 1)%nat.
Proof. simpl. apply le_n_S. apply max_list_le, Forall_map, Forall_map, Forall_true. done. Qed.

Lemma strs_number_free l : number_free (JObj (strs l)) = true.
Proof. simpl. apply forallb_forall. unfold strs. by intros x (y & <- & _)%in_map_iff. Qed.

Lemma depth_allows (n : nat) : (n ≤ 1)%nat → (n ≤ maxNestingDepth)%nat.
Proof. intros. transitivity 1%nat; [done|]. by apply Nat.leb_le. Qed.

(** ** Reading a stored map back *)

(** The strings of a list of string members. *)
Definition unstrs (ws : list (string * json)) : list (string * string) :=
  map (λ kv, (kv.1, match kv.2 with JStr s => s | _ => "" end)) ws.

Lemma unstrs_strs l : unstrs (strs l) = l.
Proof. unfold unstrs, strs. rewrite map_map. rewrite <- (map_id l) at 2. by apply map_ext; intros []. Qed.

Lemma strs_unstrs ws : (∀ kv, kv ∈ ws → ∃ s, kv.2 = JStr s) → strs (unstrs ws) = ws.
Proof.
  intros H. unfold strs, unstrs. rewrite map_map. rewrite <- (map_id ws) at 2. apply map_ext_in.
  intros [k v] Hkv%list_elem_of_In. destruct (H _ Hkv) as [s Hs]. simpl in *. by subst.
Qed.

Lemma to_any_strs l : map (λ kv, (kv.1, to_any kv.2)) (strs l) = strs l.
Proof. unfold strs. by rewrite map_map. Qed.

Lemma string_map_strs l m :
  NoDup l.*1 → string_map (strs l) m = Some (list_to_map l ∪ m).
Proof.
  revert m. induction l as [|[k v] l IH]; intros m Hn; simpl; [by rewrite map_empty_union|].
  simpl in Hn. apply NoDup_cons in Hn as [Hk Hn]. change (map _ l) with (strs l).
  rewrite IH by done. f_equal. rewrite <- insert_union_l. symmetry.
  apply insert_union_r. by apply not_elem_of_list_to_map_1.
Qed.

(** An object whose value is a map of strings decodes to that map. *)
Lemma string_map_to_any ws l :
  NoDup ws.*1 → map_of (map (λ kv, (kv.1, to_any kv.2)) ws) = strs l → NoDup l.*1 →
  string_map ws ∅ = Some (list_to_map l).
Proof.
  intros Hn Hm Hl.
  assert (Hp : map (λ kv, (kv.1, to_any kv.2)) ws ≡ₚ strs l).
  { rewrite <- Hm. symmetry. apply map_of_perm. by rewrite fst_map. }
  assert (Hall : ∀ kv, kv ∈ ws → ∃ s, kv.2 = JStr s).
  { intros [k v] Hkv. assert (Hin : (k, to_any v) ∈ strs l).
    { rewrite <- Hp. by apply (list_elem_of_fmap_2 (λ kv, (kv.1, to_any kv.2)) ws (k, v)). }
    apply list_elem_of_In, in_map_iff in Hin as (y & [= _ E] & _). simpl.
    destruct v; simpl in E; naive_solver. }
  apply strs_unstrs in Hall. rewrite <- Hall in Hp |- *. rewrite to_any_strs in Hp.
  assert (Hll : unstrs ws ≡ₚ l).
  { rewrite <- (unstrs_strs (unstrs ws)), <- (unstrs_strs l). unfold unstrs at 1 3. by apply Permutation_map. }
  assert (Hn' : NoDup (unstrs ws).*1) by by rewrite Hll.
  rewrite string_map_strs by done. rewrite map_union_empty. f_equal. by apply list_to_map_proper.
Qed.

Section Spec.
Context {UT : UUIDText} {JB : JsonB}.
Context (collate : string → string → Prop) `{!RelDecision collate}.

(** What is stored for a canonical map decodes to that map. *)
Lemma stored_dims keys dims canon h t :
  range_of keys dims → utf8_dims dims → Canonicalize keys dims = Ok (canon, h) →
  jsonb_in canon = Some t → decodeCanonicalDims t = Some dims.
Proof using JB.
  intros Hr Hu Hc Ht. apply Canonicalize_json in Hc as [-> _]; [|done].
  pose proof (dims_json_wf keys dims Hr Hu) as Hwf.
  destruct (jsonb_same _ _ (JObj (strs (dims_list keys dims))) Ht) as (w & Hw & Hd & E).
  - apply decode_encode; [done|]. apply depth_allows, strs_height.
  - apply strs_number_free.
  - rewrite (to_any_id (JObj (strs (dims_list keys dims)))) in E by done. unfold decodeCanonicalDims. rewrite Hw.
    destruct w as [| | | |l|ws]; try done. simpl in E, Hd. injection E as E.
    apply andb_true_iff in Hd as [Hd%bool_decide_eq_true _].
    destruct (dims_list_map keys dims Hr) as [Hn Hm].
    rewrite (string_map_to_any ws (dims_list keys dims)) by done. by rewrite Hm.
Qed.

(** ** Statement lemmas *)

Lemma CreateScopeCell_cases now id t label canon h d r d' :
  CreateScopeCell now id t label canon h d = (r, d') →
  (∃ e, r = Err e ∧ d' = d) ∨
  (∃ txt, jsonb_in canon = Some txt ∧ r = Ok (mkCellRow id t label txt h now) ∧
     select_where (at_hash t h) (scope_cells d) = [] ∧
     d' = mkDB (scope_dimensions d) (scope_cells d ++ [mkCellRow id t label txt h now]) (controls d)).
Proof using JB.
  unfold CreateScopeCell. intros H. destruct (jsonb_in canon) as [txt|]; [|simplify_eq; eauto].
  repeat case_bool_decide; simplify_eq; eauto. right. exists txt. by split_and!.
Qed.

Lemma CreateScopeDimension_cells id t n vt a rq b d r d' :
  CreateScopeDimension id t n vt a rq b d = (r, d') → scope_cells d' = scope_cells d.
Proof using JB. unfold CreateScopeDimension. intros H. repeat case_match; by simplify_eq. Qed.

Lemma seedDimension_cells t p d r d' :
  seedDimension t p d = (r, d') → scope_cells d' = scope_cells d.
Proof using JB.
  unfold seedDimension, tx_try, GetScopeDimensionByName, mret, tx_ret, tx_fail. intros H.
  destruct (select_where _ _); [|by simplify_eq/=].
  destruct (CreateScopeDimension _ _ _ _ _ _ _ d) as [r1 d1] eqn:E.
  apply CreateScopeDimension_cells in E. destruct r1; by simplify_eq.
Qed.

Lemma seed_cells t ps d r d' :
  tx_iter (seedDimension t) ps d = (r, d') → scope_cells d' = scope_cells d.
Proof using JB.
  revert d. induction ps as [|p ps IH]; intros d H; [by injection H as <- <-|]. simpl in H.
  unfold mbind, tx_bind in H. destruct (seedDimension t p d) as [[[]|e] d1] eqn:E;
    apply seedDimension_cells in E.
  - apply IH in H. congruence.
  - by simplify_eq.
Qed.

Lemma validateDimensions_state k1 t dims d r d' :
  validateDimensions collate k1 t dims d = (r, d') → d' = d.
Proof using.
  unfold validateDimensions, tx_fail, mbind, tx_bind, tx_gets, tx_lift. intros H.
  repeat case_match; by simplify_eq.
Qed.

(** A new cell: what a transaction that inserts one does to the table. *)
Definition inserts (t : UUID) (dims : gmap string string) (d d' : DB) (row : CellRow) : Prop :=
  (∃ keys canon, range_of keys dims ∧ Canonicalize keys dims = Ok (canon, cell_DimensionsHash row) ∧
                 jsonb_in canon = Some (cell_Dimensions row)) ∧
  cell_TenantID row = t ∧
  select_where (at_hash t (cell_DimensionsHash row)) (scope_cells d) = [] ∧
  scope_cells d' = scope_cells d ++ [row].

Lemma CreateCell_cases env id k1 k2 label dims d r d' :
  range_of k2 dims →
  CreateCell collate env id k1 k2 label dims d = (r, d') →
  (∃ e, r = Err e ∧ d' = d) ∨
  (∃ t row, tenant_of (env_ctx env) = Some t ∧ r = Ok (rowToCell row) ∧ inserts t dims d d' row ∧
     cell_ID row = id ∧ cell_Label row = label ∧ validateDimensions collate k1 t dims d = (Ok (), d)).
Proof using UT JB.
  intros Hr H. apply (Tenancy.inTx_cases (λ d, d)) in H as [(t & c & Ht & -> & H)|(e & -> & ->)]; [|by eauto].
  right. unfold mbind, tx_bind in H.
  destruct (validateDimensions collate k1 t dims d) as [[[]|e] d1] eqn:Ev; [|done].
  pose proof (validateDimensions_state _ _ _ _ _ _ Ev) as ->.
  destruct (Canonicalize k2 dims) as [[canon h]|] eqn:Ec; [|done].
  unfold tx_try in H. destruct (CreateScopeCell _ _ _ _ _ _ d) as [r2 d2] eqn:E.
  apply CreateScopeCell_cases in E as [(e & -> & ->)|(txt & Hj & -> & Hs & ->)]; [by destruct e|].
  injection H as <- <-. eexists t, _. split_and!; try done. unfold inserts. simpl. eauto 10.
Qed.

Lemma SeedTenant_cases env newID keys d r d' :
  range_of keys DefaultCellDimensions →
  SeedTenant env newID keys d = (r, d') →
  (∃ e, r = Err e ∧ d' = d) ∨
  (∃ t c, tenant_of (env_ctx env) = Some t ∧ r = Ok c ∧
     (scope_cells d' = scope_cells d ∨ ∃ row, inserts t DefaultCellDimensions d d' row)).
Proof using UT JB.
  intros Hr H. apply (Tenancy.inTx_cases (λ d, d)) in H as [(t & c & Ht & -> & H)|(e & -> & ->)]; [|by eauto].
  right. exists t, c. split_and!; [done..|]. unfold mbind, tx_bind in H.
  destruct (tx_iter _ _ d) as [[[]|e] d1] eqn:Es; [|done]. apply seed_cells in Es.
  destruct (Canonicalize keys DefaultCellDimensions) as [[canon h]|] eqn:Ec; [|done].
  unfold tx_try, GetScopeCellByHash in H.
  destruct (select_where (at_hash t h) (scope_cells d1)) as [|row rows] eqn:Eh; [|left; by injection H as <- <-].
  destruct (CreateScopeCell _ _ _ _ _ _ d1) as [r2 d2] eqn:E.
  apply CreateScopeCell_cases in E as [(e & -> & ->)|(txt & Hj & -> & Hs & ->)]; [by destruct e|].
  right. injection H as <- <-. eexists (mkCellRow _ t _ txt h _). unfold inserts. cbn [cell_DimensionsHash cell_Dimensions cell_TenantID scope_cells].
  rewrite <- Es. split_and!; [by eauto|done..].
Qed.

(** ** No two cells of a tenant have the same dimensions *)

Inductive step : DB → DB → Prop :=
| step_seed env newID keys r d d' :
    range_of keys DefaultCellDimensions → SeedTenant env newID keys d = (r, d') → step d d'
| step_create env id k1 k2 label dims r d d' :
    range_of k2 dims → utf8_dims dims →
    CreateCell collate env id k1 k2 label dims d = (r, d') → step d d'.

Definition row_ok (r : CellRow) : Prop := ∃ keys dims canon,
  range_of keys dims ∧ utf8_dims dims ∧ Canonicalize keys dims = Ok (canon, cell_DimensionsHash r) ∧
  jsonb_in canon = Some (cell_Dimensions r).

Definition cell_key (r : CellRow) : UUID * string := (cell_TenantID r, cell_DimensionsHash r).

Definition Inv (d : DB) : Prop := NoDup (cell_key <$> scope_cells d) ∧ Forall row_ok (scope_cells d).

Lemma inserts_inv t dims d d' row : utf8_dims dims → inserts t dims d d' row → Inv d → Inv d'.
Proof using.
  intros Hu ((keys & canon & Hr & Hc & Hj) & Ht & Hs & E) [Hn Hok]. unfold Inv. rewrite E. split.
  - rewrite fmap_app. apply NoDup_app. split_and!; [done| |apply NoDup_singleton].
    intros x (r & -> & Hrin)%list_elem_of_fmap Hx%list_elem_of_singleton.
    assert (Hf : r ∈ select_where (at_hash t (cell_DimensionsHash row)) (scope_cells d)).
    { apply elem_of_select_where. split; [|done]. injection Hx as H1 H2. unfold at_hash.
      by rewrite !bool_decide_eq_true_2 by congruence. }
    rewrite Hs in Hf. by apply elem_of_nil in Hf.
  - apply Forall_app. split; [done|]. apply Forall_singleton. by exists keys, dims, canon.
Qed.

Lemma default_utf8 : utf8_dims DefaultCellDimensions.
Proof using. by apply (bool_decide_eq_true_1 _); vm_compute. Qed.

Lemma scope_step_inv d d' : step d d' → Inv d → Inv d'.
Proof using.
  intros [env newID keys r d0 d1 Hr H|env id k1 k2 label dims r d0 d1 Hr Hu H] Hi.
  - apply SeedTenant_cases in H as [(e & -> & ->)|(t & c & _ & -> & [E|[row Hrow]])]; [done|..|done].
    + unfold Inv. by rewrite E.
    + eapply inserts_inv; eauto using default_utf8.
  - apply CreateCell_cases in H as [(e & -> & ->)|(t & row & _ & -> & Hrow & _)]; [done| |done].
    by eapply inserts_inv.
Qed.

Lemma row_ok_dims r keys dims canon :
  range_of keys dims → utf8_dims dims → Canonicalize keys dims = Ok (canon, cell_DimensionsHash r) →
  jsonb_in canon = Some (cell_Dimensions r) → Dimensions (rowToCell r) = dims.
Proof using. intros Hr Hu Hc Hj. unfold rowToCell. simpl. by rewrite (stored_dims keys dims canon _ _ Hr Hu Hc Hj). Qed.

(** Whatever seeding and cell creation requests ran before, no tenant has
    two cells with the same dimensions: cells that read back equal are the same
    row. *)
Theorem cells_never_duplicate (d0 d : DB) (r1 r2 : CellRow) :
  scope_cells d0 = [] → rtc step d0 d →
  r1 ∈ scope_cells d → r2 ∈ scope_cells d → cell_TenantID r1 = cell_TenantID r2 →
  Dimensions (rowToCell r1) = Dimensions (rowToCell r2) → r1 = r2.
Proof using.
  intros H0 Hs H1 H2 Ht Hd.
  assert (Inv d) as [Hn Hok].
  { assert (Inv d0) as Hi by (unfold Inv; by rewrite H0; split; constructor).
    clear H0 H1 H2. induction Hs; eauto using scope_step_inv. }
  apply (NoDup_key_inj cell_key (scope_cells d)); try done. unfold cell_key. f_equal; [done|].
  rewrite Forall_forall in Hok.
  destruct (Hok _ H1) as (k1 & m1 & c1 & Hr1 & Hu1 & Hc1 & Hj1).
  destruct (Hok _ H2) as (k2 & m2 & c2 & Hr2 & Hu2 & Hc2 & Hj2).
  rewrite (row_ok_dims r1 k1 m1 c1), (row_ok_dims r2 k2 m2 c2) in Hd by done. subst m2.
  assert (Canonicalize k1 m1 = Canonicalize k2 m1) as E by by apply canonicalize_perm.
  congruence.
Qed.

(** A request to create a cell that succeeds has passed validation, adds
    exactly one row, and returns (and later reads back) a cell with the given
    id, label and dimensions in the tenant of the request. *)
Theorem CreateCell_stores_dimensions env id k1 k2 label dims d c d' :
  range_of k2 dims → utf8_dims dims →
  CreateCell collate env id k1 k2 label dims d = (Ok c, d') →
  ∃ t row, tenant_of (env_ctx env) = Some t ∧ c = mkCell id t label dims ∧ rowToCell row = c ∧
    scope_cells d' = scope_cells d ++ [row] ∧ validateDimensions collate k1 t dims d = (Ok (), d).
Proof using.
  intros Hr Hu H. apply CreateCell_cases in H as [(e & ? & _)|(t & row & Ht & [= ->] & Hins & Hid & Hl & Hv)];
    [done| |done].
  destruct Hins as ((keys & canon & Hr' & Hc & Hj) & Hten & _ & E).
  exists t, row. split_and!; try done.
  unfold rowToCell. rewrite (stored_dims keys dims canon _ _ Hr' Hu Hc Hj). simpl. by subst.
Qed.

(** ** Seeding is idempotent *)

Definition has_dim (t : UUID) (d : DB) (name : string) : Prop :=
  select_where (at_name t name) (scope_dimensions d) ≠ [].

Lemma seedDimension_ok t p d d' :
  seedDimension t p d = (Ok (), d') →
  has_dim t d' (seed_Name p.2) ∧ (∀ n, has_dim t d n → has_dim t d' n) ∧ controls d' = controls d.
Proof using JB.
  unfold seedDimension, tx_try, GetScopeDimensionByName, CreateScopeDimension, has_dim. intros H.
  destruct (select_where _ (scope_dimensions d)) eqn:E.
  2: { injection H as <-. rewrite E. done. }
  destruct (jsonb_in _); [|done]. repeat case_bool_decide; try done. injection H as <-.
  cbn [scope_dimensions controls]. split_and!; [|intros n Hn|done].
  - unfold select_where. rewrite filter_app, filter_cons_True; [by destruct (filter _ (scope_dimensions d))|].
    unfold at_name. cbn. by rewrite !bool_decide_eq_true_2.
  - unfold select_where in *. rewrite filter_app. intros [Hnil _]%app_nil. done.
Qed.

Lemma seed_ok t ps d d' :
  tx_iter (seedDimension t) ps d = (Ok (), d') →
  Forall (λ p, has_dim t d' (seed_Name p.2)) ps ∧ (∀ n, has_dim t d n → has_dim t d' n).
Proof using JB.
  revert d. induction ps as [|p ps IH]; intros d H; [by injection H as <-|]. simpl in H.
  unfold mbind, tx_bind in H. destruct (seedDimension t p d) as [[[]|e] d1] eqn:E; [|done].
  apply seedDimension_ok in E as (Hp & Hk & _). apply IH in H as [Hps Hk']. split; [|by auto].
  constructor; auto.
Qed.

Lemma seed_noop t ps d :
  Forall (λ p, has_dim t d (seed_Name p.2)) ps → tx_iter (seedDimension t) ps d = (Ok (), d).
Proof using JB.
  induction 1 as [|p ps Hp Hps IH]; [done|]. simpl. unfold mbind, tx_bind.
  assert (seedDimension t p d = (Ok (), d)) as ->; [|done].
  unfold seedDimension, tx_try, GetScopeDimensionByName.
  unfold has_dim in Hp. by destruct (select_where _ _).
Qed.

Lemma imap_Forall {A B C} (P : B → Prop) (f g : nat → A → B) (h : B → C) (Q : C → Prop) l :
  (∀ i x, h (f i x) = h (g i x)) → (∀ b, P b ↔ Q (h b)) → Forall P (imap f l) → Forall P (imap g l).
Proof using.
  intros Hfg HPQ. revert f g Hfg. induction l as [|x l IH]; intros f g Hfg; [done|].
  rewrite !imap_cons. intros [H1 H2]%Forall_cons. constructor.
  - apply HPQ. rewrite <- Hfg. by apply HPQ.
  - eapply IH, H2. intros. apply Hfg.
Qed.

Lemma GetScopeCellByHash_found t h d r d' :
  GetScopeCellByHash t h d = (r, d') → d' = d ∧
  match select_where (at_hash t h) (scope_cells d) with [] => r = Err NoRows | c :: _ => r = Ok c end.
Proof using. unfold GetScopeCellByHash. intros H. by destruct (select_where _ _); simplify_eq. Qed.

(** Seeding a tenant again, with other random ids and another iteration
    order, returns the cell the first call returned and changes nothing. *)
Theorem SeedTenant_idempotent env1 env2 newID1 newID2 keys1 keys2 d c d1 :
  range_of keys1 DefaultCellDimensions → range_of keys2 DefaultCellDimensions →
  tenant_of (env_ctx env2) = tenant_of (env_ctx env1) → env_infra env2 = healthy →
  SeedTenant env1 newID1 keys1 d = (Ok c, d1) →
  SeedTenant env2 newID2 keys2 d1 = (Ok c, d1).
Proof using.
  intros Hr1 Hr2 Ht Hh H.
  apply (Tenancy.inTx_cases (λ d, d)) in H as [(t & c0 & Ht1 & [= <-] & H)|(? & ? & _)]; [|done].
  unfold SeedTenant, inTx. rewrite Hh, (Tenancy.inTx_healthy (λ d : DB, d) _ t) by (by rewrite Ht). cbn beta.
  unfold mbind, tx_bind in *. rewrite (canonicalize_perm keys2 keys1) by done.
  destruct (tx_iter _ _ d) as [[[]|e] d2] eqn:Es; [|done]. apply seed_ok in Es as [Hs _].
  destruct (Canonicalize keys1 DefaultCellDimensions) as [[canon h]|] eqn:Ec; [|done].
  assert (Hd : scope_dimensions d1 = scope_dimensions d2 ∧
               ∃ row rest, select_where (at_hash t h) (scope_cells d1) = row :: rest ∧ rowToCell row = c).
  { unfold tx_try, GetScopeCellByHash in H.
    destruct (select_where (at_hash t h) (scope_cells d2)) as [|row rows] eqn:Eh.
    - destruct (CreateScopeCell _ _ _ _ _ _ d2) as [r3 d3] eqn:E.
      apply CreateScopeCell_cases in E as [(e & -> & ->)|(txt & Hj & -> & Hsel & ->)]; [by destruct e|].
      injection H as <- <-. split; [done|]. eexists _, []. split; [|done].
      cbn [scope_cells]. unfold select_where in *. rewrite filter_app, Eh, filter_cons_True; [done|].
      unfold at_hash. cbn. by rewrite !bool_decide_eq_true_2.
    - injection H as <- <-. by eauto. }
  destruct Hd as [Hd (row & rest & Esel & Hc)].
  rewrite seed_noop.
  - unfold tx_try, GetScopeCellByHash. by rewrite Esel, Hc.
  - eapply (imap_Forall _ (λ i d, (newID1 i, d)) _ snd (λ s, has_dim t d1 (seed_Name s))); [done..|].
    eapply Forall_impl; [exact Hs|]. unfold has_dim. by rewrite Hd.
Qed.

(** The cells a control applies to are the cells of the tenant that satisfy
    the expression its text denotes (every cell for the legacy and empty forms);
    a text that denotes no expression is an error, never a silent subset. *)
Theorem ControlApplicability_denotes env t controlID d expr :
  env_infra env = healthy → tenant_of (env_ctx env) = Some t →
  GetControlApplicabilityExpr t controlID d = (Ok expr, d) →
  let universe := map rowToCell (ListScopeCells t d) in
  (ControlApplicability env controlID d).1 =
  match (if isLegacyTrueExpr expr then Some ETrue else expr_of expr) with
  | Some e => Ok (satisfying e universe)
  | None => Err (ErrExpr (match Evaluate expr universe with Some (Err e) => e | _ => ErrParse end))
  end.
Proof using.
  intros Hh Ht Hg universe. unfold ControlApplicability, inTx.
  rewrite Hh, (Tenancy.inTx_healthy (λ d : DB, d) _ t) by done.
  unfold tx_try. rewrite Hg. unfold mbind, tx_bind, listCellsInTx, mbind, tx_bind, tx_gets, mret, tx_ret.
  fold universe. destruct (isLegacyTrueExpr expr); [by rewrite satisfying_true|].
  pose proof (evaluate_denotes expr) as He. destruct (expr_of expr) as [e|].
  - by rewrite He.
  - destruct He as (err & _ & He). by rewrite !He.
Qed.
End Spec.

(** ** A concrete run *)

Module Demo.
#[local] Existing Instance binary_uuid.
#[local] Existing Instance canonical_jsonb.

Definition env : Env := mkEnv {| ctx_tenant := Some (uuid_String 7) |} healthy 1000.
Definition empty : DB := mkDB [] [] [mkControl 50 7 prod_expr].
Definition ids (i : nat) : UUID := (100 + N.of_nat i)%N.
Definition default_keys : list string := (map_to_list DefaultCellDimensions).*1.
Definition dev_dims : gmap string string :=
  {[ "environment" := "dev"; "data_classification" := "public" ]}.
Definition dev_keys : list string := (map_to_list dev_dims).*1.

Definition seeded : DB := (SeedTenant env ids default_keys empty).2.
Definition run : result StoreError Cell * DB :=
  CreateCell String.le env 9 dev_keys dev_keys "dev" dev_dims seeded.

Example run_creates : match run with (Ok c, d) => c = mkCell 9 7 "dev" dev_dims ∧ length (scope_cells d) = 2%nat | _ => False end.
Proof. vm_compute. split; reflexivity. Qed.

Example run_again : (CreateCell String.le env 10 dev_keys dev_keys "again" dev_dims run.2).1 = Err ErrCellExists.
Proof. vm_compute. reflexivity. Qed.

Example run_invalid :
  (CreateCell String.le env 10 ["environment"] ["environment"] "x" {[ "environment" := "qa" ]} seeded).1 =
  Err (ErrInvalidDimension "not in allowed values" "environment").
Proof. vm_compute. reflexivity. Qed.

Lemma dev_utf8 : utf8_dims dev_dims.
Proof. by apply (bool_decide_eq_true_1 _); vm_compute. Qed.

Definition row (i : nat) : CellRow := nth i (scope_cells run.2) (mkCellRow 0 0 "" "" "" 0).

Lemma cells_never_duplicate_witness : row 1 = row 1.
Proof.
  apply (cells_never_duplicate String.le empty run.2 (row 1) (row 1)).
  - reflexivity.
  - eapply rtc_l; [|apply rtc_once].
    + apply (step_seed String.le env ids default_keys (SeedTenant env ids default_keys empty).1 empty seeded).
      * unfold range_of. reflexivity.
      * apply surjective_pairing.
    + apply (step_create String.le env 9 dev_keys dev_keys "dev" dev_dims run.1 seeded run.2).
      * unfold range_of. reflexivity.
      * exact dev_utf8.
      * apply surjective_pairing.
  - unfold row. apply list_elem_of_In, nth_In. apply Nat.ltb_lt. vm_compute. reflexivity.
  - unfold row. apply list_elem_of_In, nth_In. apply Nat.ltb_lt. vm_compute. reflexivity.
  - reflexivity.
  - reflexivity.
Defined.

Lemma CreateCell_stores_dimensions_witness :
  ∃ t row, tenant_of (env_ctx env) = Some t ∧ mkCell 9 7 "dev" dev_dims = mkCell 9 t "dev" dev_dims ∧
    rowToCell row = mkCell 9 7 "dev" dev_dims ∧
    scope_cells run.2 = scope_cells seeded ++ [row] ∧
    validateDimensions String.le dev_keys t dev_dims seeded = (Ok (), seeded).
Proof.
  apply (CreateCell_stores_dimensions String.le env 9 dev_keys dev_keys "dev" dev_dims seeded
           (mkCell 9 7 "dev" dev_dims) run.2).
  - unfold range_of. reflexivity.
  - exact dev_utf8.
  - vm_compute. reflexivity.
Defined.

Lemma SeedTenant_idempotent_witness :
  SeedTenant env (λ i, ids (i + 10)) default_keys seeded =
  (Ok (mkCell 106 7 "default" DefaultCellDimensions), seeded).
Proof.
  apply (SeedTenant_idempotent env env ids (λ i, ids (i + 10)) default_keys default_keys empty
           (mkCell 106 7 "default" DefaultCellDimensions) seeded).
  1,2: unfold range_of; reflexivity.
  1,2: reflexivity.
  vm_compute. reflexivity.
Defined.

Lemma ControlApplicability_denotes_witness :
  (ControlApplicability env 50 run.2).1 =
  Ok (satisfying (EEq "environment" "prod") (map rowToCell (ListScopeCells 7 run.2))).
Proof.
  rewrite (ControlApplicability_denotes env 7 50 run.2 prod_expr).
  - assert (isLegacyTrueExpr prod_expr = false) as -> by (vm_compute; reflexivity).
    assert (expr_of prod_expr = Some (EEq "environment" "prod")) as -> by (vm_compute; reflexivity).
    reflexivity.
  - reflexivity.
  - vm_compute. reflexivity.
  - vm_compute. reflexivity.
Defined.
End Demo.
