(* ===== verification/FrameworkScope.v ===== *)
(** * Framework scopes: predicates and their approval workflow

    Models internal/frameworkscope (canonical.go, predicate.go, store.go) with
    its statements (internal/db/queries/framework_scopes.sql) and the trigger and
    partial unique index of
    migrations/sql/20260511000007_framework_scopes_workflow.sql. *)

From Stdlib Require Import Ascii.
From S2P Require Import Prelude Tenancy Json Sha256 Scope.

Module FrameworkScope.

Inductive Error :=
| ErrNotFound
| ErrWrongState
| ErrAnotherActivated
| ErrPredicateMalformed
| ErrPanic
| ErrWrap (msg : string)
| ErrTx (e : TxErr).

#[global] Instance Error_tx : TxError Error := ErrTx.

(** ** Predicates *)

Definition true_predicate : string := js "{'op':'true'}".

(** [canonicalEncode] on a decoded value is [Json.encode_canonical]: its writer
    has no failing case on what a decoder with [UseNumber] produces. *)
Definition Canonicalize (predicate : string) : result Error (string * string) :=
  let trimmed := TrimSpace predicate in
  if bool_decide (trimmed = "") || bool_decide (trimmed = "null") ||
     bool_decide (trimmed = "{}") || bool_decide (trimmed = "true")
  then Ok (true_predicate, sha256_hex true_predicate)
  else
    match decode_first trimmed with
    | None => Err ErrPredicateMalformed
    | Some v => let canon := encode_canonical (to_any v) in Ok (canon, sha256_hex canon)
    end.

Definition Validate (canonicalPredicate : string) : result Error () :=
  match Scope.Evaluate canonicalPredicate [] with
  | None => Err ErrPanic
  | Some (Err _) => Err ErrPredicateMalformed
  | Some (Ok _) => Ok ()
  end.

Definition EffectiveScope (applicability : list Scope.Cell) (frameworkPredicate : string)
  : result Error (list Scope.Cell) :=
  match Scope.Evaluate frameworkPredicate applicability with
  | None => Err ErrPanic
  | Some (Err _) => Err (ErrWrap "evaluate predicate")
  | Some (Ok matches) => Ok matches
  end.

(** ** Data *)

Inductive State := StateDraft | StateReview | StateApproved | StateActivated | StateSuperseded.

#[global] Instance State_eq_dec : EqDecision State.
Proof. solve_decision. Defined.

Definition state_text (s : State) : string :=
  match s with
  | StateDraft => "draft" | StateReview => "review" | StateApproved => "approved"
  | StateActivated => "activated" | StateSuperseded => "superseded"
  end.

(** A row of [framework_scopes]; the exported struct has the same fields, its
    pointers being the nullable columns. *)
Record FScope := mkScope {
  ID : UUID;
  TenantID : UUID;
  FrameworkVersionID : UUID;
  Name : string;
  state : State;
  Predicate : string;
  PredicateHash : string;
  ApproverUserID : option UUID;
  ApprovedAt : option Time;
  PredicateHashAtApproval : option string;
  ApprovalEvidenceFileURL : option string;
  ApprovalEvidenceFileHash : option string;
  EffectiveFrom : option Time;
  SupersededBy : option UUID;
  SupersededAt : option Time;
  CreatedAt : Time;
  UpdatedAt : Time;
}.

Record DB := mkDB {
  framework_scopes : list FScope;
  framework_versions : list UUID;
}.

#[global] Instance DB_rollback : TxState DB := λ before _, before.
#[global] Instance DB_atomic : Atomic (λ d : DB, d).
Proof. done. Qed.

Inductive QueryErr := NoRows | PgUnique | PgForeignKey | PgInvalidJSON.

(** ** Statements *)

(** The trigger [framework_scopes_bounce_on_predicate_change]. *)
Definition bounce (old new : FScope) : FScope :=
  if bool_decide (PredicateHash new ≠ PredicateHash old) &&
     (bool_decide (state old = StateReview) || bool_decide (state old = StateApproved))
  then mkScope (ID new) (TenantID new) (FrameworkVersionID new) (Name new) StateDraft
         (Predicate new) (PredicateHash new) None None None None None
         (EffectiveFrom new) (SupersededBy new) (SupersededAt new) (CreatedAt new) (UpdatedAt new)
  else new.

(** The partial unique index [framework_scopes_one_active]. *)
Definition active_keys (t : list FScope) : list (UUID * UUID) :=
  (λ r, (TenantID r, FrameworkVersionID r)) <$> select_where (λ r, bool_decide (state r = StateActivated)) t.

Definition at_key (tenantID id : UUID) (r : FScope) : bool :=
  bool_decide (TenantID r = tenantID) && bool_decide (ID r = id).
Definition in_state (s : State) (r : FScope) : bool := bool_decide (state r = s).

(** [UPDATE framework_scopes SET f WHERE p RETURNING *] read as [:one], the
    trigger applied to each row. *)
Definition update_one (p : FScope → bool) (f : FScope → FScope) : Tx DB QueryErr FScope := λ d,
  let g r := bounce r (f r) in
  match updated_rows p g (framework_scopes d) with
  | [] => (Err NoRows, d)
  | r :: _ =>
      let t := update_where p g (framework_scopes d) in
      if bool_decide (NoDup (active_keys t)) then (Ok r, mkDB t (framework_versions d))
      else (Err PgUnique, d)
  end.

Section Statements.
Context {JB : JsonB}.

Definition CreateFrameworkScope (now : Time) (id tenantID fv : UUID) (name predicate hash : string)
  : Tx DB QueryErr FScope := λ d,
  match jsonb_in predicate with
  | None => (Err PgInvalidJSON, d)
  | Some p =>
      let r := mkScope id tenantID fv name StateDraft p hash None None None None None None None None now now in
      if bool_decide (id ∈ (ID <$> framework_scopes d)) then (Err PgUnique, d)
      else if bool_decide (fv ∈ framework_versions d)
      then (Ok r, mkDB (framework_scopes d ++ [r]) (framework_versions d))
      else (Err PgForeignKey, d)
  end.

Definition set_predicate (now : Time) (predicate hash : string) (r : FScope) : FScope :=
  mkScope (ID r) (TenantID r) (FrameworkVersionID r) (Name r) (state r) predicate hash
    (ApproverUserID r) (ApprovedAt r) (PredicateHashAtApproval r)
    (ApprovalEvidenceFileURL r) (ApprovalEvidenceFileHash r)
    (EffectiveFrom r) (SupersededBy r) (SupersededAt r) (CreatedAt r) now.

Definition UpdateFrameworkScopePredicate (now : Time) (tenantID id : UUID) (predicate hash : string)
  : Tx DB QueryErr FScope := λ d,
  match jsonb_in predicate with
  | None => (Err PgInvalidJSON, d)
  | Some p => update_one (at_key tenantID id) (set_predicate now p hash) d
  end.
End Statements.

Definition GetFrameworkScopeByID (tenantID id : UUID) : Tx DB QueryErr FScope := λ d,
  match select_where (at_key tenantID id) (framework_scopes d) with
  | [] => (Err NoRows, d)
  | r :: _ => (Ok r, d)
  end.

(** ORDER BY created_at DESC, id ASC *)
Definition newest_first (r1 r2 : FScope) : Prop :=
  CreatedAt r2 < CreatedAt r1 ∨ (CreatedAt r1 = CreatedAt r2 ∧ (ID r1 ≤ ID r2)%N).
#[global] Instance newest_first_dec : RelDecision newest_first.
Proof. intros r1 r2. unfold newest_first. apply _. Defined.

Definition ListFrameworkScopes (tenantID : UUID) (d : DB) : list FScope :=
  merge_sort newest_first
    (select_where (λ r, bool_decide (TenantID r = tenantID)) (framework_scopes d)).

Definition ListFrameworkScopesByFrameworkVersion (tenantID fv : UUID) (d : DB) : list FScope :=
  merge_sort newest_first
    (select_where (λ r, bool_decide (TenantID r = tenantID) && bool_decide (FrameworkVersionID r = fv))
       (framework_scopes d)).

Definition active_for (tenantID fv : UUID) (r : FScope) : bool :=
  bool_decide (TenantID r = tenantID) && bool_decide (FrameworkVersionID r = fv) &&
  in_state StateActivated r.

Definition GetActivatedFrameworkScope (tenantID fv : UUID) : Tx DB QueryErr FScope := λ d,
  match select_where (active_for tenantID fv) (framework_scopes d) with
  | [] => (Err NoRows, d)
  | r :: _ => (Ok r, d)
  end.

Definition effective_at (tenantID fv : UUID) (t : Time) (r : FScope) : bool :=
  bool_decide (TenantID r = tenantID) && bool_decide (FrameworkVersionID r = fv) &&
  match EffectiveFrom r with Some e => bool_decide (e ≤ t) | None => false end &&
  match SupersededAt r with Some s => bool_decide (t < s) | None => true end.

(** ORDER BY effective_from DESC, id ASC *)
Definition latest_first (r1 r2 : FScope) : Prop :=
  default 0 (EffectiveFrom r2) < default 0 (EffectiveFrom r1) ∨
  (default 0 (EffectiveFrom r1) = default 0 (EffectiveFrom r2) ∧ (ID r1 ≤ ID r2)%N).
#[global] Instance latest_first_dec : RelDecision latest_first.
Proof. intros r1 r2. unfold latest_first. apply _. Defined.

Definition GetFrameworkScopeAsOf (tenantID fv : UUID) (t : Time) : Tx DB QueryErr FScope := λ d,
  match merge_sort latest_first (select_where (effective_at tenantID fv t) (framework_scopes d)) with
  | [] => (Err NoRows, d)
  | r :: _ => (Ok r, d)
  end.

Definition submit_row (now : Time) (r : FScope) : FScope :=
  mkScope (ID r) (TenantID r) (FrameworkVersionID r) (Name r) StateReview (Predicate r) (PredicateHash r)
    (ApproverUserID r) (ApprovedAt r) (PredicateHashAtApproval r)
    (ApprovalEvidenceFileURL r) (ApprovalEvidenceFileHash r)
    (EffectiveFrom r) (SupersededBy r) (SupersededAt r) (CreatedAt r) now.

Definition SubmitFrameworkScope (now : Time) (tenantID id : UUID) : Tx DB QueryErr FScope :=
  update_one (λ r, at_key tenantID id r && in_state StateDraft r) (submit_row now).

Definition approve_row (now : Time) (approver : option UUID) (url hash : option string) (r : FScope) : FScope :=
  mkScope (ID r) (TenantID r) (FrameworkVersionID r) (Name r) StateApproved (Predicate r) (PredicateHash r)
    approver (Some now) (Some (PredicateHash r)) url hash
    (EffectiveFrom r) (SupersededBy r) (SupersededAt r) (CreatedAt r) now.

Definition ApproveFrameworkScope (now : Time) (tenantID id : UUID) (approver : option UUID)
    (url hash : option string) : Tx DB QueryErr FScope :=
  update_one (λ r, at_key tenantID id r && in_state StateReview r) (approve_row now approver url hash).

Definition activate_row (now effectiveFrom : Time) (r : FScope) : FScope :=
  mkScope (ID r) (TenantID r) (FrameworkVersionID r) (Name r) StateActivated (Predicate r) (PredicateHash r)
    (ApproverUserID r) (ApprovedAt r) (PredicateHashAtApproval r)
    (ApprovalEvidenceFileURL r) (ApprovalEvidenceFileHash r)
    (Some effectiveFrom) (SupersededBy r) (SupersededAt r) (CreatedAt r) now.

Definition ActivateFrameworkScope (now : Time) (tenantID id : UUID) (effectiveFrom : Time)
  : Tx DB QueryErr FScope :=
  update_one (λ r, at_key tenantID id r && in_state StateApproved r) (activate_row now effectiveFrom).

Definition supersede_row (now : Time) (by_ : UUID) (r : FScope) : FScope :=
  mkScope (ID r) (TenantID r) (FrameworkVersionID r) (Name r) StateSuperseded (Predicate r) (PredicateHash r)
    (ApproverUserID r) (ApprovedAt r) (PredicateHashAtApproval r)
    (ApprovalEvidenceFileURL r) (ApprovalEvidenceFileHash r)
    (EffectiveFrom r) (Some by_) (Some now) (CreatedAt r) now.

Definition supersedable (tenantID fv by_ : UUID) (r : FScope) : bool :=
  active_for tenantID fv r && bool_decide (ID r ≠ by_).

(** [:exec]; the foreign key on [superseded_by] is checked when a row changes. *)
Definition SupersedePreviousActivated (now : Time) (tenantID fv by_ : UUID) : Tx DB QueryErr () := λ d,
  let p := supersedable tenantID fv by_ in
  let g r := bounce r (supersede_row now by_ r) in
  if bool_decide (select_where p (framework_scopes d) = []) ||
     bool_decide (by_ ∈ (ID <$> framework_scopes d))
  then (Ok (), mkDB (update_where p g (framework_scopes d)) (framework_versions d))
  else (Err PgForeignKey, d).

(** ** The store *)

Record Env := mkEnv { env_ctx : Context; env_infra : Infra; env_now : Time }.

Record CreateRequest := mkCreate {
  req_FrameworkVersionID : UUID;
  req_Name : string;
  req_Predicate : string;
}.

Record ApproveRequest := mkApprove {
  apr_ID : UUID;
  apr_ApproverUserID : string;
  apr_EvidenceFileURL : string;
  apr_EvidenceFileHash : string;
}.

Record ListFilters := mkFilters { flt_FrameworkVersionID : option UUID; flt_State : string }.

Definition rowToScope (r : FScope) : FScope := r.

Section Store.
Context {UT : UUIDText} {JB : JsonB}.

Definition inTx {A} (env : Env) (fn : UUID → Tx DB Error A) : Tx DB Error A :=
  Tenancy.inTx (env_infra env) (env_ctx env) fn.

Definition Create (env : Env) (id : UUID) (req : CreateRequest) : Tx DB Error FScope :=
  match Canonicalize (req_Predicate req) with
  | Err e => tx_fail e
  | Ok (canon, hash) =>
      match Validate canon with
      | Err e => tx_fail e
      | Ok _ =>
          inTx env (λ tenantID,
            tx_try (CreateFrameworkScope (env_now env) id tenantID (req_FrameworkVersionID req)
                      (req_Name req) canon hash)
              (λ r, match r with
                    | Err _ => tx_fail (ErrWrap "create framework_scope")
                    | Ok row => mret (rowToScope row)
                    end))
      end
  end.

(** The second component is [invalidated]. *)
Definition UpdatePredicate (env : Env) (id : UUID) (predicate : string) : Tx DB Error (FScope * bool) :=
  match Canonicalize predicate with
  | Err e => tx_fail e
  | Ok (canon, hash) =>
      match Validate canon with
      | Err e => tx_fail e
      | Ok _ =>
          inTx env (λ tenantID,
            tx_try (GetFrameworkScopeByID tenantID id)
              (λ g, match g with
                    | Err NoRows => tx_fail ErrNotFound
                    | Err _ => tx_fail (ErrWrap "get framework_scope")
                    | Ok before =>
                        tx_try (UpdateFrameworkScopePredicate (env_now env) tenantID id canon hash)
                          (λ u, match u with
                                | Err _ => tx_fail (ErrWrap "update predicate")
                                | Ok row =>
                                    mret (rowToScope row,
                                          bool_decide (PredicateHash before ≠ hash) &&
                                          (bool_decide (state before = StateReview) ||
                                           bool_decide (state before = StateApproved)) &&
                                          bool_decide (state row = StateDraft))
                                end)
                    end))
      end
  end.

Definition guardedTransition (env : Env) (id : UUID) (op : UUID → Tx DB QueryErr FScope)
  : Tx DB Error FScope :=
  inTx env (λ tenantID,
    tx_try (op tenantID)
      (λ r, match r with
            | Ok row => mret (rowToScope row)
            | Err NoRows =>
                tx_try (GetFrameworkScopeByID tenantID id)
                  (λ g, match g with
                        | Err NoRows => tx_fail ErrNotFound
                        | _ => tx_fail ErrWrongState
                        end)
            | Err _ => tx_fail (ErrWrap "transition")
            end)).

Definition Submit (env : Env) (id : UUID) : Tx DB Error FScope :=
  guardedTransition env id (λ tenantID, SubmitFrameworkScope (env_now env) tenantID id).

Definition nonempty (s : string) : option string := if bool_decide (s ≠ "") then Some s else None.

Definition Approve (env : Env) (req : ApproveRequest) : Tx DB Error FScope :=
  guardedTransition env (apr_ID req) (λ tenantID,
    ApproveFrameworkScope (env_now env) tenantID (apr_ID req) (uuid_Parse (apr_ApproverUserID req))
      (nonempty (apr_EvidenceFileURL req)) (nonempty (apr_EvidenceFileHash req))).

Definition Activate (env : Env) (id : UUID) (effectiveFrom : Time) : Tx DB Error FScope :=
  inTx env (λ tenantID,
    tx_try (GetFrameworkScopeByID tenantID id)
      (λ g, match g with
            | Err NoRows => tx_fail ErrNotFound
            | Err _ => tx_fail (ErrWrap "get framework_scope")
            | Ok before =>
                if bool_decide (state before ≠ StateApproved) then tx_fail ErrWrongState
                else
                  tx_try (SupersedePreviousActivated (env_now env) tenantID (FrameworkVersionID before) id)
                    (λ s, match s with
                          | Err _ => tx_fail (ErrWrap "supersede prior")
                          | Ok _ =>
                              tx_try (ActivateFrameworkScope (env_now env) tenantID id effectiveFrom)
                                (λ a, match a with
                                      | Err PgUnique => tx_fail ErrAnotherActivated
                                      | Err _ => tx_fail (ErrWrap "activate")
                                      | Ok row => mret (rowToScope row)
                                      end)
                          end)
            end)).

(** The shared tail of the three single-row reads. *)
Definition found (what : string) (r : result QueryErr FScope) : Tx DB Error FScope :=
  match r with
  | Err NoRows => tx_fail ErrNotFound
  | Err _ => tx_fail (ErrWrap what)
  | Ok row => mret (rowToScope row)
  end.

Definition Get (env : Env) (id : UUID) : Tx DB Error FScope :=
  inTx env (λ tenantID, tx_try (GetFrameworkScopeByID tenantID id) (found "get framework_scope")).

Definition Activated (env : Env) (fv : UUID) : Tx DB Error FScope :=
  inTx env (λ tenantID, tx_try (GetActivatedFrameworkScope tenantID fv) (found "get activated")).

Definition AsOf (env : Env) (fv : UUID) (t : Time) : Tx DB Error FScope :=
  inTx env (λ tenantID, tx_try (GetFrameworkScopeAsOf tenantID fv t) (found "get as_of")).

Definition ListScopes (env : Env) (f : ListFilters) : Tx DB Error (list FScope) :=
  inTx env (λ tenantID,
    rows ← tx_gets (match flt_FrameworkVersionID f with
                    | Some fv => ListFrameworkScopesByFrameworkVersion tenantID fv
                    | None => ListFrameworkScopes tenantID
                    end);
    mret (map rowToScope
            (select_where (λ r, negb (bool_decide (flt_State f ≠ "") &&
                                      bool_decide (state_text (state r) ≠ flt_State f))) rows))).
End Store.
End FrameworkScope.
