(* ===== verification/FrameworkScopeSpec.v ===== *)
(** * What the framework-scope workflow promises

    The approval workflow as a state machine on rows, its invariant over every
    sequence of requests, the effect of activation, and what the predicate
    functions compute; with two places where the code falls short of ADR 0001. *)

From Stdlib Require Import Ascii.
From S2P Require Import Prelude Tenancy Json Sha256 Scope ScopeSpec FrameworkScope.

Import FrameworkScope.

(** ** The machine *)

(** The identity of a row, which no statement changes. *)
Definition same_row (r r' : FScope) : Prop :=
  ID r' = ID r ∧ TenantID r' = TenantID r ∧ FrameworkVersionID r' = FrameworkVersionID r ∧
  Name r' = Name r ∧ CreatedAt r' = CreatedAt r.

Definition same_approval (r r' : FScope) : Prop :=
  ApproverUserID r' = ApproverUserID r ∧ ApprovedAt r' = ApprovedAt r ∧
  PredicateHashAtApproval r' = PredicateHashAtApproval r.

Definition no_approval (r : FScope) : Prop :=
  ApproverUserID r = None ∧ ApprovedAt r = None ∧ PredicateHashAtApproval r = None.

Definition same_successor (r r' : FScope) : Prop := SupersededBy r' = SupersededBy r.

Definition kept (r r' : FScope) : Prop := same_row r r' ∧ EffectiveFrom r' = EffectiveFrom r.

(** What may happen to a row: the edges of the lifecycle. *)
Inductive edge : FScope → FScope → Prop :=
| edge_stay r r' :
    kept r r' → same_approval r r' → same_successor r r' → state r' = state r →
    PredicateHash r' = PredicateHash r → edge r r'
| edge_edit r r' :
    kept r r' → same_approval r r' → same_successor r r' → state r' = state r →
    state r ≠ StateReview → state r ≠ StateApproved → edge r r'
| edge_bounce r r' :
    kept r r' → state r = StateReview ∨ state r = StateApproved →
    PredicateHash r' ≠ PredicateHash r → state r' = StateDraft → no_approval r' → edge r r'
| edge_submit r r' :
    kept r r' → same_approval r r' → PredicateHash r' = PredicateHash r →
    state r = StateDraft → state r' = StateReview → edge r r'
| edge_approve r r' :
    kept r r' → PredicateHash r' = PredicateHash r →
    state r = StateReview → state r' = StateApproved →
    PredicateHashAtApproval r' = Some (PredicateHash r) → is_Some (ApprovedAt r') → edge r r'
| edge_activate r r' :
    same_row r r' → same_approval r r' → PredicateHash r' = PredicateHash r →
    state r = StateApproved → state r' = StateActivated → is_Some (EffectiveFrom r') → edge r r'
| edge_supersede r r' :
    kept r r' → same_approval r r' → PredicateHash r' = PredicateHash r →
    state r = StateActivated → state r' = StateSuperseded → edge r r'.

(** ** Operations *)

Inductive op :=
| OpCreate (id : UUID) (req : CreateRequest)
| OpUpdate (id : UUID) (predicate : string)
| OpSubmit (id : UUID)
| OpApprove (req : ApproveRequest)
| OpActivate (id : UUID) (effectiveFrom : Time).

Section Spec.
Context {UT : UUIDText} {JB : JsonB}.

Definition exec (env : Env) (o : op) (d : DB) : DB :=
  match o with
  | OpCreate id req => (Create env id req d).2
  | OpUpdate id p => (UpdatePredicate env id p d).2
  | OpSubmit id => (Submit env id d).2
  | OpApprove req => (Approve env req d).2
  | OpActivate id t => (Activate env id t d).2
  end.

Definition fs_step (d d' : DB) : Prop := ∃ env o, d' = exec env o d.

(** ** Statement lemmas *)

Lemma same_row_refl r : same_row r r.
Proof using. done. Qed.

Lemma edge_refl r : edge r r.
Proof using. by apply edge_stay. Qed.

Lemma bounce_row r f : same_row r (f r) → same_row r (bounce r (f r)).
Proof using. unfold bounce. intros H. by case_match. Qed.

(** A statement that keeps the predicate hash never bounces. *)
Lemma bounce_same_hash r r' : PredicateHash r' = PredicateHash r → bounce r r' = r'.
Proof using. intros H. unfold bounce. by rewrite bool_decide_eq_false_2 by naive_solver. Qed.

Lemma update_one_cases p f d r d' :
  update_one p f d = (r, d') →
  (∃ e, r = Err e ∧ d' = d) ∨
  (∃ row, r = Ok (bounce row (f row)) ∧ row ∈ framework_scopes d ∧ p row = true ∧
     framework_scopes d' = update_where p (λ r, bounce r (f r)) (framework_scopes d) ∧
     NoDup (active_keys (framework_scopes d'))).
Proof using.
  unfold update_one, updated_rows. intros H.
  destruct (select_where p (framework_scopes d)) as [|row rows] eqn:E; [simplify_eq/=; eauto|].
  cbn in H. case_bool_decide; [|simplify_eq; eauto]. right. injection H as <- <-. exists row.
  assert (Hrow : row ∈ select_where p (framework_scopes d)) by (rewrite E; left).
  apply elem_of_select_where in Hrow as [Hp Hin]. done.
Qed.

Lemma set_predicate_edge now p h r : edge r (bounce r (set_predicate now p h r)).
Proof using.
  destruct (decide (h = PredicateHash r)) as [->|Hne].
  { rewrite bounce_same_hash by done. by apply edge_stay. }
  destruct (decide (state r = StateReview ∨ state r = StateApproved)) as [Hs|Hs].
  - apply edge_bounce; try done; unfold bounce; simpl; rewrite bool_decide_eq_true_2 by done; simpl;
      destruct Hs as [-> | ->]; done.
  - apply Decidable.not_or in Hs as [H1 H2]. apply edge_edit; try done; unfold bounce; simpl;
      rewrite (bool_decide_eq_false_2 (state r = StateReview)),
        (bool_decide_eq_false_2 (state r = StateApproved)), andb_false_r by done; done.
Qed.

Lemma submit_edge now r : state r = StateDraft → edge r (bounce r (submit_row now r)).
Proof using. intros. rewrite bounce_same_hash by done. by apply edge_submit. Qed.

Lemma approve_edge now a u h r : state r = StateReview → edge r (bounce r (approve_row now a u h r)).
Proof using. intros. rewrite bounce_same_hash by done. by apply edge_approve. Qed.

Lemma activate_edge now e r : state r = StateApproved → edge r (bounce r (activate_row now e r)).
Proof using. intros. rewrite bounce_same_hash by done. by apply edge_activate. Qed.

Lemma supersede_edge now b r : state r = StateActivated → edge r (bounce r (supersede_row now b r)).
Proof using. intros. rewrite bounce_same_hash by done. by apply edge_supersede. Qed.

Lemma in_state_eq s r : in_state s r = true ↔ state r = s.
Proof using. apply bool_decide_eq_true. Qed.

(** ** One request *)

(** The row's predicate is the stored form of a valid canonical text, and its hash
    is the SHA-256 of that text. *)
Definition hashed (r : FScope) : Prop :=
  ∃ predicate canon, Canonicalize predicate = Ok (canon, sha256_hex canon) ∧ Validate canon = Ok () ∧
    jsonb_in canon = Some (Predicate r) ∧ PredicateHash r = sha256_hex canon.

(** [s] replaced [r]: another scope of the same tenant and framework version. *)
Definition replaced_by (r s : FScope) : Prop :=
  SupersededBy r = Some (ID s) ∧ ID s ≠ ID r ∧ TenantID s = TenantID r ∧ FrameworkVersionID s = FrameworkVersionID r.

(** What a request makes of a row in the table [d'] it leaves: the row moves along
    an edge, stays hashed, and names its successor when it is superseded. *)
Definition moves (d' : DB) (r r' : FScope) : Prop :=
  edge r r' ∧ (hashed r → hashed r') ∧
  (state r ≠ StateSuperseded → state r' = StateSuperseded →
     ∃ s, s ∈ framework_scopes d' ∧ replaced_by r' s ∧ state s = StateActivated).

(** What a request does to the table: it may move rows, or add one draft. *)
Definition advances (d d' : DB) : Prop :=
  d' = d ∨
  (Forall2 (moves d') (framework_scopes d) (framework_scopes d') ∧ NoDup (active_keys (framework_scopes d'))) ∨
  (∃ r, framework_scopes d' = framework_scopes d ++ [r] ∧ state r = StateDraft ∧ no_approval r ∧
        EffectiveFrom r = None ∧ SupersededAt r = None ∧ ¬ (ID r ∈ (ID <$> framework_scopes d)) ∧ hashed r).

Lemma Ok_pair_inj {A B} (a a' : A) (b b' : B) : Ok (E := Error) (a, b) = Ok (a', b') → a = a' ∧ b = b'.
Proof using. by intros [= -> ->]. Qed.

Lemma Canonicalize_hash p canon h : Canonicalize p = Ok (canon, h) → h = sha256_hex canon.
Proof using.
  unfold Canonicalize. destruct (_ || _); [intros [<- <-]%Ok_pair_inj; reflexivity|].
  destruct (decode_first _); [|done]. intros [<- <-]%Ok_pair_inj. reflexivity.
Qed.

Lemma hashed_eq r r' :
  Predicate r' = Predicate r → PredicateHash r' = PredicateHash r → hashed r → hashed r'.
Proof using. unfold hashed. by intros -> ->. Qed.

Lemma bounce_predicate r r' : Predicate (bounce r r') = Predicate r' ∧ PredicateHash (bounce r r') = PredicateHash r'.
Proof using. unfold bounce. by case_match. Qed.

Lemma bounce_state r r' : state (bounce r r') = state r' ∨ state (bounce r r') = StateDraft.
Proof using. unfold bounce. case_match; auto. Qed.

Lemma update_moves (p : FScope → bool) (f : FScope → FScope) d' t :
  (∀ r, r ∈ t → p r = true → moves d' r (f r)) → Forall2 (moves d') t (update_where p f t).
Proof using.
  intros H. induction t as [|r t IH]; [constructor|]. simpl. constructor.
  - destruct (p r) eqn:E; [apply H; [left|done]|]. by split; [apply edge_refl|].
  - apply IH. intros. apply H; [by right|done].
Qed.

Lemma update_one_advances p f d r d' :
  (∀ r, r ∈ framework_scopes d → p r = true → edge r (bounce r (f r))) →
  (∀ r, hashed r → hashed (f r)) → (∀ r, state (f r) = StateSuperseded → state r = StateSuperseded) →
  update_one p f d = (r, d') → advances d d'.
Proof using.
  intros He Hh Hs H. apply update_one_cases in H as [(e & _ & ->)|(row & _ & _ & _ & E & Hn)]; [by left|].
  right. left. split; [|done]. rewrite E. apply update_moves. intros x Hx Hp. split; [auto|]. split.
  - intros Hx'%Hh. by eapply hashed_eq; [apply bounce_predicate..|].
  - intros Hne. destruct (bounce_state x (f x)) as [->| ->]; [|done]. by intros ?%Hs.
Qed.

Lemma guarded_advances env id (o : UUID → Tx DB QueryErr FScope) d r d' :
  (∀ t q d1, o t d = (q, d1) → advances d d1) →
  guardedTransition env id o d = (r, d') → advances d d'.
Proof using.
  intros Ho H. apply (Tenancy.inTx_cases (λ d, d)) in H as [(t & c & _ & -> & H)|(e & -> & ->)]; [|by left].
  unfold tx_try in H. destruct (o t d) as [q d1] eqn:E. apply Ho in E.
  destruct q as [row|[]]; [by injection H as <- <-|..]; try done.
  unfold GetFrameworkScopeByID in H. by destruct (select_where _ _).
Qed.

Lemma Submit_advances env id d r d' : Submit env id d = (r, d') → advances d d'.
Proof using.
  apply guarded_advances. intros t q d1. apply update_one_advances.
  - intros x _ [_ Hs%in_state_eq]%andb_true_iff. by apply submit_edge.
  - intros x. by apply hashed_eq.
  - done.
Qed.

Lemma Approve_advances env req d r d' : Approve env req d = (r, d') → advances d d'.
Proof using.
  apply guarded_advances. intros t q d1. apply update_one_advances.
  - intros x _ [_ Hs%in_state_eq]%andb_true_iff. by apply approve_edge.
  - intros x. by apply hashed_eq.
  - done.
Qed.

Lemma Update_advances env id p d r d' : UpdatePredicate env id p d = (r, d') → advances d d'.
Proof using.
  unfold UpdatePredicate. destruct (Canonicalize p) as [[canon h]|] eqn:Hc; [|by intros [= <- <-]; left].
  destruct (Validate canon) as [[]|] eqn:Hv; [|by intros [= <- <-]; left]. intros H.
  apply (Tenancy.inTx_cases (λ d, d)) in H as [(t & c & _ & -> & H)|(e & -> & ->)]; [|by left].
  unfold tx_try, GetFrameworkScopeByID in H. destruct (select_where _ _) as [|before rest]; [done|].
  destruct (UpdateFrameworkScopePredicate _ _ _ _ _ d) as [[row|e] d1] eqn:E; [|done].
  injection H as <- <-. unfold UpdateFrameworkScopePredicate in E.
  destruct (jsonb_in canon) eqn:Hj; [|done]. eapply update_one_advances; [| | |exact E].
  - intros x _ _. apply set_predicate_edge.
  - intros x _. pose proof (Canonicalize_hash _ _ _ Hc) as ->. by exists p, canon.
  - done.
Qed.

Lemma Create_advances env id req d r d' : Create env id req d = (r, d') → advances d d'.
Proof using.
  unfold Create. destruct (Canonicalize _) as [[canon h]|] eqn:Hc; [|by intros [= <- <-]; left].
  destruct (Validate canon) as [[]|] eqn:Hv; [|by intros [= <- <-]; left]. intros H.
  apply (Tenancy.inTx_cases (λ d, d)) in H as [(t & c & _ & -> & H)|(e & -> & ->)]; [|by left].
  unfold tx_try, CreateFrameworkScope in H. destruct (jsonb_in canon) eqn:Hj; [|done].
  repeat case_bool_decide; try done. injection H as <- <-. right. right.
  eexists. split; [reflexivity|]. pose proof (Canonicalize_hash _ _ _ Hc) as ->. split_and!; try done.
  by exists (req_Predicate req), canon.
Qed.

(** Activation in one table update. *)
Definition activation (now : Time) (t fv id : UUID) (eff : Time) (r : FScope) : FScope :=
  if supersedable t fv id r then supersede_row now id r
  else if at_key t id r && in_state StateApproved r then activate_row now eff r else r.

Lemma activation_edge now t fv id eff r : edge r (activation now t fv id eff r).
Proof using.
  unfold activation. destruct (supersedable t fv id r) eqn:E1.
  { unfold supersedable, active_for in E1. rewrite !andb_true_iff, in_state_eq in E1.
    rewrite <- (bounce_same_hash r (supersede_row now id r)) by done. apply supersede_edge, E1. }
  destruct (at_key t id r && in_state StateApproved r) eqn:E2; [|apply edge_refl].
  apply andb_true_iff in E2 as [_ E2%in_state_eq].
  rewrite <- (bounce_same_hash r (activate_row now eff r)) by done. by apply activate_edge.
Qed.

(** The two statements of an activation, one after the other. *)
Lemma activation_tables now t fv id eff l :
  update_where (λ r, at_key t id r && in_state StateApproved r) (λ r, bounce r (activate_row now eff r))
    (update_where (supersedable t fv id) (λ r, bounce r (supersede_row now id r)) l) =
  map (activation now t fv id eff) l.
Proof using.
  unfold update_where. rewrite map_map. apply map_ext. intros r. unfold activation.
  destruct (supersedable t fv id r) eqn:Es.
  - rewrite bounce_same_hash by done. unfold in_state at 1. by rewrite andb_false_r.
  - destruct (at_key t id r && in_state StateApproved r); [|done]. by apply bounce_same_hash.
Qed.

(** A successful activation found the row approved, superseded the active row
    of its framework version and activated it, in one table update. *)
Lemma Activate_Ok env id eff d row d' :
  Activate env id eff d = (Ok row, d') →
  ∃ t before, tenant_of (env_ctx env) = Some t ∧ before ∈ framework_scopes d ∧
    at_key t id before = true ∧ state before = StateApproved ∧
    framework_scopes d' = map (activation (env_now env) t (FrameworkVersionID before) id eff) (framework_scopes d) ∧
    NoDup (active_keys (framework_scopes d')) ∧
    ∃ r0, r0 ∈ framework_scopes d ∧ at_key t id r0 = true ∧ state r0 = StateApproved ∧
          row = activate_row (env_now env) eff r0.
Proof using.
  intros H. apply (Tenancy.inTx_cases (λ d, d)) in H as [(t & c & Ht & [= <-] & H)|(e & ? & _)]; [|done].
  unfold tx_try, GetFrameworkScopeByID in H.
  destruct (select_where (at_key t id) (framework_scopes d)) as [|before rest] eqn:E; [done|].
  assert (Hb : before ∈ select_where (at_key t id) (framework_scopes d)) by (rewrite E; left).
  apply elem_of_select_where in Hb as [Hk Hin].
  destruct (bool_decide_reflect (state before ≠ StateApproved)) as [?|Hs]; [done|].
  apply dec_stable in Hs. exists t, before. do 4 (split; [done|]).
  unfold SupersedePreviousActivated in H. destruct (_ || _); [|done].
  destruct (ActivateFrameworkScope _ _ _ _ _) as [q d2] eqn:Ea.
  assert (q = Ok row ∧ d2 = d') as [-> ->] by (destruct q as [|[]]; [injection H as <- <-; by split|done..]).
  clear H.
  apply update_one_cases in Ea as [(e & ? & _)|(r1 & [= Hrow] & Hr1 & Hp & E2 & Hn)]; [done|].
  cbn [framework_scopes] in E2, Hr1. split; [|split; [done|]].
  - rewrite E2. apply activation_tables.
  - apply andb_true_iff in Hp as [Hk1 Hs1%in_state_eq].
    apply elem_of_update_where in Hr1 as (r0 & Hr0 & E0).
    destruct (supersedable _ _ _ r0).
    { rewrite bounce_same_hash in E0 by done. by subst. }
    subst r1. exists r0. split_and!; [done..|]. rewrite Hrow. by apply bounce_same_hash.
Qed.

Lemma activation_hashed now t fv id eff r : hashed r → hashed (activation now t fv id eff r).
Proof using. unfold activation. destruct (supersedable _ _ _ _); [by apply hashed_eq|]. destruct (_ && _); [by apply hashed_eq|done]. Qed.

(** The scope that was approved takes over. *)
Lemma activation_before now t fv id eff before :
  at_key t id before = true → state before = StateApproved → activation now t fv id eff before = activate_row now eff before.
Proof using.
  intros Hk Hs. unfold activation, supersedable, active_for, in_state.
  rewrite Hk, Hs, (bool_decide_eq_false_2 (StateApproved = StateActivated)), andb_false_r by done. done.
Qed.

Lemma activation_superseded now t fv id eff r :
  state r ≠ StateSuperseded → state (activation now t fv id eff r) = StateSuperseded →
  TenantID r = t ∧ FrameworkVersionID r = fv ∧ ID r ≠ id ∧ activation now t fv id eff r = supersede_row now id r.
Proof using.
  intros Hne. unfold activation. destruct (supersedable t fv id r) eqn:E; [intros _|by destruct (_ && _)].
  unfold supersedable, active_for in E. rewrite !andb_true_iff, !bool_decide_eq_true in E. naive_solver.
Qed.

Lemma Activate_advances env id eff d r d' : Activate env id eff d = (r, d') → advances d d'.
Proof using.
  intros H. destruct r as [row|e].
  - apply Activate_Ok in H as (t & before & _ & Hin & Hk & Hs & E & Hn & _). right. left. split; [|done].
    rewrite E. apply Forall2_fmap_r. apply Forall_Forall2_diag, Forall_true. intros x. unfold compose.
    split; [apply activation_edge|]. split; [apply activation_hashed|].
    intros Hx Hx'. destruct (activation_superseded _ _ _ _ _ _ Hx Hx') as (<- & Hfv & Hid & ->).
    exists (activate_row (env_now env) eff before). split.
    + rewrite E, <- (activation_before _ _ (FrameworkVersionID before) _ eff _ Hk Hs). by apply list_elem_of_fmap_2.
    + unfold at_key in Hk. rewrite andb_true_iff, !bool_decide_eq_true in Hk. destruct Hk as [Ht Hi].
      split; [|done]. unfold replaced_by. cbn. split_and!; congruence.
  - apply (Tenancy.inTx_cases (λ d, d)) in H as [(? & ? & _ & ? & _)|(? & _ & ->)]; [done|by left].
Qed.

Lemma exec_advances env o d : advances d (exec env o d).
Proof using.
  destruct o; simpl.
  - destruct (Create env id req d) eqn:E. by eapply Create_advances.
  - destruct (UpdatePredicate env id predicate d) eqn:E. by eapply Update_advances.
  - destruct (Submit env id d) eqn:E. by eapply Submit_advances.
  - destruct (Approve env req d) eqn:E. by eapply Approve_advances.
  - destruct (Activate env id effectiveFrom d) eqn:E. by eapply Activate_advances.
Qed.

(** ** The invariant *)

Definition row_ok (r : FScope) : Prop :=
  match state r with
  | StateDraft | StateReview => no_approval r ∧ EffectiveFrom r = None
  | StateApproved =>
      is_Some (ApprovedAt r) ∧ PredicateHashAtApproval r = Some (PredicateHash r) ∧ EffectiveFrom r = None
  | StateActivated | StateSuperseded =>
      is_Some (ApprovedAt r) ∧ is_Some (PredicateHashAtApproval r) ∧ is_Some (EffectiveFrom r)
  end.

(** Every superseded scope was replaced by one that is in force or was. *)
Definition succession (d : DB) : Prop :=
  ∀ r, r ∈ framework_scopes d → state r = StateSuperseded →
  ∃ s, s ∈ framework_scopes d ∧ replaced_by r s ∧ (state s = StateActivated ∨ state s = StateSuperseded).

Definition FInv (d : DB) : Prop :=
  NoDup (ID <$> framework_scopes d) ∧ NoDup (active_keys (framework_scopes d)) ∧
  Forall row_ok (framework_scopes d) ∧ Forall hashed (framework_scopes d) ∧ succession d.

Lemma edge_row_ok r r' : edge r r' → row_ok r → row_ok r'.
Proof using.
  unfold row_ok, same_approval, no_approval, kept.
  destruct 1 as [r r' [_ He] (Ha & Hb & Hc) _ Hs Hh|r r' [_ He] (Ha & Hb & Hc) _ Hs Hn1 Hn2
                |r r' [_ He] Hor Hh Hs Hno|r r' [_ He] (Ha & Hb & Hc) Hh Hs Hs'
                |r r' [_ He] Hh Hs Hs' Hc Hb|r r' _ (Ha & Hb & Hc) Hh Hs Hs' He
                |r r' [_ He] (Ha & Hb & Hc) Hh Hs Hs'].
  - by rewrite Ha, Hb, Hc, Hs, Hh, He.
  - rewrite Ha, Hb, Hc, Hs, He. by destruct (state r).
  - rewrite Hs, He. destruct Hor as [-> | ->]; [by intros [_ ->]|by intros (_ & _ & ->)].
  - rewrite Ha, Hb, Hc, He, Hs, Hs'. done.
  - rewrite Hc, Hs, Hs', Hh, He. by intros [_ ->].
  - rewrite Hb, Hc, Hs, Hs'. intros (? & -> & _). eauto.
  - rewrite Hb, Hc, He, Hs, Hs'. done.
Qed.

Lemma edge_id r r' : edge r r' → ID r' = ID r.
Proof using. destruct 1; unfold kept, same_row in *; intuition congruence. Qed.

Lemma active_keys_draft t r : state r = StateDraft → active_keys (t ++ [r]) = active_keys t.
Proof using.
  intros H. unfold active_keys, select_where. rewrite filter_app.
  rewrite (filter_cons_False _ r), filter_nil, app_nil_r; [done|]. by rewrite H.
Qed.

Lemma edge_same_row r r' : edge r r' → same_row r r'.
Proof using. destruct 1; unfold kept in *; tauto. Qed.

(** Scopes in force or superseded only become superseded. *)
Lemma edge_retired r r' :
  edge r r' → state r = StateActivated ∨ state r = StateSuperseded → state r' = StateActivated ∨ state r' = StateSuperseded.
Proof using. destruct 1; intros [?|?]; try (rewrite <- H2 in *); naive_solver congruence. Qed.

Lemma edge_successor r r' :
  edge r r' → state r = StateSuperseded → state r' = StateSuperseded ∧ SupersededBy r' = SupersededBy r.
Proof using. destruct 1; intros Hs; unfold same_successor in *; try (by split; congruence); naive_solver congruence. Qed.

Lemma moved_succession d d' :
  Forall2 (moves d') (framework_scopes d) (framework_scopes d') → succession d → succession d'.
Proof using.
  intros Hm Hsc r' Hr' Hs. apply list_elem_of_lookup in Hr' as [i Hi].
  destruct (Forall2_lookup_r _ _ _ _ _ Hm Hi) as (r & Hr & He & _ & Hnew).
  destruct (decide (state r = StateSuperseded)) as [Hold|Hold]; [|destruct (Hnew Hold Hs) as (s & ? & ? & ?); eauto].
  destruct (Hsc r (list_elem_of_lookup_2 _ _ _ Hr) Hold) as (s & Hin & (H1 & H2 & H3 & H4) & Hst).
  apply list_elem_of_lookup in Hin as [k Hk]. destruct (Forall2_lookup_l _ _ _ _ _ Hm Hk) as (s' & Hs' & Hes & _).
  exists s'. split; [by eapply list_elem_of_lookup_2|]. split; [|by eapply edge_retired].
  destruct (edge_successor _ _ He Hold) as [_ Hsb], (edge_same_row _ _ He) as (E1 & E2 & E3 & _),
    (edge_same_row _ _ Hes) as (F1 & F2 & F3 & _). unfold replaced_by. split_and!; congruence.
Qed.

Lemma moved_rows d' t t' (Q : FScope → Prop) :
  Forall2 (moves d') t t' → (∀ r r', moves d' r r' → Q r → Q r') → Forall Q t → Forall Q t'.
Proof using.
  intros Hm HQ. induction Hm; [done|]. intros [? ?]%Forall_cons. constructor; [by eapply HQ|auto].
Qed.

Lemma advances_inv d d' : advances d d' → FInv d → FInv d'.
Proof using.
  intros [->|[[Hm Hn]|(r & E & Hs & Ha & Heff & _ & Hid & Hh)]] (H1 & H2 & H3 & H4 & H5); [done|..].
  - split_and!; [|done| | |by eapply moved_succession].
    + replace (ID <$> framework_scopes d') with (ID <$> framework_scopes d); [done|].
      clear -Hm. revert Hm. generalize (moves d'), (λ r r' (H : moves d' r r'), edge_id r r' (proj1 H)).
      intros R HR. induction 1; csimpl; [done|]. f_equal; [symmetry; auto|done].
    + apply (moved_rows d' _ _ row_ok Hm); [|done]. intros r r' [He _]. by apply edge_row_ok.
    + apply (moved_rows d' _ _ hashed Hm); [|done]. intros r r' (_ & Hr & _). done.
  - unfold FInv. rewrite E. split_and!.
    + rewrite fmap_app. apply NoDup_app. split_and!; [done| |apply NoDup_singleton].
      intros x Hx ->%list_elem_of_singleton. done.
    + by rewrite active_keys_draft.
    + apply Forall_app. split; [done|]. apply Forall_singleton. unfold row_ok. by rewrite Hs.
    + apply Forall_app. split; [done|]. by apply Forall_singleton.
    + unfold succession. rewrite E. intros x [Hx| ->%list_elem_of_singleton]%elem_of_app Hx'; [|congruence].
      destruct (H5 x Hx Hx') as (y & Hy & ?). exists y. split; [|done]. apply elem_of_app. by left.
Qed.

(** A database no framework scope was created in yet. *)
Definition fresh (d : DB) : Prop := framework_scopes d = [].

Lemma exec_inv env o d : FInv d → FInv (exec env o d).
Proof using. apply advances_inv, exec_advances. Qed.

Lemma reachable_inv d0 d : fresh d0 → rtc fs_step d0 d → FInv d.
Proof using.
  intros H0 H. assert (FInv d0) as Hi.
  { unfold FInv, succession. rewrite H0. split_and!; try constructor. by intros r ?%elem_of_nil. }
  clear H0. induction H as [|d0 d1 d [env [o ->]] _ IH]; [done|]. by apply IH, exec_inv.
Qed.

(** Where a row in force or superseded comes from. *)
Lemma edge_into_force r r' :
  edge r r' → state r' = StateActivated ∨ state r' = StateSuperseded →
  same_approval r r' ∧ (state r = StateApproved ∨ state r = StateActivated ∨ state r = StateSuperseded).
Proof using. destruct 1; intros [?|?]; naive_solver congruence. Qed.

(** A scope in force or superseded was approved at some point of the run, and its
    approval columns are still those of that moment. *)
Lemma was_approved d0 d r :
  rtc fs_step d0 d → fresh d0 → r ∈ framework_scopes d → state r = StateActivated ∨ state r = StateSuperseded →
  ∃ d1 r1, rtc fs_step d0 d1 ∧ rtc fs_step d1 d ∧ r1 ∈ framework_scopes d1 ∧ state r1 = StateApproved ∧
           same_row r1 r ∧ same_approval r1 r.
Proof using.
  intros Hd H0. revert r. pattern d. revert d Hd. apply rtc_ind_r; [|intros d d' Hd Hstep IH]; intros r' Hr' Hs.
  { unfold fresh in H0. rewrite H0 in Hr'. by apply elem_of_nil in Hr'. }
  assert (Hcase : (∃ r, r ∈ framework_scopes d ∧ edge r r')).
  { destruct Hstep as (env & o & ->). destruct (exec_advances env o d) as [E|[[Hm _]|(x & E & Hx & _)]].
    - rewrite E in Hr'. exists r'. by split; [|apply edge_refl].
    - apply list_elem_of_lookup in Hr' as [i Hi]. destruct (Forall2_lookup_r _ _ _ _ _ Hm Hi) as (r & Hr & He & _).
      exists r. split; [by eapply list_elem_of_lookup_2|done].
    - rewrite E in Hr'. apply elem_of_app in Hr' as [Hr'| ->%list_elem_of_singleton]; [|naive_solver congruence].
      exists r'. by split; [|apply edge_refl]. }
  destruct Hcase as (r & Hr & He). pose proof (edge_same_row _ _ He) as Hrow.
  destruct (edge_into_force _ _ He Hs) as [Hap [Ha|Hf]].
  - exists d, r. split_and!; try done. by apply rtc_once.
  - destruct (IH r Hr Hf) as (d1 & r1 & H1 & H2 & H3 & H4 & H5 & H6). exists d1, r1. split_and!; try done.
    + by eapply rtc_r.
    + unfold same_row in *. intuition congruence.
    + unfold same_approval in *. intuition congruence.
Qed.

(** Superseding the scope in force makes room for the next one: the index that
    allows one of them per tenant and framework version is never violated. *)
Lemma active_keys_spec t :
  NoDup (ID <$> t) →
  NoDup (active_keys t) ↔
  ∀ r r', r ∈ t → r' ∈ t → state r = StateActivated → state r' = StateActivated →
          TenantID r = TenantID r' → FrameworkVersionID r = FrameworkVersionID r' → r = r'.
Proof using.
  intros Hid. unfold active_keys. split.
  - intros Hn r r' Hr Hr' Hs Hs' Ht Hf.
    apply (NoDup_key_inj (λ r, (TenantID r, FrameworkVersionID r)) _ _ _ Hn);
      [by apply elem_of_select_where; rewrite bool_decide_eq_true_2..|congruence].
  - intros H. apply NoDup_fmap_2_strong.
    + intros r r' [Hs%bool_decide_eq_true Hr]%elem_of_select_where [Hs'%bool_decide_eq_true Hr']%elem_of_select_where [= Ht Hf]. by apply H.
    + unfold select_where. apply NoDup_filter. by eapply NoDup_fmap_1.
Qed.

Lemma activation_one_active now t id eff d before :
  NoDup (ID <$> framework_scopes d) → NoDup (active_keys (framework_scopes d)) →
  before ∈ framework_scopes d → at_key t id before = true → state before = StateApproved →
  NoDup (active_keys (map (activation now t (FrameworkVersionID before) id eff) (framework_scopes d))).
Proof using.
  intros Hid Hn Hb Hk Hs. set (act := activation _ _ _ _ _).
  assert (Hids : ∀ r, ID (act r) = ID r) by (intros r; apply edge_id, activation_edge).
  assert (Hnew : ∀ r, r ∈ framework_scopes d → state (act r) = StateActivated →
            r = before ∨ act r = r ∧ (TenantID r = t → FrameworkVersionID r = FrameworkVersionID before → False)).
  { intros r Hr. unfold act, activation. destruct (supersedable t (FrameworkVersionID before) id r) eqn:Es; [done|].
    unfold at_key in *. rewrite andb_true_iff, !bool_decide_eq_true in Hk. destruct Hk as [Ht Hi].
    destruct (bool_decide (TenantID r = t) && bool_decide (ID r = id) && in_state StateApproved r) eqn:Ea.
    - intros _. left. rewrite !andb_true_iff, !bool_decide_eq_true in Ea.
      apply (NoDup_key_inj ID (framework_scopes d)); naive_solver congruence.
    - intros Hst. destruct (decide (ID r = id)) as [Hi'|Hne].
      + left. apply (NoDup_key_inj ID (framework_scopes d)); congruence.
      + right. split; [done|]. intros Ht' Hf.
        unfold supersedable, active_for, in_state in Es. by rewrite !bool_decide_eq_true_2 in Es. }
  apply active_keys_spec.
  { replace (ID <$> map act (framework_scopes d)) with (ID <$> framework_scopes d); [done|].
    rewrite <- list_fmap_compose. apply list_fmap_ext. intros. simpl. by rewrite Hids. }
  rewrite active_keys_spec in Hn by done. unfold at_key in Hk. rewrite andb_true_iff, !bool_decide_eq_true in Hk.
  intros r r' (x & -> & Hx)%list_elem_of_fmap (y & -> & Hy)%list_elem_of_fmap Hsx Hsy Ht Hf.
  destruct (edge_same_row _ _ (activation_edge now t (FrameworkVersionID before) id eff x)) as (_ & Tx & Fx & _),
    (edge_same_row _ _ (activation_edge now t (FrameworkVersionID before) id eff y)) as (_ & Ty & Fy & _). fold act in Tx, Fx, Ty, Fy.
  destruct (Hnew x Hx Hsx) as [->|[Ex Nx]], (Hnew y Hy Hsy) as [->|[Ey Ny]]; [done| | |].
  - destruct Ny; naive_solver congruence.
  - destruct Nx; naive_solver congruence.
  - f_equal. apply Hn; congruence.
Qed.

(** On a healthy pool an approved scope can always be activated. *)
Lemma Activate_succeeds env d r eff :
  FInv d → env_infra env = healthy → tenant_of (env_ctx env) = Some (TenantID r) →
  r ∈ framework_scopes d → state r = StateApproved → ∃ row d', Activate env (ID r) eff d = (Ok row, d').
Proof using.
  intros (Hid & Hn & _) Hi Ht Hr Hs. unfold Activate, inTx. rewrite Hi, (inTx_healthy (λ d, d) _ (TenantID r)) by done.
  assert (Hk : at_key (TenantID r) (ID r) r = true) by (unfold at_key; by rewrite !bool_decide_eq_true_2).
  assert (Hsel : select_where (at_key (TenantID r) (ID r)) (framework_scopes d) = [r]).
  { apply (select_key_unique ID); try done. unfold at_key. intros x. rewrite andb_true_iff, !bool_decide_eq_true. tauto. }
  unfold tx_try, GetFrameworkScopeByID. rewrite Hsel, bool_decide_eq_false_2 by naive_solver.
  unfold SupersedePreviousActivated. rewrite (bool_decide_eq_true_2 (ID r ∈ _)), orb_true_r by (by apply list_elem_of_fmap_2).
  unfold ActivateFrameworkScope, update_one. cbv zeta. cbn [framework_scopes framework_versions].
  pose proof (activation_one_active (env_now env) (TenantID r) (ID r) eff d r Hid Hn Hr Hk Hs) as Hact.
  rewrite activation_tables. set (p := λ x, at_key (TenantID r) (ID r) x && in_state StateApproved x).
  destruct (updated_rows p _ _) as [|x xs] eqn:Eu; [exfalso|by rewrite bool_decide_eq_true_2; eauto].
  assert (Hin : r ∈ update_where (supersedable (TenantID r) (FrameworkVersionID r) (ID r))
                      (λ x, bounce x (supersede_row (env_now env) (ID r) x)) (framework_scopes d)).
  { apply elem_of_update_where. exists r. split; [done|]. unfold supersedable, active_for, in_state. by rewrite Hs, !andb_false_r. }
  assert (Hr' : bounce r (activate_row (env_now env) eff r) ∈ @nil FScope).
  { rewrite <- Eu. apply list_elem_of_fmap. exists r. split; [done|]. apply elem_of_select_where. split; [|done]. unfold p, in_state. by rewrite Hk, Hs. }
  by apply elem_of_nil in Hr'.
Qed.

(** C15: after any sequence of requests of any tenants, each scope's hash is the
    SHA-256 of the canonical form of the predicate it holds; a scope in draft or under
    review carries no approval; an approved one carries the hash of its present
    predicate; and one that is in force or superseded was approved at an earlier moment
    of that very run, still with the approver, time and predicate hash of that moment
    and with a date of effect.  A superseded scope names the scope of the same tenant
    and framework version that replaced it, which is in force or was.  One scope at
    most is in force per tenant and framework version, and it is the code that sees to
    it: on a healthy pool every approved scope can be activated, without the unique
    index standing in the way. *)
Theorem approval_invariant (d0 d : DB) :
  fresh d0 → rtc fs_step d0 d →
  (∀ r, r ∈ framework_scopes d →
     hashed r ∧
     (state r = StateDraft ∨ state r = StateReview → no_approval r) ∧
     (state r = StateApproved → is_Some (ApprovedAt r) ∧ PredicateHashAtApproval r = Some (PredicateHash r)) ∧
     (state r = StateActivated ∨ state r = StateSuperseded →
        is_Some (EffectiveFrom r) ∧
        ∃ d1 r1, rtc fs_step d0 d1 ∧ rtc fs_step d1 d ∧ r1 ∈ framework_scopes d1 ∧ state r1 = StateApproved ∧
                 same_row r1 r ∧ same_approval r1 r ∧ hashed r1 ∧
                 PredicateHashAtApproval r = Some (PredicateHash r1)) ∧
     (state r = StateSuperseded →
        ∃ s, s ∈ framework_scopes d ∧ replaced_by r s ∧ (state s = StateActivated ∨ state s = StateSuperseded))) ∧
  (∀ r r', r ∈ framework_scopes d → r' ∈ framework_scopes d → state r = StateActivated → state r' = StateActivated →
     TenantID r = TenantID r' → FrameworkVersionID r = FrameworkVersionID r' → r = r') ∧
  (∀ env r eff, env_infra env = healthy → tenant_of (env_ctx env) = Some (TenantID r) →
     r ∈ framework_scopes d → state r = StateApproved → ∃ row d', Activate env (ID r) eff d = (Ok row, d')).
Proof using.
  intros H0 H. pose proof (reachable_inv d0 d H0 H) as HI. pose proof HI as (Hid & Hn & Hok & Hh & Hsc).
  split_and!; [|by apply active_keys_spec|by intros; apply Activate_succeeds].
  intros r Hr. rewrite !Forall_forall in Hok, Hh. specialize (Hok r Hr) as Hokr. unfold row_ok in Hokr.
  split_and!; [auto|..|by apply Hsc].
  - by intros [Hs|Hs]; rewrite Hs in Hokr; destruct Hokr.
  - intros Hs. rewrite Hs in Hokr. tauto.
  - intros Hs. split; [destruct Hs as [Hs|Hs]; rewrite Hs in Hokr; apply Hokr|].
    destruct (was_approved d0 d r H H0 Hr Hs) as (d1 & r1 & H1 & H2 & H3 & H4 & H5 & H6).
    destruct (reachable_inv d0 d1 H0 H1) as (_ & _ & Hok1 & Hh1 & _). rewrite Forall_forall in Hok1, Hh1.
    specialize (Hok1 r1 H3). unfold row_ok in Hok1. rewrite H4 in Hok1.
    exists d1, r1. split_and!; try done; [auto|]. destruct H6 as (_ & _ & ->). tauto.
Qed.

(** One request, whatever it is, leaves every row where it was or moves it
    along an edge of the ADR's state machine, and can only add a row in state
    draft; in particular a changed predicate takes a row under review or
    approved back to draft with its approval erased, and superseded is final. *)
Theorem requests_follow_lifecycle (env : Env) (o : op) (d : DB) :
  ∃ moved added, framework_scopes (exec env o d) = moved ++ added ∧
    Forall2 edge (framework_scopes d) moved ∧
    Forall (λ r, state r = StateDraft ∧ no_approval r) added.
Proof using.
  assert (Hid : Forall2 edge (framework_scopes d) (framework_scopes d)).
  { apply Forall_Forall2_diag, Forall_true, edge_refl. }
  destruct (exec_advances env o d) as [E|[[Hm _]|(r & E & Hs & Ha & _)]].
  - exists (framework_scopes d), []. rewrite E, app_nil_r. by repeat constructor.
  - exists (framework_scopes (exec env o d)), []. rewrite app_nil_r. split_and!; [done| |constructor].
    by eapply Forall2_impl; [exact Hm|intros ? ? []].
  - exists (framework_scopes d), [r]. by rewrite E, Forall_singleton.
Qed.

Lemma active_for_eq t fv r : active_for t fv r = true ↔ TenantID r = t ∧ FrameworkVersionID r = fv ∧ state r = StateActivated.
Proof using. unfold active_for. rewrite !andb_true_iff, !bool_decide_eq_true, in_state_eq. naive_solver. Qed.

Lemma at_key_eq t id r : at_key t id r = true ↔ TenantID r = t ∧ ID r = id.
Proof using. unfold at_key. by rewrite andb_true_iff, !bool_decide_eq_true. Qed.

(** The active row of a framework version, when the index holds. *)
Lemma select_active t fv d r :
  NoDup (active_keys (framework_scopes d)) → r ∈ framework_scopes d → active_for t fv r = true →
  GetActivatedFrameworkScope t fv d = (Ok r, d).
Proof using.
  intros Hn Hr Ha. unfold GetActivatedFrameworkScope.
  assert (Hin : r ∈ select_where (active_for t fv) (framework_scopes d)) by by apply elem_of_select_where.
  destruct (select_where (active_for t fv) (framework_scopes d)) as [|r1 rest] eqn:E; [by apply elem_of_nil in Hin|].
  assert (Hr1 : r1 ∈ select_where (active_for t fv) (framework_scopes d)) by (rewrite E; left).
  apply elem_of_select_where in Hr1 as [Ha1 Hr1]. do 2 f_equal.
  apply active_for_eq in Ha as (? & ? & Hs), Ha1 as (? & ? & Hs1).
  unfold active_keys in Hn.
  eapply (NoDup_key_inj (λ r, (TenantID r, FrameworkVersionID r))); [exact Hn|..].
  - apply elem_of_select_where. by rewrite bool_decide_eq_true_2.
  - apply elem_of_select_where. by rewrite bool_decide_eq_true_2.
  - congruence.
Qed.

(** Activating an approved scope makes it the one [Activated] returns, with
    the requested effective date; the scope active before for that framework
    version is superseded by it and every other row is untouched. *)
Theorem Activate_replaces_active (d0 d : DB) env id eff row d' :
  fresh d0 → rtc fs_step d0 d → Activate env id eff d = (Ok row, d') →
  ∃ t, tenant_of (env_ctx env) = Some t ∧
    ID row = id ∧ state row = StateActivated ∧ EffectiveFrom row = Some eff ∧
    GetActivatedFrameworkScope t (FrameworkVersionID row) d' = (Ok row, d') ∧
    ∀ r, r ∈ framework_scopes d → ID r ≠ id →
      (if active_for t (FrameworkVersionID row) r then supersede_row (env_now env) id r else r)
        ∈ framework_scopes d'.
Proof using.
  intros H0 Hr H. destruct (reachable_inv d0 d H0 Hr) as (Hids & _).
  apply Activate_Ok in H as (t & before & Ht & Hin & Hk & Hs & E & Hn & r0 & Hr0 & Hk0 & Hs0 & ->).
  apply at_key_eq in Hk as [Hten Hid], Hk0 as [Hten0 Hid0].
  assert (r0 = before) as -> by (eapply NoDup_key_inj; [exact Hids|..]; congruence).
  exists t. split_and!; try done.
  - apply select_active; [done| |by apply active_for_eq].
    rewrite E. assert (activate_row (env_now env) eff before = activation (env_now env) t (FrameworkVersionID before) id eff before) as ->.
    { unfold activation. replace (supersedable _ _ _ _) with false.
      2: { symmetry. unfold supersedable. by rewrite (bool_decide_eq_false_2 (ID before ≠ id)), andb_false_r by naive_solver. }
      by rewrite (proj2 (at_key_eq t id before)), (proj2 (in_state_eq _ _) Hs). }
    by apply list_elem_of_fmap_2.
  - intros r Hin' Hne. rewrite E.
    assert (activation (env_now env) t (FrameworkVersionID before) id eff r =
            if active_for t (FrameworkVersionID before) r then supersede_row (env_now env) id r else r) as Ha.
    { unfold activation, supersedable. rewrite (bool_decide_eq_true_2 (ID r ≠ id)), andb_true_r by done.
      destruct (active_for _ _ r); [done|].
      destruct (at_key t id r) eqn:Ek; [|done]. by apply at_key_eq in Ek as [_ ?]. }
    change (FrameworkVersionID (activate_row _ _ _)) with (FrameworkVersionID before).
    rewrite <- Ha. by apply list_elem_of_fmap_2.
Qed.

(** ** Predicates *)

Lemma Validate_expr p : Validate p = Ok () ↔ is_Some (expr_of p).
Proof using.
  unfold Validate. pose proof (evaluate_denotes p) as H. destruct (expr_of p) as [e|].
  - rewrite H. split; eauto.
  - destruct H as (err & _ & H). rewrite H. split; [done|by intros []].
Qed.

(** For a control whose expression selected [cells] from the universe and a
    validated framework predicate, the effective scope is the cells of the
    universe that satisfy both, in order; it never fails. *)
Theorem EffectiveScope_is_intersection applicability predicate universe cells :
  Scope.Evaluate applicability universe = Some (Ok cells) → Validate predicate = Ok () →
  ∃ e1 e2, expr_of applicability = Some e1 ∧ expr_of predicate = Some e2 ∧
    EffectiveScope cells predicate =
    Ok (filter (λ c, holds e1 c = true ∧ holds e2 c = true) universe).
Proof using.
  intros H1 [e2 He2]%Validate_expr.
  pose proof (evaluate_denotes applicability) as Ha. pose proof (evaluate_denotes predicate) as Hp.
  rewrite He2 in Hp. destruct (expr_of applicability) as [e1|].
  2: { destruct Ha as (err & _ & Ha). by rewrite Ha in H1. }
  exists e1, e2. split_and!; [done..|]. rewrite Ha in H1. injection H1 as <-.
  unfold EffectiveScope. rewrite Hp. f_equal. unfold satisfying. rewrite list_filter_filter.
  apply list_filter_iff. naive_solver.
Qed.

(** Canonicalizing a canonical predicate gives it back with the same hash,
    so re-saving an unchanged predicate never looks like an edit to the trigger;
    the three texts that are themselves empty forms are the exception. *)
Theorem Canonicalize_idempotent predicate canon hash :
  Canonicalize predicate = Ok (canon, hash) →
  canon ∉ ["null"; "{}"; "true"] →
  Canonicalize canon = Ok (canon, hash).
Proof using.
  intros H Hne. unfold Canonicalize in H. destruct (_ || _) eqn:E in H.
  { apply Ok_pair_inj in H as [<- <-]. vm_compute. reflexivity. }
  destruct (decode_first (TrimSpace predicate)) as [v|] eqn:Ed; [|done].
  apply Ok_pair_inj in H as [<- <-]. apply canonical_text_reads_back in Ed as [Hw Hd].
  unfold Canonicalize. rewrite (TrimSpace_canonical _ Hw), (decode_all_first _ _ Hd).
  rewrite (to_any_id _ Hw).
  rewrite !bool_decide_eq_false_2; [done|set_solver..|].
  intros Hnil. destruct (encode_opens _ Hw) as (c & t & E' & _). congruence.
Qed.
End Spec.

(** ** Concrete runs *)

Module Demo.
#[local] Existing Instance binary_uuid.
#[local] Existing Instance canonical_jsonb.

Definition env (now : Time) : Env := mkEnv {| ctx_tenant := Some (uuid_String 7) |} healthy now.
Definition prod_only : string := js "{'op':'eq','dim':'environment','value':'prod'}".
Definition d0 : DB := mkDB [] [500%N].

(** Scope 1 goes through the whole workflow; scope 2 is approved. *)
Definition after (l : list (Time * op)) (d : DB) : DB :=
  fold_left (λ d p, exec (env p.1) p.2 d) l d.

Definition workflow (id : UUID) (now : Time) (p : string) : list (Time * op) :=
  [(now, OpCreate id (mkCreate 500 "pci" p)); (now + 1, OpSubmit id);
   (now + 2, OpApprove (mkApprove id "key_1" "" ""))].

Definition d1 : DB := after (workflow 1 10 prod_only ++ [(20, OpActivate 1 20)]) d0.
Definition d2 : DB := after (workflow 2 30 (js "{'op':'true'}")) d1.

Lemma after_reachable l d : rtc fs_step d (after l d).
Proof.
  revert d. induction l as [|[now o] l IH]; intros d; [apply rtc_refl|].
  eapply rtc_l; [|apply IH]. by exists (env now), o.
Qed.

Lemma d2_reachable : rtc fs_step d0 d2.
Proof. etrans; apply after_reachable. Qed.

(** Scope 2 has replaced scope 1. *)
Definition d3 : DB := after [(40, OpActivate 2 41)] d2.
Definition replaced : FScope := hd (mkScope 0 0 0 "" StateDraft "" "" None None None None None None None None 0 0) (framework_scopes d3).

Lemma approval_invariant_witness :
  ID replaced = 1%N ∧ state replaced = StateSuperseded ∧ hashed replaced ∧
  (∃ d1 r1, rtc fs_step d0 d1 ∧ rtc fs_step d1 d3 ∧ r1 ∈ framework_scopes d1 ∧ state r1 = StateApproved ∧
            PredicateHashAtApproval replaced = Some (PredicateHash r1)) ∧
  (∃ s, s ∈ framework_scopes d3 ∧ replaced_by replaced s).
Proof.
  assert (Hd : rtc fs_step d0 d3) by (etrans; [apply d2_reachable|apply after_reachable]).
  destruct (approval_invariant d0 d3 eq_refl Hd) as (H & _).
  assert (Hs : state replaced = StateSuperseded) by (vm_compute; reflexivity).
  destruct (H replaced) as (Hh & _ & _ & Hf & Hr); [vm_compute; left|].
  destruct (Hf (or_intror Hs)) as (_ & d' & r1 & ? & ? & ? & ? & _ & _ & _ & ?). destruct (Hr Hs) as (s & ? & ? & _).
  split; [vm_compute; reflexivity|]. split; [exact Hs|]. split; [exact Hh|].
  split; [exists d', r1; split_and!; assumption|exists s; split; assumption].
Defined.

Definition row2 : FScope :=
  match Activate (env 40) 2 41 d2 with (Ok r, _) => r | _ => mkScope 0 0 0 "" StateDraft "" "" None None None None None None None None 0 0 end.

Lemma Activate_replaces_active_witness :
  ∃ t, tenant_of (env_ctx (env 40)) = Some t ∧
    ID row2 = 2%N ∧ state row2 = StateActivated ∧ EffectiveFrom row2 = Some 41 ∧
    GetActivatedFrameworkScope t (FrameworkVersionID row2) (Activate (env 40) 2 41 d2).2 =
      (Ok row2, (Activate (env 40) 2 41 d2).2) ∧
    ∀ r, r ∈ framework_scopes d2 → ID r ≠ 2%N →
      (if active_for t (FrameworkVersionID row2) r then supersede_row 40 2 r else r)
        ∈ framework_scopes (Activate (env 40) 2 41 d2).2.
Proof.
  apply (Activate_replaces_active d0 d2 (env 40) 2 41 row2 (Activate (env 40) 2 41 d2).2).
  - reflexivity.
  - apply d2_reachable.
  - vm_compute. reflexivity.
Defined.

Lemma EffectiveScope_is_intersection_witness :
  ∃ e1 e2, expr_of prod_only = Some e1 ∧ expr_of "null" = Some e2 ∧
    EffectiveScope [Scope.cell_prod] "null" =
    Ok (filter (λ c, holds e1 c = true ∧ holds e2 c = true) [Scope.cell_prod; Scope.cell_dev]).
Proof.
  apply (EffectiveScope_is_intersection prod_only "null" [Scope.cell_prod; Scope.cell_dev] [Scope.cell_prod]);
    vm_compute; reflexivity.
Defined.

Lemma Canonicalize_idempotent_witness :
  match Canonicalize (js " {'op':'eq', 'value':'x','dim':'d'} ") with
  | Ok (canon, hash) => Canonicalize canon = Ok (canon, hash)
  | Err _ => False
  end.
Proof.
  destruct (Canonicalize (js " {'op':'eq', 'value':'x','dim':'d'} ")) as [[canon hash]|] eqn:E;
    [|vm_compute in E; discriminate].
  apply (Canonicalize_idempotent _ _ _ E). vm_compute in E. injection E as <- _.
  apply (bool_decide_eq_true_1 _). vm_compute. reflexivity.
Defined.

(** The guarantee stops at activation.  A predicate edit on an activated
    scope is accepted, keeps the scope activated and keeps its approval columns:
    the scope in force then has a predicate whose hash is not the approved one. *)
Theorem activated_predicate_edited_in_place :
  let d' := exec (env 50) (OpUpdate 1 (js "{'op':'true'}")) d1 in
  match GetActivatedFrameworkScope 7 500 d1, GetActivatedFrameworkScope 7 500 d' with
  | (Ok before, _), (Ok after, _) =>
      ID after = ID before ∧ PredicateHashAtApproval before = Some (PredicateHash before) ∧
      state after = StateActivated ∧ PredicateHashAtApproval after = Some (PredicateHash before) ∧
      PredicateHash after ≠ PredicateHash before ∧
      EffectiveScope [Scope.cell_prod; Scope.cell_dev] (Predicate before) = Ok [Scope.cell_prod] ∧
      EffectiveScope [Scope.cell_prod; Scope.cell_dev] (Predicate after) = Ok [Scope.cell_prod; Scope.cell_dev]
  | _, _ => False
  end.
Proof. vm_compute. repeat split. discriminate. Qed.

(** Activating a scope with a future effective date retires the scope in
    force at once: [Activated] already returns the new one, and until that date
    [AsOf] finds no scope at all. *)
Theorem future_activation_leaves_gap :
  let d' := exec (env 40) (OpActivate 2 1000) d2 in
  match (Activated (env 41) 500 d2).1, (Activated (env 41) 500 d').1 with
  | Ok before, Ok now_active =>
      ID before = 1%N ∧ ID now_active = 2%N ∧ EffectiveFrom now_active = Some 1000 ∧
      (AsOf (env 41) 500 41 d').1 = Err ErrNotFound
  | _, _ => False
  end.
Proof. vm_compute. repeat split. Qed.
End Demo.
