(* ===== verification/EvalState.v ===== *)
(** * The pure evaluation logic

    Models internal/eval/state.go: the freshness classes, the freshness window,
    the roll-up of evidence results and the freshness status, with their
    specifications. *)

From Stdlib Require Import Ascii.
From S2P Require Import Prelude GoTime Json.

Module EvalState.

(** The values of the [evidence_result] enum and of [freshness_status] are plain
    strings in the source. *)
Definition ResultPass : string := "pass".
Definition ResultFail : string := "fail".
Definition ResultNA : string := "na".
Definition ResultInconclusive : string := "inconclusive".

Definition FreshnessFresh : string := "fresh".
Definition FreshnessStale : string := "stale".
Definition FreshnessNoEvidence : string := "no_evidence".

Definition is_result (s : string) : bool :=
  bool_decide (s = ResultPass) || bool_decide (s = ResultFail) ||
  bool_decide (s = ResultNA) || bool_decide (s = ResultInconclusive).

Definition defaultFreshnessMaxAge : Duration := 90 * 24 * time_Hour.

Definition freshnessMaxAgeTable : gmap string Duration :=
  {[ "realtime" := 24 * time_Hour;
     "daily" := 7 * 24 * time_Hour;
     "weekly" := 30 * 24 * time_Hour;
     "monthly" := 90 * 24 * time_Hour;
     "quarterly" := 120 * 24 * time_Hour;
     "annual" := 400 * 24 * time_Hour ]}.

Definition freshnessMaxAge (class : string) : Duration * bool :=
  match freshnessMaxAgeTable !! class with
  | Some d => (d, true)
  | None => (defaultFreshnessMaxAge, true)
  end.

Definition FreshnessMaxAge (class : string) : Duration * bool :=
  ((freshnessMaxAge class).1, bool_decide (is_Some (freshnessMaxAgeTable !! class))).

Record inWindowRecord := mkIn { iw_result : string; iw_observedAt : Time; iw_payload : string }.
Record allRecord := mkAll { all_observedAt : Time; all_result : string; all_payload : string }.

(** The oldest observation time still inside the window. *)
Definition cutoff (class : string) (now : Time) : Time := now - (freshnessMaxAge class).1.

Fixpoint inWindowRecords (all : list allRecord) (class : string) (now : Time) : list inWindowRecord :=
  match all with
  | [] => []
  | r :: all =>
      if negb (Before (all_observedAt r) (cutoff class now))
      then mkIn (all_result r) (all_observedAt r) (all_payload r) :: inWindowRecords all class now
      else inWindowRecords all class now
  end.

(** The three flags the loop of [computeResult] sets. *)
Record flags := mkFlags { sawFail : bool; sawPass : bool; sawInconclusive : bool }.

Definition see (f : flags) (r : inWindowRecord) : flags :=
  if bool_decide (iw_result r = ResultFail) then mkFlags true (sawPass f) (sawInconclusive f)
  else if bool_decide (iw_result r = ResultPass) then mkFlags (sawFail f) true (sawInconclusive f)
  else if bool_decide (iw_result r = ResultInconclusive) then mkFlags (sawFail f) (sawPass f) true
  else f.

Definition computeResult (records : list inWindowRecord) : string :=
  if bool_decide (records = []) then ResultInconclusive
  else
    let f := fold_left see records (mkFlags false false false) in
    if sawFail f then ResultFail
    else if sawPass f then ResultPass
    else if sawInconclusive f then ResultInconclusive
    else ResultNA.

(** The loop shared by [computeFreshness] and [latestObservedAt]. *)
Definition latestObservedAt (all : list allRecord) : Time :=
  fold_left (λ latest r, if After (all_observedAt r) latest then all_observedAt r else latest) all time_zero.

Definition computeFreshness (all : list allRecord) (class : string) (now : Time) : string :=
  if bool_decide (all = []) then FreshnessNoEvidence
  else
    let freshest := latestObservedAt all in
    if Before freshest (cutoff class now) then FreshnessStale else FreshnessFresh.

(** ** Specifications *)

Lemma inWindowRecords_filter all class now :
  inWindowRecords all class now =
  (λ r, mkIn (all_result r) (all_observedAt r) (all_payload r)) <$>
    filter (λ r, cutoff class now ≤ all_observedAt r) all.
Proof.
  induction all as [|r all IH]; [done|]. simpl. rewrite filter_cons. unfold Before.
  destruct (bool_decide_reflect (all_observedAt r < cutoff class now)); simpl.
  - rewrite decide_False by lia. done.
  - rewrite decide_True by lia. csimpl. by rewrite IH.
Qed.

Definition has (res : string) (rs : list inWindowRecord) : Prop := ∃ r, r ∈ rs ∧ iw_result r = res.

Lemma has_nil res : ¬ has res [].
Proof. by intros (r & ?%elem_of_nil & _). Qed.

Lemma has_cons res r rs : has res (r :: rs) ↔ iw_result r = res ∨ has res rs.
Proof.
  unfold has. split.
  - intros (x & [->|Hx]%elem_of_cons & E); [by left|right; eauto].
  - intros [E|(x & Hx & E)]; [exists r; split; [left|done]|exists x; split; [by right|done]].
Qed.

Lemma see_flags rs f :
  let g := fold_left see rs f in
  (sawFail g = true ↔ sawFail f = true ∨ has ResultFail rs) ∧
  (sawPass g = true ↔ sawPass f = true ∨ has ResultPass rs) ∧
  (sawInconclusive g = true ↔ sawInconclusive f = true ∨ has ResultInconclusive rs).
Proof.
  revert f. induction rs as [|r rs IH]; intros f; simpl.
  { pose proof has_nil. naive_solver. }
  destruct (IH (see f r)) as (H1 & H2 & H3). rewrite H1, H2, H3, !has_cons. unfold see.
  assert (ResultFail ≠ ResultPass) as D1 by done. assert (ResultFail ≠ ResultInconclusive) as D2 by done.
  assert (ResultPass ≠ ResultInconclusive) as D3 by done.
  destruct (bool_decide_reflect (iw_result r = ResultFail)) as [E|N1]; simpl.
  { rewrite E. tauto. }
  destruct (bool_decide_reflect (iw_result r = ResultPass)) as [E|N2]; simpl.
  { rewrite E. split_and!; [|tauto|]; intuition congruence. }
  destruct (bool_decide_reflect (iw_result r = ResultInconclusive)) as [E|N3]; simpl.
  { rewrite E. split_and!; [| |tauto]; intuition congruence. }
  tauto.
Qed.

Lemma computeResult_cases rs :
  (rs = [] ∧ computeResult rs = ResultInconclusive) ∨
  (has ResultFail rs ∧ computeResult rs = ResultFail) ∨
  (¬ has ResultFail rs ∧ has ResultPass rs ∧ computeResult rs = ResultPass) ∨
  (¬ has ResultFail rs ∧ ¬ has ResultPass rs ∧ has ResultInconclusive rs ∧ computeResult rs = ResultInconclusive) ∨
  (rs ≠ [] ∧ ¬ has ResultFail rs ∧ ¬ has ResultPass rs ∧ ¬ has ResultInconclusive rs ∧ computeResult rs = ResultNA).
Proof.
  unfold computeResult. case_bool_decide as Hnil; [by left|]. right.
  destruct (see_flags rs (mkFlags false false false)) as (H1 & H2 & H3).
  set (g := fold_left see rs (mkFlags false false false)) in *. simpl in *.
  assert (false ≠ true) by done.
  destruct (sawFail g); [left; tauto|].
  destruct (sawPass g); [right; left; tauto|].
  destruct (sawInconclusive g); [right; right; left; tauto|right; right; right; tauto].
Qed.

(** Only the set of results matters. *)
Lemma computeResult_same_results rs rs' :
  (∀ res, has res rs ↔ has res rs') → computeResult rs = computeResult rs'.
Proof.
  intros H.
  assert (Hnil : rs = [] ↔ rs' = []).
  { split; intros ->.
    - destruct rs' as [|r rs']; [done|]. destruct (proj2 (H (iw_result r))) as (x & Hx & _);
        [exists r; split; [left|done]|]. by apply elem_of_nil in Hx.
    - destruct rs as [|r rs]; [done|]. destruct (proj1 (H (iw_result r))) as (x & Hx & _);
        [exists r; split; [left|done]|]. by apply elem_of_nil in Hx. }
  destruct (decide (rs = [])) as [Hrs|Hrs]; [by rewrite Hrs, (proj1 Hnil Hrs)|].
  pose proof (H ResultFail). pose proof (H ResultPass). pose proof (H ResultInconclusive).
  destruct (computeResult_cases rs) as [|[|[|[|]]]], (computeResult_cases rs') as [|[|[|[|]]]];
    repeat match goal with H : _ ∧ _ |- _ => destruct H end; try congruence; exfalso; tauto.
Qed.

Lemma latest_fold all t :
  let l := fold_left (λ latest r, if After (all_observedAt r) latest then all_observedAt r else latest) all t in
  t ≤ l ∧ (∀ r, r ∈ all → all_observedAt r ≤ l) ∧ (l = t ∨ ∃ r, r ∈ all ∧ all_observedAt r = l).
Proof.
  revert t. induction all as [|r all IH]; intros t; simpl.
  { split_and!; [lia|by intros ? ?%elem_of_nil|by left]. }
  set (t' := if After (all_observedAt r) t then all_observedAt r else t).
  assert (Ht : t ≤ t' ∧ all_observedAt r ≤ t' ∧ (t' = t ∨ t' = all_observedAt r)).
  { unfold t', After. case_bool_decide; lia. }
  destruct (IH t') as (H1 & H2 & H3). split_and!; [lia| |].
  - intros x [->|Hx]%elem_of_cons; [lia|by apply H2].
  - destruct H3 as [->|(x & Hx & E)]; [|right; exists x; split; [by right|done]].
    destruct Ht as (_ & _ & [->| ->]); [by left|]. right. exists r. split; [left|done].
Qed.
End EvalState.
