(* ===== verification/EvalQuery.v ===== *)
(** * Evidence queries: Rego, SQL and JSON-path

    Models internal/eval/rego.go, sql.go and jsonpath.go over what they call:
    OPA, the Postgres server and PaesslerAG/jsonpath are parameters; the static
    guard on author SQL, with its two regular expressions, is modelled on runes
    as Go's regexp reads them. *)

From Stdlib Require Import Ascii.
From Stdlib Require Import SpecFloat.
From S2P Require Import Prelude GoTime Json EvalState.

Module EvalQuery.
Import EvalState.

Inductive QueryError :=
| ErrSQLQuery (what : string)
| ErrJSONPathQuery (what : string)
| ErrRegoQuery (what : string).

(** ** Runes *)

(** The value of the rune of [n] bytes at the head of [s]. *)
Definition rune_value (n : nat) (s : string) : N :=
  match n, s with
  | 1%nat, String a _ => code a
  | 2%nat, String a (String b _) => ((code a - 192) * 64 + (code b - 128))%N
  | 3%nat, String a (String b (String c _)) =>
      (((code a - 224) * 64 + (code b - 128)) * 64 + (code c - 128))%N
  | 4%nat, String a (String b (String c (String d _))) =>
      ((((code a - 240) * 64 + (code b - 128)) * 64 + (code c - 128)) * 64 + (code d - 128))%N
  | _, _ => 65533%N
  end.

(** The runes of a Go string; a byte that starts no valid encoding is U+FFFD. *)
Fixpoint runes (s : string) : list N :=
  match s with
  | "" => []
  | String c s1 =>
      match rune_len s, s1 with
      | 2%nat, String _ s2 => rune_value 2 s :: runes s2
      | 3%nat, String _ (String _ s3) => rune_value 3 s :: runes s3
      | 4%nat, String _ (String _ (String _ s4)) => rune_value 4 s :: runes s4
      | 1%nat, _ => code c :: runes s1
      | _, _ => 65533%N :: runes s1
      end
  end.

Definition in_range (lo hi r : N) : bool := (lo <=? r)%N && (r <=? hi)%N.

(** ASCII word characters, what [\b] looks at. *)
Definition word_rune (r : N) : bool :=
  in_range 48 57 r || in_range 65 90 r || in_range 97 122 r || (r =? 95)%N.

(** The lower-case ASCII letter a rune matches under [(?i)], or itself. *)
Definition fold_rune (r : N) : N :=
  if in_range 65 90 r then (r + 32)%N
  else if (r =? 383)%N then 115%N
  else if (r =? 8490)%N then 107%N
  else r.

(** [unicode.ToLower] as far as it produces ASCII. *)
Definition lower_rune (r : N) : N :=
  if in_range 65 90 r then (r + 32)%N
  else if (r =? 304)%N then 105%N
  else if (r =? 8490)%N then 107%N
  else r.

Definition head_word (l : list N) : bool := match l with r :: _ => word_rune r | [] => false end.

(** [\b] between the rune before and the text after. *)
Definition boundary (prev : option N) (l : list N) : bool :=
  xorb (match prev with Some r => word_rune r | None => false end) (head_word l).

(** Strips the folded runes of [kw] from [l], keeping the last one stripped. *)
Fixpoint strip_fold (kw : list N) (prev : option N) (l : list N) : option (option N * list N) :=
  match kw, l with
  | [], _ => Some (prev, l)
  | k :: kw, r :: l => if (fold_rune r =? k)%N then strip_fold kw (Some r) l else None
  | _ :: _, [] => None
  end.

(** [\bkw\b] at this very position. *)
Definition keyword_here (prev : option N) (l : list N) (kw : string) : bool :=
  boundary prev l &&
  match strip_fold (runes kw) prev l with
  | Some (last, rest) => boundary last rest
  | None => false
  end.

Definition forbidden_keywords : list string :=
  ["insert"; "update"; "delete"; "drop"; "alter"; "create"; "truncate"; "grant"; "revoke"; "copy";
   "merge"; "call"; "do"; "vacuum"; "analyze"; "reindex"; "cluster"; "comment"; "lock"; "set";
   "reset"; "begin"; "commit"; "rollback"; "savepoint"; "prepare"; "execute"; "deallocate";
   "listen"; "notify"; "attach"; "detach"; "pg_sleep"; "dblink"; "pg_read_file"; "lo_import";
   "lo_export"].

(** [forbiddenSQLKeyword.MatchString] *)
Fixpoint forbiddenSQLKeyword (prev : option N) (l : list N) : bool :=
  existsb (keyword_here prev l) forbidden_keywords ||
  match l with
  | [] => false
  | r :: l => forbiddenSQLKeyword (Some r) l
  end.

Definition ident_start (r : N) : bool := in_range 97 122 (fold_rune r) || (r =? 95)%N.
Definition ident_rune (r : N) : bool := ident_start r || in_range 48 57 r.

Fixpoint span_ident (l : list N) : list N * list N :=
  match l with
  | r :: l' => if ident_rune r then let '(a, b) := span_ident l' in (r :: a, b) else ([], l)
  | [] => ([], [])
  end.

(** One match of [schemaQualifiedRef] at this very position: the captured
    identifier, the rune the match ends with and what follows. *)
Definition qualified_here (prev : option N) (l : list N) : option (list N * N * list N) :=
  if boundary prev l && match l with r :: _ => ident_start r | [] => false end then
    match span_ident l with
    | (name, dot :: next :: rest) =>
        if (dot =? 46)%N && (ident_start next || (next =? 34)%N || (next =? 42)%N)
        then Some (name, next, rest) else None
    | _ => None
    end
  else None.

(** [FindAllStringSubmatch]: the identifiers of the leftmost non-overlapping
    matches; [fuel] is the number of runes left. *)
Fixpoint schemaQualifiedRefs (fuel : nat) (prev : option N) (l : list N) : list (list N) :=
  match fuel with
  | O => []
  | S fuel =>
      match qualified_here prev l with
      | Some (name, last, rest) => name :: schemaQualifiedRefs fuel (Some last) rest
      | None =>
          match l with
          | [] => []
          | r :: l => schemaQualifiedRefs fuel (Some r) l
          end
      end
  end.

(** ** The SQL guard *)

Fixpoint trim_semicolons (s : string) : string :=
  match s with
  | "" => ""
  | String c t =>
      let t' := trim_semicolons t in
      if bool_decide (code c = 59%N) && bool_decide (t' = "") then "" else String c t'
  end.

Fixpoint contains_semicolon (s : string) : bool :=
  match s with "" => false | String c s => bool_decide (code c = 59%N) || contains_semicolon s end.

Fixpoint rune_prefix (p l : list N) : bool :=
  match p, l with
  | [], _ => true
  | a :: p, b :: l => (a =? b)%N && rune_prefix p l
  | _ :: _, [] => false
  end.

Definition validateSQLEvidenceQuery (expr : string) : result QueryError () :=
  let trimmed := TrimSpace expr in
  if bool_decide (trimmed = "") then Err (ErrSQLQuery "expression is empty")
  else
    let noTrailing := TrimSpace (trim_semicolons trimmed) in
    if contains_semicolon noTrailing then Err (ErrSQLQuery "multiple statements are not allowed")
    else
      let rs := runes noTrailing in
      let lower := map lower_rune rs in
      if negb (rune_prefix (runes "select") lower) && negb (rune_prefix (runes "with") lower)
      then Err (ErrSQLQuery "query must be a single SELECT (or WITH ... SELECT)")
      else if forbiddenSQLKeyword None rs
      then Err (ErrSQLQuery "query contains a forbidden (non-read-only) keyword")
      else if existsb (λ name, negb (bool_decide (map lower_rune name = runes "evidence")))
                (schemaQualifiedRefs (length rs + 1) None rs)
      then Err (ErrSQLQuery "schema-qualified reference is not allowed")
      else Ok ().

(** ** Running the queries *)

(** A value of a result column as pgx scans it. *)
Inductive sql_value := SqlBool (b : bool) | SqlText (s : string) | SqlNull | SqlOther.

Definition classifySQLValue (v : sql_value) : result QueryError string :=
  match v with
  | SqlBool true => Ok ResultPass
  | SqlBool false => Ok ResultFail
  | SqlText t => if is_result t then Ok t else Err (ErrSQLQuery "result is not one of pass|fail|na|inconclusive")
  | SqlNull => Err (ErrSQLQuery "result column is NULL")
  | SqlOther => Err (ErrSQLQuery "result column is not text or boolean")
  end.

Inductive pg_error := PgTimeout | PgExec.

Definition classifySQLError (e : pg_error) : QueryError :=
  match e with
  | PgTimeout => ErrSQLQuery "statement timeout"
  | PgExec => ErrSQLQuery "exec"
  end.

(** What the server answers: rows of values, and the error the cursor ends with
    if any. *)
Record pg_answer := mkAnswer { pg_rows : list (list sql_value); pg_end : option pg_error }.

(** What OPA answers for a policy and the results of the in-window records. *)
Inductive opa_answer := OpaCompileError | OpaEvalError | OpaUndefined | OpaString (s : string) | OpaOther.

(** A value matched by a JSON path. *)
Inductive path_match :=
| MNil | MBool (b : bool) | MString (s : string) | MFloat (f : spec_float)
| MArray (len : nat) | MObject (len : nat) | MOther.

Definition jsonPathMatchIsTruthy (v : path_match) : bool :=
  match v with
  | MNil => false
  | MBool b => b
  | MString s => bool_decide (s ≠ "")
  | MFloat (S754_zero _) => false
  | MFloat _ => true
  | MArray n | MObject n => bool_decide (n ≠ 0%nat)
  | MOther => true
  end.

(** *** Decoding a payload into [any] *)

(** A float64 literal is out of range when it rounds to infinity. *)
Definition float_bound : N := (2 ^ 1024 - 2 ^ 970)%N.

Fixpoint digits_value (s : string) (acc : N) : N :=
  match s with "" => acc | String c s => digits_value s (acc * 10 + (code c - 48))%N end.

Definition float_in_range (lit : string) : bool :=
  let s := match lit with String c t => if bool_decide (code c = 45%N) then t else lit | "" => lit end in
  let '(int, rest) := span_digits s in
  let '(frac, rest) := match rest with
                       | String c t => if bool_decide (code c = 46%N) then span_digits t else ("", rest)
                       | "" => ("", "")
                       end in
  let '(neg, ex) := match rest with
                    | String _ (String g t) =>
                        if bool_decide (code g = 45%N) then (true, t)
                        else if bool_decide (code g = 43%N) then (false, t)
                        else (false, String g t)
                    | _ => (false, "")
                    end in
  let m := digits_value frac (digits_value int 0) in
  let e := digits_value ex 0 in
  let f := N.of_nat (String.length frac) in
  if neg then (m <? float_bound * 10 ^ (e + f))%N
  else if (f <=? e)%N then (m * 10 ^ (e - f) <? float_bound)%N
  else (m <? float_bound * 10 ^ (f - e))%N.

Fixpoint floats_in_range (j : json) : bool :=
  match j with
  | JNum n => float_in_range n
  | JArr l => forallb floats_in_range l
  | JObj ms => forallb (λ kv, floats_in_range kv.2) ms
  | _ => true
  end.

(** [json.Unmarshal(payload, &doc)] with [doc any]. *)
Definition Unmarshal_any (payload : string) : option json :=
  j ← decode_all payload; if floats_in_range j then Some (to_any j) else None.

(** [inWindowRecordsToJSON] fails on a payload that is not JSON and on a time
    outside the years 0 to 9999. *)
Definition records_marshal (records : list inWindowRecord) : bool :=
  forallb (λ r, (bool_decide (iw_payload r = "") || bool_decide (is_Some (decode_all (iw_payload r)))) &&
                bool_decide (- 366 * ns_per_day ≤ iw_observedAt r) &&
                bool_decide (iw_observedAt r < 3652059 * ns_per_day)) records.

Section Evaluators.
(** OPA: the answer to [data.evidence.query.result] for a policy over the input
    [{records: [{result}]}]. *)
Context (opa : string → list string → opa_answer).
(** Postgres: the answer to an author query over the [evidence] relation holding
    the records, under the read-only settings. *)
Context (postgres : string → list inWindowRecord → pg_answer).
(** PaesslerAG/jsonpath: a compiled path, which fails on a document it does not
    match. *)
Context (jsonpath : string → option (json → option path_match)).
(** Whether the deadline of a JSON-path query has passed before its i-th record. *)
Context (deadline : nat → bool).

Definition evalRegoQuery (policy : string) (records : list inWindowRecord) : result QueryError string :=
  if bool_decide (policy = "") then Err (ErrRegoQuery "policy is empty")
  else
    match opa policy (iw_result <$> records) with
    | OpaCompileError => Err (ErrRegoQuery "compile")
    | OpaEvalError => Err (ErrRegoQuery "eval")
    | OpaUndefined => Err (ErrRegoQuery "policy did not assign `result`")
    | OpaOther => Err (ErrRegoQuery "result is not a string")
    | OpaString s => if is_result s then Ok s else Err (ErrRegoQuery "result is not one of pass|fail|na|inconclusive")
    end.

Fixpoint scan_rows (rows : list (list sql_value)) : result QueryError (list inWindowRecord) :=
  match rows with
  | [] => Ok []
  | [v] :: rows =>
      match classifySQLValue v with
      | Err e => Err e
      | Ok res => match scan_rows rows with
                  | Err e => Err e
                  | Ok rs => Ok (mkIn res time_zero "" :: rs)
                  end
      end
  | _ :: _ => Err (ErrSQLQuery "query must SELECT exactly one column")
  end.

Definition evalSQLQuery (expr : string) (records : list inWindowRecord) : result QueryError string :=
  match validateSQLEvidenceQuery expr with
  | Err e => Err e
  | Ok _ =>
      if negb (records_marshal records) then Err (ErrSQLQuery "marshal records")
      else
        let ans := postgres (trim_semicolons (TrimSpace expr)) records in
        match scan_rows (pg_rows ans) with
        | Err e => Err e
        | Ok results =>
            match pg_end ans with
            | Some e => Err (classifySQLError e)
            | None => if bool_decide (results = []) then Ok ResultFail else Ok (computeResult results)
            end
        end
  end.

(** The result of one record; [None] is a match error. *)
Definition path_record (eval : json → option path_match) (r : inWindowRecord) : inWindowRecord :=
  let res :=
    if bool_decide (iw_payload r = "") then ResultFail
    else match Unmarshal_any (iw_payload r) with
         | None => ResultFail
         | Some doc =>
             match eval doc with
             | None => ResultFail
             | Some m => if jsonPathMatchIsTruthy m then ResultPass else ResultFail
             end
         end in
  mkIn res time_zero "".

Fixpoint path_records (eval : json → option path_match) (i : nat) (records : list inWindowRecord)
  : result QueryError (list inWindowRecord) :=
  match records with
  | [] => Ok []
  | r :: records =>
      if deadline i then Err (ErrJSONPathQuery "timed out")
      else match path_records eval (S i) records with
           | Err e => Err e
           | Ok rs => Ok (path_record eval r :: rs)
           end
  end.

Definition evalJSONPathQuery (expr : string) (records : list inWindowRecord) : result QueryError string :=
  if bool_decide (expr = "") then Err (ErrJSONPathQuery "expression is empty")
  else
    match jsonpath expr with
    | None => Err (ErrJSONPathQuery "compile")
    | Some eval =>
        if bool_decide (records = []) then Ok ResultInconclusive
        else match path_records eval 0 records with
             | Err e => Err e
             | Ok rs => Ok (computeResult rs)
             end
    end.
End Evaluators.
End EvalQuery.
