(* ===== verification/Eval.v ===== *)
(** * The evaluation engine

    Models internal/eval/engine.go, store.go, effectiveness.go, query.go,
    fixture.go and consumer.go: one control evaluated over the cells it applies
    to, every control of a tenant, replay, the read side, the fixture runner, and
    the two background drivers.  The scope store is reached through the
    [CellResolver] interface. *)

From Stdlib Require Import Ascii SpecFloat.
From S2P Require Import Prelude GoTime Tenancy Json Postgres Scope ScopeStore EvalState EvalQuery.

(** [cellResolver], with the [ListCells] method the read side looks for. *)
Class CellResolver := {
  ControlApplicability : Context → UUID → result ScopeStore.StoreError (list Scope.Cell);
  ListCells : Context → option (result ScopeStore.StoreError (list Scope.Cell));
}.

(** [scope.Store] satisfies it. *)
Definition scope_resolver `{!UUIDText, !JsonB} (infra : Infra) (now : Time) (d : ScopeStore.DB) : CellResolver := {|
  ControlApplicability ctx id := (ScopeStore.ControlApplicability (ScopeStore.mkEnv ctx infra now) id d).1;
  ListCells ctx := Some (ScopeStore.ListCells (ScopeStore.mkEnv ctx infra now) d).1;
|}.

Module Eval.
Import EvalState EvalQuery.

(** ** Data *)

Definition TriggerIngest : string := "ingest".
Definition TriggerScheduled : string := "scheduled".
Definition TriggerManual : string := "manual".
Definition TriggerReplay : string := "replay".

Record evidenceQueryManifest := mkQuery { Language : string; Expression : string }.

Record controlMeta := mkMeta {
  meta_id : UUID;
  meta_freshnessClass : string;
  meta_queries : list evidenceQueryManifest;
}.

Record evaluationRow := mkRow {
  row_controlID : UUID;
  row_scopeCellID : option UUID;
  row_evalRunID : UUID;
  row_result : string;
  row_freshnessStatus : string;
  row_evidenceCountInWindow : Z;
  row_lastObservedAt : option Time;
  row_freshnessClass : string;
  row_trigger : string;
}.

(** The columns of [controls] the engine reads. *)
Record ControlRow := mkControl {
  c_ID : UUID;
  c_TenantID : UUID;
  c_BundleID : string;
  c_SupersededBy : option UUID;
  c_FreshnessClass : option string;
  c_EvidenceQueries : string;
}.

(** A row of the evidence ledger. *)
Record EvidenceRow := mkEvidence {
  e_TenantID : UUID;
  e_ControlID : option UUID;
  e_ControlRef : string;
  e_ObservedAt : Time;
  e_Result : string;
  e_Payload : string;
}.

(** A row of [control_evaluations]. *)
Record EvalRow := mkEval {
  v_ID : UUID;
  v_TenantID : UUID;
  v_ControlID : UUID;
  v_ScopeCellID : option UUID;
  v_EvalRunID : UUID;
  v_EvaluatedAt : Time;
  v_Result : string;
  v_FreshnessStatus : string;
  v_EvidenceCountInWindow : Z;
  v_LastObservedAt : option Time;
  v_FreshnessClass : option string;
  v_Trigger : string;
}.

Record DB := mkDB {
  controls : list ControlRow;
  evidence_records : list EvidenceRow;
  scope_cells : list (UUID * UUID);
  control_evaluations : list EvalRow;
}.

#[global] Instance DB_rollback : TxState DB := λ before _, before.
#[global] Instance DB_atomic : Atomic (λ d : DB, d).
Proof. done. Qed.

Inductive Error :=
| ErrControlNotFound
| ErrResolveCells (e : ScopeStore.StoreError)
| ErrParseQueries
| ErrEmptyExpression (language : string)
| ErrUnsupportedLanguage (language : string)
| ErrQuery (language : string) (e : QueryError)
| ErrFixtureSQLNeedsDB
| ErrBadScopePredicate (e : Scope.Error)
| ErrPanic
| ErrAppend
| ErrEvaluateControl (id : UUID) (e : Error)
| ErrTx (e : TxErr).

#[global] Instance Error_tx : TxError Error := ErrTx.

(** ** Statements *)

Definition GetControlByID (tenantID id : UUID) (d : DB) : option ControlRow :=
  head (select_where (λ r, bool_decide (c_TenantID r = tenantID) && bool_decide (c_ID r = id)) (controls d)).

(** ORDER BY bundle_id ASC, under the collation of the database *)
Section Order.
Context (collate : string → string → Prop) `{!RelDecision collate}.
Definition by_bundle (r1 r2 : ControlRow) : Prop := collate (c_BundleID r1) (c_BundleID r2).
#[global] Instance by_bundle_dec : RelDecision by_bundle.
Proof using RelDecision0. intros r1 r2. unfold by_bundle. apply _. Defined.

Definition ListActiveControls (tenantID : UUID) (d : DB) : list ControlRow :=
  merge_sort by_bundle
    (select_where (λ r, bool_decide (c_TenantID r = tenantID) && bool_decide (c_SupersededBy r = None))
       (controls d)).
End Order.

(** ORDER BY observed_at DESC *)
Definition freshest_first (r1 r2 : EvidenceRow) : Prop := e_ObservedAt r2 ≤ e_ObservedAt r1.
#[global] Instance freshest_first_dec : RelDecision freshest_first.
Proof. intros r1 r2. unfold freshest_first. apply _. Defined.

(** A zero horizon is sent as NULL, and nothing compares with NULL. *)
Definition evidence_for (tenantID controlID : UUID) (controlRef : string) (asOf : Time) (r : EvidenceRow) : bool :=
  bool_decide (e_TenantID r = tenantID) &&
  (bool_decide (e_ControlID r = Some controlID) || bool_decide (e_ControlRef r = controlRef)) &&
  negb (IsZero asOf) && bool_decide (e_ObservedAt r ≤ asOf).

Definition ListEvidenceForControlAsOf (tenantID controlID : UUID) (controlRef : string) (asOf : Time) (d : DB)
  : list EvidenceRow :=
  merge_sort freshest_first (select_where (evidence_for tenantID controlID controlRef asOf) (evidence_records d)).

Definition check_eval (r : EvalRow) : bool :=
  is_result (v_Result r) &&
  (bool_decide (v_FreshnessStatus r = FreshnessFresh) || bool_decide (v_FreshnessStatus r = FreshnessStale) ||
   bool_decide (v_FreshnessStatus r = FreshnessNoEvidence)) &&
  (bool_decide (v_Trigger r = TriggerIngest) || bool_decide (v_Trigger r = TriggerScheduled) ||
   bool_decide (v_Trigger r = TriggerManual) || bool_decide (v_Trigger r = TriggerReplay)) &&
  bool_decide (0 ≤ v_EvidenceCountInWindow r) &&
  (bool_decide (v_FreshnessStatus r ≠ FreshnessNoEvidence) ||
   bool_decide (v_EvidenceCountInWindow r = 0) && bool_decide (v_Result r = ResultInconclusive)).

(** Primary key, CHECKs and the two foreign keys. *)
Definition InsertControlEvaluation (r : EvalRow) (d : DB) : option DB :=
  if check_eval r &&
     negb (bool_decide (v_ID r ∈ (v_ID <$> control_evaluations d))) &&
     bool_decide (is_Some (GetControlByID (v_TenantID r) (v_ControlID r) d)) &&
     match v_ScopeCellID r with
     | None => true
     | Some c => bool_decide ((v_TenantID r, c) ∈ scope_cells d)
     end
  then Some (mkDB (controls d) (evidence_records d) (scope_cells d) (control_evaluations d ++ [r]))
  else None.

(** *** [DISTINCT ON (scope_cell_id) ... ORDER BY scope_cell_id, evaluated_at DESC, created_at DESC]

    Rows are appended in the order of [created_at], so of two rows evaluated at
    the same time the later one in the table wins. *)
Definition latest_of (rows : list EvalRow) : option EvalRow :=
  fold_left (λ best r, match best with
                       | Some b => if bool_decide (v_EvaluatedAt b ≤ v_EvaluatedAt r) then Some r else best
                       | None => Some r
                       end) rows None.

(** scope_cell_id ascending, NULL last *)
Definition cell_le (a b : option UUID) : Prop :=
  match a, b with Some x, Some y => (x ≤ y)%N | _, None => True | None, Some _ => False end.
#[global] Instance cell_le_dec : RelDecision cell_le.
Proof. intros [x|] [y|]; simpl; apply _. Defined.

Definition cells_of (rows : list EvalRow) : list (option UUID) :=
  merge_sort cell_le (remove_dups (v_ScopeCellID <$> rows)).

Definition ListLatestControlEvaluations (tenantID controlID : UUID) (asOf : Time) (d : DB) : list EvalRow :=
  let rows := select_where (λ r, bool_decide (v_TenantID r = tenantID) && bool_decide (v_ControlID r = controlID) &&
                                 negb (IsZero asOf) && bool_decide (v_EvaluatedAt r ≤ asOf))
                (control_evaluations d) in
  omap (λ c, latest_of (select_where (λ r, bool_decide (v_ScopeCellID r = c)) rows)) (cells_of rows).

Definition ListControlEvaluationsForEffectiveness (tenantID controlID : UUID) (from until : Time) (d : DB) : list EvalRow :=
  select_where (λ r, bool_decide (v_TenantID r = tenantID) && bool_decide (v_ControlID r = controlID) &&
                     bool_decide (from ≤ v_EvaluatedAt r) && bool_decide (v_EvaluatedAt r ≤ until))
    (control_evaluations d).

Definition ListTenantsWithActiveControls (d : DB) : list UUID :=
  remove_dups (c_TenantID <$> select_where (λ r, bool_decide (c_SupersededBy r = None)) (controls d)).

(** ** Bundles *)

Definition SupportedQueryLanguages (l : string) : bool :=
  bool_decide (l = "rego") || bool_decide (l = "sql") || bool_decide (l = "jsonpath").

Definition query_zero : evidenceQueryManifest := mkQuery "" "".

Fixpoint decode_query_fields (ms : list (string * json)) (q : evidenceQueryManifest) : evidenceQueryManifest * bool :=
  match ms with
  | [] => (q, false)
  | (k, v) :: ms =>
      let '(q1, bad) :=
        if bool_decide (Scope.foldName k = "LANGUAGE") then
          let '(s, bad) := Scope.decode_string v (Language q) in (mkQuery s (Expression q), bad)
        else if bool_decide (Scope.foldName k = "EXPRESSION") then
          let '(s, bad) := Scope.decode_string v (Expression q) in (mkQuery (Language q) s, bad)
        else (q, false) in
      let '(q2, bad') := decode_query_fields ms q1 in (q2, bad || bad')
  end.

Definition decode_query (j : json) (q : evidenceQueryManifest) : evidenceQueryManifest * bool :=
  match j with
  | JNull => (q, false)
  | JObj ms => decode_query_fields ms q
  | _ => (q, true)
  end.

Definition parseEvidenceQueries (evidenceQueriesJSON : string) : result Error (list evidenceQueryManifest) :=
  if bool_decide (evidenceQueriesJSON = "") then Ok []
  else
    match decode_all evidenceQueriesJSON with
    | Some JNull => Ok []
    | Some (JArr items) =>
        let '(qs, _, bad) := Scope.decode_elems decode_query query_zero items [] in
        if bad then Err ErrParseQueries else Ok qs
    | _ => Err ErrParseQueries
    end.

(** ** The engine *)

(** The surroundings of a call: request context, pool, and [Engine.now]. *)
Record Env := mkEnv { env_ctx : Context; env_infra : Infra; env_clock : Time }.

Section Engine.
Context {UT : UUIDText} {CR : CellResolver}.
Context (collate : string → string → Prop) `{!RelDecision collate}.
Context (opa : string → list string → opa_answer)
        (postgres : string → list inWindowRecord → pg_answer)
        (jsonpath : string → option (json → option path_match))
        (deadline : nat → bool).

Definition inTx {A} (env : Env) (fn : UUID → Tx DB Error A) : Tx DB Error A :=
  Tenancy.inTx (env_infra env) (env_ctx env) fn.

Definition loadControl (tenantID controlID : UUID) : Tx DB Error controlMeta := λ d,
  match GetControlByID tenantID controlID d with
  | None => (Err ErrControlNotFound, d)
  | Some row =>
      match parseEvidenceQueries (c_EvidenceQueries row) with
      | Err e => (Err e, d)
      | Ok queries => (Ok (mkMeta controlID (default "" (c_FreshnessClass row)) queries), d)
      end
  end.

Definition loadEvidence (tenantID controlID : UUID) (controlRef : string) (asOf : Time) (d : DB) : list allRecord :=
  map (λ r, mkAll (e_ObservedAt r) (e_Result r) (e_Payload r))
    (ListEvidenceForControlAsOf tenantID controlID controlRef asOf d).

(** One declared query. *)
Definition evalQuery (q : evidenceQueryManifest) (inWindow : list inWindowRecord) : result Error string :=
  if bool_decide (Expression q = "") then Err (ErrEmptyExpression (Language q))
  else if negb (SupportedQueryLanguages (Language q)) then Err (ErrUnsupportedLanguage (Language q))
  else
    map_err (ErrQuery (Language q))
      (if bool_decide (Language q = "rego") then evalRegoQuery opa (Expression q) inWindow
       else if bool_decide (Language q = "sql") then evalSQLQuery postgres (Expression q) inWindow
       else evalJSONPathQuery jsonpath deadline (Expression q) inWindow).

Fixpoint evalEach (queries : list evidenceQueryManifest) (inWindow : list inWindowRecord)
  : result Error (list inWindowRecord) :=
  match queries with
  | [] => Ok []
  | q :: queries =>
      match evalQuery q inWindow with
      | Err e => Err e
      | Ok res =>
          match evalEach queries inWindow with
          | Err e => Err e
          | Ok rs => Ok (mkIn res time_zero "" :: rs)
          end
      end
  end.

Definition evalQueries (meta : controlMeta) (inWindow : list inWindowRecord) : result Error string :=
  if bool_decide (length (meta_queries meta) = 0%nat) then Ok (computeResult inWindow)
  else
    match evalEach (meta_queries meta) inWindow with
    | Err e => Err e
    | Ok perQuery => Ok (computeResult perQuery)
    end.

Definition computeRow (meta : controlMeta) (records : list allRecord) (cellID : option UUID)
    (evalRunID : UUID) (trigger : string) (now : Time) : result Error evaluationRow :=
  let inWindow := inWindowRecords records (meta_freshnessClass meta) now in
  let freshness := computeFreshness records (meta_freshnessClass meta) now in
  match evalQueries meta inWindow with
  | Err e => Err e
  | Ok result0 =>
      let res := if bool_decide (freshness = FreshnessNoEvidence) then ResultInconclusive else result0 in
      let latest := latestObservedAt records in
      Ok (mkRow (meta_id meta) cellID evalRunID res freshness (Z.of_nat (length inWindow))
            (if negb (IsZero latest) then Some latest else None) (meta_freshnessClass meta) trigger)
  end.

(** The count is narrowed to the INTEGER column's width, and the columns of type
    TIMESTAMPTZ hold microseconds. *)
Definition appendEvaluation (id tenantID : UUID) (row : evaluationRow) (evaluatedAt : Time) : Tx DB Error () := λ d,
  let r := mkEval id tenantID (row_controlID row) (row_scopeCellID row) (row_evalRunID row) (to_micros evaluatedAt)
             (row_result row) (row_freshnessStatus row) (int32 (row_evidenceCountInWindow row)) (to_micros <$> row_lastObservedAt row)
             (if bool_decide (row_freshnessClass row = "") then None else Some (row_freshnessClass row))
             (row_trigger row) in
  match InsertControlEvaluation r d with
  | Some d' => (Ok (), d')
  | None => (Err ErrAppend, d)
  end.

(** The loop over the targets; [newID i] is what [uuid.New] draws for row i. *)
Fixpoint appendRows (meta : controlMeta) (records : list allRecord) (tenantID evalRunID : UUID)
    (trigger : string) (now : Time) (newID : nat → UUID) (targets : list (option UUID)) (written : nat)
  : Tx DB Error nat :=
  match targets with
  | [] => mret written
  | cellID :: targets =>
      row ← tx_lift (computeRow meta records cellID evalRunID trigger now);
      _ ← appendEvaluation (newID written) tenantID row now;
      appendRows meta records tenantID evalRunID trigger now newID targets (S written)
  end.

Definition targets_of (cells : list Scope.Cell) : list (option UUID) :=
  match cells with [] => [None] | _ => map (λ c, Some (Scope.ID c)) cells end.

Definition EvaluateControl (env : Env) (evalRunID : UUID) (newID : nat → UUID) (controlID : UUID)
    (trigger : string) (asOf : Time) : Tx DB Error nat :=
  match ControlApplicability (env_ctx env) controlID with
  | Err e => tx_fail (ErrResolveCells e)
  | Ok cells =>
      let evaluatedAt := env_clock env in
      inTx env (λ tenantID,
        meta ← loadControl tenantID controlID;
        records ← tx_gets (loadEvidence tenantID controlID (uuid_String controlID) asOf);
        appendRows meta records tenantID evalRunID trigger evaluatedAt newID (targets_of cells) 0)
  end.

(** [ids i] are the identifiers the i-th evaluation draws. *)
Fixpoint evaluateEach (env : Env) (ids : nat → UUID * (nat → UUID)) (i : nat) (trigger : string) (asOf : Time)
    (controlIDs : list UUID) (total : nat) (d : DB) : (nat * option Error) * DB :=
  match controlIDs with
  | [] => ((total, None), d)
  | id :: controlIDs =>
      match EvaluateControl env (ids i).1 (ids i).2 id trigger asOf d with
      | (Err e, d') => ((total, Some (ErrEvaluateControl id e)), d')
      | (Ok n, d') => evaluateEach env ids (S i) trigger asOf controlIDs (total + n) d'
      end
  end.

(** The total accompanies the error, as in the source. *)
Definition EvaluateAll (env : Env) (ids : nat → UUID * (nat → UUID)) (trigger : string) (asOf : Time) (d : DB)
  : (nat * option Error) * DB :=
  match inTx env (λ tenantID, tx_gets (λ d, c_ID <$> ListActiveControls collate tenantID d)) d with
  | (Err e, d') => ((0%nat, Some e), d')
  | (Ok controlIDs, d') => evaluateEach env ids 0 trigger asOf controlIDs 0 d'
  end.

Definition Replay (env : Env) (ids : nat → UUID * (nat → UUID)) (asOf : Time) : DB → (nat * option Error) * DB :=
  EvaluateAll env ids TriggerReplay asOf.

(** *** Effectiveness *)

Definition EffectivenessWindow : Duration := 30 * 24 * time_Hour.

Record Effectiveness := mkEff {
  eff_PassRate : spec_float;
  eff_PassCount : nat;
  eff_TotalCount : nat;
  eff_WindowStart : Time;
  eff_WindowEnd : Time;
}.

(** [float64(n)], and division rounded to nearest even. *)
Definition float64_of_nat (n : nat) : spec_float := binary_normalize 53 1024 (Z.of_nat n) 0 false.
Definition float64_div : spec_float → spec_float → spec_float := SFdiv 53 1024.

Definition effectiveness_of (rows : list EvalRow) (from until : Time) : Effectiveness :=
  let total := length rows in
  let pass := length (select_where (λ r, bool_decide (v_Result r = ResultPass)) rows) in
  mkEff (if bool_decide (0 < total)%nat then float64_div (float64_of_nat pass) (float64_of_nat total)
         else S754_zero false) pass total from until.

Definition EffectivenessOf (env : Env) (controlID : UUID) : Tx DB Error Effectiveness :=
  let windowEnd := env_clock env in
  let windowStart := windowEnd - EffectivenessWindow in
  inTx env (λ tenantID,
    _ ← loadControl tenantID controlID;
    rows ← tx_gets (ListControlEvaluationsForEffectiveness tenantID controlID windowStart windowEnd);
    mret (effectiveness_of rows windowStart windowEnd)).

(** *** The read side *)

Definition stateFromRow (r : EvalRow) : EvalRow := r.

Definition mustListCells (ctx : Context) : list Scope.Cell :=
  match ListCells ctx with Some (Ok cells) => cells | _ => [] end.

Definition allowed_by (allow : option (list UUID)) (r : EvalRow) : bool :=
  match allow, v_ScopeCellID r with
  | Some ids, Some c => bool_decide (c ∈ ids)
  | _, _ => true
  end.

Definition ControlState (env : Env) (controlID : UUID) (scopePredicate : string) (asOf : Time)
  : Tx DB Error (list EvalRow) := λ d,
  let read (allow : option (list UUID)) :=
    inTx env (λ tenantID,
      _ ← loadControl tenantID controlID;
      rows ← tx_gets (ListLatestControlEvaluations tenantID controlID asOf);
      mret (map stateFromRow (select_where (allowed_by allow) rows))) d in
  if bool_decide (scopePredicate = "") then read None
  else
    match Scope.Evaluate scopePredicate (mustListCells (env_ctx env)) with
    | None => (Err ErrPanic, d)
    | Some (Err e) => (Err (ErrBadScopePredicate e), d)
    | Some (Ok cells) => read (Some (map Scope.ID cells))
    end.

(** *** The fixture runner *)

Record FixtureResult := mkFixture {
  fx_Result : string;
  fx_FreshnessStatus : string;
  fx_EvidenceCountInWindow : Z;
}.

Fixpoint evalFixtureEach (tx : bool) (queries : list evidenceQueryManifest) (inWindow : list inWindowRecord)
  : result Error (list inWindowRecord) :=
  match queries with
  | [] => Ok []
  | q :: queries =>
      if bool_decide (Expression q = "") then Err (ErrEmptyExpression (Language q))
      else if negb (SupportedQueryLanguages (Language q)) then Err (ErrUnsupportedLanguage (Language q))
      else if bool_decide (Language q = "sql") && negb tx then Err ErrFixtureSQLNeedsDB
      else
        match (if bool_decide (Language q = "rego") then evalRegoQuery opa (Expression q) inWindow
               else if bool_decide (Language q = "sql") then evalSQLQuery postgres (Expression q) inWindow
               else evalJSONPathQuery jsonpath deadline (Expression q) inWindow) with
        | Err e => Err (ErrQuery (Language q) e)
        | Ok res =>
            match evalFixtureEach tx queries inWindow with
            | Err e => Err e
            | Ok rs => Ok (mkIn res time_zero "" :: rs)
            end
        end
  end.

Definition evalFixtureQueries (tx : bool) (queries : list evidenceQueryManifest) (inWindow : list inWindowRecord)
  : result Error string :=
  if bool_decide (length queries = 0%nat) then Ok (computeResult inWindow)
  else match evalFixtureEach tx queries inWindow with
       | Err e => Err e
       | Ok rs => Ok (computeResult rs)
       end.

(** [tx] says whether the caller supplied a transaction. *)
Definition EvaluateFixture (class : string) (queries : list evidenceQueryManifest) (records : list allRecord)
    (now : Time) (tx : bool) : result Error FixtureResult :=
  let inWindow := inWindowRecords records class now in
  let freshness := computeFreshness records class now in
  match evalFixtureQueries tx queries inWindow with
  | Err e => Err e
  | Ok result0 =>
      Ok (mkFixture (if bool_decide (freshness = FreshnessNoEvidence) then ResultInconclusive else result0)
            freshness (Z.of_nat (length inWindow)))
  end.

(** *** Background drivers *)

Definition FarFuture : Time := 3651694 * ns_per_day.

(** The scheduler's sweep: the tenants in the order the query returned them, a
    failing tenant skipped. *)
Fixpoint sweepTenants (env : UUID → Env) (ids : UUID → nat → UUID * (nat → UUID)) (tenants : list UUID)
    (total : nat) (d : DB) : nat * DB :=
  match tenants with
  | [] => (total, d)
  | t :: tenants =>
      match WithTenant (env_ctx (env t)) (uuid_String t) with
      | Err _ => sweepTenants env ids tenants total d
      | Ok ctx =>
          match EvaluateAll (mkEnv ctx (env_infra (env t)) (env_clock (env t))) (ids t) TriggerScheduled FarFuture d with
          | ((_, Some _), d') => sweepTenants env ids tenants total d'
          | ((n, None), d') => sweepTenants env ids tenants (total + n) d'
          end
      end
  end.

Definition SweepOnce (env : UUID → Env) (ids : UUID → nat → UUID * (nat → UUID)) (d : DB) : nat * DB :=
  sweepTenants env ids (ListTenantsWithActiveControls d) 0 d.

(** What the subscriber tells the stream about a message. *)
Inductive disposition := Ack | Nak | Term.

(** A delivered message: the tenant header and, if the protobuf decodes, the
    record's control_id. *)
Record message := mkMsg { msg_tenant : string; msg_control : option string }.

Definition handle (env : Env) (evalRunID : UUID) (newID : nat → UUID) (msg : message) (d : DB) : disposition * DB :=
  match msg_control msg with
  | None => (Term, d)
  | Some control =>
      match uuid_Parse (msg_tenant msg) with
      | None => (Term, d)
      | Some tenantID =>
          match uuid_Parse control with
          | None => (Ack, d)
          | Some controlID =>
              match WithTenant (env_ctx env) (uuid_String tenantID) with
              | Err _ => (Term, d)
              | Ok ctx =>
                  match EvaluateControl (mkEnv ctx (env_infra env) (env_clock env)) evalRunID newID controlID
                          TriggerIngest FarFuture d with
                  | (Err ErrControlNotFound, d') => (Ack, d')
                  | (Err _, d') => (Nak, d')
                  | (Ok _, d') => (Ack, d')
                  end
              end
          end
      end
  end.
End Engine.
End Eval.
