(* ===== verification/EvalSpec.v ===== *)
(** * What the evaluation engine promises

    The roll-up and window laws, what one evaluation writes, determinism of
    re-evaluation, agreement of the fixture runner with the engine, and the
    places where the code departs from its comments. *)

From Stdlib Require Import Ascii SpecFloat.
From S2P Require Import Prelude GoTime Tenancy Json Postgres Scope ScopeStore EvalState EvalQuery Eval.

Import EvalState EvalQuery Eval.

(** The roll-up of evidence results depends only on which results occur, not
    on their order or number, and its precedence is fail, pass, inconclusive,
    na, with the empty set inconclusive. *)
Theorem rollup_precedence (rs rs' : list inWindowRecord) :
  ((∀ res, has res rs ↔ has res rs') → computeResult rs = computeResult rs') ∧
  (computeResult rs = ResultFail ↔ has ResultFail rs) ∧
  (computeResult rs = ResultPass ↔ ¬ has ResultFail rs ∧ has ResultPass rs) ∧
  (computeResult rs = ResultNA ↔
     rs ≠ [] ∧ ¬ has ResultFail rs ∧ ¬ has ResultPass rs ∧ ¬ has ResultInconclusive rs).
Proof.
  split; [apply computeResult_same_results|].
  assert (Hnil : rs = [] → ∀ res, ¬ has res rs) by (intros -> res; apply has_nil).
  destruct (computeResult_cases rs) as [[? ->]|[[? ->]|[(?&?& ->)|[(?&?&?& ->)|(?&?&?&?& ->)]]]];
    split_and!; split; intros; try done; try tauto.
  - by destruct (Hnil H ResultFail).
  - destruct H0 as [_ H0]. by destruct (Hnil H ResultPass).
Qed.

(** ** Stale evidence *)

Definition stale (class : string) (now : Time) (r : allRecord) : Prop := all_observedAt r < cutoff class now.

Lemma inWindow_app all1 all2 class now :
  inWindowRecords (all1 ++ all2) class now = inWindowRecords all1 class now ++ inWindowRecords all2 class now.
Proof. rewrite !inWindowRecords_filter, filter_app, fmap_app. done. Qed.

Lemma inWindow_stale all class now : Forall (stale class now) all → inWindowRecords all class now = [].
Proof.
  induction 1 as [|r all Hr Hall IH]; [done|]. simpl. unfold Before.
  rewrite bool_decide_eq_true_2 by exact Hr. done.
Qed.

Lemma no_evidence_iff all class now : computeFreshness all class now = FreshnessNoEvidence ↔ all = [].
Proof.
  unfold computeFreshness. case_bool_decide; [done|]. destruct (Before _ _); split; done.
Qed.

Lemma stale_iff all class now :
  0 < cutoff class now →
  computeFreshness all class now = FreshnessStale ↔ all ≠ [] ∧ Forall (stale class now) all.
Proof.
  intros Hc. unfold computeFreshness. case_bool_decide as Hnil; [subst; naive_solver|].
  destruct (latest_fold all time_zero) as (H0 & Hle & Hor). fold (latestObservedAt all) in *.
  set (l := latestObservedAt all) in *. unfold Before. rewrite Forall_forall. unfold stale.
  case_bool_decide as Hb; split; try done.
  - intros _. split; [done|]. intros r Hr. specialize (Hle r Hr). lia.
  - intros [_ Hall]. destruct Hor as [E|(r & Hr & E)].
    + destruct all as [|r all]; [done|]. specialize (Hall r ltac:(left)). unfold time_zero in *.
      specialize (Hle r ltac:(left)). lia.
    + specialize (Hall r Hr). lia.
Qed.

Section Spec.
Context {UT : UUIDText} {CR : CellResolver}.
Context (opa : string → list string → opa_answer)
        (postgres : string → list inWindowRecord → pg_answer)
        (jsonpath : string → option (json → option path_match))
        (deadline : nat → bool).

Abbreviation computeRow' := (computeRow opa postgres jsonpath deadline).
Abbreviation EvaluateControl' := (EvaluateControl opa postgres jsonpath deadline).

(** The part of a row that is about the result. *)
Definition outcome_of (r : result Error evaluationRow) : result Error (string * Z) :=
  match r with Ok row => Ok (row_result row, row_evidenceCountInWindow row) | Err e => Err e end.

(** Evidence older than the freshness window never influences the result or
    the in-window count of a control that has any other evidence, or that
    declares no query, wherever it sits in the ledger slice. *)
Theorem stale_evidence_is_ignored meta before old after cell run trigger now :
  Forall (stale (meta_freshnessClass meta) now) old →
  before ++ after ≠ [] ∨ meta_queries meta = [] →
  outcome_of (computeRow' meta (before ++ old ++ after) cell run trigger now) =
  outcome_of (computeRow' meta (before ++ after) cell run trigger now).
Proof using.
  intros Hold Hor. unfold computeRow.
  set (c := meta_freshnessClass meta) in *.
  assert (E : inWindowRecords (before ++ old ++ after) c now = inWindowRecords (before ++ after) c now).
  { by rewrite !inWindow_app, (inWindow_stale old). }
  rewrite E. destruct (evalQueries _ _ _ _ meta _) as [r|e] eqn:Eq; [|done]. simpl. do 2 f_equal.
  rewrite !(bool_decide_ext (computeFreshness _ c now = _) _ (no_evidence_iff _ c now)).
  destruct Hor as [Hne|Hq].
  - rewrite !bool_decide_eq_false_2; [done|done|]. destruct before, old, after; naive_solver.
  - destruct (decide (before ++ after = [])) as [Hnil|Hne].
    + rewrite (bool_decide_eq_true_2 (before ++ after = [])) by done.
      rewrite Hnil in Eq. unfold evalQueries in Eq. rewrite Hq in Eq. simpl in Eq.
      injection Eq as <-. by case_bool_decide.
    + rewrite !bool_decide_eq_false_2; [done|done|]. destruct before, old, after; naive_solver.
Qed.

(** A control whose only evidence is out of its freshness window is recorded
    as failed when it declares a SQL query, although no evidence in the window
    speaks about it: the server answers the query over an empty relation with no
    row, which is read as a failure. *)
Theorem stale_evidence_fails_sql_control meta expr records cell run trigger now :
  meta_queries meta = [mkQuery "sql" expr] → expr ≠ "" → validateSQLEvidenceQuery expr = Ok () →
  (∀ q, postgres q [] = mkAnswer [] None) →
  records ≠ [] → Forall (stale (meta_freshnessClass meta) now) records →
  ∃ row, computeRow' meta records cell run trigger now = Ok row ∧
    row_result row = ResultFail ∧ row_evidenceCountInWindow row = 0.
Proof using.
  intros Hq Hne Hv Hpg Hrec Hst. unfold computeRow. rewrite (inWindow_stale _ _ _ Hst).
  unfold evalQueries. rewrite Hq. cbn [length]. rewrite bool_decide_eq_false_2 by done.
  cbn [evalEach]. unfold evalQuery. cbn [Expression Language].
  rewrite bool_decide_eq_false_2 by done. cbn [negb SupportedQueryLanguages].
  replace (negb (SupportedQueryLanguages "sql")) with false by done.
  rewrite (bool_decide_eq_false_2 ("sql" = "rego")), (bool_decide_eq_true_2 ("sql" = "sql")) by done.
  unfold evalSQLQuery. rewrite Hv. cbn [records_marshal forallb negb]. rewrite Hpg. cbn.
  eexists. split; [reflexivity|]. simpl. split; [|done].
  rewrite bool_decide_eq_false_2; [done|]. by rewrite no_evidence_iff.
Qed.

(** ** What one evaluation writes *)

(** The row stored for a computed state: its times to the microsecond, its count in
    32 bits. *)
Definition eval_row (id t : UUID) (row : evaluationRow) (at_ : Time) : EvalRow :=
  mkEval id t (row_controlID row) (row_scopeCellID row) (row_evalRunID row) (to_micros at_)
    (row_result row) (row_freshnessStatus row) (int32 (row_evidenceCountInWindow row)) (to_micros <$> row_lastObservedAt row)
    (if bool_decide (row_freshnessClass row = "") then None else Some (row_freshnessClass row))
    (row_trigger row).

Definition appended (d d' : DB) (rows : list EvalRow) : Prop :=
  controls d' = controls d ∧ evidence_records d' = evidence_records d ∧ scope_cells d' = scope_cells d ∧
  control_evaluations d' = control_evaluations d ++ rows.

Lemma appendEvaluation_Ok id t row now d d' :
  appendEvaluation id t row now d = (Ok (), d') → appended d d' [eval_row id t row now].
Proof using.
  unfold appendEvaluation, InsertControlEvaluation. intros H.
  destruct (check_eval _ && _ && _ && _); [|done]. by injection H as <-.
Qed.

Lemma appendRows_Ok meta records t run trigger now newID targets k d n d' :
  appendRows opa postgres jsonpath deadline meta records t run trigger now newID targets k d = (Ok n, d') →
  n = (k + length targets)%nat ∧
  ∃ rows, appended d d' rows ∧
    Forall2 (λ (p : nat * option UUID) r,
               ∃ row, computeRow' meta records p.2 run trigger now = Ok row ∧ r = eval_row (newID p.1) t row now)
      (zip (seq k (length targets)) targets) rows.
Proof using.
  revert k d. induction targets as [|c targets IH]; intros k d H; simpl in H.
  { injection H as <- <-. split; [simpl; lia|]. exists []. split; [|constructor].
    unfold appended. by rewrite app_nil_r. }
  unfold mbind, tx_bind, tx_lift in H.
  destruct (computeRow' meta records c run trigger now) as [row|e] eqn:Ec; [|done].
  destruct (appendEvaluation (newID k) t row now d) as [[[]|e] d1] eqn:Ea; [|done].
  apply appendEvaluation_Ok in Ea as (A1 & A2 & A3 & A4).
  apply IH in H as (-> & rows & (B1 & B2 & B3 & B4) & Hrows). split; [simpl; lia|].
  exists (eval_row (newID k) t row now :: rows). split.
  - unfold appended. rewrite B1, B2, B3, B4, A1, A2, A3, A4, <- app_assoc. done.
  - simpl. constructor; [|done]. eauto.
Qed.

Lemma EvaluateControl_inv env run newID id trigger asOf d n d' :
  EvaluateControl' env run newID id trigger asOf d = (Ok n, d') →
  ∃ t cells meta rows,
    tenant_of (env_ctx env) = Some t ∧ ControlApplicability (env_ctx env) id = Ok cells ∧
    loadControl t id d = (Ok meta, d) ∧ appended d d' rows ∧ n = length (targets_of cells) ∧
    Forall2 (λ (p : nat * option UUID) r,
      ∃ row, computeRow' meta (loadEvidence t id (uuid_String id) asOf d) p.2 run trigger (env_clock env) = Ok row ∧
             r = eval_row (newID p.1) t row (env_clock env))
      (zip (seq 0 n) (targets_of cells)) rows.
Proof using.
  unfold EvaluateControl. destruct (ControlApplicability (env_ctx env) id) as [cells|e]; [|done]. intros H.
  apply (Tenancy.inTx_cases (λ d, d)) in H as [(t & a & Ht & [= ->] & H)|(e & ? & _)]; [|done].
  unfold mbind, tx_bind, tx_gets in H.
  destruct (loadControl t id d) as [[meta|e] d1] eqn:El; [|done].
  assert (d1 = d) as -> by (unfold loadControl in El; repeat case_match; by simplify_eq).
  apply appendRows_Ok in H as (-> & rows & Ha & Hrows). exists t, cells, meta, rows. by split_and!.
Qed.


(** ** Evaluating again *)

(** The computed columns of a row: everything but its id, run and time. *)
Definition computed (v : EvalRow) :=
  (v_TenantID v, v_ControlID v, v_ScopeCellID v, v_Result v, v_FreshnessStatus v,
   v_EvidenceCountInWindow v, v_LastObservedAt v, v_FreshnessClass v).

Lemma computeRow_run meta records c run1 run2 tr1 tr2 now row1 row2 id1 id2 t :
  computeRow' meta records c run1 tr1 now = Ok row1 → computeRow' meta records c run2 tr2 now = Ok row2 →
  computed (eval_row id1 t row1 now) = computed (eval_row id2 t row2 now).
Proof using.
  unfold computeRow. destruct (evalQueries _ _ _ _ _ _); [|done]. by intros [= <-] [= <-].
Qed.

Lemma loadControl_same t id d d' : controls d' = controls d → (loadControl t id d').1 = (loadControl t id d).1.
Proof using.
  intros E. unfold loadControl, GetControlByID. rewrite E.
  destruct (head _) as [row|]; [|done]. by destruct (parseEvidenceQueries _).
Qed.

Lemma same_computed (P Q : nat * option UUID → EvalRow → Prop) ts k r1 r2 :
  (∀ p q v w, p.2 = q.2 → P p v → Q q w → computed v = computed w) →
  Forall2 P (zip (seq k (length ts)) ts) r1 → Forall2 Q (zip (seq k (length ts)) ts) r2 →
  computed <$> r1 = computed <$> r2.
Proof using.
  intros H. revert k r1 r2. induction ts as [|c ts IH]; intros k r1 r2 H1 H2; simpl in *.
  - inversion H1. by inversion H2.
  - inversion H1 as [|? v ? vs Hv Hvs]. inversion H2 as [|? w ? ws Hw Hws]. subst. csimpl. f_equal.
    + by apply (H (k, c) (k, c)).
    + by eapply IH.
Qed.

(** Evaluating a control again at the same instant, whatever the trigger,
    appends as many rows with identical computed columns: the outcome is a
    function of the ledger, the bundle and the clock only. *)
Theorem reevaluation_is_deterministic env1 env2 run1 run2 ids1 ids2 id tr1 tr2 asOf d n1 d1 n2 d2 :
  env_ctx env2 = env_ctx env1 → env_clock env2 = env_clock env1 →
  EvaluateControl' env1 run1 ids1 id tr1 asOf d = (Ok n1, d1) →
  EvaluateControl' env2 run2 ids2 id tr2 asOf d1 = (Ok n2, d2) →
  n2 = n1 ∧ ∃ rows1 rows2, appended d d1 rows1 ∧ appended d1 d2 rows2 ∧
    computed <$> rows1 = computed <$> rows2.
Proof using.
  intros Hctx Hclk H1 H2.
  apply EvaluateControl_inv in H1 as (t & cells & meta & rows1 & Ht & Hc & Hm & Ha & -> & Hr1).
  apply EvaluateControl_inv in H2 as (t' & cells' & meta' & rows2 & Ht' & Hc' & Hm' & Ha' & -> & Hr2).
  rewrite Hctx in Ht', Hc'. assert (t' = t) as -> by congruence. assert (cells' = cells) as -> by congruence.
  assert (meta' = meta) as ->.
  { pose proof (loadControl_same t id d d1 (proj1 Ha)) as E. rewrite Hm, Hm' in E. by injection E. }
  assert (loadEvidence t id (uuid_String id) asOf d1 = loadEvidence t id (uuid_String id) asOf d) as El.
  { unfold loadEvidence, ListEvidenceForControlAsOf. by rewrite (proj1 (proj2 Ha)). }
  rewrite El, Hclk in Hr2. split; [done|]. exists rows1, rows2. split_and!; [done..|].
  eapply same_computed; [|exact Hr1|exact Hr2].
  intros [k c] [k' c'] v w Hcc (row1 & E1 & ->) (row2 & E2 & ->). simpl in *. subst c'.
  by eapply computeRow_run.
Qed.

(** ** The fixture runner *)

Lemma evalFixtureEach_same queries inWindow :
  evalFixtureEach opa postgres jsonpath deadline true queries inWindow =
  evalEach opa postgres jsonpath deadline queries inWindow.
Proof using.
  induction queries as [|q qs IH]; [done|]. simpl. unfold evalQuery. rewrite IH, andb_false_r.
  case_bool_decide; [done|]. destruct (negb (SupportedQueryLanguages (Language q))); [done|].
  destruct (if bool_decide (Language q = "rego") then _ else _) as [res|e]; done.
Qed.

(** A bundle test with a database at hand is exactly a live evaluation: the
    fixture runner returns the result, freshness and in-window count the engine
    would record for the same records, or the same error. *)
Theorem fixture_agrees_with_engine id class queries records cell run trigger now :
  EvaluateFixture opa postgres jsonpath deadline class queries records now true =
  match computeRow' (mkMeta id class queries) records cell run trigger now with
  | Ok row => Ok (mkFixture (row_result row) (row_freshnessStatus row) (row_evidenceCountInWindow row))
  | Err e => Err e
  end.
Proof using.
  unfold EvaluateFixture, computeRow, evalFixtureQueries, evalQueries. simpl.
  rewrite evalFixtureEach_same. case_bool_decide; [done|].
  by destruct (evalEach _ _ _ _ queries _).
Qed.

(** ** Errors *)

(** A declared query that cannot run (an empty expression, an unknown
    language, or an evaluator error) makes the evaluation of its control fail
    with no row recorded at all, so the control keeps its previous state; no
    inconclusive state is appended. *)
Theorem failing_query_records_nothing env run newID id trigger asOf d t cells meta e :
  env_infra env = healthy → tenant_of (env_ctx env) = Some t →
  ControlApplicability (env_ctx env) id = Ok cells → loadControl t id d = (Ok meta, d) →
  evalEach opa postgres jsonpath deadline (meta_queries meta)
    (inWindowRecords (loadEvidence t id (uuid_String id) asOf d) (meta_freshnessClass meta) (env_clock env)) = Err e →
  EvaluateControl' env run newID id trigger asOf d = (Err e, d).
Proof using.
  intros Hh Ht Hc Hm He. unfold EvaluateControl. rewrite Hc. unfold inTx.
  rewrite Hh, (Tenancy.inTx_healthy (λ d : DB, d) _ t) by done.
  unfold mbind, tx_bind, tx_gets. rewrite Hm.
  assert (∀ c, computeRow' meta (loadEvidence t id (uuid_String id) asOf d) c run trigger (env_clock env) = Err e) as E.
  { intros c. unfold computeRow, evalQueries. rewrite He.
    destruct (meta_queries meta) as [|q qs]; [by simpl in He|]. done. }
  destruct (targets_of cells) as [|c ts] eqn:Et; [by destruct cells|].
  cbn [appendRows]. unfold mbind, tx_bind, tx_lift. by rewrite E.
Qed.
End Spec.

(** ** The ingest subscriber and unknown controls *)

Section Subscriber.
Context {UT : UUIDText} {JB : JsonB}.
Context (opa : string → list string → opa_answer)
        (postgres : string → list inWindowRecord → pg_answer)
        (jsonpath : string → option (json → option path_match))
        (deadline : nat → bool).

Lemma tenant_of_string t : tenant_of {| ctx_tenant := Some (uuid_String t) |} = Some t.
Proof using.
  unfold tenant_of, TenantFromContext. simpl.
  rewrite bool_decide_eq_false_2 by apply uuid_String_nonempty. apply uuid_Parse_String.
Qed.

(** A record that names a control the tenant does not have is negatively
    acknowledged, hence redelivered for ever: the scope store reports the missing
    control before the engine looks for it, with an error the subscriber does not
    recognise as "control not found". *)
Theorem unknown_control_is_redelivered env now sd run newID tenant control t c d :
  uuid_Parse tenant = Some t → uuid_Parse control = Some c →
  Forall (λ r, ScopeStore.control_TenantID r ≠ t ∨ ScopeStore.control_ID r ≠ c) (ScopeStore.controls sd) →
  handle (CR := scope_resolver healthy now sd) opa postgres jsonpath deadline env run newID
    (mkMsg tenant (Some control)) d = (Nak, d).
Proof using.
  intros Ht Hc Hno. unfold handle. cbn [msg_control msg_tenant]. rewrite Ht, Hc.
  unfold WithTenant. rewrite uuid_Parse_String. unfold EvaluateControl. cbn [env_ctx].
  unfold ControlApplicability, scope_resolver, ScopeStore.ControlApplicability, ScopeStore.inTx.
  cbn [ScopeStore.env_infra ScopeStore.env_ctx].
  rewrite (Tenancy.inTx_healthy (λ d : ScopeStore.DB, d) _ t) by apply tenant_of_string.
  unfold tx_try, ScopeStore.GetControlApplicabilityExpr.
  replace (select_where _ (ScopeStore.controls sd)) with (@nil ScopeStore.ControlRow); [done|].
  symmetry. unfold select_where. induction Hno as [|r rs Hr Hrs IH]; [done|].
  rewrite filter_cons_False; [done|]. rewrite andb_true_iff, !bool_decide_eq_true. naive_solver.
Qed.
End Subscriber.

(** ** The SQL guard *)

(** The static guard that is to keep author SQL on the [evidence] relation
    accepts a schema-qualified base table when the dot is spaced out or the
    identifiers are quoted, although it rejects the plain spelling. *)
Theorem sql_guard_misses_qualified_names :
  validateSQLEvidenceQuery "select result from public.evidence_records" ≠ Ok () ∧
  validateSQLEvidenceQuery "select result from public . evidence_records" = Ok () ∧
  validateSQLEvidenceQuery (js "select result from 'public'.'api_keys'") = Ok ().
Proof. vm_compute. repeat split; discriminate. Qed.

(** ** Concrete runs *)

Module Demo.
#[local] Existing Instance binary_uuid.
#[local] Existing Instance canonical_jsonb.

Definition day : Duration := 24 * time_Hour.
Definition T0 : Time := 738000 * day.
Definition ctx : Context := {| ctx_tenant := Some (uuid_String 7) |}.
Definition env (now : Time) : Env := mkEnv ctx healthy now.

(** Control 50 applies to every cell; the tenant has one cell. *)
Definition scope_db : ScopeStore.DB :=
  ScopeStore.mkDB [] [ScopeStore.mkCellRow 1 7 "prod" (js "{'environment':'prod'}") "h" 0]
    [ScopeStore.mkControl 50 7 "true"].
#[local] Instance cells : CellResolver := scope_resolver healthy 0 scope_db.

(** The answers of the external evaluators: a policy that always passes, and a
    server that selects the results. *)
Definition opa (policy : string) (results : list string) : opa_answer := OpaString "pass".
Definition postgres (q : string) (rs : list inWindowRecord) : pg_answer :=
  mkAnswer (map (λ r, [SqlText (iw_result r)]) rs) None.
Definition jsonpath (p : string) : option (json → option path_match) := None.
Definition never (i : nat) : bool := false.

Definition db (queries : string) : DB :=
  mkDB [mkControl 50 7 "bundle" None (Some "monthly") queries]
    [mkEvidence 7 (Some 50%N) "" (T0 - 10 * day) "pass" "{}"] [(7%N, 1%N)] [].

Definition ids (i : nat) : UUID := (1000 + N.of_nat i)%N.
Definition run_ids (k : N) (i : nat) : UUID * (nat → UUID) := ((k + N.of_nat i)%N, λ j, (k * 100 + N.of_nat j)%N).

Abbreviation evaluate := (EvaluateControl opa postgres jsonpath never).

Lemma stale_evidence_is_ignored_witness :
  outcome_of (computeRow opa postgres jsonpath never (mkMeta 50 "daily" [])
    ([mkAll T0 "pass" ""] ++ [mkAll (T0 - 30 * day) "fail" ""] ++ []) None 1 "manual" T0) =
  outcome_of (computeRow opa postgres jsonpath never (mkMeta 50 "daily" [])
    ([mkAll T0 "pass" ""] ++ []) None 1 "manual" T0).
Proof.
  apply (stale_evidence_is_ignored opa postgres jsonpath never (mkMeta 50 "daily" [])
           [mkAll T0 "pass" ""] [mkAll (T0 - 30 * day) "fail" ""] [] None 1 "manual" T0).
  - apply Forall_singleton. unfold stale. vm_compute. reflexivity.
  - left. discriminate.
Defined.

Lemma stale_evidence_fails_sql_control_witness :
  ∃ row, computeRow opa postgres jsonpath never
           (mkMeta 50 "daily" [mkQuery "sql" "select result from evidence"])
           [mkAll (T0 - 30 * day) "pass" ""] None 1 "manual" T0 = Ok row ∧
    row_result row = ResultFail ∧ row_evidenceCountInWindow row = 0.
Proof.
  apply (stale_evidence_fails_sql_control opa postgres jsonpath never _ "select result from evidence").
  - reflexivity.
  - discriminate.
  - vm_compute. reflexivity.
  - reflexivity.
  - discriminate.
  - apply Forall_singleton. unfold stale. vm_compute. reflexivity.
Defined.

Definition d1 : DB := (evaluate (env T0) 1 ids 50 "manual" FarFuture (db "[]")).2.


Lemma reevaluation_is_deterministic_witness :
  1%nat = 1%nat ∧ ∃ rows1 rows2, appended (db "[]") d1 rows1 ∧
    appended d1 (evaluate (env T0) 2 (λ i, ids (i + 5)) 50 "replay" FarFuture d1).2 rows2 ∧
    computed <$> rows1 = computed <$> rows2.
Proof.
  apply (reevaluation_is_deterministic opa postgres jsonpath never (env T0) (env T0) 1 2 ids (λ i, ids (i + 5))
           50 "manual" "replay" FarFuture (db "[]") 1 d1 1).
  - reflexivity.
  - reflexivity.
  - vm_compute. reflexivity.
  - vm_compute. reflexivity.
Defined.

Definition bad_queries : string := js "[{'language':'sigma','expression':'x'}]".

Lemma failing_query_records_nothing_witness :
  evaluate (env T0) 1 ids 50 "manual" FarFuture (db bad_queries) =
  (Err (ErrUnsupportedLanguage "sigma"), db bad_queries).
Proof.
  apply (failing_query_records_nothing opa postgres jsonpath never (env T0) 1 ids 50 "manual" FarFuture
           (db bad_queries) 7 [Scope.mkCell 1 7 "prod" {[ "environment" := "prod" ]}]
           (mkMeta 50 "monthly" [mkQuery "sigma" "x"]));
    vm_compute; reflexivity.
Defined.

Lemma unknown_control_is_redelivered_witness :
  handle opa postgres jsonpath never (env T0) 1 ids (mkMsg (uuid_String 7) (Some (uuid_String 51))) (db "[]") =
  (Nak, db "[]").
Proof.
  apply (unknown_control_is_redelivered opa postgres jsonpath never (env T0) 0 scope_db 1 ids
           (uuid_String 7) (uuid_String 51) 7 51 (db "[]")).
  - reflexivity.
  - reflexivity.
  - apply Forall_singleton. right. discriminate.
Defined.

(** A replay with a horizon in the past does not reproduce the state of that
    instant: the freshness window is measured from the clock of the replay, so
    evidence that was fresh then is out of the window now, and a control that
    passed is replayed as inconclusive and stale. *)
Theorem replay_uses_present_window :
  let live := (EvaluateAll String.le opa postgres jsonpath never (env T0) (run_ids 1) "scheduled" T0 (db "[]")).2 in
  let replayed := (Replay String.le opa postgres jsonpath never (env (T0 + 100 * day)) (run_ids 2) T0 (db "[]")).2 in
  map (λ v, (v_Result v, v_FreshnessStatus v)) (control_evaluations live) = [("pass", "fresh")] ∧
  map (λ v, (v_Result v, v_FreshnessStatus v)) (control_evaluations replayed) = [("inconclusive", "stale")].
Proof. vm_compute. split; reflexivity. Qed.
End Demo.
