(* ===== verification/Freshness.v ===== *)
(** * The evidence-freshness read model

    Models internal/freshness/freshness.go: one row per control, derived from
    the evidence ledger and upserted.  The tables of the two read models
    (freshness and drift) live beside the ledgers they are derived from. *)

From S2P Require Import Prelude GoTime Tenancy EvalState Eval.

(** ** The tables *)

(** A row of [evidence_freshness]; a NULL timestamp is [None]. *)
Record FreshnessRow := mkFreshness {
  f_ID : UUID;
  f_TenantID : UUID;
  f_ControlID : UUID;
  f_FreshnessClass : option string;
  f_LatestObservedAt : option Time;
  f_ValidUntil : option Time;
  f_IsStale : bool;
  f_EvidenceCount : Z;
  f_RefreshedAt : option Time;
}.

(** A row of [control_drift_snapshots]; a DATE is its midnight. *)
Record SnapshotRow := mkSnapshotRow {
  s_ID : UUID;
  s_TenantID : UUID;
  s_SnapshotDate : option Time;
  s_ControlsPassing : Z;
  s_PassingControlIds : list UUID;
  s_CapturedAt : Time;
  s_Trigger : string;
}.

Module ReadModel.
Record DB := mkDB {
  ledger : Eval.DB;
  evidence_freshness : list FreshnessRow;
  control_drift_snapshots : list SnapshotRow;
}.

#[global] Instance RM_rollback : TxState DB := λ before _, before.
#[global] Instance RM_atomic : Atomic (λ d : DB, d).
Proof. done. Qed.

Inductive Error :=
| ErrUpsertFreshness
| ErrInsertSnapshot
| ErrTx (e : TxErr).

#[global] Instance RM_error : TxError Error := ErrTx.

(** [pgTimestamptz] and [pgTimestamptzPtr]: the zero time is sent as NULL. *)
Definition pgTimestamptz (t : Time) : option Time := if IsZero t then None else Some t.
Definition pgTimestamptzPtr (t : option Time) : option Time := t ≫= pgTimestamptz.
End ReadModel.

Module Freshness.
Import ReadModel.

Record ControlFreshness := mkCF {
  ControlID : UUID;
  FreshnessClass : string;
  LatestObservedAt : option Time;
  ValidUntil : option Time;
  IsStale : bool;
  EvidenceCount : Z;
  RefreshedAt : Time;
}.

(** ** Statements *)

(** A row of [ListControlsWithLatestEvidence]. *)
Record LatestRow := mkLatest {
  l_ControlID : UUID;
  l_FreshnessClass : option string;
  l_LatestObservedAt : option Time;
  l_EvidenceCount : Z;
}.

Section Statements.
Context {UT : UUIDText} {PL : Planner}.

(** The LEFT JOIN condition. *)
Definition joins (c : Eval.ControlRow) (e : Eval.EvidenceRow) : bool :=
  bool_decide (Eval.e_TenantID e = Eval.c_TenantID c) &&
  (bool_decide (Eval.e_ControlID e = Some (Eval.c_ID c)) ||
   bool_decide (Eval.e_ControlRef e = uuid_String (Eval.c_ID c))).

(** [max(observed_at)]: NULL over no rows. *)
Definition max_observed (es : list Eval.EvidenceRow) : option Time :=
  fold_left (λ m e, Some (match m with
                          | Some t => Z.max t (Eval.e_ObservedAt e)
                          | None => Eval.e_ObservedAt e
                          end)) es None.

Definition latest_row (d : Eval.DB) (c : Eval.ControlRow) : LatestRow :=
  let es := select_where (joins c) (Eval.evidence_records d) in
  mkLatest (Eval.c_ID c) (Eval.c_FreshnessClass c) (max_observed es) (Z.of_nat (length es)).

Definition active_controls (tenantID : UUID) (d : Eval.DB) : list Eval.ControlRow :=
  select_where (λ c, bool_decide (Eval.c_TenantID c = tenantID) && bool_decide (Eval.c_SupersededBy c = None))
    (Eval.controls d).

Definition ListControlsWithLatestEvidence (tenantID : UUID) (d : DB) : list LatestRow :=
  latest_row (ledger d) <$> plan (active_controls tenantID (ledger d)).

Definition check_freshness (r : FreshnessRow) : bool :=
  bool_decide (0 ≤ f_EvidenceCount r) &&
  (bool_decide (is_Some (f_LatestObservedAt r)) ||
   bool_decide (f_ValidUntil r = None) && f_IsStale r && bool_decide (f_EvidenceCount r = 0)) &&
  bool_decide (is_Some (f_RefreshedAt r)).

Definition same_key (tenantID controlID : UUID) (r : FreshnessRow) : bool :=
  bool_decide (f_TenantID r = tenantID) && bool_decide (f_ControlID r = controlID).

(** The DO UPDATE keeps the row's own identity. *)
Definition refreshed (excluded r : FreshnessRow) : FreshnessRow :=
  mkFreshness (f_ID r) (f_TenantID r) (f_ControlID r) (f_FreshnessClass excluded) (f_LatestObservedAt excluded)
    (f_ValidUntil excluded) (f_IsStale excluded) (f_EvidenceCount excluded) (f_RefreshedAt excluded).

(** [None] is a violated CHECK, foreign key or primary key. *)
Definition UpsertEvidenceFreshness (r : FreshnessRow) (d : DB) : option DB :=
  let t := evidence_freshness d in
  let key := same_key (f_TenantID r) (f_ControlID r) in
  if negb (check_freshness r) then None
  else if bool_decide (Eval.GetControlByID (f_TenantID r) (f_ControlID r) (ledger d) = None) then None
  else if existsb key t
  then Some (mkDB (ledger d) (update_where key (refreshed r) t) (control_drift_snapshots d))
  else if bool_decide (f_ID r ∈ (f_ID <$> t)) then None
  else Some (mkDB (ledger d) (t ++ [r]) (control_drift_snapshots d)).

(** ORDER BY freshness_class NULLS LAST, control_id *)
Section Order.
Context (collate : string → string → Prop) `{!RelDecision collate}.
Definition class_le (a b : FreshnessRow) : Prop :=
  match f_FreshnessClass a, f_FreshnessClass b with
  | Some x, Some y => if bool_decide (x = y) then (f_ControlID a ≤ f_ControlID b)%N else collate x y
  | Some _, None => True
  | None, Some _ => False
  | None, None => (f_ControlID a ≤ f_ControlID b)%N
  end.
#[global] Instance class_le_dec : RelDecision class_le.
Proof using RelDecision0. intros a b. unfold class_le. repeat case_match; apply _. Defined.

Definition ListEvidenceFreshness (tenantID : UUID) (d : DB) : list FreshnessRow :=
  merge_sort class_le (select_where (λ r, bool_decide (f_TenantID r = tenantID)) (evidence_freshness d)).
End Order.
End Statements.

(** ** The store *)

Section Store.
Context {UT : UUIDText} {PL : Planner}.
Context (collate : string → string → Prop) `{!RelDecision collate}.

Definition inTx {A} (env : Eval.Env) (fn : UUID → Tx DB Error A) : Tx DB Error A :=
  Tenancy.inTx (Eval.env_infra env) (Eval.env_ctx env) fn.

Definition deriveFreshness (r : LatestRow) (now : Time) : ControlFreshness :=
  let class := default "" (l_FreshnessClass r) in
  match l_LatestObservedAt r with
  | None => mkCF (l_ControlID r) class None None true (l_EvidenceCount r) now
  | Some observed =>
      let validUntil := observed + (EvalState.FreshnessMaxAge class).1 in
      mkCF (l_ControlID r) class (Some observed) (Some validUntil) (Before validUntil now) (l_EvidenceCount r) now
  end.

Definition upsertFreshness (id tenantID : UUID) (cf : ControlFreshness) (refreshedAt : Time) : Tx DB Error () := λ d,
  let r := mkFreshness id tenantID (ControlID cf)
             (if bool_decide (FreshnessClass cf = "") then None else Some (FreshnessClass cf))
             (pgTimestamptzPtr (LatestObservedAt cf)) (pgTimestamptzPtr (ValidUntil cf))
             (IsStale cf) (int32 (EvidenceCount cf)) (pgTimestamptz refreshedAt) in
  match UpsertEvidenceFreshness r d with
  | Some d' => (Ok (), d')
  | None => (Err ErrUpsertFreshness, d)
  end.

(** The loop of [Refresh]; [newID i] is what [uuid.New] draws for the i-th row. *)
Fixpoint refreshEach (newID : nat → UUID) (tenantID : UUID) (now : Time) (rows : list LatestRow) (written : nat)
  : Tx DB Error nat :=
  match rows with
  | [] => mret written
  | r :: rows =>
      _ ← upsertFreshness (newID written) tenantID (deriveFreshness r now) now;
      refreshEach newID tenantID now rows (S written)
  end.

Definition Refresh (env : Eval.Env) (newID : nat → UUID) : Tx DB Error nat :=
  let now := Eval.env_clock env in
  inTx env (λ tenantID,
    rows ← tx_gets (ListControlsWithLatestEvidence tenantID);
    refreshEach newID tenantID now rows 0).

Definition controlFreshnessFromRow (r : FreshnessRow) : ControlFreshness :=
  mkCF (f_ControlID r) (default "" (f_FreshnessClass r)) (f_LatestObservedAt r) (f_ValidUntil r) (f_IsStale r)
    (f_EvidenceCount r) (default time_zero (f_RefreshedAt r)).

Definition List (env : Eval.Env) : Tx DB Error (list ControlFreshness) :=
  inTx env (λ tenantID, tx_gets (λ d, controlFreshnessFromRow <$> ListEvidenceFreshness collate tenantID d)).
End Store.
End Freshness.
