(* ===== verification/FreshnessSpec.v ===== *)
(** * What the freshness read model promises

    The table as a finite map from (tenant, control) to the derived columns: an
    upsert is a map insertion, and a refresh overlays the map the evaluation
    engine's own functions would give. *)

From S2P Require Import Prelude GoTime Tenancy EvalState Eval Freshness.

Module FreshnessSpec.
Import ReadModel Freshness.

(** ** The table as a map *)

Record columns := mkColumns {
  col_class : option string;
  col_latest : option Time;
  col_valid : option Time;
  col_stale : bool;
  col_count : Z;
  col_refreshed : option Time;
}.

Definition row_key (r : FreshnessRow) : UUID * UUID := (f_TenantID r, f_ControlID r).
Definition columns_of (r : FreshnessRow) : columns :=
  mkColumns (f_FreshnessClass r) (f_LatestObservedAt r) (f_ValidUntil r) (f_IsStale r) (f_EvidenceCount r)
    (f_RefreshedAt r).
Definition entry (r : FreshnessRow) : (UUID * UUID) * columns := (row_key r, columns_of r).

Definition view (t : list FreshnessRow) : gmap (UUID * UUID) columns := list_to_map (entry <$> t).

(** The unique key of the table. *)
Definition keyed (t : list FreshnessRow) : Prop := NoDup (row_key <$> t).

Lemma entry_keys t : (entry <$> t).*1 = row_key <$> t.
Proof. rewrite <- list_fmap_compose. done. Qed.

Lemma same_key_true t c r : same_key t c r = true ↔ row_key r = (t, c).
Proof.
  unfold same_key, row_key. rewrite andb_true_iff, !bool_decide_eq_true. naive_solver.
Qed.

Lemma existsb_key t c (rows : list FreshnessRow) :
  existsb (same_key t c) rows = true ↔ (t, c) ∈ (row_key <$> rows).
Proof.
  rewrite existsb_exists, list_elem_of_fmap. setoid_rewrite same_key_true. setoid_rewrite <- list_elem_of_In.
  naive_solver.
Qed.

Lemma refreshed_key r x : row_key (refreshed r x) = row_key x.
Proof. done. Qed.

Lemma update_absent r rows :
  row_key r ∉ (row_key <$> rows) →
  update_where (same_key (f_TenantID r) (f_ControlID r)) (refreshed r) rows = rows.
Proof.
  induction rows as [|x rows IH]; [done|]. csimpl. intros [Hx Hrows]%not_elem_of_cons.
  rewrite IH by done. destruct (same_key _ _ x) eqn:E; [|done]. by apply same_key_true in E.
Qed.

Lemma view_update r rows :
  keyed rows → row_key r ∈ (row_key <$> rows) →
  view (update_where (same_key (f_TenantID r) (f_ControlID r)) (refreshed r) rows) =
  <[row_key r := columns_of r]> (view rows).
Proof.
  unfold keyed, view. induction rows as [|x rows IH]; [by intros _ ?%elem_of_nil|]. csimpl.
  intros [Hx Hn]%NoDup_cons [E|Hin]%elem_of_cons.
  - rewrite update_absent by congruence.
    assert (same_key (f_TenantID r) (f_ControlID r) x = true) as -> by by apply same_key_true.
    simpl. rewrite refreshed_key, <- E, insert_insert_eq. done.
  - destruct (same_key (f_TenantID r) (f_ControlID r) x) eqn:K.
    { apply same_key_true in K. rewrite K in Hx. done. }
    simpl. rewrite IH by done. rewrite insert_insert_ne; [done|]. intros E. apply Hx. congruence.
Qed.

Lemma view_append r rows :
  row_key r ∉ (row_key <$> rows) → view (rows ++ [r]) = <[row_key r := columns_of r]> (view rows).
Proof.
  intros H. unfold view. rewrite fmap_app. simpl. unfold entry at 2. apply list_to_map_snoc.
  by rewrite entry_keys.
Qed.

(** ** One upsert *)

(** What a statement leaves alone, and the state it reaches. *)
Definition reaches (d d' : DB) (m : gmap (UUID * UUID) columns) : Prop :=
  ledger d' = ledger d ∧ control_drift_snapshots d' = control_drift_snapshots d ∧
  keyed (evidence_freshness d') ∧ view (evidence_freshness d') = m.

Lemma Upsert_spec r d :
  check_freshness r = true → is_Some (Eval.GetControlByID (f_TenantID r) (f_ControlID r) (ledger d)) →
  keyed (evidence_freshness d) → f_ID r ∉ (f_ID <$> evidence_freshness d) →
  ∃ d', UpsertEvidenceFreshness r d = Some d' ∧
    reaches d d' (<[row_key r := columns_of r]> (view (evidence_freshness d))) ∧
    (∀ i, i ∈ (f_ID <$> evidence_freshness d') → i = f_ID r ∨ i ∈ (f_ID <$> evidence_freshness d)).
Proof.
  intros Hc [c Hg] Hk Hid. unfold UpsertEvidenceFreshness. rewrite Hc, Hg. simpl.
  destruct (existsb _ _) eqn:E.
  - apply existsb_key in E. eexists. split; [done|]. simpl. split.
    + unfold reaches, keyed. simpl. split_and!; try done.
      * rewrite update_where_key by done. done.
      * by apply view_update.
    + intros i Hi. right. rewrite update_where_key in Hi by done. done.
  - assert (row_key r ∉ (row_key <$> evidence_freshness d)) as Hn.
    { intros Hin. change (row_key r) with (f_TenantID r, f_ControlID r) in Hin.
      apply existsb_key in Hin. congruence. }
    rewrite bool_decide_eq_false_2 by done. eexists. split; [done|]. simpl. split.
    + unfold reaches, keyed. simpl. split_and!; try done.
      * rewrite fmap_app. apply NoDup_app. split_and!; [done| |apply NoDup_singleton].
        intros x Hx Hx'%list_elem_of_singleton. by subst.
      * by apply view_append.
    + intros i. rewrite fmap_app, elem_of_app. intros [?|?%list_elem_of_singleton]; auto.
Qed.

(** ** The map the engine's functions give *)

Section Engine.
Context {UT : UUIDText} {PL : Planner}.

(** The evidence a live evaluation of [c] reads. *)
Definition evidence_of (l : Eval.DB) (c : Eval.ControlRow) : list EvalState.allRecord :=
  (Eval.loadEvidence (Eval.c_TenantID c) (Eval.c_ID c) (uuid_String (Eval.c_ID c)) Eval.FarFuture l).

(** The columns of a control's row, in terms of internal/eval: the horizon is the
    freshest observation plus the class's maximum age, and a control is stale
    exactly when the engine would not call its evidence fresh. *)
Definition engine_columns (l : Eval.DB) (now : Time) (c : Eval.ControlRow) : columns :=
  let records := evidence_of l c in
  let class := default "" (Eval.c_FreshnessClass c) in
  let latest := EvalState.latestObservedAt records in
  let seen := negb (bool_decide (records = [])) in
  mkColumns (if bool_decide (class = "") then None else Some class)
    (if seen then Some latest else None)
    (if seen then Some (latest + (EvalState.freshnessMaxAge class).1) else None)
    (negb (bool_decide (EvalState.computeFreshness records class now = EvalState.FreshnessFresh)))
    (Z.of_nat (length records)) (Some now).

Definition engine_view (t : UUID) (now : Time) (l : Eval.DB) : gmap (UUID * UUID) columns :=
  list_to_map ((λ c, ((t, Eval.c_ID c), engine_columns l now c)) <$> active_controls t l).

(** Observations lie between Go's zero time and the far-future horizon of a live
    evaluation, and there are fewer than 2^31 of them. *)
Definition ledger_ok (l : Eval.DB) : Prop :=
  NoDup (Eval.c_ID <$> Eval.controls l) ∧
  (∀ e, e ∈ Eval.evidence_records l → time_zero < Eval.e_ObservedAt e ≤ Eval.FarFuture) ∧
  Z.of_nat (length (Eval.evidence_records l)) < 2 ^ 31.

Lemma joins_evidence_for l c e :
  ledger_ok l → e ∈ Eval.evidence_records l →
  joins c e = Eval.evidence_for (Eval.c_TenantID c) (Eval.c_ID c) (uuid_String (Eval.c_ID c)) Eval.FarFuture e.
Proof using.
  intros (_ & Hb & _) He. unfold joins, Eval.evidence_for. specialize (Hb e He).
  rewrite (bool_decide_eq_true_2 (Eval.e_ObservedAt e ≤ _)) by lia.
  change (IsZero Eval.FarFuture) with false. by rewrite !andb_true_r.
Qed.

Lemma evidence_of_perm l c :
  ledger_ok l →
  evidence_of l c ≡ₚ
  (λ r, EvalState.mkAll (Eval.e_ObservedAt r) (Eval.e_Result r) (Eval.e_Payload r)) <$>
    select_where (joins c) (Eval.evidence_records l).
Proof using.
  intros Hl. unfold evidence_of, Eval.loadEvidence, Eval.ListEvidenceForControlAsOf.
  rewrite merge_sort_Permutation.
  by rewrite (select_where_ext (joins c) _ _ (λ e, joins_evidence_for l c e Hl)).
Qed.

Lemma max_observed_fold es m ts :
  is_max ts m →
  is_max (ts ++ (Eval.e_ObservedAt <$> es))
    (fold_left (λ m e, Some (match m with
                             | Some t => Z.max t (Eval.e_ObservedAt e)
                             | None => Eval.e_ObservedAt e
                             end)) es m).
Proof using.
  revert m ts. induction es as [|e es IH]; intros m ts Hm; csimpl; [by rewrite app_nil_r|].
  rewrite (cons_middle (Eval.e_ObservedAt e) ts), app_assoc. apply IH. destruct m as [t|]; simpl in *.
  - destruct Hm as [Hin Hle]. split.
    + destruct (Z.max_spec t (Eval.e_ObservedAt e)) as [[_ ->]|[_ ->]]; set_solver.
    + intros u [Hu| ->%list_elem_of_singleton]%elem_of_app; [specialize (Hle u Hu)|]; lia.
  - subst. split; [set_solver|]. intros u [[]%elem_of_nil| ->%list_elem_of_singleton]%elem_of_app. lia.
Qed.

Lemma max_observed_is_max es : is_max (Eval.e_ObservedAt <$> es) (max_observed es).
Proof using. apply (max_observed_fold es None []). done. Qed.

Lemma latestObservedAt_is_max rs :
  (∀ r, r ∈ rs → time_zero < EvalState.all_observedAt r) → rs ≠ [] →
  is_max (EvalState.all_observedAt <$> rs) (Some (EvalState.latestObservedAt rs)).
Proof using.
  intros Hpos Hnil. destruct (EvalState.latest_fold rs time_zero) as (_ & Hle & Hor). split.
  - destruct Hor as [E|(r & Hr & E)].
    + destruct rs as [|r rs]; [done|]. specialize (Hle r ltac:(left)). specialize (Hpos r ltac:(left)).
      unfold time_zero in *. lia.
    + apply list_elem_of_fmap. eauto.
  - intros u (r & -> & Hr)%list_elem_of_fmap. by apply Hle.
Qed.

(** The aggregate row of a control, in the engine's terms. *)
Lemma latest_row_engine l c :
  ledger_ok l →
  let rs := evidence_of l c in
  latest_row l c =
  mkLatest (Eval.c_ID c) (Eval.c_FreshnessClass c)
    (if bool_decide (rs = []) then None else Some (EvalState.latestObservedAt rs)) (Z.of_nat (length rs)) ∧
  Z.of_nat (length rs) < 2 ^ 31 ∧ (rs ≠ [] → time_zero < EvalState.latestObservedAt rs).
Proof using.
  intros Hl rs. pose proof (evidence_of_perm l c Hl) as Hp. fold rs in Hp.
  set (es := select_where (joins c) (Eval.evidence_records l)) in *.
  assert (Hes : ∀ e, e ∈ es → e ∈ Eval.evidence_records l) by (intros e ?%elem_of_select_where; tauto).
  assert (Hlen : length rs = length es) by by rewrite Hp, length_fmap.
  assert (Hpos : ∀ r, r ∈ rs → time_zero < EvalState.all_observedAt r).
  { intros r. rewrite Hp. intros (e & -> & He)%list_elem_of_fmap. apply (proj1 (proj2 Hl)), Hes, He. }
  assert (Hobs : (EvalState.all_observedAt <$> rs) ≡ₚ (Eval.e_ObservedAt <$> es)).
  { rewrite Hp, <- list_fmap_compose. done. }
  split_and!.
  - unfold latest_row. fold es. rewrite Hlen. f_equal. symmetry.
    apply (is_max_unique _ _ _ _ Hobs); [|apply max_observed_is_max].
    case_bool_decide as E; [by rewrite E|by apply latestObservedAt_is_max].
  - rewrite Hlen. pose proof (length_filter (λ e, joins c e = true) (Eval.evidence_records l)) as Hf.
    change (filter _ _) with es in Hf. pose proof (proj2 (proj2 Hl)). lia.
  - intros Hnil. destruct (latestObservedAt_is_max rs Hpos Hnil) as [(r & -> & Hr)%list_elem_of_fmap _]. by apply Hpos.
Qed.

(** The row a refresh writes for [c]. *)
Definition written_row (id t : UUID) (l : Eval.DB) (now : Time) (c : Eval.ControlRow) : FreshnessRow :=
  let k := engine_columns l now c in
  mkFreshness id t (Eval.c_ID c) (col_class k) (col_latest k) (col_valid k) (col_stale k) (col_count k) (col_refreshed k).

Lemma freshnessMaxAge_pos class : 0 < (EvalState.freshnessMaxAge class).1.
Proof using.
  unfold EvalState.freshnessMaxAge. destruct (EvalState.freshnessMaxAgeTable !! class) as [a|] eqn:E; [|done].
  simpl. revert E. unfold EvalState.freshnessMaxAgeTable. rewrite !lookup_insert_Some, lookup_singleton_Some.
  unfold time_Hour. lia.
Qed.

Lemma computeFreshness_fresh rs class now :
  EvalState.computeFreshness rs class now = EvalState.FreshnessFresh ↔
  rs ≠ [] ∧ now ≤ EvalState.latestObservedAt rs + (EvalState.freshnessMaxAge class).1.
Proof using.
  unfold EvalState.computeFreshness, Before, EvalState.cutoff. case_bool_decide; [naive_solver|].
  case_bool_decide; split; try done; [intros [_ ?]; exfalso; lia|]. intros _. split; [done|lia].
Qed.

Lemma upsertFreshness_derived id t l now c d :
  ledger_ok l → now ≠ time_zero →
  upsertFreshness id t (deriveFreshness (latest_row l c) now) now d =
  match UpsertEvidenceFreshness (written_row id t l now c) d with
  | Some d' => (Ok (), d')
  | None => (Err ErrUpsertFreshness, d)
  end ∧
  check_freshness (written_row id t l now c) = true.
Proof using.
  intros Hl Hnow. destruct (latest_row_engine l c Hl) as (-> & Hlen & Hpos).
  unfold written_row, engine_columns. set (rs := evidence_of l c) in *.
  set (class := default "" (Eval.c_FreshnessClass c)).
  pose proof (freshnessMaxAge_pos class) as Hage. pose proof (computeFreshness_fresh rs class now) as Hf.
  unfold upsertFreshness, deriveFreshness. simpl.
  assert (Hz : pgTimestamptz now = Some now).
  { unfold pgTimestamptz, IsZero. by rewrite bool_decide_eq_false_2. }
  rewrite Hz. destruct (bool_decide_reflect (rs = [])) as [E|E]; simpl.
  - fold class. rewrite int32_small by lia. split.
    + rewrite (bool_decide_eq_false_2 (_ = EvalState.FreshnessFresh)) by tauto. done.
    + unfold check_freshness. simpl. rewrite (bool_decide_eq_false_2 (_ = EvalState.FreshnessFresh)) by tauto.
      rewrite E. done.
  - specialize (Hpos E). fold class. set (m := EvalState.latestObservedAt rs) in *.
    unfold time_zero in *.
    assert (Hm : pgTimestamptz m = Some m).
    { unfold pgTimestamptz, IsZero, time_zero. rewrite bool_decide_eq_false_2 by lia. done. }
    assert (Hv : pgTimestamptz (m + (EvalState.freshnessMaxAge class).1) = Some (m + (EvalState.freshnessMaxAge class).1)).
    { unfold pgTimestamptz, IsZero, time_zero. rewrite bool_decide_eq_false_2 by lia. done. }
    rewrite Hm, Hv, int32_small by lia. split.
    + assert (Before (m + (EvalState.freshnessMaxAge class).1) now =
              negb (bool_decide (EvalState.computeFreshness rs class now = EvalState.FreshnessFresh))) as ->; [|done].
      unfold Before. rewrite <- bool_decide_not. apply bool_decide_ext. rewrite Hf. split; [lia|].
      intros Hn. apply Z.nle_gt. tauto.
    + unfold check_freshness. simpl. rewrite bool_decide_eq_true_2 by lia. done.
Qed.

(** ** The refresh *)

(** Identifiers drawn from position [n] on are new to the table and distinct. *)
Definition new_ids (newID : nat → UUID) (n : nat) (d : DB) : Prop :=
  (∀ i j, newID i = newID j → i = j) ∧ ∀ i, (n ≤ i)%nat → newID i ∉ (f_ID <$> evidence_freshness d).

Definition entries (t : UUID) (now : Time) (l : Eval.DB) (cs : list Eval.ControlRow) : list ((UUID * UUID) * columns) :=
  (λ c, ((t, Eval.c_ID c), engine_columns l now c)) <$> cs.

(** Every identifier in the table was there before or was drawn. *)
Definition ids_from (newID : nat → UUID) (d d' : DB) : Prop :=
  ∀ i, i ∈ (f_ID <$> evidence_freshness d') → i ∈ (f_ID <$> evidence_freshness d) ∨ ∃ k, i = newID k.

Lemma refreshEach_spec newID t now cs n d :
  ledger_ok (ledger d) → now ≠ time_zero → keyed (evidence_freshness d) → new_ids newID n d →
  (∀ c, c ∈ cs → is_Some (Eval.GetControlByID t (Eval.c_ID c) (ledger d))) →
  NoDup (Eval.c_ID <$> cs) →
  ∃ d', refreshEach newID t now (latest_row (ledger d) <$> cs) n d = (Ok (n + length cs)%nat, d') ∧
    reaches d d' (list_to_map (entries t now (ledger d) cs) ∪ view (evidence_freshness d)) ∧ ids_from newID d d'.
Proof using.
  intros Hl Hnow. revert n d Hl. induction cs as [|c cs IH]; intros n d Hl Hk [Hinj Hnew] Hfk Hnd.
  { exists d. simpl. rewrite Nat.add_0_r. unfold reaches. simpl. rewrite map_empty_union. split_and!; try done. intros i; auto. }
  csimpl in *. apply NoDup_cons in Hnd as [Hc Hnd].
  destruct (upsertFreshness_derived (newID n) t (ledger d) now c d Hl Hnow) as [Hu Hck].
  destruct (Upsert_spec (written_row (newID n) t (ledger d) now c) d) as (d1 & E1 & (HL & HS & HK & HV) & Hids);
    [done|apply (Hfk c); left|done|by apply Hnew|].
  rewrite E1 in Hu. unfold mbind, tx_bind. rewrite Hu.
  destruct (IH (S n) d1) as (d2 & E2 & (HL2 & HS2 & HK2 & HV2) & Hids2).
  - by rewrite HL.
  - done.
  - split; [done|]. intros i Hi [E|Hin]%Hids; [apply (Hinj i n) in E; lia|]. apply (Hnew i); [lia|done].
  - intros x Hx. rewrite HL. apply Hfk. by right.
  - done.
  - rewrite HL in E2, HV2. exists d2. split; [rewrite E2, Nat.add_succ_comm; done|].
    unfold reaches. rewrite HL2, HS2. split_and!; try done.
    2:{ intros i [[->|?]%Hids|?]%Hids2; [right; by exists n|by left|by right]. }
    rewrite HV2, HV. simpl.
    rewrite <- insert_union_l. symmetry. apply insert_union_r. apply not_elem_of_list_to_map_1.
    unfold entries. rewrite <- list_fmap_compose. intros (x & E & Hx)%list_elem_of_fmap. apply Hc.
    apply list_elem_of_fmap. exists x. split; [by injection E|done].
Qed.

Lemma active_in_controls t l c :
  c ∈ active_controls t l → c ∈ Eval.controls l ∧ Eval.c_TenantID c = t.
Proof using.
  intros [H Hin]%elem_of_select_where. apply andb_true_iff in H as [H%bool_decide_eq_true _]. done.
Qed.

Lemma control_found t l c :
  c ∈ active_controls t l → is_Some (Eval.GetControlByID t (Eval.c_ID c) l).
Proof using.
  intros [Hin <-]%active_in_controls. unfold Eval.GetControlByID.
  destruct (select_where _ (Eval.controls l)) as [|x xs] eqn:E; [|by eexists].
  assert (c ∈ @nil Eval.ControlRow) as []%elem_of_nil. rewrite <- E. apply elem_of_select_where.
  split; [|done]. by rewrite !bool_decide_eq_true_2.
Qed.

Lemma active_NoDup t l : ledger_ok l → NoDup (Eval.c_ID <$> active_controls t l).
Proof using.
  intros (Hn & _). unfold active_controls, select_where.
  eapply sublist_NoDup; [exact Hn|]. apply fmap_sublist, sublist_filter.
Qed.

Lemma engine_view_plan t now l :
  ledger_ok l → list_to_map (entries t now l (plan (active_controls t l))) = engine_view t now l.
Proof using.
  intros Hl. unfold engine_view. fold (entries t now l (active_controls t l)).
  apply list_to_map_proper.
  - unfold entries. rewrite <- list_fmap_compose.
    change (NoDup ((λ c, (t, Eval.c_ID c)) <$> plan (active_controls t l))).
    rewrite plan_perm. rewrite (list_fmap_compose Eval.c_ID (λ i, (t, i))).
    apply NoDup_fmap_2; [by intros ?? [= ->]|by apply active_NoDup].
  - unfold entries. by rewrite plan_perm.
Qed.

Lemma Refresh_spec ctx t now newID d :
  tenant_of ctx = Some t → now ≠ time_zero → ledger_ok (ledger d) → keyed (evidence_freshness d) →
  new_ids newID 0 d →
  ∃ d', Refresh (Eval.mkEnv ctx healthy now) newID d = (Ok (length (active_controls t (ledger d))), d') ∧
    reaches d d' (engine_view t now (ledger d) ∪ view (evidence_freshness d)) ∧ ids_from newID d d'.
Proof using.
  intros Ht Hnow Hl Hk Hnew. unfold Refresh, inTx. simpl. rewrite (inTx_healthy (λ d : DB, d) ctx t) by done.
  unfold mbind, tx_bind. simpl.
  destruct (refreshEach_spec newID t now (plan (active_controls t (ledger d))) 0 d) as (d' & E & Hr & Hi); try done.
  - intros c. rewrite elem_of_plan. apply control_found.
  - rewrite plan_perm. by apply active_NoDup.
  - change (ListControlsWithLatestEvidence t d) with (latest_row (ledger d) <$> plan (active_controls t (ledger d))).
    rewrite E. exists d'. rewrite plan_perm. rewrite engine_view_plan in Hr by done. done.
Qed.

(** C17: a refresh of the freshness read model on a healthy pool succeeds, counts
    every active control of the tenant, touches neither ledger, and leaves the
    table, seen as a map from (tenant, control), equal to the old map overlaid
    with the engine's own verdicts: a control is marked stale exactly when
    internal/eval would not classify its evidence as fresh at that instant, and
    the rows of superseded controls and of other tenants are untouched. *)
Theorem Refresh_agrees_with_engine ctx t now newID d :
  tenant_of ctx = Some t → now ≠ time_zero → ledger_ok (ledger d) → keyed (evidence_freshness d) →
  new_ids newID 0 d →
  ∃ d', Refresh (Eval.mkEnv ctx healthy now) newID d = (Ok (length (active_controls t (ledger d))), d') ∧
    ledger d' = ledger d ∧ control_drift_snapshots d' = control_drift_snapshots d ∧
    keyed (evidence_freshness d') ∧
    view (evidence_freshness d') = engine_view t now (ledger d) ∪ view (evidence_freshness d).
Proof using.
  intros. destruct (Refresh_spec ctx t now newID d) as (d' & ? & ? & _); try done. by exists d'.
Qed.
End Engine.

(** ** A tenant with two controls, one of them stale *)

Module Demo.
#[local] Existing Instance binary_uuid.
#[local] Existing Instance table_order.

Definition tenant : UUID := 7%N.
Definition ctx : Context := {| ctx_tenant := Some (uuid_String tenant) |}.
Definition day (n : Z) : Time := (739000 + n) * ns_per_day.
Definition noon (n : Z) : Time := day n + 12 * time_Hour.

Definition controls : list Eval.ControlRow :=
  [Eval.mkControl 1%N tenant "access-review" None (Some "daily") ""; Eval.mkControl 2%N tenant "backups" None None ""].
Definition evidence : list Eval.EvidenceRow :=
  [Eval.mkEvidence tenant (Some 1%N) "" (noon (-9)) "pass" "{}"; Eval.mkEvidence tenant None (uuid_String 2%N) (noon (-9)) "pass" "{}"].

Definition evals : list Eval.EvalRow :=
  [Eval.mkEval 21%N tenant 1%N None 31%N (noon (-9)) "pass" "fresh" 1 (Some (noon (-9))) (Some "daily") "ingest";
   Eval.mkEval 22%N tenant 2%N None 32%N (noon (-9)) "pass" "fresh" 1 (Some (noon (-9))) None "ingest";
   Eval.mkEval 23%N tenant 1%N None 33%N (noon 0) "inconclusive" "stale" 0 (Some (noon (-9))) (Some "daily") "scheduled"].

Definition l0 : Eval.DB := (Eval.mkDB controls evidence [] evals).
Definition d0 : DB := mkDB l0 [] [].
Definition ids (base : N) (i : nat) : UUID := (base + 2 * N.of_nat i)%N.

Lemma ledger_demo : ledger_ok l0.
Proof.
  split_and!; [apply (bool_decide_unpack _); vm_compute; exact I| |done].
  intros e He. repeat (apply elem_of_cons in He as [->|He]; [vm_compute; split; [done|congruence]|]). by apply elem_of_nil in He.
Qed.

Lemma ids_inj base i j : ids base i = ids base j → i = j.
Proof. unfold ids. lia. Qed.

Lemma Refresh_agrees_with_engine_witness :
  ∃ d', Refresh (Eval.mkEnv ctx healthy (noon 0)) (ids 100) d0 = (Ok 2%nat, d') ∧
    col_stale <$> view (evidence_freshness d') !! (tenant, 1%N) = Some true ∧
    col_stale <$> view (evidence_freshness d') !! (tenant, 2%N) = Some false.
Proof.
  destruct (Refresh_agrees_with_engine ctx tenant (noon 0) (ids 100) d0) as (d' & E & _ & _ & _ & V).
  - reflexivity.
  - done.
  - exact ledger_demo.
  - constructor.
  - split; [apply ids_inj|]. intros i _. apply not_elem_of_nil.
  - exists d'. split; [exact E|]. rewrite V. split; vm_compute; reflexivity.
Defined.
End Demo.
End FreshnessSpec.
