(* ===== verification/Drift.v ===== *)
(** * The control-drift read model and the workers that refresh both models

    Models internal/drift/drift.go (daily snapshots of the passing controls and
    the drift report) and internal/freshnessdrift/worker.go (the daily sweep and
    the refresh on ingest). *)

From Stdlib Require Import SpecFloat.
From S2P Require Import Prelude GoTime Tenancy EvalState Eval Freshness.

Module Drift.
Import ReadModel.

Definition TriggerScheduled : string := "scheduled".
Definition TriggerIngest : string := "ingest".
Definition TriggerManual : string := "manual".

Record Snapshot := mkSnapshot {
  SnapshotDate : Time;
  ControlsPassing : Z;
  PassingControlIDs : list UUID;
  CapturedAt : Time;
  Trigger : string;
}.

Record DriftRow := mkDrift { ControlID : UUID; LastPassing : Time; CurrentResult : string }.

Record DriftReport := mkReport {
  SinceDate : Time;
  ThroughDate : Time;
  Delta : Z;
  FlippedToOut : list DriftRow;
  Snapshots : list Snapshot;
}.

Definition pgDate (t : Time) : option Time := if IsZero t then None else Some (truncDate t).

(** ** Statements *)

Definition evals_as_of (tenantID : UUID) (asOf : option Time) (d : DB) : list Eval.EvalRow :=
  select_where (λ r, bool_decide (Eval.v_TenantID r = tenantID) &&
                     match asOf with Some a => bool_decide (Eval.v_EvaluatedAt r ≤ a) | None => false end)
    (Eval.control_evaluations (ledger d)).

(** [DISTINCT ON (control_id, scope_cell_id) ... ORDER BY ..., evaluated_at DESC, created_at DESC] *)
Definition latest_in_cell (rows : list Eval.EvalRow) (c : UUID) (cell : option UUID) : option Eval.EvalRow :=
  (Eval.latest_of (select_where (λ r, bool_decide (Eval.v_ControlID r = c) && bool_decide (Eval.v_ScopeCellID r = cell)) rows)).

Definition cells_evaluated (rows : list Eval.EvalRow) (c : UUID) : list (option UUID) :=
  remove_dups (Eval.v_ScopeCellID <$> select_where (λ r, bool_decide (Eval.v_ControlID r = c)) rows).

Definition latest_per_cell (rows : list Eval.EvalRow) (c : UUID) : list Eval.EvalRow :=
  omap (latest_in_cell rows c) (cells_evaluated rows c).

Definition pass_and_fresh (r : Eval.EvalRow) : bool :=
  bool_decide (Eval.v_Result r = EvalState.ResultPass) &&
  bool_decide (Eval.v_FreshnessStatus r = EvalState.FreshnessFresh).

Section Statements.
Context {PL : Planner}.

Definition ListPassingControlsForDay (tenantID : UUID) (asOf : option Time) (d : DB) : list UUID :=
  let rows := evals_as_of tenantID asOf d in
  select_where (λ c, forallb pass_and_fresh (latest_per_cell rows c))
    (plan (remove_dups (Eval.v_ControlID <$> rows))).
End Statements.

Definition check_snapshot (r : SnapshotRow) : bool :=
  bool_decide (is_Some (s_SnapshotDate r)) &&
  bool_decide (0 ≤ s_ControlsPassing r) &&
  (bool_decide (s_Trigger r = TriggerScheduled) || bool_decide (s_Trigger r = TriggerIngest) ||
   bool_decide (s_Trigger r = TriggerManual)) &&
  bool_decide (s_ControlsPassing r = Z.of_nat (length (s_PassingControlIds r))).

Definition InsertDriftSnapshot (r : SnapshotRow) (d : DB) : option DB :=
  if check_snapshot r && negb (bool_decide (s_ID r ∈ (s_ID <$> control_drift_snapshots d)))
  then Some (mkDB (ledger d) (evidence_freshness d) (control_drift_snapshots d ++ [r]))
  else None.

(** The row of a day with the greatest [captured_at]; of two captured at the same
    instant, the one inserted last. *)
Definition latest_captured (rows : list SnapshotRow) : option SnapshotRow :=
  fold_left (λ best r, match best with
                       | Some b => if bool_decide (s_CapturedAt b ≤ s_CapturedAt r) then Some r else best
                       | None => Some r
                       end) rows None.

Definition since_rows (tenantID : UUID) (since : option Time) (d : DB) : list SnapshotRow :=
  select_where (λ r, bool_decide (s_TenantID r = tenantID) &&
                     match since, s_SnapshotDate r with
                     | Some a, Some day => bool_decide (a ≤ day)
                     | _, _ => false
                     end) (control_drift_snapshots d).

Definition on_day (day : Time) (r : SnapshotRow) : bool := bool_decide (s_SnapshotDate r = Some day).

(** [DISTINCT ON (snapshot_date) ... ORDER BY snapshot_date DESC, captured_at DESC] *)
Definition ListLatestDriftSnapshotsSince (tenantID : UUID) (since : option Time) (d : DB) : list SnapshotRow :=
  let rows := since_rows tenantID since d in
  omap (λ day, latest_captured (select_where (on_day day) rows))
    (merge_sort Z.ge (remove_dups (omap s_SnapshotDate rows))).

(** ** The report *)

Definition computeDelta (snaps : list Snapshot) : Z :=
  match head snaps, last snaps with
  | Some earliest, Some latest => ControlsPassing latest - ControlsPassing earliest
  | _, _ => 0
  end.

(** The loop body: [m[id]] reads the zero time when the key is missing. *)
Definition note_passing (latestPassing : gset UUID) (day : Time) (m : gmap UUID Time) (id : UUID) : gmap UUID Time :=
  if bool_decide (id ∈ latestPassing) then m
  else if After day (default time_zero (m !! id)) then <[id := day]> m else m.

Definition note_snapshot (latestPassing : gset UUID) (m : gmap UUID Time) (snap : Snapshot) : gmap UUID Time :=
  fold_left (note_passing latestPassing (SnapshotDate snap)) (PassingControlIDs snap) m.

Definition lastPassingDay (snaps : list Snapshot) (latestPassing : gset UUID) : gmap UUID Time :=
  fold_left (note_snapshot latestPassing) snaps ∅.

Definition computeFlips {PL : Planner} (snaps : list Snapshot) : list DriftRow :=
  if bool_decide (length snaps < 2)%nat then []
  else
    match last snaps with
    | None => []
    | Some latest =>
        (λ p : UUID * Time, mkDrift p.1 p.2 "not_passing") <$>
          plan (map_to_list (lastPassingDay snaps (list_to_set (PassingControlIDs latest))))
    end.

Definition snapshotFromRow (r : SnapshotRow) : Snapshot :=
  mkSnapshot (default time_zero (s_SnapshotDate r)) (s_ControlsPassing r) (s_PassingControlIds r)
    (s_CapturedAt r) (s_Trigger r).

(** [since.Hours()], in float64, and the truncating conversion to [int]. *)
Definition float64 (z : Z) : spec_float := binary_normalize 53 1024 z 0 false.
Definition Hours (d : Duration) : spec_float :=
  SFadd 53 1024 (float64 (Z.quot d time_Hour)) (SFdiv 53 1024 (float64 (Z.rem d time_Hour)) (float64 time_Hour)).
Definition int_of_float (f : spec_float) : Z :=
  match f with
  | S754_finite s m e =>
      let a := if e <? 0 then Z.pos m / 2 ^ (- e) else Z.pos m * 2 ^ e in
      if s then - a else a
  | _ => 0
  end.

Definition sinceDays (since : Duration) : Z :=
  let n := int_of_float (SFdiv 53 1024 (Hours since) (float64 24)) in
  if n <? 1 then 1 else n.

(** ** The store *)

Section Store.
Context {UT : UUIDText} {PL : Planner}.

Definition inTx {A} (env : Eval.Env) (fn : UUID → Tx DB Error A) : Tx DB Error A :=
  Tenancy.inTx (Eval.env_infra env) (Eval.env_ctx env) fn.

(** [dbNow] is the [now()] the column default of [captured_at] takes. *)
Definition CaptureSnapshot (env : Eval.Env) (newID : UUID) (dbNow : Time) (trigger : string) : Tx DB Error Snapshot :=
  let now := Eval.env_clock env in
  inTx env (λ tenantID d,
    let passing := ListPassingControlsForDay tenantID (pgTimestamptz now) d in
    let row := mkSnapshotRow newID tenantID (pgDate now) (int32 (Z.of_nat (length passing))) passing dbNow trigger in
    match InsertDriftSnapshot row d with
    | None => (Err ErrInsertSnapshot, d)
    | Some d' => (Ok (snapshotFromRow row), d')
    end).

Definition Report (env : Eval.Env) (since : Duration) : Tx DB Error DriftReport :=
  let now := Eval.env_clock env in
  let sinceDate := AddDate now 0 0 (- sinceDays since) in
  inTx env (λ tenantID d,
    let rows := ListLatestDriftSnapshotsSince tenantID (pgDate sinceDate) d in
    let snaps := reverse (snapshotFromRow <$> rows) in
    (Ok (mkReport (truncDate sinceDate) (truncDate now) (computeDelta snaps) (computeFlips snaps) snaps), d)).
End Store.
End Drift.

(** ** The refresh workers *)

Module FreshnessDrift.
Import ReadModel.

Section Workers.
Context {UT : UUIDText} {PL : Planner}.

(** What one refresh draws from outside: the identifiers of new rows and the
    database clock. *)
Record Draw := mkDraw { freshness_ids : nat → UUID; snapshot_id : UUID; db_now : Time }.

Definition RefreshTenant (env : Eval.Env) (draw : Draw) (trigger : string) : Tx DB Error () :=
  _ ← Freshness.Refresh env (freshness_ids draw);
  _ ← Drift.CaptureSnapshot env (snapshot_id draw) (db_now draw) trigger;
  mret ().

Definition with_ctx (env : Eval.Env) (ctx : Context) : Eval.Env :=
  (Eval.mkEnv ctx (Eval.env_infra env) (Eval.env_clock env)).

(** A tenant whose refresh fails is logged and skipped. *)
Fixpoint sweepTenants (env : UUID → Eval.Env) (draw : UUID → Draw) (tenants : list UUID) (swept : nat) (d : DB) : nat * DB :=
  match tenants with
  | [] => (swept, d)
  | t :: tenants =>
      match WithTenant (Eval.env_ctx (env t)) (uuid_String t) with
      | Err _ => sweepTenants env draw tenants swept d
      | Ok ctx =>
          match RefreshTenant (with_ctx (env t) ctx) (draw t) Drift.TriggerScheduled d with
          | (Err _, d') => sweepTenants env draw tenants swept d'
          | (Ok _, d') => sweepTenants env draw tenants (S swept) d'
          end
      end
  end.

Definition SweepOnce (env : UUID → Eval.Env) (draw : UUID → Draw) (d : DB) : nat * DB :=
  sweepTenants env draw (plan (Eval.ListTenantsWithActiveControls (ledger d))) 0 d.

(** The tenant header of the message is all the subscriber reads. *)
Definition handle (env : Eval.Env) (draw : Draw) (tenantHeader : string) (d : DB) : Eval.disposition * DB :=
  match uuid_Parse tenantHeader with
  | None => (Eval.Term, d)
  | Some tenantID =>
      match WithTenant (Eval.env_ctx env) (uuid_String tenantID) with
      | Err _ => (Eval.Term, d)
      | Ok ctx =>
          match RefreshTenant (with_ctx env ctx) draw Drift.TriggerIngest d with
          | (Err _, d') => (Eval.Nak, d')
          | (Ok _, d') => (Eval.Ack, d')
          end
      end
  end.
End Workers.

(** The daily loop: one wake-up at [now], with the outcome of the sweep it may
    run.  The day is remembered unless the sweep failed. *)
Definition wake (lastSweptDay : option Z) (now : Time) (sweep_ok : bool) : bool * option Z :=
  let day := day_of now in
  if bool_decide (lastSweptDay = Some day) then (false, lastSweptDay)
  else (true, if sweep_ok then Some day else lastSweptDay).
End FreshnessDrift.
