(* ===== verification/DriftSpec.v ===== *)
(** * What the drift read model promises

    The passing set of a snapshot, the drift report as a function of the official
    snapshots of the window, and that redelivering an ingest message changes
    neither read model. *)

From S2P Require Import Prelude GoTime Tenancy EvalState Eval Freshness FreshnessSpec Drift.

Module DriftSpec.
Import ReadModel Drift.

(** ** The passing set *)

(** The evaluations of a control in a cell; the last of the greatest [evaluated_at]
    is the cell's current state. *)
Definition cell_rows (rows : list Eval.EvalRow) (c : UUID) (cell : option UUID) : list Eval.EvalRow :=
  select_where (λ r, bool_decide (Eval.v_ControlID r = c) && bool_decide (Eval.v_ScopeCellID r = cell)) rows.

(** Worst-cell roll-up: evaluated somewhere, and passing on fresh evidence in
    every cell it was evaluated in. *)
Definition passing (rows : list Eval.EvalRow) (c : UUID) : Prop :=
  c ∈ (Eval.v_ControlID <$> rows) ∧
  ∀ cell r, last_max Eval.v_EvaluatedAt (cell_rows rows c cell) r →
    Eval.v_Result r = EvalState.ResultPass ∧ Eval.v_FreshnessStatus r = EvalState.FreshnessFresh.

Lemma latest_in_cell_spec rows c cell r :
  latest_in_cell rows c cell = Some r ↔ last_max Eval.v_EvaluatedAt (cell_rows rows c cell) r.
Proof.
  pose proof (last_max_fold Eval.v_EvaluatedAt (cell_rows rows c cell)) as H.
  change (fold_left _ _ None) with (latest_in_cell rows c cell) in H.
  destruct (latest_in_cell rows c cell) as [x|]; split; intros Hr; try done.
  - by injection Hr as <-.
  - f_equal. by eapply last_max_unique.
  - apply last_max_elem in Hr. rewrite H in Hr. by apply elem_of_nil in Hr.
Qed.

Lemma elem_of_cell_rows rows c cell r :
  r ∈ cell_rows rows c cell ↔ Eval.v_ControlID r = c ∧ Eval.v_ScopeCellID r = cell ∧ r ∈ rows.
Proof.
  unfold cell_rows. rewrite elem_of_select_where, andb_true_iff, !bool_decide_eq_true. tauto.
Qed.

Lemma passing_spec rows c :
  forallb pass_and_fresh (latest_per_cell rows c) = true ↔
  ∀ cell r, last_max Eval.v_EvaluatedAt (cell_rows rows c cell) r →
    Eval.v_Result r = EvalState.ResultPass ∧ Eval.v_FreshnessStatus r = EvalState.FreshnessFresh.
Proof.
  assert (Hpf : ∀ r, pass_and_fresh r = true ↔
                  Eval.v_Result r = EvalState.ResultPass ∧ Eval.v_FreshnessStatus r = EvalState.FreshnessFresh).
  { intros r. unfold pass_and_fresh. by rewrite andb_true_iff, !bool_decide_eq_true. }
  setoid_rewrite <- Hpf. rewrite forallb_forall. setoid_rewrite <- latest_in_cell_spec. unfold latest_per_cell. split.
  - intros H cell r Hr. apply H, list_elem_of_In, list_elem_of_omap. exists cell. split; [|done].
    apply latest_in_cell_spec, last_max_elem, elem_of_cell_rows in Hr as (Hc & <- & Hin).
    unfold cells_evaluated. apply elem_of_remove_dups, list_elem_of_fmap_2, elem_of_select_where.
    split; [by rewrite bool_decide_eq_true_2|done].
  - intros H r Hr. apply list_elem_of_In, list_elem_of_omap in Hr as (cell & _ & Hr). eauto.
Qed.

Section Capture.
Context {UT : UUIDText} {PL : Planner}.

Lemma elem_of_passing t asOf d c :
  c ∈ ListPassingControlsForDay t asOf d ↔ passing (evals_as_of t asOf d) c.
Proof using.
  unfold ListPassingControlsForDay. rewrite elem_of_select_where, elem_of_plan, elem_of_remove_dups, passing_spec.
  unfold passing. tauto.
Qed.

Lemma passing_NoDup t asOf d : NoDup (ListPassingControlsForDay t asOf d).
Proof using.
  unfold ListPassingControlsForDay, select_where. apply NoDup_filter. rewrite plan_perm. apply NoDup_remove_dups.
Qed.

Definition trigger_ok (trigger : string) : bool :=
  bool_decide (trigger = TriggerScheduled) || bool_decide (trigger = TriggerIngest) ||
  bool_decide (trigger = TriggerManual).

(** The row a capture appends. *)
Definition captured_row (id t : UUID) (now dbNow : Time) (trigger : string) (d : DB) : SnapshotRow :=
  let ids := ListPassingControlsForDay t (Some now) d in
  mkSnapshotRow id t (Some (day_of now * ns_per_day)) (Z.of_nat (length ids)) ids dbNow trigger.

Definition few_evals (d : DB) : Prop := Z.of_nat (length (Eval.control_evaluations (ledger d))) < 2 ^ 31.

Lemma passing_few t asOf d : few_evals d → Z.of_nat (length (ListPassingControlsForDay t asOf d)) < 2 ^ 31.
Proof using.
  unfold few_evals. intros H.
  assert (length (ListPassingControlsForDay t asOf d) ≤ length (evals_as_of t asOf d))%nat as Hle.
  { rewrite <- (length_fmap Eval.v_ControlID). apply submseteq_length, NoDup_submseteq; [apply passing_NoDup|].
    intros c Hc%elem_of_passing. apply Hc. }
  pose proof (length_filter (λ r, bool_decide (Eval.v_TenantID r = t) &&
     match asOf with Some a => bool_decide (Eval.v_EvaluatedAt r ≤ a) | None => false end = true)
     (Eval.control_evaluations (ledger d))) as Hf.
  change (filter _ _) with (evals_as_of t asOf d) in Hf. lia.
Qed.

Lemma CaptureSnapshot_eq ctx t now id dbNow trigger d :
  tenant_of ctx = Some t → now ≠ time_zero → few_evals d → trigger_ok trigger = true →
  id ∉ (s_ID <$> control_drift_snapshots d) →
  let row := captured_row id t now dbNow trigger d in
  CaptureSnapshot (Eval.mkEnv ctx healthy now) id dbNow trigger d =
  (Ok (snapshotFromRow row),
   mkDB (ledger d) (evidence_freshness d) (control_drift_snapshots d ++ [row])).
Proof using.
  intros Ht Hnow Hfew Htr Hid row. unfold CaptureSnapshot, inTx. simpl.
  rewrite (inTx_healthy (λ d : DB, d) ctx t) by done.
  unfold pgTimestamptz, pgDate, IsZero. rewrite bool_decide_eq_false_2 by done.
  pose proof (passing_few t (Some now) d Hfew) as Hlt.
  rewrite int32_small by lia. rewrite truncDate_spec. fold (captured_row id t now dbNow trigger d). fold row.
  unfold InsertDriftSnapshot, check_snapshot. fold (trigger_ok (s_Trigger row)).
  change (s_Trigger row) with trigger. rewrite Htr. subst row. simpl.
  rewrite (bool_decide_eq_false_2 (id ∈ _)) by done. rewrite bool_decide_eq_true_2 by lia.
  rewrite bool_decide_eq_true_2 by done. done.
Qed.

(** A drift snapshot appends one row for the UTC day of the clock and changes
    nothing else; the row's set has no duplicates and holds exactly the controls
    whose latest evaluation as of now passes on fresh evidence in every cell they
    were evaluated in, and its count is the size of that set. *)
Theorem CaptureSnapshot_records_passing ctx t now id dbNow trigger d :
  tenant_of ctx = Some t → now ≠ time_zero → few_evals d → trigger_ok trigger = true →
  id ∉ (s_ID <$> control_drift_snapshots d) →
  ∃ snap row d',
    CaptureSnapshot (Eval.mkEnv ctx healthy now) id dbNow trigger d = (Ok snap, d') ∧
    d' = mkDB (ledger d) (evidence_freshness d) (control_drift_snapshots d ++ [row]) ∧
    snap = snapshotFromRow row ∧ s_TenantID row = t ∧ s_CapturedAt row = dbNow ∧
    SnapshotDate snap = day_of now * ns_per_day ∧
    NoDup (PassingControlIDs snap) ∧
    (∀ c, c ∈ PassingControlIDs snap ↔ passing (evals_as_of t (Some now) d) c) ∧
    ControlsPassing snap = Z.of_nat (length (PassingControlIDs snap)).
Proof using.
  intros Ht Hnow Hfew Htr Hid. eexists _, (captured_row id t now dbNow trigger d), _.
  split; [by apply CaptureSnapshot_eq|]. simpl. split_and!; try done.
  - apply passing_NoDup.
  - intros c. apply elem_of_passing.
Qed.
End Capture.

(** ** The official snapshots of a window *)

(** Of the rows of one day, the one captured last. *)
Definition official (rows : list SnapshotRow) (day : Time) (r : SnapshotRow) : Prop :=
  last_max s_CapturedAt (select_where (on_day day) rows) r.

Lemma latest_captured_spec rows day r :
  latest_captured (select_where (on_day day) rows) = Some r ↔ official rows day r.
Proof.
  pose proof (last_max_fold s_CapturedAt (select_where (on_day day) rows)) as H. unfold official.
  change (fold_left _ _ None) with (latest_captured (select_where (on_day day) rows)) in H.
  destruct (latest_captured _) as [x|]; split; intros Hr; try done.
  - by injection Hr as <-.
  - f_equal. by eapply last_max_unique.
  - apply last_max_elem in Hr. rewrite H in Hr. by apply elem_of_nil in Hr.
Qed.

Lemma official_day rows day r : official rows day r → s_SnapshotDate r = Some day ∧ r ∈ rows.
Proof.
  intros [Hd Hr]%last_max_elem%elem_of_select_where. by apply bool_decide_eq_true in Hd.
Qed.

(** The days with a snapshot, latest first. *)
Definition days_desc (rows : list SnapshotRow) : list Time :=
  merge_sort Z.ge (remove_dups (omap s_SnapshotDate rows)).

Lemma elem_of_days rows day : day ∈ days_desc rows ↔ ∃ r, r ∈ rows ∧ s_SnapshotDate r = Some day.
Proof.
  unfold days_desc. rewrite merge_sort_Permutation, elem_of_remove_dups, list_elem_of_omap. done.
Qed.

Lemma day_has_official rows day : day ∈ days_desc rows → ∃ r, official rows day r.
Proof.
  intros (r & Hr & E)%elem_of_days. pose proof (latest_captured_spec rows day) as H.
  destruct (latest_captured _) as [x|] eqn:L; [by exists x; apply H|]. exfalso.
  pose proof (last_max_fold s_CapturedAt (select_where (on_day day) rows)) as Hf.
  change (fold_left _ _ None) with (latest_captured (select_where (on_day day) rows)) in Hf. rewrite L in Hf.
  assert (r ∈ select_where (on_day day) rows) as Hin.
  { apply elem_of_select_where. split; [by apply bool_decide_eq_true_2|done]. }
  rewrite Hf in Hin. by apply elem_of_nil in Hin.
Qed.

Lemma days_sorted rows : StronglySorted Z.gt (days_desc rows).
Proof.
  assert (Hs : StronglySorted Z.ge (days_desc rows)).
  { apply Sorted_StronglySorted; [intros x y z; lia|]. apply Sorted_merge_sort. intros x y. lia. }
  assert (Hn : NoDup (days_desc rows)).
  { unfold days_desc. rewrite merge_sort_Permutation. apply NoDup_remove_dups. }
  induction Hs as [|x l Hl IH Hx]; constructor.
  - apply IH. by apply NoDup_cons in Hn as [_ ?].
  - apply NoDup_cons in Hn as [Hx' _]. rewrite Forall_forall in Hx |- *. intros y Hy. specialize (Hx y Hy).
    assert (x ≠ y) by congruence. lia.
Qed.

(** The query answers one official row per day, latest day first. *)
Lemma omap_rows (rows : list SnapshotRow) (days : list Time) :
  (∀ day, day ∈ days → day ∈ days_desc rows) →
  let rs := omap (λ day, latest_captured (select_where (on_day day) rows)) days in
  s_SnapshotDate <$> rs = Some <$> days ∧
  (∀ r, r ∈ rs ↔ ∃ day, day ∈ days ∧ official rows day r).
Proof.
  intros Hdays. split.
  - induction days as [|day days IH]; [done|]. csimpl.
    destruct (day_has_official rows day) as [r Hr]; [apply Hdays; left|].
    rewrite (proj2 (latest_captured_spec rows day r) Hr). csimpl.
    rewrite IH by (intros; apply Hdays; by right). by rewrite (proj1 (official_day _ _ _ Hr)).
  - intros r. rewrite list_elem_of_omap. by setoid_rewrite latest_captured_spec.
Qed.

(** Chronological snapshots, as [Report] builds them. *)
Definition chronicle (rows : list SnapshotRow) : list Snapshot :=
  reverse (snapshotFromRow <$> omap (λ day, latest_captured (select_where (on_day day) rows)) (days_desc rows)).

Lemma elem_of_chronicle rows (s : Snapshot) :
  s ∈ chronicle rows ↔ ∃ day r, official rows day r ∧ s = snapshotFromRow r.
Proof.
  unfold chronicle. rewrite elem_of_reverse, list_elem_of_fmap.
  setoid_rewrite (proj2 (omap_rows rows (days_desc rows) (λ day H, H))). split.
  - intros (r & -> & day & _ & Hr). eauto.
  - intros (day & r & Hr & ->). exists r. split; [done|]. exists day. split; [|done].
    destruct (official_day _ _ _ Hr). apply elem_of_days. eauto.
Qed.

Lemma chronicle_dates rows : SnapshotDate <$> chronicle rows = reverse (days_desc rows).
Proof.
  unfold chronicle. rewrite fmap_reverse, <- list_fmap_compose. f_equal.
  pose proof (proj1 (omap_rows rows (days_desc rows) (λ day H, H))) as H.
  transitivity (default time_zero <$> (s_SnapshotDate <$> omap (λ day, latest_captured (select_where (on_day day) rows)) (days_desc rows))).
  - by rewrite <- list_fmap_compose.
  - rewrite H, <- list_fmap_compose. clear H. induction (days_desc rows); csimpl; congruence.
Qed.

(** ** Flips *)

(** The days of the window on which [c] was passing. *)
Definition passing_days (snaps : list Snapshot) (c : UUID) : list Time :=
  SnapshotDate <$> select_where (λ s, bool_decide (c ∈ PassingControlIDs s)) snaps.

Lemma note_passing_fold lp day ids m c :
  0 < day →
  fold_left (note_passing lp day) ids m !! c =
  if bool_decide (c ∈ ids ∧ c ∉ lp)
  then Some (Z.max day (default day (m !! c))) else m !! c.
Proof.
  intros Hday. revert m. induction ids as [|id ids IH]; intros m; [done|]. simpl. rewrite IH. clear IH.
  unfold note_passing, After, time_zero.
  destruct (decide (id = c)) as [->|Hne].
  - destruct (bool_decide_reflect (c ∈ lp)) as [Hlp|Hlp].
    { rewrite !bool_decide_eq_false_2; [done|tauto|tauto]. }
    rewrite (bool_decide_eq_true_2 (c ∈ c :: ids ∧ c ∉ lp)) by (split; [left|done]).
    destruct (bool_decide_reflect (default 0 (m !! c) < day)) as [Hlt|Hlt]; [rewrite lookup_insert_eq|];
      case_bool_decide; destruct (m !! c); simpl in *; try (f_equal; lia); lia.
  - assert (Hl : (if bool_decide (id ∈ lp) then m
                  else if bool_decide (default 0 (m !! id) < day) then <[id:=day]> m else m) !! c = m !! c).
    { case_bool_decide; [done|]. case_bool_decide; [|done]. by rewrite lookup_insert_ne. }
    rewrite Hl. erewrite bool_decide_ext; [done|]. rewrite elem_of_cons. split; intros [??]; split; try done.
    + by right.
    + destruct H; [congruence|done].
Qed.

Lemma is_max_snoc ts m day :
  is_max ts m → is_max (ts ++ [day]) (Some (Z.max day (default day m))).
Proof.
  destruct m as [t|]; simpl.
  - intros [Hin Hle]. split.
    + destruct (Z.max_spec day t) as [[_ ->]|[_ ->]]; set_solver.
    + intros u [Hu| ->%list_elem_of_singleton]%elem_of_app; [specialize (Hle u Hu)|]; lia.
  - intros ->. rewrite Z.max_id. split; [set_solver|]. intros u [[]%elem_of_nil| ->%list_elem_of_singleton]%elem_of_app. lia.
Qed.

(** The map of the source: for a control out of the latest set, the last day it
    was seen passing; nothing for the others. *)
Lemma lastPassingDay_spec snaps lp c :
  (∀ s, s ∈ snaps → 0 < SnapshotDate s) →
  if bool_decide (c ∈ lp) then lastPassingDay snaps lp !! c = None
  else is_max (passing_days snaps c) (lastPassingDay snaps lp !! c).
Proof.
  unfold lastPassingDay, passing_days. induction snaps as [|s snaps IH] using rev_ind; intros Hpos.
  { simpl. rewrite lookup_empty. by case_bool_decide. }
  assert (Hs : 0 < SnapshotDate s) by (apply Hpos; set_solver).
  specialize (IH ltac:(intros x Hx; apply Hpos; set_solver)).
  rewrite fold_left_app. simpl.
  unfold select_where in *. rewrite filter_app, fmap_app, filter_cons, filter_nil.
  set (m := fold_left _ snaps ∅) in *. unfold note_snapshot. rewrite note_passing_fold by done.
  destruct (bool_decide_reflect (c ∈ lp)) as [Hlp|Hlp].
  - rewrite bool_decide_eq_false_2 by tauto. done.
  - destruct (bool_decide_reflect (c ∈ PassingControlIDs s)) as [Hc|Hc].
    + rewrite bool_decide_eq_true_2 by done. rewrite decide_True by done. by apply is_max_snoc.
    + rewrite bool_decide_eq_false_2 by tauto. rewrite decide_False by done. by rewrite app_nil_r.
Qed.

(** ** The report in terms of the official snapshots *)

Definition is_latest (rows : list SnapshotRow) (r : SnapshotRow) : Prop :=
  ∃ day, official rows day r ∧ ∀ day' r', official rows day' r' → day' ≤ day.

Definition is_earliest (rows : list SnapshotRow) (r : SnapshotRow) : Prop :=
  ∃ day, official rows day r ∧ ∀ day' r', official rows day' r' → day ≤ day'.

(** [c] is out of the passing set at the end of the window, and was last in it on
    [day]. *)
Definition drifted (rows : list SnapshotRow) (c : UUID) (day : Time) : Prop :=
  (∃ r, is_latest rows r ∧ c ∉ s_PassingControlIds r) ∧
  (∃ r, official rows day r ∧ c ∈ s_PassingControlIds r) ∧
  (∀ day' r', official rows day' r' → c ∈ s_PassingControlIds r' → day' ≤ day).

Lemma official_in_days rows day r : official rows day r → day ∈ days_desc rows.
Proof. intros [E Hr]%official_day. apply elem_of_days. eauto. Qed.

Lemma official_fun rows day r r' : official rows day r → official rows day r' → r = r'.
Proof. apply last_max_unique. Qed.

Lemma is_latest_fun rows r r' : is_latest rows r → is_latest rows r' → r = r'.
Proof.
  intros (day & H & Hmax) (day' & H' & Hmax'). assert (day = day') as <-.
  { specialize (Hmax _ _ H'). specialize (Hmax' _ _ H). lia. }
  by eapply official_fun.
Qed.

Lemma is_earliest_fun rows r r' : is_earliest rows r → is_earliest rows r' → r = r'.
Proof.
  intros (day & H & Hmin) (day' & H' & Hmin'). assert (day = day') as <-.
  { specialize (Hmin _ _ H'). specialize (Hmin' _ _ H). lia. }
  by eapply official_fun.
Qed.

Lemma chronicle_date_le rows s day :
  s ∈ chronicle rows → SnapshotDate s = day → ∃ r, official rows day r ∧ s = snapshotFromRow r.
Proof.
  intros (day' & r & Hr & ->)%elem_of_chronicle. simpl.
  rewrite (proj1 (official_day _ _ _ Hr)). simpl. intros <-. eauto.
Qed.

Lemma chronicle_sorted rows : StronglySorted Z.lt (SnapshotDate <$> chronicle rows).
Proof.
  rewrite chronicle_dates. induction (days_sorted rows) as [|x l Hl IH Hx]; [constructor|].
  rewrite reverse_cons. apply StronglySorted_app. split_and!; [|done|repeat constructor].
  intros y z Hy ->%list_elem_of_singleton. rewrite elem_of_reverse in Hy. rewrite Forall_forall in Hx. specialize (Hx y Hy). lia.
Qed.

Lemma sorted_last l (x : Time) : StronglySorted Z.lt l → last l = Some x → ∀ y, y ∈ l → y ≤ x.
Proof.
  intros Hs Hl. apply last_Some in Hl as [l' ->]. apply StronglySorted_app in Hs as (H & _ & _).
  intros y [Hy| ->%list_elem_of_singleton]%elem_of_app; [|lia]. specialize (H y x Hy ltac:(set_solver)). lia.
Qed.

Lemma chronicle_last rows s : last (chronicle rows) = Some s → ∃ r, is_latest rows r ∧ s = snapshotFromRow r.
Proof.
  intros Hl. assert (Hin : s ∈ chronicle rows) by (apply last_Some in Hl as [l' ->]; set_solver).
  destruct (chronicle_date_le rows s _ Hin eq_refl) as (r & Hr & ->). exists r. split; [|done].
  exists (SnapshotDate (snapshotFromRow r)). split; [done|]. intros day' r' Hr'%official_in_days.
  apply (sorted_last (SnapshotDate <$> chronicle rows)); [apply chronicle_sorted|by rewrite fmap_last, Hl|].
  by rewrite chronicle_dates, elem_of_reverse.
Qed.

Lemma chronicle_head rows s : head (chronicle rows) = Some s → ∃ r, is_earliest rows r ∧ s = snapshotFromRow r.
Proof.
  intros Hh. destruct (chronicle rows) as [|s' l] eqn:E; simplify_eq/=.
  pose proof (chronicle_sorted rows) as Hs. pose proof (chronicle_dates rows) as Hd. rewrite E in Hs, Hd. csimpl in *.
  destruct (chronicle_date_le rows s _ ltac:(rewrite E; left) eq_refl) as (r & Hr & ->). exists r. split; [|done].
  exists (SnapshotDate (snapshotFromRow r)). split; [done|]. intros day' r' Hr'%official_in_days.
  rewrite <- elem_of_reverse, <- Hd in Hr'. inversion Hs as [|? ? _ Hall]. subst. rewrite Forall_forall in Hall.
  apply elem_of_cons in Hr' as [->|Hr']; [done|]. apply Z.lt_le_incl, Hall, Hr'.
Qed.

Lemma chronicle_nil rows : chronicle rows = [] ↔ ∀ day r, ¬ official rows day r.
Proof.
  split.
  - intros E day r Hr. assert (snapshotFromRow r ∈ chronicle rows) as Hin by (apply elem_of_chronicle; eauto).
    rewrite E in Hin. by apply elem_of_nil in Hin.
  - intros H. destruct (chronicle rows) as [|s l] eqn:E; [done|].
    assert (s ∈ chronicle rows) as (day & r & Hr & _)%elem_of_chronicle by (rewrite E; left). by destruct (H day r).
Qed.

Lemma computeDelta_spec rows :
  (∀ rL rE, is_latest rows rL → is_earliest rows rE →
     computeDelta (chronicle rows) = s_ControlsPassing rL - s_ControlsPassing rE) ∧
  ((∀ day r, ¬ official rows day r) → computeDelta (chronicle rows) = 0).
Proof.
  split.
  - intros rL rE HL HE. unfold computeDelta.
    destruct (head (chronicle rows)) as [sE|] eqn:Eh; [|exfalso].
    2:{ destruct HL as (day & HL & _). apply head_None in Eh. by apply (proj1 (chronicle_nil rows) Eh day rL). }
    destruct (last (chronicle rows)) as [sL|] eqn:El; [|exfalso].
    2:{ destruct HL as (day & HL & _). apply last_None in El. by apply (proj1 (chronicle_nil rows) El day rL). }
    apply chronicle_last in El as (r & Hr & ->). apply chronicle_head in Eh as (r' & Hr' & ->).
    rewrite (is_latest_fun _ _ _ HL Hr), (is_earliest_fun _ _ _ HE Hr'). done.
  - intros H%chronicle_nil. by rewrite H.
Qed.

Lemma elem_of_passing_days rows c day :
  day ∈ passing_days (chronicle rows) c ↔ ∃ r, official rows day r ∧ c ∈ s_PassingControlIds r.
Proof.
  unfold passing_days. rewrite list_elem_of_fmap. setoid_rewrite elem_of_select_where.
  setoid_rewrite bool_decide_eq_true. split.
  - intros (s & -> & Hc & Hs). destruct (chronicle_date_le rows s _ Hs eq_refl) as (r & Hr & ->). eauto.
  - intros (r & Hr & Hc). exists (snapshotFromRow r). simpl. rewrite (proj1 (official_day _ _ _ Hr)).
    split_and!; [done|done|]. apply elem_of_chronicle. eauto.
Qed.

Definition dated (rows : list SnapshotRow) : Prop := ∀ r day, r ∈ rows → s_SnapshotDate r = Some day → 0 < day.

Lemma chronicle_positive rows s : dated rows → s ∈ chronicle rows → 0 < SnapshotDate s.
Proof.
  intros Hd (day & r & Hr & ->)%elem_of_chronicle. destruct (official_day _ _ _ Hr) as [E Hin].
  simpl. rewrite E. by apply (Hd r).
Qed.

(** With one day in the window there is nothing to diff, and nothing drifted. *)
Lemma single_day_drifts_nothing rows c day : (length (chronicle rows) < 2)%nat → ¬ drifted rows c day.
Proof.
  intros Hlen ((rL & (dayL & HL & _) & Hout) & (r & Hr & Hin) & _).
  assert (Hd : length (days_desc rows) = length (chronicle rows)).
  { by rewrite <- (length_fmap SnapshotDate), chronicle_dates, length_reverse. }
  pose proof (official_in_days _ _ _ HL) as H1. pose proof (official_in_days _ _ _ Hr) as H2.
  destruct (days_desc rows) as [|x [|y l]]; [by apply elem_of_nil in H1| |simpl in *; lia].
  apply list_elem_of_singleton in H1 as ->. apply list_elem_of_singleton in H2 as ->.
  by rewrite (official_fun _ _ _ _ HL Hr) in Hout.
Qed.

Lemma computeFlips_spec {PL : Planner} rows :
  dated rows →
  (∀ x, x ∈ computeFlips (chronicle rows) ↔ ∃ c day, x = mkDrift c day "not_passing" ∧ drifted rows c day) ∧
  NoDup (ControlID <$> computeFlips (chronicle rows)).
Proof.
  intros Hdated. unfold computeFlips. case_bool_decide as Hlen.
  { split; [|constructor]. intros x. split; [by intros ?%elem_of_nil|].
    intros (c & day & _ & H). by apply single_day_drifts_nothing in H. }
  destruct (last (chronicle rows)) as [sL|] eqn:El.
  2:{ apply last_None in El. rewrite El in Hlen. simpl in Hlen. lia. }
  apply chronicle_last in El as (rL & HL & ->). simpl. set (lp := list_to_set (s_PassingControlIds rL)).
  assert (Hm : ∀ c day, lastPassingDay (chronicle rows) lp !! c = Some day ↔ drifted rows c day).
  { intros c day. pose proof (lastPassingDay_spec (chronicle rows) lp c (λ s Hs, chronicle_positive rows s Hdated Hs)) as H.
    assert (Hlp : c ∈ lp ↔ c ∈ s_PassingControlIds rL) by apply elem_of_list_to_set.
    destruct (bool_decide_reflect (c ∈ lp)) as [Hc|Hc].
    - rewrite H. split; [done|]. intros ((r & Hr & Hout) & _). by rewrite (is_latest_fun _ _ _ HL Hr) in Hlp; tauto.
    - split.
      + intros E. rewrite E in H. destruct H as [Hin Hle]. split_and!.
        * exists rL. tauto.
        * by apply elem_of_passing_days.
        * intros day' r' Hr' Hc'. apply Hle, elem_of_passing_days. eauto.
      + intros (_ & Hex & Hle). apply elem_of_passing_days in Hex.
        assert (is_max (passing_days (chronicle rows) c) (Some day)) as H'.
        { split; [done|]. intros u (r' & Hr' & Hc')%elem_of_passing_days. eauto. }
        by eapply is_max_unique. }
  split.
  - intros x. rewrite list_elem_of_fmap. setoid_rewrite elem_of_plan. setoid_rewrite <- Hm. split.
    + intros ([c day] & -> & Hin%elem_of_map_to_list). eauto.
    + intros (c & day & -> & Hin). exists (c, day). split; [done|]. by apply elem_of_map_to_list.
  - rewrite <- list_fmap_compose. change (NoDup ((λ p, fst p) <$> plan (map_to_list (lastPassingDay (chronicle rows) lp)))).
    rewrite plan_perm. apply NoDup_fst_map_to_list.
Qed.

Section Report.
Context {UT : UUIDText} {PL : Planner}.

Definition window_start (now : Time) (since : Duration) : Time := (day_of now - sinceDays since) * ns_per_day.

Lemma Report_eq ctx t now since d :
  tenant_of ctx = Some t → sinceDays since * ns_per_day < now →
  Report (Eval.mkEnv ctx healthy now) since d =
  (let snaps := chronicle (since_rows t (Some (window_start now since)) d) in
   Ok (mkReport (window_start now since) (day_of now * ns_per_day) (computeDelta snaps) (computeFlips snaps) snaps), d).
Proof using.
  intros Ht Hlt. unfold Report, inTx. simpl. rewrite (inTx_healthy (λ d : DB, d) ctx t) by done.
  set (sd := AddDate now 0 0 (- sinceDays since)).
  assert (Hsd : sd = now + - sinceDays since * ns_per_day) by apply AddDate_days.
  assert (Hday : truncDate sd = window_start now since).
  { rewrite truncDate_spec, Hsd. unfold day_of, window_start. rewrite Z.div_add by done. unfold day_of. done. }
  unfold pgDate, IsZero, time_zero. rewrite bool_decide_eq_false_2 by lia. rewrite Hday, truncDate_spec. done.
Qed.

(** C18: a drift report is determined by the official snapshots of its window (of
    each day, the one captured last): it lists them in chronological order, its
    delta is the passing count of the latest minus that of the earliest (zero
    without snapshots), and its flips are, without repetition, exactly the
    controls missing from the latest snapshot that an earlier one of the window
    contained, each with the last day it was seen passing. *)
Theorem Report_diffs_official_snapshots ctx t now since d :
  tenant_of ctx = Some t → sinceDays since * ns_per_day < now → dated (control_drift_snapshots d) →
  let rows := since_rows t (Some (window_start now since)) d in
  ∃ rep, Report (Eval.mkEnv ctx healthy now) since d = (Ok rep, d) ∧
    (∀ s, s ∈ Snapshots rep ↔ ∃ day r, official rows day r ∧ s = snapshotFromRow r) ∧
    StronglySorted Z.lt (SnapshotDate <$> Snapshots rep) ∧
    (∀ rL rE, is_latest rows rL → is_earliest rows rE → Delta rep = s_ControlsPassing rL - s_ControlsPassing rE) ∧
    ((∀ day r, ¬ official rows day r) → Delta rep = 0) ∧
    (∀ x, x ∈ FlippedToOut rep ↔ ∃ c day, x = mkDrift c day "not_passing" ∧ drifted rows c day) ∧
    NoDup (ControlID <$> FlippedToOut rep).
Proof using.
  intros Ht Hlt Hd rows. eexists. split; [by apply Report_eq|]. simpl. fold rows.
  assert (Hrows : dated rows).
  { intros r day [_ Hr]%elem_of_select_where. by apply Hd. }
  destruct (computeDelta_spec rows), (computeFlips_spec rows Hrows).
  split_and!; try done; [intros s; apply elem_of_chronicle|apply chronicle_sorted].
Qed.
End Report.

(** ** Redelivery *)

(** Two snapshots that tell a report the same. *)
Definition same_content (s s' : Snapshot) : Prop :=
  SnapshotDate s = SnapshotDate s' ∧ ControlsPassing s = ControlsPassing s' ∧ PassingControlIDs s = PassingControlIDs s'.

Lemma same_content_refl s : same_content s s.
Proof. done. Qed.

Lemma Forall2_last {A B} (R : A → B → Prop) l k :
  Forall2 R l k →
  match last l, last k with Some x, Some y => R x y | None, None => True | _, _ => False end.
Proof.
  induction 1 as [|x y l k Hxy Hlk IH]; [done|]. rewrite !last_cons.
  destruct (last l), (last k); done.
Qed.

Lemma computeDelta_content l k : Forall2 same_content l k → computeDelta l = computeDelta k.
Proof.
  intros H. unfold computeDelta. pose proof (Forall2_last _ _ _ H) as HL.
  destruct H as [|x y l k Hxy H]; [done|]. change (head (x :: l)) with (Some x). change (head (y :: k)) with (Some y).
  destruct (last (x :: l)), (last (y :: k)); try done. destruct Hxy as (_ & Ex & _), HL as (_ & Ey & _).
  cbn match. congruence.
Qed.

Lemma lastPassingDay_content l k lp : Forall2 same_content l k → lastPassingDay l lp = lastPassingDay k lp.
Proof.
  unfold lastPassingDay. generalize (∅ : gmap UUID Time) as m. intros m H. revert m.
  induction H as [|x y l k (E & _ & E') H IH]; intros m; [done|]. simpl. rewrite IH. unfold note_snapshot. by rewrite E, E'.
Qed.

Lemma computeFlips_content {PL : Planner} l k : Forall2 same_content l k → computeFlips l = computeFlips k.
Proof.
  intros H. unfold computeFlips. rewrite (Forall2_length _ _ _ H). case_bool_decide; [done|].
  pose proof (Forall2_last _ _ _ H) as HL.
  destruct (last l), (last k); try done. destruct HL as (_ & _ & ->). by rewrite (lastPassingDay_content l k).
Qed.

Lemma days_desc_again rows r1 r2 :
  s_SnapshotDate r2 = s_SnapshotDate r1 → days_desc (rows ++ [r1; r2]) = days_desc (rows ++ [r1]).
Proof.
  intros E. assert (AntiSymm (=) Z.gt) by (intros x y; lia).
  apply (StronglySorted_unique Z.gt); [apply days_sorted..|].
  apply NoDup_Permutation; [unfold days_desc; rewrite merge_sort_Permutation; apply NoDup_remove_dups..|].
  intros day. rewrite !elem_of_days. split; intros (r & Hr & Ed).
  - destruct (decide (s_SnapshotDate r = s_SnapshotDate r1)) as [E1|Hne]; [exists r1; split; [set_solver|congruence]|].
    exists r. split; [|done]. apply elem_of_app in Hr as [Hr|Hr]; [set_solver|].
    rewrite !elem_of_cons, elem_of_nil in Hr. destruct Hr as [->|[->|[]]]; congruence.
  - exists r. set_solver.
Qed.

Lemma latest_captured_snoc rows r day :
  on_day day r = true → (∀ x, x ∈ rows → s_CapturedAt x ≤ s_CapturedAt r) →
  latest_captured (select_where (on_day day) (rows ++ [r])) = Some r.
Proof.
  intros Hd Hle. apply latest_captured_spec. unfold official, select_where.
  rewrite filter_app, filter_cons, filter_nil, decide_True by done. apply last_max_snoc.
  intros x [_ Hx]%list_elem_of_filter. auto.
Qed.

(** A second snapshot of the same day and content, captured no earlier, takes the
    place of the first. *)
Lemma chronicle_again rows r1 r2 :
  same_content (snapshotFromRow r1) (snapshotFromRow r2) → s_SnapshotDate r2 = s_SnapshotDate r1 →
  (∀ x, x ∈ rows → s_CapturedAt x ≤ s_CapturedAt r1) → s_CapturedAt r1 ≤ s_CapturedAt r2 →
  Forall2 same_content (chronicle (rows ++ [r1])) (chronicle (rows ++ [r1; r2])).
Proof.
  intros Hs E H1 H12. unfold chronicle. rewrite (days_desc_again rows r1 r2 E). apply Forall2_reverse.
  induction (days_desc (rows ++ [r1])) as [|day days IH]; [constructor|]. csimpl.
  destruct (on_day day r1) eqn:Ed.
  - assert (latest_captured (select_where (on_day day) (rows ++ [r1; r2])) = Some r2) as L2.
    { change [r1; r2] with ([r1] ++ [r2]). rewrite app_assoc. apply latest_captured_snoc.
      - unfold on_day in *. by rewrite E.
      - intros x [Hx| ->%list_elem_of_singleton]%elem_of_app; [specialize (H1 x Hx)|]; lia. }
    rewrite L2, latest_captured_snoc by done. csimpl. constructor; [done|exact IH].
  - assert (on_day day r2 = false) as Ed2 by (unfold on_day in *; by rewrite E).
    rewrite !select_where_app, !(select_where_none _ [_]), (select_where_none _ [_; _]) by set_solver.
    destruct (latest_captured _); [csimpl; constructor; [done|]|]; exact IH.
Qed.

Section Redelivery.
Context {UT : UUIDText} {PL : Planner}.
Import FreshnessSpec FreshnessDrift.

(** What one refresh needs of its surroundings to succeed. *)
Definition refreshable (draw : Draw) (d : DB) : Prop :=
  ledger_ok (ledger d) ∧ few_evals d ∧ keyed (evidence_freshness d) ∧
  new_ids (freshness_ids draw) 0 d ∧ snapshot_id draw ∉ (s_ID <$> control_drift_snapshots d).

Lemma RefreshTenant_spec ctx t now draw trigger d :
  tenant_of ctx = Some t → now ≠ time_zero → trigger_ok trigger = true → refreshable draw d →
  ∃ d', RefreshTenant (Eval.mkEnv ctx healthy now) draw trigger d = (Ok (), d') ∧
    ledger d' = ledger d ∧ keyed (evidence_freshness d') ∧
    view (evidence_freshness d') = engine_view t now (ledger d) ∪ view (evidence_freshness d) ∧
    ids_from (freshness_ids draw) d d' ∧
    control_drift_snapshots d' =
      control_drift_snapshots d ++ [captured_row (snapshot_id draw) t now (db_now draw) trigger d].
Proof using.
  intros Ht Hnow Htr (Hl & Hfew & Hk & Hnew & Hid).
  destruct (Refresh_spec ctx t now (freshness_ids draw) d) as (d1 & E1 & (HL & HS & HK & HV) & Hi); try done.
  unfold RefreshTenant, mbind, tx_bind. rewrite E1.
  rewrite (CaptureSnapshot_eq ctx t); [| |done| | |]; try done.
  - eexists. split; [done|]. simpl. rewrite HL, HS. split_and!; try done.
    unfold captured_row, ListPassingControlsForDay, evals_as_of. by rewrite HL.
  - unfold few_evals. by rewrite HL.
  - by rewrite HS.
Qed.

(** The draws of a second refresh clash with nothing the first one left. *)
Definition distinct_draws (draw1 draw2 : Draw) (d : DB) : Prop :=
  new_ids (freshness_ids draw2) 0 d ∧ (∀ i j, freshness_ids draw2 i ≠ freshness_ids draw1 j) ∧
  snapshot_id draw2 ≠ snapshot_id draw1 ∧ snapshot_id draw2 ∉ (s_ID <$> control_drift_snapshots d).

Lemma refreshable_again t now draw1 draw2 trigger d d1 :
  refreshable draw1 d → distinct_draws draw1 draw2 d →
  ledger d1 = ledger d → keyed (evidence_freshness d1) → ids_from (freshness_ids draw1) d d1 →
  control_drift_snapshots d1 =
    control_drift_snapshots d ++ [captured_row (snapshot_id draw1) t now (db_now draw1) trigger d] →
  refreshable draw2 d1.
Proof using.
  intros (Hl & Hfew & _) ([Hinj Hnew] & Hdis & Hne & Hid) HL HK Hids HS. unfold refreshable, few_evals.
  rewrite HL, HS. split_and!; try done.
  - split; [done|]. intros i Hi [?|[k E]]%Hids; [by apply (Hnew i)|]. by apply (Hdis i k).
  - rewrite fmap_app, elem_of_app. simpl. rewrite list_elem_of_singleton. tauto.
Qed.

Lemma since_rows_snapshots t from d d1 rs :
  control_drift_snapshots d1 = control_drift_snapshots d ++ rs →
  since_rows t from d1 = since_rows t from d ++
    select_where (λ r, bool_decide (s_TenantID r = t) &&
                       match from, s_SnapshotDate r with
                       | Some a, Some day => bool_decide (a ≤ day)
                       | _, _ => false
                       end) rs.
Proof using. intros E. unfold since_rows. rewrite E. apply filter_app. Qed.

Lemma chronicle_redelivered t from now draw1 draw2 trigger d d1 d2 :
  (∀ r, r ∈ control_drift_snapshots d → s_CapturedAt r ≤ db_now draw1) → db_now draw1 ≤ db_now draw2 →
  ledger d1 = ledger d →
  control_drift_snapshots d1 =
    control_drift_snapshots d ++ [captured_row (snapshot_id draw1) t now (db_now draw1) trigger d] →
  control_drift_snapshots d2 =
    control_drift_snapshots d1 ++ [captured_row (snapshot_id draw2) t now (db_now draw2) trigger d1] →
  Forall2 same_content (chronicle (since_rows t from d1)) (chronicle (since_rows t from d2)).
Proof using.
  intros Hclock Hmono HL HS1 HS2.
  assert (Hcr : captured_row (snapshot_id draw2) t now (db_now draw2) trigger d1 =
                captured_row (snapshot_id draw2) t now (db_now draw2) trigger d)
    by (unfold captured_row, ListPassingControlsForDay, evals_as_of; by rewrite HL).
  rewrite Hcr, HS1, <- app_assoc in HS2. simpl in HS2.
  rewrite (since_rows_snapshots t from d d1 _ HS1), (since_rows_snapshots t from d d2 _ HS2).
  set (row1 := captured_row (snapshot_id draw1) t now (db_now draw1) trigger d).
  set (row2 := captured_row (snapshot_id draw2) t now (db_now draw2) trigger d).
  set (p := λ r : SnapshotRow, _). assert (Hp : p row2 = p row1) by done.
  unfold select_where. rewrite !filter_cons, filter_nil, Hp. destruct (p row1); simpl.
  - apply chronicle_again; try done. intros x [_ Hx]%elem_of_select_where. by apply Hclock.
  - rewrite app_nil_r. apply Forall2_same_length_lookup. split; [done|]. intros. by simplify_eq.
Qed.

(** Delivering the same ingest message twice is harmless.  The second refresh
    succeeds, leaves both ledgers and the freshness map exactly as the first one
    left them, and although it appends another snapshot of the day, every later
    drift report has the same delta and the same flipped controls. *)
Theorem redelivery_is_idempotent ctx t now draw1 draw2 trigger d :
  tenant_of ctx = Some t → now ≠ time_zero → trigger_ok trigger = true →
  refreshable draw1 d → distinct_draws draw1 draw2 d →
  (∀ r, r ∈ control_drift_snapshots d → s_CapturedAt r ≤ db_now draw1) → db_now draw1 ≤ db_now draw2 →
  ∃ d1 d2,
    RefreshTenant (Eval.mkEnv ctx healthy now) draw1 trigger d = (Ok (), d1) ∧
    RefreshTenant (Eval.mkEnv ctx healthy now) draw2 trigger d1 = (Ok (), d2) ∧
    ledger d2 = ledger d ∧
    view (evidence_freshness d2) = view (evidence_freshness d1) ∧
    ∀ now' since, sinceDays since * ns_per_day < now' →
      ∃ rep1 rep2,
        Report (Eval.mkEnv ctx healthy now') since d1 = (Ok rep1, d1) ∧
        Report (Eval.mkEnv ctx healthy now') since d2 = (Ok rep2, d2) ∧
        Delta rep2 = Delta rep1 ∧ FlippedToOut rep2 = FlippedToOut rep1.
Proof using.
  intros Ht Hnow Htr Href Hdraws Hclock Hmono.
  destruct (RefreshTenant_spec ctx t now draw1 trigger d) as (d1 & E1 & HL1 & HK1 & HV1 & Hi1 & HS1); try done.
  pose proof (refreshable_again t now draw1 draw2 trigger d d1 Href Hdraws HL1 HK1 Hi1 HS1) as Href2.
  destruct (RefreshTenant_spec ctx t now draw2 trigger d1) as (d2 & E2 & HL2 & HK2 & HV2 & Hi2 & HS2); try done.
  exists d1, d2. split_and!; [done|done|congruence| |].
  { rewrite HV2, HL1, HV1. rewrite (assoc_L (∪)), map_union_idemp. done. }
  intros now' since Hs. eexists _, _. split_and!; [by apply Report_eq|by apply Report_eq|..]; simpl; symmetry.
  - by apply computeDelta_content, (chronicle_redelivered t _ now draw1 draw2 trigger d).
  - by apply computeFlips_content, (chronicle_redelivered t _ now draw1 draw2 trigger d).
Qed.
End Redelivery.

(** ** The same tenant over two days *)

Module Demo.
#[local] Existing Instance binary_uuid.
#[local] Existing Instance table_order.
Import FreshnessSpec.Demo FreshnessDrift.

Lemma CaptureSnapshot_records_passing_witness :
  ∃ snap d', CaptureSnapshot (Eval.mkEnv ctx healthy (noon 0)) 50%N (noon 0) TriggerScheduled d0 = (Ok snap, d') ∧
    PassingControlIDs snap = [2%N] ∧ NoDup (PassingControlIDs snap).
Proof.
  destruct (CaptureSnapshot_records_passing ctx tenant (noon 0) 50%N (noon 0) TriggerScheduled d0)
    as (snap & row & d' & E & _ & _ & _ & _ & _ & Hn & _).
  - reflexivity.
  - done.
  - done.
  - reflexivity.
  - apply not_elem_of_nil.
  - exists snap, d'. split; [exact E|]. split; [|exact Hn]. vm_compute in E. by injection E as <- _.
Defined.

(** A snapshot of the day before, with both controls passing, then today's. *)
Definition yesterday : SnapshotRow := mkSnapshotRow 49%N tenant (Some (day (-1))) 2 [1%N; 2%N] (noon (-1)) TriggerScheduled.
Definition today : SnapshotRow := mkSnapshotRow 50%N tenant (Some (day 0)) 1 [2%N] (noon 0) TriggerScheduled.
Definition d_two : DB := mkDB l0 [] [yesterday; today].

Lemma dated_two : dated [yesterday; today].
Proof.
  intros r day [->|[->|[]%elem_of_nil]%elem_of_cons]%elem_of_cons [= <-]; reflexivity.
Qed.

Lemma Report_diffs_official_snapshots_witness :
  ∃ rep, Report (Eval.mkEnv ctx healthy (noon 0)) (7 * 24 * time_Hour) d_two = (Ok rep, d_two) ∧
    Delta rep = -1 ∧ FlippedToOut rep = [mkDrift 1%N (day (-1)) "not_passing"] ∧
    NoDup (ControlID <$> FlippedToOut rep).
Proof.
  destruct (Report_diffs_official_snapshots ctx tenant (noon 0) (7 * 24 * time_Hour) d_two)
    as (rep & E & _ & _ & _ & _ & _ & Hn).
  - reflexivity.
  - vm_compute. reflexivity.
  - exact dated_two.
  - exists rep. split; [exact E|]. split_and!; [| |exact Hn]; vm_compute in E; by injection E as <-.
Defined.

(** Even identifiers for the first delivery, odd ones for the second. *)
Definition draw (base : N) (t : Time) : Draw := mkDraw (ids base) (base + 1000)%N t.

Lemma redelivery_is_idempotent_witness :
  ∃ d1 d2,
    RefreshTenant (Eval.mkEnv ctx healthy (noon 0)) (draw 100 (noon 0)) TriggerIngest d0 = (Ok (), d1) ∧
    RefreshTenant (Eval.mkEnv ctx healthy (noon 0)) (draw 101 (noon 0 + 1)) TriggerIngest d1 = (Ok (), d2) ∧
    FreshnessSpec.view (evidence_freshness d2) = FreshnessSpec.view (evidence_freshness d1).
Proof.
  destruct (redelivery_is_idempotent ctx tenant (noon 0) (draw 100 (noon 0)) (draw 101 (noon 0 + 1)) TriggerIngest d0)
    as (d1 & d2 & E1 & E2 & _ & V & _).
  - reflexivity.
  - done.
  - reflexivity.
  - split_and!; [exact ledger_demo|done|constructor|split; [apply ids_inj|intros i _; apply not_elem_of_nil]|apply not_elem_of_nil].
  - split_and!; [split; [apply ids_inj|intros i _; apply not_elem_of_nil]| |done|apply not_elem_of_nil].
    intros i j. simpl. unfold ids. lia.
  - intros r []%elem_of_nil.
  - simpl. lia.
  - exists d1, d2. auto.
Defined.
End Demo.
End DriftSpec.
