(* ===== verification/Staleness.v ===== *)
(** * The staleness rollup

    Models internal/staleness (classify.go, copy.go, rollup.go, scheduler.go): the
    bands, the notification copy, the per-tenant rollup with its idempotency
    ledger, and the six-hourly scheduler. *)

From stdpp Require Import pretty.
From S2P Require Import Prelude GoTime Tenancy EvalState Eval Freshness.

Module Staleness.

(** ** Bands *)

Inductive Band := BandFresh | BandApproaching | BandStale.
#[global] Instance Band_eq_dec : EqDecision Band.
Proof. solve_decision. Defined.

Definition Band_String (b : Band) : string :=
  match b with BandApproaching => "approaching" | BandStale => "stale" | BandFresh => "fresh" end.

Definition DefaultApproachingWindow : Duration := 14 * 24 * time_Hour.

Record Cell := mkCell { ValidUntil : option Time; IsStale : bool }.

Definition Classify (cell : Cell) (now : Time) (window : Duration) : Band :=
  match ValidUntil cell with
  | None => BandStale
  | Some validUntil =>
      if IsStale cell then BandStale
      else if negb (After validUntil (now + window)) then BandApproaching
      else BandFresh
  end.

(** ** Notification copy *)

Definition RecomputeIntervalText : string := "every 6 hours".
Definition DigestCadenceText : string := "every Monday at 09:00 UTC".
Definition DigestTopN : nat := 10.
Definition FreshnessViewPath : string := "/dashboard#evidence-freshness".

Record DigestItem := mkItem { it_ControlID : string; it_FreshnessClass : string; it_Band : string }.

Record AlertPayload := mkAlert {
  al_Subtype : string;
  al_ControlID : string;
  al_FreshnessClass : string;
  al_Band : string;
  al_ValidUntil : option string;
  al_RecomputeMessage : string;
  al_Message : string;
  al_FreshnessViewURL : string;
}.

Record DigestPayload := mkDigest {
  dg_Subtype : string;
  dg_PeriodStart : string;
  dg_PeriodEnd : string;
  dg_StaleCount : nat;
  dg_ApproachingCount : nat;
  dg_TopStale : list DigestItem;
  dg_Truncated : bool;
  dg_CadenceMessage : string;
  dg_Message : string;
  dg_FreshnessViewURL : string;
}.

(** The document a notification carries, as the struct it is marshalled from. *)
Inductive Payload := PAlert (a : AlertPayload) | PDigest (g : DigestPayload).

Definition alertMessage (class : string) : string :=
  let subject := if bool_decide (class = "") then "Evidence" else class +:+ "-class evidence" in
  subject +:+ " for a control has crossed its freshness threshold and is now stale. " +:+
  "Staleness is recomputed on a schedule (" +:+ RecomputeIntervalText +:+ ").".

Definition plural (n : nat) : string := if bool_decide (n = 1%nat) then "" else "s".

Definition digestMessage (stale approaching : nat) : string :=
  pretty stale +:+ " stale and " +:+ pretty approaching +:+ " approaching-stale control" +:+
  plural (stale + approaching) +:+ " this week. " +:+
  "This digest is generated " +:+ DigestCadenceText +:+ "; see the freshness view for the full list.".

(** Stale before approaching, then by control id. *)
Definition digest_less (a b : DigestItem) : bool :=
  if bool_decide (it_Band a = it_Band b) then bool_decide (String.compare (it_ControlID a) (it_ControlID b) = Lt)
  else bool_decide (it_Band a = Band_String BandStale).

(** The order the stable sort establishes. *)
Definition digest_le (a b : DigestItem) : Prop := digest_less b a = false.
#[global] Instance digest_le_dec : RelDecision digest_le.
Proof. intros a b. unfold digest_le. apply _. Defined.

Definition BuildDigestPayload (items : list DigestItem) (staleCount approachingCount : nat)
    (periodStart periodEnd : Time) (freshnessViewURL : string) : DigestPayload :=
  let sorted := merge_sort digest_le items in
  let truncated := bool_decide (DigestTopN < length sorted)%nat in
  mkDigest "digest" (FormatRFC3339 periodStart) (FormatRFC3339 periodEnd) staleCount approachingCount
    (if truncated then take DigestTopN sorted else sorted) truncated
    ("Generated " +:+ DigestCadenceText +:+ ".") (digestMessage staleCount approachingCount) freshnessViewURL.

(** ** Calendar buckets *)

Definition DefaultRecomputeInterval : Duration := 6 * time_Hour.

(** Days since Monday: day 0, 1 January of year 1, is a Monday. *)
Definition since_monday (t : Time) : Z := day_of t mod 7.

Definition recomputePeriodKey (now : Time) : string :=
  let bucket := now - now mod DefaultRecomputeInterval in
  let '(y, m, d) := civil_of_day (day_of bucket) in
  let s := bucket mod ns_per_day / ns_per_second in
  digits 4 y +:+ digits 2 m +:+ digits 2 d +:+ "T" +:+ digits 2 (s / 3600) +:+ digits 2 (s / 60 mod 60) +:+ "Z".

(** [ISOWeek]: the year of the week's Thursday, and that Thursday's week in it. *)
Definition ISOWeek (t : Time) : Z * Z :=
  let thursday := day_of t - since_monday t + 3 in
  let '(y, _, _) := civil_of_day thursday in
  (y, (thursday - day_of_civil y 1 1) / 7 + 1).

Definition isoWeekKey (now : Time) : string :=
  let '(y, w) := ISOWeek now in digits 4 y +:+ "-W" +:+ digits 2 w.

Definition isoWeekBounds (now : Time) : Time * Time :=
  let monday := AddDate (truncDate now) 0 0 (- since_monday now) in (monday, AddDate monday 0 0 7).

(** Monday, hour 09. *)
Definition isWeeklyDigestWindow (now : Time) : bool :=
  bool_decide (since_monday now = 0) && bool_decide (now mod ns_per_day / time_Hour = 9).

(** ** Tables *)

Record User := mkUser { u_ID : UUID; u_TenantID : UUID; u_Status : string }.
Record Preference := mkPref { p_TenantID : UUID; p_UserID : UUID; p_Event : string; p_Channel : string; p_Enabled : bool }.
Record Claim := mkClaim { k_ID : UUID; k_TenantID : UUID; k_Recipient : string; k_Kind : string; k_DedupKey : string }.
Record Notification := mkNote { n_ID : UUID; n_TenantID : UUID; n_Recipient : string; n_Type : string; n_Payload : Payload }.

Definition TypeEvidenceStaleness : string := "evidence.staleness".

Record DB := mkDB {
  read_models : ReadModel.DB;
  risk_tenants : list UUID;
  users : list User;
  preferences : list Preference;
  staleness_rollup_log : list Claim;
  notifications : list Notification;
}.

#[global] Instance SDB_rollback : TxState DB := λ before _, before.
#[global] Instance SDB_atomic : Atomic (λ d : DB, d).
Proof. done. Qed.

Inductive Error := ErrListFreshness (e : ReadModel.Error) | ErrClaim (kind : string) | ErrWriteNotification | ErrTx (e : TxErr).
#[global] Instance SDB_error : TxError Error := ErrTx.

Definition user_le (a b : User) : Prop := (u_ID a ≤ u_ID b)%N.
#[global] Instance user_le_dec : RelDecision user_le.
Proof. intros a b. unfold user_le. apply _. Defined.

Definition ListActiveUsersForTenant (tenantID : UUID) (d : DB) : list User :=
  merge_sort user_le
    (select_where (λ u, bool_decide (u_TenantID u = tenantID) && bool_decide (u_Status u = "active")) (users d)).

Definition ListUserNotificationPreferences (tenantID userID : UUID) (d : DB) : list Preference :=
  select_where (λ p, bool_decide (p_TenantID p = tenantID) && bool_decide (p_UserID p = userID)) (preferences d).

Inductive claim_outcome := Claimed (d : DB) | AlreadyClaimed | ClaimFailed.

Definition claim_key (k : Claim) : UUID * string * string := (k_TenantID k, k_Recipient k, k_DedupKey k).

Definition check_claim (k : Claim) : bool :=
  bool_decide (k_Recipient k ≠ "") &&
  (bool_decide (k_Kind k = "staleness_alert") || bool_decide (k_Kind k = "staleness_digest")) &&
  bool_decide (k_DedupKey k ≠ "").

(** INSERT ... ON CONFLICT (tenant_id, recipient_user_id, dedup_key) DO NOTHING *)
Definition ClaimStalenessRollup (k : Claim) (d : DB) : claim_outcome :=
  let log := staleness_rollup_log d in
  if negb (check_claim k) then ClaimFailed
  else if bool_decide (claim_key k ∈ (claim_key <$> log)) then AlreadyClaimed
  else if bool_decide (k_ID k ∈ (k_ID <$> log)) then ClaimFailed
  else Claimed (mkDB (read_models d) (risk_tenants d) (users d) (preferences d) (log ++ [k]) (notifications d)).

Definition CreateNotification (n : Notification) (d : DB) : option DB :=
  if bool_decide (n_ID n ∈ (n_ID <$> notifications d)) || bool_decide (n_Recipient n = "") || bool_decide (n_Type n = "")
  then None
  else Some (mkDB (read_models d) (risk_tenants d) (users d) (preferences d) (staleness_rollup_log d) (notifications d ++ [n])).

(** Tenants with a control, an evidence record or a risk. *)
Definition ListTenantsForMetricsScheduler (d : DB) : list UUID :=
  remove_dups ((Eval.c_TenantID <$> Eval.controls (ReadModel.ledger (read_models d))) ++
               (Eval.e_TenantID <$> Eval.evidence_records (ReadModel.ledger (read_models d))) ++ risk_tenants d).

(** ** The rollup *)

Record TenantReport := mkTenantReport {
  Recipients : nat;
  AlertsWritten : nat;
  AlertsDeduped : nat;
  DigestsWritten : nat;
  DigestsDeduped : nat;
  StaleControls : nat;
  ApprControls : nat;
}.

Record classified := mkClassified { cl_band : Band; cl_item : DigestItem }.

(** The surroundings of a pass: the request, [approachingWindow], and what
    [uuid.New] draws for the claim and the notification of a recipient's event. *)
Record Env := mkEnv {
  env_call : Eval.Env;
  env_window : Duration;
  draw_claim : string → string → UUID;
  draw_note : string → string → UUID;
}.

Section Rollup.
Context {UT : UUIDText} {PL : Planner}.
Context (collate : string → string → Prop) `{!RelDecision collate}.

Definition classify_row (now : Time) (window : Duration) (r : Freshness.ControlFreshness) : option classified :=
  let band := Classify (mkCell (Freshness.ValidUntil r) (Freshness.IsStale r)) now window in
  if bool_decide (band = BandFresh) then None
  else Some (mkClassified band (mkItem (uuid_String (Freshness.ControlID r)) (Freshness.FreshnessClass r) (Band_String band))).

Definition count_band (b : Band) (cs : list classified) : nat :=
  length (select_where (λ c, bool_decide (cl_band c = b)) cs).

Definition alertPayload (item : DigestItem) : AlertPayload :=
  mkAlert "alert" (it_ControlID item) (it_FreshnessClass item) (Band_String BandStale) None
    ("Recomputed " +:+ RecomputeIntervalText +:+ ".") (alertMessage (it_FreshnessClass item)) FreshnessViewPath.

Definition inAppEnabled (tenantID userID : UUID) (d : DB) : bool :=
  match select_where (λ r, bool_decide (p_Event r = "evidence_staleness") && bool_decide (p_Channel r = "in_app"))
          (ListUserNotificationPreferences tenantID userID d) with
  | r :: _ => p_Enabled r
  | [] => true
  end.

Definition writeIfClaimedRaw (env : Env) (tenantID : UUID) (recipient kind dedup : string) (raw : Payload)
  : Tx DB Error bool := λ d,
  match ClaimStalenessRollup (mkClaim (draw_claim env recipient dedup) tenantID recipient kind dedup) d with
  | AlreadyClaimed => (Ok false, d)
  | ClaimFailed => (Err (ErrClaim kind), d)
  | Claimed d' =>
      match CreateNotification (mkNote (draw_note env recipient dedup) tenantID recipient TypeEvidenceStaleness raw) d' with
      | None => (Err ErrWriteNotification, d')
      | Some d'' => (Ok true, d'')
      end
  end.

Definition alert_dedup (period : string) (c : classified) : string :=
  "alert:" +:+ it_ControlID (cl_item c) +:+ ":" +:+ Band_String (cl_band c) +:+ ":" +:+ period.

Definition count_alert (wrote : bool) (rep : TenantReport) : TenantReport :=
  mkTenantReport (Recipients rep) (AlertsWritten rep + (if wrote then 1 else 0))
    (AlertsDeduped rep + (if wrote then 0 else 1)) (DigestsWritten rep) (DigestsDeduped rep)
    (StaleControls rep) (ApprControls rep).

Definition count_digest (wrote : bool) (rep : TenantReport) : TenantReport :=
  mkTenantReport (Recipients rep) (AlertsWritten rep) (AlertsDeduped rep)
    (DigestsWritten rep + (if wrote then 1 else 0)) (DigestsDeduped rep + (if wrote then 0 else 1))
    (StaleControls rep) (ApprControls rep).

(** The alerts of one recipient: only the stale band fires. *)
Fixpoint alertEach (env : Env) (tenantID : UUID) (recipient period : string) (cs : list classified) (rep : TenantReport)
  : Tx DB Error TenantReport :=
  match cs with
  | [] => mret rep
  | c :: cs =>
      if bool_decide (cl_band c ≠ BandStale) then alertEach env tenantID recipient period cs rep
      else
        wrote ← writeIfClaimedRaw env tenantID recipient "staleness_alert" (alert_dedup period c)
                  (PAlert (alertPayload (cl_item c)));
        alertEach env tenantID recipient period cs (count_alert wrote rep)
  end.

Definition digest_for (now : Time) (cs : list classified) (rep : TenantReport) : DigestPayload :=
  let '(periodStart, periodEnd) := isoWeekBounds now in
  BuildDigestPayload (cl_item <$> cs) (StaleControls rep) (ApprControls rep) periodStart periodEnd FreshnessViewPath.

Definition digest_dedup (week : string) : string := "digest:" +:+ week.

Fixpoint rollupUsers (env : Env) (weekly : bool) (tenantID : UUID) (now : Time) (cs : list classified) (us : list User)
    (rep : TenantReport) : Tx DB Error TenantReport :=
  match us with
  | [] => mret rep
  | u :: us =>
      let recipient := uuid_String (u_ID u) in
      optedIn ← tx_gets (inAppEnabled tenantID (u_ID u));
      if negb optedIn then rollupUsers env weekly tenantID now cs us rep
      else
        rep ← alertEach env tenantID recipient (recomputePeriodKey now) cs rep;
        rep ← (if weekly && (bool_decide (0 < StaleControls rep)%nat || bool_decide (0 < ApprControls rep)%nat) then
                 wrote ← writeIfClaimedRaw env tenantID recipient "staleness_digest" (digest_dedup (isoWeekKey now))
                           (PDigest (digest_for now cs rep));
                 mret (count_digest wrote rep)
               else mret rep);
        rollupUsers env weekly tenantID now cs us rep
  end.

Definition inTx {A} (env : Env) (fn : UUID → Tx DB Error A) : Tx DB Error A :=
  Tenancy.inTx (Eval.env_infra (env_call env)) (Eval.env_ctx (env_call env)) fn.

(** The report that accompanies an error is dropped: its only caller ignores it. *)
Definition RollupTenant (env : Env) (weekly : bool) : Tx DB Error TenantReport := λ d,
  let now := Eval.env_clock (env_call env) in
  match Freshness.List collate (env_call env) (read_models d) with
  | (Err e, _) => (Err (ErrListFreshness e), d)
  | (Ok rows, _) =>
      let cs := omap (classify_row now (env_window env)) rows in
      inTx env (λ tenantID,
        us ← tx_gets (ListActiveUsersForTenant tenantID);
        let rep := mkTenantReport (length us) 0 0 0 0 (count_band BandStale cs) (count_band BandApproaching cs) in
        rollupUsers env weekly tenantID now cs us rep) d
  end.

(** ** The scheduler *)

Record SweepReport := mkSweep {
  TenantsSwept : nat;
  SweepAlerts : nat;
  SweepDigests : nat;
  TenantFailures : nat;
  Weekly : bool;
}.

Definition with_ctx (env : Env) (ctx : Context) : Env :=
  mkEnv (Eval.mkEnv ctx (Eval.env_infra (env_call env)) (Eval.env_clock (env_call env))) (env_window env)
    (draw_claim env) (draw_note env).

(** [env t] are the surroundings of tenant [t]'s pass, its clock included. *)
Fixpoint sweepTenants (env : UUID → Env) (weekly : bool) (tenants : list UUID) (rep : SweepReport) (d : DB) : SweepReport * DB :=
  match tenants with
  | [] => (rep, d)
  | t :: tenants =>
      let failed := mkSweep (TenantsSwept rep) (SweepAlerts rep) (SweepDigests rep) (S (TenantFailures rep)) (Weekly rep) in
      match WithTenant (Eval.env_ctx (env_call (env t))) (uuid_String t) with
      | Err _ => sweepTenants env weekly tenants failed d
      | Ok ctx =>
          match RollupTenant (with_ctx (env t) ctx) weekly d with
          | (Err _, d') => sweepTenants env weekly tenants failed d'
          | (Ok tr, d') =>
              sweepTenants env weekly tenants
                (mkSweep (S (TenantsSwept rep)) (SweepAlerts rep + AlertsWritten tr) (SweepDigests rep + DigestsWritten tr)
                   (TenantFailures rep) (Weekly rep)) d'
          end
      end
  end.

Definition SweepOnce (env : UUID → Env) (now : Time) (d : DB) : SweepReport * DB :=
  let weekly := isWeeklyDigestWindow now in
  sweepTenants env weekly (plan (ListTenantsForMetricsScheduler d)) (mkSweep 0 0 0 0 weekly) d.

(** [Run]: a sweep at the start, then one per tick; [env k] are the surroundings
    of the k-th. *)
Definition tick (start : Time) (interval : Duration) (k : nat) : Time :=
  start + Z.of_nat k * (if interval <=? 0 then DefaultRecomputeInterval else interval).

Fixpoint RunTicks (env : nat → UUID → Env) (start : Time) (interval : Duration) (n : nat) (d : DB) : list SweepReport * DB :=
  match n with
  | O => ([], d)
  | S n =>
      let '(reps, d') := RunTicks env start interval n d in
      let '(rep, d'') := SweepOnce (env n) (tick start interval n) d' in (reps ++ [rep], d'')
  end.
End Rollup.
End Staleness.
