(* ===== verification/StalenessSpec.v ===== *)
(** * What the staleness rollup promises

    A pass delivers each event of its recipients exactly once, a second pass in
    the same period delivers nothing, and on most start times the weekly digest
    is never reached. *)

From S2P Require Import Prelude GoTime Tenancy Json EvalState Eval Freshness FreshnessSpec Staleness.

Module StalenessSpec.
Import FreshnessSpec Staleness.

(** ** Events *)

Record event := mkEvent { ev_recipient : string; ev_kind : string; ev_dedup : string; ev_payload : Payload }.

Section Events.
Context {UT : UUIDText} {PL : Planner}.

Definition claim_of (env : Env) (t : UUID) (ev : event) : Claim :=
  mkClaim (draw_claim env (ev_recipient ev) (ev_dedup ev)) t (ev_recipient ev) (ev_kind ev) (ev_dedup ev).
Definition note_of (env : Env) (t : UUID) (ev : event) : Notification :=
  mkNote (draw_note env (ev_recipient ev) (ev_dedup ev)) t (ev_recipient ev) TypeEvidenceStaleness (ev_payload ev).

Definition ev_key (t : UUID) (ev : event) : UUID * string * string := (t, ev_recipient ev, ev_dedup ev).
Definition claimed (t : UUID) (ev : event) (d : DB) : bool :=
  bool_decide (ev_key t ev ∈ (claim_key <$> staleness_rollup_log d)).

(** The effect one event is meant to have. *)
Definition deliver (env : Env) (t : UUID) (d : DB) (ev : event) : DB :=
  if claimed t ev d then d
  else mkDB (read_models d) (risk_tenants d) (users d) (preferences d)
         (staleness_rollup_log d ++ [claim_of env t ev]) (notifications d ++ [note_of env t ev]).

Definition valid_event (ev : event) : Prop :=
  ev_recipient ev ≠ "" ∧ ev_dedup ev ≠ "" ∧ (ev_kind ev = "staleness_alert" ∨ ev_kind ev = "staleness_digest").

(** The alerts and the digest of one recipient. *)
Definition alert_event (recipient : string) (now : Time) (c : classified) : event :=
  mkEvent recipient "staleness_alert" (alert_dedup (recomputePeriodKey now) c) (PAlert (alertPayload (cl_item c))).

Definition stale_of (cs : list classified) : list classified := select_where (λ c, bool_decide (cl_band c = BandStale)) cs.

Definition digest_due (weekly : bool) (rep : TenantReport) : bool :=
  weekly && (bool_decide (0 < StaleControls rep)%nat || bool_decide (0 < ApprControls rep)%nat).

Definition digest_event (recipient : string) (now : Time) (cs : list classified) (rep : TenantReport) : event :=
  mkEvent recipient "staleness_digest" (digest_dedup (isoWeekKey now)) (PDigest (digest_for now cs rep)).

Definition user_events (weekly : bool) (now : Time) (cs : list classified) (rep : TenantReport) (u : User) : list event :=
  let recipient := uuid_String (u_ID u) in
  (alert_event recipient now <$> stale_of cs) ++
  (if digest_due weekly rep then [digest_event recipient now cs rep] else []).

Definition opted_in (t : UUID) (d : DB) (u : User) : bool := inAppEnabled t (u_ID u) d.

Definition events (weekly : bool) (t : UUID) (now : Time) (cs : list classified) (rep : TenantReport) (us : list User) (d : DB)
  : list event :=
  us ≫= λ u, if opted_in t d u then user_events weekly now cs rep u else [].

(** ** One event *)

(** The draws of [uuid.New] a pass relies on are distinct for distinct events,
    and new to both tables. *)
Definition distinct_draws (env : Env) : Prop :=
  (∀ r k r' k', draw_claim env r k = draw_claim env r' k' → r = r' ∧ k = k') ∧
  (∀ r k r' k', draw_note env r k = draw_note env r' k' → r = r' ∧ k = k').

Definition undrawn (env : Env) (t : UUID) (evs : list event) (d : DB) : Prop :=
  ∀ ev, ev ∈ evs → claimed t ev d = false →
    (draw_claim env (ev_recipient ev) (ev_dedup ev) ∉ (k_ID <$> staleness_rollup_log d)) ∧
    (draw_note env (ev_recipient ev) (ev_dedup ev) ∉ (n_ID <$> notifications d)).

Lemma writeIfClaimedRaw_deliver env t ev d :
  valid_event ev → undrawn env t [ev] d →
  writeIfClaimedRaw env t (ev_recipient ev) (ev_kind ev) (ev_dedup ev) (ev_payload ev) d =
  (Ok (negb (claimed t ev d)), deliver env t d ev).
Proof using.
  intros (Hr & Hd & Hk) Hun. unfold writeIfClaimedRaw, ClaimStalenessRollup, deliver. simpl.
  unfold check_claim. simpl. rewrite (bool_decide_eq_true_2 (ev_recipient ev ≠ "")), (bool_decide_eq_true_2 (ev_dedup ev ≠ "")) by done.
  assert (bool_decide (ev_kind ev = "staleness_alert") || bool_decide (ev_kind ev = "staleness_digest") = true) as ->.
  { apply orb_true_iff. rewrite !bool_decide_eq_true. exact Hk. }
  simpl. unfold claim_key at 1. simpl. fold (ev_key t ev).
  change (bool_decide (ev_key t ev ∈ claim_key <$> staleness_rollup_log d)) with (claimed t ev d).
  destruct (claimed t ev d) eqn:C; [done|]. destruct (Hun ev) as [H1 H2]; [set_solver|done|].
  rewrite bool_decide_eq_false_2 by done. unfold CreateNotification. simpl.
  rewrite !bool_decide_eq_false_2 by done. done.
Qed.

Lemma claimed_deliver env t ev ev' d :
  claimed t ev (deliver env t d ev') = claimed t ev d || bool_decide (ev_key t ev = ev_key t ev').
Proof using.
  unfold deliver. destruct (claimed t ev' d) eqn:C.
  - case_bool_decide as E; [|by rewrite orb_false_r]. unfold claimed in *. rewrite E, C. done.
  - unfold claimed. simpl. rewrite fmap_app. simpl. rewrite <- bool_decide_or. apply bool_decide_ext.
    rewrite elem_of_app, list_elem_of_singleton. done.
Qed.

Definition deliver_all (env : Env) (t : UUID) (d : DB) (evs : list event) : DB := fold_left (deliver env t) evs d.

Lemma undrawn_deliver env t ev evs d :
  distinct_draws env → ev_key t ev ∉ (ev_key t <$> evs) → undrawn env t (ev :: evs) d → undrawn env t evs (deliver env t d ev).
Proof using.
  intros [Hc Hn] Hk Hun x Hx Hcl. rewrite claimed_deliver in Hcl. apply orb_false_iff in Hcl as [Hcl _].
  destruct (Hun x) as [H1 H2]; [by right|done|]. unfold deliver. destruct (claimed t ev d); [done|]. simpl. rewrite !fmap_app, !not_elem_of_app. simpl.
  assert (ev_recipient x ≠ ev_recipient ev ∨ ev_dedup x ≠ ev_dedup ev) as Hne.
  { destruct (decide (ev_recipient x = ev_recipient ev)) as [E|]; [|by left]. right. intros E'. apply Hk.
    apply list_elem_of_fmap. exists x. unfold ev_key. by rewrite E, E'. }
  split; (split; [done|]); rewrite list_elem_of_singleton; [intros [? ?]%Hc|intros [? ?]%Hn]; tauto.
Qed.

(** Delivering events with distinct keys adds the unclaimed ones, in order. *)
Lemma deliver_all_spec env t evs d :
  NoDup (ev_key t <$> evs) →
  let new := select_where (λ ev, negb (claimed t ev d)) evs in
  deliver_all env t d evs =
  mkDB (read_models d) (risk_tenants d) (users d) (preferences d)
    (staleness_rollup_log d ++ (claim_of env t <$> new)) (notifications d ++ (note_of env t <$> new)).
Proof using.
  unfold deliver_all. revert d. induction evs as [|ev evs IH]; intros d Hn; simpl.
  { rewrite !app_nil_r. by destruct d. }
  csimpl in Hn. apply NoDup_cons in Hn as [Hk Hn]. rewrite IH by done.
  assert (Hsel : select_where (λ x, negb (claimed t x (deliver env t d ev))) evs = select_where (λ x, negb (claimed t x d)) evs).
  { apply select_where_ext. intros x Hx. rewrite claimed_deliver. rewrite bool_decide_eq_false_2; [by rewrite orb_false_r|].
    intros E. apply Hk. apply list_elem_of_fmap. eauto. }
  rewrite Hsel. unfold select_where. rewrite filter_cons. unfold deliver.
  destruct (claimed t ev d); simpl; [done|]. by rewrite <- !app_assoc.
Qed.

(** ** The loops deliver their events *)

(** What a pass's counters say of the notifications it wrote. *)
Definition written (rep : TenantReport) : nat := AlertsWritten rep + DigestsWritten rep.
Definition same_posture (rep rep' : TenantReport) : Prop :=
  StaleControls rep' = StaleControls rep ∧ ApprControls rep' = ApprControls rep ∧ Recipients rep' = Recipients rep.

Lemma posture_trans rep0 rep rep' : same_posture rep0 rep → same_posture rep rep' → same_posture rep0 rep'.
Proof using. unfold same_posture. intuition congruence. Qed.

(** [m], given a report so far with the posture of [rep0] and the preferences of
    [d0], delivers [evs] and counts what it wrote. *)
Definition delivers (env : Env) (t : UUID) (rep0 : TenantReport) (d0 : DB) (evs : list event)
    (m : TenantReport → Tx DB Error TenantReport) : Prop :=
  ∀ rep d, same_posture rep0 rep → preferences d = preferences d0 →
    Forall valid_event evs → NoDup (ev_key t <$> evs) → undrawn env t evs d →
    ∃ rep', m rep d = (Ok rep', deliver_all env t d evs) ∧ same_posture rep0 rep' ∧
      (written rep' + length (notifications d) = written rep + length (notifications (deliver_all env t d evs)))%nat.

Lemma deliver_preferences env t d ev : preferences (deliver env t d ev) = preferences d.
Proof using. unfold deliver. by destruct (claimed t ev d). Qed.

Lemma deliver_all_preferences env t d evs : preferences (deliver_all env t d evs) = preferences d.
Proof using.
  unfold deliver_all. revert d. induction evs as [|ev evs IH]; intros d; [done|]. simpl. by rewrite IH, deliver_preferences.
Qed.

Lemma deliver_count env t d ev :
  length (notifications (deliver env t d ev)) = (length (notifications d) + (if claimed t ev d then 0 else 1))%nat.
Proof using.
  unfold deliver. destruct (claimed t ev d); simpl; [lia|]. rewrite length_app. simpl. lia.
Qed.

(** One claim-and-write step, whatever it adds to the report. *)
Lemma write_delivers env t rep0 d0 ev (count : bool → TenantReport → TenantReport) :
  (∀ w rep, same_posture rep (count w rep) ∧ written (count w rep) = (written rep + (if w then 1 else 0))%nat) →
  delivers env t rep0 d0 [ev] (λ rep,
    wrote ← writeIfClaimedRaw env t (ev_recipient ev) (ev_kind ev) (ev_dedup ev) (ev_payload ev); mret (count wrote rep)).
Proof using.
  intros Hc rep d Hp _ Hv _ Hu. rewrite Forall_singleton in Hv. unfold mbind, tx_bind.
  rewrite writeIfClaimedRaw_deliver by done. eexists. split; [done|].
  destruct (Hc (negb (claimed t ev d)) rep) as [Hs Hw]. split; [by eapply posture_trans|].
  rewrite Hw. simpl. rewrite deliver_count. destruct (claimed t ev d); simpl; lia.
Qed.

Lemma delivers_nil env t rep0 d0 : delivers env t rep0 d0 [] (λ rep, mret rep).
Proof using. intros rep d Hp _ _ _ _. exists rep. done. Qed.

Lemma undrawn_deliver_all env t evs1 evs2 d :
  distinct_draws env → NoDup (ev_key t <$> evs1 ++ evs2) → undrawn env t (evs1 ++ evs2) d →
  undrawn env t evs2 (deliver_all env t d evs1).
Proof using.
  intros Hdr. unfold deliver_all. revert d. induction evs1 as [|ev evs1 IH]; intros d Hn Hu; [exact Hu|]. simpl.
  csimpl in Hn. apply NoDup_cons in Hn as [Hk Hn]. apply IH; [done|]. by eapply undrawn_deliver.
Qed.

Lemma delivers_app env t rep0 d0 evs1 evs2 m1 m2 :
  distinct_draws env → delivers env t rep0 d0 evs1 m1 → delivers env t rep0 d0 evs2 m2 →
  delivers env t rep0 d0 (evs1 ++ evs2) (λ rep, rep' ← m1 rep; m2 rep').
Proof using.
  intros Hdr H1 H2 rep d Hp Hpr Hv Hn Hu. pose proof (undrawn_deliver_all env t evs1 evs2 d Hdr Hn Hu) as Hu2.
  apply Forall_app in Hv as [Hv1 Hv2]. rewrite fmap_app in Hn. apply NoDup_app in Hn as (Hn1 & _ & Hn2).
  destruct (H1 rep d) as (rep1 & E1 & Hs1 & Hw1); try done; [intros ev ?; apply Hu; set_solver|].
  destruct (H2 rep1 (deliver_all env t d evs1)) as (rep2 & E2 & Hs2 & Hw2); try done; [by rewrite deliver_all_preferences|].
  exists rep2. unfold mbind, tx_bind. rewrite E1, E2. unfold deliver_all in *. rewrite fold_left_app. split_and!; try done. lia.
Qed.

Lemma delivers_ext env t rep0 d0 evs m m' :
  (∀ rep d, same_posture rep0 rep → preferences d = preferences d0 → m rep d = m' rep d) →
  delivers env t rep0 d0 evs m → delivers env t rep0 d0 evs m'.
Proof using.
  intros He H rep d Hp Hpr Hv Hn Hu. destruct (H rep d) as (rep' & E & ?); try done. exists rep'. rewrite <- He by done. done.
Qed.

Lemma alertEach_delivers env t rep0 d0 recipient now cs :
  distinct_draws env →
  delivers env t rep0 d0 (alert_event recipient now <$> stale_of cs) (alertEach env t recipient (recomputePeriodKey now) cs).
Proof using.
  intros Hdr. unfold stale_of, select_where. induction cs as [|c cs IH]; [apply delivers_nil|].
  rewrite filter_cons. destruct (decide (cl_band c = BandStale)) as [Hb|Hb].
  - rewrite decide_True by (by rewrite bool_decide_eq_true_2).
    eapply delivers_ext; [|apply (delivers_app env t rep0 d0 [alert_event recipient now c]); [done| |exact IH]].
    2:{ apply (write_delivers env t rep0 d0 (alert_event recipient now c) count_alert).
        intros w rep. unfold same_posture, written. simpl. split; [done|lia]. }
    intros rep d _ _. simpl. rewrite bool_decide_eq_false_2 by tauto. unfold mbind, tx_bind. simpl.
    destruct (writeIfClaimedRaw _ _ _ _ _ _ _) as [[w|e] d']; done.
  - rewrite decide_False by (by rewrite bool_decide_eq_false_2).
    eapply delivers_ext; [|exact IH]. intros rep d _ _. simpl. by rewrite bool_decide_eq_true_2.
Qed.

Lemma digest_delivers env weekly t now cs rep0 d0 recipient :
  delivers env t rep0 d0 (if digest_due weekly rep0 then [digest_event recipient now cs rep0] else [])
    (λ rep, if digest_due weekly rep then
              wrote ← writeIfClaimedRaw env t recipient "staleness_digest" (digest_dedup (isoWeekKey now))
                        (PDigest (digest_for now cs rep));
              mret (count_digest wrote rep)
            else mret rep).
Proof using.
  assert (Heq : ∀ rep, same_posture rep0 rep →
                  digest_due weekly rep = digest_due weekly rep0 ∧ digest_for now cs rep = digest_for now cs rep0).
  { intros rep (E1 & E2 & _). unfold digest_due, digest_for. by rewrite E1, E2. }
  destruct (digest_due weekly rep0) eqn:Hdue.
  - eapply delivers_ext; [|apply (write_delivers env t rep0 d0 (digest_event recipient now cs rep0) count_digest)].
    + intros rep d Hp _. destruct (Heq rep Hp) as [-> ->]. done.
    + intros w rep. unfold same_posture, written. simpl. split; [done|lia].
  - eapply delivers_ext; [|apply delivers_nil]. intros rep d Hp _. by destruct (Heq rep Hp) as [-> _].
Qed.

Lemma rollupUsers_delivers env weekly t now cs rep0 d0 us :
  distinct_draws env →
  delivers env t rep0 d0 (events weekly t now cs rep0 us d0) (rollupUsers env weekly t now cs us).
Proof using.
  intros Hdr. induction us as [|u us IH]; [apply delivers_nil|].
  change (events weekly t now cs rep0 (u :: us) d0) with
    ((if opted_in t d0 u then user_events weekly now cs rep0 u else []) ++ events weekly t now cs rep0 us d0).
  assert (Hopt : ∀ d, preferences d = preferences d0 → inAppEnabled t (u_ID u) d = opted_in t d0 u).
  { intros d E. unfold opted_in, inAppEnabled, ListUserNotificationPreferences. by rewrite E. }
  destruct (opted_in t d0 u).
  - unfold user_events. rewrite <- app_assoc.
    eapply delivers_ext; [|apply delivers_app; [done|by apply alertEach_delivers|
      apply delivers_app; [done|apply digest_delivers|exact IH]]].
    intros rep d _ Hpr. simpl. unfold mbind, tx_bind, tx_gets. rewrite Hopt by done. done.
  - eapply delivers_ext; [|exact IH]. intros rep d _ Hpr. simpl. unfold mbind, tx_bind, tx_gets. by rewrite Hopt.
Qed.

(** ** The events of a pass are distinct *)

Lemma str_app_inj_r (a b c : string) : a +:+ c = b +:+ c → a = b.
Proof using.
  revert b. induction a as [|x a IH]; intros [|y b] E; [done| | |].
  - exfalso. apply (f_equal String.length) in E. rewrite !length_app_str in E. simpl in E. lia.
  - exfalso. apply (f_equal String.length) in E. rewrite !length_app_str in E. simpl in E. lia.
  - injection E as -> E. f_equal. by apply IH.
Qed.

Lemma uuid_String_inj u v : uuid_String u = uuid_String v → u = v.
Proof using. intros E. apply (f_equal uuid_Parse) in E. rewrite !uuid_Parse_String in E. congruence. Qed.

Lemma alert_dedup_inj period c c' :
  cl_band c = BandStale → cl_band c' = BandStale → alert_dedup period c = alert_dedup period c' →
  it_ControlID (cl_item c) = it_ControlID (cl_item c').
Proof using.
  unfold alert_dedup. intros -> -> E. repeat (injection E as E). rewrite !str_nil_app in E. by apply str_app_inj_r in E.
Qed.

Definition control_ids (cs : list classified) : list string := (λ c, it_ControlID (cl_item c)) <$> cs.

Lemma user_events_recipient weekly now cs rep u ev :
  ev ∈ user_events weekly now cs rep u → ev_recipient ev = uuid_String (u_ID u).
Proof using.
  intros [(c & -> & _)%list_elem_of_fmap|H]%elem_of_app; [done|]. destruct (digest_due weekly rep).
  - by apply list_elem_of_singleton in H as ->.
  - by apply elem_of_nil in H.
Qed.

Lemma stale_alerts_NoDup t recipient now cs :
  NoDup (control_ids cs) → NoDup (ev_key t <$> (alert_event recipient now <$> stale_of cs)).
Proof using.
  intros Hn. rewrite <- list_fmap_compose. unfold stale_of, select_where, control_ids in *.
  assert (Hs : ∀ c, c ∈ filter (λ c, bool_decide (cl_band c = BandStale) = true) cs → cl_band c = BandStale ∧ c ∈ cs).
  { intros c [Hb Hc]%list_elem_of_filter. by apply bool_decide_eq_true in Hb. }
  assert (Hn' : NoDup ((λ c, it_ControlID (cl_item c)) <$> filter (λ c, bool_decide (cl_band c = BandStale) = true) cs)).
  { eapply sublist_NoDup; [exact Hn|]. apply fmap_sublist, sublist_filter. }
  revert Hs Hn'. generalize (filter (λ c, bool_decide (cl_band c = BandStale) = true) cs) as l.
  induction l as [|c l IH]; intros Hs Hn'; [constructor|]. csimpl in *. apply NoDup_cons in Hn' as [Hc Hl].
  constructor; [|apply IH; [intros x Hx; apply Hs; by right|done]].
  intros (c' & E & Hc')%list_elem_of_fmap. apply Hc. apply list_elem_of_fmap. exists c'. split; [|done].
  apply (f_equal snd) in E.
  apply (alert_dedup_inj (recomputePeriodKey now)); [apply Hs; left|apply Hs; by right|exact E].
Qed.

Lemma user_events_NoDup t weekly now cs rep u :
  NoDup (control_ids cs) → NoDup (ev_key t <$> user_events weekly now cs rep u).
Proof using.
  intros Hn. unfold user_events. rewrite fmap_app. apply NoDup_app. split_and!; [by apply stale_alerts_NoDup| |].
  - intros k (ev & -> & (c & -> & _)%list_elem_of_fmap)%list_elem_of_fmap. destruct (digest_due weekly rep); csimpl.
    + rewrite list_elem_of_singleton. done.
    + apply not_elem_of_nil.
  - destruct (digest_due weekly rep); [apply NoDup_singleton|constructor].
Qed.

Lemma events_NoDup t weekly now cs rep us d :
  NoDup (control_ids cs) → NoDup (u_ID <$> us) → NoDup (ev_key t <$> events weekly t now cs rep us d).
Proof using.
  intros Hcs. induction us as [|u us IH]; [constructor|]. csimpl. intros [Hu Hus]%NoDup_cons.
  change (events weekly t now cs rep (u :: us) d) with
    ((if opted_in t d u then user_events weekly now cs rep u else []) ++ events weekly t now cs rep us d).
  rewrite fmap_app. apply NoDup_app. split_and!; [|intros k Hk Hk'|by apply IH].
  - destruct (opted_in t d u); [by apply user_events_NoDup|constructor].
  - destruct (opted_in t d u); [|by apply elem_of_nil in Hk].
    apply list_elem_of_fmap in Hk as (ev & -> & Hev). apply list_elem_of_fmap in Hk' as (ev' & E & Hev').
    unfold events in Hev'. apply list_elem_of_bind in Hev' as (v & Hv & Hvs).
    destruct (opted_in t d v); [|by apply elem_of_nil in Hv]. injection E as E _.
    rewrite (user_events_recipient _ _ _ _ _ _ Hev), (user_events_recipient _ _ _ _ _ _ Hv) in E.
    apply uuid_String_inj in E. apply Hu. rewrite E. by apply list_elem_of_fmap_2.
Qed.

Lemma events_valid weekly t now cs rep us d : Forall valid_event (events weekly t now cs rep us d).
Proof using.
  apply Forall_forall. intros ev (u & Hev & _)%list_elem_of_bind. destruct (opted_in t d u); [|by apply elem_of_nil in Hev].
  unfold valid_event. rewrite (user_events_recipient _ _ _ _ _ _ Hev).
  apply elem_of_app in Hev as [(c & -> & _)%list_elem_of_fmap|H].
  - split_and!; [apply uuid_String_nonempty|done|by left].
  - destruct (digest_due weekly rep); [|by apply elem_of_nil in H]. apply list_elem_of_singleton in H as ->.
    split_and!; [apply uuid_String_nonempty|done|by right].
Qed.
End Events.

(** ** A pass *)

Section Pass.
Context {UT : UUIDText} {PL : Planner}.
Context (collate : string → string → Prop) `{!RelDecision collate}.

(** The controls of tenant [t] that are not comfortably fresh at [now]. *)
Definition posture (t : UUID) (now : Time) (window : Duration) (d : DB) : list classified :=
  omap (classify_row now window)
    (Freshness.controlFreshnessFromRow <$> Freshness.ListEvidenceFreshness collate t (read_models d)).

Definition opening_report (cs : list classified) (us : list User) : TenantReport :=
  mkTenantReport (length us) 0 0 0 0 (count_band BandStale cs) (count_band BandApproaching cs).

Definition pass_events (weekly : bool) (t : UUID) (now : Time) (window : Duration) (d : DB) : list event :=
  let cs := posture t now window d in
  let us := ListActiveUsersForTenant t d in
  events weekly t now cs (opening_report cs us) us d.

Lemma posture_ids rows now window :
  control_ids (omap (classify_row now window) rows) `sublist_of` (λ r, uuid_String (Freshness.ControlID r)) <$> rows.
Proof using.
  induction rows as [|r rows IH]; [constructor|]. csimpl. unfold classify_row at 1. case_bool_decide; csimpl.
  - by constructor.
  - by constructor.
Qed.

Lemma posture_NoDup t now window d :
  keyed (ReadModel.evidence_freshness (read_models d)) → NoDup (control_ids (posture t now window d)).
Proof using.
  intros Hk. eapply sublist_NoDup; [|apply posture_ids]. rewrite <- list_fmap_compose.
  change (NoDup ((λ r, uuid_String (f_ControlID r)) <$> Freshness.ListEvidenceFreshness collate t (read_models d))).
  unfold Freshness.ListEvidenceFreshness. rewrite merge_sort_Permutation.
  set (l := select_where _ _). change (NoDup (uuid_String ∘ f_ControlID <$> l)). rewrite list_fmap_compose.
  apply NoDup_fmap_2; [intros a b; apply uuid_String_inj|].
  assert (Hl : NoDup (row_key <$> l)).
  { eapply sublist_NoDup; [exact Hk|]. apply fmap_sublist, sublist_filter. }
  assert (Ht : ∀ r, r ∈ l → f_TenantID r = t).
  { intros r [E _]%elem_of_select_where. by apply bool_decide_eq_true in E. }
  clearbody l. induction l as [|r l IH]; [constructor|]. csimpl in *. apply NoDup_cons in Hl as [Hr Hl].
  constructor; [|apply IH; [done|intros x Hx; apply Ht; by right]].
  intros (x & E & Hx)%list_elem_of_fmap. apply Hr, list_elem_of_fmap. exists x. split; [|done].
  unfold row_key. rewrite E, (Ht r), (Ht x); [done|by right|left].
Qed.

Lemma active_users_NoDup t d : NoDup (u_ID <$> users d) → NoDup (u_ID <$> ListActiveUsersForTenant t d).
Proof using.
  intros Hn. unfold ListActiveUsersForTenant. rewrite merge_sort_Permutation.
  eapply sublist_NoDup; [exact Hn|]. apply fmap_sublist, sublist_filter.
Qed.

(** The keys the tables declare unique. *)
Definition pref_key (p : Preference) : UUID * UUID * string * string := (p_TenantID p, p_UserID p, p_Event p, p_Channel p).
Definition tables_ok (d : DB) : Prop :=
  keyed (ReadModel.evidence_freshness (read_models d)) ∧ NoDup (u_ID <$> users d) ∧ NoDup (pref_key <$> preferences d).

Lemma pass_events_NoDup weekly t now window d :
  tables_ok d → NoDup (ev_key t <$> pass_events weekly t now window d).
Proof using. intros (Hk & Hu & _). apply events_NoDup; [by apply posture_NoDup|by apply active_users_NoDup]. Qed.

Lemma RollupTenant_delivers env ctx t now weekly d :
  env_call env = Eval.mkEnv ctx healthy now → tenant_of ctx = Some t → tables_ok d → distinct_draws env →
  let evs := pass_events weekly t now (env_window env) d in
  undrawn env t evs d →
  ∃ rep, RollupTenant collate env weekly d = (Ok rep, deliver_all env t d evs) ∧
    same_posture (opening_report (posture t now (env_window env) d) (ListActiveUsersForTenant t d)) rep ∧
    written rep = length (select_where (λ ev, negb (claimed t ev d)) evs).
Proof using.
  intros Henv Ht Hok Hdr evs Hu. unfold RollupTenant, inTx, Freshness.List, Freshness.inTx. rewrite Henv. simpl.
  rewrite (inTx_healthy (λ d : ReadModel.DB, d) ctx t) by done. simpl.
  rewrite (inTx_healthy (λ d : DB, d) ctx t) by done. unfold mbind at 1, tx_bind at 1. simpl.
  change (omap (classify_row now (env_window env)) _) with (posture t now (env_window env) d).
  destruct (rollupUsers_delivers env weekly t now (posture t now (env_window env) d)
    (opening_report (posture t now (env_window env) d) (ListActiveUsersForTenant t d)) d (ListActiveUsersForTenant t d) Hdr
    (opening_report (posture t now (env_window env) d) (ListActiveUsersForTenant t d)) d)
    as (rep & E & Hs & Hw); [done|done|apply events_valid|by apply pass_events_NoDup|done|].
  exists rep. unfold opening_report in E. rewrite E. split_and!; [done|done|].
  change (events _ _ _ _ _ _ _) with evs in Hw. rewrite (deliver_all_spec env t evs d) in Hw by by apply pass_events_NoDup.
  simpl in Hw. rewrite length_app, length_fmap in Hw. unfold written in *. simpl in Hw. lia.
Qed.

Lemma alerts_in_pass weekly t now w d u c :
  u ∈ ListActiveUsersForTenant t d → opted_in t d u = true → c ∈ stale_of (posture t now w d) →
  alert_event (uuid_String (u_ID u)) now c ∈ pass_events weekly t now w d.
Proof using.
  intros Hu Ho Hc. unfold pass_events, events. apply list_elem_of_bind. exists u. split; [|done]. rewrite Ho.
  apply elem_of_app. left. by apply list_elem_of_fmap_2.
Qed.

(** *** Who is alerted about what *)

(** No preference row turns the event off for [u]. *)
Definition listening (t : UUID) (d : DB) (u : User) : Prop :=
  ¬ ∃ p, p ∈ preferences d ∧ pref_key p = (t, u_ID u, "evidence_staleness", "in_app") ∧ p_Enabled p = false.

Lemma opted_in_listening t d u : tables_ok d → opted_in t d u = true ↔ listening t d u.
Proof using.
  intros (_ & _ & Hn). unfold opted_in, inAppEnabled, ListUserNotificationPreferences, listening.
  assert (Hin : ∀ p, p ∈ select_where (λ r, bool_decide (p_Event r = "evidence_staleness") && bool_decide (p_Channel r = "in_app"))
      (select_where (λ p, bool_decide (p_TenantID p = t) && bool_decide (p_UserID p = u_ID u)) (preferences d)) ↔
      p ∈ preferences d ∧ pref_key p = (t, u_ID u, "evidence_staleness", "in_app")).
  { intros p. rewrite !elem_of_select_where, !andb_true_iff, !bool_decide_eq_true. unfold pref_key. split.
    - intros ([? ?] & [? ?] & ?). split; [done|congruence].
    - intros [? E]. simplify_eq. done. }
  destruct (select_where _ _) as [|p l] eqn:E.
  - split; [|done]. intros _ (p & H1 & H2 & _). by apply (not_elem_of_nil p), Hin.
  - destruct (proj1 (Hin p) ltac:(left)) as [Hp Hk]. split.
    + intros Ht (q & Hq & Hkq & Hf). rewrite (NoDup_key_inj pref_key _ p q Hn Hp Hq) in Ht by congruence. congruence.
    + intros H. destruct (p_Enabled p) eqn:Ep; [done|]. destruct H. eauto.
Qed.

(** An active user of the tenant who listens, and a control the read model calls
    stale, or one without a horizon. *)
Definition alertable (t : UUID) (d : DB) (recipient control : string) : Prop :=
  (∃ u, u ∈ users d ∧ u_TenantID u = t ∧ u_Status u = "active" ∧ recipient = uuid_String (u_ID u) ∧ listening t d u) ∧
  (∃ f, f ∈ ReadModel.evidence_freshness (read_models d) ∧ f_TenantID f = t ∧
        (f_IsStale f = true ∨ f_ValidUntil f = None) ∧ control = uuid_String (f_ControlID f)).

Lemma elem_of_active_users t d u :
  u ∈ ListActiveUsersForTenant t d ↔ u ∈ users d ∧ u_TenantID u = t ∧ u_Status u = "active".
Proof using.
  unfold ListActiveUsersForTenant. rewrite merge_sort_Permutation, elem_of_select_where, andb_true_iff, !bool_decide_eq_true. tauto.
Qed.

Lemma elem_of_posture t now w d c :
  c ∈ posture t now w d ↔
  ∃ f, f ∈ ReadModel.evidence_freshness (read_models d) ∧ f_TenantID f = t ∧
       classify_row now w (Freshness.controlFreshnessFromRow f) = Some c.
Proof using.
  unfold posture. rewrite list_elem_of_omap. setoid_rewrite list_elem_of_fmap. unfold Freshness.ListEvidenceFreshness.
  setoid_rewrite (merge_sort_Permutation _ (select_where _ _)). setoid_rewrite elem_of_select_where.
  setoid_rewrite bool_decide_eq_true. naive_solver.
Qed.

Lemma stale_posture_controls t now w d control :
  (∃ c, c ∈ stale_of (posture t now w d) ∧ it_ControlID (cl_item c) = control) ↔
  ∃ f, f ∈ ReadModel.evidence_freshness (read_models d) ∧ f_TenantID f = t ∧
       (f_IsStale f = true ∨ f_ValidUntil f = None) ∧ control = uuid_String (f_ControlID f).
Proof using.
  unfold stale_of. setoid_rewrite elem_of_select_where. setoid_rewrite elem_of_posture. setoid_rewrite bool_decide_eq_true. split.
  - intros (c & (Hb & f & Hf & Ht & Hc) & <-). exists f. unfold classify_row, Classify in Hc. simpl in Hc.
    split_and!; [done|done| |by repeat case_match; simplify_eq/=].
    destruct (f_ValidUntil f); [left|by right]. destruct (f_IsStale f); [done|]. by repeat case_match; simplify_eq/=.
  - intros (f & Hf & Ht & Hs & ->).
    exists (mkClassified BandStale (mkItem (uuid_String (f_ControlID f)) (default "" (f_FreshnessClass f)) (Band_String BandStale))).
    split_and!; [done| |done]. exists f. split_and!; [done|done|].
    unfold classify_row, Classify. simpl. destruct (f_ValidUntil f); [|done]. destruct Hs as [->|?]; done.
Qed.

Lemma alert_events_spec weekly t now w d recipient control :
  tables_ok d →
  (∃ ev a, ev ∈ pass_events weekly t now w d ∧ ev_recipient ev = recipient ∧ ev_payload ev = PAlert a ∧ al_ControlID a = control) ↔
  alertable t d recipient control.
Proof using.
  intros Hok. unfold alertable. rewrite <- (stale_posture_controls t now w). split.
  - intros (ev & a & Hev & <- & Hp & <-). unfold pass_events, events in Hev.
    apply list_elem_of_bind in Hev as (u & Hev & Hu%elem_of_active_users).
    destruct (opted_in t d u) eqn:Ho; [|by apply elem_of_nil in Hev]. rewrite (user_events_recipient _ _ _ _ _ _ Hev).
    apply opted_in_listening in Ho; [|done]. split; [exists u; tauto|].
    apply elem_of_app in Hev as [(c & -> & Hc)%list_elem_of_fmap|H].
    + simpl in Hp. injection Hp as <-. exists c. done.
    + destruct (digest_due _ _); [|by apply elem_of_nil in H]. by apply list_elem_of_singleton in H as ->.
  - intros [(u & Hu & Ht & Ha & -> & Hl) (c & Hc & <-)].
    exists (alert_event (uuid_String (u_ID u)) now c), (alertPayload (cl_item c)). split_and!; try done.
    apply alerts_in_pass; [by apply elem_of_active_users|by apply opted_in_listening|done].
Qed.

(** A staleness pass on a healthy pool succeeds, leaves the read models alone,
    and writes exactly one notification, with its claim, for each of its events
    that was not claimed before, its counters adding up to the notifications
    written.  The events have distinct keys, and they alert a recipient about a
    control exactly when the recipient is an active user of the tenant who has not
    turned the event off and the read model calls the control stale. *)
Theorem rollup_delivers_each_event_once env ctx t now weekly d :
  env_call env = Eval.mkEnv ctx healthy now → tenant_of ctx = Some t → tables_ok d → distinct_draws env →
  let evs := pass_events weekly t now (env_window env) d in
  let new := select_where (λ ev, negb (claimed t ev d)) evs in
  undrawn env t evs d →
  NoDup (ev_key t <$> evs) ∧
  (∀ recipient control,
     (∃ ev a, ev ∈ evs ∧ ev_recipient ev = recipient ∧ ev_payload ev = PAlert a ∧ al_ControlID a = control) ↔
     alertable t d recipient control) ∧
  ∃ rep, RollupTenant collate env weekly d =
    (Ok rep, mkDB (read_models d) (risk_tenants d) (users d) (preferences d)
               (staleness_rollup_log d ++ (claim_of env t <$> new)) (notifications d ++ (note_of env t <$> new))) ∧
    (AlertsWritten rep + DigestsWritten rep)%nat = length new.
Proof using.
  intros Henv Ht Hok Hdr evs new Hu. pose proof (pass_events_NoDup weekly t now (env_window env) d Hok) as Hn.
  split; [done|]. split; [intros; by apply alert_events_spec|].
  destruct (RollupTenant_delivers env ctx t now weekly d Henv Ht Hok Hdr Hu) as (rep & E & _ & Hw).
  exists rep. rewrite E. unfold evs in new. rewrite deliver_all_spec by done. split; [done|]. exact Hw.
Qed.

(** *** A second pass in the same period *)

Lemma claimed_same_key t ev ev' d : ev_key t ev = ev_key t ev' → claimed t ev d = claimed t ev' d.
Proof using. unfold claimed. by intros ->. Qed.

Lemma claimed_mono env t ev evs d : claimed t ev d = true → claimed t ev (deliver_all env t d evs) = true.
Proof using.
  unfold deliver_all. revert d. induction evs as [|x evs IH]; intros d H; [done|]. simpl. apply IH.
  by rewrite claimed_deliver, H.
Qed.

Lemma claimed_delivered env t ev evs d : ev ∈ evs → claimed t ev (deliver_all env t d evs) = true.
Proof using.
  revert d. induction evs as [|x evs IH]; intros d; [by intros ?%elem_of_nil|].
  intros [->|H]%elem_of_cons; [|by apply IH].
  apply (claimed_mono env t x evs (deliver env t d x)). rewrite claimed_deliver, bool_decide_eq_true_2 by done. apply orb_true_r.
Qed.

Lemma deliver_claimed env t evs d : (∀ ev, ev ∈ evs → claimed t ev d = true) → deliver_all env t d evs = d.
Proof using.
  unfold deliver_all. induction evs as [|ev evs IH]; intros H; [done|]. simpl.
  unfold deliver at 2. rewrite H by left. apply IH. intros x Hx. apply H. by right.
Qed.

Lemma deliver_all_frame env t evs d :
  read_models (deliver_all env t d evs) = read_models d ∧ users (deliver_all env t d evs) = users d ∧
  preferences (deliver_all env t d evs) = preferences d.
Proof using.
  unfold deliver_all. revert d. induction evs as [|ev evs IH]; intros d; [done|]. simpl.
  destruct (IH (deliver env t d ev)) as (-> & -> & ->). unfold deliver. by destruct (claimed t ev d).
Qed.

(** Which controls are stale is the read model's verdict, not the clock's. *)
Lemma stale_posture_clock t now now' w w' d : stale_of (posture t now w d) = stale_of (posture t now' w' d).
Proof using.
  unfold posture. generalize (Freshness.controlFreshnessFromRow <$> Freshness.ListEvidenceFreshness collate t (read_models d)) as rows.
  intros rows. unfold stale_of, select_where. induction rows as [|r rows IH]; [done|]. simpl.
  unfold classify_row, Classify. simpl. destruct (Freshness.ValidUntil r) as [v|]; [|simpl; rewrite !filter_cons; simpl; by f_equal].
  destruct (Freshness.IsStale r); [simpl; rewrite !filter_cons; simpl; by f_equal|].
  destruct (After v (now + w)), (After v (now' + w')); simpl; rewrite ?filter_cons; simpl; exact IH.
Qed.

Lemma unweekly_events t now w d ev :
  ev ∈ pass_events false t now w d ↔
  ∃ u c, u ∈ ListActiveUsersForTenant t d ∧ opted_in t d u = true ∧ c ∈ stale_of (posture t now w d) ∧
         ev = alert_event (uuid_String (u_ID u)) now c.
Proof using.
  unfold pass_events, events. rewrite list_elem_of_bind. split.
  - intros (u & Hev & Hu). destruct (opted_in t d u) eqn:Ho; [|by apply elem_of_nil in Hev].
    unfold user_events in Hev. simpl in Hev. rewrite app_nil_r in Hev. apply list_elem_of_fmap in Hev as (c & -> & Hc). eauto 10.
  - intros (u & c & Hu & Ho & Hc & ->). exists u. split; [|done]. rewrite Ho. unfold user_events. simpl.
    rewrite app_nil_r. by apply list_elem_of_fmap_2.
Qed.

(** Once a pass has run, any further pass of the same 6-hour period that is not
    on the weekly trigger succeeds without writing anything: no recipient is
    alerted twice about the same control in one period, whatever the clock and
    the early-warning window of the second pass. *)
Theorem second_pass_is_silent env env' ctx t now now' weekly d :
  env_call env = Eval.mkEnv ctx healthy now → env_call env' = Eval.mkEnv ctx healthy now' →
  tenant_of ctx = Some t → tables_ok d → distinct_draws env → distinct_draws env' →
  undrawn env t (pass_events weekly t now (env_window env) d) d →
  recomputePeriodKey now' = recomputePeriodKey now →
  ∃ rep d1 rep', RollupTenant collate env weekly d = (Ok rep, d1) ∧
    RollupTenant collate env' false d1 = (Ok rep', d1) ∧ AlertsWritten rep' = 0%nat ∧ DigestsWritten rep' = 0%nat.
Proof using.
  intros Henv Henv' Ht Hok Hdr Hdr' Hu Hper.
  destruct (RollupTenant_delivers env ctx t now weekly d Henv Ht Hok Hdr Hu) as (rep & E & _).
  set (d1 := deliver_all env t d (pass_events weekly t now (env_window env) d)) in *.
  destruct (deliver_all_frame env t (pass_events weekly t now (env_window env) d) d) as (HR & HU & HP). fold d1 in HR, HU, HP.
  assert (Hcl : ∀ ev, ev ∈ pass_events false t now' (env_window env') d1 → claimed t ev d1 = true).
  { intros ev (u & c & Hus & Ho & Hc & ->)%unweekly_events.
    rewrite (stale_posture_clock t now' now _ (env_window env)) in Hc.
    rewrite (claimed_same_key t _ (alert_event (uuid_String (u_ID u)) now c)).
    2:{ unfold ev_key, alert_event. simpl. by rewrite Hper. }
    apply claimed_delivered, alerts_in_pass.
    - unfold ListActiveUsersForTenant in *. by rewrite HU in Hus.
    - unfold opted_in, inAppEnabled, ListUserNotificationPreferences in *. by rewrite HP in Ho.
    - unfold posture in *. by rewrite HR in Hc. }
  assert (Hok1 : tables_ok d1) by (unfold tables_ok; by rewrite HR, HU, HP).
  destruct (RollupTenant_delivers env' ctx t now' false d1 Henv' Ht Hok1 Hdr') as (rep' & E' & _ & Hw).
  { intros ev Hev Hf. rewrite (Hcl ev Hev) in Hf. done. }
  rewrite deliver_claimed in E' by done. exists rep, d1, rep'. split_and!; [done|done|..].
  all: rewrite select_where_none in Hw by (intros ev Hev; by rewrite (Hcl ev Hev)); unfold written in Hw; simpl in Hw; lia.
Qed.

(** ** The weekly trigger *)

(** Nothing but alerts was added. *)
Definition only_alerts (d d' : DB) : Prop :=
  ∀ n, n ∈ notifications d' → n ∈ notifications d ∨ ∃ a, n_Payload n = PAlert a.

Lemma only_alerts_refl d : only_alerts d d.
Proof using. intros n. auto. Qed.

Lemma only_alerts_trans d1 d2 d3 : only_alerts d1 d2 → only_alerts d2 d3 → only_alerts d1 d3.
Proof using. intros H1 H2 n [H|H]%H2; auto. Qed.

Lemma write_alert_only env t r k dd a d :
  only_alerts d (writeIfClaimedRaw env t r k dd (PAlert a) d).2.
Proof using.
  unfold writeIfClaimedRaw, ClaimStalenessRollup, CreateNotification.
  repeat (case_match; simplify_eq/=); try apply only_alerts_refl; try (intros n; auto).
  intros [H|H]%elem_of_app; [by left|]. apply list_elem_of_singleton in H as ->. right. by eexists.
Qed.

Lemma alertEach_only env t r period cs rep d :
  let res := alertEach env t r period cs rep d in
  only_alerts d res.2 ∧ ∀ rep', res.1 = Ok rep' → DigestsWritten rep' = DigestsWritten rep.
Proof using.
  revert rep d. induction cs as [|c cs IH]; intros rep d; simpl.
  { split; [apply only_alerts_refl|]. by intros rep' [= <-]. }
  case_bool_decide; [apply IH|]. unfold mbind, tx_bind.
  pose proof (write_alert_only env t r "staleness_alert" (alert_dedup period c) (alertPayload (cl_item c)) d) as Hw.
  destruct (writeIfClaimedRaw _ _ _ _ _ _ _) as [[w|e] d1]; simpl in Hw; [|by split].
  destruct (IH (count_alert w rep) d1) as [H1 H2]. split; [by eapply only_alerts_trans|done].
Qed.

Lemma rollupUsers_only env t now cs us rep d :
  let res := rollupUsers env false t now cs us rep d in
  only_alerts d res.2 ∧ ∀ rep', res.1 = Ok rep' → DigestsWritten rep' = DigestsWritten rep.
Proof using.
  revert rep d. induction us as [|u us IH]; intros rep d; simpl.
  { split; [apply only_alerts_refl|]. by intros rep' [= <-]. }
  unfold mbind, tx_bind, tx_gets. destruct (inAppEnabled t (u_ID u) d); simpl; [|apply IH].
  destruct (alertEach_only env t (uuid_String (u_ID u)) (recomputePeriodKey now) cs rep d) as [H1 H2].
  destruct (alertEach _ _ _ _ _ _ _) as [[rep1|e] d1]; simpl in *; [|by split].
  destruct (IH rep1 d1) as [H3 H4]. split; [by eapply only_alerts_trans|]. intros rep' E. rewrite (H4 rep' E). by apply H2.
Qed.

Lemma RollupTenant_only env d :
  let res := RollupTenant collate env false d in
  only_alerts d res.2 ∧ ∀ rep, res.1 = Ok rep → DigestsWritten rep = 0%nat.
Proof using.
  unfold RollupTenant. destruct (Freshness.List _ _ _) as [[rows|e] rm]; simpl; [|split; [apply only_alerts_refl|done]].
  destruct (inTx _ _ _) as [r d'] eqn:E. apply (inTx_cases (λ d : DB, d)) in E.
  destruct E as [(t & rep & _ & -> & E)|(e & -> & ->)]; [|split; [apply only_alerts_refl|done]].
  unfold mbind, tx_bind, tx_gets in E. simpl in E.
  match type of E with rollupUsers ?e ?w ?t ?n ?cs ?us ?r ?d = _ => pose proof (rollupUsers_only e t n cs us r d) as [H1 H2] end.
  rewrite E in H1, H2. simpl in *. split; [done|]. intros rep' [= <-]. by rewrite (H2 rep).
Qed.

Lemma sweepTenants_only env tenants rep d :
  SweepDigests rep = 0%nat →
  let res := sweepTenants collate env false tenants rep d in
  only_alerts d res.2 ∧ SweepDigests res.1 = 0%nat ∧ Weekly res.1 = Weekly rep.
Proof using.
  revert rep d. induction tenants as [|t tenants IH]; intros rep d Hz; simpl; [split; [apply only_alerts_refl|done]|].
  destruct (WithTenant _ _) as [ctx|e].
  2:{ match goal with |- context [sweepTenants _ _ _ _ ?r d] => exact (IH r d Hz) end. }
  destruct (RollupTenant_only (with_ctx (env t) ctx) d) as [H1 H2].
  destruct (RollupTenant _ _ _ _) as [[tr|e] d']; simpl in *.
  - specialize (H2 tr eq_refl). match goal with |- context [sweepTenants _ _ _ _ ?r d'] => destruct (IH r d') as (H3 & H4 & H5) end.
    { simpl. lia. }
    split_and!; [by eapply only_alerts_trans|done|done].
  - match goal with |- context [sweepTenants _ _ _ _ ?r d'] => destruct (IH r d') as (H3 & H4 & H5) end; [done|].
    split_and!; [by eapply only_alerts_trans|done|done].
Qed.

(** A six-hour step keeps the hour of the day modulo six. *)
Lemma tick_hour start k :
  (tick start DefaultRecomputeInterval k mod ns_per_day / time_Hour) mod 6 = (start mod ns_per_day / time_Hour) mod 6.
Proof using.
  unfold tick. change (DefaultRecomputeInterval <=? 0) with false. cbv iota.
  change DefaultRecomputeInterval with (6 * time_Hour). change ns_per_day with (time_Hour * 24).
  assert (time_Hour > 0) by done. generalize dependent time_Hour. intros h Hh.
  rewrite !Z.rem_mul_r by lia. rewrite !(Z.mul_comm h), !Z.div_add, !(Z.div_small (_ mod h)) by (try lia; apply Z.mod_pos_bound; lia).
  rewrite !Z.add_0_l. replace (start + Z.of_nat k * (6 * h)) with (start + (Z.of_nat k * 6) * h) by lia.
  rewrite Z.div_add by lia. clear. div_lia.
Qed.

(** With the six-hourly cadence the scheduler runs at, a process that starts in
    an hour of the day not congruent to 3 modulo 6 never meets the Monday-09:00
    window, however long it runs: no sweep is weekly, none writes a digest, and
    every notification it ever adds is an alert. *)
Theorem weekly_digest_unreachable env start n d :
  (start mod ns_per_day / time_Hour) mod 6 ≠ 3 →
  let res := RunTicks collate env start DefaultRecomputeInterval n d in
  length res.1 = n ∧ Forall (λ rep, Weekly rep = false ∧ SweepDigests rep = 0%nat) res.1 ∧ only_alerts d res.2.
Proof using.
  intros Hs. simpl. induction n as [|n IH]; simpl; [split_and!; [done|constructor|apply only_alerts_refl]|].
  destruct (RunTicks _ _ _ _ _ _) as [reps d1]. simpl in *. destruct IH as (Hlen & Hall & Honly).
  assert (Hw : isWeeklyDigestWindow (tick start DefaultRecomputeInterval n) = false).
  { unfold isWeeklyDigestWindow. apply andb_false_iff. right. apply bool_decide_eq_false_2. intros E.
    apply Hs. rewrite <- (tick_hour start n), E. done. }
  unfold SweepOnce. rewrite Hw.
  pose proof (sweepTenants_only (env n) (plan (ListTenantsForMetricsScheduler d1)) (mkSweep 0 0 0 0 false) d1 eq_refl) as (H1 & H2 & H3).
  destruct (sweepTenants _ _ _ _ _ _) as [rep d2]. simpl in *. split_and!.
  - rewrite length_app. simpl. lia.
  - apply Forall_app. split; [done|]. by repeat constructor.
  - by eapply only_alerts_trans.
Qed.
End Pass.

(** ** A tenant with one stale control, one listener and one who opted out *)

Module Demo.
#[local] Existing Instance binary_uuid.
#[local] Existing Instance table_order.
Import FreshnessSpec.Demo.

Definition row1 : FreshnessRow :=
  mkFreshness 100%N tenant 1%N (Some "daily") (Some (noon (-9))) (Some (noon (-2))) true 1 (Some (noon 0)).
Definition row2 : FreshnessRow :=
  mkFreshness 102%N tenant 2%N None (Some (noon (-9))) (Some (noon 81)) false 1 (Some (noon 0)).

Definition listener : User := mkUser 8%N tenant "active".
Definition quiet : User := mkUser 9%N tenant "active".
Definition sd0 : DB :=
  mkDB (ReadModel.mkDB l0 [row1; row2] []) [] [listener; quiet; mkUser 10%N tenant "disabled"]
    [mkPref tenant 9%N "evidence_staleness" "in_app" false] [] [].

(** Draws: the recipient and the key, coded as a number. *)
Definition draw_of (r k : string) : UUID := N.pos (encode (r, k)).
Definition env_at (now : Time) : Env := mkEnv (Eval.mkEnv ctx healthy now) DefaultApproachingWindow draw_of draw_of.

Lemma distinct_env now : distinct_draws (env_at now).
Proof. split; intros r k r' k' [= E%(inj encode)]; by injection E. Qed.

Lemma tables_demo : tables_ok sd0.
Proof. split_and!; apply (bool_decide_unpack _); vm_compute; exact I. Qed.

Lemma undrawn_demo now t evs : undrawn (env_at now) t evs sd0.
Proof. intros ev _ _. split; apply not_elem_of_nil. Qed.

Lemma rollup_delivers_each_event_once_witness :
  ∃ rep d', RollupTenant String.le (env_at (noon 0)) true sd0 = (Ok rep, d') ∧
    (AlertsWritten rep + DigestsWritten rep)%nat = 2%nat ∧ n_Recipient <$> notifications d' = [uuid_String 8%N; uuid_String 8%N].
Proof.
  destruct (rollup_delivers_each_event_once String.le (env_at (noon 0)) ctx tenant (noon 0) true sd0) as (_ & _ & rep & E & Hw).
  - reflexivity.
  - reflexivity.
  - exact tables_demo.
  - apply distinct_env.
  - apply undrawn_demo.
  - eexists rep, _. split; [exact E|]. split; [rewrite Hw|]; vm_compute; reflexivity.
Defined.

Lemma second_pass_is_silent_witness :
  ∃ rep d1 rep', RollupTenant String.le (env_at (noon 0)) false sd0 = (Ok rep, d1) ∧ AlertsWritten rep = 1%nat ∧
    RollupTenant String.le (env_at (noon 0 + 5 * time_Hour)) false d1 = (Ok rep', d1) ∧ AlertsWritten rep' = 0%nat.
Proof.
  destruct (second_pass_is_silent String.le (env_at (noon 0)) (env_at (noon 0 + 5 * time_Hour)) ctx tenant (noon 0)
    (noon 0 + 5 * time_Hour) false sd0) as (rep & d1 & rep' & E & E' & H & _).
  - reflexivity.
  - reflexivity.
  - reflexivity.
  - exact tables_demo.
  - apply distinct_env.
  - apply distinct_env.
  - apply undrawn_demo.
  - vm_compute. reflexivity.
  - exists rep, d1, rep'. split_and!; [exact E| |exact E'|exact H]. vm_compute in E. by injection E as <- _.
Defined.

(** A control that stays stale is alerted again in every period, not only when it
    crosses the threshold. *)
Lemma alert_repeats_every_period :
  let d1 := (RollupTenant String.le (env_at (noon 0)) false sd0).2 in
  let d2 := (RollupTenant String.le (env_at (noon 0 + 6 * time_Hour)) false d1).2 in
  n_Payload <$> notifications d1 = [PAlert (alertPayload (mkItem (uuid_String 1%N) "daily" "stale"))] ∧
  n_Payload <$> notifications d2 =
    [PAlert (alertPayload (mkItem (uuid_String 1%N) "daily" "stale")); PAlert (alertPayload (mkItem (uuid_String 1%N) "daily" "stale"))].
Proof. split; vm_compute; reflexivity. Qed.

(** Started at noon, twelve weeks of sweeps. *)
Lemma weekly_digest_unreachable_witness :
  let res := RunTicks String.le (λ k _, env_at (tick (noon 0) DefaultRecomputeInterval k)) (noon 0) DefaultRecomputeInterval 336 sd0 in
  length res.1 = 336%nat ∧ only_alerts sd0 res.2.
Proof.
  destruct (weekly_digest_unreachable String.le (λ k _, env_at (tick (noon 0) DefaultRecomputeInterval k)) (noon 0) 336 sd0)
    as (H1 & _ & H2).
  - vm_compute. congruence.
  - split; [exact H1|exact H2].
Defined.
End Demo.
End StalenessSpec.
