(* ===== verification/Exception.v ===== *)
(** * Exceptions: time-bounded control waivers

    Models internal/exception (store.go, expiry.go) with the SQL statements it
    runs (internal/db/queries/exceptions.sql) and the CHECK, primary-key and
    foreign-key constraints of its tables.  The world is the database plus the
    external audit sink; a rollback restores the database and cannot recall
    what was already handed to the sink. *)

From S2P Require Import Prelude GoTime Tenancy.

Module Exception.

(** ** Data *)

Inductive State :=
| StateRequested | StateApproved | StateDenied | StateActive | StateExpired.

Inductive Action :=
| ActionRequested | ActionApproved | ActionDenied | ActionActivated | ActionExpired.

#[global] Instance State_eq_dec : EqDecision State.
Proof. solve_decision. Defined.
#[global] Instance Action_eq_dec : EqDecision Action.
Proof. solve_decision. Defined.

Definition state_text (s : State) : string :=
  match s with
  | StateRequested => "requested" | StateApproved => "approved"
  | StateDenied => "denied" | StateActive => "active" | StateExpired => "expired"
  end.

Definition MaxLifetime : Duration := 365 * 24 * time_Hour.
Definition SystemActor : string := "system:exception-expiry".

(** A row of the [exceptions] table ([dbx.Exception]). *)
Record Row := mkRow {
  row_ID : UUID;
  row_TenantID : UUID;
  row_ControlID : UUID;
  row_ScopeCellPredicate : string;
  row_Justification : string;
  row_CompensatingControls : list string;
  row_RequestedBy : string;
  row_RequestedAt : Time;
  row_ApprovedBy : option string;
  row_ApprovedAt : option Time;
  row_DeniedBy : option string;
  row_DeniedAt : option Time;
  row_ActivatedBy : option string;
  row_ActivatedAt : option Time;
  row_EffectiveFrom : option Time;
  row_ExpiresAt : Time;
  row_ExpiredAt : option Time;
  row_Status : State;
  row_CreatedAt : Time;
  row_UpdatedAt : Time;
}.

(** The domain shape the store returns; NOT NULL columns are always valid, so
    the two records have the same fields. *)
Record Exception := mkException {
  ID : UUID;
  TenantID : UUID;
  ControlID : UUID;
  ScopeCellPredicate : string;
  Justification : string;
  CompensatingControls : list string;
  RequestedBy : string;
  RequestedAt : Time;
  ApprovedBy : option string;
  ApprovedAt : option Time;
  DeniedBy : option string;
  DeniedAt : option Time;
  ActivatedBy : option string;
  ActivatedAt : option Time;
  EffectiveFrom : option Time;
  ExpiresAt : Time;
  ExpiredAt : option Time;
  Status : State;
  CreatedAt : Time;
  UpdatedAt : Time;
}.

Definition exceptionFromRow (r : Row) : Exception :=
  mkException (row_ID r) (row_TenantID r) (row_ControlID r) (row_ScopeCellPredicate r)
    (row_Justification r) (row_CompensatingControls r) (row_RequestedBy r) (row_RequestedAt r)
    (row_ApprovedBy r) (row_ApprovedAt r) (row_DeniedBy r) (row_DeniedAt r)
    (row_ActivatedBy r) (row_ActivatedAt r) (row_EffectiveFrom r) (row_ExpiresAt r)
    (row_ExpiredAt r) (row_Status r) (row_CreatedAt r) (row_UpdatedAt r).

(** A row of [exception_audit_log]. *)
Record AuditEntry := mkAudit {
  al_ID : UUID;
  al_TenantID : UUID;
  al_ExceptionID : UUID;
  al_Action : Action;
  al_Actor : string;
  al_FromState : option State;
  al_ToState : State;
  al_Reason : string;
  al_OccurredAt : Time;
}.

(** What [emitSinkException] forwards to the external sink. *)
Record SinkEntry := mkSink {
  sk_TenantID : UUID;
  sk_ExceptionID : UUID;
  sk_RowID : UUID;
  sk_Action : Action;
  sk_ActorID : string;
  sk_FromState : string;
  sk_ToState : string;
  sk_Reason : string;
}.

Record DB := mkDB {
  exceptions : list Row;
  audit_log : list AuditEntry;
  controls : list (UUID * UUID);
}.

Record World := mkWorld { db : DB; sink : list SinkEntry }.

#[global] Instance World_rollback : TxState World :=
  λ before after, mkWorld (db before) (sink after).

Inductive Error :=
| ErrNotFound
| ErrWrongState
| ErrExpiresAtRequired
| ErrExpiresAtExceedsCap
| ErrExpiresAtInPast
| ErrControlRequired
| ErrJustificationRequired
| ErrRequesterRequired
| ErrSegregationOfDuties
| ErrWithin
| ErrCanceled
| ErrWrap (msg : string)
| ErrTx (e : TxErr).

#[global] Instance Error_tx : TxError Error := ErrTx.

(** What a statement can report. *)
Inductive QueryErr :=
| NoRows
| PgForeignKey
| PgUnique
| PgInvalidJSON
| PgCheck (constraint : string).

(** ** Statements *)

(** The CHECK constraints of [exceptions]; Postgres tests them in name order. *)
Definition check_row (r : Row) : option string :=
  if bool_decide (row_DeniedBy r = Some (row_RequestedBy r)) then Some "exceptions_denied_by_sod"
  else if bool_decide (row_Justification r = "") then Some "exceptions_justification_nonempty"
  else if bool_decide (row_RequestedAt r + 365 * ns_per_day < row_ExpiresAt r) then Some "exceptions_max_365d"
  else if bool_decide (row_RequestedBy r = "") then Some "exceptions_requested_by_nonempty"
  else if bool_decide (row_ApprovedBy r = Some (row_RequestedBy r)) then Some "exceptions_sod"
  else None.

Definition set_exceptions (w : World) (t : list Row) : World :=
  mkWorld (mkDB t (audit_log (db w)) (controls (db w))) (sink w).
Definition set_audit_log (w : World) (l : list AuditEntry) : World :=
  mkWorld (mkDB (exceptions (db w)) l (controls (db w))) (sink w).

Section Statements.
(** Postgres's jsonb input: the stored rendering of a JSON text, or an error. *)
Context (jsonb_in : string → option string).

Definition CreateException (now : Time) (id tenantID controlID : UUID)
    (predicate justification : string) (compensating : list string)
    (requestedBy : string) (requestedAt expiresAt : Time) : Tx World QueryErr Row := λ w,
  match jsonb_in predicate with
  | None => (Err PgInvalidJSON, w)
  | Some p =>
      let r := mkRow id tenantID controlID p justification compensating requestedBy requestedAt
                 None None None None None None None expiresAt None StateRequested now now in
      match check_row r with
      | Some c => (Err (PgCheck c), w)
      | None =>
          if bool_decide (id ∈ (row_ID <$> exceptions (db w))) then (Err PgUnique, w)
          else if bool_decide ((tenantID, controlID) ∈ controls (db w))
          then (Ok r, set_exceptions w (exceptions (db w) ++ [r]))
          else (Err PgForeignKey, w)
      end
  end.
End Statements.

Definition at_key (tenantID id : UUID) (r : Row) : bool :=
  bool_decide (row_TenantID r = tenantID) && bool_decide (row_ID r = id).
Definition in_state (s : State) (r : Row) : bool := bool_decide (row_Status r = s).

Definition GetExceptionByID (tenantID id : UUID) : Tx World QueryErr Row := λ w,
  match select_where (at_key tenantID id) (exceptions (db w)) with
  | [] => (Err NoRows, w)
  | r :: _ => (Ok r, w)
  end.

(** An [UPDATE ... RETURNING *] read as [:one]. *)
Definition update_one (p : Row → bool) (f : Row → Row) : Tx World QueryErr Row := λ w,
  match updated_rows p f (exceptions (db w)) with
  | [] => (Err NoRows, w)
  | (r :: _) as rs =>
      match omap check_row rs with
      | c :: _ => (Err (PgCheck c), w)
      | [] => (Ok r, set_exceptions w (update_where p f (exceptions (db w))))
      end
  end.

Definition approve_row (now : Time) (approvedBy : option string) (r : Row) : Row :=
  mkRow (row_ID r) (row_TenantID r) (row_ControlID r) (row_ScopeCellPredicate r)
    (row_Justification r) (row_CompensatingControls r) (row_RequestedBy r) (row_RequestedAt r)
    approvedBy (Some now) (row_DeniedBy r) (row_DeniedAt r)
    (row_ActivatedBy r) (row_ActivatedAt r) (row_EffectiveFrom r) (row_ExpiresAt r)
    (row_ExpiredAt r) StateApproved (row_CreatedAt r) now.

Definition deny_row (now : Time) (deniedBy : option string) (r : Row) : Row :=
  mkRow (row_ID r) (row_TenantID r) (row_ControlID r) (row_ScopeCellPredicate r)
    (row_Justification r) (row_CompensatingControls r) (row_RequestedBy r) (row_RequestedAt r)
    (row_ApprovedBy r) (row_ApprovedAt r) deniedBy (Some now)
    (row_ActivatedBy r) (row_ActivatedAt r) (row_EffectiveFrom r) (row_ExpiresAt r)
    (row_ExpiredAt r) StateDenied (row_CreatedAt r) now.

Definition activate_row (now : Time) (activatedBy : option string) (effectiveFrom : Time)
    (r : Row) : Row :=
  mkRow (row_ID r) (row_TenantID r) (row_ControlID r) (row_ScopeCellPredicate r)
    (row_Justification r) (row_CompensatingControls r) (row_RequestedBy r) (row_RequestedAt r)
    (row_ApprovedBy r) (row_ApprovedAt r) (row_DeniedBy r) (row_DeniedAt r)
    activatedBy (Some now) (Some effectiveFrom) (row_ExpiresAt r)
    (row_ExpiredAt r) StateActive (row_CreatedAt r) now.

Definition expire_row (now : Time) (r : Row) : Row :=
  mkRow (row_ID r) (row_TenantID r) (row_ControlID r) (row_ScopeCellPredicate r)
    (row_Justification r) (row_CompensatingControls r) (row_RequestedBy r) (row_RequestedAt r)
    (row_ApprovedBy r) (row_ApprovedAt r) (row_DeniedBy r) (row_DeniedAt r)
    (row_ActivatedBy r) (row_ActivatedAt r) (row_EffectiveFrom r) (row_ExpiresAt r)
    (Some now) StateExpired (row_CreatedAt r) now.

Definition ApproveException (now : Time) (tenantID id : UUID) (approvedBy : option string) :=
  update_one (λ r, at_key tenantID id r && in_state StateRequested r) (approve_row now approvedBy).

Definition DenyException (now : Time) (tenantID id : UUID) (deniedBy : option string) :=
  update_one (λ r, at_key tenantID id r && in_state StateRequested r) (deny_row now deniedBy).

Definition ActivateException (now : Time) (tenantID id : UUID) (activatedBy : option string)
    (effectiveFrom : Time) :=
  update_one (λ r, at_key tenantID id r && in_state StateApproved r)
    (activate_row now activatedBy effectiveFrom).

Definition expirable (tenantID : UUID) (threshold : Time) (r : Row) : bool :=
  bool_decide (row_TenantID r = tenantID) && in_state StateActive r &&
  bool_decide (row_ExpiresAt r < threshold).

Definition ExpireActiveExceptionsBefore (now : Time) (tenantID : UUID) (threshold : Time)
  : Tx World QueryErr (list Row) := λ w,
  let p := expirable tenantID threshold in
  let rs := updated_rows p (expire_row now) (exceptions (db w)) in
  match omap check_row rs with
  | c :: _ => (Err (PgCheck c), w)
  | [] => (Ok rs, set_exceptions w (update_where p (expire_row now) (exceptions (db w))))
  end.

Definition WriteExceptionAuditLog (now : Time) (id tenantID exceptionID : UUID) (action : Action)
    (actor : string) (fromState : option State) (toState : State) (reason : string)
  : Tx World QueryErr AuditEntry := λ w,
  let a := mkAudit id tenantID exceptionID action actor fromState toState reason now in
  if bool_decide (actor = "") then (Err (PgCheck "exception_audit_log_actor_nonempty"), w)
  else if bool_decide (id ∈ (al_ID <$> audit_log (db w))) then (Err PgUnique, w)
  else (Ok a, set_audit_log w (audit_log (db w) ++ [a])).

Definition ListTenantsWithActiveExceptions (w : World) : list UUID :=
  remove_dups (row_TenantID <$> select_where (in_state StateActive) (exceptions (db w))).

(** ORDER BY created_at DESC, id ASC *)
Definition newest_first (r1 r2 : Row) : Prop :=
  row_CreatedAt r2 < row_CreatedAt r1 ∨
  (row_CreatedAt r1 = row_CreatedAt r2 ∧ (row_ID r1 ≤ row_ID r2)%N).
(** ORDER BY expires_at ASC, id ASC *)
Definition soonest_first (r1 r2 : Row) : Prop :=
  row_ExpiresAt r1 < row_ExpiresAt r2 ∨
  (row_ExpiresAt r1 = row_ExpiresAt r2 ∧ (row_ID r1 ≤ row_ID r2)%N).
(** ORDER BY occurred_at ASC, id ASC *)
Definition oldest_first (a1 a2 : AuditEntry) : Prop :=
  al_OccurredAt a1 < al_OccurredAt a2 ∨
  (al_OccurredAt a1 = al_OccurredAt a2 ∧ (al_ID a1 ≤ al_ID a2)%N).

#[global] Instance newest_first_dec : RelDecision newest_first.
Proof. intros r1 r2. unfold newest_first. apply _. Defined.
#[global] Instance soonest_first_dec : RelDecision soonest_first.
Proof. intros r1 r2. unfold soonest_first. apply _. Defined.
#[global] Instance oldest_first_dec : RelDecision oldest_first.
Proof. intros r1 r2. unfold oldest_first. apply _. Defined.

Definition ListExceptions (tenantID : UUID) (w : World) : list Row :=
  merge_sort newest_first
    (select_where (λ r, bool_decide (row_TenantID r = tenantID)) (exceptions (db w))).

Definition ListExceptionsByControl (tenantID controlID : UUID) (w : World) : list Row :=
  merge_sort soonest_first
    (select_where (λ r, bool_decide (row_TenantID r = tenantID) &&
                        bool_decide (row_ControlID r = controlID) && in_state StateActive r)
       (exceptions (db w))).

Definition ListExpiringExceptions (tenantID : UUID) (threshold : Time) (w : World) : list Row :=
  merge_sort soonest_first
    (select_where (λ r, bool_decide (row_TenantID r = tenantID) && in_state StateActive r &&
                        bool_decide (row_ExpiresAt r ≤ threshold))
       (exceptions (db w))).

Definition ListExceptionAuditLog (tenantID exceptionID : UUID) (w : World) : list AuditEntry :=
  merge_sort oldest_first
    (select_where (λ a, bool_decide (al_TenantID a = tenantID) &&
                        bool_decide (al_ExceptionID a = exceptionID))
       (audit_log (db w))).

(** ** The store *)

(** The surroundings of a call: the request context, the health of the pool,
    the process clock and the clock of the database transaction. *)
Record Env := mkEnv {
  env_ctx : Context;
  env_infra : Infra;
  env_clock : Time;
  env_now : Time;
}.

Record CreateInput := mkCreate {
  in_ControlID : UUID;
  in_ScopeCellPredicate : string;
  in_Justification : string;
  in_CompensatingControls : list string;
  in_RequestedBy : string;
  in_ExpiresAt : Time;
  in_Now : Time;
}.

Definition stringPtr (s : string) : option string :=
  if bool_decide (s = "") then None else Some s.

Definition emitSinkException (tenantID exceptionID auditID : UUID) (action : Action)
    (actor fromState toState reason : string) : Tx World Error () :=
  tx_modify (λ w, mkWorld (db w)
    (sink w ++ [mkSink tenantID exceptionID auditID action actor fromState toState reason])).

Definition mapCreateError (e : QueryErr) : Error :=
  match e with
  | PgForeignKey => ErrWrap "exception: control_id does not exist in tenant"
  | PgCheck c =>
      if bool_decide (c = "exceptions_max_365d") then ErrExpiresAtExceedsCap
      else if bool_decide (c = "exceptions_sod") || bool_decide (c = "exceptions_denied_by_sod")
      then ErrSegregationOfDuties
      else ErrWrap "create exception"
  | _ => ErrWrap "create exception"
  end.

Record transitionParams := mkTransition {
  expectedPrior : State;
  newState : State;
  actor : string;
  action : Action;
  reason : string;
  run : UUID → Tx World QueryErr Row;
  requesterCheck : string;
}.

Section Store.
Context {UT : UUIDText} (jsonb_in : string → option string).

Definition inTx {A} (env : Env) (fn : UUID → Tx World Error A) : Tx World Error A :=
  Tenancy.inTx (env_infra env) (env_ctx env) fn.

Definition Create (env : Env) (id auditID : UUID) (inp : CreateInput) : Tx World Error Exception :=
  let now := if IsZero (in_Now inp) then env_clock env else in_Now inp in
  if bool_decide (in_ControlID inp = uuid_Nil) then tx_fail ErrControlRequired
  else if bool_decide (in_Justification inp = "") then tx_fail ErrJustificationRequired
  else if bool_decide (in_RequestedBy inp = "") then tx_fail ErrRequesterRequired
  else if IsZero (in_ExpiresAt inp) then tx_fail ErrExpiresAtRequired
  else if negb (After (in_ExpiresAt inp) now) then tx_fail ErrExpiresAtInPast
  else if After (in_ExpiresAt inp) (now + MaxLifetime) then tx_fail ErrExpiresAtExceedsCap
  else
    let predicate := if bool_decide (in_ScopeCellPredicate inp = "") then "{}"
                     else in_ScopeCellPredicate inp in
    inTx env (λ tenantID,
      tx_try (CreateException jsonb_in (env_now env) id tenantID (in_ControlID inp) predicate
                (in_Justification inp) (in_CompensatingControls inp) (in_RequestedBy inp)
                now (in_ExpiresAt inp))
        (λ r, match r with
              | Err e => tx_fail (mapCreateError e)
              | Ok row =>
                  tx_try (WriteExceptionAuditLog (env_now env) auditID tenantID (row_ID row)
                            ActionRequested (in_RequestedBy inp) None StateRequested "")
                    (λ al, match al with
                           | Err _ => tx_fail (ErrWrap "write requested audit log")
                           | Ok _ =>
                               _ ← emitSinkException tenantID (row_ID row) auditID ActionRequested
                                     (in_RequestedBy inp) "" (state_text StateRequested) "";
                               mret (exceptionFromRow row)
                           end)
              end)).

(** The segregation-of-duties pre-check of [transition]. *)
Definition sodCheck (id : UUID) (p : transitionParams) (tenantID : UUID) : Tx World Error () :=
  if bool_decide (requesterCheck p = "") then mret ()
  else tx_try (GetExceptionByID tenantID id)
         (λ before, match before with
                    | Err NoRows => tx_fail ErrNotFound
                    | Err _ => tx_fail (ErrWrap "get exception (sod)")
                    | Ok before =>
                        if bool_decide (row_RequestedBy before = requesterCheck p)
                        then tx_fail ErrSegregationOfDuties else mret ()
                    end).

Definition transition (env : Env) (id auditID : UUID) (p : transitionParams)
  : Tx World Error Exception :=
  inTx env (λ tenantID,
    _ ← sodCheck id p tenantID;
    tx_try (run p tenantID)
      (λ r, match r with
            | Err NoRows =>
                tx_try (GetExceptionByID tenantID id)
                  (λ g, match g with
                        | Err NoRows => tx_fail ErrNotFound
                        | _ => tx_fail ErrWrongState
                        end)
            | Err (PgCheck _) => tx_fail ErrSegregationOfDuties
            | Err _ => tx_fail (ErrWrap "transition")
            | Ok row =>
                let fromState := expectedPrior p in
                tx_try (WriteExceptionAuditLog (env_now env) auditID tenantID (row_ID row)
                          (action p) (actor p) (Some fromState) (newState p) (reason p))
                  (λ al, match al with
                         | Err _ => tx_fail (ErrWrap "write audit log")
                         | Ok _ =>
                             _ ← emitSinkException tenantID (row_ID row) auditID (action p) (actor p)
                                   (state_text fromState) (state_text (newState p)) (reason p);
                             mret (exceptionFromRow row)
                         end)
            end)).

Definition Approve (env : Env) (auditID id : UUID) (approver : string) : Tx World Error Exception :=
  if bool_decide (approver = "") then tx_fail ErrRequesterRequired
  else transition env id auditID
         (mkTransition StateRequested StateApproved approver ActionApproved ""
            (λ tenantID, ApproveException (env_now env) tenantID id (stringPtr approver)) approver).

Definition Deny (env : Env) (auditID id : UUID) (denier reason : string) : Tx World Error Exception :=
  if bool_decide (denier = "") then tx_fail ErrRequesterRequired
  else transition env id auditID
         (mkTransition StateRequested StateDenied denier ActionDenied reason
            (λ tenantID, DenyException (env_now env) tenantID id (stringPtr denier)) denier).

Definition Activate (env : Env) (auditID id : UUID) (activator : string) (effectiveFrom : Time)
  : Tx World Error Exception :=
  if bool_decide (activator = "") then tx_fail ErrRequesterRequired
  else
    let effectiveFrom := if IsZero effectiveFrom then env_clock env else effectiveFrom in
    transition env id auditID
      (mkTransition StateApproved StateActive activator ActionActivated ""
         (λ tenantID, ActivateException (env_now env) tenantID id (stringPtr activator) effectiveFrom)
         "").

Definition Get (env : Env) (id : UUID) : Tx World Error Exception :=
  inTx env (λ tenantID,
    tx_try (GetExceptionByID tenantID id)
      (λ r, match r with
            | Err NoRows => tx_fail ErrNotFound
            | Err _ => tx_fail (ErrWrap "get exception")
            | Ok row => mret (exceptionFromRow row)
            end)).

(** [List] with its in-memory status filter; the empty string is no filter. *)
Definition List (env : Env) (status : string) : Tx World Error (list Exception) :=
  inTx env (λ tenantID,
    rows ← tx_gets (ListExceptions tenantID);
    mret (exceptionFromRow <$>
      select_where (λ r, negb (negb (bool_decide (status = "")) &&
                               negb (bool_decide (state_text (row_Status r) = status)))) rows)).

Definition Active (env : Env) (controlID : UUID) : Tx World Error (list Exception) :=
  inTx env (λ tenantID,
    rows ← tx_gets (ListExceptionsByControl tenantID controlID);
    mret (exceptionFromRow <$> rows)).

Definition Expiring (env : Env) (from : Time) (within : Duration) : Tx World Error (list Exception) :=
  if bool_decide (within ≤ 0) then tx_fail ErrWithin
  else inTx env (λ tenantID,
         rows ← tx_gets (ListExpiringExceptions tenantID (from + within));
         mret (exceptionFromRow <$> rows)).

Definition ListAuditLog (env : Env) (exceptionID : UUID) : Tx World Error (list AuditEntry) :=
  inTx env (λ tenantID, tx_gets (ListExceptionAuditLog tenantID exceptionID)).

(** ** The expirer *)

(** One audit row per expired row, with the identifiers [uuid.New] draws. *)
Fixpoint auditExpired (env : Env) (tenantID : UUID) (now : Time) (ids : nat → UUID) (n : nat)
    (expired : list Row) : Tx World Error () :=
  match expired with
  | [] => mret ()
  | row :: expired =>
      let reason := "expires_at=" +:+ FormatRFC3339 (row_ExpiresAt row) +:+ " < now="
                    +:+ FormatRFC3339 now in
      tx_try (WriteExceptionAuditLog (env_now env) (ids n) tenantID (row_ID row) ActionExpired
                SystemActor (Some StateActive) StateExpired reason)
        (λ al, match al with
               | Err _ => tx_fail (ErrWrap "write expired audit log")
               | Ok _ =>
                   _ ← emitSinkException tenantID (row_ID row) (ids n) ActionExpired SystemActor
                         (state_text StateActive) (state_text StateExpired) reason;
                   auditExpired env tenantID now ids (S n) expired
               end)
  end.

Definition sweepTenant (env : Env) (ids : nat → UUID) (tenantID : UUID) (now : Time)
  : Tx World Error nat := λ w,
  match WithTenant (env_ctx env) (uuid_String tenantID) with
  | Err e => (Err (ErrTx (TxTenancy e)), w)
  | Ok tenantCtx =>
      withTx (env_infra env) tenantCtx
        (tx_try (ExpireActiveExceptionsBefore (env_now env) tenantID now)
          (λ r, match r with
                | Err _ => tx_fail (ErrWrap "expire active")
                | Ok expired =>
                    _ ← auditExpired env tenantID now ids 0 expired;
                    mret (length expired)
                end)) w
  end.

(** The loop of [SweepOnce]: [cancelled] says whether the context was done when
    the loop reached the tenant; a tenant that fails is logged and skipped.  The
    count is returned next to the error, as the Go function does. *)
Fixpoint sweepTenants (env : Env) (ids : UUID → nat → UUID) (infra : UUID → Infra)
    (cancelled : UUID → bool) (now : Time) (tenants : list UUID) (total : nat) (w : World)
  : nat * option Error * World :=
  match tenants with
  | [] => (total, None, w)
  | t :: tenants =>
      if cancelled t then (total, Some ErrCanceled, w)
      else
        let env_t := mkEnv (env_ctx env) (infra t) (env_clock env) (env_now env) in
        match sweepTenant env_t (ids t) t now w with
        | (Ok n, w') => sweepTenants env ids infra cancelled now tenants (total + n) w'
        | (Err _, w') => sweepTenants env ids infra cancelled now tenants total w'
        end
  end.

Definition SweepOnce (env : Env) (ids : UUID → nat → UUID) (infra : UUID → Infra)
    (cancelled : UUID → bool) (w : World) : nat * option Error * World :=
  if negb (begin_ok (env_infra env)) then (0%nat, Some (ErrWrap "list tenants"), w)
  else sweepTenants env ids infra cancelled (env_clock env) (ListTenantsWithActiveExceptions w) 0 w.

End Store.
End Exception.
