(* ===== verification/ExceptionSpec.v ===== *)
(** * The exception lifecycle: abstract machine, refinement, invariants

    The abstract machine moves whole rows along the five-state lifecycle and
    appends one audit entry per move.  Every store operation and the expirer
    refine it, so the invariants proved on the machine hold of every database
    the program can reach.  [performs] says for each store operation which step it
    takes, on which row, with which stamps and audit entry. *)

From S2P Require Import Prelude GoTime Tenancy Exception.
Import Exception.

#[global] Instance World_atomic : Atomic db.
Proof. by intros s s'. Qed.

(** ** The abstract machine *)

Inductive lifecycle : option State → State → Prop :=
| lc_request : lifecycle None StateRequested
| lc_approve : lifecycle (Some StateRequested) StateApproved
| lc_deny : lifecycle (Some StateRequested) StateDenied
| lc_activate : lifecycle (Some StateApproved) StateActive
| lc_expire : lifecycle (Some StateActive) StateExpired.
#[export] Hint Constructors lifecycle : atlas.

(** What no operation may change about an exception: above all [expires_at]
    (no renewal), the requester and the tenant. *)
Definition frozen (r : Row) :=
  (row_ID r, row_TenantID r, row_ControlID r, row_ScopeCellPredicate r, row_Justification r,
   row_CompensatingControls r, row_RequestedBy r, row_RequestedAt r, row_ExpiresAt r, row_CreatedAt r).

Definition approved_by_other (r : Row) : Prop :=
  ∃ a, row_ApprovedBy r = Some a ∧ a ≠ row_RequestedBy r.
Definition denied_by_other (r : Row) : Prop :=
  ∃ a, row_DeniedBy r = Some a ∧ a ≠ row_RequestedBy r.

Definition row_wf (r : Row) : Prop :=
  row_RequestedAt r < row_ExpiresAt r ≤ row_RequestedAt r + MaxLifetime ∧
  row_Justification r ≠ "" ∧ row_RequestedBy r ≠ "" ∧
  match row_Status r with
  | StateRequested => row_ApprovedBy r = None ∧ row_DeniedBy r = None
  | StateApproved => approved_by_other r ∧ row_DeniedBy r = None
  | StateDenied => denied_by_other r ∧ row_ApprovedBy r = None
  | StateActive => approved_by_other r ∧ row_DeniedBy r = None ∧
                   is_Some (row_ActivatedBy r) ∧ is_Some (row_EffectiveFrom r)
  | StateExpired => approved_by_other r ∧ row_DeniedBy r = None ∧
                    is_Some (row_ActivatedBy r) ∧ is_Some (row_EffectiveFrom r) ∧
                    is_Some (row_ExpiredAt r)
  end.

(** A legal move of one row. *)
Definition move (r r' : Row) : Prop :=
  frozen r' = frozen r ∧ lifecycle (Some (row_Status r)) (row_Status r') ∧ (row_wf r → row_wf r').

(** The audit entry that a move of [r] to [r'] must leave. *)
Definition records (from : option State) (r' : Row) (a : AuditEntry) : Prop :=
  al_TenantID a = row_TenantID r' ∧ al_ExceptionID a = row_ID r' ∧
  al_FromState a = from ∧ al_ToState a = row_Status r'.

Inductive abs_step (d : DB) : DB → Prop :=
| abs_create r a :
    row_ID r ∉ row_ID <$> exceptions d → row_Status r = StateRequested → row_wf r →
    records None r a →
    abs_step d (mkDB (exceptions d ++ [r]) (audit_log d ++ [a]) (controls d))
| abs_move p f entries :
    (∀ r, r ∈ exceptions d → p r = true → move r (f r)) →
    Forall2 (λ r a, records (Some (row_Status r)) (f r) a) (select_where p (exceptions d)) entries →
    abs_step d (mkDB (update_where p f (exceptions d)) (audit_log d ++ entries) (controls d)).

(** ** Its invariant *)

Definition about (tenantID id : UUID) (a : AuditEntry) : bool :=
  bool_decide (al_TenantID a = tenantID) && bool_decide (al_ExceptionID a = id).

(** The audit entries of one exception, in the order they were written. *)
Definition trail (d : DB) (r : Row) : list AuditEntry :=
  select_where (about (row_TenantID r) (row_ID r)) (audit_log d).

(** Replays a trail from a state: each entry must start where the previous one
    ended and follow an edge of the lifecycle. *)
Inductive replays : option State → list AuditEntry → option State → Prop :=
| replays_nil s : replays s [] s
| replays_cons s a l s' :
    al_FromState a = s → lifecycle s (al_ToState a) →
    replays (Some (al_ToState a)) l s' → replays s (a :: l) s'.

Record Inv (d : DB) : Prop := {
  inv_ids : NoDup (row_ID <$> exceptions d);
  inv_wf : ∀ r, r ∈ exceptions d → row_wf r;
  inv_trail : ∀ r, r ∈ exceptions d → replays None (trail d r) (Some (row_Status r));
  inv_entries : ∀ a, a ∈ audit_log d →
    ∃ r, r ∈ exceptions d ∧ row_ID r = al_ExceptionID a ∧ row_TenantID r = al_TenantID a;
}.

Lemma replays_snoc s l s' a :
  replays s l s' → al_FromState a = s' → lifecycle s' (al_ToState a) →
  replays s (l ++ [a]) (Some (al_ToState a)).
Proof. induction 1; simpl; intros; econstructor; eauto using replays. Qed.

Lemma about_true t i a : about t i a = true ↔ al_TenantID a = t ∧ al_ExceptionID a = i.
Proof. unfold about. by rewrite andb_true_iff, !bool_decide_eq_true. Qed.

Lemma frozen_id r r' : frozen r' = frozen r → row_ID r' = row_ID r.
Proof. unfold frozen. naive_solver. Qed.
Lemma frozen_tenant r r' : frozen r' = frozen r → row_TenantID r' = row_TenantID r.
Proof. unfold frozen. naive_solver. Qed.
#[export] Hint Resolve frozen_id frozen_tenant : atlas.

(** Among entries that record the moves of distinct rows, exactly one is about
    a given moved row, and none about a row that did not move. *)
Lemma moved_entries (f : Row → Row) rows entries r :
  NoDup (row_ID <$> rows) →
  (∀ x, x ∈ rows → frozen (f x) = frozen x) →
  Forall2 (λ x a, records (Some (row_Status x)) (f x) a) rows entries →
  (r ∈ rows → ∃ a, select_where (about (row_TenantID r) (row_ID r)) entries = [a] ∧
                   records (Some (row_Status r)) (f r) a) ∧
  ((∀ x, x ∈ rows → row_ID x ≠ row_ID r) →
   select_where (about (row_TenantID r) (row_ID r)) entries = []).
Proof.
  intros Hnd Hf H. induction H as [|x a rows entries Hxa Hall IH].
  { split; [by intros ?%elem_of_nil|done]. }
  apply NoDup_cons in Hnd as [Hx Hnd]. fold (row_ID <$> rows) in *.
  assert (Hf' : ∀ y, y ∈ rows → frozen (f y) = frozen y) by (intros; apply Hf; by right).
  specialize (IH Hnd Hf') as [IH1 IH2].
  pose proof (Hf x ltac:(left)) as Hfx.
  destruct Hxa as (Ha1 & Ha2 & Ha3 & Ha4).
  rewrite (frozen_tenant _ _ Hfx) in Ha1. rewrite (frozen_id _ _ Hfx) in Ha2.
  split.
  - intros [->|Hr]%elem_of_cons.
    + exists a. unfold select_where. rewrite filter_cons_True by (apply about_true; auto).
      fold (select_where (about (row_TenantID x) (row_ID x)) entries).
      rewrite IH2; [|intros y Hy Hne; apply Hx; rewrite <- Hne; by apply list_elem_of_fmap_2].
      split; [done|]. repeat split; try congruence;
        [rewrite (frozen_tenant _ _ Hfx)|rewrite (frozen_id _ _ Hfx)]; done.
    + unfold select_where. rewrite filter_cons_False; [by apply IH1|].
      rewrite about_true, Ha2. intros [_ Hne]. apply Hx. rewrite Hne. by apply list_elem_of_fmap_2.
  - intros Hne. unfold select_where. rewrite filter_cons_False.
    + apply IH2. intros y Hy. apply Hne. by right.
    + rewrite about_true, Ha2. intros [_ He]. by apply (Hne x); [left|].
Qed.

Lemma NoDup_select_where {A K} (key : A → K) (p : A → bool) l :
  NoDup (key <$> l) → NoDup (key <$> select_where p l).
Proof.
  unfold select_where. induction l as [|x l IH]; [done|]. rewrite filter_cons. csimpl.
  intros [Hx Hl]%NoDup_cons. case_decide; [|auto]. csimpl. apply NoDup_cons. split; [|auto].
  contradict Hx. apply list_elem_of_fmap in Hx as (y & -> & [_ Hy]%list_elem_of_filter).
  by apply list_elem_of_fmap_2.
Qed.

Lemma abs_create_inv d r a :
  Inv d → row_ID r ∉ row_ID <$> exceptions d → row_Status r = StateRequested → row_wf r →
  records None r a →
  Inv (mkDB (exceptions d ++ [r]) (audit_log d ++ [a]) (controls d)).
Proof.
  intros [Hids Hwf Htr Hent] Hnew Hst Hr (Ha1 & Ha2 & Ha3 & Ha4). split; simpl.
  - rewrite fmap_app, NoDup_app. split; [done|]. split; [|apply NoDup_singleton].
    intros x Hx ->%list_elem_of_singleton. done.
  - intros x [Hx| ->%list_elem_of_singleton]%elem_of_app; auto.
  - intros x [Hx| ->%list_elem_of_singleton]%elem_of_app; unfold trail; simpl;
      rewrite select_where_app.
    + rewrite (select_where_none _ [a]), app_nil_r; [by apply Htr|].
      intros y ->%list_elem_of_singleton. apply not_true_iff_false. rewrite about_true.
      intros [_ He]. apply Hnew. rewrite <- Ha2, He. by apply list_elem_of_fmap_2.
    + rewrite select_where_none; simpl.
      2: { intros y Hy. apply not_true_iff_false. rewrite about_true. intros [_ He].
           destruct (Hent _ Hy) as (z & Hz & Hid & _). apply Hnew. rewrite <- He, <- Hid.
           by apply list_elem_of_fmap_2. }
      unfold select_where. rewrite filter_cons_True by (apply about_true; auto).
      rewrite <- Ha4. econstructor; [done|rewrite Ha4, Hst; constructor|constructor].
  - intros x [Hx| ->%list_elem_of_singleton]%elem_of_app.
    + destruct (Hent _ Hx) as (z & Hz & ?). exists z. split; [apply elem_of_app; auto|done].
    + exists r. split; [apply elem_of_app; right; left|done].
Qed.

Lemma abs_move_inv d p f entries :
  Inv d →
  (∀ r, r ∈ exceptions d → p r = true → move r (f r)) →
  Forall2 (λ r a, records (Some (row_Status r)) (f r) a) (select_where p (exceptions d)) entries →
  Inv (mkDB (update_where p f (exceptions d)) (audit_log d ++ entries) (controls d)).
Proof.
  intros [Hids Hwf Htr Hent] Hmv Hall.
  assert (Hfz : ∀ x, x ∈ exceptions d → frozen (if p x then f x else x) = frozen x).
  { intros x Hx. destruct (p x) eqn:E; [by apply Hmv|done]. }
  assert (Hsel : ∀ x, x ∈ select_where p (exceptions d) → frozen (f x) = frozen x).
  { intros x [Hp Hx]%elem_of_select_where. by apply Hmv. }
  split; simpl.
  - assert (row_ID <$> update_where p f (exceptions d) = row_ID <$> exceptions d) as ->; [|done].
    unfold update_where. rewrite <- list_fmap_compose. apply list_fmap_ext.
    intros i x Hx%list_elem_of_lookup_2. simpl. auto with atlas.
  - intros x (y & Hy & ->)%elem_of_update_where. destruct (p y) eqn:E; [|auto].
    apply Hmv; auto.
  - intros x (y & Hy & ->)%elem_of_update_where. specialize (Hfz y Hy).
    unfold trail. simpl. rewrite select_where_app.
    rewrite (frozen_tenant _ _ Hfz), (frozen_id _ _ Hfz).
    fold (trail d y).
    destruct (moved_entries f _ _ y (NoDup_select_where _ p _ Hids) Hsel Hall) as [H1 H2].
    destruct (p y) eqn:E.
    + destruct H1 as (a & -> & (Ha1 & Ha2 & Ha3 & Ha4)); [by apply elem_of_select_where|].
      rewrite <- Ha4. eapply replays_snoc; [by apply Htr|done|].
      rewrite Ha4. by apply Hmv.
    + rewrite H2, app_nil_r; [by apply Htr|].
      intros z [Hp Hz]%elem_of_select_where He.
      rewrite (NoDup_key_inj row_ID _ z y Hids Hz Hy He) in Hp. congruence.
  - intros a [Ha|Ha]%elem_of_app.
    + destruct (Hent a Ha) as (z & Hz & <- & <-).
      exists (if p z then f z else z). split; [apply elem_of_update_where; eauto|].
      specialize (Hfz z Hz). auto with atlas.
    + apply list_elem_of_lookup in Ha as [i Hi].
      destruct (Forall2_lookup_r _ _ _ _ _ Hall Hi) as (z & Hz%list_elem_of_lookup_2 & Hr).
      apply elem_of_select_where in Hz as [Hp Hz]. destruct Hr as (-> & -> & _).
      exists (f z). split; [|done].
      apply elem_of_update_where. exists z. by rewrite Hp.
Qed.

Lemma abs_step_inv d d' : Inv d → abs_step d d' → Inv d'.
Proof. intros HI H. destruct H; eauto using abs_create_inv, abs_move_inv. Qed.

(** ** The statements, on their successful outcome *)

Lemma check_row_None r :
  check_row r = None →
  row_DeniedBy r ≠ Some (row_RequestedBy r) ∧ row_ApprovedBy r ≠ Some (row_RequestedBy r) ∧
  row_ExpiresAt r ≤ row_RequestedAt r + MaxLifetime.
Proof.
  unfold check_row. intros H. repeat case_bool_decide; try done. repeat split; try done.
  unfold MaxLifetime, time_Hour, ns_per_day, ns_per_second in *. lia.
Qed.

Lemma omap_nil {A B} (f : A → option B) l x : omap f l = [] → x ∈ l → f x = None.
Proof.
  induction l as [|y l IH]; [by intros _ ?%elem_of_nil|]. csimpl.
  destruct (f y) eqn:E; [done|]. intros H [->|Hx]%elem_of_cons; auto.
Qed.

Lemma omap_None {A B} (f : A → option B) l : (∀ x, x ∈ l → f x = None) → omap f l = [].
Proof.
  induction l as [|x l IH]; [done|]. intros H. csimpl. rewrite (H x) by left.
  apply IH. intros. apply H. by right.
Qed.

Lemma updated_checked p f t r :
  omap check_row (updated_rows p f t) = [] → r ∈ t → p r = true → check_row (f r) = None.
Proof.
  intros H Hr Hp. eapply omap_nil; [exact H|].
  apply list_elem_of_fmap_2. by apply elem_of_select_where.
Qed.

Lemma update_one_Ok p f w row w' :
  update_one p f w = (Ok row, w') →
  w' = set_exceptions w (update_where p f (exceptions (db w))) ∧
  (∃ r l, select_where p (exceptions (db w)) = r :: l ∧ row = f r) ∧
  (∀ r, r ∈ exceptions (db w) → p r = true → check_row (f r) = None).
Proof.
  unfold update_one. intros H.
  destruct (updated_rows p f (exceptions (db w))) as [|x xs] eqn:E; [done|].
  destruct (omap check_row (x :: xs)) eqn:E2; simplify_eq. split; [done|]. split.
  - unfold updated_rows in E. destruct (select_where p (exceptions (db w))) as [|y l]; simplify_eq/=.
    eauto.
  - intros r Hr Hp. eapply updated_checked; [rewrite E; exact E2|done..].
Qed.

Lemma write_audit_Ok now id t x act who from to why w a w' :
  WriteExceptionAuditLog now id t x act who from to why w = (Ok a, w') →
  a = mkAudit id t x act who from to why now ∧ w' = set_audit_log w (audit_log (db w) ++ [a]).
Proof. unfold WriteExceptionAuditLog. intros. repeat case_bool_decide; simplify_eq. done. Qed.

Lemma at_key_true t i r : at_key t i r = true ↔ row_TenantID r = t ∧ row_ID r = i.
Proof. unfold at_key. by rewrite andb_true_iff, !bool_decide_eq_true. Qed.
Lemma in_state_true s r : in_state s r = true ↔ row_Status r = s.
Proof. unfold in_state. by rewrite bool_decide_eq_true. Qed.

(** Keyed updates touch exactly the row they return. *)
Lemma select_keyed_singleton (p : Row → bool) rows r l i :
  NoDup (row_ID <$> rows) → (∀ x, p x = true → row_ID x = i) →
  select_where p rows = r :: l → l = [].
Proof.
  intros Hnd Hp Hs. apply (NoDup_select_where _ p) in Hnd. rewrite Hs in Hnd.
  destruct l as [|y l]; [done|]. exfalso. csimpl in Hnd.
  apply NoDup_cons in Hnd as [Hr _].
  assert (Hi : ∀ x, x ∈ r :: y :: l → row_ID x = i).
  { intros x Hx. rewrite <- Hs in Hx. apply elem_of_select_where in Hx as [? _]. auto. }
  apply Hr. rewrite (Hi r), <- (Hi y); [left|right; left|left].
Qed.

(** ** Moves of the four UPDATE statements *)

Lemma approve_move now a r :
  row_Status r = StateRequested → check_row (approve_row now (Some a) r) = None →
  move r (approve_row now (Some a) r).
Proof.
  intros Hs (_ & Ha & _)%check_row_None. split_and!; [done|rewrite Hs; constructor|].
  intros (He & ? & ? & Hr). rewrite Hs in Hr. do 3 (split; [done|]). simpl in *. split; [|naive_solver].
  exists a. naive_solver.
Qed.

Lemma deny_move now a r :
  row_Status r = StateRequested → check_row (deny_row now (Some a) r) = None →
  move r (deny_row now (Some a) r).
Proof.
  intros Hs (Ha & _ & _)%check_row_None. split_and!; [done|rewrite Hs; constructor|].
  intros (He & ? & ? & Hr). rewrite Hs in Hr. do 3 (split; [done|]). simpl in *. split; [|naive_solver].
  exists a. naive_solver.
Qed.

Lemma activate_move now a e r :
  row_Status r = StateApproved → move r (activate_row now (Some a) e r).
Proof.
  intros Hs. split_and!; [done|rewrite Hs; constructor|].
  intros (He & ? & ? & Hr). rewrite Hs in Hr. do 3 (split; [done|]). simpl in *. naive_solver.
Qed.

Lemma expire_move now r : row_Status r = StateActive → move r (expire_row now r).
Proof.
  intros Hs. split_and!; [done|rewrite Hs; constructor|].
  intros (He & ? & ? & Hr). rewrite Hs in Hr. do 3 (split; [done|]). simpl in *. naive_solver.
Qed.
#[export] Hint Resolve approve_move deny_move activate_move expire_move : atlas.

(** ** Refinement *)

(** A failed call changes nothing; a successful one is a step of the machine. *)
Definition refines {A} (r : result Error A) (d d' : DB) : Prop :=
  match r with Ok _ => abs_step d d' | Err _ => d' = d end.

Lemma emit_then {A} t x i act who from to why (a b : A) w w' :
  (emitSinkException t x i act who from to why ≫= λ _, mret a) w = (Ok b, w') →
  b = a ∧ db w' = db w.
Proof. by intros [= -> <-]. Qed.

Section Refinement.
Context {UT : UUIDText} (jsonb_in : string → option string).

Lemma sodCheck_pure id p t w r w' : sodCheck id p t w = (r, w') → w' = w.
Proof. unfold sodCheck, tx_try, GetExceptionByID, tx_fail, mret, tx_ret. intros H.
  repeat (split_match || case_match || simplify_eq/=); done.
Qed.

(** What a successful transition did. *)
Lemma transition_Ok env id aid p f w e w' :
  (∀ t, run p t = update_one (λ x, at_key t id x && in_state (expectedPrior p) x) f) →
  transition env id aid p w = (Ok e, w') →
  ∃ t x l, tenant_of (env_ctx env) = Some t ∧
    let q := λ x, at_key t id x && in_state (expectedPrior p) x in
    select_where q (exceptions (db w)) = x :: l ∧
    (∀ r, r ∈ exceptions (db w) → q r = true → check_row (f r) = None) ∧
    db w' = mkDB (update_where q f (exceptions (db w)))
              (audit_log (db w) ++ [mkAudit aid t (row_ID (f x)) (action p) (actor p)
                 (Some (expectedPrior p)) (newState p) (reason p) (env_now env)])
              (controls (db w)) ∧
    e = exceptionFromRow (f x).
Proof.
  intros Hrun H. unfold transition, inTx in H.
  apply (inTx_cases db) in H as [(t & e' & Ht & [= <-] & H)|(? & ? & _)]; [|done].
  apply tx_bind_Ok in H as ([] & w0 & ->%sodCheck_pure & H).
  unfold tx_try in H. rewrite Hrun in H.
  destruct (update_one _ f w) as [[row|[]] w1] eqn:E1; [|repeat split_match; done..].
  apply update_one_Ok in E1 as (-> & (x & l & Hsel & ->) & Hchk).
  destruct (WriteExceptionAuditLog _ _ _ _ _ _ _ _ _ _) as [[a|] w2] eqn:E2; [|done].
  apply write_audit_Ok in E2 as [Ea ->]. apply emit_then in H as [-> Hdb]. rewrite Hdb.
  exists t, x, l. by rewrite Ea.
Qed.

Lemma transition_refines env id aid p f w r w' :
  Inv (db w) →
  (∀ t, run p t = update_one (λ x, at_key t id x && in_state (expectedPrior p) x) f) →
  (∀ x, row_Status x = expectedPrior p → check_row (f x) = None →
        move x (f x) ∧ row_Status (f x) = newState p) →
  transition env id aid p w = (r, w') → refines r (db w) (db w').
Proof.
  intros HI Hrun Hf H. destruct r as [e|e]; simpl.
  2: { unfold transition, inTx in H.
       apply (inTx_cases db) in H as [(? & ? & _ & ? & _)|(? & _ & ?)]; done. }
  apply (transition_Ok _ _ _ _ f) in H as (t & x & l & _ & Hsel & Hchk & Hdb & _); [|done].
  rewrite Hdb. set (q := λ x, at_key t id x && in_state (expectedPrior p) x) in *.
  assert (Hq : ∀ y, q y = true → row_TenantID y = t ∧ row_ID y = id ∧ row_Status y = expectedPrior p).
  { intros y [[]%at_key_true ?%in_state_true]%andb_true_iff. auto. }
  assert (Hx : x ∈ select_where q (exceptions (db w))) by (rewrite Hsel; left).
  apply elem_of_select_where in Hx as [Hqx Hx].
  destruct (Hf x) as [Hmv Hnew]; [by apply Hq|by apply Hchk|].
  assert (l = []) as ->.
  { eapply (select_keyed_singleton q); [apply HI| |exact Hsel]. intros y Hy. by apply Hq in Hy as (_ & -> & _). }
  apply abs_move.
  - intros y Hy Hqy. apply Hf; [by apply Hq|by apply Hchk].
  - rewrite Hsel. constructor; [|constructor]. destruct Hmv as [Hfz _].
    destruct (Hq x Hqx) as (? & ? & Hst).
    unfold records. simpl. rewrite (frozen_tenant _ _ Hfz), Hnew, Hst. done.
Qed.

Lemma stringPtr_Some s : s ≠ "" → stringPtr s = Some s.
Proof. intros. unfold stringPtr. by case_bool_decide. Qed.

Lemma Approve_refines env aid id who w r w' :
  Inv (db w) → Approve env aid id who w = (r, w') → refines r (db w) (db w').
Proof.
  intros HI H. unfold Approve in H. case_bool_decide; [by apply tx_fail_eq in H as [-> ->]|].
  eapply transition_refines in H; [exact H|done|done|]. simpl. intros x Hx Hc.
  rewrite stringPtr_Some in * by done. auto with atlas.
Qed.

Lemma Deny_refines env aid id who why w r w' :
  Inv (db w) → Deny env aid id who why w = (r, w') → refines r (db w) (db w').
Proof.
  intros HI H. unfold Deny in H. case_bool_decide; [by apply tx_fail_eq in H as [-> ->]|].
  eapply transition_refines in H; [exact H|done|done|]. simpl. intros x Hx Hc.
  rewrite stringPtr_Some in * by done. auto with atlas.
Qed.

Lemma Activate_refines env aid id who eff w r w' :
  Inv (db w) → Activate env aid id who eff w = (r, w') → refines r (db w) (db w').
Proof.
  intros HI H. unfold Activate in H. case_bool_decide; [by apply tx_fail_eq in H as [-> ->]|].
  eapply transition_refines in H; [exact H|done|done|]. simpl. intros x Hx Hc.
  rewrite stringPtr_Some in * by done. auto with atlas.
Qed.

Lemma Create_refines env id aid inp w r w' :
  Inv (db w) → Create jsonb_in env id aid inp w = (r, w') → refines r (db w) (db w').
Proof.
  intros HI H. unfold Create in H.
  set (now := if IsZero (in_Now inp) then env_clock env else in_Now inp) in *.
  do 4 (case_match; [by apply tx_fail_eq in H as [-> ->]|]).
  destruct (After (in_ExpiresAt inp) now) eqn:Hafter; [|by apply tx_fail_eq in H as [-> ->]].
  destruct (After (in_ExpiresAt inp) (now + MaxLifetime)) eqn:Hcap; [by apply tx_fail_eq in H as [-> ->]|].
  simpl in H. unfold inTx in H.
  apply (inTx_cases db) in H as [(t & e & _ & -> & H)|(e & -> & H)]; [|done].
  unfold tx_try at 1 in H.
  destruct (CreateException _ _ _ _ _ _ _ _ _ _ _ _) as [[row|] w1] eqn:E1; [|done].
  unfold CreateException in E1.
  destruct (jsonb_in _) as [pr|]; [|done]. destruct (check_row _) eqn:Echk; [done|].
  case_bool_decide as Hid; [done|]. case_bool_decide; simplify_eq/=.
  unfold tx_try in H.
  destruct (WriteExceptionAuditLog _ _ _ _ _ _ _ _ _ _) as [[a|] w2] eqn:E2; [|done].
  apply write_audit_Ok in E2 as [Ea ->]. apply emit_then in H as [-> Hdb]. rewrite Hdb. simplify_eq/=.
  eapply abs_create; simpl; [done|done| |done].
  unfold After in *. apply bool_decide_eq_true in Hafter. apply bool_decide_eq_false in Hcap.
  unfold row_wf. simpl. split_and!; [lia..| | |done|done].
  - by eapply bool_decide_eq_false_1.
  - by eapply bool_decide_eq_false_1.
Qed.

(** The expirer's audit loop appends one entry per expired row. *)
Lemma auditExpired_Ok env t now ids n rows w u w' :
  auditExpired env t now ids n rows w = (Ok u, w') →
  ∃ entries, db w' = mkDB (exceptions (db w)) (audit_log (db w) ++ entries) (controls (db w)) ∧
    Forall2 (λ x a, al_TenantID a = t ∧ al_ExceptionID a = row_ID x ∧
                    al_FromState a = Some StateActive ∧ al_ToState a = StateExpired) rows entries.
Proof.
  revert n w. induction rows as [|x rows IH]; intros n w H; simpl in H.
  { injection H as <- <-. exists []. rewrite app_nil_r. by destruct w as [[] ?]. }
  unfold tx_try in H.
  destruct (WriteExceptionAuditLog _ _ _ _ _ _ _ _ _ _) as [[a|] w1] eqn:E; [|done].
  apply write_audit_Ok in E as [Ea ->].
  apply tx_bind_Ok in H as ([] & w2 & [= <-] & H).
  apply IH in H as (entries & Hdb & Hall). simpl in Hdb.
  exists (a :: entries). rewrite Hdb, <- app_assoc. split; [done|]. by constructor; [subst a|].
Qed.

Lemma sweepTenant_refines env ids t now w r w' :
  sweepTenant env ids t now w = (r, w') → refines r (db w) (db w').
Proof.
  unfold sweepTenant. destruct (WithTenant _ _) as [c|]; [|by intros [= <- <-]].
  intros [(n & -> & H)|(e & -> & H)]%(withTx_cases db); [|done].
  unfold tx_try in H.
  destruct (ExpireActiveExceptionsBefore _ _ _ _) as [[rs|] w1] eqn:E; [|done].
  unfold ExpireActiveExceptionsBefore in E. set (p := expirable t now) in *.
  destruct (omap check_row _) eqn:Echk; [|done]. simplify_eq.
  apply tx_bind_Ok in H as ([] & w2 & (entries & Hdb & Hall)%auditExpired_Ok & [= <- <-]).
  rewrite Hdb. simpl. apply abs_move.
  - intros x Hx [[_ ?%in_state_true]%andb_true_iff _]%andb_true_iff. auto with atlas.
  - unfold updated_rows in Hall. apply Forall2_fmap_l in Hall.
    eapply Forall2_impl_elem; [exact Hall|]. intros x a Hx (Ht & Hi & Hfr & Hto).
    apply elem_of_select_where in Hx as [[[Htn%bool_decide_eq_true Hs%in_state_true]%andb_true_iff _]%andb_true_iff _].
    unfold records. simpl. rewrite Ht, Hi, Hfr, Hto, Hs. done.
Qed.

Lemma sweepTenants_refines env ids infra cancelled now ts total w n e w' :
  sweepTenants env ids infra cancelled now ts total w = (n, e, w') → rtc abs_step (db w) (db w').
Proof.
  revert total w. induction ts as [|t ts IH]; intros total w H; simpl in H; [by simplify_eq|].
  destruct (cancelled t); [by simplify_eq|].
  destruct (sweepTenant _ _ _ _ _) as [[k|] w1] eqn:E; apply sweepTenant_refines in E; simpl in E.
  - eapply rtc_l; eauto.
  - rewrite <- E. eauto.
Qed.

Lemma SweepOnce_refines env ids infra cancelled w n e w' :
  SweepOnce env ids infra cancelled w = (n, e, w') → rtc abs_step (db w) (db w').
Proof. unfold SweepOnce. case_match; [by intros [= <- <- <-]|]. apply sweepTenants_refines. Qed.
End Refinement.

(** ** Selections and checks *)

Lemma select_where_and {A} (p q : A → bool) l :
  select_where (λ x, p x && q x) l = select_where q (select_where p l).
Proof.
  unfold select_where. induction l as [|x l IH]; [done|]. rewrite !filter_cons.
  destruct (p x), (q x) eqn:Eq; simpl; rewrite ?filter_cons, ?Eq; simpl; by rewrite IH.
Qed.

Lemma select_at_key d t id :
  Inv d →
  select_where (at_key t id) (exceptions d) = [] ∨
  ∃ r, select_where (at_key t id) (exceptions d) = [r] ∧ r ∈ exceptions d.
Proof.
  intros HI. destruct (select_where _ _) as [|r l] eqn:E; [by left|right].
  assert (l = []) as ->.
  { eapply select_keyed_singleton; [apply HI| |exact E]. by intros x [_ ->]%at_key_true. }
  exists r. split; [done|]. assert (r ∈ [r]) as Hr by left. rewrite <- E in Hr.
  by apply elem_of_select_where in Hr as [_ ?].
Qed.

Lemma check_moved r :
  row_wf r → check_row r = None.
Proof.
  intros (He & Hj & Hr & Hs). unfold check_row, approved_by_other, denied_by_other in *.
  assert (row_DeniedBy r ≠ Some (row_RequestedBy r)) by (destruct (row_Status r); naive_solver).
  assert (row_ApprovedBy r ≠ Some (row_RequestedBy r)) by (destruct (row_Status r); naive_solver).
  rewrite !bool_decide_eq_false_2; try done.
  unfold MaxLifetime, time_Hour, ns_per_day, ns_per_second in *. lia.
Qed.

Lemma approve_wf now who r :
  row_wf r → row_Status r = StateRequested → who ≠ row_RequestedBy r →
  row_wf (approve_row now (Some who) r).
Proof.
  intros ([He1 He2] & Hj & Hr & Hs) Hst Hne. rewrite Hst in Hs.
  unfold row_wf. simpl. split_and!; try done; [by exists who|naive_solver].
Qed.

Lemma deny_wf now who r :
  row_wf r → row_Status r = StateRequested → who ≠ row_RequestedBy r →
  row_wf (deny_row now (Some who) r).
Proof.
  intros ([He1 He2] & Hj & Hr & Hs) Hst Hne. rewrite Hst in Hs.
  unfold row_wf. simpl. split_and!; try done; [by exists who|naive_solver].
Qed.

Lemma update_where_twice {A} (p1 p2 : A → bool) f l :
  (∀ r, p2 (f r) = false) →
  update_where p2 f (update_where p1 f l) = update_where (λ r, p1 r || p2 r) f l.
Proof.
  intros H. unfold update_where. rewrite map_map. apply map_ext. intros r.
  destruct (p1 r); simpl; [by rewrite H|done].
Qed.

Lemma select_update_length {A} (p1 p2 : A → bool) f l :
  (∀ r, p2 (f r) = false) → (∀ r, p1 r = true → p2 r = false) →
  length (select_where (λ r, p1 r || p2 r) l) =
  (length (select_where p1 l) + length (select_where p2 (update_where p1 f l)))%nat.
Proof.
  intros H1 H2. unfold select_where. induction l as [|r l IH]; [done|].
  simpl. rewrite !filter_cons. destruct (p1 r) eqn:E; simpl.
  - rewrite H1. simpl. by rewrite IH.
  - destruct (p2 r) eqn:E2; simpl; rewrite IH; lia.
Qed.

Lemma update_where_ext {A} (p1 p2 : A → bool) f l :
  (∀ r, r ∈ l → p1 r = p2 r) → update_where p1 f l = update_where p2 f l.
Proof.
  intros H. unfold update_where. apply map_ext_in. intros r Hr%list_elem_of_In. by rewrite H.
Qed.

(** ** The program as a transition system *)

(** A call of the store that changes an exception. *)
Inductive Op :=
| OpCreate (id auditID : UUID) (inp : CreateInput)
| OpApprove (auditID id : UUID) (approver : string)
| OpDeny (auditID id : UUID) (denier reason : string)
| OpActivate (auditID id : UUID) (activator : string) (effectiveFrom : Time).

(** ** What each call promises *)

(** Who decided what about an exception, and when. *)
Definition approval (r : Row) := (row_ApprovedBy r, row_ApprovedAt r).
Definition denial (r : Row) := (row_DeniedBy r, row_DeniedAt r).
Definition activation (r : Row) := (row_ActivatedBy r, row_ActivatedAt r, row_EffectiveFrom r).

(** Exactly one row, that of tenant [t] and identifier [id], goes from [from] to
    [to]: it keeps what is frozen, and the only other trace is one audit entry.
    The row in the result is the one that was written. *)
Record moves_one (t id : UUID) (from to : State) (now : Time) (entry : AuditEntry)
    (d d' : DB) (e : Exception) (x x' : Row) : Prop := {
  mo_rows : ∃ l1 l2, exceptions d = l1 ++ x :: l2 ∧ exceptions d' = l1 ++ x' :: l2;
  mo_key : row_TenantID x = t ∧ row_ID x = id;
  mo_from : row_Status x = from;
  mo_to : row_Status x' = to;
  mo_frozen : frozen x' = frozen x;
  mo_expired : row_ExpiredAt x' = row_ExpiredAt x;
  mo_updated : row_UpdatedAt x' = now;
  mo_wf : row_wf x';
  mo_log : audit_log d' = audit_log d ++ [entry];
  mo_controls : controls d' = controls d;
  mo_result : e = exceptionFromRow x';
}.

(** The step a successful call takes, in tenant [t]. *)
Definition performs (jsonb_in : string → option string) (env : Env) (t : UUID) (op : Op)
    (d d' : DB) (e : Exception) : Prop :=
  let now := env_now env in
  match op with
  | OpCreate id aid inp =>
      ∃ r, exceptions d' = exceptions d ++ [r] ∧
        audit_log d' = audit_log d ++
          [mkAudit aid t id ActionRequested (in_RequestedBy inp) None StateRequested "" now] ∧
        controls d' = controls d ∧ e = exceptionFromRow r ∧
        row_ID r = id ∧ ¬ (id ∈ row_ID <$> exceptions d) ∧ row_TenantID r = t ∧
        row_ControlID r = in_ControlID inp ∧ (t, in_ControlID inp) ∈ controls d ∧
        jsonb_in (if decide (in_ScopeCellPredicate inp = "") then "{}" else in_ScopeCellPredicate inp)
          = Some (row_ScopeCellPredicate r) ∧
        row_Justification r = in_Justification inp ∧
        row_CompensatingControls r = in_CompensatingControls inp ∧
        row_RequestedBy r = in_RequestedBy inp ∧ row_ExpiresAt r = in_ExpiresAt inp ∧
        row_RequestedAt r = (if decide (in_Now inp = time_zero) then env_clock env else in_Now inp) ∧
        row_Status r = StateRequested ∧ row_wf r ∧
        approval r = (None, None) ∧ denial r = (None, None) ∧ activation r = (None, None, None) ∧
        row_ExpiredAt r = None ∧ row_CreatedAt r = now ∧ row_UpdatedAt r = now
  | OpApprove aid id who =>
      ∃ x x', moves_one t id StateRequested StateApproved now
                (mkAudit aid t id ActionApproved who (Some StateRequested) StateApproved "" now)
                d d' e x x' ∧
        who ≠ "" ∧ who ≠ row_RequestedBy x ∧
        approval x' = (Some who, Some now) ∧ denial x' = denial x ∧ activation x' = activation x
  | OpDeny aid id who why =>
      ∃ x x', moves_one t id StateRequested StateDenied now
                (mkAudit aid t id ActionDenied who (Some StateRequested) StateDenied why now)
                d d' e x x' ∧
        who ≠ "" ∧ who ≠ row_RequestedBy x ∧
        denial x' = (Some who, Some now) ∧ approval x' = approval x ∧ activation x' = activation x
  | OpActivate aid id who eff =>
      ∃ x x', moves_one t id StateApproved StateActive now
                (mkAudit aid t id ActionActivated who (Some StateApproved) StateActive "" now)
                d d' e x x' ∧
        who ≠ "" ∧
        activation x' = (Some who, Some now,
                         Some (if decide (eff = time_zero) then env_clock env else eff)) ∧
        approval x' = approval x ∧ denial x' = denial x
  end.

(** When a call may be made in tenant [t]: the audit identifier drawn is unused, the
    input is complete and within the cap and its control exists, or the row of that
    identifier is in the state the call requires and its requester is not the one who
    decides. *)
Definition enabled (jsonb_in : string → option string) (env : Env) (t : UUID) (op : Op) (d : DB) : Prop :=
  match op with
  | OpCreate id aid inp =>
      let now := if decide (in_Now inp = time_zero) then env_clock env else in_Now inp in
      ¬ (aid ∈ al_ID <$> audit_log d) ∧ ¬ (id ∈ row_ID <$> exceptions d) ∧
      in_ControlID inp ≠ uuid_Nil ∧ (t, in_ControlID inp) ∈ controls d ∧
      in_Justification inp ≠ "" ∧ in_RequestedBy inp ≠ "" ∧ in_ExpiresAt inp ≠ time_zero ∧
      now < in_ExpiresAt inp ≤ now + 365 * ns_per_day ∧
      is_Some (jsonb_in (if decide (in_ScopeCellPredicate inp = "") then "{}" else in_ScopeCellPredicate inp))
  | OpApprove aid id who | OpDeny aid id who _ =>
      ¬ (aid ∈ al_ID <$> audit_log d) ∧ who ≠ "" ∧
      ∃ x, x ∈ exceptions d ∧ row_TenantID x = t ∧ row_ID x = id ∧ row_Status x = StateRequested ∧ who ≠ row_RequestedBy x
  | OpActivate aid id who _ =>
      ¬ (aid ∈ al_ID <$> audit_log d) ∧ who ≠ "" ∧
      ∃ x, x ∈ exceptions d ∧ row_TenantID x = t ∧ row_ID x = id ∧ row_Status x = StateApproved
  end.

Section Promises.
Context {UT : UUIDText} (jsonb_in : string → option string).

Lemma transition_succeeds env id aid p f w t x :
  Inv (db w) → env_infra env = healthy → tenant_of (env_ctx env) = Some t →
  (∀ t, run p t = update_one (λ x, at_key t id x && in_state (expectedPrior p) x) f) →
  x ∈ exceptions (db w) → row_TenantID x = t → row_ID x = id → row_Status x = expectedPrior p →
  row_RequestedBy x ≠ requesterCheck p → row_wf (f x) → row_ID (f x) = row_ID x →
  actor p ≠ "" → ¬ (aid ∈ al_ID <$> audit_log (db w)) →
  ∃ e w', transition env id aid p w = (Ok e, w').
Proof.
  intros HI Hh Ht Hrun Hx Hxt Hxi Hxs Hsod Hwf Hfi Hac Haid.
  assert (Hkey : at_key t id x = true) by (by apply at_key_true).
  assert (Hsel : select_where (at_key t id) (exceptions (db w)) = [x]).
  { apply (select_key_unique row_ID); [apply HI|done|done|]. intros y [_ Hy]%at_key_true. congruence. }
  assert (Hsel' : select_where (λ x, at_key t id x && in_state (expectedPrior p) x) (exceptions (db w)) = [x]).
  { rewrite select_where_and, Hsel. unfold select_where. rewrite filter_cons, decide_True; [done|]. by apply in_state_true. }
  assert (Hsodw : sodCheck id p t w = (Ok (), w)).
  { unfold sodCheck, tx_try, GetExceptionByID. case_bool_decide; [done|]. rewrite Hsel, bool_decide_eq_false_2 by done. done. }
  unfold transition, inTx. rewrite Hh, (inTx_healthy db _ t) by done.
  unfold mbind at 1, tx_bind at 1. rewrite Hsodw. unfold tx_try at 1. rewrite Hrun. unfold update_one, updated_rows. rewrite Hsel'.
  csimpl. rewrite check_moved by done. csimpl.
  unfold tx_try, WriteExceptionAuditLog. simpl. rewrite !bool_decide_eq_false_2 by done. simpl. eauto.
Qed.

Lemma transition_moves_one env id aid p f w e w' :
  Inv (db w) →
  (∀ t, run p t = update_one (λ x, at_key t id x && in_state (expectedPrior p) x) f) →
  (∀ x, row_Status x = expectedPrior p → check_row (f x) = None →
        move x (f x) ∧ row_Status (f x) = newState p) →
  (∀ x, row_ExpiredAt (f x) = row_ExpiredAt x ∧ row_UpdatedAt (f x) = env_now env) →
  transition env id aid p w = (Ok e, w') →
  ∃ t x, tenant_of (env_ctx env) = Some t ∧ check_row (f x) = None ∧
    moves_one t id (expectedPrior p) (newState p) (env_now env)
      (mkAudit aid t id (action p) (actor p) (Some (expectedPrior p)) (newState p) (reason p) (env_now env))
      (db w) (db w') e x (f x).
Proof.
  intros HI Hrun Hf Hst H.
  apply (transition_Ok _ _ _ _ f) in H as (t & x & l & Ht & Hsel & Hchk & Hdb & ->); [|done].
  set (q := λ x, at_key t id x && in_state (expectedPrior p) x) in *.
  assert (Hq : ∀ y, q y = true → row_TenantID y = t ∧ row_ID y = id ∧ row_Status y = expectedPrior p).
  { intros y [[]%at_key_true ?%in_state_true]%andb_true_iff. auto. }
  assert (l = []) as ->.
  { eapply (select_keyed_singleton q); [apply HI| |exact Hsel]. intros y Hy. by apply Hq in Hy as (_ & -> & _). }
  assert (Hx : x ∈ select_where q (exceptions (db w))) by (rewrite Hsel; left).
  apply elem_of_select_where in Hx as [Hqx Hx].
  destruct (Hq x Hqx) as (Hxt & Hxi & Hxs).
  destruct (Hf x Hxs (Hchk x Hx Hqx)) as [(Hfz & Hlc & Hwf) Hnew].
  exists t, x. split; [done|]. split; [auto|]. rewrite Hdb.
  rewrite (frozen_id _ _ Hfz), Hxi.
  split; simpl; try done; try apply Hst.
  - by apply update_where_single.
  - apply Hwf. by apply HI.
Qed.

Lemma Create_performs env id aid inp w e w' :
  Create jsonb_in env id aid inp w = (Ok e, w') →
  ∃ t, tenant_of (env_ctx env) = Some t ∧ performs jsonb_in env t (OpCreate id aid inp) (db w) (db w') e.
Proof.
  intros H. unfold Create in H.
  set (now := if IsZero (in_Now inp) then env_clock env else in_Now inp) in *.
  do 4 (case_match; [done|]).
  destruct (After (in_ExpiresAt inp) now) eqn:Hafter; [|done].
  destruct (After (in_ExpiresAt inp) (now + MaxLifetime)) eqn:Hcap; [done|].
  simpl in H. unfold inTx in H.
  apply (inTx_cases db) in H as [(t & e' & Ht & [= <-] & H)|(? & ? & _)]; [|done].
  unfold tx_try at 1 in H.
  destruct (CreateException _ _ _ _ _ _ _ _ _ _ _ _) as [[row|] w1] eqn:E1; [|done].
  unfold CreateException in E1.
  destruct (jsonb_in _) as [pr|] eqn:Ej; [|done]. destruct (check_row _) eqn:Echk; [done|].
  case_bool_decide as Hid; [done|]. case_bool_decide as Hfk; simplify_eq/=.
  unfold tx_try in H.
  destruct (WriteExceptionAuditLog _ _ _ _ _ _ _ _ _ _) as [[a|] w2] eqn:E2; [|done].
  apply write_audit_Ok in E2 as [Ea ->]. apply emit_then in H as [-> Hdb]. rewrite Hdb. simplify_eq/=.
  exists t. split; [done|]. eexists. split; [done|]. simpl. split_and!; try done.
  - by rewrite <- bool_decide_if.
  - by rewrite <- bool_decide_if.
  - unfold After in *. apply bool_decide_eq_true in Hafter. apply bool_decide_eq_false in Hcap.
    unfold row_wf. simpl. split_and!; [lia..| | |done|done]; by eapply bool_decide_eq_false_1.
Qed.

Lemma Approve_performs env aid id who w e w' :
  Inv (db w) → Approve env aid id who w = (Ok e, w') →
  ∃ t, tenant_of (env_ctx env) = Some t ∧ performs jsonb_in env t (OpApprove aid id who) (db w) (db w') e.
Proof.
  intros HI H. unfold Approve in H. case_bool_decide; [done|].
  rewrite stringPtr_Some in H by done.
  eapply transition_moves_one in H as (t & x & Ht & (_ & Hs & _)%check_row_None & Hm);
    [|done|done|simpl; auto with atlas|done].
  exists t. split; [done|]. eexists x, _. split; [exact Hm|]. simpl in *. split_and!; [done|congruence|done..].
Qed.

Lemma Deny_performs env aid id who why w e w' :
  Inv (db w) → Deny env aid id who why w = (Ok e, w') →
  ∃ t, tenant_of (env_ctx env) = Some t ∧ performs jsonb_in env t (OpDeny aid id who why) (db w) (db w') e.
Proof.
  intros HI H. unfold Deny in H. case_bool_decide; [done|].
  rewrite stringPtr_Some in H by done.
  eapply transition_moves_one in H as (t & x & Ht & (Hs & _)%check_row_None & Hm);
    [|done|done|simpl; auto with atlas|done].
  exists t. split; [done|]. eexists x, _. split; [exact Hm|]. simpl in *. split_and!; [done|congruence|done..].
Qed.

Lemma Activate_performs env aid id who eff w e w' :
  Inv (db w) → Activate env aid id who eff w = (Ok e, w') →
  ∃ t, tenant_of (env_ctx env) = Some t ∧ performs jsonb_in env t (OpActivate aid id who eff) (db w) (db w') e.
Proof.
  intros HI H. unfold Activate in H. case_bool_decide; [done|].
  rewrite stringPtr_Some in H by done.
  eapply transition_moves_one in H as (t & x & Ht & _ & Hm); [|done|done|simpl; auto with atlas|done].
  exists t. split; [done|]. eexists x, _. split; [exact Hm|]. simpl. split_and!; [done| |done|done].
  unfold activation. simpl. by rewrite <- bool_decide_if.
Qed.

Lemma Create_succeeds env id aid inp w t :
  env_infra env = healthy → tenant_of (env_ctx env) = Some t → enabled jsonb_in env t (OpCreate id aid inp) (db w) →
  ∃ e w', Create jsonb_in env id aid inp w = (Ok e, w').
Proof.
  intros Hh Ht (Haid & Hid & Hc & Hfk & Hj & Hr & Hex & [Hlo Hhi] & [pr Hpr]). unfold Create.
  rewrite <- bool_decide_if in Hlo, Hhi. rewrite <- bool_decide_if in Hpr.
  fold (IsZero (in_Now inp)) in Hlo, Hhi. set (now := if IsZero (in_Now inp) then env_clock env else in_Now inp) in *.
  rewrite !bool_decide_eq_false_2 by done. unfold IsZero at 1. rewrite bool_decide_eq_false_2 by done.
  unfold After. rewrite bool_decide_eq_true_2 by done. cbn [negb].
  rewrite bool_decide_eq_false_2 by (unfold MaxLifetime, time_Hour, ns_per_day, ns_per_second in *; lia).
  unfold inTx. rewrite Hh, (inTx_healthy db _ t) by done. unfold tx_try at 1. unfold CreateException.
  rewrite Hpr. rewrite check_moved.
  2: { unfold row_wf. simpl. unfold MaxLifetime, time_Hour, ns_per_day, ns_per_second in *. split_and!; try done; lia. }
  rewrite bool_decide_eq_false_2 by done. rewrite bool_decide_eq_true_2 by done.
  unfold tx_try, WriteExceptionAuditLog. simpl. rewrite !bool_decide_eq_false_2 by done. simpl. eauto.
Qed.

Lemma Approve_succeeds env aid id who w t :
  Inv (db w) → env_infra env = healthy → tenant_of (env_ctx env) = Some t →
  enabled jsonb_in env t (OpApprove aid id who) (db w) → ∃ e w', Approve env aid id who w = (Ok e, w').
Proof.
  intros HI Hh Ht (Haid & Hw & x & Hx & Hxt & Hxi & Hxs & Hne). unfold Approve. rewrite bool_decide_eq_false_2 by done.
  rewrite stringPtr_Some by done. eapply transition_succeeds with (x := x); try done.
  apply approve_wf; [by apply HI|done|done].
Qed.

Lemma Deny_succeeds env aid id who why w t :
  Inv (db w) → env_infra env = healthy → tenant_of (env_ctx env) = Some t →
  enabled jsonb_in env t (OpDeny aid id who why) (db w) → ∃ e w', Deny env aid id who why w = (Ok e, w').
Proof.
  intros HI Hh Ht (Haid & Hw & x & Hx & Hxt & Hxi & Hxs & Hne). unfold Deny. rewrite bool_decide_eq_false_2 by done.
  rewrite stringPtr_Some by done. eapply transition_succeeds with (x := x); try done.
  apply deny_wf; [by apply HI|done|done].
Qed.

Lemma exception_Activate_succeeds env aid id who eff w t :
  Inv (db w) → env_infra env = healthy → tenant_of (env_ctx env) = Some t →
  enabled jsonb_in env t (OpActivate aid id who eff) (db w) → ∃ e w', Activate env aid id who eff w = (Ok e, w').
Proof.
  intros HI Hh Ht (Haid & Hw & x & Hx & Hxt & Hxi & Hxs). unfold Activate. rewrite bool_decide_eq_false_2 by done.
  rewrite stringPtr_Some by done. pose proof (inv_wf _ HI x Hx) as Hwf. eapply transition_succeeds with (x := x); try done.
  - apply Hwf.
  - by apply activate_move.
Qed.
End Promises.

Section System.
Context {UT : UUIDText} (jsonb_in : string → option string).

Definition exec (env : Env) (op : Op) : Tx World Error Exception :=
  match op with
  | OpCreate id aid inp => Create jsonb_in env id aid inp
  | OpApprove aid id who => Approve env aid id who
  | OpDeny aid id who why => Deny env aid id who why
  | OpActivate aid id who eff => Activate env aid id who eff
  end.

(** Any call under any circumstances, any sweep, and any change the control
    catalogue makes to the table the foreign key points at. *)
Inductive step (w : World) : World → Prop :=
| step_call env op : step w (exec env op w).2
| step_sweep env ids infra cancelled : step w (SweepOnce env ids infra cancelled w).2
| step_controls cs : step w (mkWorld (mkDB (exceptions (db w)) (audit_log (db w)) cs) (sink w)).

Definition empty_world : World := mkWorld (mkDB [] [] []) [].
Definition reachable (w : World) : Prop := rtc step empty_world w.

Lemma exec_refines env op w r w' :
  Inv (db w) → exec env op w = (r, w') → refines r (db w) (db w').
Proof.
  destruct op; simpl; eauto using Create_refines, Approve_refines, Deny_refines, Activate_refines.
Qed.

Lemma Inv_controls d cs : Inv d → Inv (mkDB (exceptions d) (audit_log d) cs).
Proof. intros [H1 H2 H3 H4]. split; assumption. Qed.

Lemma rtc_abs_inv d d' : rtc abs_step d d' → Inv d → Inv d'.
Proof. induction 1; eauto using abs_step_inv. Qed.

Lemma step_inv w w' : Inv (db w) → step w w' → Inv (db w').
Proof.
  intros HI H. destruct H as [env op|env ids infra c|cs].
  - destruct (exec env op w) as [r w'] eqn:E. simpl. apply exec_refines in E; [|done].
    destruct r; simpl in E; [by eapply abs_step_inv|by rewrite E].
  - destruct (SweepOnce env ids infra c w) as [[n e] w'] eqn:E. simpl.
    apply SweepOnce_refines in E. by eapply rtc_abs_inv.
  - by apply Inv_controls.
Qed.

Lemma Inv_empty : Inv (db empty_world).
Proof. split; simpl; [constructor|by intros ? ?%elem_of_nil..]. Qed.

Lemma reachable_Inv w : reachable w → Inv (db w).
Proof.
  unfold reachable. intros H. assert (Inv (db empty_world)) as HI by apply Inv_empty.
  revert HI. induction H; eauto using step_inv.
Qed.

(** How one row fares over a sequence of moves. *)
Definition fares (r r' : Row) : Prop := rtc move r r'.

Lemma move_frozen r r' : move r r' → frozen r' = frozen r.
Proof. by intros [? _]. Qed.

Lemma fares_frozen r r' : fares r r' → frozen r' = frozen r.
Proof. induction 1 as [|? ? ? Hm%move_frozen]; congruence. Qed.

Lemma fares_terminal r r' :
  fares r r' → row_Status r = StateDenied ∨ row_Status r = StateExpired → r' = r.
Proof.
  intros H Hs. destruct H as [|r r1 r2 (_ & Hl & _) _]; [done|]. inversion Hl; naive_solver congruence.
Qed.

Lemma abs_step_fares d d' r :
  abs_step d d' → r ∈ exceptions d → ∃ r', r' ∈ exceptions d' ∧ fares r r'.
Proof.
  intros H Hr. destruct H as [x a ? ? ? ?|p f entries Hmv Hall]; simpl.
  - exists r. split; [apply elem_of_app; auto|constructor].
  - exists (if p r then f r else r). split; [apply elem_of_update_where; eauto|].
    destruct (p r) eqn:E; [apply rtc_once; auto|constructor].
Qed.

Lemma rtc_abs_fares d d' r :
  rtc abs_step d d' → r ∈ exceptions d → ∃ r', r' ∈ exceptions d' ∧ fares r r'.
Proof.
  intros H. revert r. induction H as [|d d1 d2 H1 _ IH]; intros r Hr; [eexists; split; [done|constructor]|].
  destruct (abs_step_fares _ _ _ H1 Hr) as (r1 & Hr1 & F1).
  destruct (IH r1 Hr1) as (r2 & Hr2 & F2). exists r2. split; [done|]. unfold fares in *. by etrans.
Qed.

Lemma step_fares w w' r :
  Inv (db w) → step w w' → r ∈ exceptions (db w) → ∃ r', r' ∈ exceptions (db w') ∧ fares r r'.
Proof.
  intros HI H Hr. destruct H as [env op|env ids infra c|cs].
  - destruct (exec env op w) as [x w'] eqn:E. simpl. apply exec_refines in E; [|done].
    destruct x; simpl in E; [by eapply abs_step_fares|]. rewrite E. exists r. split; [done|constructor].
  - destruct (SweepOnce env ids infra c w) as [[n e] w'] eqn:E. simpl.
    apply SweepOnce_refines in E. by eapply rtc_abs_fares.
  - exists r. split; [done|constructor].
Qed.

Lemma run_fares w w' r :
  Inv (db w) → rtc step w w' → r ∈ exceptions (db w) → ∃ r', r' ∈ exceptions (db w') ∧ fares r r'.
Proof.
  intros HI H. revert r HI. induction H as [|w w1 w2 H1 _ IH]; intros r HI Hr; [eexists; split; [done|constructor]|].
  destruct (step_fares _ _ _ HI H1 Hr) as (r1 & Hr1 & F1).
  destruct (IH r1) as (r2 & Hr2 & F2); [by eapply step_inv|done|]. exists r2. split; [done|]. unfold fares in *. by etrans.
Qed.

(** ** Properties *)

(** C3: Refinement.  From any database satisfying the invariant, a call to
    Create, Approve, Deny or Activate either fails and leaves the database
    untouched, or takes exactly the step of its name in the caller's tenant:
    Create appends one requested row with the input's fields and no decision on
    it; Approve and Deny move the one row of that identifier from requested,
    decided by somebody other than its requester, and Activate moves it from
    approved.  The moved row gets that decision's stamps and keeps everything
    else, every other row stays as it is, and the one audit entry added has the
    call's action, actor, reason and both states.  On a healthy pool a call that is
    enabled succeeds. *)
Theorem store_refines_lifecycle env op w r w' :
  Inv (db w) → exec env op w = (r, w') →
  match r with
  | Ok e => ∃ t, tenant_of (env_ctx env) = Some t ∧ performs jsonb_in env t op (db w) (db w') e
  | Err _ => db w' = db w ∧
      (env_infra env = healthy → ∀ t, tenant_of (env_ctx env) = Some t → ¬ enabled jsonb_in env t op (db w))
  end.
Proof.
  intros HI H. destruct r as [e|e].
  - destruct op; simpl in H;
      eauto using Create_performs, Approve_performs, Deny_performs, Activate_performs.
  - split; [by apply exec_refines in H|]. intros Hh t Ht Hen.
    assert (∃ e w', exec env op w = (Ok e, w')) as (e' & w1 & E); [|by rewrite E in H].
    destruct op; simpl exec;
      eauto using Create_succeeds, Approve_succeeds, Deny_succeeds, exception_Activate_succeeds.
Qed.

(** C10: Audit completeness and segregation of duties.  In every reachable
    world: identifiers are unique; every row lives at most 365 days past its
    request and an approved, active or expired one was approved by somebody other
    than its requester; and replaying the audit log of a row along the lifecycle
    ends in exactly the status the row has (no silent transition). *)
Theorem reachable_audit_trail w r :
  reachable w → r ∈ exceptions (db w) →
  row_wf r ∧ replays None (trail (db w) r) (Some (row_Status r)) ∧
  (∀ r', r' ∈ exceptions (db w) → row_ID r' = row_ID r → r' = r).
Proof.
  intros [Hids Hwf Htr _]%reachable_Inv Hr. split_and!; auto.
  intros r' Hr' He. by eapply NoDup_key_inj.
Qed.

(** C11: No renewal, terminal states.  Whatever sequence of calls and sweeps
    follows, an exception keeps its expiry, requester, tenant, control and
    justification, and once denied or expired it never changes again. *)
Theorem exception_never_renewed w w' r :
  reachable w → rtc step w w' → r ∈ exceptions (db w) →
  ∃ r', r' ∈ exceptions (db w') ∧ frozen r' = frozen r ∧
        (row_Status r = StateDenied ∨ row_Status r = StateExpired → r' = r).
Proof.
  intros HI%reachable_Inv H Hr. destruct (run_fares _ _ _ HI H Hr) as (r' & Hr' & F).
  exists r'. split_and!; [done|by apply fares_frozen|by apply fares_terminal].
Qed.

(** What a healthy [Approve] answers, and the world it leaves. *)
Definition approve_spec (env : Env) (aid id : UUID) (who : string) (t : UUID) (w : World)
  : result Error Exception * DB :=
  if bool_decide (who = "") then (Err ErrRequesterRequired, db w) else
  match select_where (at_key t id) (exceptions (db w)) with
  | [] => (Err ErrNotFound, db w)
  | r :: _ =>
      if bool_decide (row_RequestedBy r = who) then (Err ErrSegregationOfDuties, db w)
      else if bool_decide (row_Status r = StateRequested) then
        let r' := approve_row (env_now env) (Some who) r in
        (Ok (exceptionFromRow r'),
         mkDB (update_where (λ x, at_key t id x && in_state StateRequested x)
                 (approve_row (env_now env) (Some who)) (exceptions (db w)))
              (audit_log (db w) ++ [mkAudit aid t id ActionApproved who (Some StateRequested)
                                      StateApproved "" (env_now env)])
              (controls (db w)))
      else (Err ErrWrongState, db w)
  end.

(** Approve, on every branch.  With a healthy database and a fresh audit
    identifier, Approve answers ErrRequesterRequired for an empty approver,
    ErrNotFound for an id the tenant does not have, ErrSegregationOfDuties when the
    approver filed the request, ErrWrongState unless the row is in [requested], and
    otherwise approves exactly that row and appends exactly one audit entry. *)
Theorem Approve_outcome env aid id who w t :
  Inv (db w) → tenant_of (env_ctx env) = Some t → env_infra env = healthy →
  aid ∉ al_ID <$> audit_log (db w) →
  let '(r, w') := Approve env aid id who w in (r, db w') = approve_spec env aid id who t w.
Proof using UT.
  intros HI Ht Hh Haid. unfold Approve, approve_spec. case_bool_decide as Hwho; [done|].
  unfold transition, inTx. rewrite Hh, (inTx_healthy db _ t) by done.
  unfold sodCheck, tx_try, mbind, tx_bind, GetExceptionByID. simpl.
  rewrite bool_decide_eq_false_2 by done. rewrite stringPtr_Some by done.
  unfold ApproveException, update_one, updated_rows.
  destruct (select_at_key (db w) t id HI) as [->|(r & E & Hr)]; [done|]. rewrite E.
  case_bool_decide as Hreq; [done|]. simpl. rewrite select_where_and, E. unfold select_where at 1. rewrite filter_cons, filter_nil.
  case_bool_decide as Hst.
  2: { rewrite decide_False by (by rewrite in_state_true). simpl. by rewrite E. }
  rewrite decide_True by (by rewrite in_state_true). csimpl.
  rewrite check_moved by (apply approve_wf; [by apply HI|done|congruence]).
  unfold WriteExceptionAuditLog. simpl. rewrite !bool_decide_eq_false_2 by done. simpl.
  assert (r ∈ [r]) as Hk by left. rewrite <- E in Hk.
  apply elem_of_select_where in Hk as [[_ ->]%at_key_true _]. done.
Qed.

(** ** The sweep does its work *)

Definition used_ids (w : World) : list UUID := al_ID <$> audit_log (db w).

Lemma auditExpired_total env t now ids n rows w :
  (∀ m, (n ≤ m)%nat → ids m ∉ used_ids w) → (∀ i j, ids i = ids j → i = j) →
  ∃ w', auditExpired env t now ids n rows w = (Ok (), w') ∧
        ∀ x, x ∈ used_ids w' → x ∈ used_ids w ∨ ∃ m, x = ids m.
Proof using UT.
  revert n w. induction rows as [|r rows IH]; intros n w Hfr Hinj; [eexists; split; [done|auto]|].
  simpl. unfold tx_try, WriteExceptionAuditLog. simpl.
  rewrite bool_decide_eq_false_2 by (apply Hfr; lia).
  unfold mbind, tx_bind, emitSinkException, tx_modify.
  match goal with |- context [auditExpired _ _ _ _ _ _ ?w1] =>
    destruct (IH (S n) w1) as (w' & Hw' & Hids); [|done|] end.
  2: { exists w'. split; [exact Hw'|]. intros x Hx. apply Hids in Hx as [Hx|]; [|by right].
       unfold used_ids in *. simpl in Hx. rewrite fmap_app in Hx.
       apply elem_of_app in Hx as [|Hx]; [by left|]. right. exists n. by apply list_elem_of_singleton in Hx. }
  intros m Hm. unfold used_ids. simpl. rewrite fmap_app, not_elem_of_app. split; [apply Hfr; lia|].
  csimpl. rewrite list_elem_of_singleton. intros ?%Hinj. lia.
Qed.

Lemma expire_wf now r : row_wf r → row_Status r = StateActive → row_wf (expire_row now r).
Proof. intros Hr Hs. by apply (expire_move now r Hs). Qed.

Lemma sweepTenant_total env ids t now w :
  Inv (db w) → env_infra env = healthy →
  (∀ m, ids m ∉ used_ids w) → (∀ i j, ids i = ids j → i = j) →
  ∃ w', sweepTenant env ids t now w =
          (Ok (length (select_where (expirable t now) (exceptions (db w)))), w') ∧
        exceptions (db w') =
          update_where (expirable t now) (expire_row (env_now env)) (exceptions (db w)) ∧
        ∀ x, x ∈ used_ids w' → x ∈ used_ids w ∨ ∃ m, x = ids m.
Proof using UT.
  intros HI Hh Hfr Hinj. unfold sweepTenant, WithTenant. rewrite uuid_Parse_String.
  unfold withTx. rewrite Hh. simpl. unfold ApplyTenant, TenantFromContext. simpl.
  rewrite bool_decide_eq_false_2 by apply uuid_String_nonempty. simpl.
  unfold tx_try, ExpireActiveExceptionsBefore.
  assert (omap check_row (updated_rows (expirable t now) (expire_row (env_now env))
            (exceptions (db w))) = []) as ->.
  { apply omap_None. intros x (y & -> & [Hp Hy]%elem_of_select_where)%list_elem_of_fmap.
    apply check_moved, expire_wf; [by apply HI|].
    apply andb_true_iff in Hp as [[_ ?%in_state_true]%andb_true_iff _]. done. }
  unfold mbind, tx_bind. simpl.
  match goal with |- context [auditExpired env t now ids 0 ?rs ?w1] =>
    destruct (auditExpired_total env t now ids 0 rs w1) as (w' & Hw' & Hids);
      [intros; apply Hfr|done|] end.
  exists w'. rewrite Hw'. simpl.
  unfold updated_rows. rewrite length_fmap. split; [done|]. split; [|exact Hids].
  apply auditExpired_Ok in Hw' as (entries & -> & _). done.
Qed.

Definition overdue (now : Time) (r : Row) : bool :=
  in_state StateActive r && bool_decide (row_ExpiresAt r < now).

Lemma sweepTenants_total env ids infra now ts total w :
  Inv (db w) → NoDup ts → (∀ t, infra t = healthy) →
  (∀ t m, t ∈ ts → ids t m ∉ used_ids w) → (∀ t u i j, ids t i = ids u j → t = u ∧ i = j) →
  let q r := bool_decide (row_TenantID r ∈ ts) && overdue now r in
  ∃ w', sweepTenants env ids infra (λ _, false) now ts total w =
          ((total + length (select_where q (exceptions (db w))))%nat, None, w') ∧
        exceptions (db w') = update_where q (expire_row (env_now env)) (exceptions (db w)).
Proof using UT.
  intros HI Hnd Hh Hfr Hinj q. subst q. revert total w HI Hfr.
  induction Hnd as [|t ts Ht Hnd IH]; intros total w HI Hfr.
  { exists w. simpl. rewrite select_where_none by done.
    rewrite Nat.add_0_r. split; [done|]. unfold update_where. rewrite <- (map_id (exceptions (db w))) at 1.
    by apply map_ext. }
  simpl. set (env_t := mkEnv _ _ _ _).
  destruct (sweepTenant_total env_t (ids t) t now w) as (w1 & E & Hex & Hids);
    [done|apply Hh|intros; apply Hfr; left|by intros i j [_ ?]%Hinj|]. rewrite E.
  assert (HI1 : Inv (db w1)).
  { apply sweepTenant_refines in E. simpl in E. by eapply abs_step_inv. }
  destruct (IH (total + length (select_where (expirable t now) (exceptions (db w))))%nat w1)
    as (w' & E' & Hex'); [done| |].
  { intros u m Hu [Hx|[k Hk]]%Hids; [by eapply Hfr; [right|]|].
    by apply Hinj in Hk as [-> _]. }
  set (q2 := λ r, bool_decide (row_TenantID r ∈ ts) && overdue now r) in *.
  assert (Hq : ∀ r, bool_decide (row_TenantID r ∈ t :: ts) && overdue now r =
                    expirable t now r || q2 r).
  { intros r. unfold expirable, q2, overdue. rewrite <- andb_assoc.
    rewrite <- andb_orb_distrib_l. f_equal. repeat case_bool_decide; set_solver. }
  assert (Hq2 : ∀ r, q2 (expire_row (env_now env) r) = false).
  { intros r. unfold q2, overdue. simpl. by rewrite andb_false_r. }
  assert (Hdisj : ∀ r, expirable t now r = true → q2 r = false).
  { intros r [[Hr%bool_decide_eq_true _]%andb_true_iff _]%andb_true_iff.
    unfold q2. by rewrite bool_decide_eq_false_2 by congruence. }
  exists w'. rewrite E', Hex'. split.
  - rewrite (select_where_ext _ _ (exceptions (db w)) (λ r _, Hq r)).
    rewrite (select_update_length (expirable t now) q2 (expire_row (env_now env)) _ Hq2 Hdisj).
    change (env_now env) with (env_now env_t). rewrite <- Hex. do 2 f_equal. lia.
  - change (env_now env_t) with (env_now env) in Hex. rewrite Hex, update_where_twice by exact Hq2. apply update_where_ext.
    intros. by rewrite Hq.
Qed.

(** The sweep expires what is due, all of it and nothing else.  With a
    healthy database, fresh identifiers and no cancellation, SweepOnce returns the
    number of active exceptions whose expiry has passed, and the only change to
    the table is that exactly these rows became expired. *)
Theorem SweepOnce_expires_overdue env ids infra w :
  reachable w → env_infra env = healthy → (∀ t, infra t = healthy) →
  (∀ t m, ids t m ∉ used_ids w) → (∀ t u i j, ids t i = ids u j → t = u ∧ i = j) →
  ∃ w', SweepOnce env ids infra (λ _, false) w =
          (length (select_where (overdue (env_clock env)) (exceptions (db w))), None, w') ∧
        exceptions (db w') =
          update_where (overdue (env_clock env)) (expire_row (env_now env)) (exceptions (db w)) ∧
        select_where (overdue (env_clock env)) (exceptions (db w')) = [].
Proof.
  intros HI%reachable_Inv He Hh Hfr Hinj. unfold SweepOnce. rewrite He. simpl.
  destruct (sweepTenants_total env ids infra (env_clock env) (ListTenantsWithActiveExceptions w) 0 w)
    as (w' & E & Hex); [done|apply NoDup_remove_dups|done|auto|done|].
  assert (Hq : ∀ r, r ∈ exceptions (db w) →
    bool_decide (row_TenantID r ∈ ListTenantsWithActiveExceptions w) && overdue (env_clock env) r =
    overdue (env_clock env) r).
  { intros r Hr. unfold overdue. destruct (in_state StateActive r) eqn:Ea; [|by rewrite andb_false_r].
    rewrite bool_decide_eq_true_2; [done|]. unfold ListTenantsWithActiveExceptions.
    rewrite elem_of_remove_dups. apply list_elem_of_fmap_2. by apply elem_of_select_where. }
  exists w'. rewrite E, Hex. rewrite (select_where_ext _ _ _ Hq), (update_where_ext _ _ _ _ Hq).
  split_and!; [done|done|]. apply select_where_none.
  intros x (y & Hy & ->)%elem_of_update_where. by destruct (overdue (env_clock env) y) eqn:E2.
Qed.

(** The external sink is told before the commit.  Whenever Approve would
    succeed, the same call with a failing COMMIT returns an error and leaves the
    database unchanged, yet the sink has already received an [approved] entry for a
    transition that was rolled back. *)
Theorem sink_emits_before_commit ctx clock now aid id who w e w' :
  let ok := mkEnv ctx healthy clock now in
  let failing := mkEnv ctx {| begin_ok := true; set_config_ok := true; commit_ok := false |} clock now in
  Approve ok aid id who w = (Ok e, w') →
  ∃ w'' entry, Approve failing aid id who w = (Err (ErrTx TxCommit), w'') ∧
    db w'' = db w ∧ sink w'' = sink w ++ [entry] ∧ sk_Action entry = ActionApproved.
Proof using UT.
  intros ok failing. unfold Approve, transition, inTx, Tenancy.inTx, withTx, ApplyTenant. simpl.
  case_bool_decide; [done|]. intros Hok.
  destruct (TenantFromContext ctx) as [ts|]; simpl in *; [|done].
  destruct (uuid_Parse ts) as [t|]; [|done]. simpl in *.
  destruct ((sodCheck _ _ _ ≫= _) w) as [[e1|] w1] eqn:E; [|done]. injection Hok as -> ->.
  apply tx_bind_Ok in E as ([] & w0 & ->%sodCheck_pure & E).
  unfold tx_try in E. destruct (ApproveException _ _ _ _ _) as [[row|[]] w2] eqn:E1;
    [|repeat split_match; done..].
  unfold ApproveException in E1. apply update_one_Ok in E1 as (-> & _).
  destruct (WriteExceptionAuditLog _ _ _ _ _ _ _ _ _ _) as [[a|] w3] eqn:E2; [|done].
  apply write_audit_Ok in E2 as [_ ->]. injection E as <- <-.
  eexists _, _. by split_and!.
Qed.

(** ** Tenant isolation *)

Definition foreign (t : UUID) (r : Row) : bool := negb (bool_decide (row_TenantID r = t)).
Definition foreign_entry (t : UUID) (a : AuditEntry) : bool := negb (bool_decide (al_TenantID a = t)).

(** What other tenants can see of a database. *)
Definition others (t : UUID) (d : DB) : list Row * list AuditEntry :=
  (select_where (foreign t) (exceptions d), select_where (foreign_entry t) (audit_log d)).

Lemma select_foreign_update t (p : Row → bool) f l :
  (∀ r, p r = true → row_TenantID r = t) → (∀ r, row_TenantID (f r) = row_TenantID r) →
  select_where (foreign t) (update_where p f l) = select_where (foreign t) l.
Proof.
  intros Hp Hf. unfold select_where. induction l as [|r l IH]; [done|]. simpl. rewrite !filter_cons, IH.
  destruct (p r) eqn:E; [|done]. unfold foreign. rewrite Hf, (Hp r E).
  by rewrite bool_decide_eq_true_2.
Qed.

Lemma select_foreign_entry t l a :
  al_TenantID a = t → select_where (foreign_entry t) (l ++ [a]) = select_where (foreign_entry t) l.
Proof.
  intros <-. rewrite select_where_app, (select_where_none _ [a]), app_nil_r; [done|].
  intros x ->%list_elem_of_singleton. unfold foreign_entry. by rewrite bool_decide_eq_true_2.
Qed.

Lemma transition_isolated env id aid p f w r w' t :
  (∀ t, run p t = update_one (λ x, at_key t id x && in_state (expectedPrior p) x) f) →
  (∀ r, row_TenantID (f r) = row_TenantID r) →
  tenant_of (env_ctx env) = Some t →
  transition env id aid p w = (r, w') → others t (db w') = others t (db w).
Proof.
  intros Hrun Hf Ht H. destruct r as [e|e].
  2: { unfold transition, inTx in H.
       apply (inTx_cases db) in H as [(? & ? & _ & ? & _)|(? & _ & H)]; [done|by rewrite H]. }
  apply (transition_Ok _ _ _ _ f) in H as (t' & x & l & Ht' & _ & _ & Hdb & _); [|done].
  simplify_eq. rewrite Hdb. unfold others. simpl. rewrite select_foreign_entry by done.
  rewrite select_foreign_update; [done| |done]. by intros y [[? _]%at_key_true _]%andb_true_iff.
Qed.

Lemma Create_isolated env id aid inp w r w' t :
  tenant_of (env_ctx env) = Some t →
  Create jsonb_in env id aid inp w = (r, w') → others t (db w') = others t (db w).
Proof.
  intros Ht H. unfold Create in H.
  do 6 (case_match; [by apply tx_fail_eq in H as [-> ->]|]). simpl in H. unfold inTx in H.
  apply (inTx_cases db) in H as [(t' & e & Ht' & -> & H)|(e & -> & H)]; [|by rewrite H].
  simplify_eq. unfold tx_try at 1 in H.
  destruct (CreateException _ _ _ _ _ _ _ _ _ _ _ _) as [[row|] w1] eqn:E1; [|done].
  unfold CreateException in E1. destruct (jsonb_in _); [|done]. destruct (check_row _); [done|].
  case_bool_decide; [done|]. case_bool_decide; simplify_eq/=. unfold tx_try in H.
  destruct (WriteExceptionAuditLog _ _ _ _ _ _ _ _ _ _) as [[a|] w2] eqn:E2; [|done].
  apply write_audit_Ok in E2 as [Ea ->]. apply emit_then in H as [-> Hdb]. rewrite Hdb.
  unfold others. simpl. rewrite select_foreign_entry by (by rewrite Ea).
  rewrite select_where_app, (select_where_none _ [_]), app_nil_r; [done|].
  intros x ->%list_elem_of_singleton. unfold foreign. simpl. by rewrite bool_decide_eq_true_2.
Qed.

(** Tenant isolation of writes.  A call made under one tenant, successful
    or not, leaves every row and every audit entry of every other tenant exactly
    as it was. *)
Theorem writes_stay_in_tenant env op w r w' t :
  tenant_of (env_ctx env) = Some t → exec env op w = (r, w') → others t (db w') = others t (db w).
Proof.
  intros Ht. destruct op; simpl.
  - by apply Create_isolated.
  - unfold Approve. case_bool_decide; [by intros [-> ->]%tx_fail_eq|].
    by eapply transition_isolated.
  - unfold Deny. case_bool_decide; [by intros [-> ->]%tx_fail_eq|].
    by eapply transition_isolated.
  - unfold Activate. case_bool_decide; [by intros [-> ->]%tx_fail_eq|].
    by eapply transition_isolated.
Qed.
End System.

(** ** The properties at work on a concrete history *)

Module Demo.

Definition ctx : Context := {| ctx_tenant := Some "a1" |}.
Definition env (now : Time) : Env := mkEnv ctx healthy now now.
Definition request : CreateInput :=
  mkCreate 7 "" "vendor patch pending" ["weekly manual review"] "alice" (1000 + 30 * ns_per_day) 1000.

Abbreviation call now op w := (exec (UT := binary_uuid) Some (env now) op w).2.

(** Tenant 1 has control 7; alice files exception 10, bob approves it, carol
    activates it. *)
Definition w0 : World := mkWorld (mkDB [] [] [(1%N, 7%N)]) [].
Definition w1 : World := call 1000 (OpCreate 10 20 request) w0.
Definition w2 : World := call 2000 (OpApprove 21 10 "bob") w1.
Definition w3 : World := call 3000 (OpActivate 22 10 "carol" 3000) w2.

Lemma reachable_w0 : reachable (UT := binary_uuid) Some w0.
Proof. apply rtc_once. exact (step_controls _ empty_world [(1%N, 7%N)]). Qed.
Lemma reachable_w1 : reachable (UT := binary_uuid) Some w1.
Proof. eapply rtc_r; [apply reachable_w0|apply step_call]. Qed.
Lemma reachable_w3 : reachable (UT := binary_uuid) Some w3.
Proof. do 2 (eapply rtc_r; [|apply step_call]). apply reachable_w1. Qed.

Definition r3 : Row := default (mkRow 0 0 0 "" "" [] "" 0 None None None None None None None 0 None StateDenied 0 0)
                         (head (exceptions (db w3))).

Lemma r3_in : r3 ∈ exceptions (db w3).
Proof. vm_compute. left. Qed.

Definition fresh_ids (t : UUID) (n : nat) : UUID := (1000 + N.pos (encode (t, n)))%N.

Lemma fresh_ids_inj t u i j : fresh_ids t i = fresh_ids u j → t = u ∧ i = j.
Proof. unfold fresh_ids. intros H. assert (encode (t, i) = encode (u, j)) as ?%encode_inj by lia. naive_solver. Qed.

Lemma fresh_ids_fresh t m : fresh_ids t m ∉ used_ids w3.
Proof.
  assert (used_ids w3 = [20; 21; 22]%N) as -> by (vm_compute; reflexivity).
  unfold fresh_ids. set_unfold. lia.
Qed.

(** The request and the approval of exception 10, each a step of its own. *)
Lemma store_refines_lifecycle_witness :
  (∃ t e, tenant_of (UT := binary_uuid) ctx = Some t ∧
          performs Some (env 1000) t (OpCreate 10 20 request) (db w0) (db w1) e) ∧
  (∃ t e, tenant_of (UT := binary_uuid) ctx = Some t ∧
          performs Some (env 2000) t (OpApprove 21 10 "bob") (db w1) (db w2) e).
Proof.
  split.
  - destruct (store_refines_lifecycle (UT := binary_uuid) Some (env 1000) (OpCreate 10 20 request) w0 _ w1
           (reachable_Inv (UT := binary_uuid) Some w0 reachable_w0) eq_refl) as (t & H).
    exists t. eexists. exact H.
  - destruct (store_refines_lifecycle (UT := binary_uuid) Some (env 2000) (OpApprove 21 10 "bob") w1 _ w2
           (reachable_Inv (UT := binary_uuid) Some w1 reachable_w1) eq_refl) as (t & H).
    exists t. eexists. exact H.
Defined.

Lemma reachable_audit_trail_witness :
  row_Status r3 = StateActive ∧ replays None (trail (db w3) r3) (Some StateActive).
Proof.
  split; [vm_compute; reflexivity|].
  exact (proj1 (proj2 (reachable_audit_trail (UT := binary_uuid) Some w3 r3 reachable_w3 r3_in))).
Defined.

Lemma exception_never_renewed_witness :
  ∃ r', r' ∈ exceptions (db w3) ∧ frozen r' = frozen r3.
Proof.
  destruct (exception_never_renewed (UT := binary_uuid) Some w3 w3 r3 reachable_w3
              (rtc_refl _ _) r3_in) as (r' & ? & ? & _).
  exists r'. split; assumption.
Defined.

Lemma Approve_outcome_witness :
  (let '(r, w') := Approve (UT := binary_uuid) (env 2000) 21 10 "bob" w1 in
   (r, db w') = approve_spec (env 2000) 21 10 "bob" 1 w1) ∧
  is_Ok (approve_spec (env 2000) 21 10 "bob" 1 w1).1 = true.
Proof.
  split; [|vm_compute; reflexivity].
  apply (Approve_outcome (UT := binary_uuid) (env 2000) 21 10 "bob" w1 1).
  - exact (reachable_Inv (UT := binary_uuid) Some w1 reachable_w1).
  - reflexivity.
  - reflexivity.
  - vm_compute. intros H. inversion H; subst. inversion H2.
Defined.

Lemma SweepOnce_expires_overdue_witness :
  ∃ w', SweepOnce (UT := binary_uuid) (env (1000 + 31 * ns_per_day)) fresh_ids (λ _, healthy) (λ _, false) w3
        = (1%nat, None, w') ∧ select_where (overdue (1000 + 31 * ns_per_day)) (exceptions (db w')) = [].
Proof.
  destruct (SweepOnce_expires_overdue (UT := binary_uuid) Some (env (1000 + 31 * ns_per_day)) fresh_ids
              (λ _, healthy) w3 reachable_w3 eq_refl (λ _, eq_refl) fresh_ids_fresh fresh_ids_inj)
    as (w' & E & _ & Hnone).
  exists w'. split; [|exact Hnone]. rewrite E. reflexivity.
Defined.

Lemma sink_emits_before_commit_witness :
  ∃ w'' entry,
    Approve (UT := binary_uuid)
      (mkEnv ctx {| begin_ok := true; set_config_ok := true; commit_ok := false |} 2000 2000)
      21 10 "bob" w1 = (Err (ErrTx TxCommit), w'') ∧
    db w'' = db w1 ∧ sink w'' = sink w1 ++ [entry] ∧ sk_Action entry = ActionApproved.
Proof.
  eapply (sink_emits_before_commit (UT := binary_uuid) ctx 2000 2000 21 10 "bob" w1 _ w2).
  vm_compute. reflexivity.
Defined.

Lemma writes_stay_in_tenant_witness : others 1 (db w2) = others 1 (db w1).
Proof.
  eapply (writes_stay_in_tenant (UT := binary_uuid) Some (env 2000) (OpApprove 21 10 "bob") w1 _ w2 1);
    [reflexivity|]. vm_compute. reflexivity.
Defined.

End Demo.
