(* ===== verification/AuditPeriod.v ===== *)
(** * Audit periods and freezing

    Models internal/audit/period (period.go, snapshot.go) with its statements
    (internal/db/queries/audit_periods.sql) and constraints.  The world is the
    database plus the external audit sink, which a rollback cannot recall.
    FrozenHash is kept as the hexadecimal form of its bytes. *)

From S2P Require Import Prelude GoTime Tenancy Json Sha256 TimeText.

Module AuditPeriod.

(** ** Data *)

Inductive Status := StatusOpen | StatusFrozen.
#[global] Instance Status_eq_dec : EqDecision Status.
Proof. solve_decision. Defined.

(** A row of [audit_periods]; a DATE is its midnight. *)
Record PeriodRow := mkRow {
  r_ID : UUID;
  r_TenantID : UUID;
  r_Name : string;
  r_FrameworkVersionID : UUID;
  r_PeriodStart : Time;
  r_PeriodEnd : Time;
  r_Status : Status;
  r_FrozenAt : option Time;
  r_FrozenHash : option string;
  r_FrozenBy : option string;
  r_CreatedBy : string;
  r_CreatedAt : Time;
  r_UpdatedAt : Time;
}.
#[global] Instance PeriodRow_eq_dec : EqDecision PeriodRow.
Proof. solve_decision. Defined.

Record Period := mkPeriod {
  ID : UUID;
  TenantID : UUID;
  Name : string;
  FrameworkVersionID : UUID;
  PeriodStart : Time;
  PeriodEnd : Time;
  PStatus : Status;
  FrozenAt : option Time;
  FrozenHash : string;
  FrozenBy : string;
  CreatedBy : string;
  CreatedAt : Time;
  UpdatedAt : Time;
  FrameworkLabel : string;
}.

Record CreateInput := mkInput {
  in_Name : string;
  in_FrameworkVersionID : UUID;
  in_PeriodStart : Time;
  in_PeriodEnd : Time;
  in_CreatedBy : string;
}.

Record ControlStateObservation := mkObs { EvidenceRecordID : UUID; ObservedAt : Time; Result : string; Hash : string }.

(** The columns of the evidence ledger this package reads. *)
Record EvidenceRow := mkEvidence {
  e_ID : UUID;
  e_TenantID : UUID;
  e_ControlID : option UUID;
  e_ObservedAt : Time;
  e_Result : string;
  e_Hash : string;
}.

Record PopulationRow := mkPopulation {
  pop_ID : UUID;
  pop_TenantID : UUID;
  pop_AuditPeriodID : option UUID;
  pop_FrozenAt : option Time;
}.

(** The [detail] document of a log entry. *)
Inductive Detail :=
| DEmpty
| DFrozen (frozen_at : Time) (frozen_hash : string) (evidence_n controls_n : nat)
| DRejected
| DPopulation (population : UUID).

Record LogRow := mkLog {
  g_ID : UUID;
  g_TenantID : UUID;
  g_AuditPeriodID : UUID;
  g_Action : string;
  g_Actor : string;
  g_Detail : Detail;
  g_OccurredAt : Time;
}.

Record DB := mkDB {
  audit_periods : list PeriodRow;
  period_log : list LogRow;
  populations : list PopulationRow;
  evidence_records : list EvidenceRow;
  controls : list (UUID * UUID);                       (* tenant, id *)
  framework_versions : list (UUID * (UUID * string));  (* id, framework, version *)
  frameworks : list (UUID * string);                   (* id, name *)
}.

Record World := mkWorld { db : DB; sink : list LogRow }.

#[global] Instance AP_rollback : TxState World := λ before after, mkWorld (db before) (sink after).
#[global] Instance AP_atomic : Atomic db.
Proof. done. Qed.

Inductive Error :=
| ErrNotFound
| ErrAlreadyFrozen
| ErrEmptyName
| ErrEmptyActor
| ErrBounds
| ErrCreate
| ErrFreeze
| ErrWriteLog
| ErrTx (e : TxErr).
#[global] Instance AP_error : TxError Error := ErrTx.

(** ** Statements *)

Definition with_periods (d : DB) (t : list PeriodRow) : DB :=
  mkDB t (period_log d) (populations d) (evidence_records d) (controls d) (framework_versions d) (frameworks d).
Definition with_log (d : DB) (t : list LogRow) : DB :=
  mkDB (audit_periods d) t (populations d) (evidence_records d) (controls d) (framework_versions d) (frameworks d).
Definition with_populations (d : DB) (t : list PopulationRow) : DB :=
  mkDB (audit_periods d) (period_log d) t (evidence_records d) (controls d) (framework_versions d) (frameworks d).

Definition at_key (tenantID id : UUID) (r : PeriodRow) : bool :=
  bool_decide (r_TenantID r = tenantID) && bool_decide (r_ID r = id).

(** audit_periods_frozen_coherent and the other CHECKs *)
Definition check_period (r : PeriodRow) : bool :=
  bool_decide (r_Name r ≠ "") && bool_decide (r_CreatedBy r ≠ "") && bool_decide (r_PeriodStart r ≤ r_PeriodEnd r) &&
  match r_Status r, r_FrozenAt r, r_FrozenHash r, r_FrozenBy r with
  | StatusOpen, None, None, None => true
  | StatusFrozen, Some _, Some _, Some by_ => bool_decide (by_ ≠ "")
  | _, _, _, _ => false
  end.

(** [pgDate]: the zero time is NULL, which the columns refuse. *)
Definition CreateAuditPeriod (id tenantID : UUID) (name : string) (fv : UUID) (start end_ : Time) (createdBy : string)
    (now : Time) (d : DB) : option (PeriodRow * DB) :=
  let r := mkRow id tenantID name fv (truncDate start) (truncDate end_) StatusOpen None None None createdBy now now in
  if negb (IsZero start) && negb (IsZero end_) && check_period r &&
     negb (bool_decide (id ∈ (r_ID <$> audit_periods d))) &&
     negb (bool_decide ((tenantID, name) ∈ ((λ r, (r_TenantID r, r_Name r)) <$> audit_periods d))) &&
     bool_decide (fv ∈ (framework_versions d).*1)
  then Some (r, with_periods d (audit_periods d ++ [r]))
  else None.

Definition GetAuditPeriodByID (tenantID id : UUID) (d : DB) : option PeriodRow :=
  head (select_where (at_key tenantID id) (audit_periods d)).

Definition freeze_row (frozenAt : Time) (hash by_ : string) (now : Time) (r : PeriodRow) : PeriodRow :=
  mkRow (r_ID r) (r_TenantID r) (r_Name r) (r_FrameworkVersionID r) (r_PeriodStart r) (r_PeriodEnd r) StatusFrozen
    (Some frozenAt) (Some hash) (Some by_) (r_CreatedBy r) (r_CreatedAt r) now.

Definition freezable (tenantID id : UUID) (r : PeriodRow) : bool :=
  at_key tenantID id r && bool_decide (r_Status r = StatusOpen).

(** [None] is a violated CHECK; no row returned is pgx.ErrNoRows. *)
Definition FreezeAuditPeriod (tenantID id : UUID) (frozenAt : Time) (hash by_ : string) (now : Time) (d : DB)
  : option (option PeriodRow * DB) :=
  let upd := updated_rows (freezable tenantID id) (freeze_row frozenAt hash by_ now) (audit_periods d) in
  if forallb check_period upd
  then Some (head upd, with_periods d (update_where (freezable tenantID id) (freeze_row frozenAt hash by_ now) (audit_periods d)))
  else None.

Definition WriteAuditPeriodLog (r : LogRow) (d : DB) : option DB :=
  if bool_decide (g_Actor r ≠ "") && negb (bool_decide (g_ID r ∈ (g_ID <$> period_log d)))
  then Some (with_log d (period_log d ++ [r]))
  else None.

Definition log_le (a b : LogRow) : Prop :=
  g_OccurredAt b < g_OccurredAt a ∨ (g_OccurredAt a = g_OccurredAt b ∧ (g_ID a ≤ g_ID b)%N).
#[global] Instance log_le_dec : RelDecision log_le.
Proof. intros a b. unfold log_le. apply _. Defined.

Definition ListAuditPeriodLog (tenantID periodID : UUID) (d : DB) : list LogRow :=
  merge_sort log_le
    (select_where (λ r, bool_decide (g_TenantID r = tenantID) && bool_decide (g_AuditPeriodID r = periodID)) (period_log d)).

Definition ListEvidenceIDsForPeriodHash (tenantID : UUID) (horizon : Time) (d : DB) : list UUID :=
  merge_sort N.le
    (e_ID <$> select_where (λ e, bool_decide (e_TenantID e = tenantID) && bool_decide (e_ObservedAt e ≤ horizon)) (evidence_records d)).

Definition ListControlIDsForPeriodHash (tenantID : UUID) (d : DB) : list UUID :=
  merge_sort N.le ((select_where (λ c, bool_decide (c.1 = tenantID)) (controls d)).*2).

(** [observed_at <= COALESCE(frozen_at, 'infinity')] *)
Definition visible (horizon : option Time) (e : EvidenceRow) : bool :=
  match horizon with Some h => bool_decide (e_ObservedAt e ≤ h) | None => true end.

Definition evidence_le (a b : EvidenceRow) : Prop :=
  e_ObservedAt b < e_ObservedAt a ∨ (e_ObservedAt a = e_ObservedAt b ∧ (e_ID a ≤ e_ID b)%N).
#[global] Instance evidence_le_dec : RelDecision evidence_le.
Proof. intros a b. unfold evidence_le. apply _. Defined.

Definition ListEvidenceForPeriodControl (tenantID controlID : UUID) (horizon : option Time) (d : DB) : list EvidenceRow :=
  merge_sort evidence_le
    (select_where (λ e, bool_decide (e_TenantID e = tenantID) && bool_decide (e_ControlID e = Some controlID) && visible horizon e)
       (evidence_records d)).

Definition AttachPopulationToPeriod (tenantID id periodID : UUID) (d : DB) : DB :=
  with_populations d
    (update_where (λ p, bool_decide (pop_TenantID p = tenantID) && bool_decide (pop_ID p = id) && bool_decide (pop_AuditPeriodID p = None))
       (λ p, mkPopulation (pop_ID p) (pop_TenantID p) (Some periodID) (pop_FrozenAt p)) (populations d)).

Definition SetPopulationFrozenAt (tenantID periodID : UUID) (frozenAt : Time) (d : DB) : DB :=
  with_populations d
    (update_where (λ p, bool_decide (pop_TenantID p = tenantID) && bool_decide (pop_AuditPeriodID p = Some periodID) &&
                        bool_decide (pop_FrozenAt p = None))
       (λ p, mkPopulation (pop_ID p) (pop_TenantID p) (pop_AuditPeriodID p) (Some frozenAt)) (populations d)).

(** ** The content commitment *)

Section Store.
Context {UT : UUIDText}.

Record freezeHashInputs := mkHashInputs {
  hi_AuditPeriodID : UUID;
  hi_PeriodStart : Time;
  hi_PeriodEnd : Time;
  hi_FrameworkVersionID : UUID;
  hi_EvidenceRecordIDs : list UUID;
  hi_ControlIDs : list UUID;
}.

(** By the textual form. *)
Definition text_le (a b : UUID) : Prop := String.le (uuid_String a) (uuid_String b).
#[global] Instance text_le_dec : RelDecision text_le.
Proof. intros a b. unfold text_le. apply _. Defined.

Definition sortUUIDs (l : list UUID) : list UUID := merge_sort text_le l.

(** A JSON string; identifiers and dates have nothing to escape. *)
Definition quoted (s : string) : string := String dquote (s +:+ String dquote "").
Definition field (k v : string) : string := quoted k +:+ ":" +:+ v.
Definition quoted_list (l : list UUID) : string := "[" +:+ join "," ((λ u, quoted (uuid_String u)) <$> l) +:+ "]".

(** [json.Marshal] of the wire struct: its fields in declaration order. *)
Definition wire (h : freezeHashInputs) : string :=
  "{" +:+ join "," [
    field "audit_period_id" (quoted (uuid_String (hi_AuditPeriodID h)));
    field "period_start" (quoted (FormatDate (hi_PeriodStart h)));
    field "period_end" (quoted (FormatDate (hi_PeriodEnd h)));
    field "framework_version_id" (quoted (uuid_String (hi_FrameworkVersionID h)));
    field "evidence_record_ids" (quoted_list (sortUUIDs (hi_EvidenceRecordIDs h)));
    field "control_ids" (quoted_list (sortUUIDs (hi_ControlIDs h)))] +:+ "}".

Definition computeFreezeHash (h : freezeHashInputs) : string := sha256_hex (wire h).

(** ** Operations *)

(** The surroundings of a call: the request, the database clock, the identifier
    drawn for the log entry, and the pool's health in the sibling transaction of a
    rejected freeze. *)
Record Env := mkEnv { env_ctx : Context; env_infra : Infra; env_now : Time; env_logID : UUID; env_sibling : Infra }.

Definition inTx {A} (env : Env) (fn : UUID → Tx World Error A) : Tx World Error A :=
  Tenancy.inTx (env_infra env) (env_ctx env) fn.

(** The entry goes to the sink before the transaction commits. *)
Definition writeLog (env : Env) (tenantID periodID : UUID) (action actor : string) (detail : Detail) : Tx World Error () := λ w,
  let r := mkLog (env_logID env) tenantID periodID action actor detail (env_now env) in
  match WriteAuditPeriodLog r (db w) with
  | None => (Err ErrWriteLog, w)
  | Some d => (Ok (), mkWorld d (sink w ++ [r]))
  end.

Definition periodFromRow (r : PeriodRow) : Period :=
  mkPeriod (r_ID r) (r_TenantID r) (r_Name r) (r_FrameworkVersionID r) (r_PeriodStart r) (r_PeriodEnd r) (r_Status r)
    (r_FrozenAt r) (default "" (r_FrozenHash r)) (default "" (r_FrozenBy r)) (r_CreatedBy r) (r_CreatedAt r) (r_UpdatedAt r) "".

(** [newID] is the identifier of the new period. *)
Definition Create (env : Env) (newID : UUID) (i : CreateInput) : Tx World Error Period :=
  if bool_decide (in_Name i = "") then tx_fail ErrEmptyName
  else if bool_decide (in_CreatedBy i = "") then tx_fail ErrEmptyActor
  else if After (in_PeriodStart i) (in_PeriodEnd i) then tx_fail ErrBounds
  else inTx env (λ tenantID w,
    match CreateAuditPeriod newID tenantID (in_Name i) (in_FrameworkVersionID i) (in_PeriodStart i) (in_PeriodEnd i)
            (in_CreatedBy i) (env_now env) (db w) with
    | None => (Err ErrCreate, w)
    | Some (row, d) =>
        (_ ← writeLog env tenantID (r_ID row) "period_created" (in_CreatedBy i) DEmpty; mret (periodFromRow row))
          (mkWorld d (sink w))
    end).

(** [q.GetAuditPeriodByID] with its error mapping. *)
Definition getPeriod (tenantID id : UUID) : Tx World Error PeriodRow := λ w,
  match GetAuditPeriodByID tenantID id (db w) with Some r => (Ok r, w) | None => (Err ErrNotFound, w) end.

Definition Get (env : Env) (id : UUID) : Tx World Error Period :=
  inTx env (λ tenantID, r ← getPeriod tenantID id; mret (periodFromRow r)).

Definition frameworkLabel (name version : option string) : string :=
  match name, version with
  | Some name, Some version =>
      let n := TrimSpace name in
      let v := TrimSpace version in
      if bool_decide (n = "") || bool_decide (v = "") then "" else n +:+ " " +:+ v
  | _, _ => ""
  end.

(** The two LEFT JOINs of the list query. *)
Definition assoc {A} (k : UUID) (l : list (UUID * A)) : option A := snd <$> head (select_where (λ p, bool_decide (p.1 = k)) l).
Definition framework_of (d : DB) (r : PeriodRow) : option string * option string :=
  match assoc (r_FrameworkVersionID r) (framework_versions d) with
  | None => (None, None)
  | Some (f, version) => (assoc f (frameworks d), Some version)
  end.

Definition periodFromListRow (d : DB) (r : PeriodRow) : Period :=
  let '(name, version) := framework_of d r in
  mkPeriod (r_ID r) (r_TenantID r) (r_Name r) (r_FrameworkVersionID r) (r_PeriodStart r) (r_PeriodEnd r) (r_Status r)
    (r_FrozenAt r) (default "" (r_FrozenHash r)) (default "" (r_FrozenBy r)) (r_CreatedBy r) (r_CreatedAt r) (r_UpdatedAt r)
    (frameworkLabel name version).

Definition period_le (a b : PeriodRow) : Prop :=
  r_CreatedAt b < r_CreatedAt a ∨ (r_CreatedAt a = r_CreatedAt b ∧ (r_ID a ≤ r_ID b)%N).
#[global] Instance period_le_dec : RelDecision period_le.
Proof. intros a b. unfold period_le. apply _. Defined.

Definition List (env : Env) : Tx World Error (list Period) :=
  inTx env (λ tenantID, tx_gets (λ w,
    periodFromListRow (db w) <$> merge_sort period_le (select_where (λ r, bool_decide (r_TenantID r = tenantID)) (audit_periods (db w))))).

(** *** Freezing *)

(** A period read as already frozen leaves its rejection to be logged. *)
Inductive FreezeError := Plain (e : Error) | Rejected (tenantID periodID : UUID).
#[global] Instance Freeze_error : TxError FreezeError := λ e, Plain (ErrTx e).

Definition hash_inputs (tenantID : UUID) (at_ : Time) (d : DB) (r : PeriodRow) : freezeHashInputs :=
  mkHashInputs (r_ID r) (r_PeriodStart r) (r_PeriodEnd r) (r_FrameworkVersionID r)
    (ListEvidenceIDsForPeriodHash tenantID at_ d) (ListControlIDsForPeriodHash tenantID d).

Definition freezeBody (env : Env) (id : UUID) (frozenBy : string) (at_ : Time) (tenantID : UUID) : Tx World FreezeError Period := λ w,
  match GetAuditPeriodByID tenantID id (db w) with
  | None => (Err (Plain ErrNotFound), w)
  | Some existing =>
      if bool_decide (r_Status existing = StatusFrozen) then (Err (Rejected tenantID (r_ID existing)), w)
      else
        let h := hash_inputs tenantID at_ (db w) existing in
        let hash := computeFreezeHash h in
        match FreezeAuditPeriod tenantID id at_ hash frozenBy (env_now env) (db w) with
        | None => (Err (Plain ErrFreeze), w)
        | Some (None, d) => (Err (Plain ErrAlreadyFrozen), mkWorld d (sink w))
        | Some (Some row, d) =>
            let d := SetPopulationFrozenAt tenantID id at_ d in
            match writeLog env tenantID (r_ID row) "period_frozen" frozenBy
                    (DFrozen at_ hash (length (hi_EvidenceRecordIDs h)) (length (hi_ControlIDs h))) (mkWorld d (sink w)) with
            | (Err e, w') => (Err (Plain e), w')
            | (Ok _, w') => (Ok (periodFromRow row), w')
            end
        end
  end.

(** A sibling transaction; what goes wrong in it is ignored. *)
Definition writeRejectionLog (env : Env) (tenantID periodID : UUID) (actor : string) (w : World) : World :=
  (withTx (env_sibling env) (env_ctx env)
     (writeLog env tenantID periodID "freeze_rejected_already_frozen" actor DRejected) w).2.

Definition Freeze (env : Env) (id : UUID) (frozenBy : string) (at_ : Time) : Tx World Error Period := λ w,
  if bool_decide (frozenBy = "") then (Err ErrEmptyActor, w)
  else
    let at_ := if IsZero at_ then env_now env else at_ in
    match Tenancy.inTx (env_infra env) (env_ctx env) (freezeBody env id frozenBy at_) w with
    | (Ok p, w') => (Ok p, w')
    | (Err (Plain e), w') => (Err e, w')
    | (Err (Rejected tenantID periodID), w') => (Err ErrAlreadyFrozen, writeRejectionLog env tenantID periodID frozenBy w')
    end.

(** *** Reads and populations *)

Definition observation (e : EvidenceRow) : ControlStateObservation := mkObs (e_ID e) (e_ObservedAt e) (e_Result e) (e_Hash e).

Definition ControlState (env : Env) (periodID controlID : UUID) : Tx World Error (list ControlStateObservation) :=
  inTx env (λ tenantID,
    p ← getPeriod tenantID periodID;
    tx_gets (λ w, observation <$> ListEvidenceForPeriodControl tenantID controlID (r_FrozenAt p) (db w))).

Definition AttachPopulation (env : Env) (periodID populationID : UUID) (actor : string) : Tx World Error () :=
  if bool_decide (actor = "") then tx_fail ErrEmptyActor
  else inTx env (λ tenantID,
    p ← getPeriod tenantID periodID;
    _ ← tx_modify (λ w, mkWorld (AttachPopulationToPeriod tenantID populationID periodID (db w)) (sink w));
    _ ← (match r_Status p, r_FrozenAt p with
         | StatusFrozen, Some h => tx_modify (λ w, mkWorld (SetPopulationFrozenAt tenantID periodID h (db w)) (sink w))
         | _, _ => mret ()
         end);
    writeLog env tenantID (r_ID p) "population_attached" actor (DPopulation populationID)).

Definition ListLog (env : Env) (periodID : UUID) : Tx World Error (list LogRow) :=
  inTx env (λ tenantID, tx_gets (λ w, ListAuditPeriodLog tenantID periodID (db w))).

Record FrozenView (Ref : Type) := mkView { PeriodID : UUID; Horizon : Time; Frozen : bool; ActionPlans : list Ref }.

(** The action plans come through an injected reader; [None] is its error, or a
    nil reader. *)
Definition Snapshot {Ref} (env : Env) (periodID : UUID) (plans : option (Time → option (list Ref)))
  : World → option (result Error (FrozenView Ref)) := λ w,
  match plans with
  | None => None
  | Some plans =>
      match inTx env (λ tenantID,
              p ← getPeriod tenantID periodID;
              mret (match r_Status p, r_FrozenAt p with
                    | StatusFrozen, Some h => (h, true)
                    | _, _ => (env_now env, false)
                    end)) w with
      | (Err e, _) => Some (Err e)
      | (Ok (horizon, frozen), _) =>
          match plans horizon with
          | None => None
          | Some refs => Some (Ok (mkView Ref periodID horizon frozen refs))
          end
      end
  end.
End Store.
End AuditPeriod.
