(* ===== verification/AuditPeriodSpec.v ===== *)
(** * What freezing an audit period promises

    What a freeze commits to, that a frozen row never changes again, and exactly
    which later evidence can still reach the frozen view. *)

From S2P Require Import Prelude GoTime Tenancy Json Sha256 AuditPeriod.

Module AuditPeriodSpec.
Import AuditPeriod.

(** ** What every operation keeps *)

Definition ids (d : DB) : list UUID := r_ID <$> audit_periods d.

(** The ledger, the frozen rows and the uniqueness of identifiers survive. *)
Definition keeps (d d' : DB) : Prop :=
  evidence_records d' = evidence_records d ∧
  (∀ r, r ∈ audit_periods d → r_Status r = StatusFrozen → r ∈ audit_periods d') ∧
  (NoDup (ids d) → NoDup (ids d')).

Lemma keeps_refl d : keeps d d.
Proof. by split_and!. Qed.

Lemma keeps_trans d1 d2 d3 : keeps d1 d2 → keeps d2 d3 → keeps d1 d3.
Proof.
  intros (E1 & F1 & N1) (E2 & F2 & N2). split_and!; [congruence|auto|auto].
Qed.

Lemma keeps_same_periods d d' :
  evidence_records d' = evidence_records d → audit_periods d' = audit_periods d → keeps d d'.
Proof. intros E P. unfold keeps, ids. rewrite P. by split_and!. Qed.

Lemma Log_keeps r d d' : WriteAuditPeriodLog r d = Some d' → keeps d d'.
Proof. unfold WriteAuditPeriodLog. intros H. case_match; simplify_eq. by apply keeps_same_periods. Qed.

Lemma CreateAuditPeriod_keeps id t name fv s e by_ now d r d' :
  CreateAuditPeriod id t name fv s e by_ now d = Some (r, d') → keeps d d'.
Proof.
  unfold CreateAuditPeriod. intros H. case_match eqn:C; simplify_eq. rewrite !andb_true_iff, !negb_true_iff in C.
  destruct C as [[[_ Hid] _] _]. apply bool_decide_eq_false in Hid. split_and!; simpl; [done| |].
  - intros x Hx _. apply elem_of_app. by left.
  - intros Hn. unfold ids. simpl. rewrite fmap_app. apply NoDup_app. split_and!; [done| |apply NoDup_singleton].
    intros x Hx ->%list_elem_of_singleton. done.
Qed.

Lemma FreezeAuditPeriod_keeps t id at_ hash by_ now d row d' :
  FreezeAuditPeriod t id at_ hash by_ now d = Some (row, d') → keeps d d'.
Proof.
  unfold FreezeAuditPeriod. intros H. case_match; simplify_eq. split_and!; simpl; [done| |].
  - intros x Hx Hf. apply elem_of_update_where. exists x. split; [done|]. unfold freezable. rewrite Hf.
    by rewrite andb_false_r.
  - intros Hn. unfold ids. simpl. by rewrite update_where_key.
Qed.

Section Operations.
Context {UT : UUIDText}.

(** The outcome of a transaction whose body keeps. *)
Lemma inTx_keeps {E A} `{!TxError E} infra ctx (fn : UUID → Tx World E A) w r w' :
  (∀ t w a w', fn t w = (Ok a, w') → keeps (db w) (db w')) →
  Tenancy.inTx infra ctx fn w = (r, w') → keeps (db w) (db w').
Proof using.
  intros Hfn H. apply (inTx_cases db) in H as [(t & a & _ & _ & H)|(e & _ & ->)]; [by eapply Hfn|apply keeps_refl].
Qed.

Lemma writeLog_keeps env t p action actor detail w a w' :
  writeLog env t p action actor detail w = (Ok a, w') → keeps (db w) (db w').
Proof using.
  unfold writeLog. intros H. case_match eqn:E; simplify_eq. by eapply Log_keeps.
Qed.

Lemma Create_keeps env newID i w r w' : Create env newID i w = (r, w') → keeps (db w) (db w').
Proof using.
  unfold Create. intros H. repeat case_match; try (by apply tx_fail_eq in H as [_ ->]; apply keeps_refl).
  eapply (inTx_keeps (E := Error)); [|exact H]. clear. intros t w a w' H. simpl in H.
  destruct (CreateAuditPeriod _ _ _ _ _ _ _ _ _) as [[row d]|] eqn:E; [|done].
  apply tx_bind_Ok in H as ([] & w1 & H1 & H2). injection H2 as <- <-.
  apply writeLog_keeps in H1. apply CreateAuditPeriod_keeps in E. by eapply keeps_trans.
Qed.

Lemma freezeBody_keeps env id by_ at_ t w a w' : freezeBody env id by_ at_ t w = (Ok a, w') → keeps (db w) (db w').
Proof using.
  unfold freezeBody. intros H. destruct (GetAuditPeriodByID _ _ _) as [r|]; [|done]. case_bool_decide; [done|].
  destruct (FreezeAuditPeriod _ _ _ _ _ _ _) as [[[row|] d]|] eqn:E; try done.
  destruct (writeLog _ _ _ _ _ _ _) as [[[]|e] w1] eqn:L; simplify_eq. apply writeLog_keeps in L.
  apply FreezeAuditPeriod_keeps in E. eapply keeps_trans; [exact E|]. eapply keeps_trans; [|exact L]. by apply keeps_same_periods.
Qed.

Lemma writeRejectionLog_keeps env t p actor w : keeps (db w) (db (writeRejectionLog env t p actor w)).
Proof using UT.
  unfold writeRejectionLog. destruct (withTx _ _ _ _) as [r w'] eqn:E. simpl.
  apply (withTx_cases db) in E as [(a & _ & E)|(e & _ & ->)]; [by eapply writeLog_keeps|apply keeps_refl].
Qed.

Lemma Freeze_keeps env id by_ at_ w r w' : Freeze env id by_ at_ w = (r, w') → keeps (db w) (db w').
Proof using.
  unfold Freeze. intros H. case_bool_decide; simplify_eq; [apply keeps_refl|].
  destruct (Tenancy.inTx _ _ _ _) as [r1 w1] eqn:E. apply inTx_keeps in E; [|by apply freezeBody_keeps].
  destruct r1 as [p|[e|t p]]; simplify_eq; [done|done|]. eapply keeps_trans; [exact E|apply writeRejectionLog_keeps].
Qed.

Lemma AttachPopulation_keeps env p q actor w r w' : AttachPopulation env p q actor w = (r, w') → keeps (db w) (db w').
Proof using.
  unfold AttachPopulation. intros H. case_bool_decide; [apply tx_fail_eq in H as [_ ->]; apply keeps_refl|].
  eapply (inTx_keeps (E := Error)); [|exact H]. clear. intros t w a w' H.
  apply tx_bind_Ok in H as (row & w1 & Hg & H). unfold getPeriod in Hg.
  destruct (GetAuditPeriodByID _ _ _); [|done]. injection Hg as -> <-.
  apply tx_bind_Ok in H as ([] & w2 & [= <-] & H). apply tx_bind_Ok in H as ([] & w3 & Hs & H).
  apply writeLog_keeps in H. eapply keeps_trans; [|exact H].
  destruct (r_Status row); [by injection Hs as <-; apply keeps_same_periods|].
  destruct (r_FrozenAt row); injection Hs as <-; by apply keeps_same_periods.
Qed.

(** ** Histories *)

(** Everything that can happen to the tables after a freeze: requests of any
    tenant, ingestion, new populations and new controls. *)
Inductive op :=
| OpCreate (env : Env) (newID : UUID) (i : CreateInput)
| OpFreeze (env : Env) (id : UUID) (by_ : string) (at_ : Time)
| OpAttach (env : Env) (period population : UUID) (actor : string)
| OpIngest (e : EvidenceRow)
| OpPopulation (p : PopulationRow)
| OpControl (tenant control : UUID).

Definition with_db (w : World) (f : DB → DB) : World := mkWorld (f (db w)) (sink w).

Definition step (w : World) (o : op) : World :=
  match o with
  | OpCreate env newID i => (Create env newID i w).2
  | OpFreeze env id by_ at_ => (Freeze env id by_ at_ w).2
  | OpAttach env p q actor => (AttachPopulation env p q actor w).2
  | OpIngest e => with_db w (λ d, mkDB (audit_periods d) (period_log d) (populations d) (evidence_records d ++ [e]) (controls d)
                                    (framework_versions d) (frameworks d))
  | OpPopulation p => with_db w (λ d, with_populations d (populations d ++ [p]))
  | OpControl t c => with_db w (λ d, mkDB (audit_periods d) (period_log d) (populations d) (evidence_records d)
                                       (controls d ++ [(t, c)]) (framework_versions d) (frameworks d))
  end.

Definition run (w : World) (ops : list op) : World := fold_left step ops w.

Definition ingested (ops : list op) : list EvidenceRow :=
  omap (λ o, match o with OpIngest e => Some e | _ => None end) ops.

(** One step: the frozen rows stay, and only ingestion grows the ledger. *)
Lemma step_keeps w o :
  evidence_records (db (step w o)) = evidence_records (db w) ++ ingested [o] ∧
  (∀ r, r ∈ audit_periods (db w) → r_Status r = StatusFrozen → r ∈ audit_periods (db (step w o))) ∧
  (NoDup (ids (db w)) → NoDup (ids (db (step w o)))).
Proof using.
  destruct o as [env n i|env id by_ at_|env p q actor|e|p|t c]; simpl; rewrite ?app_nil_r.
  - destruct (Create env n i w) eqn:E. by eapply Create_keeps.
  - destruct (Freeze env id by_ at_ w) eqn:E. by eapply Freeze_keeps.
  - destruct (AttachPopulation env p q actor w) eqn:E. by eapply AttachPopulation_keeps.
  - by split_and!.
  - by split_and!.
  - by split_and!.
Qed.

Lemma run_keeps w ops :
  evidence_records (db (run w ops)) = evidence_records (db w) ++ ingested ops ∧
  (∀ r, r ∈ audit_periods (db w) → r_Status r = StatusFrozen → r ∈ audit_periods (db (run w ops))) ∧
  (NoDup (ids (db w)) → NoDup (ids (db (run w ops)))).
Proof using.
  unfold run. revert w. induction ops as [|o ops IH]; intros w; simpl; [rewrite app_nil_r; by split_and!|].
  destruct (step_keeps w o) as (E1 & F1 & N1), (IH (step w o)) as (E2 & F2 & N2). split_and!; [|auto|auto].
  rewrite E2, E1, <- app_assoc. f_equal. by destruct o.
Qed.

(** ** The frozen view *)

Lemma head_select_unique (p : PeriodRow → bool) d r :
  NoDup (ids d) → r ∈ audit_periods d → p r = true → (∀ x, p x = true → r_ID x = r_ID r) →
  head (select_where p (audit_periods d)) = Some r.
Proof using.
  intros Hn Hr Hp Hk. assert (r ∈ select_where p (audit_periods d)) as Hin by (by apply elem_of_select_where).
  destruct (select_where _ _) as [|x l] eqn:E; [by apply elem_of_nil in Hin|]. simpl. f_equal.
  assert (x ∈ select_where p (audit_periods d)) as [Hpx Hx]%elem_of_select_where by (rewrite E; left).
  apply (NoDup_key_inj r_ID (audit_periods d)); auto.
Qed.

Lemma period_key_true t id r : at_key t id r = true ↔ r_TenantID r = t ∧ r_ID r = id.
Proof using. unfold at_key. by rewrite andb_true_iff, !bool_decide_eq_true. Qed.

Lemma Get_unique t d r :
  NoDup (ids d) → r ∈ audit_periods d → r_TenantID r = t → GetAuditPeriodByID t (r_ID r) d = Some r.
Proof using.
  intros Hn Hr Ht. apply head_select_unique; [done|done|by apply period_key_true|]. intros x Hx. by apply period_key_true in Hx as [_ ?].
Qed.

(** Evidence about [control] that a horizon [h] lets through. *)
Definition in_view (t control : UUID) (h : Time) (e : EvidenceRow) : bool :=
  bool_decide (e_TenantID e = t) && bool_decide (e_ControlID e = Some control) && bool_decide (e_ObservedAt e ≤ h).

Lemma ControlState_frozen env t r h control w :
  env_infra env = healthy → tenant_of (env_ctx env) = Some t → NoDup (ids (db w)) →
  r ∈ audit_periods (db w) → r_TenantID r = t → r_FrozenAt r = Some h →
  ControlState env (r_ID r) control w =
  (Ok (observation <$> merge_sort evidence_le (select_where (in_view t control h) (evidence_records (db w)))), w).
Proof using.
  intros Hi Ht Hn Hr Htr Hh. unfold ControlState, inTx. rewrite Hi, (inTx_healthy db _ t) by done.
  unfold mbind, tx_bind, getPeriod. rewrite Get_unique by done. unfold ListEvidenceForPeriodControl. rewrite Hh. done.
Qed.

(** C13: whatever happens after a freeze, the frozen row stays exactly as it was,
    and the period's view of a control changes only by evidence that is ingested
    later but observed at or before the freeze instant: the new view holds the old
    observations and precisely those records, and without any it is the same list. *)
Theorem frozen_view_gains_only_backdated env t r h control w ops :
  env_infra env = healthy → tenant_of (env_ctx env) = Some t → NoDup (ids (db w)) →
  r ∈ audit_periods (db w) → r_TenantID r = t → r_Status r = StatusFrozen → r_FrozenAt r = Some h →
  let w' := run w ops in
  let backdated := select_where (in_view t control h) (ingested ops) in
  Get env (r_ID r) w' = (Ok (periodFromRow r), w') ∧
  ∃ before after,
    ControlState env (r_ID r) control w = (Ok before, w) ∧
    ControlState env (r_ID r) control w' = (Ok after, w') ∧
    after ≡ₚ before ++ (observation <$> backdated) ∧
    (backdated = [] → after = before).
Proof using.
  intros Hi Ht Hn Hr Htr Hs Hh w' backdated. destruct (run_keeps w ops) as (He & Hf & Hn'). fold w' in He, Hf, Hn'.
  specialize (Hf r Hr Hs). specialize (Hn' Hn). split.
  - unfold Get, inTx. rewrite Hi, (inTx_healthy db _ t) by done. unfold mbind, tx_bind, getPeriod. by rewrite Get_unique.
  - eexists _, _. split_and!; [by apply (ControlState_frozen env t r h)|by apply (ControlState_frozen env t r h)|..].
    + rewrite He, select_where_app, !merge_sort_Permutation, fmap_app. done.
    + intros Hb. rewrite He, select_where_app. change (select_where _ (ingested ops)) with backdated. by rewrite Hb, app_nil_r.
Qed.

(** ** What a freeze commits to *)

#[local] Instance text_le_antisym : AntiSymm (=) text_le.
Proof using.
  intros a b H1 H2. apply (f_equal (default 0%N)) with (x := Some a) (y := Some b).
  rewrite <- !uuid_Parse_String. f_equal. by apply (anti_symm String.le).
Qed.
#[local] Instance text_le_trans : Transitive text_le.
Proof using. intros a b c. unfold text_le. apply (transitivity (R := String.le)). Qed.
#[local] Instance text_le_total : Total text_le.
Proof using. intros a b. unfold text_le. apply (total String.le). Qed.

Lemma sortUUIDs_perm l l' : l ≡ₚ l' → sortUUIDs l = sortUUIDs l'.
Proof using.
  intros H. unfold sortUUIDs. apply (StronglySorted_unique text_le).
  - apply Sorted_StronglySorted; [apply _|]. apply (Sorted_merge_sort text_le).
  - apply Sorted_StronglySorted; [apply _|]. apply (Sorted_merge_sort text_le).
  - by rewrite !merge_sort_Permutation.
Qed.

(** The hash depends on the identifiers and dates, and on which evidence and
    controls there are, not on their order and not on the instant. *)
Lemma computeFreezeHash_perm id s e fv ev ev' cs cs' :
  ev ≡ₚ ev' → cs ≡ₚ cs' →
  computeFreezeHash (mkHashInputs id s e fv ev cs) = computeFreezeHash (mkHashInputs id s e fv ev' cs').
Proof using.
  intros He Hc. unfold computeFreezeHash, wire. simpl. by rewrite (sortUUIDs_perm ev ev'), (sortUUIDs_perm cs cs').
Qed.

Definition evidence_at (t : UUID) (h : Time) (d : DB) : list UUID :=
  e_ID <$> select_where (λ e, bool_decide (e_TenantID e = t) && bool_decide (e_ObservedAt e ≤ h)) (evidence_records d).
Definition catalog (t : UUID) (d : DB) : list UUID := (select_where (λ c, bool_decide (c.1 = t)) (controls d)).*2.

(** The commitment to a row's content at a horizon. *)
Definition commitment (t : UUID) (h : Time) (d : DB) (r : PeriodRow) : string :=
  computeFreezeHash (mkHashInputs (r_ID r) (r_PeriodStart r) (r_PeriodEnd r) (r_FrameworkVersionID r) (evidence_at t h d) (catalog t d)).

Lemma commitment_eq t h d r : computeFreezeHash (hash_inputs t h d r) = commitment t h d r.
Proof using. apply computeFreezeHash_perm; apply merge_sort_Permutation. Qed.

Lemma freezable_true t id r : freezable t id r = true ↔ r_TenantID r = t ∧ r_ID r = id ∧ r_Status r = StatusOpen.
Proof using. unfold freezable. rewrite andb_true_iff, period_key_true, bool_decide_eq_true. tauto. Qed.

Lemma freeze_row_check at_ hash by_ now r :
  by_ ≠ "" → check_period r = true → check_period (freeze_row at_ hash by_ now r) = true.
Proof using.
  unfold check_period. simpl. rewrite !andb_true_iff. intros Hb [H _]. split; [done|]. by apply bool_decide_eq_true_2.
Qed.

Lemma FreezeAuditPeriod_open t at_ hash by_ now d r :
  NoDup (ids d) → Forall (λ x, check_period x = true) (audit_periods d) → by_ ≠ "" →
  r ∈ audit_periods d → r_TenantID r = t → r_Status r = StatusOpen →
  FreezeAuditPeriod t (r_ID r) at_ hash by_ now d =
  Some (Some (freeze_row at_ hash by_ now r),
        with_periods d (update_where (freezable t (r_ID r)) (freeze_row at_ hash by_ now) (audit_periods d))).
Proof using.
  intros Hn Hc Hb Hr Ht Hs. unfold FreezeAuditPeriod, updated_rows.
  assert (forallb check_period (freeze_row at_ hash by_ now <$> select_where (freezable t (r_ID r)) (audit_periods d)) = true) as ->.
  { apply forallb_forall. intros x Hx. apply list_elem_of_In, list_elem_of_fmap in Hx as (y & -> & [_ Hy]%elem_of_select_where).
    apply freeze_row_check; [done|]. rewrite Forall_forall in Hc. by apply Hc. }
  assert (head (select_where (freezable t (r_ID r)) (audit_periods d)) = Some r) as Hh.
  { apply head_select_unique; [done|done|by apply freezable_true|]. intros x Hx. apply freezable_true in Hx. tauto. }
  destruct (select_where _ _); [done|]. injection Hh as ->. done.
Qed.

(** What freezing a period of tenant [t] at [h] makes of a population: one that is
    attached to the period and has no horizon yet gets [h], any other stays as it
    is. *)
Definition horizon_given (t period : UUID) (h : Time) (p p' : PopulationRow) : Prop :=
  pop_ID p' = pop_ID p ∧ pop_TenantID p' = pop_TenantID p ∧ pop_AuditPeriodID p' = pop_AuditPeriodID p ∧
  (pop_TenantID p = t → pop_AuditPeriodID p = Some period → pop_FrozenAt p = None → pop_FrozenAt p' = Some h) ∧
  (pop_TenantID p ≠ t ∨ pop_AuditPeriodID p ≠ Some period ∨ is_Some (pop_FrozenAt p) → p' = p).

Lemma SetPopulationFrozenAt_horizon t period h d :
  Forall2 (horizon_given t period h) (populations d) (populations (SetPopulationFrozenAt t period h d)).
Proof using.
  unfold SetPopulationFrozenAt, update_where. simpl. apply Forall2_fmap_r, Forall_Forall2_diag, Forall_forall. intros p _.
  unfold compose, horizon_given. case_match eqn:E; simpl.
  - rewrite !andb_true_iff, !bool_decide_eq_true in E. destruct E as [[Et Ep] Ef]. split_and!; try done.
    rewrite Ef. intros [?|[?|[? ?]]]; done.
  - split_and!; try done. intros Et Ep Ef. by rewrite !bool_decide_eq_true_2 in E by done.
Qed.

(** The frozen form of a row: only its status, freeze columns and update time differ. *)
Record frozen_from (at_ : Time) (hash by_ : string) (now : Time) (r row : PeriodRow) : Prop := {
  ff_same : (r_ID row, r_TenantID row, r_Name row, r_FrameworkVersionID row, r_PeriodStart row, r_PeriodEnd row, r_CreatedBy row, r_CreatedAt row) =
            (r_ID r, r_TenantID r, r_Name r, r_FrameworkVersionID r, r_PeriodStart r, r_PeriodEnd r, r_CreatedBy r, r_CreatedAt r);
  ff_status : r_Status row = StatusFrozen;
  ff_at : r_FrozenAt row = Some at_;
  ff_hash : r_FrozenHash row = Some hash;
  ff_by : r_FrozenBy row = Some by_;
  ff_updated : r_UpdatedAt row = now;
}.

Lemma Freeze_open env t by_ at_ w r :
  env_infra env = healthy → tenant_of (env_ctx env) = Some t → NoDup (ids (db w)) →
  Forall (λ x, check_period x = true) (audit_periods (db w)) → env_logID env ∉ (g_ID <$> period_log (db w)) →
  r ∈ audit_periods (db w) → r_TenantID r = t → r_Status r = StatusOpen → by_ ≠ "" → at_ ≠ time_zero →
  let row := freeze_row at_ (commitment t at_ (db w) r) by_ (env_now env) r in
  let entry := mkLog (env_logID env) t (r_ID r) "period_frozen" by_
                 (DFrozen at_ (commitment t at_ (db w) r) (length (evidence_at t at_ (db w))) (length (catalog t (db w)))) (env_now env) in
    Freeze env (r_ID r) by_ at_ w =
    (Ok (periodFromRow row),
     mkWorld (with_log (SetPopulationFrozenAt t (r_ID r) at_
                (with_periods (db w) (update_where (freezable t (r_ID r)) (freeze_row at_ (commitment t at_ (db w) r) by_ (env_now env))
                                        (audit_periods (db w))))) (period_log (db w) ++ [entry]))
       (sink w ++ [entry])).
Proof using.
  intros Hi Ht Hn Hc Hlog Hr Htr Hs Hb Hat row entry. unfold Freeze. rewrite bool_decide_eq_false_2 by done.
  unfold IsZero. rewrite bool_decide_eq_false_2 by done. rewrite Hi, (inTx_healthy db _ t) by done.
  unfold freezeBody. rewrite (Get_unique t (db w) r) by done. rewrite bool_decide_eq_false_2 by congruence.
  rewrite commitment_eq, FreezeAuditPeriod_open by done.
  unfold writeLog, WriteAuditPeriodLog. simpl.
  rewrite (bool_decide_eq_true_2 (by_ ≠ "")), (bool_decide_eq_false_2 (env_logID env ∈ _)) by done. simpl.
  unfold entry, ListEvidenceIDsForPeriodHash, ListControlIDsForPeriodHash. by rewrite !merge_sort_Permutation.
Qed.

Lemma freezable_in_place t f d r :
  NoDup (ids d) → r ∈ audit_periods d → r_TenantID r = t → r_Status r = StatusOpen →
  ∃ l1 l2, audit_periods d = l1 ++ r :: l2 ∧ update_where (freezable t (r_ID r)) f (audit_periods d) = l1 ++ f r :: l2.
Proof using.
  intros Hn Hr Ht Hs. apply update_where_single. apply select_key_unique with (key := r_ID); try done.
  - by apply freezable_true.
  - intros x Hx. apply freezable_true in Hx. tauto.
Qed.

(** A frozen period is not frozen again. *)
Lemma freeze_refused t w row :
  NoDup (ids (db w)) → row ∈ audit_periods (db w) → r_TenantID row = t → r_Status row = StatusFrozen →
  ∀ env by_ at_, env_infra env = healthy → tenant_of (env_ctx env) = Some t → by_ ≠ "" →
    (Freeze env (r_ID row) by_ at_ w).1 = Err ErrAlreadyFrozen ∧
    audit_periods (db (Freeze env (r_ID row) by_ at_ w).2) = audit_periods (db w).
Proof using.
  intros Hn Hr Ht Hs env by_ at_ Hi Htn Hb. unfold Freeze. rewrite bool_decide_eq_false_2 by done.
  rewrite Hi, (inTx_healthy db _ t) by done. unfold freezeBody. rewrite (Get_unique t (db w) row) by done.
  rewrite bool_decide_eq_true_2 by done. split; [done|]. simpl. unfold writeRejectionLog.
  destruct (withTx _ _ _ _) as [res w2] eqn:Ew. simpl.
  apply (withTx_cases db) in Ew as [([] & _ & Ew)|(e & _ & ->)]; [|done].
  unfold writeLog, WriteAuditPeriodLog in Ew. case_match; simplify_eq. case_match; simplify_eq. done.
Qed.

(** C12: freezing an open period succeeds and replaces its row, in place, by the
    frozen one, stamped with the instant, the actor and a SHA-256 commitment that
    depends only on the period's identity and dates and on which evidence and
    controls are visible, not on their order or on the clock.  Each population
    attached to that period that had no horizon gets exactly that instant and every
    other population stays as it is; no other period, no evidence, no control and no
    framework changes; and one entry, with the instant, the commitment and how many
    records and controls it covers, goes to the log and to the sink.  Any later
    freeze of the period is refused and changes no period. *)
Theorem Freeze_commits_content env t by_ at_ w r :
  env_infra env = healthy → tenant_of (env_ctx env) = Some t → NoDup (ids (db w)) →
  Forall (λ x, check_period x = true) (audit_periods (db w)) → env_logID env ∉ (g_ID <$> period_log (db w)) →
  r ∈ audit_periods (db w) → r_TenantID r = t → r_Status r = StatusOpen → by_ ≠ "" → at_ ≠ time_zero →
  let entry := mkLog (env_logID env) t (r_ID r) "period_frozen" by_
                 (DFrozen at_ (commitment t at_ (db w) r) (length (evidence_at t at_ (db w))) (length (catalog t (db w)))) (env_now env) in
  (∀ h' d', evidence_at t h' d' ≡ₚ evidence_at t at_ (db w) → catalog t d' ≡ₚ catalog t (db w) →
     commitment t h' d' r = commitment t at_ (db w) r) ∧
  ∃ row w', Freeze env (r_ID r) by_ at_ w = (Ok (periodFromRow row), w') ∧
    frozen_from at_ (commitment t at_ (db w) r) by_ (env_now env) r row ∧
    (∃ l1 l2, audit_periods (db w) = l1 ++ r :: l2 ∧ audit_periods (db w') = l1 ++ row :: l2) ∧
    Forall2 (horizon_given t (r_ID r) at_) (populations (db w)) (populations (db w')) ∧
    evidence_records (db w') = evidence_records (db w) ∧ controls (db w') = controls (db w) ∧
    framework_versions (db w') = framework_versions (db w) ∧ frameworks (db w') = frameworks (db w) ∧
    period_log (db w') = period_log (db w) ++ [entry] ∧ sink w' = sink w ++ [entry] ∧
    ∀ env2 by2 at2, env_infra env2 = healthy → tenant_of (env_ctx env2) = Some t → by2 ≠ "" →
      (Freeze env2 (r_ID r) by2 at2 w').1 = Err ErrAlreadyFrozen ∧
      audit_periods (db (Freeze env2 (r_ID r) by2 at2 w').2) = audit_periods (db w').
Proof using.
  intros Hi Ht Hn Hc Hlog Hr Htr Hs Hb Hat entry. split; [intros h' d' He Hcat; by apply computeFreezeHash_perm|].
  pose proof (Freeze_open env t by_ at_ w r Hi Ht Hn Hc Hlog Hr Htr Hs Hb Hat) as E. cbv zeta in E. fold entry in E.
  set (row := freeze_row _ _ _ _ r) in E. set (w' := mkWorld _ _) in E. exists row, w'. split; [exact E|].
  destruct (Freeze_keeps _ _ _ _ _ _ _ E) as (_ & _ & Hn'). specialize (Hn' Hn).
  split; [by split|]. split; [by apply freezable_in_place|].
  split; [apply SetPopulationFrozenAt_horizon|]. do 6 (split; [done|]).
  apply (freeze_refused t w' row); try done. simpl. apply elem_of_update_where. exists r. split; [done|].
  by rewrite (proj2 (freezable_true t (r_ID r) r)).
Qed.
End Operations.

(** ** A quarter, frozen *)

Module Demo.
#[local] Existing Instance binary_uuid.

Definition tenant : UUID := 7%N.
Definition ctx : Context := {| ctx_tenant := Some (uuid_String tenant) |}.
Definition day (n : Z) : Time := (739000 + n) * ns_per_day.
Definition env (now : Time) (logID : UUID) : Env := mkEnv ctx healthy now logID healthy.

Definition q2 : PeriodRow := mkRow 1%N tenant "SOC 2 Q2" 3%N (day 0) (day 90) StatusOpen None None None "ann" (day 0) (day 0).
Definition e1 : EvidenceRow := mkEvidence 11%N tenant (Some 5%N) (day 10) "pass" "h1".
Definition w0 : World :=
  mkWorld (mkDB [q2] [] [mkPopulation 21%N tenant (Some 1%N) None; mkPopulation 22%N tenant (Some 1%N) (Some (day 50));
                  mkPopulation 23%N tenant (Some 2%N) None] [e1] [(tenant, 5%N)] [(3%N, (4%N, "2025.2"))] [(4%N, "SCF")]) [].

Lemma w0_ids : NoDup (ids (db w0)).
Proof. apply NoDup_singleton. Qed.

(** The attached population gets the instant, the other two keep what they have. *)
Lemma Freeze_commits_content_witness :
  ∃ p w', Freeze (env (day 91) 31%N) 1%N "bob" (day 91) w0 = (Ok p, w') ∧ PStatus p = StatusFrozen ∧
    FrozenHash p = commitment tenant (day 91) (db w0) q2 ∧
    Forall2 (horizon_given tenant 1%N (day 91)) (populations (db w0)) (populations (db w')) ∧
    pop_FrozenAt <$> populations (db w') = [Some (day 91); Some (day 50); None].
Proof.
  destruct (Freeze_commits_content (env (day 91) 31%N) tenant "bob" (day 91) w0 q2) as (_ & row & w' & E & Hrow & _ & Hst & _).
  - reflexivity.
  - reflexivity.
  - exact w0_ids.
  - repeat constructor.
  - apply not_elem_of_nil.
  - left.
  - reflexivity.
  - reflexivity.
  - done.
  - done.
  - eexists _, w'. split; [exact E|]. split; [apply Hrow|]. split; [cbn; by rewrite (ff_hash _ _ _ _ _ _ Hrow)|]. split; [exact Hst|].
    assert (w' = (Freeze (env (day 91) 31%N) 1%N "bob" (day 91) w0).2) as -> by (change 1%N with (r_ID q2); by rewrite E).
    vm_compute. reflexivity.
Defined.

(** The period frozen on day 91, then a failing record observed on day 80 is
    ingested: the auditor's view changes from pass to fail. *)
Definition q2_frozen : PeriodRow :=
  mkRow 1%N tenant "SOC 2 Q2" 3%N (day 0) (day 90) StatusFrozen (Some (day 91)) (Some "ab") (Some "bob") "ann" (day 0) (day 91).
Definition w1 : World := mkWorld (with_periods (db w0) [q2_frozen]) [].
Definition late : EvidenceRow := mkEvidence 12%N tenant (Some 5%N) (day 80) "fail" "h2".

Lemma frozen_view_gains_only_backdated_witness :
  ∃ before after,
    ControlState (env (day 95) 32%N) 1%N 5%N w1 = (Ok before, w1) ∧ Result <$> before = ["pass"] ∧
    ControlState (env (day 95) 32%N) 1%N 5%N (run w1 [OpIngest late]) = (Ok after, run w1 [OpIngest late]) ∧
    Result <$> after = ["fail"; "pass"] ∧
    after ≡ₚ before ++ [observation late].
Proof.
  destruct (frozen_view_gains_only_backdated (env (day 95) 32%N) tenant q2_frozen (day 91) 5%N w1 [OpIngest late])
    as (_ & before & after & E1 & E2 & Hp & _).
  - reflexivity.
  - reflexivity.
  - apply NoDup_singleton.
  - left.
  - reflexivity.
  - reflexivity.
  - reflexivity.
  - exists before, after. split; [exact E1|]. split; [vm_compute in E1; by injection E1 as <-|].
    split; [exact E2|]. split; [vm_compute in E2; by injection E2 as <-|exact Hp].
Defined.

(** Attaching a population that belongs to another period succeeds and is logged,
    but attaches nothing. *)
Lemma attach_elsewhere_is_logged :
  let w := mkWorld (with_populations (db w1) [mkPopulation 21%N tenant (Some 2%N) None]) [] in
  let '(r, w') := AttachPopulation (env (day 95) 33%N) 1%N 21%N "bob" w in
  r = Ok () ∧ populations (db w') = populations (db w) ∧ g_Action <$> period_log (db w') = ["population_attached"].
Proof. vm_compute. auto. Qed.
End Demo.
End AuditPeriodSpec.
