(* ===== verification/Risk.v ===== *)
(** * The risk register: scores, severities, residual arithmetic

    Models the pure part of internal/risk: methodology.go (validation and
    normalization of inherent scores), treatment.go, severity.go (aggregated
    severity, grid cell, aggregation key), residual.go and the helpers of
    residual_store.go, aggregate.go, theme.go and store.go that touch no
    database. *)

From Stdlib Require Import Ascii SpecFloat.
From S2P Require Import Prelude GoTime Tenancy Json Sha256 Float64 Scope GoJson.

(** ** Code outside the repository *)

(** github.com/santhosh-tekuri/jsonschema, by what draft 2020-12 says of the
    keywords the schemas below use: [type: object], [required], and an integer
    property with bounds. *)
Class JSONSchema := {
  schema_valid : string → any → bool;
  schema_object schema ms v :
    schema_valid schema v = true → decode_all schema = Some (JObj ms) → get ms "type" = Some (JStr "object") →
    ∃ m, v = AObj m;
  schema_required schema ms names k m :
    schema_valid schema (AObj m) = true → decode_all schema = Some (JObj ms) →
    get ms "required" = Some (JArr names) → JStr k ∈ names → is_Some (get m k);
  schema_integer schema ms props k sub lo hi a b m v :
    schema_valid schema (AObj m) = true → decode_all schema = Some (JObj ms) →
    get ms "properties" = Some (JObj props) → get props k = Some (JObj sub) →
    get sub "type" = Some (JStr "integer") →
    get sub "minimum" = Some (JNum lo) → split_number lo = Some (false, a, 0) →
    get sub "maximum" = Some (JNum hi) → split_number hi = Some (false, b, 0) →
    get m k = Some v → ∃ f z, v = ANum f ∧ feq f (of_Z z) = true ∧ a ≤ z ≤ b;
}.

(** A checker of just these keywords satisfies the laws. *)
Section Keywords.
Definition type_ok (ms : list (string * json)) (v : any) : bool :=
  match get ms "type" with
  | Some (JStr "object") => match v with AObj _ => true | _ => false end
  | _ => true
  end.

Definition required_ok (ms : list (string * json)) (m : list (string * any)) : bool :=
  match get ms "required" with
  | Some (JArr names) => forallb (λ n, match n with JStr k => bool_decide (is_Some (get m k)) | _ => true end) names
  | _ => true
  end.

Definition integer_ok (sub : list (string * json)) (v : any) : bool :=
  match get sub "type", get sub "minimum", get sub "maximum" with
  | Some (JStr "integer"), Some (JNum lo), Some (JNum hi) =>
      match split_number lo, split_number hi with
      | Some (false, a, 0), Some (false, b, 0) =>
          match v with
          | ANum f => match trunc f with Some z => feq f (of_Z z) && (a <=? z) && (z <=? b) | None => false end
          | _ => false
          end
      | _, _ => true
      end
  | _, _, _ => true
  end.

Definition properties_ok (ms : list (string * json)) (m : list (string * any)) : bool :=
  match get ms "properties" with
  | Some (JObj props) =>
      forallb (λ p, match p.2, get m p.1 with JObj sub, Some v => integer_ok sub v | _, _ => true end) props
  | _ => true
  end.

Definition keywords_ok (schema : string) (v : any) : bool :=
  match decode_all schema with
  | Some (JObj ms) => type_ok ms v && match v with AObj m => required_ok ms m && properties_ok ms m | _ => true end
  | _ => true
  end.
End Keywords.

Lemma get_elem {A} (m : list (string * A)) k v : get m k = Some v → (k, v) ∈ m.
Proof.
  induction m as [|[k' w] m IH]; simpl; [done|]. case_bool_decide; [intros [= ->]; subst; left|right; auto].
Qed.

Definition keyword_schema : JSONSchema.
Proof.
  refine {| schema_valid := keywords_ok |}; unfold keywords_ok.
  - intros schema ms v H Hd Ht. rewrite Hd in H. apply andb_prop in H as [H _]. unfold type_ok in H. rewrite Ht in H.
    destruct v; try done. by eexists.
  - intros schema ms names k m H Hd Hr Hk. rewrite Hd in H. apply andb_prop in H as [_ [H _]%andb_prop].
    unfold required_ok in H. rewrite Hr in H. rewrite forallb_forall in H. apply list_elem_of_In in Hk.
    specialize (H _ Hk). by apply bool_decide_eq_true in H.
  - intros schema ms props k sub lo hi a b m v H Hd Hp Hs Ht Hlo Ha Hhi Hb Hv.
    rewrite Hd in H. apply andb_prop in H as [_ [_ H]%andb_prop].
    unfold properties_ok in H. rewrite Hp in H. rewrite forallb_forall in H.
    apply get_elem, list_elem_of_In in Hs. specialize (H _ Hs). simpl in H. rewrite Hv in H.
    unfold integer_ok in H. rewrite Ht, Hlo, Hhi, Ha, Hb in H. destruct v as [| |f| | |]; try done.
    destruct (trunc f) as [z|]; [|done]. exists f, z. apply andb_prop in H as [[H1 H2]%andb_prop H3]. split_and!; [done..|lia|lia].
Defined.

(** The elementary function of [math] the weighted maximum uses, and
    [strings.ToLower] beyond ASCII. *)
Class GoMath := Log10 : float64 → float64.
Class GoStrings := ToLower : string → string.

Module Risk.

(** ** Data *)

(** [dbx.RiskMethodology], [RiskTreatment], [RiskCategory] and [RiskLevel] are
    strings in Go, enumerations in Postgres. *)
Definition Nist80030 : string := "nist_800_30".
Definition Fair : string := "fair".
Definition CisRam : string := "cis_ram".
Definition Iso27005 : string := "iso_27005".
Definition Qualitative5x5 : string := "qualitative_5x5".
Definition DefaultMethodology : string := Nist80030.

Definition AllowedMethodologies : list string := [Nist80030; Fair; CisRam; Iso27005; Qualitative5x5].
Definition Treatments : list string := ["accept"; "mitigate"; "transfer"; "avoid"].
Definition Categories : list string :=
  ["confidentiality"; "integrity"; "availability"; "privacy"; "regulatory"; "operational"; "financial"].
Definition Levels : list string := ["team"; "org"; "company"].

Inductive Error :=
| ErrNotFound
| ErrControlNotFound
| ErrLinkWeightOutOfRange
| ErrInvalidMethodology
| ErrInherentScoreInvalid
| ErrTreatmentValidation (msg : string)
| ErrUnknownSeverityFunction
| ErrIncompatibleMethodology
| ErrEmptyChildren
| ErrChildrenNotFound
| ErrCycleDetected
| ErrInvalidLevel
| ErrUnknownTheme (bad : list string)
| ErrTitleRequired
| ErrScore (msg : string)
| ErrMarshal
| ErrStatement (stmt : string)
| ErrEngine (stage : string)
| ErrTx (e : TxErr).

#[global] Instance Error_tx : TxError Error := ErrTx.

(** ** Severity *)

Definition SeverityScaleMax : Z := 25.

Record ChildScore := mkScore { Likelihood : Z; Impact : Z }.
Definition Severity (c : ChildScore) : Z := int64 (Likelihood c * Impact c).

Definition capScale (v : Z) : Z :=
  if SeverityScaleMax <? v then SeverityScaleMax else if v <? 0 then 0 else v.

(** [m := 0; for _, c := range scores { if s := c.Severity(); s > m { m = s } }] *)
Definition max_severity (scores : list ChildScore) : Z :=
  fold_left (λ m c, if m <? Severity c then Severity c else m) scores 0.

Definition sum_severity (scores : list ChildScore) : Z :=
  fold_left (λ total c, int64 (total + Severity c)) scores 0.

Section Severity.
Context {GA : GoArch} {GM : GoMath}.

Definition weighted_max (scores : list ChildScore) : Z :=
  let raw := fmul (of_Z (max_severity scores)) (fadd fone (Log10 (of_Z (Z.of_nat (length scores))))) in
  int_of (Ceil raw).

Definition ComputeSeverity (fn : string) (scores : list ChildScore) : result Error Z :=
  if bool_decide (length scores = 0%nat) then Err ErrEmptyChildren
  else if bool_decide (fn = "max") then Ok (capScale (max_severity scores))
  else if bool_decide (fn = "weighted_max") then Ok (capScale (weighted_max scores))
  else if bool_decide (fn = "sum") then Ok (capScale (sum_severity scores))
  else Err ErrUnknownSeverityFunction.

Definition at_least_1_at_most_5 (n : Z) : Z :=
  let n := if n <? 1 then 1 else n in if 5 <? n then 5 else n.

Definition DeriveGridCell (severity : Z) : Z * Z :=
  if severity <=? 0 then (1, 1)
  else
    let severity := if SeverityScaleMax <? severity then SeverityScaleMax else severity in
    let l := at_least_1_at_most_5 (int_of (Ceil (Sqrt (of_Z severity)))) in
    let i := at_least_1_at_most_5 (int_of (Ceil (fdiv (of_Z severity) (of_Z l)))) in
    (l, i).
End Severity.

Section Key.
Context {UT : UUIDText}.

(** What the key hashes: the title, then the identifiers in text order. *)
Definition aggregation_preimage (parentTitle : string) (children : list UUID) : string :=
  parentTitle +:+ "|" +:+ join "|" (merge_sort String.le (uuid_String <$> children)).

Definition AggregationKey (parentTitle : string) (children : list UUID) : string :=
  sha256_hex (aggregation_preimage parentTitle children).
End Key.

Definition IsAggregableMethodology (m : string) : bool :=
  bool_decide (m = Nist80030) || bool_decide (m = Qualitative5x5).

(** ** Methodologies *)

Definition nist80030Schema : string := js "{
  '$schema': 'https://json-schema.org/draft/2020-12/schema',
  'type': 'object',
  'required': ['likelihood', 'impact'],
  'additionalProperties': true,
  'properties': {
    'likelihood': { 'type': 'integer', 'minimum': 1, 'maximum': 5 },
    'impact':     { 'type': 'integer', 'minimum': 1, 'maximum': 5 },
    'impact_dollars_low':  { 'type': 'number', 'minimum': 0 },
    'impact_dollars_high': { 'type': 'number', 'minimum': 0 }
  }
}".

Definition qualitative5x5Schema : string := js "{
  '$schema': 'https://json-schema.org/draft/2020-12/schema',
  'type': 'object',
  'required': ['likelihood', 'impact'],
  'additionalProperties': true,
  'properties': {
    'likelihood': { 'type': 'integer', 'minimum': 1, 'maximum': 5 },
    'impact':     { 'type': 'integer', 'minimum': 1, 'maximum': 5 }
  }
}".

Definition fairSchema : string := js "{
  '$schema': 'https://json-schema.org/draft/2020-12/schema',
  'type': 'object',
  'additionalProperties': true,
  'anyOf': [
    { 'required': ['loss_event_frequency', 'loss_magnitude'] },
    { 'required': ['lef', 'lm'] }
  ],
  'properties': {
    'loss_event_frequency': { 'type': 'number', 'minimum': 0 },
    'loss_magnitude': { 'type': 'number', 'minimum': 0 },
    'annualized_loss_exposure': { 'type': 'number', 'minimum': 0 },
    'lef': { 'type': 'number', 'minimum': 0 },
    'lm':  { 'type': 'number', 'minimum': 0 }
  }
}".

Definition permissiveSchema : string := js "{
  '$schema': 'https://json-schema.org/draft/2020-12/schema',
  'type': 'object',
  'minProperties': 1
}".

Definition methodologySchemas (m : string) : option string :=
  if bool_decide (m = Nist80030) then Some nist80030Schema
  else if bool_decide (m = Qualitative5x5) then Some qualitative5x5Schema
  else if bool_decide (m = Fair) then Some fairSchema
  else if bool_decide (m = CisRam) || bool_decide (m = Iso27005) then Some permissiveSchema
  else None.

Record FairScore := mkFair {
  LossEventFrequency : float64;
  LossMagnitude : float64;
  AnnualizedLossExposure : float64;
}.

Inductive FairError := FairEmpty | FairParse | FairMissing | FairOperand | FairProduct | FairMismatch.

Definition finiteNonNegative (v : float64) : bool := negb (IsNaN v) && negb (IsInf v) && fle fzero v.

Definition one_cent : float64 := default fzero (ParseFloat "0.01").

Definition fair_names : list string :=
  ["LOSS_EVENT_FREQUENCY"; "LOSS_MAGNITUDE"; "ANNUALIZED_LOSS_EXPOSURE"; "LEF"; "LM"].

(** [if p == nil { p = q }] *)
Definition or_else {A} (p q : option A) : option A := match p with Some _ => p | None => q end.

Definition FairScoreFromJSON (raw : string) : result FairError FairScore :=
  if bool_decide (raw = "") then Err FairEmpty
  else
    match Unmarshal_floats fair_names raw with
    | Some [f; g; ale0; f'; g'] =>
        match or_else f f', or_else g g' with
        | Some lef, Some lm =>
            if negb (finiteNonNegative lef) || negb (finiteNonNegative lm) then Err FairOperand
            else
              let ale := fmul lef lm in
              if negb (finiteNonNegative ale) then Err FairProduct
              else
                match ale0 with
                | Some x => if flt one_cent (fabs (fsub x ale)) then Err FairMismatch else Ok (mkFair lef lm ale)
                | None => Ok (mkFair lef lm ale)
                end
        | _, _ => Err FairMissing
        end
    | _ => Err FairParse
    end.

(** The members of an object with float values, as [json.Marshal] writes them. *)
Definition marshal_floats (fields : list (string * float64)) : option string :=
  ms ← mapM (λ kv, t ← json_float kv.2; Some (kv.1, JNum t)) fields;
  Some (render go_quote (JObj ms)).

Definition NormalizeFairScoreJSON (raw : string) : result FairError string :=
  match FairScoreFromJSON raw with
  | Err e => Err e
  | Ok s =>
      match marshal_floats [("loss_event_frequency", LossEventFrequency s); ("loss_magnitude", LossMagnitude s);
                            ("annualized_loss_exposure", AnnualizedLossExposure s)] with
      | Some t => Ok t
      | None => Err FairProduct
      end
  end.

Definition ValidateInherentScore {JS : JSONSchema} (methodology inherentScore : string) : option Error :=
  match methodologySchemas methodology with
  | None => Some ErrInvalidMethodology
  | Some schema =>
      if bool_decide (inherentScore = "") then Some ErrInherentScoreInvalid
      else
        match Unmarshal_any inherentScore with
        | None => Some ErrInherentScoreInvalid
        | Some parsed =>
            if negb (schema_valid schema parsed) then Some ErrInherentScoreInvalid
            else if bool_decide (methodology = Fair) then
              match FairScoreFromJSON inherentScore with
              | Err _ => Some ErrInherentScoreInvalid
              | Ok _ => None
              end
            else None
        end
  end.

(** ** Treatments *)

Record TreatmentInput := mkTreatment {
  Treatment : string;
  AcceptedUntilPresent : bool;
  Accepter : string;
  InstrumentReference : string;
  LinkedControlCount : nat;
}.

Definition ValidateTreatment (i : TreatmentInput) : option Error :=
  if bool_decide (Treatment i = "accept") then
    if negb (AcceptedUntilPresent i) then Some (ErrTreatmentValidation "treatment=accept requires accepted_until")
    else if bool_decide (Accepter i = "") then Some (ErrTreatmentValidation "treatment=accept requires accepter")
    else None
  else if bool_decide (Treatment i = "mitigate") then
    if bool_decide (LinkedControlCount i < 1)%nat
    then Some (ErrTreatmentValidation "treatment=mitigate requires at least one linked_control_id") else None
  else if bool_decide (Treatment i = "transfer") then
    if bool_decide (InstrumentReference i = "")
    then Some (ErrTreatmentValidation "treatment=transfer requires instrument_reference") else None
  else if bool_decide (Treatment i = "avoid") then None
  else Some (ErrTreatmentValidation "treatment is not a recognized value").

(** ** Residual risk *)

Definition clamp01 (x : float64) : float64 :=
  if IsNaN x || flt x fzero then fzero else if flt fone x then fone else x.

Record EffectivenessComponents := mkComponents {
  DesignScore : float64;
  OperationalScore : float64;
  CoverageScore : float64;
  WeightDesign : float64;
  WeightOperation : float64;
  WeightCoverage : float64;
}.

Definition ControlEffectiveness (c : EffectivenessComponents) : float64 :=
  clamp01 (fadd (fadd (fmul (WeightDesign c) (DesignScore c)) (fmul (WeightOperation c) (OperationalScore c)))
                (fmul (WeightCoverage c) (CoverageScore c))).

Definition WeightedEffectiveness (perControl : list float64) : float64 :=
  if bool_decide (length perControl = 0%nat) then fzero
  else clamp01 (fdiv (fold_left fadd perControl fzero) (of_Z (Z.of_nat (length perControl)))).

Definition ResidualScore (inherent weightedEffectiveness : float64) : float64 :=
  let residual := fmul inherent (fsub fone (clamp01 weightedEffectiveness)) in
  if flt residual fzero then fzero
  else if flt inherent residual then inherent
  else residual.

(** [numField] *)
Definition numField (m : list (string * any)) (key : string) : option float64 := get_num m key.

Definition inherentScalar (methodology inherentJSON : string) : result Error float64 :=
  if bool_decide (inherentJSON = "") then Err (ErrScore "inherent_score is empty")
  else
    match Unmarshal_map inherentJSON with
    | None => Err (ErrScore "parse inherent_score")
    | Some raw =>
        match numField raw "severity" with
        | Some sev => Ok sev
        | None =>
            if bool_decide (methodology = Nist80030) || bool_decide (methodology = Qualitative5x5) then
              match numField raw "likelihood", numField raw "impact" with
              | Some l, Some i => Ok (fmul l i)
              | _, _ => Err (ErrScore "inherent_score missing numeric likelihood/impact")
              end
            else if bool_decide (methodology = Fair) then
              match or_else (numField raw "loss_event_frequency") (numField raw "lef"),
                    or_else (numField raw "loss_magnitude") (numField raw "lm") with
              | Some lef, Some lm => Ok (fmul lef lm)
              | _, _ => Err (ErrScore "inherent_score missing numeric loss_event_frequency/loss_magnitude")
              end
            else Err (ErrScore "methodology has no scalar inherent_score and no severity field")
        end
    end.

Definition residualMagnitude (raw : string) : float64 :=
  if bool_decide (raw = "") then fzero
  else
    match Unmarshal_floats ["LIKELIHOOD"; "IMPACT"] raw with
    | Some [Some l; Some i] => fmul l i
    | _ => fzero
    end.

(** ** Aggregation helpers *)

Record aggregationMeta := mkMeta {
  meta_Severity : Z;
  meta_Likelihood : Z;
  meta_Impact : Z;
  meta_SeverityFunction : string;
  meta_AggregationKey : string;
}.

Section Extract.
Context {GA : GoArch}.

Definition extractAggregationMeta (inherentBytes : string) : aggregationMeta :=
  match Unmarshal_map inherentBytes with
  | None => mkMeta 0 0 0 "" ""
  | Some raw =>
      let int_field k := match get_num raw k with Some v => int_of v | None => 0 end in
      mkMeta (int_field "severity") (int_field "likelihood") (int_field "impact")
        (default "" (get_str raw "severity_function")) (default "" (get_str raw "aggregation_key"))
  end.

Definition likelihoodImpactFromInherent (b : string) : result Error (Z * Z) :=
  match Unmarshal_map b with
  | None => Err (ErrScore "parse inherent_score")
  | Some raw =>
      match get_num raw "likelihood" with
      | None => Err (ErrScore "inherent_score missing numeric likelihood")
      | Some lf =>
          match get_num raw "impact" with
          | None => Err (ErrScore "inherent_score missing numeric impact")
          | Some imp => Ok (int_of lf, int_of imp)
          end
      end
  end.
End Extract.

(** The first occurrence of each element, in order. *)
Fixpoint first_seen {A} `{!EqDecision A} (seen : list A) (l : list A) : list A :=
  match l with
  | [] => []
  | x :: l => if bool_decide (x ∈ seen) then first_seen seen l else x :: first_seen (x :: seen) l
  end.

Definition uniqueUUIDs (l : list UUID) : list UUID := first_seen [] l.

(** ** Themes *)

Definition normaliseThemes {GS : GoStrings} (themes : list string) : list string :=
  merge_sort String.le
    (first_seen [] (ToLower <$> filter (λ t, t ≠ "") (TrimSpace <$> themes))).

Definition isValidLevel (l : string) : bool := bool_decide (l ∈ Levels).

End Risk.
