(* ===== verification/RiskDB.v ===== *)
(** * The tables of the risk register and their statements

    The statements of internal/db/queries/risks.sql, org_units.sql, org_themes.sql
    and risk_aggregations.sql with the constraints of their tables, as
    internal/risk and internal/risk/aggrule run them. *)

From Stdlib Require Import Ascii SpecFloat.
From S2P Require Import Prelude GoTime Tenancy Json Sha256 Float64 Scope GoJson Risk.

Module RiskDB.
Import Risk.

(** ** Tables *)

(** [dbx.Risk]; NOT NULL columns are always valid, so it is also the domain
    shape [risk.Risk] but for the linked controls. *)
Record Row := mkRow {
  r_ID : UUID;
  r_TenantID : UUID;
  r_Title : string;
  r_Description : string;
  r_Category : string;
  r_Methodology : string;
  r_InherentScore : string;
  r_Treatment : string;
  r_TreatmentOwner : string;
  r_ResidualScore : string;
  r_ReviewDueAt : option Time;
  r_AcceptedUntil : option Time;
  r_Accepter : string;
  r_InstrumentReference : string;
  r_Level : string;
  r_OrgUnitID : option UUID;
  r_Themes : list string;
  r_CreatedAt : Time;
  r_UpdatedAt : Time;
}.

Record RiskView := mkView { v_Row : Row; v_LinkedControlIDs : list UUID }.

(** A NUMERIC(4,3) column in thousandths, or NaN. *)
Inductive numeric := NumericNaN | Numeric (n : Z).

Record Link := mkLink {
  l_RiskID : UUID;
  l_ControlID : UUID;
  l_TenantID : UUID;
  l_DesignScore : numeric;
  l_WeightDesign : numeric;
  l_WeightOperation : numeric;
  l_WeightCoverage : numeric;
  l_CreatedAt : Time;
}.

Record OrgUnit := mkUnit {
  o_ID : UUID;
  o_TenantID : UUID;
  o_Name : string;
  o_ParentID : option UUID;
  o_Level : string;
  o_AcceptanceAuthorities : string;
}.

Record OrgTheme := mkTheme { t_TenantID : option UUID; t_Name : string; t_Description : string }.

Record Aggregation := mkAgg {
  g_Parent : UUID;
  g_Child : UUID;
  g_RuleID : option UUID;
  g_TenantID : UUID;
  g_CreatedAt : Time;
}.

(** [incident_risks] is another component's table whose foreign key restricts
    the deletion of risks. *)
Record DB := mkDB {
  risks : list Row;
  risk_control_links : list Link;
  org_units : list OrgUnit;
  org_themes : list OrgTheme;
  risk_aggregations : list Aggregation;
  controls : list (UUID * UUID);
  incident_risks : list (UUID * UUID);
}.

#[global] Instance DB_rollback : TxState DB := λ before _, before.
#[global] Instance DB_atomic : Atomic (λ d : DB, d).
Proof. done. Qed.

Definition set_risks (d : DB) (t : list Row) : DB :=
  mkDB t (risk_control_links d) (org_units d) (org_themes d) (risk_aggregations d) (controls d) (incident_risks d).
Definition set_links (d : DB) (t : list Link) : DB :=
  mkDB (risks d) t (org_units d) (org_themes d) (risk_aggregations d) (controls d) (incident_risks d).
Definition set_units (d : DB) (t : list OrgUnit) : DB :=
  mkDB (risks d) (risk_control_links d) t (org_themes d) (risk_aggregations d) (controls d) (incident_risks d).
Definition set_aggregations (d : DB) (t : list Aggregation) : DB :=
  mkDB (risks d) (risk_control_links d) (org_units d) (org_themes d) t (controls d) (incident_risks d).

(** A statement returns its rows, or the error Postgres raised. *)
Inductive QueryErr := NoRows | PgError.
Abbreviation Query A := (Tx DB QueryErr A) (only parsing).

(** [:one] *)
Definition one {A} (l : list A) : result QueryErr A := match l with [] => Err NoRows | x :: _ => Ok x end.

(** ** Statements on risks *)

Definition at_key (tenantID id : UUID) (r : Row) : bool :=
  bool_decide (r_TenantID r = tenantID) && bool_decide (r_ID r = id).
Definition unit_at (tenantID id : UUID) (u : OrgUnit) : bool :=
  bool_decide (o_TenantID u = tenantID) && bool_decide (o_ID u = id).

Definition has_risk (d : DB) (tenantID id : UUID) : bool := existsb (at_key tenantID id) (risks d).
Definition has_unit (d : DB) (tenantID id : UUID) : bool := existsb (unit_at tenantID id) (org_units d).

(** The enumerated columns and the two CHECKs of [risks]. *)
Definition check_risk (r : Row) : bool :=
  bool_decide (r_Category r ∈ Categories) && bool_decide (r_Methodology r ∈ AllowedMethodologies) &&
  bool_decide (r_Treatment r ∈ Treatments) && bool_decide (r_Level r ∈ Levels) &&
  (bool_decide (r_Treatment r ≠ "accept") || (bool_decide (is_Some (r_AcceptedUntil r)) && bool_decide (r_Accepter r ≠ ""))) &&
  (bool_decide (r_Treatment r ≠ "transfer") || bool_decide (r_InstrumentReference r ≠ "")).

Section Jsonb.
Context {JB : JsonB}.

Definition insert_risk (r : Row) : Query Row := λ d,
  match jsonb_in (r_InherentScore r), jsonb_in (r_ResidualScore r) with
  | Some i, Some s =>
      let r := mkRow (r_ID r) (r_TenantID r) (r_Title r) (r_Description r) (r_Category r) (r_Methodology r) i
                 (r_Treatment r) (r_TreatmentOwner r) s (r_ReviewDueAt r) (r_AcceptedUntil r) (r_Accepter r)
                 (r_InstrumentReference r) (r_Level r) (r_OrgUnitID r) (r_Themes r) (r_CreatedAt r) (r_UpdatedAt r) in
      if check_risk r && negb (bool_decide (r_ID r ∈ (r_ID <$> risks d))) &&
         match r_OrgUnitID r with None => true | Some u => has_unit d (r_TenantID r) u end
      then (Ok r, set_risks d (risks d ++ [r]))
      else (Err PgError, d)
  | _, _ => (Err PgError, d)
  end.

Definition CreateRisk (now : Time) (id tenantID : UUID) (title description category methodology inherent treatment
    owner residual : string) (reviewDueAt acceptedUntil : option Time) (accepter instrument : string) : Query Row :=
  insert_risk (mkRow id tenantID title description category methodology inherent treatment owner residual
                 reviewDueAt (truncDate <$> acceptedUntil) accepter instrument "team" None [] now now).

Definition CreateAggregateRisk (now : Time) (id tenantID : UUID) (title description category methodology inherent
    treatment owner residual accepter instrument level : string) (orgUnitID : option UUID) (themes : list string)
  : Query Row :=
  insert_risk (mkRow id tenantID title description category methodology inherent treatment owner residual
                 None None accepter instrument level orgUnitID themes now now).

Definition set_residual (now : Time) (residual : string) (r : Row) : Row :=
  mkRow (r_ID r) (r_TenantID r) (r_Title r) (r_Description r) (r_Category r) (r_Methodology r) (r_InherentScore r)
    (r_Treatment r) (r_TreatmentOwner r) residual (r_ReviewDueAt r) (r_AcceptedUntil r) (r_Accepter r)
    (r_InstrumentReference r) (r_Level r) (r_OrgUnitID r) (r_Themes r) (r_CreatedAt r) now.

Definition set_inherent (now : Time) (inherent : string) (r : Row) : Row :=
  mkRow (r_ID r) (r_TenantID r) (r_Title r) (r_Description r) (r_Category r) (r_Methodology r) inherent
    (r_Treatment r) (r_TreatmentOwner r) (r_ResidualScore r) (r_ReviewDueAt r) (r_AcceptedUntil r) (r_Accepter r)
    (r_InstrumentReference r) (r_Level r) (r_OrgUnitID r) (r_Themes r) (r_CreatedAt r) now.

Definition set_themes (now : Time) (themes : list string) (r : Row) : Row :=
  mkRow (r_ID r) (r_TenantID r) (r_Title r) (r_Description r) (r_Category r) (r_Methodology r) (r_InherentScore r)
    (r_Treatment r) (r_TreatmentOwner r) (r_ResidualScore r) (r_ReviewDueAt r) (r_AcceptedUntil r) (r_Accepter r)
    (r_InstrumentReference r) (r_Level r) (r_OrgUnitID r) themes (r_CreatedAt r) now.

Definition update_risk (tenantID id : UUID) (f : Row → Row) : Query Row := λ d,
  match updated_rows (at_key tenantID id) f (risks d) with
  | [] => (Err NoRows, d)
  | r :: _ => (Ok r, set_risks d (update_where (at_key tenantID id) f (risks d)))
  end.

Definition UpdateRiskResidual (now : Time) (tenantID id : UUID) (residual : string) : Query Row := λ d,
  match jsonb_in residual with
  | None => (Err PgError, d)
  | Some s => update_risk tenantID id (set_residual now s) d
  end.

Definition UpdateMetaRiskInherentScore (now : Time) (tenantID id : UUID) (inherent : string) : Query Row := λ d,
  match jsonb_in inherent with
  | None => (Err PgError, d)
  | Some s => update_risk tenantID id (set_inherent now s) d
  end.
End Jsonb.

Definition UpdateRiskThemes (now : Time) (tenantID id : UUID) (themes : list string) : Query Row :=
  update_risk tenantID id (set_themes now themes).

Definition GetRiskByID (tenantID id : UUID) : Query Row := λ d,
  (one (select_where (at_key tenantID id) (risks d)), d).

(** ORDER BY created_at DESC, id ASC *)
Definition newest_first (r1 r2 : Row) : Prop :=
  r_CreatedAt r2 < r_CreatedAt r1 ∨ (r_CreatedAt r1 = r_CreatedAt r2 ∧ (r_ID r1 ≤ r_ID r2)%N).
(** ORDER BY created_at ASC, id ASC *)
Definition oldest_first (r1 r2 : Row) : Prop :=
  r_CreatedAt r1 < r_CreatedAt r2 ∨ (r_CreatedAt r1 = r_CreatedAt r2 ∧ (r_ID r1 ≤ r_ID r2)%N).
(** ORDER BY id ASC *)
Definition by_id (r1 r2 : Row) : Prop := (r_ID r1 ≤ r_ID r2)%N.
#[global] Instance newest_first_dec : RelDecision newest_first.
Proof. intros r1 r2. unfold newest_first. apply _. Defined.
#[global] Instance oldest_first_dec : RelDecision oldest_first.
Proof. intros r1 r2. unfold oldest_first. apply _. Defined.
#[global] Instance by_id_dec : RelDecision by_id.
Proof. intros r1 r2. unfold by_id. apply _. Defined.

Definition ListRisks (tenantID : UUID) (d : DB) : list Row :=
  merge_sort newest_first (select_where (λ r, bool_decide (r_TenantID r = tenantID)) (risks d)).

Definition ListRisksByIDs (tenantID : UUID) (ids : list UUID) (d : DB) : list Row :=
  merge_sort by_id
    (select_where (λ r, bool_decide (r_TenantID r = tenantID) && bool_decide (r_ID r ∈ ids)) (risks d)).

(** [inherent_score->'key'] *)
Definition arrow (doc key : string) : option json :=
  match decode_all doc with Some (JObj ms) => get ms key | _ => None end.

(** [inherent_score->>'key'].  A container is never compared with a key or cast
    to a number here, so its text is left out. *)
Definition arrow_text (doc key : string) : option string :=
  match arrow doc key with
  | Some (JStr s) => Some s
  | Some (JNum lit) => Some lit
  | Some (JBool b) => Some (if b then "true" else "false")
  | _ => None
  end.

(** LIMIT 1 without ORDER BY. *)
Definition GetRiskByAggregationKey {PL : Planner} (tenantID : UUID) (key : string) : Query Row := λ d,
  (one (plan (select_where (λ r, bool_decide (r_TenantID r = tenantID) &&
                                 bool_decide (arrow_text (r_InherentScore r) "aggregation_key" = Some key)) (risks d))), d).

(** Cascades to the links and aggregations, restricted by incidents. *)
Definition DeleteRisk (tenantID id : UUID) : Query () := λ d,
  if bool_decide ((tenantID, id) ∈ incident_risks d) then (Err PgError, d)
  else
    (Ok (), mkDB (filter (λ r, at_key tenantID id r = false) (risks d))
              (filter (λ l, ¬ (l_TenantID l = tenantID ∧ l_RiskID l = id)) (risk_control_links d))
              (org_units d) (org_themes d)
              (filter (λ g, ¬ (g_TenantID g = tenantID ∧ (g_Parent g = id ∨ g_Child g = id))) (risk_aggregations d))
              (controls d) (incident_risks d)).

(** ** Control links *)

Definition in_unit_interval (n : numeric) : bool :=
  match n with NumericNaN => false | Numeric n => (0 <=? n) && (n <=? 1000) end.

Definition link_at (tenantID riskID controlID : UUID) (l : Link) : bool :=
  bool_decide (l_TenantID l = tenantID) && bool_decide (l_RiskID l = riskID) && bool_decide (l_ControlID l = controlID).

Definition link_refs (d : DB) (l : Link) : bool :=
  bool_decide ((l_TenantID l, l_ControlID l) ∈ controls d) && has_risk d (l_TenantID l) (l_RiskID l).

Definition check_link (l : Link) : bool :=
  in_unit_interval (l_DesignScore l) && in_unit_interval (l_WeightDesign l) &&
  in_unit_interval (l_WeightOperation l) && in_unit_interval (l_WeightCoverage l).

(** The defaults of migration 029. *)
Definition LinkRiskControl (now : Time) (riskID controlID tenantID : UUID) : Query () := λ d,
  let l := mkLink riskID controlID tenantID (Numeric 500) (Numeric 300) (Numeric 500) (Numeric 200) now in
  if existsb (link_at tenantID riskID controlID) (risk_control_links d) then (Ok (), d)
  else if link_refs d l then (Ok (), set_links d (risk_control_links d ++ [l]))
  else (Err PgError, d).

Definition reweigh (new l : Link) : Link :=
  mkLink (l_RiskID l) (l_ControlID l) (l_TenantID l) (l_DesignScore new) (l_WeightDesign new) (l_WeightOperation new)
    (l_WeightCoverage new) (l_CreatedAt l).

Definition LinkRiskControlWithWeights (now : Time) (riskID controlID tenantID : UUID) (design wD wO wC : numeric)
  : Query () := λ d,
  let l := mkLink riskID controlID tenantID design wD wO wC now in
  if negb (check_link l) then (Err PgError, d)
  else if existsb (link_at tenantID riskID controlID) (risk_control_links d)
  then (Ok (), set_links d (update_where (link_at tenantID riskID controlID) (reweigh l) (risk_control_links d)))
  else if link_refs d l then (Ok (), set_links d (risk_control_links d ++ [l]))
  else (Err PgError, d).

(** ORDER BY created_at ASC, control_id ASC *)
Definition link_order (a b : Link) : Prop :=
  l_CreatedAt a < l_CreatedAt b ∨ (l_CreatedAt a = l_CreatedAt b ∧ (l_ControlID a ≤ l_ControlID b)%N).
#[global] Instance link_order_dec : RelDecision link_order.
Proof. intros a b. unfold link_order. apply _. Defined.

Definition ListRiskControlLinkWeights (tenantID riskID : UUID) (d : DB) : list Link :=
  merge_sort link_order
    (select_where (λ l, bool_decide (l_TenantID l = tenantID) && bool_decide (l_RiskID l = riskID)) (risk_control_links d)).

Definition ListRiskControlLinks (tenantID riskID : UUID) (d : DB) : list UUID :=
  l_ControlID <$> ListRiskControlLinkWeights tenantID riskID d.

Definition ListRiskIDsLinkedToControl (tenantID controlID : UUID) (d : DB) : list UUID :=
  merge_sort (λ a b : UUID, (a ≤ b)%N)
    (l_RiskID <$> select_where (λ l, bool_decide (l_TenantID l = tenantID) && bool_decide (l_ControlID l = controlID))
                    (risk_control_links d)).

(** ** Aggregation links *)

Definition LinkRiskAggregation (now : Time) (parent child : UUID) (ruleID : option UUID) (tenantID : UUID)
  : Query () := λ d,
  if bool_decide (parent = child) then (Err PgError, d)
  else if existsb (λ g, bool_decide (g_Parent g = parent) && bool_decide (g_Child g = child)) (risk_aggregations d)
  then (Ok (), d)
  else if has_risk d tenantID parent && has_risk d tenantID child
  then (Ok (), set_aggregations d (risk_aggregations d ++ [mkAgg parent child ruleID tenantID now]))
  else (Err PgError, d).

(** ORDER BY created_at ASC, child_risk_id ASC *)
Definition agg_order (a b : Aggregation) : Prop :=
  g_CreatedAt a < g_CreatedAt b ∨ (g_CreatedAt a = g_CreatedAt b ∧ (g_Child a ≤ g_Child b)%N).
#[global] Instance agg_order_dec : RelDecision agg_order.
Proof. intros a b. unfold agg_order. apply _. Defined.

Definition ListRiskAggregationChildren (tenantID parent : UUID) (d : DB) : list UUID :=
  g_Child <$> merge_sort agg_order
    (select_where (λ g, bool_decide (g_TenantID g = tenantID) && bool_decide (g_Parent g = parent)) (risk_aggregations d)).

(** ** Organizational units *)

Definition find_unit (d : DB) (tenantID id : UUID) : option OrgUnit :=
  head (select_where (unit_at tenantID id) (org_units d)).

Definition GetOrgUnitByID (tenantID id : UUID) : Query OrgUnit := λ d,
  (one (select_where (unit_at tenantID id) (org_units d)), d).

(** The recursive query: the unit, then the unit its parent_id names, and so
    on.  [None] when [fuel] steps do not reach the end of the chain. *)
Fixpoint chain (fuel : nat) (d : DB) (tenantID id : UUID) : option (list UUID) :=
  match find_unit d tenantID id with
  | None => Some []
  | Some u =>
      match fuel with
      | O => None
      | S fuel =>
          match o_ParentID u with
          | None => Some [id]
          | Some p => rest ← chain fuel d tenantID p; Some (id :: rest)
          end
      end
  end.

(** A chain longer than the table never ends: UNION ALL keeps no memory of the
    rows it has produced.  The statement then does not return. *)
Definition ParentChainIDs (tenantID id : UUID) : Query (list UUID) := λ d,
  match chain (length (org_units d)) d tenantID id with
  | Some ids => (Ok ids, d)
  | None => (Err PgError, d)
  end.

(** level, name under the collation of the database, id *)
Definition level_rank (l : string) : nat :=
  if bool_decide (l = "team") then 0 else if bool_decide (l = "org") then 1 else 2.

Section UnitOrder.
Context (collate : string → string → Prop) `{!RelDecision collate}.
Definition unit_order (a b : OrgUnit) : Prop :=
  (level_rank (o_Level a) < level_rank (o_Level b))%nat ∨
  (level_rank (o_Level a) = level_rank (o_Level b) ∧
   ((o_Name a ≠ o_Name b ∧ collate (o_Name a) (o_Name b)) ∨ (o_Name a = o_Name b ∧ (o_ID a ≤ o_ID b)%N))).
#[global] Instance unit_order_dec : RelDecision unit_order.
Proof using RelDecision0. intros a b. unfold unit_order. apply _. Defined.

Definition ListOrgUnitsQ (tenantID : UUID) (d : DB) : list OrgUnit :=
  merge_sort unit_order (select_where (λ u, bool_decide (o_TenantID u = tenantID)) (org_units d)).
End UnitOrder.

(** The primary key, the CHECK on the authorities, the enumerated level, and the
    foreign key of [parent_id] (NULL references nothing). *)
Definition authorities_array (doc : string) : bool :=
  match decode_all doc with Some (JArr _) => true | _ => false end.

Definition check_unit (d : DB) (u : OrgUnit) : bool :=
  bool_decide (o_Level u ∈ Levels) && authorities_array (o_AcceptanceAuthorities u) &&
  match o_ParentID u with None => true | Some p => has_unit d (o_TenantID u) p end.

Section UnitStatements.
Context {JB : JsonB}.

Definition CreateOrgUnitQ (id tenantID : UUID) (name : string) (parentID : option UUID) (level authorities : string)
  : Query OrgUnit := λ d,
  match jsonb_in authorities with
  | None => (Err PgError, d)
  | Some a =>
      let u := mkUnit id tenantID name parentID level a in
      let d' := set_units d (org_units d ++ [u]) in
      if negb (bool_decide (id ∈ (o_ID <$> org_units d))) && check_unit d' u then (Ok u, d') else (Err PgError, d)
  end.

Definition set_unit (name : string) (parentID : option UUID) (level authorities : string) (u : OrgUnit) : OrgUnit :=
  mkUnit (o_ID u) (o_TenantID u) name parentID level authorities.

Definition UpdateOrgUnitQ (tenantID id : UUID) (name : string) (parentID : option UUID) (level authorities : string)
  : Query OrgUnit := λ d,
  match jsonb_in authorities with
  | None => (Err PgError, d)
  | Some a =>
      match updated_rows (unit_at tenantID id) (set_unit name parentID level a) (org_units d) with
      | [] => (Err NoRows, d)
      | u :: _ =>
          if check_unit d u
          then (Ok u, set_units d (update_where (unit_at tenantID id) (set_unit name parentID level a) (org_units d)))
          else (Err PgError, d)
      end
  end.
End UnitStatements.

(** ON DELETE SET NULL over the columns (tenant_id, parent_id) and (tenant_id,
    org_unit_id): every referencing row gets a NULL tenant_id, which is declared
    NOT NULL, so the statement fails as soon as there is one. *)
Definition DeleteOrgUnitQ (tenantID id : UUID) : Query () := λ d,
  let gone := filter (λ u, unit_at tenantID id u = false) (org_units d) in
  if existsb (λ u, bool_decide (o_TenantID u = tenantID) && bool_decide (o_ParentID u = Some id)) gone ||
     existsb (λ r, bool_decide (r_TenantID r = tenantID) && bool_decide (r_OrgUnitID r = Some id)) (risks d)
  then (Err PgError, d)
  else (Ok (), set_units d gone).

(** ** Themes *)

Definition visible_theme (tenantID : UUID) (t : OrgTheme) : bool :=
  bool_decide (t_TenantID t = None) || bool_decide (t_TenantID t = Some tenantID).

Definition ListAllVisibleThemes (tenantID : UUID) (d : DB) : list OrgTheme :=
  select_where (visible_theme tenantID) (org_themes d).

End RiskDB.
