(* ===== verification/RiskStore.v ===== *)
(** * The risk store

    Models internal/risk: store.go, orgunit.go, theme.go, aggregate.go and
    hierarchy.go over the tables of [RiskDB], with the grouping queries of
    risks.sql and risk_hierarchy.sql. *)

From Stdlib Require Import Ascii SpecFloat.
From S2P Require Import Prelude GoTime Tenancy Json Sha256 Float64 Scope GoJson Risk RiskDB.

Module RiskStore.
Import Risk RiskDB.

(** The surroundings of a call: request context, pool, clock of the database,
    and what [uuid.New] draws. *)
Record Env := mkEnv { env_ctx : Context; env_infra : Infra; env_now : Time; env_newID : UUID }.

(** Runs a statement; [NoRows] becomes [e] and any other failure an error that
    names the statement. *)
Definition run {A} (stmt : string) (m : Tx DB QueryErr A) (e : Error) : Tx DB Error A :=
  tx_try m (λ r, match r with Ok a => mret a | Err NoRows => tx_fail e | Err PgError => tx_fail (ErrStatement stmt) end).

(** A statement for which no rows is not a case of its own. *)
Definition exec {A} (stmt : string) (m : Tx DB QueryErr A) : Tx DB Error A := run stmt m (ErrStatement stmt).

Section Store.
Context {UT : UUIDText} {JB : JsonB} {JS : JSONSchema} {GA : GoArch} {GM : GoMath} {GS : GoStrings} {PL : Planner}.

Definition inTx {A} (env : Env) (fn : UUID → Tx DB Error A) : Tx DB Error A :=
  Tenancy.inTx (env_infra env) (env_ctx env) fn.

(** ** Risks *)

Record CreateInput := mkCreate {
  in_Title : string;
  in_Description : string;
  in_Category : string;
  in_Methodology : string;
  in_InherentScore : string;
  in_Treatment : string;
  in_TreatmentOwner : string;
  in_ResidualScore : string;
  in_ReviewDueAt : option Time;
  in_AcceptedUntil : option Time;
  in_Accepter : string;
  in_InstrumentReference : string;
  in_LinkedControlIDs : list UUID;
}.

Definition defaultResidual (b : string) : string := if bool_decide (b = "") then "{}" else b.

(** The scores [Create] stores: FAIR scores are normalized, and an omitted
    residual starts at the inherent score. *)
Definition createScores (methodology inherent residual : string) : result Error (string * string) :=
  if bool_decide (methodology = Fair) then
    match NormalizeFairScoreJSON inherent with
    | Err _ => Err ErrInherentScoreInvalid
    | Ok normalized =>
        if bool_decide (residual = "") then Ok (normalized, normalized)
        else
          match NormalizeFairScoreJSON residual with
          | Err _ => Err ErrInherentScoreInvalid
          | Ok r => Ok (normalized, r)
          end
    end
  else Ok (inherent, residual).

Definition Create (env : Env) (i : CreateInput) : Tx DB Error RiskView :=
  let methodology := if bool_decide (in_Methodology i = "") then DefaultMethodology else in_Methodology i in
  match ValidateInherentScore methodology (in_InherentScore i) with
  | Some e => tx_fail e
  | None =>
      match createScores methodology (in_InherentScore i) (in_ResidualScore i) with
      | Err e => tx_fail e
      | Ok (inherent, residual) =>
          match ValidateTreatment (mkTreatment (in_Treatment i) (bool_decide (is_Some (in_AcceptedUntil i)))
                  (in_Accepter i) (in_InstrumentReference i) (length (in_LinkedControlIDs i))) with
          | Some e => tx_fail e
          | None =>
              inTx env (λ tenantID,
                row ← exec "create risk"
                        (CreateRisk (env_now env) (env_newID env) tenantID (in_Title i) (in_Description i)
                           (in_Category i) methodology inherent (in_Treatment i) (in_TreatmentOwner i)
                           (defaultResidual residual) (in_ReviewDueAt i) (in_AcceptedUntil i) (in_Accepter i)
                           (in_InstrumentReference i));
                _ ← tx_iter (λ c, exec "link risk to control" (LinkRiskControl (env_now env) (r_ID row) c tenantID))
                      (in_LinkedControlIDs i);
                mret (mkView row (in_LinkedControlIDs i)))
          end
      end
  end.

Definition Get (env : Env) (id : UUID) : Tx DB Error RiskView :=
  inTx env (λ tenantID,
    row ← run "get risk" (GetRiskByID tenantID id) ErrNotFound;
    links ← tx_gets (ListRiskControlLinks tenantID id);
    mret (mkView row links)).

(** *** Listing *)

Record ListFilter := mkFilter {
  f_Treatment : string;
  f_Category : string;
  f_Methodology : string;
  f_SortResidualAge : bool;
  f_Theme : string;
  f_OrgUnitID : option UUID;
}.

Definition ParseListSort (raw : string) : option bool :=
  if bool_decide (raw = "") then Some false else if bool_decide (raw = "residual,age") then Some true else None.

Definition matches (want have : string) : bool := bool_decide (want = "") || bool_decide (have = want).

Definition kept (f : ListFilter) (r : Row) : bool :=
  matches (f_Treatment f) (r_Treatment r) && matches (f_Category f) (r_Category r) &&
  matches (f_Methodology f) (r_Methodology r) &&
  (bool_decide (f_Theme f = "") || bool_decide (f_Theme f ∈ r_Themes r)) &&
  match f_OrgUnitID f with None => true | Some u => bool_decide (r_OrgUnitID r = Some u) end.

(** [sort.SliceStable] *)
Fixpoint insert_stable {A} (less : A → A → bool) (x : A) (l : list A) : list A :=
  match l with
  | [] => [x]
  | y :: l => if less x y then x :: y :: l else y :: insert_stable less x l
  end.
Definition SliceStable {A} (less : A → A → bool) (l : list A) : list A :=
  fold_left (λ acc x, insert_stable less x acc) l [].

Definition riskier (a b : Row * float64) : bool :=
  if negb (feq a.2 b.2) then flt b.2 a.2 else Before (r_CreatedAt a.1) (r_CreatedAt b.1).

Definition sortByResidualThenAge (rs : list Row) : list Row :=
  (SliceStable riskier (map (λ r, (r, residualMagnitude (r_ResidualScore r))) rs)).*1.

Definition List (env : Env) (f : ListFilter) : Tx DB Error (list Row) :=
  inTx env (λ tenantID,
    rows ← tx_gets (ListRisks tenantID);
    let out := filter (λ r, kept f r = true) rows in
    mret (if f_SortResidualAge f then sortByResidualThenAge out else out)).

(** *** The heat map *)

(** The cast of a text to int4. *)
Definition int4in (s : string) : option Z :=
  let '(neg, ds) := match s with
                    | String c t => if bool_decide (code c = 45%N) then (true, t) else (false, s)
                    | "" => (false, "")
                    end in
  if bool_decide (ds = "") || negb (all_digits ds) then None
  else
    let n := if neg then - digits_val ds 0 else digits_val ds 0 in
    if (- 2 ^ 31 <=? n) && (n <? 2 ^ 31) then Some n else None.

Definition is_number (doc key : string) : bool := match arrow doc key with Some (JNum _) => true | _ => false end.
Definition int_at (doc key : string) : option Z := t ← arrow_text doc key; int4in t.

Record HeatmapCell := mkCell { hc_Likelihood : Z; hc_Impact : Z; hc_Count : Z }.

(** GROUP BY with COUNT, in the order of the keys. *)
Definition group_count {K} `{!EqDecision K} (le : K → K → Prop) `{!RelDecision le} (keys : list K) : list (K * Z) :=
  map (λ k, (k, Z.of_nat (length (filter (λ k', k' = k) keys)))) (merge_sort le (remove_dups keys)).

Definition cell_le (a b : Z * Z) : Prop := a.1 < b.1 ∨ (a.1 = b.1 ∧ a.2 ≤ b.2).
#[global] Instance cell_le_dec : RelDecision cell_le.
Proof using. intros a b. unfold cell_le. apply _. Defined.

Definition aggregable_in (tenantID : UUID) (r : Row) : bool :=
  bool_decide (r_TenantID r = tenantID) && IsAggregableMethodology (r_Methodology r).

(** The casts of the WHERE clause are evaluated row by row, and one that fails
    fails the statement. *)
Definition heatmap_key (r : Row) : option (option (Z * Z)) :=
  let doc := r_InherentScore r in
  if is_number doc "likelihood" && is_number doc "impact" then
    l ← int_at doc "likelihood";
    if (1 <=? l) && (l <=? 5) then
      i ← int_at doc "impact";
      Some (if (1 <=? i) && (i <=? 5) then Some (l, i) else None)
    else Some None
  else Some None.

Definition HeatmapBuckets (tenantID : UUID) : Tx DB QueryErr (list HeatmapCell) := λ d,
  match mapM heatmap_key (select_where (aggregable_in tenantID) (risks d)) with
  | None => (Err PgError, d)
  | Some keys => (Ok (map (λ kc, mkCell kc.1.1 kc.1.2 (int32 kc.2)) (group_count cell_le (omap id keys))), d)
  end.

Definition Heatmap (env : Env) : Tx DB Error (list HeatmapCell) :=
  inTx env (λ tenantID, exec "heatmap" (HeatmapBuckets tenantID)).

(** *** Deletion and control links *)

Definition Delete (env : Env) (id : UUID) : Tx DB Error () :=
  inTx env (λ tenantID,
    _ ← run "delete risk get" (GetRiskByID tenantID id) ErrNotFound;
    exec "delete risk" (DeleteRisk tenantID id)).

Record LinkControlInput := mkLinkInput {
  li_RiskID : UUID;
  li_ControlID : UUID;
  li_DesignScore : float64;
  li_DesignScoreSet : bool;
  li_WeightDesign : float64;
  li_WeightOperation : float64;
  li_WeightCoverage : float64;
  li_WeightsSet : bool;
}.

Definition out_of_range (set : bool) (v : float64) : bool := set && (flt v fzero || flt fone v).

Definition defaultIfUnset (set : bool) (v def : float64) : float64 := if set then v else def.

(** [pgtype.Numeric.Scan(fmt.Sprintf("%.3f", f))]; the infinities do not pass the
    range check. *)
Definition floatToNumeric (f : float64) : numeric :=
  match thousandths f with Some n => Numeric n | None => NumericNaN end.

Definition LinkControl (env : Env) (i : LinkControlInput) : Tx DB Error () :=
  if out_of_range (li_DesignScoreSet i) (li_DesignScore i) || out_of_range (li_WeightsSet i) (li_WeightDesign i) ||
     out_of_range (li_WeightsSet i) (li_WeightOperation i) || out_of_range (li_WeightsSet i) (li_WeightCoverage i)
  then tx_fail ErrLinkWeightOutOfRange
  else
    inTx env (λ tenantID,
      _ ← run "link control: get risk" (GetRiskByID tenantID (li_RiskID i)) ErrNotFound;
      known ← tx_gets (λ d, bool_decide ((tenantID, li_ControlID i) ∈ controls d));
      if negb known then tx_fail ErrControlNotFound
      else if negb (li_DesignScoreSet i) && negb (li_WeightsSet i) then
        exec "link control" (LinkRiskControl (env_now env) (li_RiskID i) (li_ControlID i) tenantID)
      else
        exec "link control with weights"
          (LinkRiskControlWithWeights (env_now env) (li_RiskID i) (li_ControlID i) tenantID
             (floatToNumeric (defaultIfUnset (li_DesignScoreSet i) (li_DesignScore i) (float_of_thousandths 500)))
             (floatToNumeric (defaultIfUnset (li_WeightsSet i) (li_WeightDesign i) (float_of_thousandths 300)))
             (floatToNumeric (defaultIfUnset (li_WeightsSet i) (li_WeightOperation i) (float_of_thousandths 500)))
             (floatToNumeric (defaultIfUnset (li_WeightsSet i) (li_WeightCoverage i) (float_of_thousandths 200))))).

(** ** Organizational units *)

Record OrgUnitInput := mkUnitInput {
  ui_Name : string;
  ui_ParentID : option UUID;
  ui_Level : string;
  ui_AcceptanceAuthorities : string;
}.

Definition defaultAuthoritiesJSON (s : string) : string := if bool_decide (s = "") then "[]" else s.

(** The domain shape: an empty document is shown as an empty object. *)
Definition orgUnitFromRow (u : OrgUnit) : OrgUnit :=
  mkUnit (o_ID u) (o_TenantID u) (o_Name u) (o_ParentID u) (o_Level u)
    (if bool_decide (o_AcceptanceAuthorities u = "") then "{}" else o_AcceptanceAuthorities u).

Definition CreateOrgUnit (env : Env) (i : OrgUnitInput) : Tx DB Error OrgUnit :=
  if negb (isValidLevel (ui_Level i)) then tx_fail ErrInvalidLevel
  else
    inTx env (λ tenantID,
      _ ← match ui_ParentID i with
          | None => mret ()
          | Some p =>
              parentChain ← exec "parent chain lookup" (ParentChainIDs tenantID p);
              if bool_decide (length parentChain = 0%nat) then tx_fail ErrNotFound else mret ()
          end;
      row ← exec "create org_unit"
              (CreateOrgUnitQ (env_newID env) tenantID (ui_Name i) (ui_ParentID i) (ui_Level i)
                 (defaultAuthoritiesJSON (ui_AcceptanceAuthorities i)));
      mret (orgUnitFromRow row)).

Definition GetOrgUnit (env : Env) (id : UUID) : Tx DB Error OrgUnit :=
  inTx env (λ tenantID, row ← run "get org_unit" (GetOrgUnitByID tenantID id) ErrNotFound; mret (orgUnitFromRow row)).

Definition ListOrgUnits (collate : string → string → Prop) `{!RelDecision collate} (env : Env) : Tx DB Error (list OrgUnit) :=
  inTx env (λ tenantID, rows ← tx_gets (ListOrgUnitsQ collate tenantID); mret (orgUnitFromRow <$> rows)).

(** The two halves of [UpdateOrgUnit]: the check reads, the write stores. *)
Definition checkParent (tenantID id : UUID) (parentID : option UUID) : Tx DB Error () :=
  match parentID with
  | None => mret ()
  | Some p =>
      if bool_decide (p = id) then tx_fail ErrCycleDetected
      else
        ids ← exec "parent chain lookup" (ParentChainIDs tenantID p);
        if bool_decide (length ids = 0%nat) then tx_fail ErrNotFound
        else if bool_decide (id ∈ ids) then tx_fail ErrCycleDetected
        else mret ()
  end.

Definition writeUnit (tenantID id : UUID) (i : OrgUnitInput) : Tx DB Error OrgUnit :=
  row ← run "update org_unit"
          (UpdateOrgUnitQ tenantID id (ui_Name i) (ui_ParentID i) (ui_Level i)
             (defaultAuthoritiesJSON (ui_AcceptanceAuthorities i))) ErrNotFound;
  mret (orgUnitFromRow row).

Definition UpdateOrgUnit (env : Env) (id : UUID) (i : OrgUnitInput) : Tx DB Error OrgUnit :=
  if negb (isValidLevel (ui_Level i)) then tx_fail ErrInvalidLevel
  else inTx env (λ tenantID, _ ← checkParent tenantID id (ui_ParentID i); writeUnit tenantID id i).

Definition DeleteOrgUnit (env : Env) (id : UUID) : Tx DB Error () :=
  inTx env (λ tenantID,
    _ ← run "get org_unit pre-delete" (GetOrgUnitByID tenantID id) ErrNotFound;
    exec "delete org_unit" (DeleteOrgUnitQ tenantID id)).

(** ** Themes *)

Record Theme := mkThemeView { th_Name : string; th_Description : string; th_Default : bool }.

Definition theme_le (a b : Theme) : Prop := String.le (th_Name a) (th_Name b).
#[global] Instance theme_le_dec : RelDecision theme_le.
Proof using. intros a b. unfold theme_le. apply _. Defined.

(** The order of two themes with the same name is left open by [sort.Slice]. *)
Definition ListVisibleThemes (env : Env) : Tx DB Error (list Theme) :=
  inTx env (λ tenantID,
    rows ← tx_gets (ListAllVisibleThemes tenantID);
    mret (merge_sort theme_le
            (plan (map (λ t, mkThemeView (t_Name t) (t_Description t) (bool_decide (t_TenantID t = None))) rows)))).

Definition validateThemesAgainstVocab (tenantID : UUID) (themes : list string) : Tx DB Error () :=
  if bool_decide (length themes = 0%nat) then mret ()
  else
    rows ← tx_gets (ListAllVisibleThemes tenantID);
    let bad := filter (λ t, t ∉ (t_Name <$> rows)) themes in
    if bool_decide (0 < length bad)%nat then tx_fail (ErrUnknownTheme bad) else mret ().

Definition AssignThemes (env : Env) (riskID : UUID) (themes : list string) : Tx DB Error RiskView :=
  let normalised := normaliseThemes themes in
  inTx env (λ tenantID,
    _ ← validateThemesAgainstVocab tenantID normalised;
    row ← run "update risk themes" (UpdateRiskThemes (env_now env) tenantID riskID normalised) ErrNotFound;
    links ← tx_gets (ListRiskControlLinks tenantID riskID);
    mret (mkView row links)).

Definition GetRiskThemes (env : Env) (riskID : UUID) : Tx DB Error (list string) :=
  inTx env (λ tenantID, row ← run "get risk" (GetRiskByID tenantID riskID) ErrNotFound; mret (r_Themes row)).

End Store.
End RiskStore.
