(* ===== verification/RiskAggregate.v ===== *)
(** * Manual aggregation and the hierarchy rollups

    Models internal/risk/aggregate.go and hierarchy.go with the queries of
    risk_hierarchy.sql. *)

From Stdlib Require Import Ascii SpecFloat.
From S2P Require Import Prelude GoTime Tenancy Json Sha256 Float64 Scope GoJson Risk RiskDB RiskStore.

Module RiskAggregate.
Import Risk RiskDB RiskStore.

Record AggregateInput := mkInput {
  ParentTitle : string;
  ParentLevel : string;
  ParentOrgUnitID : option UUID;
  SeverityFunction : string;
  ChildRiskIDs : list UUID;
}.

Record AggregateResult := mkResult {
  res_Parent : RiskView;
  res_LinkedChildren : list UUID;
  res_Severity : Z;
  res_Likelihood : Z;
  res_Impact : Z;
  res_ChildCount : Z;
  res_SeverityFunction : string;
  res_AggregationKey : string;
}.

Definition severity_functions : list string := ["max"; "weighted_max"; "sum"].

(** [json.Marshal] of the score map: keys in order. *)
Definition aggregate_score (key : string) (childCount impact likelihood severity : Z) (fn : string) : json :=
  JObj [("aggregation_key", JStr key); ("child_count", JNum (Itoa childCount)); ("impact", JNum (Itoa impact));
        ("likelihood", JNum (Itoa likelihood)); ("severity", JNum (Itoa severity)); ("severity_function", JStr fn)].

Section Aggregate.
Context {UT : UUIDText} {JB : JsonB} {GA : GoArch} {GM : GoMath} {GS : GoStrings} {PL : Planner}.

(** The loop over the child rows. *)
Fixpoint childScores (rows : list Row) : result Error (list ChildScore) :=
  match rows with
  | [] => Ok []
  | r :: rows =>
      if negb (IsAggregableMethodology (r_Methodology r)) then Err ErrIncompatibleMethodology
      else
        match likelihoodImpactFromInherent (r_InherentScore r) with
        | Err e => Err e
        | Ok (l, i) => match childScores rows with Err e => Err e | Ok ss => Ok (mkScore l i :: ss) end
        end
  end.

(** The parent found under the key is returned as it is. *)
Definition existingResult (tenantID : UUID) (key : string) (existing : Row) (d : DB) : AggregateResult :=
  let linked := ListRiskAggregationChildren tenantID (r_ID existing) d in
  let meta := extractAggregationMeta (r_InherentScore existing) in
  mkResult (mkView existing []) linked (meta_Severity meta) (meta_Likelihood meta) (meta_Impact meta)
    (Z.of_nat (length linked)) (meta_SeverityFunction meta) key.

Definition createParent (env : Env) (i : AggregateInput) (tenantID : UUID) (key : string) (children : list UUID)
  : Tx DB Error AggregateResult :=
  childRows ← tx_gets (ListRisksByIDs tenantID children);
  if negb (bool_decide (length childRows = length children)) then tx_fail ErrChildrenNotFound
  else
    scores ← tx_lift (childScores childRows);
    severity ← tx_lift (ComputeSeverity (SeverityFunction i) scores);
    let '(likelihood, impact) := DeriveGridCell severity in
    let themes := normaliseThemes (plan (remove_dups (childRows ≫= r_Themes))) in
    let n := Z.of_nat (length children) in
    match childRows with
    | [] => tx_fail (ErrStatement "index out of range")
    | first :: _ =>
        row ← exec "create aggregate parent risk"
                (CreateAggregateRisk (env_now env) (env_newID env) tenantID (ParentTitle i)
                   ("Manual aggregation of " +:+ Itoa n +:+ " child risks via " +:+ SeverityFunction i +:+ ".")
                   (r_Category first) Qualitative5x5
                   (render go_quote (aggregate_score key n impact likelihood severity (SeverityFunction i)))
                   "avoid" "" "{}" "" "" (ParentLevel i) (ParentOrgUnitID i) themes);
        _ ← tx_iter (λ c, exec "link aggregation child"
                            (LinkRiskAggregation (env_now env) (env_newID env) c None tenantID)) children;
        mret (mkResult (mkView row []) children severity likelihood impact n (SeverityFunction i) key)
    end.

Definition Aggregate (env : Env) (i : AggregateInput) : Tx DB Error AggregateResult :=
  if bool_decide (ParentTitle i = "") then tx_fail ErrTitleRequired
  else if bool_decide (length (ChildRiskIDs i) = 0%nat) then tx_fail ErrEmptyChildren
  else if negb (isValidLevel (ParentLevel i)) then tx_fail ErrInvalidLevel
  else if negb (bool_decide (SeverityFunction i ∈ severity_functions)) then tx_fail ErrUnknownSeverityFunction
  else
    let children := uniqueUUIDs (ChildRiskIDs i) in
    let key := AggregationKey (ParentTitle i) children in
    inTx env (λ tenantID,
      tx_try (GetRiskByAggregationKey tenantID key) (λ found,
        match found with
        | Ok existing => tx_gets (existingResult tenantID key existing)
        | Err NoRows => createParent env i tenantID key children
        | Err PgError => tx_fail (ErrStatement "aggregation key lookup")
        end)).

(** The children the live recomputation can read; the others are skipped. *)
Definition liveScores (rows : list Row) : list ChildScore :=
  omap (λ r, if IsAggregableMethodology (r_Methodology r) then
               match likelihoodImpactFromInherent (r_InherentScore r) with
               | Ok (l, i) => Some (mkScore l i)
               | Err _ => None
               end
             else None) rows.

Definition LiveAggregation (env : Env) (parentID : UUID) : Tx DB Error AggregateResult :=
  inTx env (λ tenantID,
    parent ← run "get parent" (GetRiskByID tenantID parentID) ErrNotFound;
    let meta := extractAggregationMeta (r_InherentScore parent) in
    let fn := meta_SeverityFunction meta in
    if bool_decide (fn = "") then tx_fail ErrNotFound
    else
      linked ← tx_gets (ListRiskAggregationChildren tenantID parentID);
      let empty := mkResult (mkView parent []) linked 0 1 1 0 fn (meta_AggregationKey meta) in
      if bool_decide (length linked = 0%nat) then mret empty
      else
        rows ← tx_gets (ListRisksByIDs tenantID linked);
        let scores := liveScores rows in
        if bool_decide (length scores = 0%nat) then mret empty
        else
          severity ← tx_lift (ComputeSeverity fn scores);
          let '(l, i) := DeriveGridCell severity in
          mret (mkResult (mkView parent []) linked severity l i (Z.of_nat (length scores)) fn (meta_AggregationKey meta))).

(** ** Hierarchy rollups *)

(** The severity of a row as the rollup queries compute it: the explicit field,
    else the product, else 0; [None] when a cast or the product leaves int4. *)
Definition row_severity (doc : string) : option Z :=
  if is_number doc "severity" then int_at doc "severity"
  else if is_number doc "likelihood" && is_number doc "impact" then
    l ← int_at doc "likelihood"; i ← int_at doc "impact";
    if (- 2 ^ 31 <=? l * i) && (l * i <? 2 ^ 31) then Some (l * i) else None
  else Some 0.

Definition unit_cell_le (a b : UUID * Z) : Prop := (a.1 < b.1)%N ∨ (a.1 = b.1 ∧ a.2 ≤ b.2).
#[global] Instance unit_cell_le_dec : RelDecision unit_cell_le.
Proof using. intros a b. unfold unit_cell_le. apply _. Defined.

Definition bound_rows (tenantID : UUID) (d : DB) : list (UUID * Row) :=
  omap (λ r, match r_OrgUnitID r with Some u => Some (u, r) | None => None end)
    (select_where (aggregable_in tenantID) (risks d)).

Definition RiskCountsByOrgUnitQ (tenantID : UUID) : Tx DB QueryErr (list (UUID * Z * Z)) := λ d,
  match mapM (λ ur, s ← row_severity (r_InherentScore ur.2); Some (ur.1, s)) (bound_rows tenantID d) with
  | None => (Err PgError, d)
  | Some keys => (Ok (map (λ kc, (kc.1.1, kc.1.2, int32 kc.2)) (group_count unit_cell_le keys)), d)
  end.

Record OrgUnitRiskCounts := mkCounts { oc_OrgUnitID : UUID; oc_Counts : gmap Z Z }.

(** Consecutive rows of one unit fold into one entry. *)
Fixpoint foldCounts (out : list OrgUnitRiskCounts) (rows : list (UUID * Z * Z)) : list OrgUnitRiskCounts :=
  match rows with
  | [] => out
  | (ou, sev, n) :: rows =>
      let fresh := mkCounts ou {[ sev := n ]} in
      foldCounts
        (match last out with
         | Some c =>
             if bool_decide (oc_OrgUnitID c = ou)
             then take (length out - 1) out ++ [mkCounts ou (<[ sev := default 0 (oc_Counts c !! sev) + n ]> (oc_Counts c))]
             else out ++ [fresh]
         | None => [fresh]
         end) rows
  end.

Definition RiskCountsByOrgUnit (env : Env) : Tx DB Error (list OrgUnitRiskCounts) :=
  inTx env (λ tenantID,
    rows ← exec "risk counts by org_unit" (RiskCountsByOrgUnitQ tenantID); mret (foldCounts [] rows)).

(** *** Themes by organizational unit *)

Record ThemeHeatmapCell := mkThemeCell {
  tc_Theme : string;
  tc_Builtin : bool;
  tc_OrgUnitID : UUID;
  tc_RiskCount : Z;
  tc_AggregateSeverity : Z;
}.

(** The axes of a cell: theme, whether it is built in, unit. *)
Definition axes : Type := string * bool * UUID.

Section ThemeGrid.
Context (collate : string → string → Prop) `{!RelDecision collate}.
(** ORDER BY theme_builtin DESC, theme_name, org_unit_id *)
Definition axes_le (a b : axes) : Prop :=
  let '(t1, b1, u1) := a in let '(t2, b2, u2) := b in
  (b1 = true ∧ b2 = false) ∨
  (b1 = b2 ∧ ((t1 ≠ t2 ∧ collate t1 t2) ∨ (t1 = t2 ∧ (u1 ≤ u2)%N))).
#[global] Instance axes_le_dec : RelDecision axes_le.
Proof using RelDecision0. intros [[t1 b1] u1] [[t2 b2] u2]. unfold axes_le. apply _. Defined.

(** unnest(themes) joined to the visible vocabulary. *)
Definition theme_rows (tenantID : UUID) (d : DB) : list (axes * Row) :=
  ur ← bound_rows tenantID d; slug ← r_Themes ur.2;
  t ← filter (λ t, t_Name t = slug) (ListAllVisibleThemes tenantID d);
  [((t_Name t, bool_decide (t_TenantID t = None), ur.1), ur.2)].

Definition RiskThemeOrgUnitGrid (tenantID : UUID) : Tx DB QueryErr (list ThemeHeatmapCell) := λ d,
  match mapM (λ ar, s ← row_severity (r_InherentScore ar.2); Some (ar.1, s)) (theme_rows tenantID d) with
  | None => (Err PgError, d)
  | Some keyed =>
      (Ok (map (λ k : axes,
             let sevs := (filter (λ kv : axes * Z, kv.1 = k) keyed).*2 in
             mkThemeCell k.1.1 k.1.2 k.2 (int32 (Z.of_nat (length sevs)))
               (fold_left Z.max sevs (default 0 (head sevs))))
             (merge_sort axes_le (remove_dups keyed.*1))), d)
  end.

Definition ThemeOrgUnitHeatmap (env : Env) : Tx DB Error (list ThemeHeatmapCell) :=
  inTx env (λ tenantID, exec "theme/org_unit heatmap" (RiskThemeOrgUnitGrid tenantID)).
End ThemeGrid.

(** *** FAIR exposure *)

(** NUMERIC: a coefficient and a power of ten. *)
Definition numeric_of (lit : string) : option (Z * Z) :=
  '(neg, m, e) ← split_number lit; Some (if (neg : bool) then - m else m, e).
Definition numeric_mul (a b : Z * Z) : Z * Z := (a.1 * b.1, a.2 + b.2).
Definition numeric_add (a b : Z * Z) : Z * Z :=
  let e := Z.min a.2 b.2 in (a.1 * 10 ^ (a.2 - e) + b.1 * 10 ^ (b.2 - e), e).

Definition numeric_at (doc key : string) : option (Z * Z) :=
  match arrow doc key with Some (JNum lit) => numeric_of lit | _ => None end.

Definition fair_exposure (doc : string) : Z * Z :=
  match numeric_at doc "annualized_loss_exposure" with
  | Some a => a
  | None =>
      match numeric_at doc "loss_event_frequency", numeric_at doc "loss_magnitude" with
      | Some a, Some b => numeric_mul a b
      | _, _ =>
          match numeric_at doc "lef", numeric_at doc "lm" with
          | Some a, Some b => numeric_mul a b
          | _, _ => (0, 0)
          end
      end
  end.

Record OrgUnitFairExposure := mkExposure { fe_OrgUnitID : UUID; fe_RiskCount : Z; fe_Exposure : float64 }.

Definition FairExposureByOrgUnit (env : Env) : Tx DB Error (list OrgUnitFairExposure) :=
  inTx env (λ tenantID, tx_gets (λ d,
    let rows := omap (λ r, match r_OrgUnitID r with Some u => Some (u, r) | None => None end)
                  (select_where (λ r, bool_decide (r_TenantID r = tenantID) && bool_decide (r_Methodology r = Fair)) (risks d)) in
    map (λ u,
      let mine := filter (λ ur : UUID * Row, ur.1 = u) rows in
      let '(m, e) := fold_left (λ acc ur, numeric_add acc (fair_exposure (r_InherentScore ur.2))) mine (0, 0) in
      mkExposure u (int32 (Z.of_nat (length mine))) (round_decimal (m <? 0) (Z.abs m) e))
      (merge_sort (λ a b : UUID, (a ≤ b)%N) (remove_dups rows.*1)))).

End Aggregate.
End RiskAggregate.
