(* ===== verification/RiskResidual.v ===== *)
(** * Residual risk: the deriver and its subscriber

    Models internal/risk/residual_store.go and residual_sub.go.  The evaluation
    engine is reached through the interface the source declares for it, and
    [Eval] is one implementation. *)

From Stdlib Require Import Ascii SpecFloat.
From S2P Require Import Prelude GoTime Tenancy Json Sha256 Float64 Scope GoJson Risk RiskDB RiskStore.
From S2P Require Import ScopeStore EvalState EvalQuery Eval.

(** [effectivenessEngine]; [S] is whatever state the engine keeps. *)
Class EffectivenessEngine (S : Type) := {
  eng_Effectiveness : Context → UUID → Tx S (Eval.Error) (Eval.Effectiveness);
  eng_ControlState : Context → UUID → string → Time → Tx S (Eval.Error) (list (Eval.EvalRow));
  eng_EvaluateControl : Context → UUID → string → Time → Tx S (Eval.Error) nat;
}.

(** [*eval.Engine] satisfies it. *)
Definition eval_engine `{!UUIDText, !CellResolver} opa postgres jsonpath deadline (infra : Infra) (clock : Time)
    (runID : UUID) (newID : nat → UUID) : EffectivenessEngine (Eval.DB) := {|
  eng_Effectiveness ctx id := Eval.EffectivenessOf (Eval.mkEnv ctx infra clock) id;
  eng_ControlState ctx id p asOf := Eval.ControlState (Eval.mkEnv ctx infra clock) id p asOf;
  eng_EvaluateControl ctx id trigger asOf :=
    Eval.EvaluateControl opa postgres jsonpath deadline (Eval.mkEnv ctx infra clock) runID newID id trigger asOf;
|}.

Module RiskResidual.
Import Risk RiskDB RiskStore.

Definition WarningNoControlsLinked : string := "no_controls_linked".

Record ControlBreakdown := mkBreakdown {
  bd_ControlID : UUID;
  bd_DesignScore : float64;
  bd_OperationalScore : float64;
  bd_CoverageScore : float64;
  bd_WeightDesign : float64;
  bd_WeightOperation : float64;
  bd_WeightCoverage : float64;
  bd_ControlEffectiveness : float64;
  bd_OperationalNoData : bool;
}.

Record ResidualResult := mkResidual {
  rr_RiskID : UUID;
  rr_InherentScore : float64;
  rr_ResidualScore : float64;
  rr_WeightedControlEffectiveness : float64;
  rr_Breakdown : list ControlBreakdown;
  rr_Warning : string;
}.

(** The columns are NOT NULL, so the value is always valid. *)
Definition numericToFloat (n : numeric) : float64 :=
  match n with NumericNaN => S754_nan | Numeric n => float_of_thousandths n end.

Section Deriver.
Context {UT : UUIDText} {JB : JsonB} {S : Type} {EE : EffectivenessEngine S}.

(** The risk tables and the engine's state. *)
Abbreviation World := (DB * S)%type.

Definition on_risks {A} (m : Tx DB Error A) : Tx World Error A := λ w,
  let '(r, d) := m w.1 in (r, (d, w.2)).
Definition on_engine {E A} (m : Tx S E A) : Tx World E A := λ w,
  let '(r, s) := m w.2 in (r, (w.1, s)).

Definition operationalScore (ctx : Context) (controlID : UUID) : Tx World Error (float64 * bool) :=
  tx_try (on_engine (eng_Effectiveness ctx controlID)) (λ r,
    match r with
    | Ok eff => mret (Eval.eff_PassRate eff, bool_decide (Eval.eff_TotalCount eff = 0%nat))
    | Err Eval.ErrControlNotFound => mret (fzero, true)
    | Err _ => tx_fail (ErrEngine "operational score")
    end).

Definition coverage_of (states : list (Eval.EvalRow)) : float64 :=
  if bool_decide (length states = 0%nat) then fzero
  else fdiv (of_Z (Z.of_nat (length (filter (λ s, Eval.v_Result s = EvalState.ResultPass) states))))
         (of_Z (Z.of_nat (length states))).

Definition coverageScore (ctx : Context) (controlID : UUID) : Tx World Error float64 :=
  tx_try (on_engine (eng_ControlState ctx controlID "" Eval.FarFuture)) (λ r,
    match r with
    | Ok states => mret (coverage_of states)
    | Err Eval.ErrControlNotFound => mret fzero
    | Err _ => tx_fail (ErrEngine "coverage score")
    end).

Definition recomputeControl (ctx : Context) (controlID : UUID) : Tx World Error () :=
  tx_try (on_engine (eng_EvaluateControl ctx controlID Eval.TriggerIngest Eval.FarFuture)) (λ r,
    match r with
    | Ok _ | Err Eval.ErrControlNotFound => mret ()
    | Err _ => tx_fail (ErrEngine "recompute control")
    end).

Definition controlBreakdown (ctx : Context) (link : Link) (recompute : bool) : Tx World Error ControlBreakdown :=
  let controlID := l_ControlID link in
  _ ← (if recompute then recomputeControl ctx controlID else mret ());
  let design := numericToFloat (l_DesignScore link) in
  let wD := numericToFloat (l_WeightDesign link) in
  let wO := numericToFloat (l_WeightOperation link) in
  let wC := numericToFloat (l_WeightCoverage link) in
  '(operational, noData) ← operationalScore ctx controlID;
  coverage ← coverageScore ctx controlID;
  mret (mkBreakdown controlID design operational coverage wD wO wC
          (ControlEffectiveness (mkComponents design operational coverage wD wO wC)) noData).

Fixpoint breakdowns (ctx : Context) (recompute : bool) (links : list Link) : Tx World Error (list ControlBreakdown) :=
  match links with
  | [] => mret []
  | l :: links =>
      bd ← controlBreakdown ctx l recompute;
      bds ← breakdowns ctx recompute links;
      mret (bd :: bds)
  end.

Definition Derive (env : Env) (riskID : UUID) (recompute : bool) : Tx World Error ResidualResult :=
  '(row, links) ← on_risks (inTx env (λ tenantID,
      row ← run "get risk" (GetRiskByID tenantID riskID) ErrNotFound;
      links ← tx_gets (ListRiskControlLinkWeights tenantID riskID);
      mret (row, links)));
  inherent ← tx_lift (inherentScalar (r_Methodology row) (r_InherentScore row));
  if bool_decide (length links = 0%nat)
  then mret (mkResidual riskID inherent inherent fzero [] WarningNoControlsLinked)
  else
    bds ← breakdowns (env_ctx env) recompute links;
    let w := WeightedEffectiveness (bd_ControlEffectiveness <$> bds) in
    mret (mkResidual riskID inherent (ResidualScore inherent w) w bds "").

(** *** What is persisted *)

Definition num (f : float64) : option json := t ← json_float f; Some (JNum t).

Definition breakdown_json (b : ControlBreakdown) : option json :=
  d ← num (bd_DesignScore b); o ← num (bd_OperationalScore b); c ← num (bd_CoverageScore b);
  wd ← num (bd_WeightDesign b); wo ← num (bd_WeightOperation b); wc ← num (bd_WeightCoverage b);
  e ← num (bd_ControlEffectiveness b);
  Some (JObj [("control_id", JStr (uuid_String (bd_ControlID b))); ("design_score", d); ("operational_score", o);
              ("coverage_score", c); ("weight_design", wd); ("weight_operation", wo); ("weight_coverage", wc);
              ("control_effectiveness", e); ("operational_no_data", JBool (bd_OperationalNoData b))]).

(** A nil slice is written as null; an empty warning is left out. *)
Definition residualBlob (r : ResidualResult) : option json :=
  s ← num (rr_ResidualScore r); i ← num (rr_InherentScore r); w ← num (rr_WeightedControlEffectiveness r);
  bds ← mapM breakdown_json (rr_Breakdown r);
  Some (JObj ([("score", s); ("inherent_score", i); ("weighted_control_effectiveness", w);
               ("breakdown", match bds with [] => JNull | _ => JArr bds end)] ++
              (if bool_decide (rr_Warning r = "") then [] else [("warning", JStr (rr_Warning r))]))).

Definition DeriveAndPersist (env : Env) (riskID : UUID) (recompute : bool) : Tx World Error ResidualResult :=
  result ← Derive env riskID recompute;
  match residualBlob result with
  | None => tx_fail ErrMarshal
  | Some blob =>
      _ ← on_risks (inTx env (λ tenantID,
             run "update residual_score"
               (UpdateRiskResidual (env_now env) tenantID riskID (render go_quote blob)) ErrNotFound));
      mret result
  end.

(** ** The subscriber *)

Definition linkedRisks (env : Env) (tenantID controlID : UUID) : Tx DB Error (list UUID) :=
  withTx (env_infra env) (env_ctx env) (tx_gets (ListRiskIDsLinkedToControl tenantID controlID)).

(** A risk that vanished is skipped, any other failure asks for redelivery. *)
Fixpoint deriveEach (env : Env) (riskIDs : list UUID) (w : World) : (Eval.disposition) * World :=
  match riskIDs with
  | [] => (Eval.Ack, w)
  | id :: riskIDs =>
      match DeriveAndPersist env id true w with
      | (Ok _, w') | (Err ErrNotFound, w') => deriveEach env riskIDs w'
      | (Err _, w') => (Eval.Nak, w')
      end
  end.

Definition handle (env : Env) (msg : Eval.message) (w : World) : (Eval.disposition) * World :=
  match Eval.msg_control msg with
  | None => (Eval.Term, w)
  | Some control =>
      match uuid_Parse (Eval.msg_tenant msg) with
      | None => (Eval.Term, w)
      | Some tenantID =>
          match uuid_Parse control with
          | None => (Eval.Ack, w)
          | Some controlID =>
              match WithTenant (env_ctx env) (uuid_String tenantID) with
              | Err _ => (Eval.Term, w)
              | Ok ctx =>
                  let env := mkEnv ctx (env_infra env) (env_now env) (env_newID env) in
                  match linkedRisks env tenantID controlID w.1 with
                  | (Err _, d) => (Eval.Nak, (d, w.2))
                  | (Ok [], d) => (Eval.Ack, (d, w.2))
                  | (Ok riskIDs, d) => deriveEach env riskIDs (d, w.2)
                  end
              end
          end
      end
  end.

End Deriver.
End RiskResidual.
