(* ===== verification/RiskSpec.v ===== *)
(** * Risk arithmetic: severities, grid cells, residuals, keys

    An aggregated severity stays on the 5x5 scale and is the maximum, or the
    capped sum, of its children; the derived cell is the smallest that covers a
    severity; a residual lies between zero and the inherent score for every
    effectiveness a float can hold; the aggregation key separates requests unless
    a title contains the separator. *)

From Stdlib Require Import Ascii SpecFloat.
From S2P Require Import Prelude GoTime Tenancy Json Sha256 Float64 Scope GoJson Risk.
Import Risk.

(** ** Severities *)

Lemma capScale_range v : 0 ≤ capScale v ≤ 25.
Proof. unfold capScale, SeverityScaleMax. repeat case_match; lia. Qed.

Lemma capScale_min v : 0 ≤ v → capScale v = Z.min v 25.
Proof. unfold capScale, SeverityScaleMax. intros. repeat case_match; lia. Qed.

(** A score on the grid. *)
Definition on_grid (c : ChildScore) : Prop := 1 ≤ Likelihood c ≤ 5 ∧ 1 ≤ Impact c ≤ 5.

Lemma Severity_on_grid c : on_grid c → Severity c = Likelihood c * Impact c ∧ 1 ≤ Severity c ≤ 25.
Proof. intros [H1 H2]. unfold Severity. rewrite int64_small by nia. nia. Qed.

Lemma max_severity_spec scores :
  Forall on_grid scores → scores ≠ [] →
  (∃ c, c ∈ scores ∧ max_severity scores = Likelihood c * Impact c) ∧
  ∀ c, c ∈ scores → Likelihood c * Impact c ≤ max_severity scores.
Proof.
  unfold max_severity. induction scores as [|c l IH] using rev_ind; [done|]. intros H _.
  rewrite Forall_app, Forall_singleton in H. destruct H as [Hl Hc].
  destruct (Severity_on_grid c Hc) as [Ec Hr]. rewrite fold_left_app. simpl.
  destruct (decide (l = [])) as [->|Hn].
  - simpl. destruct (Z.ltb_spec 0 (Severity c)); [|lia]. split; [exists c; set_solver|].
    intros c' ->%list_elem_of_singleton. lia.
  - destruct (IH Hl Hn) as [(b & Hb & Eb) Hmax]. set (m := fold_left _ l 0) in *.
    destruct (Z.ltb_spec m (Severity c)); (split; [|intros c' [Hc'| ->%list_elem_of_singleton]%elem_of_app; [specialize (Hmax c' Hc')|]; lia]).
    + exists c. set_solver.
    + exists b. set_solver.
Qed.

Lemma sum_severity_spec scores :
  Forall on_grid scores → Z.of_nat (length scores) < 2 ^ 58 →
  sum_severity scores = foldr Z.add 0 ((λ c, Likelihood c * Impact c) <$> scores) ∧
  0 ≤ sum_severity scores ≤ 25 * Z.of_nat (length scores).
Proof.
  unfold sum_severity. induction scores as [|c l IH] using rev_ind; [done|]. intros H Hn.
  rewrite length_app in *. simpl in *.
  rewrite Forall_app, Forall_singleton in H. destruct H as [Hl Hc].
  destruct (Severity_on_grid c Hc) as [Ec Hr]. destruct (IH Hl) as [E1 E2]; [lia|].
  rewrite fold_left_app. simpl. rewrite int64_small by lia. split; [|lia].
  rewrite E1, Ec, fmap_app, foldr_app. simpl. rewrite Z.add_0_r.
  clear. induction (_ <$> l) as [|x k IHk]; simpl; lia.
Qed.

(** Whatever the function, whatever scores the database holds and however the
    processor converts an out-of-range float, a computed severity lies on the scale 0..25;
    for children on the 5x5 grid "max" is the greatest product of likelihood and
    impact and "sum" is the sum of the products capped at 25; an empty list and an
    unknown function are errors. *)
Theorem ComputeSeverity_spec `{!GoArch, !GoMath} fn scores :
  match ComputeSeverity fn scores with
  | Ok v =>
      scores ≠ [] ∧ 0 ≤ v ≤ 25 ∧
      (Forall on_grid scores → Z.of_nat (length scores) < 2 ^ 58 →
       (fn = "max" → (∃ c, c ∈ scores ∧ v = Likelihood c * Impact c) ∧
                     (∀ c, c ∈ scores → Likelihood c * Impact c ≤ v)) ∧
       (fn = "sum" → v = Z.min 25 (foldr Z.add 0 ((λ c, Likelihood c * Impact c) <$> scores))))
  | Err e =>
      (scores = [] ∧ e = ErrEmptyChildren) ∨
      (scores ≠ [] ∧ ¬ (fn ∈ ["max"; "weighted_max"; "sum"]) ∧ e = ErrUnknownSeverityFunction)
  end.
Proof.
  unfold ComputeSeverity. destruct scores as [|c l]; [by left|]. simpl bool_decide.
  set (scores := c :: l). assert (Hne : scores ≠ []) by done. clearbody scores.
  repeat case_bool_decide; subst; (try (split_and!; [done|apply capScale_range|apply capScale_range|intros Hg Hn])).
  - split; [|done]. intros _. destruct (max_severity_spec scores Hg Hne) as [(b & Hb & E) Hm].
    rewrite Forall_forall in Hg. destruct (Severity_on_grid b (Hg b Hb)) as [Eb Hr].
    rewrite capScale_min by lia. rewrite Z.min_l by lia. split; [by exists b|done].
  - done.
  - split; [done|]. intros _. destruct (sum_severity_spec scores Hg Hn) as [E Hr].
    rewrite capScale_min, E by lia. lia.
  - right. set_solver.
Qed.

(** The grid cell derived from a severity is on the grid, never wider than it
    is likely, and for a severity on the scale it is the tightest fit: the
    product reaches the severity, and one impact step less would not. *)
Theorem DeriveGridCell_covers `{!GoArch} severity :
  let '(l, i) := DeriveGridCell severity in
  1 ≤ i ≤ l ∧ l ≤ 5 ∧
  (1 ≤ severity ≤ 25 → l * (i - 1) < severity ≤ l * i ∧ (l - 1) * (l - 1) < severity ≤ l * l).
Proof.
  unfold DeriveGridCell. destruct (Z.leb_spec severity 0) as [|H0]; [lia|].
  assert (Hfit : ∀ s, 1 ≤ s ≤ 25 →
    let l := at_least_1_at_most_5 (int_of (Ceil (Sqrt (of_Z s)))) in
    let i := at_least_1_at_most_5 (int_of (Ceil (fdiv (of_Z s) (of_Z l)))) in
    1 ≤ i ≤ l ∧ l ≤ 5 ∧ l * (i - 1) < s ≤ l * i ∧ (l - 1) * (l - 1) < s ≤ l * l).
  { intros s Hs. assert (Hin : s ∈ seqZ 1 25) by (apply elem_of_seqZ; lia).
    repeat (apply elem_of_cons in Hin as [->|Hin]; [vm_compute; split_and!; congruence|]).
    by apply elem_of_nil in Hin. }
  destruct (Z.ltb_spec SeverityScaleMax severity) as [Hs|Hs]; unfold SeverityScaleMax in *.
  - destruct (Hfit 25) as (? & ? & ?); [lia|]. split_and!; lia.
  - destruct (Hfit severity) as (? & ? & ?); [lia|]. split_and!; lia.
Qed.

(** ** Residuals *)

(** Between zero and one, hence finite. *)
Definition unit_float (x : float64) : Prop := fle fzero x = true ∧ fle x fone = true.

Lemma clamp01_unit x : unit_float (clamp01 x).
Proof.
  unfold clamp01, unit_float. destruct (IsNaN x) eqn:En; [done|]. simpl.
  destruct (flt x fzero) eqn:E0; [done|]. destruct (flt fone x) eqn:E1; [done|].
  split; by apply not_flt_fle.
Qed.

Lemma unit_finite x : unit_float x → finite x = true.
Proof. intros [H1 H2]. by apply (between_finite fzero x fone). Qed.

Lemma WeightedEffectiveness_unit l : unit_float (WeightedEffectiveness l).
Proof. unfold WeightedEffectiveness. case_bool_decide; [done|]. apply clamp01_unit. Qed.

Lemma clamp01_narrow x : narrow x → narrow (clamp01 x).
Proof. unfold clamp01. intros H. by repeat case_match. Qed.

Lemma WeightedEffectiveness_narrow l : narrow (WeightedEffectiveness l).
Proof. unfold WeightedEffectiveness. case_bool_decide; [done|]. apply clamp01_narrow, fdiv_narrow. Qed.

Lemma ResidualScore_range inherent w :
  finite inherent = true → fle fzero inherent = true → narrow w →
  fle fzero (ResidualScore inherent w) = true ∧ fle (ResidualScore inherent w) inherent = true.
Proof.
  intros Hf H0 Hw. unfold ResidualScore. destruct (clamp01_unit w) as [Hl Hu].
  pose proof (one_minus_finite _ (clamp01_narrow w Hw) Hl Hu) as Hd.
  pose proof (fmul_not_nan inherent _ Hf Hd) as Hn. set (r := fmul inherent _) in *.
  destruct (flt r fzero) eqn:E0; [by split|].
  destruct (flt inherent r) eqn:E1; [split; auto with atlas|].
  split; apply not_flt_fle; auto with atlas.
Qed.

(** ** The aggregation key *)

Fixpoint no_bar (s : string) : bool :=
  match s with "" => true | String c s => negb (bool_decide (c = "|"%char)) && no_bar s end.

Lemma uuid_text_no_bar s : uuid_text s = true → no_bar s = true.
Proof.
  induction s as [|c s IH]; [done|]. simpl. intros [Hc Hs]%andb_prop. rewrite IH by done. rewrite andb_true_r.
  by destruct (decide (c = "|"%char)) as [->|Hn]; [|rewrite bool_decide_eq_false_2].
Qed.

Lemma bar_split a b x y :
  no_bar a = true → no_bar b = true → a +:+ "|" +:+ x = b +:+ "|" +:+ y → a = b ∧ x = y.
Proof.
  revert b. induction a as [|c a IH]; intros [|c' b] Ha Hb; rewrite ?str_nil_app, ?str_app_cons, ?str_nil_app.
  - by intros [= ->].
  - intros [= <- _]. done.
  - intros [= -> _]. done.
  - simpl in Ha, Hb. apply andb_prop in Ha as [_ Ha], Hb as [_ Hb]. intros [= -> E]. by destruct (IH b Ha Hb E) as [-> ->].
Qed.

Lemma no_bar_app a x : no_bar (a +:+ "|" +:+ x) = false.
Proof.
  induction a as [|c a IH]; [by rewrite str_nil_app, str_app_cons|].
  rewrite (str_app_cons c). cbn [no_bar]. by rewrite IH, andb_false_r.
Qed.

Lemma join_bar_inj l k :
  Forall (λ s, no_bar s = true ∧ s ≠ "") l → Forall (λ s, no_bar s = true ∧ s ≠ "") k →
  join "|" l = join "|" k → l = k.
Proof.
  intros Hl. revert k. induction Hl as [|a l [Ha Ea] Hl IH]; intros [|b k] Hk E; [done|..].
  - apply Forall_cons in Hk as [[_ Hb] _]. destruct k; simpl in E; destruct b; done.
  - destruct l; simpl in E; destruct a; done.
  - apply Forall_cons in Hk as [[Hb Eb] Hk]. destruct l as [|a' l], k as [|b' k]; cbn [join] in E.
    + by subst.
    + subst a. by rewrite no_bar_app in Ha.
    + subst b. by rewrite no_bar_app in Hb.
    + apply bar_split in E as [-> E]; [|done..]. f_equal. by apply IH.
Qed.

Lemma sorted_ids_inj `{!UUIDText} (l k : list UUID) :
  merge_sort String.le (uuid_String <$> l) = merge_sort String.le (uuid_String <$> k) → l ≡ₚ k.
Proof.
  intros E. assert (Hp : (uuid_String <$> l) ≡ₚ (uuid_String <$> k)).
  { by rewrite <- (merge_sort_Permutation String.le (uuid_String <$> l)), E, merge_sort_Permutation. }
  assert (Hinv : ∀ m : list UUID, omap (M := list) uuid_Parse (uuid_String <$> m) = m).
  { induction m as [|x m IH]; [done|]. csimpl. by rewrite uuid_Parse_String, IH. }
  by rewrite <- (Hinv l), Hp, Hinv.
Qed.

(** The text the aggregation key hashes determines the title and the set of
    children as long as no title contains a vertical bar; with bars it does not:
    moving the first child's identifier into the title gives the same text, so two
    different requests share one key. *)
Theorem aggregation_preimage_separates `{!UUIDText} :
  (∀ title title' l k, no_bar title = true → no_bar title' = true →
     aggregation_preimage title l = aggregation_preimage title' k → title = title' ∧ l ≡ₚ k) ∧
  (∀ title u v, String.le (uuid_String u) (uuid_String v) →
     AggregationKey (title +:+ "|" +:+ uuid_String u) [v] = AggregationKey title [u; v]).
Proof.
  assert (Hf : ∀ l, Forall (λ s, no_bar s = true ∧ s ≠ "") (merge_sort String.le (uuid_String <$> l))).
  { intros l. apply Forall_forall. intros s. rewrite merge_sort_Permutation. intros (u & -> & _)%list_elem_of_fmap.
    split; [apply uuid_text_no_bar, uuid_String_text|apply uuid_String_nonempty]. }
  split.
  - intros title title' l k Ht Ht' E. unfold aggregation_preimage in E. apply bar_split in E as [-> E]; [|done..].
    split; [done|]. apply sorted_ids_inj. by apply join_bar_inj.
  - intros title u v Hle. unfold AggregationKey, aggregation_preimage. f_equal.
    assert (E : merge_sort String.le (uuid_String <$> [u; v]) = [uuid_String u; uuid_String v]).
    { apply (Sorted_unique String.le); [apply Sorted_merge_sort, _| |by rewrite merge_sort_Permutation].
      repeat constructor. done. }
    rewrite E. change (merge_sort String.le (uuid_String <$> [v])) with [uuid_String v]. cbn [join].
    by rewrite !str_app_assoc.
Qed.
