(* ===== verification/RiskResidualSpec.v ===== *)
(** * Residual risk: bounds, frame, and how derived residuals rank

    The residual of a risk lies between zero and its inherent score; an ingested
    record changes nothing but the residual of the risks that link its control;
    and what the deriver stores has no likelihood and impact, so that the list
    sorted by residual treats every derived risk as unscored. *)

From Stdlib Require Import Ascii SpecFloat.
From S2P Require Import Prelude GoTime Tenancy Json Sha256 Float64 Scope GoJson Risk RiskDB RiskStore.
From S2P Require Import ScopeStore EvalState EvalQuery Eval RiskResidual RiskSpec.
Import Risk RiskDB RiskStore RiskResidual.

Section Deriver.
Context {UT : UUIDText} {JB : JsonB} {S : Type} {EE : EffectivenessEngine S}.

Implicit Types (env : Env) (w : DB * S).

(** ** Reads leave the risk tables alone *)

Lemma inTx_reads {A} env (fn : UUID → Tx DB Error A) d r d' :
  (∀ t, (fn t d).2 = d) → inTx env fn d = (r, d') → d' = d.
Proof using.
  intros Hf H. apply (inTx_cases (λ d, d)) in H as [(t & a & _ & _ & H)|(e & _ & H)]; [|done].
  by rewrite <- (Hf t), H.
Qed.

Lemma on_engine_risks {E A} (m : Tx S E A) w : (on_engine m w).2.1 = w.1.
Proof using. unfold on_engine. by destruct (m w.2). Qed.

(** Steps that read the engine keep the risk tables. *)
Definition keeps_risks {A} (m : Tx (DB * S) Error A) : Prop := ∀ w, (m w).2.1 = w.1.

Lemma keeps_ret {A} (a : A) : keeps_risks (mret a).
Proof using. done. Qed.

Lemma keeps_bind {A B} (m : Tx (DB * S) Error A) (f : A → Tx (DB * S) Error B) :
  keeps_risks m → (∀ a, keeps_risks (f a)) → keeps_risks (m ≫= f).
Proof using.
  intros Hm Hf w. specialize (Hm w). unfold mbind, tx_bind. destruct (m w) as [[a|e] w']; [|done].
  simpl in Hm. by rewrite (Hf a w').
Qed.

Lemma keeps_engine {A B} (m : Tx S (Eval.Error) A) (k : result (Eval.Error) A → Tx (DB * S) Error B) :
  (∀ r, keeps_risks (k r)) → keeps_risks (tx_try (on_engine m) k).
Proof using.
  intros Hk w. unfold tx_try. pose proof (on_engine_risks m w) as H. destruct (on_engine m w) as [r w'].
  simpl in H. by rewrite (Hk r w').
Qed.

Lemma keeps_controlBreakdown ctx l rc : keeps_risks (controlBreakdown ctx l rc).
Proof using.
  unfold controlBreakdown. apply keeps_bind.
  - destruct rc; [|done]. apply keeps_engine. intros [|[]]; done.
  - intros _. apply keeps_bind; [apply keeps_engine; intros [|[]]; done|]. intros [o n].
    apply keeps_bind; [apply keeps_engine; intros [|[]]; done|]. done.
Qed.

Lemma keeps_breakdowns ctx rc links : keeps_risks (breakdowns ctx rc links).
Proof using.
  induction links as [|l links IH]; [done|]. simpl.
  apply keeps_bind; [apply keeps_controlBreakdown|]. intros bd. by apply keeps_bind.
Qed.

Lemma keeps_Derive env id rc : keeps_risks (Derive env id rc).
Proof using.
  unfold Derive. apply keeps_bind.
  - intros w. unfold on_risks. destruct (inTx env _ w.1) as [r d] eqn:E. simpl.
    eapply inTx_reads; [|exact E]. intros t. unfold mbind, tx_bind, run, tx_try, GetRiskByID.
    by destruct (one (select_where (at_key t id) (risks w.1))) as [|[]].
  - intros [row links]. apply keeps_bind; [by intros w|]. intros inherent. case_bool_decide; [done|].
    apply keeps_bind; [apply keeps_breakdowns|done].
Qed.

(** ** Bounds *)

(** How a link explains its entry of the breakdown: its own control, design score
    and weights, the pass rate the engine gave for that control and the share of its
    states that pass (nothing for a control that is gone), and the weighted sum of
    the three, kept between 0 and 1. *)
Record explains (ctx : Context) (l : Link) (b : ControlBreakdown) : Prop := {
  ex_control : bd_ControlID b = l_ControlID l;
  ex_design : bd_DesignScore b = numericToFloat (l_DesignScore l);
  ex_weights : (bd_WeightDesign b, bd_WeightOperation b, bd_WeightCoverage b) =
               (numericToFloat (l_WeightDesign l), numericToFloat (l_WeightOperation l), numericToFloat (l_WeightCoverage l));
  ex_operational : ∃ s,
    match (eng_Effectiveness ctx (l_ControlID l) s).1 with
    | Ok eff => bd_OperationalScore b = Eval.eff_PassRate eff ∧ (bd_OperationalNoData b = true ↔ Eval.eff_TotalCount eff = 0%nat)
    | Err e => e = Eval.ErrControlNotFound ∧ bd_OperationalScore b = fzero ∧ bd_OperationalNoData b = true
    end;
  ex_coverage : ∃ s,
    match (eng_ControlState ctx (l_ControlID l) "" Eval.FarFuture s).1 with
    | Ok states => bd_CoverageScore b = coverage_of states
    | Err e => e = Eval.ErrControlNotFound ∧ bd_CoverageScore b = fzero
    end;
  ex_sum : bd_ControlEffectiveness b =
           clamp01 (fadd (fadd (fmul (bd_WeightDesign b) (bd_DesignScore b)) (fmul (bd_WeightOperation b) (bd_OperationalScore b)))
                         (fmul (bd_WeightCoverage b) (bd_CoverageScore b)));
  ex_unit : unit_float (bd_ControlEffectiveness b);
}.

Lemma operationalScore_Ok ctx id w o n w' :
  operationalScore ctx id w = (Ok (o, n), w') →
  match (eng_Effectiveness ctx id w.2).1 with
  | Ok eff => o = Eval.eff_PassRate eff ∧ (n = true ↔ Eval.eff_TotalCount eff = 0%nat)
  | Err e => e = Eval.ErrControlNotFound ∧ o = fzero ∧ n = true
  end.
Proof using.
  unfold operationalScore, tx_try, on_engine. destruct (eng_Effectiveness ctx id w.2) as [[eff|e] s']; cbn.
  - intros [= <- <- _]. split; [done|]. apply bool_decide_eq_true.
  - destruct e; try done. by intros [= <- <- _].
Qed.

Lemma coverageScore_Ok ctx id w c w' :
  coverageScore ctx id w = (Ok c, w') →
  match (eng_ControlState ctx id "" Eval.FarFuture w.2).1 with
  | Ok states => c = coverage_of states
  | Err e => e = Eval.ErrControlNotFound ∧ c = fzero
  end.
Proof using.
  unfold coverageScore, tx_try, on_engine. destruct (eng_ControlState ctx id "" Eval.FarFuture w.2) as [[states|e] s']; cbn.
  - by intros [= <- _].
  - destruct e; try done. by intros [= <- _].
Qed.

Lemma controlBreakdown_explains ctx l rc w b w' :
  controlBreakdown ctx l rc w = (Ok b, w') → explains ctx l b.
Proof using.
  unfold controlBreakdown. intros H. apply tx_bind_Ok in H as (_ & w1 & _ & H).
  apply tx_bind_Ok in H as ([o n] & w2 & Ho & H). apply tx_bind_Ok in H as (c & w3 & Hc & [= <- _]).
  apply operationalScore_Ok in Ho. apply coverageScore_Ok in Hc.
  split; cbn; try done; [by exists w1.2|by exists w2.2|apply clamp01_unit].
Qed.

Lemma breakdowns_explain ctx rc links w bds w' :
  breakdowns ctx rc links w = (Ok bds, w') → Forall2 (explains ctx) links bds.
Proof using.
  revert w bds. induction links as [|l links IH]; intros w bds H; simpl in H.
  - injection H as <- _. done.
  - apply tx_bind_Ok in H as (bd & w1 & H1 & H). apply tx_bind_Ok in H as (bds' & w2 & H2 & [= <- <-]).
    constructor; [by eapply controlBreakdown_explains|by eapply IH].
Qed.

Lemma clamp01_unit_id x : unit_float (clamp01 x) → clamp01 (clamp01 x) = clamp01 x.
Proof using.
  intros _. unfold clamp01. destruct (IsNaN x || flt x fzero) eqn:E0; [done|]. destruct (flt fone x) eqn:E1; [done|].
  by rewrite E0, E1.
Qed.

(** The residual is the inherent score times one minus the effectiveness, unless
    rounding takes that out of range. *)
Definition residual_of (inherent weighted residual : float64) : Prop :=
  let product := fmul inherent (fsub fone weighted) in
  residual = product ∨ flt product fzero = true ∧ residual = fzero ∨ flt inherent product = true ∧ residual = inherent.

Lemma ResidualScore_of inherent l : residual_of inherent (WeightedEffectiveness l) (ResidualScore inherent (WeightedEffectiveness l)).
Proof using.
  assert (E : clamp01 (WeightedEffectiveness l) = WeightedEffectiveness l).
  { unfold WeightedEffectiveness. case_bool_decide; [done|]. apply clamp01_unit_id, clamp01_unit. }
  unfold ResidualScore, residual_of. rewrite E. cbv zeta. repeat case_match; auto.
Qed.

(** The risk and the links a derivation reads. *)
Lemma derive_reads env riskID (w : DB * S) row links w' :
  on_risks (inTx env (λ tenantID,
      row ← run "get risk" (GetRiskByID tenantID riskID) ErrNotFound;
      links ← tx_gets (ListRiskControlLinkWeights tenantID riskID);
      mret (row, links))) w = (Ok (row, links), w') →
  w' = w ∧ ∃ t, tenant_of (env_ctx env) = Some t ∧ row ∈ risks w.1 ∧ r_TenantID row = t ∧ r_ID row = riskID ∧
    links ≡ₚ filter (λ l, l_TenantID l = t ∧ l_RiskID l = riskID) (risk_control_links w.1).
Proof using.
  destruct w as [dw sw]. unfold on_risks. cbn [fst snd]. destruct (inTx env _ dw) as [res d] eqn:E. intros [= -> <-].
  apply (inTx_cases (λ d, d)) in E as [(t & a & Ht & [= <-] & E)|(? & ? & _)]; [|done].
  apply tx_bind_Ok in E as (row' & d1 & Hg & E). unfold tx_gets in E. injection E as -> <- <-.
  unfold run, tx_try, GetRiskByID in Hg.
  destruct (one (select_where (at_key t riskID) (risks dw))) as [x|e] eqn:Eo; [|by destruct e]. injection Hg as -> <-.
  split; [done|]. exists t. split; [done|].
  assert (Hin : row ∈ select_where (at_key t riskID) (risks dw)) by (unfold one in Eo; destruct (select_where _ _); simplify_eq; left).
  apply elem_of_select_where in Hin as [Hk Hin]. unfold at_key in Hk. rewrite andb_true_iff, !bool_decide_eq_true in Hk.
  split_and!; [done|tauto..|]. unfold ListRiskControlLinkWeights. rewrite merge_sort_Permutation. unfold select_where.
  apply reflexive_eq, list_filter_iff. intros l. by rewrite andb_true_iff, !bool_decide_eq_true.
Qed.

(** C21: deriving a residual reads one risk of the caller's tenant and exactly its own
    rows of risk_control_links: the breakdown has one entry per link, with that link's
    control, design score and weights and what the engine says of that control, and
    each entry's effectiveness lies between 0 and 1.  Without a link the residual is
    the inherent score, with the warning; with links there is no warning, the weighted
    effectiveness is the mean of the entries kept between 0 and 1, and the residual is
    the inherent score times one minus it.  If the inherent score is a finite
    non-negative number the residual lies between zero and it, whatever the engine
    answers and whatever weights are stored.  The risk tables are left as they were. *)
Theorem Derive_bounded env riskID recompute w r w' :
  Derive env riskID recompute w = (Ok r, w') →
  ∃ t row links,
    tenant_of (env_ctx env) = Some t ∧ row ∈ risks w.1 ∧ r_TenantID row = t ∧ r_ID row = riskID ∧
    inherentScalar (r_Methodology row) (r_InherentScore row) = Ok (rr_InherentScore r) ∧
    rr_RiskID r = riskID ∧ w'.1 = w.1 ∧
    links ≡ₚ filter (λ l, l_TenantID l = t ∧ l_RiskID l = riskID) (risk_control_links w.1) ∧
    Forall2 (explains (env_ctx env)) links (rr_Breakdown r) ∧
    (links = [] → rr_Warning r = "no_controls_linked" ∧ rr_ResidualScore r = rr_InherentScore r) ∧
    (links ≠ [] → rr_Warning r = "" ∧
       rr_WeightedControlEffectiveness r =
         clamp01 (fdiv (fold_left fadd (bd_ControlEffectiveness <$> rr_Breakdown r) fzero) (of_Z (Z.of_nat (length links)))) ∧
       residual_of (rr_InherentScore r) (rr_WeightedControlEffectiveness r) (rr_ResidualScore r)) ∧
    unit_float (rr_WeightedControlEffectiveness r) ∧
    (finite (rr_InherentScore r) = true → fle fzero (rr_InherentScore r) = true →
       fle fzero (rr_ResidualScore r) = true ∧ fle (rr_ResidualScore r) (rr_InherentScore r) = true).
Proof using.
  intros H. pose proof (keeps_Derive env riskID recompute w) as Hk. rewrite H in Hk. cbn in Hk. revert H. unfold Derive. intros H.
  apply tx_bind_Ok in H as ([row links] & w1 & (-> & t & Ht & Hrow & Htr & Hid & Hl)%derive_reads & H).
  apply tx_bind_Ok in H as (inherent & w2 & [Hin ->]%tx_lift_Ok & H). exists t, row, links.
  case_bool_decide as Hn.
  - apply length_zero_iff_nil in Hn as ->. injection H as <- _. cbn. split_and!; auto with atlas; done.
  - apply tx_bind_Ok in H as (bds & w3 & Hb%breakdowns_explain & [= <- _]). cbn.
    pose proof (Forall2_length _ _ _ Hb) as Elen.
    assert (links ≠ []) by (by intros ->). do 9 (split; [done|]). split; [done|]. split.
    { intros _. split; [done|]. split; [|apply ResidualScore_of]. unfold WeightedEffectiveness.
      rewrite length_fmap, <- Elen. by rewrite bool_decide_eq_false_2. }
    split; [apply WeightedEffectiveness_unit|]. intros Hf H0. apply ResidualScore_range; [done|done|apply WeightedEffectiveness_narrow].
Qed.

(** ** What an ingested record may change *)

(** A row up to its residual score and the time of its last update. *)
Definition erase (r : Row) : Row :=
  mkRow (r_ID r) (r_TenantID r) (r_Title r) (r_Description r) (r_Category r) (r_Methodology r) (r_InherentScore r)
    (r_Treatment r) (r_TreatmentOwner r) "" (r_ReviewDueAt r) (r_AcceptedUntil r) (r_Accepter r)
    (r_InstrumentReference r) (r_Level r) (r_OrgUnitID r) (r_Themes r) (r_CreatedAt r) 0.

(** [d'] is [d] but for the residuals of risks of tenant [t] among [ids]. *)
Definition residuals_only (t : UUID) (ids : list UUID) (d d' : DB) : Prop :=
  set_risks d [] = set_risks d' [] ∧
  Forall2 (λ r r', erase r = erase r' ∧ (r = r' ∨ (r_TenantID r = t ∧ r_ID r ∈ ids))) (risks d) (risks d').

Lemma residuals_refl t ids d : residuals_only t ids d d.
Proof using. split; [done|]. apply Forall2_same_length_lookup_2; [done|]. intros i x y Hx Hy. rewrite Hx in Hy. naive_solver. Qed.

Lemma residuals_trans t ids d1 d2 d3 :
  residuals_only t ids d1 d2 → residuals_only t ids d2 d3 → residuals_only t ids d1 d3.
Proof using.
  intros [E1 H1] [E2 H2]. split; [congruence|]. eapply Forall2_trans; [|exact H1|exact H2].
  intros x y z [Ex [->|Hx]] [Ey Hy]; [done|]. split; [congruence|]. by right.
Qed.

Lemma update_residual_only now t id s d :
  residuals_only t [id] d (set_risks d (update_where (at_key t id) (set_residual now s) (risks d))).
Proof using.
  split; [done|]. simpl. unfold update_where. apply Forall2_fmap_r, Forall2_same_length_lookup_2; [done|].
  intros i x y Hx Hy. rewrite Hx in Hy. injection Hy as <-. simpl.
  destruct (at_key t id x) eqn:E; [|by split; [|left]]. split; [done|]. right.
  unfold at_key in E. apply andb_prop in E as [E1%bool_decide_eq_true E2%bool_decide_eq_true]. set_solver.
Qed.

Lemma residuals_mono t ids ids' d d' : ids ⊆ ids' → residuals_only t ids d d' → residuals_only t ids' d d'.
Proof using.
  intros Hs [E H]. split; [done|]. eapply Forall2_impl; [exact H|].
  intros x y [Ex [->|[Ht Hx]]]; [by auto|]. split; [done|]. right. set_solver.
Qed.

Lemma DeriveAndPersist_only env id rc w r w' t :
  tenant_of (env_ctx env) = Some t → DeriveAndPersist env id rc w = (r, w') → residuals_only t [id] w.1 w'.1.
Proof using.
  intros Ht. unfold DeriveAndPersist, mbind, tx_bind. pose proof (keeps_Derive env id rc w) as Hk.
  destruct (Derive env id rc w) as [[res|e] w1]; simpl in Hk; [|intros [= <- <-]; rewrite Hk; apply residuals_refl].
  destruct (residualBlob res) as [blob|]; [|intros [= <- <-]; rewrite Hk; apply residuals_refl].
  unfold on_risks. destruct (inTx env _ w1.1) as [r1 d1] eqn:E. rewrite <- Hk.
  assert (Hd : residuals_only t [id] w1.1 d1).
  { apply (inTx_cases (λ d, d)) in E as [(t' & a & Ht' & _ & E)|(e & _ & ->)]; [|apply residuals_refl].
    rewrite Ht in Ht'. injection Ht' as <-. revert E. unfold run, tx_try, UpdateRiskResidual.
    destruct (jsonb_in _) as [s|]; [|by intros [= ? <-]]. unfold update_risk.
    destruct (updated_rows _ _ _); simpl; [by intros [= ? <-]|]. intros [= _ <-]. apply update_residual_only. }
  destruct r1; intros [= _ <-]; done.
Qed.

Lemma deriveEach_only env ids t w dsp w' :
  tenant_of (env_ctx env) = Some t → deriveEach env ids w = (dsp, w') → residuals_only t ids w.1 w'.1.
Proof using.
  intros Ht. revert w. induction ids as [|id ids IH]; intros w H; simpl in H.
  - injection H as _ <-. apply residuals_refl.
  - destruct (DeriveAndPersist env id true w) as [r w1] eqn:E.
    pose proof (DeriveAndPersist_only _ _ _ _ _ _ _ Ht E) as H1.
    assert (Hstep : (dsp, w') = deriveEach env ids w1 ∨ w' = w1).
    { destruct r as [|[]]; first [left; exact (eq_sym H)|right; by injection H]. }
    destruct Hstep as [Hs| ->]; [|eapply residuals_mono; [|exact H1]; set_solver].
    eapply residuals_trans; [eapply residuals_mono; [|exact H1]; set_solver|].
    eapply residuals_mono; [|eapply IH; by symmetry]. set_solver.
Qed.

Lemma WithTenant_tenant ctx t ctx' : WithTenant ctx (uuid_String t) = Ok ctx' → tenant_of ctx' = Some t.
Proof using.
  unfold WithTenant. rewrite uuid_Parse_String. intros [= <-]. unfold tenant_of, TenantFromContext. simpl.
  rewrite bool_decide_eq_false_2 by apply uuid_String_nonempty. by rewrite uuid_Parse_String.
Qed.

Lemma linkedRisks_links env t c d ids d' :
  linkedRisks env t c d = (Ok ids, d') →
  d' = d ∧ ∀ id, id ∈ ids → ∃ l, l ∈ risk_control_links d ∧ l_TenantID l = t ∧ l_ControlID l = c ∧ l_RiskID l = id.
Proof using UT.
  intros H. apply (withTx_cases (λ d, d)) in H as [(a & [= <-] & [= <- <-])|(e & [=] & _)]. split; [done|].
  intros id Hid. unfold ListRiskIDsLinkedToControl in Hid. rewrite merge_sort_Permutation in Hid.
  apply list_elem_of_fmap in Hid as (l & -> & Hl). apply elem_of_select_where in Hl as [Hp Hl].
  apply andb_prop in Hp as [E1%bool_decide_eq_true E2%bool_decide_eq_true]. eauto 10.
Qed.

(** Whatever message arrives and whatever fails on the way, handling an
    ingested record leaves every table of the register as it was except the
    residual score (and update time) of risks of the message's tenant that link the
    message's control. *)
Theorem handle_writes_only_residuals env msg w dsp w' :
  handle env msg w = (dsp, w') →
  set_risks w.1 [] = set_risks w'.1 [] ∧
  Forall2 (λ r r', erase r = erase r' ∧
             (r = r' ∨ ∃ l, l ∈ risk_control_links w.1 ∧ l_RiskID l = r_ID r ∧ l_TenantID l = r_TenantID r ∧
                        uuid_Parse (Eval.msg_tenant msg) = Some (l_TenantID l) ∧
                        (c ← Eval.msg_control msg; uuid_Parse c) = Some (l_ControlID l)))
    (risks w.1) (risks w'.1).
Proof using.
  intros H. assert (Hsame : ∀ s, set_risks w.1 [] = set_risks (w.1, s : S).1 [] ∧
    Forall2 (λ r r', erase r = erase r' ∧ (r = r' ∨ ∃ l, l ∈ risk_control_links w.1 ∧ l_RiskID l = r_ID r ∧
       l_TenantID l = r_TenantID r ∧ uuid_Parse (Eval.msg_tenant msg) = Some (l_TenantID l) ∧
       (c ← Eval.msg_control msg; uuid_Parse c) = Some (l_ControlID l))) (risks w.1) (risks (w.1, s).1)).
  { intros s. destruct (residuals_refl 0%N [] w.1) as [E F]. split; [done|]. eapply Forall2_impl; [exact F|].
    intros x y [Ex [->|[_ []%elem_of_nil]]]; auto. }
  unfold handle in H. destruct (Eval.msg_control msg) as [control|] eqn:Ec; [|injection H as _ <-; exact (Hsame w.2)].
  destruct (uuid_Parse (Eval.msg_tenant msg)) as [t|] eqn:Et; [|injection H as _ <-; exact (Hsame w.2)].
  destruct (uuid_Parse control) as [c|] eqn:Ep; [|injection H as _ <-; exact (Hsame w.2)].
  destruct (WithTenant _ _) as [ctx|] eqn:Ew; [|injection H as _ <-; exact (Hsame w.2)].
  apply WithTenant_tenant in Ew. set (env' := mkEnv ctx _ _ _) in *.
  destruct (linkedRisks env' t c w.1) as [[ids|e] d] eqn:El.
  - apply linkedRisks_links in El as [-> Hl].
    assert (Hd : deriveEach env' ids (w.1, w.2) = (dsp, w')) by by destruct ids.
    apply (deriveEach_only _ _ t) in Hd as [E F]; [|done]. split; [done|]. eapply Forall2_impl; [exact F|].
    intros x y [Ex [->|[Ht Hx]]]; [auto|]. split; [done|]. right.
    destruct (Hl _ Hx) as (l & Hin & H1 & H2 & H3). exists l. simpl. rewrite Ep. split_and!; congruence.
  - injection H as _ <-. apply (withTx_cases (λ d, d)) in El as [(a & [=] & _)|(e' & _ & ->)]. apply Hsame.
Qed.

(** ** How a derived residual ranks *)

Lemma decode_floats_other names ms st :
  (∀ k, k ∈ ms.*1 → ¬ (Scope.foldName k ∈ names)) → decode_floats names ms st = (st, false).
Proof using.
  revert st. induction ms as [|[k v] ms IH]; intros st H; [done|]. cbn [decode_floats].
  destruct (list_find _ names) as [[i n]|] eqn:E.
  - apply list_find_Some in E as (Hi & -> & _). exfalso. apply (H k); [left|].
    by eapply list_elem_of_lookup_2.
  - apply IH. intros k' Hk'. apply H. by right.
Qed.

Lemma uuid_text_utf8 s : uuid_text s = true → utf8_valid s = true.
Proof using.
  induction s as [|c s IH]; [done|]. intros [Hc Hs]%andb_prop. specialize (IH Hs).
  assert (Hr : rune_len (String c s) = 1%nat).
  { clear -Hc. by destruct c as [[] [] [] [] [] [] [] []]. }
  cbn [utf8_valid]. by rewrite Hr.
Qed.

Lemma num_writable f v : num f = Some v → writable v ∧ height v = 0%nat.
Proof using.
  unfold num. destruct (json_float f) as [t|] eqn:E; [|done]. intros [= <-]. split; [|done].
  constructor. by eapply json_float_literal.
Qed.

Lemma breakdown_writable b v : breakdown_json b = Some v → writable v ∧ height v = 1%nat.
Proof using.
  unfold breakdown_json. intros H.
  repeat lazymatch type of H with (num ?f ≫= _) = _ =>
    let E := fresh in destruct (num f) eqn:E; [|done]; apply num_writable in E as [? ?]; cbn [mbind option_bind] in H end.
  injection H as <-. split.
  - constructor. repeat (constructor; [split; [done|]; first [done|constructor]|]); [|constructor].
    apply uuid_text_utf8, uuid_String_text.
  - cbn [height map snd]. repeat lazymatch goal with E : height _ = 0%nat |- _ => rewrite E; clear E end. done.
Qed.

Definition blob_keys : list string :=
  ["score"; "inherent_score"; "weighted_control_effectiveness"; "breakdown"; "warning"].

Lemma blob_members r v :
  utf8_valid (rr_Warning r) = true → residualBlob r = Some v →
  writable v ∧ (height v ≤ 3)%nat ∧ ∃ ms, v = JObj ms ∧ NoDup ms.*1 ∧ ms.*1 ⊆ blob_keys.
Proof using.
  intros Hw H. unfold residualBlob in H.
  repeat lazymatch type of H with (num ?f ≫= _) = _ =>
    let E := fresh in destruct (num f) eqn:E; [|done]; apply num_writable in E as [? ?]; cbn [mbind option_bind] in H end.
  destruct (mapM breakdown_json _) as [bds|] eqn:E; [|done]. injection H as <-.
  assert (Hb : Forall (λ b, writable b ∧ height b = 1%nat) bds).
  { apply mapM_Some_1 in E. clear -E. induction E; constructor; eauto using breakdown_writable. }
  assert (Hbd : let b := match bds with [] => JNull | _ => JArr bds end in writable b ∧ (height b ≤ 2)%nat).
  { destruct bds as [|b bds]; simpl; [split; [constructor|lia]|]. split.
    - constructor. by eapply Forall_impl; [exact Hb|naive_solver].
    - apply le_n_S, (max_list_le (height b :: map height bds)), (Forall_map height (λ m, (m ≤ 1)%nat) (b :: bds)).
      eapply Forall_impl; [exact Hb|]. intros x [_ ->]. lia. }
  destruct Hbd as [Hbw Hbh]. set (b := match bds with [] => JNull | _ => JArr bds end) in *. split_and!.
  - constructor. case_bool_decide; simpl; repeat (constructor; [split; [done|]; first [done|by constructor]|]); constructor.
  - cbn [height]. apply le_n_S, max_list_le, (Forall_map (λ kv, height kv.2) (λ m, (m ≤ 2)%nat)).
    case_bool_decide; cbn [app]; repeat (constructor; [cbn [snd]; cbn [height]; lia|]); constructor.
  - eexists. split; [done|]. case_bool_decide; simpl; (split; [refine (bool_decide_unpack _ _); vm_compute; exact I|set_solver]).
Qed.

Lemma blob_magnitude {JN : JsonBNum} r v s :
  utf8_valid (rr_Warning r) = true → residualBlob r = Some v → jsonb_in (render go_quote v) = Some s →
  residualMagnitude s = fzero.
Proof using.
  intros Hw Hv Hs. apply blob_members in Hv as (Hwr & Hh & ms & -> & Hn & Hk); [|done].
  assert (Hd : decode_all (render go_quote (JObj ms)) = Some (JObj ms)).
  { apply (decode_render go_quote); [done|]. transitivity 3%nat; [done|]. by apply Nat.leb_le. }
  destruct (jsonb_members _ _ _ Hs Hd Hn) as (ms' & Hd' & Hk' & _). unfold residualMagnitude.
  case_bool_decide; [done|]. unfold Unmarshal_floats. rewrite Hd'. rewrite decode_floats_other; [done|].
  intros k Hin. rewrite Hk' in Hin. apply Hk in Hin. unfold blob_keys in Hin. rewrite !elem_of_cons in Hin.
  destruct Hin as [->|[->|[->|[->|[->|Hin]]]]]; [..|by apply elem_of_nil in Hin];
    refine (bool_decide_unpack _ _); vm_compute; exact I.
Qed.

Lemma Derive_warning env id rc w r w' : Derive env id rc w = (Ok r, w') → utf8_valid (rr_Warning r) = true.
Proof using.
  unfold Derive. intros H. apply tx_bind_Ok in H as ([row links] & w1 & _ & H).
  apply tx_bind_Ok in H as (inherent & w2 & _ & H). case_bool_decide; [by injection H as <- _|].
  by apply tx_bind_Ok in H as (bds & w3 & _ & [= <- _]).
Qed.

(** Once the deriver has stored the residual of a risk, the list sorted by
    residual and age gives that risk the magnitude 0, the rank of a malformed
    score, whatever its residual is: the stored document has no likelihood and no
    impact. *)
Theorem derived_residual_has_no_magnitude {JN : JsonBNum} env riskID recompute w r w' row :
  DeriveAndPersist env riskID recompute w = (Ok r, w') →
  row ∈ risks w'.1 → tenant_of (env_ctx env) = Some (r_TenantID row) → r_ID row = riskID →
  residualMagnitude (r_ResidualScore row) = fzero.
Proof using.
  unfold DeriveAndPersist. intros H Hin Ht Hid. apply tx_bind_Ok in H as (res & w1 & Hd & H).
  apply Derive_warning in Hd. destruct (residualBlob res) as [blob|] eqn:Hb; [|done].
  apply tx_bind_Ok in H as (row' & w2 & H & [= <- <-]). unfold on_risks in H.
  destruct (inTx env _ w1.1) as [r1 d1] eqn:E. injection H as -> <-.
  apply (inTx_cases (λ d, d)) in E as [(t & a & Ht' & _ & E)|(e & [=] & _)]. rewrite Ht in Ht'. injection Ht' as <-.
  revert E. unfold run, tx_try, UpdateRiskResidual. destruct (jsonb_in _) as [s|] eqn:Hs; [|done].
  unfold update_risk. destruct (updated_rows _ _ _) eqn:Hu; [done|]. intros [= _ <-]. simpl in Hin.
  apply list_elem_of_In, in_map_iff in Hin as (x & Hx & _).
  destruct (at_key (r_TenantID row) riskID x) eqn:Ea; subst row; simpl.
  - by eapply blob_magnitude.
  - subst. unfold at_key in Ea. by rewrite !bool_decide_eq_true_2 in Ea.
Qed.
End Deriver.

(** ** A register with one mitigated risk *)
Module ResidualDemo.
#[local] Existing Instance binary_uuid.
#[local] Existing Instance canonical_jsonb.
#[local] Existing Instance canonical_jsonb_num.

(** An engine that reports a pass rate of one half for every control. *)
#[local] Instance steady_engine : EffectivenessEngine () := {|
  eng_Effectiveness _ _ := mret (Eval.mkEff (fdiv (of_Z 1) (of_Z 2)) 1 2 0 0);
  eng_ControlState _ _ _ _ := mret [];
  eng_EvaluateControl _ _ _ _ := mret 1%nat;
|}.

Definition env : Env := mkEnv {| ctx_tenant := Some "a1" |} healthy 9000 50%N.

Definition risk1 : Row :=
  mkRow 7 1 "Unpatched hosts" "" "operational" "nist_800_30" (js "{'impact':5,'likelihood':4}") "mitigate" "ops" "{}"
    None None "" "" "team" None [] 1000 1000.

Definition w0 : DB * () :=
  (mkDB [risk1] [mkLink 7 9 1 (Numeric 800) (Numeric 300) (Numeric 500) (Numeric 200) 1000;
                  mkLink 8 9 1 (Numeric 100) (Numeric 300) (Numeric 500) (Numeric 200) 1000] [] [] [] [(1%N, 9%N)] [], ()).

Definition derived : result Error ResidualResult * (DB * ()) := DeriveAndPersist env 7 true w0.
Definition result1 : ResidualResult :=
  match derived.1 with Ok r => r | Err _ => mkResidual 0 fzero fzero fzero [] "" end.
Definition row1 : Row := default risk1 (head (risks derived.2.1)).

Lemma derived_ok : derived = (Ok result1, derived.2).
Proof. vm_compute. reflexivity. Qed.

(** Its one link explains the one entry of the breakdown; the link of risk 8 does not
    count. *)
Lemma Derive_bounded_witness :
  rr_InherentScore result1 = of_Z 20 ∧ flt (rr_ResidualScore result1) (of_Z 20) = true ∧
  length (rr_Breakdown result1) = 1%nat ∧
  fle fzero (rr_ResidualScore result1) = true ∧ fle (rr_ResidualScore result1) (rr_InherentScore result1) = true.
Proof.
  destruct (Derive_bounded env 7 true w0 result1 (Derive env 7 true w0).2)
    as (t & row & links & Ht & _ & _ & _ & _ & _ & _ & Hl & Hb & _ & _ & _ & Hr); [vm_compute; reflexivity|].
  destruct Hr as [H1 H2]; [vm_compute; reflexivity..|].
  split; [vm_compute; reflexivity|]. split; [vm_compute; reflexivity|]. split; [|split; [exact H1|exact H2]].
  rewrite <- (Forall2_length _ _ _ Hb), Hl. vm_compute in Ht. injection Ht as <-. vm_compute. reflexivity.
Defined.

Lemma handle_writes_only_residuals_witness :
  (handle env (Eval.mkMsg "a1" (Some "a1001")) w0).1 = Eval.Ack ∧
  bool_decide (r_ResidualScore <$> risks (handle env (Eval.mkMsg "a1" (Some "a1001")) w0).2.1 = ["{}"]) = false ∧
  set_risks w0.1 [] = set_risks (handle env (Eval.mkMsg "a1" (Some "a1001")) w0).2.1 [].
Proof.
  split_and!; [vm_compute; reflexivity..|].
  exact (proj1 (handle_writes_only_residuals env (Eval.mkMsg "a1" (Some "a1001")) w0 _ _ (surjective_pairing _))).
Defined.

Lemma derived_residual_has_no_magnitude_witness :
  flt fzero (rr_ResidualScore result1) = true ∧ residualMagnitude (r_ResidualScore row1) = fzero.
Proof.
  split; [vm_compute; reflexivity|].
  apply (derived_residual_has_no_magnitude env 7 true w0 result1 derived.2); [exact derived_ok|..];
    vm_compute; first [reflexivity|left].
Defined.
End ResidualDemo.
