(* ===== verification/RiskOrgSpec.v ===== *)
(** * Organizational units: the parent chain always ends

    Create, update and delete keep the parent relation of every tenant without
    cycles, so that the recursive query behind the cycle check returns; the check
    refuses exactly the parents below the unit; two updates checked on the same
    state build a cycle; and a unit that something still points at cannot be
    deleted. *)

From Stdlib Require Import Ascii SpecFloat.
From stdpp Require Import relations.
From S2P Require Import Prelude GoTime Tenancy Json Sha256 Float64 Scope GoJson Risk RiskDB RiskStore.
Import Risk RiskDB RiskStore.

(** ** Chains over an abstract parent function *)

(** [f x] is [None] when there is no unit [x], and [Some p] for a unit whose
    parent is [p]. *)
Inductive ends (f : UUID → option (option UUID)) : UUID → list UUID → Prop :=
| ends_none x : f x = None → ends f x []
| ends_root x : f x = Some None → ends f x [x]
| ends_step x p l : f x = Some (Some p) → ends f p l → ends f x (x :: l).

Definition above (f : UUID → option (option UUID)) (x p : UUID) : Prop := f x = Some (Some p).

Section Ends.
Context {f : UUID → option (option UUID)}.

Lemma ends_fun x l l' : ends f x l → ends f x l' → l = l'.
Proof using.
  intros H. revert l'. induction H as [x H|x H|x p l H _ IH]; intros l'; inversion 1; subst; try congruence.
  f_equal. apply IH. by assert (p0 = p) as -> by congruence.
Qed.

(** Every unit of a chain has the rest of the chain as its own. *)
Lemma ends_suffix x l y : ends f x l → y ∈ l → ∃ k, ends f y (y :: k) ∧ (length (y :: k) ≤ length l)%nat.
Proof using.
  induction 1 as [x H|x H|x p l H Hp IH]; [by intros ?%elem_of_nil| |].
  - intros ->%list_elem_of_singleton. exists []. split; [by constructor|done].
  - intros [->|Hy]%elem_of_cons; [exists l; split; [by econstructor|done]|].
    destruct (IH Hy) as (k & Hk & Hl). exists k. split; [done|]. simpl in *. lia.
Qed.

Lemma ends_NoDup x l : ends f x l → NoDup l.
Proof using.
  induction 1 as [x H|x H|x p l H Hp IH]; [constructor|apply NoDup_singleton|].
  constructor; [|done]. intros Hx. destruct (ends_suffix _ _ _ Hp Hx) as (k & Hk & Hl).
  assert (E : x :: k = x :: l) by (eapply ends_fun; [exact Hk|by econstructor]).
  rewrite E in Hl. simpl in Hl. lia.
Qed.

Lemma ends_units x l y : ends f x l → y ∈ l → is_Some (f y).
Proof using.
  intros H Hy. destruct (ends_suffix _ _ _ H Hy) as (k & Hk & _). inversion Hk; eauto.
Qed.

(** The chain of [x] holds exactly the units above it. *)
Lemma ends_above x l y : ends f x l → is_Some (f y) → y ∈ l ↔ rtc (above f) x y.
Proof using.
  intros H Hy. split.
  - induction H as [x H|x H|x p l H Hp IH]; [by intros ?%elem_of_nil|by intros ->%list_elem_of_singleton|].
    intros [->|Hin]%elem_of_cons; [done|]. eapply rtc_l; [exact H|auto].
  - intros Hr. revert l H. induction Hr as [x|x p y Hp Hr IH]; intros l H.
    + inversion H; subst; [destruct Hy; congruence|left|left].
    + inversion H as [|x' E|x' p' l' E Hl]; subst; unfold above in Hp; [congruence..|].
      right. apply IH; [done|]. by assert (p = p') as -> by congruence.
Qed.

Lemma ends_acyclic x l : ends f x l → ¬ tc (above f) x x.
Proof using.
  intros H Ht.
  assert (∃ p, above f x p ∧ rtc (above f) p x) as (p & Hp & Hr) by (inversion Ht; subst; eauto using tc_rtc, rtc_refl).
  inversion H as [|x' E|x' p' l' E Hl]; subst; unfold above in Hp; [congruence..|].
  assert (p' = p) as -> by congruence. apply ends_NoDup in H as Hn. apply NoDup_cons in Hn as [Hn _].
  apply Hn. by apply (ends_above _ _ _ Hl).
Qed.
End Ends.

(** Replacing, adding or removing one unit. *)
Section Change.
Context {f g : UUID → option (option UUID)} {c : UUID}.
Context (Hfg : ∀ x, x ≠ c → g x = f x).

Lemma ends_avoid x l : ends f x l → ¬ (c ∈ l) → (f x = None → x ≠ c) → (∀ y, f y = Some (Some c) → is_Some (f c)) →
  ends g x l.
Proof using Hfg.
  induction 1 as [x H|x H|x p l H Hp IH]; intros Hc Hx Hfk.
  - constructor. rewrite Hfg; auto.
  - constructor. rewrite Hfg; [done|]. intros ->. apply Hc. left.
  - econstructor; [rewrite Hfg; [done|]; intros ->; apply Hc; left|].
    apply IH; [by intros ?; apply Hc; right| |done]. intros E ->. destruct (Hfk _ H) as [? E']. congruence.
Qed.

(** Once the changed unit has a chain, every other unit still has one. *)
Lemma ends_change : (∃ l, ends g c l) → ∀ x l, ends f x l → ∃ l', ends g x l'.
Proof using Hfg.
  intros Hc x l. induction 1 as [x H|x H|x p l H Hp [l' IH]]; (destruct (decide (x = c)) as [->|Hx]; [done|]);
    rewrite <- Hfg in H by done; eauto using ends.
Qed.
End Change.

(** ** The units of a tenant *)

Definition parents (d : DB) (t x : UUID) : option (option UUID) := o_ParentID <$> find_unit d t x.

Lemma chain_ends n d t x l : chain n d t x = Some l → ends (parents d t) x l ∧ (length l ≤ n)%nat.
Proof.
  revert x l. induction n as [|n IH]; intros x l; cbn [chain];
    (destruct (find_unit d t x) as [u|] eqn:Hu;
     [|intros [= <-]; split; [constructor; unfold parents; by rewrite Hu|simpl; lia]]); [done|].
  destruct (o_ParentID u) as [p|] eqn:Hp.
  - destruct (chain n d t p) as [k|] eqn:Hk; [|done]. intros [= <-]. apply IH in Hk as [He Hl]. simpl. split; [|lia].
    econstructor; [unfold parents; rewrite Hu; simpl; by rewrite Hp|done].
  - intros [= <-]. simpl. split; [|lia]. apply ends_root. unfold parents. rewrite Hu. simpl. by rewrite Hp.
Qed.

Lemma ends_chain d t x l n : ends (parents d t) x l → (length l ≤ n)%nat → chain n d t x = Some l.
Proof.
  intros H. revert n. unfold parents in H. induction H as [x H|x H|x p l H Hp IH]; intros n Hn;
    (destruct n as [|n]; simpl in Hn; try lia); cbn [chain]; destruct (find_unit d t x) as [u|]; try done;
    injection H as ->; [done|]. by rewrite IH by lia.
Qed.

Lemma find_unit_elem d t x u : find_unit d t x = Some u → u ∈ org_units d ∧ o_TenantID u = t ∧ o_ID u = x.
Proof.
  unfold find_unit. intros H%head_Some_elem_of. apply elem_of_select_where in H as [H Hu]. split; [done|].
  by apply andb_prop in H as [E1%bool_decide_eq_true E2%bool_decide_eq_true].
Qed.

(** A chain that ends is not longer than the table. *)
Lemma ends_short d t x l : ends (parents d t) x l → (length l ≤ length (org_units d))%nat.
Proof.
  intros H. rewrite <- (length_fmap o_ID (org_units d)). apply submseteq_length, NoDup_submseteq.
  - by eapply ends_NoDup.
  - intros y Hy. destruct (ends_units _ _ _ H Hy) as [p Hp]. unfold parents in Hp.
    destruct (find_unit d t y) as [u|] eqn:Hu; [|done]. apply find_unit_elem in Hu as (Hu & _ & <-).
    by apply list_elem_of_fmap_2.
Qed.

Lemma ParentChainIDs_ends d t x l : ParentChainIDs t x d = (Ok l, d) ↔ ends (parents d t) x l.
Proof.
  unfold ParentChainIDs. split.
  - destruct (chain _ d t x) eqn:E; [|done]. intros [= ->]. by apply chain_ends in E as [? _].
  - intros H. by rewrite (ends_chain _ _ _ _ _ H (ends_short _ _ _ _ H)).
Qed.

(** ** What each statement does to the parents *)

Lemma head_select_app {A} (p : A → bool) l k :
  head (select_where p (l ++ k)) = match head (select_where p l) with Some x => Some x | None => head (select_where p k) end.
Proof. rewrite select_where_app. by destruct (select_where p l). Qed.

Lemma unit_at_spec t x u : unit_at t x u = true ↔ o_TenantID u = t ∧ o_ID u = x.
Proof. unfold unit_at. by rewrite andb_true_iff, !bool_decide_eq_true. Qed.

Lemma has_unit_parents d t x : has_unit d t x = true ↔ is_Some (parents d t x).
Proof.
  unfold has_unit, parents, find_unit. rewrite existsb_exists, fmap_is_Some. split.
  - intros (u & Hu & H). apply list_elem_of_In in Hu.
    assert (Hin : u ∈ select_where (unit_at t x) (org_units d)) by by apply elem_of_select_where.
    destruct (select_where _ _); [by apply elem_of_nil in Hin|]. by eexists.
  - intros [u H%head_Some_elem_of]. apply elem_of_select_where in H as [H Hu]. exists u. split; [|done].
    by apply list_elem_of_In.
Qed.

Lemma parents_insert d u t x :
  ¬ (o_ID u ∈ o_ID <$> org_units d) →
  parents (set_units d (org_units d ++ [u])) t x =
  if decide (o_TenantID u = t ∧ o_ID u = x) then Some (o_ParentID u) else parents d t x.
Proof.
  intros Hf. unfold parents, find_unit. cbn [org_units set_units]. rewrite head_select_app.
  destruct (head (select_where (unit_at t x) (org_units d))) as [v|] eqn:Hv.
  - pose proof (find_unit_elem _ _ _ _ Hv) as (Hin & E1 & E2). rewrite decide_False; [done|].
    intros [_ E]. apply Hf. rewrite E, <- E2. by apply list_elem_of_fmap_2.
  - unfold select_where. rewrite filter_cons, filter_nil.
    destruct (decide (unit_at t x u = true)) as [H|H]; rewrite unit_at_spec in H.
    + by rewrite decide_True.
    + by rewrite decide_False.
Qed.

Lemma parents_update d t0 id name par level a t x :
  parents (set_units d (update_where (unit_at t0 id) (set_unit name par level a) (org_units d))) t x =
  if decide (t0 = t ∧ id = x) then (λ _, par) <$> parents d t x else parents d t x.
Proof.
  unfold parents, find_unit. cbn [org_units set_units]. induction (org_units d) as [|u l IH]; [by case_decide|].
  unfold update_where, select_where in *. cbn [map]. rewrite !filter_cons.
  destruct (unit_at t0 id u) eqn:Hu.
  - apply unit_at_spec in Hu as [E1 E2].
    assert (Hs : unit_at t x (set_unit name par level a u) = unit_at t x u) by done. rewrite Hs.
    destruct (decide (unit_at t x u = true)) as [H|H]; [|exact IH].
    apply unit_at_spec in H as [E3 E4]. simpl. rewrite decide_True by (split; congruence). done.
  - destruct (decide (unit_at t x u = true)) as [H|H]; [|exact IH]. simpl.
    apply unit_at_spec in H as [E3 E4]. rewrite decide_False; [done|]. intros [-> ->].
    by rewrite (proj2 (unit_at_spec _ _ _)) in Hu.
Qed.

Lemma parents_delete d t0 id t x :
  parents (set_units d (filter (λ u, unit_at t0 id u = false) (org_units d))) t x =
  if decide (t0 = t ∧ id = x) then None else parents d t x.
Proof.
  unfold parents, find_unit. cbn [org_units set_units]. induction (org_units d) as [|u l IH]; [by case_decide|].
  unfold select_where in *. rewrite !filter_cons. destruct (unit_at t0 id u) eqn:Hu.
  - rewrite decide_False by done. rewrite IH. apply unit_at_spec in Hu as [E1 E2]. case_decide as Hd; [done|].
    rewrite decide_False; [done|]. rewrite unit_at_spec. intros [E3 E4]. apply Hd. split; congruence.
  - rewrite decide_True by done. rewrite filter_cons.
    destruct (decide (unit_at t x u = true)) as [H|H]; [|exact IH]. simpl. rewrite decide_False; [done|].
    intros [-> ->]. congruence.
Qed.

(** ** The invariant *)

(** Parents exist, and every chain ends. *)
Record rooted (d : DB) : Prop := {
  rooted_fk t x p : parents d t x = Some (Some p) → is_Some (parents d t p);
  rooted_ends t x : ∃ l, ends (parents d t) x l;
}.

Lemma rooted_ext d d' : org_units d' = org_units d → rooted d → rooted d'.
Proof.
  intros E. assert (Hp : ∀ t, parents d' t = parents d t).
  { intros t. unfold parents, find_unit. by rewrite E. }
  intros [H1 H2]. split; intros t x; rewrite Hp; eauto.
Qed.

Lemma ends_same f g x l : (∀ y, g y = f y) → ends f x l → ends g x l.
Proof. intros Hfg. induction 1; econstructor; rewrite ?Hfg; eauto. Qed.

(** A change confined to one unit of one tenant. *)
Lemma rooted_change d d' t0 id (new : option (option UUID)) :
  rooted d → (∀ t x, parents d' t x = if decide (t0 = t ∧ id = x) then new else parents d t x) →
  (∃ l, ends (parents d' t0) id l) →
  (∀ x p, parents d' t0 x = Some (Some p) → is_Some (parents d' t0 p)) → rooted d'.
Proof.
  intros [Hfk He] Hp Hid Hfk'.
  assert (Ho : ∀ t, t ≠ t0 → ∀ x, parents d' t x = parents d t x).
  { intros t Ht x. rewrite Hp. by rewrite decide_False by (intros []; congruence). }
  split; intros t x.
  - intros p. destruct (decide (t = t0)) as [->|Ht]; [apply Hfk'|]. rewrite !(Ho t Ht). apply Hfk.
  - destruct (decide (t = t0)) as [->|Ht].
    + destruct (He t0 x) as [l Hl]. eapply (ends_change (c := id)); [|exact Hid|exact Hl].
      intros y Hy. rewrite Hp. by rewrite decide_False by (intros []; congruence).
    + destruct (He t x) as [l Hl]. exists l. eapply ends_same; [|exact Hl]. by apply Ho.
Qed.

Section OrgUnits.
Context {UT : UUIDText} {JB : JsonB}.

Implicit Types (env : Env) (d : DB).

Lemma run_Ok {A} stmt (m : Tx DB QueryErr A) e d a d' : run stmt m e d = (Ok a, d') → m d = (Ok a, d').
Proof using. unfold run, tx_try. by destruct (m d) as [[|[]] d1]; intros [= -> ->]. Qed.

(** ** Each operation keeps it *)

Lemma decided_Some d d' t0 id (new : option UUID) :
  (∀ t x, parents d' t x = if decide (t0 = t ∧ id = x) then Some new else parents d t x) →
  ∀ t x, is_Some (parents d t x) → is_Some (parents d' t x).
Proof using. intros Hp t x Hx. rewrite Hp. case_decide; eauto. Qed.

(** Giving a unit a parent whose chain avoids it, or none. *)
Lemma rooted_attach d d' t0 id par :
  rooted d → (∀ t x, parents d' t x = if decide (t0 = t ∧ id = x) then Some par else parents d t x) →
  (∀ p, par = Some p → is_Some (parents d t0 p) ∧ ∃ l, ends (parents d t0) p l ∧ ¬ (id ∈ l)) → rooted d'.
Proof using.
  intros Hr Hp Hpar. eapply rooted_change; [exact Hr|exact Hp| |].
  - destruct par as [p|].
    + destruct (Hpar p eq_refl) as (Hs & l & Hl & Hid). exists (id :: l). eapply ends_step; [by rewrite Hp, decide_True|].
      eapply (ends_avoid (c := id)); [|exact Hl|done| |].
      * intros y Hy. rewrite Hp. by rewrite decide_False by (intros []; congruence).
      * intros E. rewrite E in Hs. by destruct Hs.
      * intros y. apply (rooted_fk _ Hr).
    + exists [id]. apply ends_root. by rewrite Hp, decide_True.
  - intros x q. rewrite Hp. case_decide as Hd.
    + intros [= ->]. destruct (Hpar q eq_refl) as [Hs _]. by eapply decided_Some.
    + intros H. eapply decided_Some; [exact Hp|]. by eapply rooted_fk.
Qed.

Lemma ends_nonempty f x l : ends f x l → length l ≠ 0%nat → is_Some (f x).
Proof using. intros H Hl. by inversion H; subst; eauto. Qed.

Lemma rooted_create env i d : rooted d → rooted (CreateOrgUnit env i d).2.
Proof using.
  intros Hr. unfold CreateOrgUnit. destruct (negb _); [done|].
  destruct (inTx env _ d) as [r d'] eqn:E. simpl.
  apply (inTx_cases (λ d, d)) in E as [(t & a & _ & _ & E)|(e & _ & ->)]; [|done].
  apply tx_bind_Ok in E as ([] & d1 & Hpar & E). apply tx_bind_Ok in E as (u & d2 & E & [= _ <-]).
  assert (Hc : d1 = d ∧ ∀ p, ui_ParentID i = Some p → is_Some (parents d t p) ∧ ∃ l, ends (parents d t) p l).
  { destruct (ui_ParentID i) as [p|]; [|by injection Hpar as <-].
    apply tx_bind_Ok in Hpar as (l & d3 & Hl%run_Ok & Hpar).
    assert (d3 = d) as -> by (unfold ParentChainIDs in Hl; by destruct (chain _ _ _ _); injection Hl).
    case_bool_decide as Hlen; [done|]. injection Hpar as <-. split; [done|]. intros q [= <-].
    apply ParentChainIDs_ends in Hl. split; [by eapply ends_nonempty|by eexists]. }
  destruct Hc as [-> Hc]. apply run_Ok in E. unfold CreateOrgUnitQ in E. destruct (jsonb_in _) as [au|]; [|done].
  destruct (negb _ && _) eqn:Hg; [|done]. injection E as _ <-. apply andb_prop in Hg as [Hf%negb_true_iff%bool_decide_eq_false _].
  eapply (rooted_attach d _ t (env_newID env)); [done|intros t' x; by apply parents_insert|].
  intros p Hpp. simpl in Hpp. destruct (Hc p Hpp) as (Hs & l & Hl). split; [done|]. exists l. split; [done|].
  intros Hin. destruct (ends_units _ _ _ Hl Hin) as [q Hq]. apply Hf. unfold parents in Hq.
  destruct (find_unit d t _) as [v|] eqn:Hv; [|done]. apply find_unit_elem in Hv as (Hv & _ & <-).
  by apply list_elem_of_fmap_2.
Qed.

Lemma checkParent_Ok t id par d d' :
  checkParent t id par d = (Ok (), d') →
  d' = d ∧ ∀ p, par = Some p → is_Some (parents d t p) ∧ ∃ l, ends (parents d t) p l ∧ ¬ (id ∈ l).
Proof using.
  unfold checkParent. destruct par as [p|]; [|by intros [= <-]]. case_bool_decide as Hne; [done|].
  intros H. apply tx_bind_Ok in H as (l & d1 & Hl%run_Ok & H).
  assert (d1 = d) as -> by (unfold ParentChainIDs in Hl; by destruct (chain _ _ _ _); injection Hl).
  apply ParentChainIDs_ends in Hl. case_bool_decide as Hlen; [done|]. case_bool_decide as Hin; [done|].
  injection H as <-. split; [done|]. intros q [= <-]. split; [by eapply ends_nonempty|]. by exists l.
Qed.

Lemma writeUnit_Ok t id i d u d' :
  writeUnit t id i d = (Ok u, d') →
  is_Some (parents d t id) ∧
  ∀ t' x, parents d' t' x = if decide (t = t' ∧ id = x) then Some (ui_ParentID i) else parents d t' x.
Proof using.
  unfold writeUnit. intros H. apply tx_bind_Ok in H as (v & d1 & H%run_Ok & [= _ <-]).
  unfold UpdateOrgUnitQ in H. destruct (jsonb_in _) as [a|]; [|done].
  destruct (updated_rows _ _ _) as [|w l] eqn:Hu; [done|]. destruct (check_unit d w); [|done]. injection H as _ <-.
  assert (Hs : is_Some (parents d t id)).
  { unfold parents, find_unit. unfold updated_rows in Hu. destruct (select_where _ _); [done|]. by eexists. }
  split; [done|]. intros t' x. rewrite parents_update. case_decide as Hd; [|done]. destruct Hd as [-> ->].
  by destruct Hs as [? ->].
Qed.

Lemma rooted_update env id i d : rooted d → rooted (UpdateOrgUnit env id i d).2.
Proof using.
  intros Hr. unfold UpdateOrgUnit. destruct (negb _); [done|]. destruct (inTx env _ d) as [r d'] eqn:E. simpl.
  apply (inTx_cases (λ d, d)) in E as [(t & a & _ & _ & E)|(e & _ & ->)]; [|done].
  apply tx_bind_Ok in E as ([] & d1 & [-> Hc]%checkParent_Ok & [Hs Hw]%writeUnit_Ok).
  by eapply rooted_attach.
Qed.

Lemma rooted_delete env id d : rooted d → rooted (DeleteOrgUnit env id d).2.
Proof using.
  intros Hr. unfold DeleteOrgUnit. destruct (inTx env _ d) as [r d'] eqn:E. simpl.
  apply (inTx_cases (λ d, d)) in E as [(t & a & _ & _ & E)|(e & _ & ->)]; [|done].
  apply tx_bind_Ok in E as (u & d1 & Hg%run_Ok & E%run_Ok). injection Hg as _ <-.
  unfold DeleteOrgUnitQ in E. destruct (_ || _) eqn:Hx; [done|]. injection E as _ <-.
  apply orb_false_iff in Hx as [Hx _].
  pose proof (parents_delete d t id) as Hp. eapply rooted_change; [exact Hr|exact Hp| |].
  - exists []. constructor. by rewrite Hp, decide_True.
  - intros x q. rewrite Hp. case_decide as Hd; [done|]. intros Hq. rewrite Hp.
    rewrite decide_False; [by eapply rooted_fk|]. intros [_ <-].
    unfold parents in Hq. destruct (find_unit d t x) as [v|] eqn:Hv; [|done]. injection Hq as Hq.
    apply find_unit_elem in Hv as (Hv & Et & Ex). apply not_true_iff_false in Hx. apply Hx, existsb_exists.
    exists v. split; [|by rewrite !bool_decide_eq_true_2].
    apply list_elem_of_In, list_elem_of_filter. split; [|done]. apply not_true_iff_false. rewrite unit_at_spec.
    intros [_ E]. apply Hd. split; congruence.
Qed.

(** ** Histories *)

(** One call on the units, or anything that leaves their table alone. *)
Inductive step : DB → DB → Prop :=
| step_create env i d : step d (CreateOrgUnit env i d).2
| step_update env id i d : step d (UpdateOrgUnit env id i d).2
| step_delete env id d : step d (DeleteOrgUnit env id d).2
| step_other d d' : org_units d' = org_units d → step d d'.

Definition reachable d : Prop := ∃ d0, org_units d0 = [] ∧ rtc step d0 d.

Lemma rooted_empty d : org_units d = [] → rooted d.
Proof using.
  intros E. assert (Hp : ∀ t x, parents d t x = None) by (intros; unfold parents, find_unit; by rewrite E).
  split; intros t x; [by rewrite Hp|]. exists []. by constructor.
Qed.

Lemma rooted_step d d' : step d d' → rooted d → rooted d'.
Proof using.
  destruct 1; [apply rooted_create|apply rooted_update|apply rooted_delete|by apply rooted_ext].
Qed.

Lemma reachable_rooted d : reachable d → rooted d.
Proof using.
  intros (d0 & E & H). apply rooted_empty in E. revert E. induction H; [done|]. eauto using rooted_step.
Qed.

(** C20: in every state the calls on organizational units can reach one after the
    other, the recursive query that walks up from any identifier returns, with no
    unit twice and no more units than the table has; and no unit of any tenant is
    above itself. *)
Theorem parent_chain_terminates d :
  reachable d →
  (∀ t x, ∃ ids, ParentChainIDs t x d = (Ok ids, d) ∧ NoDup ids ∧ (length ids ≤ length (org_units d))%nat) ∧
  (∀ t x, ¬ tc (above (parents d t)) x x).
Proof using.
  intros H%reachable_rooted. split; intros t x; destruct (rooted_ends _ H t x) as [l Hl].
  - exists l. rewrite ParentChainIDs_ends. eauto using ends_NoDup, ends_short.
  - by eapply ends_acyclic.
Qed.

Lemma writeUnit_no_cycle_error t id i d : (writeUnit t id i d).1 ≠ Err ErrCycleDetected.
Proof using.
  unfold writeUnit, mbind, tx_bind, run, tx_try. by destruct (UpdateOrgUnitQ _ _ _ _ _ _ d) as [[|[]] d'].
Qed.

Lemma rtc_above_Some d t p x : rooted d → rtc (above (parents d t)) p x → p = x ∨ is_Some (parents d t x).
Proof using.
  intros Hr [->|(y & _ & H)]%rtc_inv_r; [by left|]. right. by eapply rooted_fk.
Qed.

(** On a reachable state, an update that names a parent fails with the cycle
    error exactly when that parent is the unit itself or below it, and a parent
    that does not exist is reported as not found. *)
Theorem UpdateOrgUnit_refuses_cycles ctx now fresh id i d t p :
  reachable d → tenant_of ctx = Some t → isValidLevel (ui_Level i) = true → ui_ParentID i = Some p →
  ((UpdateOrgUnit (mkEnv ctx healthy now fresh) id i d).1 = Err ErrCycleDetected ↔ rtc (above (parents d t)) p id) ∧
  (p ≠ id → parents d t p = None → UpdateOrgUnit (mkEnv ctx healthy now fresh) id i d = (Err ErrNotFound, d)).
Proof using.
  intros Hr%reachable_rooted Ht Hlv Hpar. unfold UpdateOrgUnit, inTx. rewrite Hlv. cbn [negb env_infra env_ctx].
  rewrite (inTx_healthy (λ d : DB, d) ctx t) by done. rewrite Hpar. destruct (rooted_ends _ Hr t p) as [l Hl].
  pose proof (proj2 (ParentChainIDs_ends _ _ _ _) Hl) as Hq.
  unfold checkParent, exec, run, tx_try, mbind, tx_bind. case_bool_decide as Hid; [subst; split; [split; done|done]|].
  rewrite Hq. simpl. case_bool_decide as Hlen.
  - destruct l; [|done]. inversion Hl; subst. split; [|done]. split; [done|]. intros Hup. exfalso.
    apply rtc_inv in Hup as [->|(y & Hy & _)]; [done|]. unfold above in Hy. congruence.
  - assert (Hs : is_Some (parents d t p)) by by eapply ends_nonempty.
    split; [|intros _ E; rewrite E in Hs; by destruct Hs]. case_bool_decide as Hin; simpl.
    + split; [|done]. intros _. apply (ends_above _ _ _ Hl); [|done]. by eapply ends_units.
    + split.
      * pose proof (writeUnit_no_cycle_error t id i d) as Hw. by destruct (writeUnit t id i d) as [[|] d'].
      * intros H. exfalso. apply Hin. apply (ends_above _ _ _ Hl); [|done].
        by destruct (rtc_above_Some _ _ _ _ Hr H).
Qed.

(** A unit that still has a unit below it, or a risk attributed to it, cannot
    be deleted: the call fails and changes nothing. *)
Theorem DeleteOrgUnit_blocked ctx now fresh id d t :
  tenant_of ctx = Some t → has_unit d t id = true →
  (∃ u, u ∈ org_units d ∧ o_TenantID u = t ∧ o_ID u ≠ id ∧ o_ParentID u = Some id) ∨
  (∃ r, r ∈ risks d ∧ r_TenantID r = t ∧ r_OrgUnitID r = Some id) →
  DeleteOrgUnit (mkEnv ctx healthy now fresh) id d = (Err (ErrStatement "delete org_unit"), d).
Proof using.
  intros Ht Hu Hx. unfold DeleteOrgUnit, inTx. cbn [env_infra env_ctx]. rewrite (inTx_healthy (λ d : DB, d) ctx t) by done.
  apply has_unit_parents in Hu as [q Hu]. unfold parents, find_unit in Hu.
  unfold exec, run, tx_try, mbind, tx_bind, GetOrgUnitByID.
  destruct (select_where (unit_at t id) (org_units d)) as [|v l]; [done|]. simpl. unfold DeleteOrgUnitQ.
  assert (Hb : existsb (λ u, bool_decide (o_TenantID u = t) && bool_decide (o_ParentID u = Some id))
      (filter (λ u, unit_at t id u = false) (org_units d)) ||
    existsb (λ r, bool_decide (r_TenantID r = t) && bool_decide (r_OrgUnitID r = Some id)) (risks d) = true); [|by rewrite Hb].
  apply orb_true_iff. destruct Hx as [(u & Hin & E1 & E2 & E3)|(r & Hin & E1 & E2)].
  - left. apply existsb_exists. exists u. split; [|by rewrite !bool_decide_eq_true_2].
    apply list_elem_of_In, list_elem_of_filter. split; [|done]. apply not_true_iff_false. rewrite unit_at_spec. tauto.
  - right. apply existsb_exists. exists r. split; [by apply list_elem_of_In|by rewrite !bool_decide_eq_true_2].
Qed.
End OrgUnits.

(** Two units above each other: the query never ends. *)
Lemma chain_cycle d t a b n :
  parents d t a = Some (Some b) → parents d t b = Some (Some a) → chain n d t a = None ∧ chain n d t b = None.
Proof.
  intros Ha Hb. unfold parents in *. destruct (find_unit d t a) as [u|] eqn:Hu; [|done].
  destruct (find_unit d t b) as [v|] eqn:Hv; [|done]. injection Ha as Ha. injection Hb as Hb.
  induction n as [|n [IHa IHb]]; cbn [chain]; rewrite Hu, Hv, ?Ha, ?Hb; [done|]. by rewrite IHa, IHb.
Qed.

(** ** A small hierarchy *)
Module OrgDemo.
#[local] Existing Instance binary_uuid.
#[local] Existing Instance canonical_jsonb.

Definition env (fresh : UUID) : Env := mkEnv {| ctx_tenant := Some "a1" |} healthy 1000 fresh.
Definition unit_in (name : string) (parent : option UUID) : OrgUnitInput := mkUnitInput name parent "org" "".

(** Two roots, then a unit below the first. *)
Definition d0 : DB := mkDB [] [] [] [] [] [] [].
Definition d1 : DB := (CreateOrgUnit (env 2) (unit_in "Platform" None) d0).2.
Definition d2 : DB := (CreateOrgUnit (env 3) (unit_in "Product" None) d1).2.
Definition d3 : DB := (CreateOrgUnit (env 4) (unit_in "Storage" (Some 2%N)) d2).2.

Lemma reachable_d2 : reachable d2.
Proof. exists d0. split; [done|]. do 2 (eapply rtc_r; [|apply step_create]). done. Qed.
Lemma reachable_d3 : reachable d3.
Proof. destruct reachable_d2 as (d & E & H). exists d. split; [done|]. eapply rtc_r; [exact H|apply step_create]. Qed.

Lemma parent_chain_terminates_witness :
  ParentChainIDs 1 4 d3 = (Ok [4; 2]%N, d3) ∧ ¬ tc (above (parents d3 1)) 2%N 2%N.
Proof. split; [vm_compute; reflexivity|]. exact (proj2 (parent_chain_terminates d3 reachable_d3) 1%N 2%N). Defined.

Lemma UpdateOrgUnit_refuses_cycles_witness :
  (UpdateOrgUnit (env 9) 2 (unit_in "Platform" (Some 4%N)) d3).1 = Err ErrCycleDetected ∧
  rtc (above (parents d3 1)) 4%N 2%N.
Proof.
  assert (H : (UpdateOrgUnit (env 9) 2 (unit_in "Platform" (Some 4%N)) d3).1 = Err ErrCycleDetected)
    by (vm_compute; reflexivity).
  split; [exact H|].
  exact (proj1 (proj1 (UpdateOrgUnit_refuses_cycles {| ctx_tenant := Some "a1" |} 1000 9%N 2%N
    (unit_in "Platform" (Some 4%N)) d3 1%N 4%N reachable_d3 eq_refl eq_refl eq_refl)) H).
Defined.

Lemma DeleteOrgUnit_blocked_witness :
  DeleteOrgUnit (env 9) 2 d3 = (Err (ErrStatement "delete org_unit"), d3) ∧
  (DeleteOrgUnit (env 9) 3 d3).1 = Ok ().
Proof.
  split; [|vm_compute; reflexivity].
  apply (DeleteOrgUnit_blocked {| ctx_tenant := Some "a1" |} 1000 9%N 2%N d3 1%N); [reflexivity|vm_compute; reflexivity|].
  left. exists (mkUnit 4 1 "Storage" (Some 2%N) "org" "[]").
  split_and!; [|vm_compute; first [reflexivity|discriminate]..]. vm_compute. right. right. left.
Defined.

(** Two transactions that each move one root below the other both pass the
    cycle check on the state they read, and once both writes are stored the query
    that walks up from either unit never ends: no bound on its steps is enough. *)
Theorem concurrent_updates_build_cycle :
  checkParent 1 2 (Some 3%N) d2 = (Ok (), d2) ∧ checkParent 1 3 (Some 2%N) d2 = (Ok (), d2) ∧
  ∃ u v d d', writeUnit 1 2 (unit_in "Platform" (Some 3%N)) d2 = (Ok u, d) ∧
    writeUnit 1 3 (unit_in "Product" (Some 2%N)) d = (Ok v, d') ∧
    ∀ n, chain n d' 1 2 = None ∧ chain n d' 1 3 = None.
Proof.
  split_and!; [vm_compute; reflexivity..|]. do 4 eexists. split_and!; [vm_compute; reflexivity..|].
  intros n. by apply chain_cycle.
Qed.
End OrgDemo.
