(* ===== verification/RiskStoreSpec.v ===== *)
(** * The risk store: what is stored can be read

    A risk of a 5x5 methodology has a likelihood and an impact from 1 to 5 in its
    stored score, whichever operation created it, so that aggregation never meets
    an unreadable child; aggregating twice returns the first parent; the key under
    which it is found separates requests unless a title contains the separator; and
    one score written with a fraction part makes the heat map of its tenant fail. *)

From Stdlib Require Import Ascii SpecFloat.
From stdpp Require Import relations.
From S2P Require Import Prelude GoTime Tenancy Json Sha256 Float64 Scope GoJson Risk RiskDB RiskStore RiskAggregate RiskSpec.
Import Risk RiskDB RiskStore RiskAggregate.

(** ** Scores that satisfy the schema *)

(** The grid as a whole number from 1 to 5. *)
Definition grade (f : float64) : Prop := ∃ z, f = of_Z z ∧ 1 ≤ z ≤ 5.

Lemma feq_finite f s m e : feq f (S754_finite s m e) = true → f = S754_finite s m e.
Proof.
  unfold feq, SFeqb. destruct f as [| | |s' m' e']; cbn [SFcompare]; try (by destruct s); try done.
  { by destruct s0. }
  destruct s, s'; try done; (destruct (Z.compare_spec e' e) as [->|?|?]; [|done..]);
    change (Pos.compare_cont Eq m' m) with (Pos.compare m' m);
    by destruct (Pos.compare_spec m' m) as [->|?|?].
Qed.

Lemma feq_grade f z : feq f (of_Z z) = true → 1 ≤ z ≤ 5 → grade f.
Proof.
  intros H Hz. exists z. split; [|done].
  assert (z = 1 ∨ z = 2 ∨ z = 3 ∨ z = 4 ∨ z = 5) as [->|[->|[->|[->| ->]]]] by lia; by apply feq_finite.
Qed.

Lemma grade_int `{!GoArch} f : grade f → 1 ≤ int_of f ≤ 5.
Proof.
  intros (z & -> & Hz).
  assert (z = 1 ∨ z = 2 ∨ z = 3 ∨ z = 4 ∨ z = 5) as [->|[->|[->|[->| ->]]]] by lia; by vm_compute.
Qed.

Lemma grade_zero f v : grade f → unsigned_zero v = unsigned_zero (ANum f) → v = ANum f.
Proof.
  intros (z & -> & Hz).
  assert (z = 1 ∨ z = 2 ∨ z = 3 ∨ z = 4 ∨ z = 5) as [->|[->|[->|[->| ->]]]] by lia;
    vm_compute; by destruct v as [| |[]| | |].
Qed.

(** A decoded score on the grid. *)
Definition graded (m : list (string * any)) : Prop :=
  ∃ l i, get m "likelihood" = Some (ANum l) ∧ get m "impact" = Some (ANum i) ∧ grade l ∧ grade i.

(** What the two 5x5 schemas have in common. *)
Definition grid_property (props : list (string * json)) (k : string) : Prop :=
  ∃ sub, get props k = Some (JObj sub) ∧ get sub "type" = Some (JStr "integer") ∧
    ∃ lo hi, get sub "minimum" = Some (JNum lo) ∧ split_number lo = Some (false, 1, 0) ∧
             get sub "maximum" = Some (JNum hi) ∧ split_number hi = Some (false, 5, 0).

Definition grid_schema (schema : string) : Prop :=
  ∃ ms names props, decode_all schema = Some (JObj ms) ∧ get ms "type" = Some (JStr "object") ∧
    get ms "required" = Some (JArr names) ∧ JStr "likelihood" ∈ names ∧ JStr "impact" ∈ names ∧
    get ms "properties" = Some (JObj props) ∧ grid_property props "likelihood" ∧ grid_property props "impact".

Ltac grid_schema_tac :=
  do 3 eexists; split; [vm_compute; reflexivity|]; split_and!; [vm_compute; reflexivity|vm_compute; reflexivity|..];
  [left|right; left|vm_compute; reflexivity|..];
  (eexists; split; [vm_compute; reflexivity|]; split; [vm_compute; reflexivity|]; do 2 eexists;
   split_and!; vm_compute; reflexivity).

Lemma nist_grid : grid_schema nist80030Schema.
Proof. grid_schema_tac. Qed.
Lemma qualitative_grid : grid_schema qualitative5x5Schema.
Proof. grid_schema_tac. Qed.

Definition grid_methodology (m : string) : Prop := m = "nist_800_30" ∨ m = "qualitative_5x5".

Section Validation.
Context {JS : JSONSchema}.

Lemma grid_property_grade schema ms props k m v :
  schema_valid schema (AObj m) = true → decode_all schema = Some (JObj ms) →
  get ms "properties" = Some (JObj props) → grid_property props k → get m k = Some v → ∃ f, v = ANum f ∧ grade f.
Proof using.
  intros Hv Hd Hp (sub & Hs & Ht & lo & hi & Hlo & Ha & Hhi & Hb) Hk.
  destruct (schema_integer schema ms props k sub lo hi 1 5 m v) as (f & z & -> & Hf & Hz); try done.
  exists f. split; [done|]. by eapply feq_grade.
Qed.

Lemma grid_schema_graded schema v : grid_schema schema → schema_valid schema v = true → ∃ m, v = AObj m ∧ graded m.
Proof using.
  intros (ms & names & props & Hd & Ht & Hr & Hl & Hi & Hp & Gl & Gi) Hv.
  destruct (schema_object _ _ _ Hv Hd Ht) as [m ->]. exists m. split; [done|].
  destruct (schema_required _ _ _ _ _ Hv Hd Hr Hl) as [vl El]. destruct (schema_required _ _ _ _ _ Hv Hd Hr Hi) as [vi Ei].
  destruct (grid_property_grade _ _ _ _ _ _ Hv Hd Hp Gl El) as (l & -> & Hgl).
  destruct (grid_property_grade _ _ _ _ _ _ Hv Hd Hp Gi Ei) as (i & -> & Hgi). by exists l, i.
Qed.

Lemma validated_graded m s :
  grid_methodology m → ValidateInherentScore m s = None → ∃ o, Unmarshal_any s = Some (AObj o) ∧ graded o.
Proof using.
  intros Hm. unfold ValidateInherentScore.
  assert (∃ schema, methodologySchemas m = Some schema ∧ grid_schema schema) as (schema & -> & Hg).
  { destruct Hm as [->| ->]; eexists; (split; [reflexivity|]); [apply nist_grid|apply qualitative_grid]. }
  case_bool_decide; [done|]. destruct (Unmarshal_any s) as [v|]; [|done].
  destruct (schema_valid schema v) eqn:Hv; [|done]. intros _.
  destruct (grid_schema_graded _ _ Hg Hv) as (o & -> & Ho). by exists o.
Qed.
End Validation.

(** ** Reading stored documents *)

Lemma get_map_snd {A B} (f : A → B) m k : get (map (λ kv, (kv.1, f kv.2)) m) k = f <$> get m k.
Proof. induction m as [|[k' v] m IH]; simpl; [done|]. by case_bool_decide. Qed.

(** Hexadecimal text is plain ASCII. *)
Lemma hex_digit_cont n s : (n < 16)%N → utf8_valid (String (hex_digit n) s) = utf8_valid s.
Proof.
  intros Hn. assert (H : (n ∈ [0;1;2;3;4;5;6;7;8;9;10;11;12;13;14;15])%N).
  { assert (n = 0 ∨ n = 1 ∨ n = 2 ∨ n = 3 ∨ n = 4 ∨ n = 5 ∨ n = 6 ∨ n = 7 ∨ n = 8 ∨ n = 9 ∨ n = 10 ∨ n = 11 ∨
            n = 12 ∨ n = 13 ∨ n = 14 ∨ n = 15)%N as Hc by lia. rewrite !elem_of_cons. tauto. }
  rewrite !elem_of_cons in H. repeat destruct H as [->|H]; [done..|by apply elem_of_nil in H].
Qed.

Lemma EncodeToString_utf8 bs : Forall (λ b, (b < 256)%N) bs → utf8_valid (EncodeToString bs) = true.
Proof.
  induction 1 as [|b bs Hb _ IH]; [done|].
  change (EncodeToString (b :: bs)) with (String (hex_digit (b / 16)) (String (hex_digit (b mod 16)) (EncodeToString bs))).
  rewrite !hex_digit_cont; [done|..].
  - apply N.mod_lt. lia.
  - apply N.Div0.div_lt_upper_bound. lia.
Qed.

Lemma be_bytes_small k x : Forall (λ b, (b < 256)%N) (be_bytes k x).
Proof.
  revert x. induction k as [|k IH]; intros x; simpl; [constructor|]. apply Forall_app. split; [apply IH|].
  apply Forall_singleton, N.mod_lt. lia.
Qed.

Lemma sha256_hex_utf8 s : utf8_valid (sha256_hex s) = true.
Proof.
  with_strategy transparent [sha256_hex] unfold sha256_hex. apply EncodeToString_utf8. unfold Sum256.
  generalize (blocks (length (words (pad (bytes_of s))) / 16) (words (pad (bytes_of s))) initial).
  induction l as [|w l IH]; [constructor|]. rewrite bind_cons. apply Forall_app. split; [apply be_bytes_small|exact IH].
Qed.

Section Stored.
Context {JB : JsonB} {JN : JsonBNum}.

(** Up to the sign of zeros, a stored object has the members it was given. *)
Lemma stored_object s t m :
  jsonb_in s = Some t → Unmarshal_any s = Some (AObj m) →
  ∃ m', Unmarshal_any t = Some (AObj m') ∧ ∀ k, unsigned_zero <$> get m' k = unsigned_zero <$> get m k.
Proof using JN.
  intros Hs Hu. destruct (jsonb_any _ _ _ Hs Hu) as (b & Hb & E).
  destruct b as [| |[]| | |m']; try done. exists m'. split; [done|]. injection E as E. intros k.
  by rewrite <- !get_map_snd, E.
Qed.

Lemma same_member (x y : option any) v :
  unsigned_zero <$> x = unsigned_zero <$> y → y = Some v → (∀ w, unsigned_zero w = unsigned_zero v → w = v) → x = Some v.
Proof using. intros H -> Hv. destruct x as [w|]; [|done]. injection H as H. f_equal. auto. Qed.

Lemma same_graded m m' :
  (∀ k, unsigned_zero <$> get m' k = unsigned_zero <$> get m k) → graded m → graded m'.
Proof using.
  intros H (l & i & Hl & Hi & Gl & Gi). exists l, i.
  split_and!; [eapply same_member; [apply H|done|by intros w; apply grade_zero]..|done|done].
Qed.

(** The stored score of a risk, read as aggregation reads it. *)
Definition on_cell {GA : GoArch} (r : Row) : Prop :=
  ∃ l i, likelihoodImpactFromInherent (r_InherentScore r) = Ok (l, i) ∧ 1 ≤ l ≤ 5 ∧ 1 ≤ i ≤ 5.

Lemma graded_cell {GA : GoArch} r m : Unmarshal_any (r_InherentScore r) = Some (AObj m) → graded m → on_cell r.
Proof using.
  intros Hu (l & i & Hl & Hi & Gl & Gi). exists (int_of l), (int_of i).
  unfold likelihoodImpactFromInherent, Unmarshal_map, get_num. rewrite Hu, Hl, Hi. eauto using grade_int.
Qed.
End Stored.

(** ** The parent's score *)

Lemma any_of_members ms ms' : mapM (member_of any_of) ms = Some ms' → any_of (JObj ms) = Some (AObj (map_of ms')).
Proof. intros H. cbn [any_of]. unfold member_of in H. by rewrite H. Qed.

Lemma aggregate_any key n i l s fn :
  (∀ z, z ∈ [n; i; l; s] → 0 ≤ z < 2 ^ 63) →
  any_of (aggregate_score key n i l s fn) =
  Some (AObj [("aggregation_key", AStr key); ("child_count", ANum (of_Z n)); ("impact", ANum (of_Z i));
              ("likelihood", ANum (of_Z l)); ("severity", ANum (of_Z s)); ("severity_function", AStr fn)]).
Proof.
  intros H. unfold aggregate_score. set (m := [("aggregation_key", AStr key); _; _; _; _; _]).
  rewrite (any_of_members _ m); [done|]. apply mapM_Some.
  repeat constructor; unfold member_of; cbn [fst snd any_of]; rewrite ?ParseFloat_Itoa by (apply H; set_solver); done.
Qed.

Lemma aggregate_writable key n i l s fn :
  utf8_valid key = true → fn ∈ severity_functions →
  writable (aggregate_score key n i l s fn) ∧ height (aggregate_score key n i l s fn) = 1%nat.
Proof.
  intros Hk Hf. split; [|done].
  assert (Hu : utf8_valid fn = true).
  { unfold severity_functions in Hf. rewrite !elem_of_cons, elem_of_nil in Hf. by destruct Hf as [->|[->|[->|[]]]]. }
  constructor. repeat (constructor; [split; [done|]; constructor; first [done|apply Itoa_literal]|]). constructor.
Qed.

Lemma aggregate_decodes key n i l s fn :
  utf8_valid key = true → fn ∈ severity_functions →
  decode_all (render go_quote (aggregate_score key n i l s fn)) = Some (aggregate_score key n i l s fn).
Proof.
  intros Hk Hf. destruct (aggregate_writable key n i l s fn Hk Hf) as [Hw Hh].
  apply (decode_render go_quote); [done|]. rewrite Hh. by apply Nat.leb_le.
Qed.

Lemma aggregate_reads key n i l s fn :
  utf8_valid key = true → fn ∈ severity_functions → (∀ z, z ∈ [n; i; l; s] → 0 ≤ z < 2 ^ 63) →
  ∃ m, Unmarshal_any (render go_quote (aggregate_score key n i l s fn)) = Some (AObj m) ∧
    get m "severity" = Some (ANum (of_Z s)) ∧ get m "likelihood" = Some (ANum (of_Z l)) ∧
    get m "impact" = Some (ANum (of_Z i)) ∧ get m "severity_function" = Some (AStr fn) ∧
    get m "aggregation_key" = Some (AStr key).
Proof.
  intros Hk Hf Hz. eexists. unfold Unmarshal_any. rewrite aggregate_decodes by done. cbn [mbind option_bind].
  rewrite aggregate_any by done. by split_and!.
Qed.

(** ** What the statements add *)

Lemma tx_iter_keeps {S E A B} (P : S → B) (f : A → Tx S E ()) xs s s' :
  (∀ x s s', f x s = (Ok (), s') → P s' = P s) → tx_iter f xs s = (Ok (), s') → P s' = P s.
Proof.
  intros Hf. revert s. induction xs as [|x xs IH]; intros s; simpl; [by intros [= <-]|].
  intros ([] & s1 & H1 & H2)%tx_bind_Ok. by rewrite (IH s1 H2), (Hf _ _ _ H1).
Qed.

Lemma first_seen_length {A} `{!EqDecision A} (seen l : list A) : (length (first_seen seen l) ≤ length l)%nat.
Proof.
  revert seen. induction l as [|x l IH]; intros seen; simpl; [lia|]. case_bool_decide; simpl.
  - specialize (IH seen). lia.
  - specialize (IH (x :: seen)). lia.
Qed.

Lemma first_seen_elem {A} `{!EqDecision A} (seen l : list A) x :
  x ∈ first_seen seen l ↔ x ∈ l ∧ ¬ (x ∈ seen).
Proof.
  revert seen. induction l as [|y l IH]; intros seen; simpl; [set_solver|].
  case_bool_decide; rewrite ?elem_of_cons, IH, ?elem_of_cons; [set_solver|].
  destruct (decide (x = y)); set_solver.
Qed.

Lemma first_seen_NoDup {A} `{!EqDecision A} (seen l : list A) : NoDup (first_seen seen l).
Proof.
  revert seen. induction l as [|y l IH]; intros seen; simpl; [constructor|]. case_bool_decide; [done|].
  constructor; [|done]. rewrite first_seen_elem. set_solver.
Qed.

Section Inserts.
Context {UT : UUIDText} {JB : JsonB} {JN : JsonBNum} {JS : JSONSchema} {GA : GoArch} {GM : GoMath} {GS : GoStrings} {PL : Planner}.

Lemma insert_risk_Ok r d r' d' :
  insert_risk r d = (Ok r', d') →
  ∃ t, jsonb_in (r_InherentScore r) = Some t ∧ r_InherentScore r' = t ∧ r_Methodology r' = r_Methodology r ∧
       r_ID r' = r_ID r ∧ r_TenantID r' = r_TenantID r ∧ d' = set_risks d (risks d ++ [r']).
Proof using.
  unfold insert_risk. destruct (jsonb_in (r_InherentScore r)) as [t|] eqn:Ht; [|done].
  destruct (jsonb_in (r_ResidualScore r)) as [s|]; [|done].
  destruct (_ && _); [|done]. intros [= <- <-]. by exists t.
Qed.

Lemma exec_Ok {A} stmt (m : Tx DB QueryErr A) d a d' : exec stmt m d = (Ok a, d') → m d = (Ok a, d').
Proof using. unfold exec, run, tx_try. by destruct (m d) as [[|[]] d1]; intros [= -> ->]. Qed.

Lemma LinkRiskControl_risks now r c t d d' : LinkRiskControl now r c t d = (Ok (), d') → risks d' = risks d.
Proof using. unfold LinkRiskControl. repeat case_match; by intros [= <-]. Qed.

Lemma LinkRiskAggregation_risks now p c k t d d' : LinkRiskAggregation now p c k t d = (Ok (), d') → risks d' = risks d.
Proof using. unfold LinkRiskAggregation. repeat case_match; by intros [= <-]. Qed.

(** A successful [Create] adds one row, on the grid when its methodology has one. *)
Lemma Create_adds env i d v d' :
  Create env i d = (Ok v, d') → ∃ r, risks d' = risks d ++ [r] ∧ (grid_methodology (r_Methodology r) → on_cell r).
Proof using JN.
  unfold Create. set (m := if bool_decide (in_Methodology i = "") then _ else _). cbv zeta.
  destruct (ValidateInherentScore m _) eqn:Hv; [done|].
  destruct (createScores _ _ _) as [[inh res]|] eqn:Hc; [|done]. destruct (ValidateTreatment _); [done|].
  intros [(t & a & _ & _ & E)|(e & [=] & _)]%(inTx_cases (λ d, d)).
  apply tx_bind_Ok in E as (r & d1 & Hr%exec_Ok & E). apply tx_bind_Ok in E as ([] & d2 & Hl & [= _ <-]).
  apply (tx_iter_keeps risks) in Hl; [|intros c s s' Hx%exec_Ok; by eapply LinkRiskControl_risks].
  apply insert_risk_Ok in Hr as (doc & Hj & E1 & E2 & _ & _ & ->). exists r. rewrite Hl. split; [done|].
  rewrite E2. simpl. intros Hm. destruct (validated_graded _ _ Hm Hv) as (o & Ho & Hg).
  assert (inh = in_InherentScore i) as ->.
  { unfold createScores in Hc. rewrite bool_decide_eq_false_2 in Hc by by destruct Hm as [->| ->].
    by injection Hc. }
  destruct (stored_object _ _ _ Hj Ho) as (o' & Ho' & Hs). apply (graded_cell r o'); [by rewrite E1|].
  by eapply same_graded.
Qed.

Lemma capped_severity fn scores s : ComputeSeverity fn scores = Ok s → 0 ≤ s ≤ 25.
Proof using. unfold ComputeSeverity. repeat case_match; intros [= <-]; apply capScale_range. Qed.

Lemma grid_cell_range s l i : DeriveGridCell s = (l, i) → 1 ≤ l ≤ 5 ∧ 1 ≤ i ≤ 5.
Proof using.
  unfold DeriveGridCell. destruct (s <=? 0); [intros [= <- <-]; lia|]. cbv zeta. intros [= <- <-].
  split; unfold at_least_1_at_most_5; repeat case_match; lia.
Qed.

(** Small integers survive storage, up to the sign of a zero. *)
Lemma of_Z_small z : 1 ≤ z ≤ 25 → ∃ m e, of_Z z = S754_finite false m e ∧ trunc (of_Z z) = Some z.
Proof using.
  intros Hz.
  assert (H : forallb (λ z, match of_Z z with S754_finite false _ _ => bool_decide (trunc (of_Z z) = Some z) | _ => false end)
                (seqZ 1 25) = true) by (vm_compute; reflexivity).
  rewrite forallb_forall in H. specialize (H z). rewrite <- list_elem_of_In, elem_of_seqZ in H. specialize (H ltac:(lia)).
  destruct (of_Z z) as [| | |[] m e]; try done. exists m, e. by apply bool_decide_eq_true in H.
Qed.

Lemma unsigned_zero_finite w s m e : unsigned_zero w = ANum (S754_finite s m e) → w = ANum (S754_finite s m e).
Proof using. destruct w as [| |[]| | |]; simpl; congruence. Qed.

Lemma small_int z w :
  0 ≤ z ≤ 25 → unsigned_zero w = unsigned_zero (ANum (of_Z z)) → ∃ f, w = ANum f ∧ int_of f = z.
Proof using.
  intros Hz H. destruct (decide (z = 0)) as [->|].
  - change (unsigned_zero (ANum (of_Z 0))) with (ANum (S754_zero false)) in H.
    destruct w as [| |[]| | |]; try done. by eexists.
  - destruct (of_Z_small z) as (m & e & E & Ht); [lia|]. rewrite E in *. apply unsigned_zero_finite in H as ->.
    eexists. split; [done|]. unfold int_of. rewrite Ht. by rewrite (proj2 (Z.leb_le _ _)), (proj2 (Z.ltb_lt _ _)) by lia.
Qed.

Lemma same_int (m m' : list (string * any)) k z :
  unsigned_zero <$> get m' k = unsigned_zero <$> get m k → get m k = Some (ANum (of_Z z)) → 0 ≤ z ≤ 25 →
  ∃ f, get_num m' k = Some f ∧ int_of f = z.
Proof using.
  intros H Hk Hz. rewrite Hk in H. unfold get_num. destruct (get m' k) as [w|]; [|done]. injection H as H.
  destruct (small_int z w Hz H) as (f & -> & Hf). by exists f.
Qed.

(** The row a new parent gets. *)
Lemma createParent_adds env i t key children d res d' :
  createParent env i t key children d = (Ok res, d') → SeverityFunction i ∈ severity_functions →
  utf8_valid key = true → Z.of_nat (length children) < 2 ^ 63 →
  let r := v_Row (res_Parent res) in
  risks d' = risks d ++ [r] ∧ r_TenantID r = t ∧ on_cell r ∧
  arrow_text (r_InherentScore r) "aggregation_key" = Some key ∧
  extractAggregationMeta (r_InherentScore r) =
    mkMeta (res_Severity res) (res_Likelihood res) (res_Impact res) (res_SeverityFunction res) key ∧
  res_AggregationKey res = key.
Proof using JN.
  intros H Hf Hk Hn. unfold createParent in H. apply tx_bind_Ok in H as (rows & d1 & [= <- <-] & H).
  destruct (negb _); [done|]. apply tx_bind_Ok in H as (scores & d1 & [_ ->]%tx_lift_Ok & H).
  apply tx_bind_Ok in H as (sev & d1 & [Hs ->]%tx_lift_Ok & H).
  apply capped_severity in Hs. destruct (DeriveGridCell sev) as [l im] eqn:Hg. apply grid_cell_range in Hg as [Hl Hi].
  destruct (ListRisksByIDs t children d) as [|first rest]; [done|].
  apply tx_bind_Ok in H as (r & d1 & Hr%exec_Ok & H). apply tx_bind_Ok in H as ([] & d2 & Hx & [= <- <-]).
  apply (tx_iter_keeps risks) in Hx; [|intros c s s' Hc%exec_Ok; by eapply LinkRiskAggregation_risks].
  apply insert_risk_Ok in Hr as (doc & Hj & E1 & E2 & _ & E3 & ->). 
  cbn [r_InherentScore r_TenantID v_Row res_Parent res_Severity res_Likelihood res_Impact res_SeverityFunction
       res_AggregationKey] in *.
  rewrite Hx. split; [done|]. split; [done|]. set (n := Z.of_nat (length children)) in *.
  destruct (aggregate_reads key n im l sev (SeverityFunction i)) as (m & Hu & Gs & Gl & Gi & Gf & Gk); [done..| |].
  { intros z. rewrite !elem_of_cons, elem_of_nil. lia. }
  assert (Hg : graded m) by (exists (of_Z l), (of_Z im); split_and!; [done..| |]; eexists; done).
  destruct (stored_object _ _ _ Hj Hu) as (m' & Hu' & Hs').
  split; [apply (graded_cell r m'); [by rewrite E1|by eapply same_graded]|]. rewrite E1. split.
  { destruct (jsonb_members _ _ _ Hj (aggregate_decodes _ _ _ _ _ _ Hk Hf)) as (ms & Hd & Hp & Hin).
    - vm_compute. repeat constructor; set_solver.
    - unfold arrow_text, arrow. rewrite Hd, (elem_get ms "aggregation_key" (JStr key)); [done| |apply Hin; [left|done]].
      rewrite Hp. vm_compute. repeat constructor; set_solver. }
  split; [|done]. unfold extractAggregationMeta, Unmarshal_map. rewrite Hu'.
  destruct (same_int _ _ _ _ (Hs' "severity") Gs) as (fs & -> & ->); [lia|].
  destruct (same_int _ _ _ _ (Hs' "likelihood") Gl) as (fl & -> & ->); [lia|].
  destruct (same_int _ _ _ _ (Hs' "impact") Gi) as (fi & -> & ->); [lia|]. unfold get_str.
  rewrite (same_member _ _ _ (Hs' "severity_function") Gf), (same_member _ _ _ (Hs' "aggregation_key") Gk);
    [done|by intros [| |[]| | |]..].
Qed.

(** ** Every stored grid score is readable *)

Definition all_on_grid (d : DB) : Prop := ∀ r, r ∈ risks d → grid_methodology (r_Methodology r) → on_cell r.

(** [Create], [Aggregate] (with fewer children than an [int] counts), or any
    change that neither adds a risk nor touches a methodology or an inherent
    score. *)
Inductive step : DB → DB → Prop :=
| step_create env i d : step d (Create env i d).2
| step_aggregate env i d : Z.of_nat (length (ChildRiskIDs i)) < 2 ^ 63 → step d (Aggregate env i d).2
| step_other d d' :
    (∀ r', r' ∈ risks d' → ∃ r, r ∈ risks d ∧ r_Methodology r = r_Methodology r' ∧ r_InherentScore r = r_InherentScore r') →
    step d d'.

(** What a successful [Aggregate] did. *)
Lemma Aggregate_Ok env i d res d' :
  Aggregate env i d = (Ok res, d') →
  SeverityFunction i ∈ severity_functions ∧ ParentTitle i ≠ "" ∧ length (ChildRiskIDs i) ≠ 0%nat ∧
  ∃ t, tenant_of (env_ctx env) = Some t ∧
  let key := AggregationKey (ParentTitle i) (uniqueUUIDs (ChildRiskIDs i)) in
  let found := plan (select_where (λ r, bool_decide (r_TenantID r = t) &&
                       bool_decide (arrow_text (r_InherentScore r) "aggregation_key" = Some key)) (risks d)) in
  (∃ r rest, found = r :: rest ∧ res = existingResult t key r d ∧ d' = d) ∨
  (found = [] ∧ createParent env i t key (uniqueUUIDs (ChildRiskIDs i)) d = (Ok res, d')).
Proof using.
  unfold Aggregate. case_bool_decide as H1; [done|]. case_bool_decide as H2; [done|]. destruct (negb _); [done|].
  case_bool_decide as H3; [|done]. simpl.
  intros [(t & a & Ht & [= <-] & E)|(e & [=] & _)]%(inTx_cases (λ d, d)). split_and!; [done..|].
  exists t. split; [done|]. unfold tx_try, GetRiskByAggregationKey in E.
  destruct (plan _) as [|r rest] eqn:Hp; cbn [one] in E.
  - by right.
  - left. injection E as <- <-. by exists r, rest.
Qed.

Lemma key_utf8 title children : utf8_valid (AggregationKey title children) = true.
Proof using. apply sha256_hex_utf8. Qed.

Lemma all_on_grid_add d d' r :
  risks d' = risks d ++ [r] → (grid_methodology (r_Methodology r) → on_cell r) → all_on_grid d → all_on_grid d'.
Proof using.
  intros E Hr Hd x. rewrite E, elem_of_app, list_elem_of_singleton. intros [Hx| ->]; [by apply Hd|done].
Qed.

Lemma all_on_grid_step d d' : step d d' → all_on_grid d → all_on_grid d'.
Proof using JN.
  intros [env i d0|env i d0 Hn|d0 d1 H] Hd.
  - destruct (Create env i d0) as [[v|e] d1] eqn:E; simpl.
    + apply Create_adds in E as (r & E & Hr). by eapply all_on_grid_add.
    + unfold Create in E. cbv zeta in E. destruct (ValidateInherentScore _ _); [by injection E as _ <-|].
      destruct (createScores _ _ _) as [[inh rs]|]; [|by injection E as _ <-].
      destruct (ValidateTreatment _); [by injection E as _ <-|]. apply (inTx_cases (λ d, d)) in E as [(t & a & _ & [=] & _)|(e' & _ & ->)]; done.
  - destruct (Aggregate env i d0) as [[v|e] d1] eqn:E; simpl.
    + apply Aggregate_Ok in E as (Hf & _ & _ & t & _ & [(r & rest & _ & _ & ->)|[_ E]]); [done|].
      apply createParent_adds in E as (E & _ & Hc & _); [by eapply all_on_grid_add|done|apply key_utf8|].
      pose proof (first_seen_length [] (ChildRiskIDs i)). unfold uniqueUUIDs. lia.
    + unfold Aggregate in E. do 2 (case_bool_decide; [by injection E as _ <-|]).
      do 2 (destruct (negb _); [by injection E as _ <-|]).
      apply (inTx_cases (λ d, d)) in E as [(t & a & _ & [=] & _)|(e' & _ & ->)]; done.
  - intros r' Hr' Hm. destruct (H r' Hr') as (r & Hr & E1 & E2). destruct (Hd r Hr) as (l & i & Hc); [by rewrite E1|].
    exists l, i. by rewrite <- E2.
Qed.

Lemma readable_children rows :
  Forall (λ r, grid_methodology (r_Methodology r) ∧ on_cell r) rows →
  ∃ scores, childScores rows = Ok scores ∧ Forall on_grid scores ∧ length scores = length rows.
Proof using.
  induction 1 as [|r rows [Hm (l & i & Hc & Hl & Hi)] _ (scores & Hs & Hg & Hlen)]; [by exists []|].
  exists (mkScore l i :: scores). simpl.
  assert (IsAggregableMethodology (r_Methodology r) = true) as -> by by destruct Hm as [->| ->].
  rewrite Hc, Hs. simpl. split_and!; [done|by constructor|lia].
Qed.

(** C19: in every state that creating risks, aggregating them and changes that leave
    scores alone can reach from an empty register, each risk of a 5x5 methodology has a
    stored score whose likelihood and impact are read as whole numbers from 1 to 5; so
    collecting the scores of any such risks for an aggregation succeeds. *)
Theorem stored_scores_on_grid d0 d :
  risks d0 = [] → rtc step d0 d →
  (∀ r, r ∈ risks d → r_Methodology r = "nist_800_30" ∨ r_Methodology r = "qualitative_5x5" →
     ∃ l i, likelihoodImpactFromInherent (r_InherentScore r) = Ok (l, i) ∧ 1 ≤ l ≤ 5 ∧ 1 ≤ i ≤ 5) ∧
  (∀ rows, (∀ r, r ∈ rows → r ∈ risks d ∧ (r_Methodology r = "nist_800_30" ∨ r_Methodology r = "qualitative_5x5")) →
     ∃ scores, childScores rows = Ok scores ∧ length scores = length rows).
Proof using JN.
  intros E H. assert (Hd : all_on_grid d).
  { assert (H0 : all_on_grid d0) by (intros r; rewrite E; by intros ?%elem_of_nil). clear E. revert H0.
    induction H; [done|]. eauto using all_on_grid_step. }
  split; [exact Hd|]. intros rows Hr. destruct (readable_children rows) as (scores & Hs & _ & Hl); [|by exists scores].
  apply Forall_forall. intros r Hin. destruct (Hr r Hin) as [H1 H2]. split; [done|]. by apply Hd.
Qed.

(** ** Aggregating twice *)

(** The key does not depend on the order or repetition of the children. *)
Lemma key_of_set title l k :
  (∀ x, x ∈ l ↔ x ∈ k) → AggregationKey title (uniqueUUIDs l) = AggregationKey title (uniqueUUIDs k).
Proof using.
  intros H. unfold AggregationKey, aggregation_preimage. do 4 f_equal.
  apply (Sorted_unique String.le); [apply Sorted_merge_sort, _..|]. rewrite !merge_sort_Permutation. apply fmap_Permutation.
  apply NoDup_Permutation; [apply first_seen_NoDup..|]. intros x. unfold uniqueUUIDs.
  by rewrite !first_seen_elem, H.
Qed.

(** Once an aggregation has succeeded, asking again with the same title and the
    same set of children, in any order and with repetitions, whatever level, unit or
    severity function the second request names, returns the same parent with the
    same severity, cell and function, and changes nothing. *)
Theorem Aggregate_idempotent env i d res d' ctx t now fresh j :
  Aggregate env i d = (Ok res, d') → Z.of_nat (length (ChildRiskIDs i)) < 2 ^ 63 →
  tenant_of (env_ctx env) = Some t → tenant_of ctx = Some t →
  ParentTitle j = ParentTitle i → (∀ x, x ∈ ChildRiskIDs j ↔ x ∈ ChildRiskIDs i) →
  isValidLevel (ParentLevel j) = true → SeverityFunction j ∈ ["max"; "weighted_max"; "sum"] →
  ∃ res', Aggregate (mkEnv ctx healthy now fresh) j d' = (Ok res', d') ∧
    v_Row (res_Parent res') = v_Row (res_Parent res) ∧ res_Severity res' = res_Severity res ∧
    res_Likelihood res' = res_Likelihood res ∧ res_Impact res' = res_Impact res ∧
    res_SeverityFunction res' = res_SeverityFunction res ∧ res_AggregationKey res' = res_AggregationKey res.
Proof using JN.
  intros H Hn Ht Ht' Etitle Eset Hlv Hfn. apply Aggregate_Ok in H as (Hf & H1 & H2 & t0 & Ht0 & H).
  rewrite Ht in Ht0. injection Ht0 as <-. set (key := AggregationKey _ _) in H. cbv zeta in H.
  assert (Hkey : AggregationKey (ParentTitle j) (uniqueUUIDs (ChildRiskIDs j)) = key).
  { rewrite Etitle. by apply key_of_set. }
  assert (Hrun : ∀ r rest, plan (select_where (λ r, bool_decide (r_TenantID r = t) &&
        bool_decide (arrow_text (r_InherentScore r) "aggregation_key" = Some key)) (risks d')) = r :: rest →
      Aggregate (mkEnv ctx healthy now fresh) j d' = (Ok (existingResult t key r d'), d')).
  { intros r rest Hp. unfold Aggregate. rewrite Etitle, (bool_decide_eq_false_2 _ H1).
    rewrite bool_decide_eq_false_2.
    2: { intros E%nil_length_inv. destruct (ChildRiskIDs i) as [|x l] eqn:El; [done|].
         assert (Hx : x ∈ ChildRiskIDs j) by (apply Eset; left). rewrite E in Hx. by apply elem_of_nil in Hx. }
    rewrite Hlv, (bool_decide_eq_true_2 _ Hfn). cbn [negb]. rewrite <- Etitle, Hkey. unfold inTx. cbn [env_infra env_ctx].
    rewrite (inTx_healthy (λ d : DB, d) ctx t) by done. unfold tx_try, GetRiskByAggregationKey. by rewrite Hp. }
  destruct H as [(r & rest & Hp & -> & ->)|[Hp H]].
  - exists (existingResult t key r d). split; [by eapply Hrun|done].
  - pose proof (first_seen_length [] (ChildRiskIDs i)) as Hlen.
    apply createParent_adds in H as (Hr & Er & _ & Ek & Em & Ea); [|done|apply key_utf8|unfold uniqueUUIDs; lia].
    exists (existingResult t key (v_Row (res_Parent res)) d'). split; [apply (Hrun _ [])|].
    + assert (Hnil : select_where (λ r, bool_decide (r_TenantID r = t) &&
        bool_decide (arrow_text (r_InherentScore r) "aggregation_key" = Some key)) (risks d) = []).
      { apply Permutation_nil. by rewrite <- Hp, plan_perm. }
      rewrite Hr, select_where_app, Hnil. cbn [app]. unfold select_where. rewrite filter_cons, filter_nil.
      rewrite decide_True by (by rewrite Er, Ek, !bool_decide_eq_true_2). apply Permutation_singleton_r. apply plan_perm.
    + unfold existingResult. cbn [res_Parent v_Row res_Severity res_Likelihood res_Impact res_SeverityFunction res_AggregationKey].
      by rewrite Em.
Qed.
End Inserts.

(** ** The heat map *)

(** One risk of a 5x5 methodology whose stored likelihood is a number that is
    not the text of an integer (as [3.0], which the schema accepts) makes the heat
    map of its tenant fail, whatever the other risks are. *)
Theorem Heatmap_fails_on_fraction `{!UUIDText} ctx t now fresh d r lit i :
  tenant_of ctx = Some t → r ∈ risks d → r_TenantID r = t →
  r_Methodology r = "nist_800_30" ∨ r_Methodology r = "qualitative_5x5" →
  arrow (r_InherentScore r) "likelihood" = Some (JNum lit) → int4in lit = None →
  arrow (r_InherentScore r) "impact" = Some (JNum i) →
  Heatmap (mkEnv ctx healthy now fresh) d = (Err (ErrStatement "heatmap"), d).
Proof.
  intros Ht Hr Et Hm Hl Hbad Hi. unfold Heatmap, inTx. cbn [env_infra env_ctx].
  rewrite (inTx_healthy (λ d : DB, d) ctx t) by done. unfold exec, run, tx_try, HeatmapBuckets.
  destruct (mapM heatmap_key _) as [keys|] eqn:E; [exfalso|done].
  apply mapM_Some_1 in E. assert (Hin : r ∈ select_where (aggregable_in t) (risks d)).
  { apply elem_of_select_where. split; [|done]. unfold aggregable_in. rewrite bool_decide_eq_true_2 by done.
    by destruct Hm as [->| ->]. }
  apply list_elem_of_lookup in Hin as [n Hn]. destruct (Forall2_lookup_l _ _ _ _ _ E Hn) as (k & _ & Hk).
  unfold heatmap_key, is_number, int_at, arrow_text in Hk. rewrite Hl, Hi in Hk. simpl in Hk. by rewrite Hbad in Hk.
Qed.

(** ** A small register *)
Module StoreDemo.
#[local] Existing Instance binary_uuid.
#[local] Existing Instance canonical_jsonb.
#[local] Existing Instance canonical_jsonb_num.
#[local] Existing Instance keyword_schema.
#[local] Existing Instance amd64.
#[local] Existing Instance table_order.
#[local] Instance no_log : GoMath := λ _, fzero.
#[local] Instance same_case : GoStrings := λ s, s.

Definition ctx : Context := {| ctx_tenant := Some "a1" |}.
Definition env (fresh : UUID) : Env := mkEnv ctx healthy 1000 fresh.
Definition new (title score : string) : CreateInput :=
  mkCreate title "" "operational" "" (js score) "avoid" "ops" "" None None "" "" [].
Definition rollup (children : list UUID) : AggregateInput := mkInput "Platform risk" "org" None "max" children.

(** Two risks and their aggregation. *)
Definition d0 : DB := mkDB [] [] [] [] [] [] [].
Definition d1 : DB := (Create (env 7) (new "Unpatched hosts" "{'likelihood':4,'impact':5}") d0).2.
Definition d2 : DB := (Create (env 8) (new "Stale accounts" "{'likelihood':2,'impact':3}") d1).2.
Definition agg : result Error AggregateResult * DB := Aggregate (env 20) (rollup [7; 8; 7]%N) d2.
Definition d3 : DB := agg.2.
Definition parent : AggregateResult :=
  match agg.1 with Ok r => r | Err _ => mkResult (mkView (hd (mkRow 0 0 "" "" "" "" "" "" "" "" None None "" "" "" None [] 0 0) (risks d2)) []) [] 0 0 0 0 "" "" end.

Lemma agg_ok : agg = (Ok parent, d3).
Proof. vm_compute. reflexivity. Qed.

Lemma reached : rtc step d0 d3.
Proof.
  eapply rtc_l; [apply (step_create (env 7) (new "Unpatched hosts" "{'likelihood':4,'impact':5}"))|].
  eapply rtc_l; [apply (step_create (env 8) (new "Stale accounts" "{'likelihood':2,'impact':3}"))|].
  apply rtc_once. apply (step_aggregate (env 20) (rollup [7; 8; 7]%N)). done.
Qed.

Lemma stored_scores_on_grid_witness :
  length (risks d3) = 3%nat ∧ ∃ scores, childScores (risks d3) = Ok scores ∧ length scores = length (risks d3).
Proof.
  split; [vm_compute; reflexivity|].
  apply (proj2 (stored_scores_on_grid d0 d3 eq_refl reached)). intros r Hr. split; [exact Hr|].
  revert r Hr. apply Forall_forall. vm_compute. repeat (constructor; [first [by left|by right]|]). constructor.
Defined.

Lemma Aggregate_idempotent_witness :
  res_Severity parent = 20 ∧ ∃ res, Aggregate (env 30) (rollup [8; 7]%N) d3 = (Ok res, d3) ∧
    v_Row (res_Parent res) = v_Row (res_Parent parent).
Proof.
  split; [vm_compute; reflexivity|].
  destruct (Aggregate_idempotent (env 20) (rollup [7; 8; 7]%N) d2 parent d3 ctx 1 1000 30 (rollup [8; 7]%N))
    as (res & H & E & _); [exact agg_ok|reflexivity..|set_solver|reflexivity|left|].
  exists res. split; [exact H|exact E].
Defined.

(** A likelihood written 3.0 is accepted. *)
Definition poisoned : result Error RiskView * DB := Create (env 9) (new "Late reviews" "{'likelihood':3.0,'impact':4}") d2.

Lemma Heatmap_fails_on_fraction_witness :
  (∃ v, poisoned.1 = Ok v) ∧ (∃ cells, (Heatmap (env 0) d2).1 = Ok cells ∧ length cells = 2%nat) ∧
  Heatmap (env 0) poisoned.2 = (Err (ErrStatement "heatmap"), poisoned.2).
Proof.
  split; [eexists; vm_compute; reflexivity|]. split; [eexists; vm_compute; split; reflexivity|].
  apply (Heatmap_fails_on_fraction ctx 1 1000 0 poisoned.2
    (default (hd (v_Row (res_Parent parent)) (risks d2)) (last (risks poisoned.2))) "3.0" "4");
    [reflexivity| |vm_compute; reflexivity|left; vm_compute; reflexivity|vm_compute; reflexivity..].
  vm_compute. right. right. left.
Defined.
End StoreDemo.
