(* ===== verification/ChaCha8.v ===== *)
(** * The ChaCha8 generator of math/rand/v2

    [rand.NewChaCha8] and its [Uint64], after internal/chacha8rand: a block of the
    generator is four ChaCha8 blocks at consecutive counters, interleaved word by
    word, with the key added back and nothing else; a key serves four blocks, and
    the last four words of the fourth are the next key instead of output. *)

From S2P Require Import Prelude Sha256.

Module ChaCha8.
Local Open Scope N_scope.

Definition rotl (n x : N) : N := rotr (32 - n) x.

(** The quarter round on the words at four positions. *)
Definition quarter (a b c d : nat) (s : list N) : list N :=
  let xa := w32 (s !!! a + s !!! b) in
  let xd := rotl 16 (N.lxor (s !!! d) xa) in
  let xc := w32 (s !!! c + xd) in
  let xb := rotl 12 (N.lxor (s !!! b) xc) in
  let xa := w32 (xa + xb) in
  let xd := rotl 8 (N.lxor xd xa) in
  let xc := w32 (xc + xd) in
  let xb := rotl 7 (N.lxor xb xc) in
  <[a := xa]> (<[b := xb]> (<[c := xc]> (<[d := xd]> s))).

(** A column round and a diagonal round. *)
Definition double_round (s : list N) : list N :=
  let s := quarter 3 7 11 15 (quarter 2 6 10 14 (quarter 1 5 9 13 (quarter 0 4 8 12 s))) in
  quarter 3 4 9 14 (quarter 2 7 8 13 (quarter 1 6 11 12 (quarter 0 5 10 15 s))).

(** One lane: eight rounds, then the key (words 4 to 11) is added. *)
Definition lane (key : list N) (counter : N) : list N :=
  let start := [1634760805; 857760878; 2036477234; 1797285236] ++ key ++ [counter; 0; 0; 0] in
  let mixed := Nat.iter 4 double_round start in
  take 4 mixed ++ zip_with (λ x y, w32 (x + y)) (take 8 (drop 4 mixed)) key ++ drop 12 mixed.

Definition halves (seed : list N) : list N := seed ≫= λ x, [w32 x; N.shiftr x 32].
Definition join64 (lo hi : N) : N := lo + 4294967296 * hi.

(** 32 words of 64 bits. *)
Definition block (seed : list N) (counter : N) : list N :=
  let l i := lane (halves seed) (counter + i) in
  zip (zip_with join64 (l 0) (l 1)) (zip_with join64 (l 2) (l 3)) ≫= λ p, [p.1; p.2].

Record State := mkState { buf : list N; seed : list N; pos : nat; avail : nat; ctr : N }.

Definition ctrInc : N := 4.
Definition ctrMax : N := 16.
Definition chunk : nat := 32.
Definition reseed : nat := 4.

Definition Next (s : State) : option (N * State) :=
  if (pos s <? avail s)%nat then
    Some (buf s !!! (pos s mod 32)%nat, mkState (buf s) (seed s) (S (pos s)) (avail s) (ctr s))
  else None.

Definition Refill (s : State) : State :=
  let c := ctr s + ctrInc in
  let '(key, c) := if c =? ctrMax then (drop (chunk - reseed) (buf s), 0) else (seed s, c) in
  mkState (block key c) key 0 (if c =? ctrMax - ctrInc then (chunk - reseed)%nat else chunk) c.

(** The loop of [Uint64]: take a word or refill and try again. *)
Fixpoint Uint64_loop (fuel : nat) (s : State) : option (N * State) :=
  match fuel with
  | O => None
  | S fuel => match Next s with Some r => Some r | None => Uint64_loop fuel (Refill s) end
  end.

(** Two turns are enough. *)
Definition Uint64 (s : State) : N * State := default (0, s) (Uint64_loop 2 s).

(** Eight bytes, least significant first. *)
Fixpoint le_words (k : nat) (bs : list N) : list N :=
  match k with
  | O => []
  | S k => foldr (λ b x, b + 256 * x) 0 (take 8 bs) :: le_words k (drop 8 bs)
  end.

(** The generator of a 32-byte key. *)
Definition NewChaCha8 (key : list N) : State :=
  let s := le_words 4 key in mkState (block s 0) s 0 chunk 0.

(** ** The first words for the key of the reference vectors *)

Fixpoint draws (k : nat) (s : State) : list N :=
  match k with O => [] | S k => let '(x, s) := Uint64 s in x :: draws k s end.

Example reference_vector :
  draws 4 (NewChaCha8 (bytes_of "ABCDEFGHIJKLMNOPQRSTUVWXYZ123456")) =
  [13219109469176600229; 1252193259764759612; 10098646897834928252; 9142445797040479446].
Proof. vm_compute. reflexivity. Qed.

(** ** Every call returns *)

Definition ready (s : State) : Prop :=
  length (buf s) = chunk ∧ length (seed s) = 4%nat ∧ (avail s = chunk ∨ avail s = chunk - reseed)%nat.

Lemma length_quarter a b c d s : length (quarter a b c d s) = length s.
Proof. unfold quarter. by rewrite !length_insert. Qed.

Lemma length_double_round s : length (double_round s) = length s.
Proof. unfold double_round. by rewrite !length_quarter. Qed.

Lemma length_rounds n s : length (Nat.iter n double_round s) = length s.
Proof. induction n as [|n IH]; [done|]. rewrite Nat.iter_succ, length_double_round. exact IH. Qed.

Lemma length_lane key c : length key = 8%nat → length (lane key c) = 16%nat.
Proof.
  intros Hk. unfold lane. set (start := [1634760805; _; _; _] ++ key ++ _).
  assert (Hs : length start = 16%nat) by (unfold start; rewrite !length_app, Hk; done). clearbody start.
  assert (Hm : length (Nat.iter 4 double_round start) = 16%nat) by by rewrite length_rounds.
  revert Hm. generalize (Nat.iter 4 double_round start). intros mixed Hm.
  rewrite !length_app, length_zip_with, !length_take, !length_drop, Hm, Hk. done.
Qed.

Lemma length_halves l : length (halves l) = (2 * length l)%nat.
Proof. induction l as [|x l IH]; [done|]. unfold halves in *. rewrite bind_cons, length_app, IH. simpl. lia. Qed.

Lemma length_block key c : length key = 4%nat → length (block key c) = 32%nat.
Proof.
  intros Hk. unfold block. assert (Hl : ∀ i, length (lane (halves key) (c + i)) = 16%nat).
  { intros i. apply length_lane. by rewrite length_halves, Hk. }
  set (z := zip _ _). assert (Hz : length z = 16%nat) by (unfold z; by rewrite !length_zip_with, !Hl).
  assert (H : ∀ n (y : list (N * N)), length y = n → length (y ≫= λ p, [p.1; p.2]) = (2 * n)%nat).
  { induction n as [|n IH]; intros [|p y] Hy; try done. rewrite bind_cons, length_app, IH by (simpl in Hy; lia). simpl. lia. }
  by rewrite (H 16%nat z Hz).
Qed.

Lemma ready_Refill s : ready s → ready (Refill s).
Proof.
  intros (Hb & Hs & _). unfold Refill. destruct (_ =? ctrMax); cbn [fst snd].
  - split_and!; cbn [buf seed avail]; [apply length_block| |by destruct (_ =? _); auto]; rewrite length_drop, Hb; done.
  - split_and!; cbn [buf seed avail]; [by apply length_block|done|by destruct (_ =? _); auto].
Qed.

Lemma ready_NewChaCha8 key : ready (NewChaCha8 key).
Proof. split_and!; [by apply length_block|done|by left]. Qed.

Lemma ready_Next s x s' : ready s → Next s = Some (x, s') → ready s'.
Proof. unfold Next. destruct (_ <? _)%nat; [|done]. intros H [= _ <-]. exact H. Qed.

(** The loop of [Uint64] ends within two turns, whatever was drawn before. *)
Lemma Uint64_returns s fuel :
  ready s → (2 ≤ fuel)%nat → Uint64_loop fuel s = Some (Uint64 s) ∧ ready (Uint64 s).2.
Proof.
  intros Hs Hf. destruct fuel as [|[|fuel]]; [lia..|]. unfold Uint64. cbn [Uint64_loop].
  destruct (Next s) as [[x s']|] eqn:E; [split; [done|by eapply ready_Next]|].
  assert (Hr : ready (Refill s)) by by apply ready_Refill.
  destruct (Next (Refill s)) as [[x s']|] eqn:E'; [split; [done|by eapply ready_Next]|].
  exfalso. revert E'. unfold Next. replace (pos (Refill s)) with 0%nat; [|unfold Refill; by case_match].
  destruct Hr as (_ & _ & [->| ->]); done.
Qed.
End ChaCha8.
