(* ===== verification/Sampler.v ===== *)
(** * The reproducible draw

    Models internal/audit/sample/sampler.go: a partial Fisher-Yates shuffle driven by
    the ChaCha8 generator keyed with the SHA-256 of the seed. *)

From S2P Require Import Prelude Sha256 ChaCha8.

Module Sampler.

Inductive Error := ErrEmptyPopulation | ErrInvalidN | ErrEmptySeed.

Definition newRNG (seed : string) : ChaCha8.State := ChaCha8.NewChaCha8 (Sum256 seed).

(** [out[i], out[j] = out[j], out[i]]; the shuffle only asks for positions of the
    list, for others Go would panic. *)
Definition swap {A} (i j : nat) (l : list A) : list A :=
  match l !! i, l !! j with
  | Some a, Some b => <[j := a]> (<[i := b]> l)
  | _, _ => l
  end.

(** [k] steps of the partial shuffle from position [i]. *)
Fixpoint shuffle {A} (k i : nat) (out : list A) (rng : ChaCha8.State) : list A :=
  match k with
  | O => out
  | S k =>
      let '(x, rng) := ChaCha8.Uint64 rng in
      let j := (i + N.to_nat (x mod N.of_nat (length out - i)))%nat in
      shuffle k (S i) (swap i j out) rng
  end.

Definition Sample (population : list UUID) (n : Z) (seed : string) : result Error (list UUID) :=
  if bool_decide (length population = 0%nat) then Err ErrEmptyPopulation
  else if n <=? 0 then Err ErrInvalidN
  else if bool_decide (seed = "") then Err ErrEmptySeed
  else
    let n := if Z.of_nat (length population) <? n then length population else Z.to_nat n in
    Ok (take n (shuffle n 0 population (newRNG seed))).

End Sampler.
