(* ===== verification/AuditSample.v ===== *)
(** * Audit populations, samples and annotations

    Models internal/audit/audit.go (populations, samples, annotations and their
    log) with the statements of audit_samples.sql and the constraints of migrations
    20260511000010 and 20260808000000.  The scope cells a predicate is evaluated on
    are those of the scope store; the draw is that of Sampler. *)

From Stdlib Require Import Ascii.
From S2P Require Import Prelude GoTime Tenancy Json Sha256 Scope ScopeStore GoJson ChaCha8 Sampler.

Module AuditSample.

(** ** Tables *)

(** The columns of the evidence ledger this package reads. *)
Record EvidenceRow := mkEvidence {
  e_ID : UUID;
  e_TenantID : UUID;
  e_ControlID : option UUID;
  e_ScopeID : option UUID;
  e_ObservedAt : Time;
}.

Record PopulationRow := mkPopulation {
  p_ID : UUID;
  p_TenantID : UUID;
  p_ControlID : UUID;
  p_ScopePredicate : string;
  p_TimeWindowStart : Time;
  p_TimeWindowEnd : Time;
  p_FrozenAt : option Time;
  p_RowCount : Z;
  p_CreatedBy : string;
  p_CreatedAt : Time;
}.

Record SampleRow := mkSample {
  s_ID : UUID;
  s_TenantID : UUID;
  s_PopulationID : UUID;
  s_N : Z;
  s_Seed : string;
  s_CreatedBy : string;
  s_CreatedAt : Time;
}.

Record SampleEvidenceRow := mkSampleEvidence {
  se_SampleID : UUID;
  se_TenantID : UUID;
  se_EvidenceRecordID : UUID;
  se_Ordinal : Z;
}.

Record AnnotationRow := mkAnnotation {
  a_ID : UUID;
  a_TenantID : UUID;
  a_SampleID : UUID;
  a_EvidenceRecordID : UUID;
  a_Result : string;
  a_AnnotatedBy : string;
  a_AnnotatedAt : Time;
  a_Notes : string;
}.

Record LogRow := mkLog {
  l_ID : UUID;
  l_TenantID : UUID;
  l_Action : string;
  l_Actor : string;
  l_PopulationID : option UUID;
  l_SampleID : option UUID;
  l_Seed : option string;
  l_NRequested : option Z;
  l_NReturned : option Z;
  l_ReasonCode : string;
  l_OccurredAt : Time;
}.

Record DB := mkDB {
  scopes : ScopeStore.DB;
  evidence_records : list EvidenceRow;
  populations : list PopulationRow;
  samples : list SampleRow;
  sample_evidence : list SampleEvidenceRow;
  sample_annotations : list AnnotationRow;
  sample_audit_log : list LogRow;
}.

(** The external sink receives the log entries. *)
Record World := mkWorld { db : DB; sink : list LogRow }.
#[global] Instance Sample_rollback : TxState World := λ before after, mkWorld (db before) (sink after).
#[global] Instance Sample_atomic : Atomic db.
Proof. done. Qed.

Inductive Error :=
| ErrNotFound
| ErrEmptyPopulation
| ErrInvalidAnnotation
| ErrInput (what : string)
| ErrSample (e : Sampler.Error)
| ErrPredicate (e : Scope.Error)
| ErrPanic
| ErrStatement (stmt : string)
| ErrTx (e : TxErr).
#[global] Instance Sample_error : TxError Error := ErrTx.

Definition AnnotationResults : list string := ["passed"; "failed"; "not-applicable"].

(** ** Statements *)

Definition with_populations (d : DB) (t : list PopulationRow) : DB :=
  mkDB (scopes d) (evidence_records d) t (samples d) (sample_evidence d) (sample_annotations d) (sample_audit_log d).
Definition with_samples (d : DB) (t : list SampleRow) : DB :=
  mkDB (scopes d) (evidence_records d) (populations d) t (sample_evidence d) (sample_annotations d) (sample_audit_log d).
Definition with_sample_evidence (d : DB) (t : list SampleEvidenceRow) : DB :=
  mkDB (scopes d) (evidence_records d) (populations d) (samples d) t (sample_annotations d) (sample_audit_log d).
Definition with_annotations (d : DB) (t : list AnnotationRow) : DB :=
  mkDB (scopes d) (evidence_records d) (populations d) (samples d) (sample_evidence d) t (sample_audit_log d).
Definition with_log (d : DB) (t : list LogRow) : DB :=
  mkDB (scopes d) (evidence_records d) (populations d) (samples d) (sample_evidence d) (sample_annotations d) t.

Definition control_exists (d : DB) (tenantID id : UUID) : bool :=
  existsb (λ c, bool_decide (ScopeStore.control_TenantID c = tenantID) && bool_decide (ScopeStore.control_ID c = id))
    (ScopeStore.controls (scopes d)).
Definition evidence_exists (d : DB) (tenantID id : UUID) : bool :=
  existsb (λ e, bool_decide (e_TenantID e = tenantID) && bool_decide (e_ID e = id)) (evidence_records d).
Definition population_at (tenantID id : UUID) (p : PopulationRow) : bool :=
  bool_decide (p_TenantID p = tenantID) && bool_decide (p_ID p = id).
Definition sample_at (tenantID id : UUID) (s : SampleRow) : bool :=
  bool_decide (s_TenantID s = tenantID) && bool_decide (s_ID s = id).

(** [pgTimestamptz]: the zero time is NULL. *)
Definition pgTimestamptz (t : Time) : option Time := if IsZero t then None else Some t.

(** [None] is a violated constraint. *)
Definition CreatePopulationQ {JB : JsonB} (now : Time) (id tenantID controlID : UUID) (predicate : string)
    (start end_ : option Time) (frozenAt : option Time) (rowCount : Z) (createdBy : string) (d : DB) : option (PopulationRow * DB) :=
  pred ← jsonb_in predicate; start ← start; end_ ← end_;
  if bool_decide (start ≤ end_) && bool_decide (createdBy ≠ "") && control_exists d tenantID controlID &&
     negb (bool_decide (id ∈ (p_ID <$> populations d)))
  then
    let p := mkPopulation id tenantID controlID pred start end_ frozenAt rowCount createdBy now in
    Some (p, with_populations d (populations d ++ [p]))
  else None.

Definition GetPopulationByID (tenantID id : UUID) (d : DB) : option PopulationRow :=
  head (select_where (population_at tenantID id) (populations d)).

(** [a >= b] and [a <= b] with NULL on the right *)
Definition at_least (a : Time) (b : option Time) : bool := match b with Some b => bool_decide (b ≤ a) | None => false end.
Definition at_most (a : Time) (b : option Time) : bool := match b with Some b => bool_decide (a ≤ b) | None => false end.
(** [a <= COALESCE(b, 'infinity')] *)
Definition before_horizon (a : Time) (b : option Time) : bool := match b with Some b => bool_decide (a ≤ b) | None => true end.

Definition by_id (a b : EvidenceRow) : Prop := (e_ID a ≤ e_ID b)%N.
#[global] Instance by_id_dec : RelDecision by_id.
Proof. intros a b. unfold by_id. apply _. Defined.

Definition in_population (tenantID controlID : UUID) (start end_ frozenAt : option Time) (e : EvidenceRow) : bool :=
  bool_decide (e_TenantID e = tenantID) && bool_decide (e_ControlID e = Some controlID) &&
  at_least (e_ObservedAt e) start && at_most (e_ObservedAt e) end_ && before_horizon (e_ObservedAt e) frozenAt.

Definition ListPopulationEvidenceIDs (tenantID controlID : UUID) (start end_ frozenAt : option Time) (d : DB)
  : list (UUID * option UUID) :=
  (λ e, (e_ID e, e_ScopeID e)) <$>
    merge_sort by_id (select_where (in_population tenantID controlID start end_ frozenAt) (evidence_records d)).

Definition CreateSample (now : Time) (id tenantID populationID : UUID) (n : Z) (seed createdBy : string) (d : DB)
  : option (SampleRow * DB) :=
  if (0 <? n) && bool_decide (seed ≠ "") && bool_decide (createdBy ≠ "") &&
     existsb (population_at tenantID populationID) (populations d) && negb (bool_decide (id ∈ (s_ID <$> samples d)))
  then
    let s := mkSample id tenantID populationID n seed createdBy now in
    Some (s, with_samples d (samples d ++ [s]))
  else None.

Definition GetSampleByID (tenantID id : UUID) (d : DB) : option SampleRow :=
  head (select_where (sample_at tenantID id) (samples d)).

Definition InsertSampleEvidence (sampleID tenantID evidenceID : UUID) (ordinal : Z) (d : DB) : option DB :=
  if (0 <=? ordinal) && existsb (sample_at tenantID sampleID) (samples d) && evidence_exists d tenantID evidenceID &&
     negb (existsb (λ r, bool_decide (se_SampleID r = sampleID) && bool_decide (se_EvidenceRecordID r = evidenceID)) (sample_evidence d))
  then Some (with_sample_evidence d (sample_evidence d ++ [mkSampleEvidence sampleID tenantID evidenceID ordinal]))
  else None.

Definition by_ordinal (a b : SampleEvidenceRow) : Prop := se_Ordinal a ≤ se_Ordinal b.
#[global] Instance by_ordinal_dec : RelDecision by_ordinal.
Proof. intros a b. unfold by_ordinal. apply _. Defined.

Definition ListSampleEvidence (tenantID sampleID : UUID) (d : DB) : list SampleEvidenceRow :=
  merge_sort by_ordinal
    (select_where (λ r, bool_decide (se_TenantID r = tenantID) && bool_decide (se_SampleID r = sampleID)) (sample_evidence d)).

Definition annotation_key (tenantID sampleID evidenceID : UUID) (a : AnnotationRow) : bool :=
  bool_decide (a_TenantID a = tenantID) && bool_decide (a_SampleID a = sampleID) && bool_decide (a_EvidenceRecordID a = evidenceID).

Definition reannotate (now : Time) (result by_ notes : string) (a : AnnotationRow) : AnnotationRow :=
  mkAnnotation (a_ID a) (a_TenantID a) (a_SampleID a) (a_EvidenceRecordID a) result by_ now notes.

(** INSERT ... ON CONFLICT (tenant_id, sample_id, evidence_record_id) DO UPDATE *)
Definition UpsertSampleAnnotation (now : Time) (id tenantID sampleID evidenceID : UUID) (result by_ notes : string) (d : DB)
  : option (AnnotationRow * DB) :=
  if bool_decide (result ∈ AnnotationResults) && bool_decide (by_ ≠ "") then
    match updated_rows (annotation_key tenantID sampleID evidenceID) (reannotate now result by_ notes) (sample_annotations d) with
    | a :: _ =>
        Some (a, with_annotations d
                   (update_where (annotation_key tenantID sampleID evidenceID) (reannotate now result by_ notes) (sample_annotations d)))
    | [] =>
        if existsb (sample_at tenantID sampleID) (samples d) && evidence_exists d tenantID evidenceID &&
           negb (bool_decide (id ∈ (a_ID <$> sample_annotations d)))
        then
          let a := mkAnnotation id tenantID sampleID evidenceID result by_ now notes in
          Some (a, with_annotations d (sample_annotations d ++ [a]))
        else None
    end
  else None.

Definition newest_annotation (a b : AnnotationRow) : Prop :=
  a_AnnotatedAt b < a_AnnotatedAt a ∨ (a_AnnotatedAt a = a_AnnotatedAt b ∧ (a_ID a ≤ a_ID b)%N).
Definition newest_log (a b : LogRow) : Prop :=
  l_OccurredAt b < l_OccurredAt a ∨ (l_OccurredAt a = l_OccurredAt b ∧ (l_ID a ≤ l_ID b)%N).
#[global] Instance newest_annotation_dec : RelDecision newest_annotation.
Proof. intros a b. unfold newest_annotation. apply _. Defined.
#[global] Instance newest_log_dec : RelDecision newest_log.
Proof. intros a b. unfold newest_log. apply _. Defined.

Definition ListSampleAnnotations (tenantID sampleID : UUID) (d : DB) : list AnnotationRow :=
  merge_sort newest_annotation
    (select_where (λ a, bool_decide (a_TenantID a = tenantID) && bool_decide (a_SampleID a = sampleID)) (sample_annotations d)).

Definition WriteSampleAuditLog (r : LogRow) (d : DB) : option DB :=
  if bool_decide (l_Action r ∈ ["population_created"; "sample_drawn"; "sample_annotated"; "sample_rejected"]) &&
     bool_decide (l_Actor r ≠ "") && negb (bool_decide (l_ID r ∈ (l_ID <$> sample_audit_log d)))
  then Some (with_log d (sample_audit_log d ++ [r]))
  else None.

(** A negative LIMIT is an error. *)
Definition ListSampleAuditLog (tenantID : UUID) (limit : Z) (d : DB) : option (list LogRow) :=
  if limit <? 0 then None
  else Some (take (Z.to_nat limit)
               (merge_sort newest_log (select_where (λ r, bool_decide (l_TenantID r = tenantID)) (sample_audit_log d)))).

(** ** Scope filter *)

(** [{"op":"true"}], and the probe for it: a member [op] in any case, the last one
    winning, a value of another type being an error. *)
Definition true_predicate : string := js "{'op':'true'}".

Definition probe_op (b : string) : option string :=
  j ← decode_all b;
  match j with
  | JNull => Some ""
  | JObj ms => let '(st, e) := decode_fields false ["OP"] ms [SStr ""] in
               if e then None else match st with [SStr op] => Some op | _ => None end
  | _ => None
  end.

Definition isTrivialPredicate (b : string) : bool :=
  bool_decide (b = "") || bool_decide (b = "null") || bool_decide (b = "{}") || bool_decide (probe_op b = Some "true").

Definition canonicalPredicate (b : string) : string := if bool_decide (b = "") then true_predicate else b.

(** Evidence of no scope is outside every predicate. *)
Definition allowed (cells : list UUID) (c : UUID * option UUID) : bool :=
  match c.2 with Some s => bool_decide (s ∈ cells) | None => false end.

Definition applyScopeFilter (tenantID : UUID) (predicate : string) (candidates : list (UUID * option UUID))
  : Tx World Error (list UUID) :=
  if isTrivialPredicate predicate then mret candidates.*1
  else
    rows ← tx_gets (λ w, ScopeStore.ListScopeCells tenantID (scopes (db w)));
    match Scope.Evaluate predicate (ScopeStore.rowToCell <$> rows) with
    | None => tx_fail ErrPanic
    | Some (Err e) => tx_fail (ErrPredicate e)
    | Some (Ok matching) =>
        mret (filter (λ c, allowed (Scope.ID <$> matching) c = true) candidates).*1
    end.

(** ** Operations *)

Record CreatePopulationInput := mkPopulationInput {
  cp_ControlID : UUID;
  cp_ScopePredicate : string;
  cp_TimeWindowStart : Time;
  cp_TimeWindowEnd : Time;
  cp_CreatedBy : string;
}.

Record DrawSampleInput := mkDrawInput { ds_PopulationID : UUID; ds_N : Z; ds_Seed : string; ds_CreatedBy : string }.

Record AnnotateSampleInput := mkAnnotateInput {
  as_SampleID : UUID;
  as_EvidenceRecordID : UUID;
  as_Result : string;
  as_AnnotatedBy : string;
  as_Notes : string;
}.

(** A sample with its evidence. *)
Record Sample := mkDrawn { sample : SampleRow; EvidenceRecordIDs : list UUID }.

(** [env_newID n] is the [n]-th identifier [uuid.New] draws in the call. *)
Record Env := mkEnv { env_ctx : Context; env_infra : Infra; env_now : Time; env_newID : nat → UUID }.

Definition inTx {A} {UT : UUIDText} (env : Env) (fn : UUID → Tx World Error A) : Tx World Error A :=
  Tenancy.inTx (env_infra env) (env_ctx env) fn.

(** The entry is written and then handed to the sink, before the commit. *)
Definition writeAuditLog (r : LogRow) : Tx World Error () := λ w,
  match WriteSampleAuditLog r (db w) with
  | None => (Err (ErrStatement "write audit log"), w)
  | Some d => (Ok (), mkWorld d (sink w ++ [r]))
  end.

(** A statement that answers or violates a constraint. *)
Definition query {A} (stmt : string) (q : DB → option (A * DB)) : Tx World Error A := λ w,
  match q (db w) with
  | None => (Err (ErrStatement stmt), w)
  | Some (a, d) => (Ok a, mkWorld d (sink w))
  end.

(** A lookup of one row. *)
Definition lookup_one {A} (q : DB → option A) : Tx World Error A := λ w,
  match q (db w) with None => (Err ErrNotFound, w) | Some a => (Ok a, w) end.

Section Store.
Context {UT : UUIDText} {JB : JsonB}.

Definition resolvePopulationEvidenceIDs (tenantID : UUID) (i : CreatePopulationInput) (predicate : string) : Tx World Error (list UUID) :=
  rows ← tx_gets (λ w, ListPopulationEvidenceIDs tenantID (cp_ControlID i) (pgTimestamptz (cp_TimeWindowStart i))
                         (pgTimestamptz (cp_TimeWindowEnd i)) None (db w));
  applyScopeFilter tenantID predicate rows.

Definition resolvePopulationEvidenceIDsFromRow (tenantID : UUID) (p : PopulationRow) : Tx World Error (list UUID) :=
  rows ← tx_gets (λ w, ListPopulationEvidenceIDs (p_TenantID p) (p_ControlID p) (Some (p_TimeWindowStart p))
                         (Some (p_TimeWindowEnd p)) (p_FrozenAt p) (db w));
  applyScopeFilter tenantID (p_ScopePredicate p) rows.

Definition CreatePopulation (env : Env) (i : CreatePopulationInput) : Tx World Error PopulationRow :=
  if bool_decide (cp_CreatedBy i = "") then tx_fail (ErrInput "created_by must be non-empty")
  else if After (cp_TimeWindowStart i) (cp_TimeWindowEnd i) then tx_fail (ErrInput "time_window_start must be <= time_window_end")
  else
    let predicate := canonicalPredicate (cp_ScopePredicate i) in
    inTx env (λ tenantID,
      ids ← resolvePopulationEvidenceIDs tenantID i predicate;
      let n := Z.of_nat (length ids) in
      row ← query "create population"
              (CreatePopulationQ (env_now env) (env_newID env 0) tenantID (cp_ControlID i) predicate
                 (pgTimestamptz (cp_TimeWindowStart i)) (pgTimestamptz (cp_TimeWindowEnd i)) None n (cp_CreatedBy i));
      _ ← writeAuditLog (mkLog (env_newID env 1) tenantID "population_created" (cp_CreatedBy i) (Some (p_ID row)) None None
                           (Some (int32 n)) (Some (int32 n)) "" (env_now env));
      mret row).

Definition GetPopulation (env : Env) (id : UUID) : Tx World Error PopulationRow :=
  inTx env (λ tenantID, lookup_one (GetPopulationByID tenantID id)).

(** The evidence rows of a sample, from ordinal [i]. *)
Fixpoint insertEvidence (sampleID tenantID : UUID) (i : nat) (drawn : list UUID) : Tx World Error () :=
  match drawn with
  | [] => mret ()
  | rec :: drawn =>
      _ ← query "insert sample_evidence" (λ d, d' ← InsertSampleEvidence sampleID tenantID rec (int32 (Z.of_nat i)) d; Some ((), d'));
      insertEvidence sampleID tenantID (S i) drawn
  end.

Definition DrawSample (env : Env) (i : DrawSampleInput) : Tx World Error Sample :=
  if ds_N i <=? 0 then tx_fail (ErrInput "n must be positive")
  else if bool_decide (ds_Seed i = "") then tx_fail (ErrInput "seed must be non-empty")
  else if bool_decide (ds_CreatedBy i = "") then tx_fail (ErrInput "created_by must be non-empty")
  else
    inTx env (λ tenantID,
      pop ← lookup_one (GetPopulationByID tenantID (ds_PopulationID i));
      ids ← resolvePopulationEvidenceIDsFromRow tenantID pop;
      if bool_decide (length ids = 0%nat) then
        (* the answer of the log is dropped *)
        tx_try (writeAuditLog (mkLog (env_newID env 0) tenantID "sample_rejected" (ds_CreatedBy i) (Some (p_ID pop)) None
                                 (Some (ds_Seed i)) (Some (int32 (ds_N i))) None "empty_population" (env_now env)))
          (λ _, tx_fail ErrEmptyPopulation)
      else
        match Sampler.Sample ids (ds_N i) (ds_Seed i) with
        | Err e => tx_fail (ErrSample e)
        | Ok drawn =>
            row ← query "create sample"
                    (CreateSample (env_now env) (env_newID env 0) tenantID (p_ID pop) (int32 (Z.of_nat (length drawn))) (ds_Seed i)
                       (ds_CreatedBy i));
            _ ← insertEvidence (s_ID row) tenantID 0 drawn;
            _ ← writeAuditLog (mkLog (env_newID env 1) tenantID "sample_drawn" (ds_CreatedBy i) (Some (p_ID pop)) (Some (s_ID row))
                                 (Some (ds_Seed i)) (Some (int32 (ds_N i))) (Some (int32 (Z.of_nat (length drawn)))) "" (env_now env));
            mret (mkDrawn row drawn)
        end).

Definition GetSample (env : Env) (id : UUID) : Tx World Error Sample :=
  inTx env (λ tenantID,
    row ← lookup_one (GetSampleByID tenantID id);
    evs ← tx_gets (λ w, ListSampleEvidence tenantID (s_ID row) (db w));
    mret (mkDrawn row (se_EvidenceRecordID <$> evs))).

Definition AnnotateSample (env : Env) (i : AnnotateSampleInput) : Tx World Error AnnotationRow :=
  if negb (bool_decide (as_Result i ∈ AnnotationResults)) then tx_fail ErrInvalidAnnotation
  else if bool_decide (as_AnnotatedBy i = "") then tx_fail (ErrInput "annotated_by must be non-empty")
  else
    inTx env (λ tenantID,
      _ ← lookup_one (GetSampleByID tenantID (as_SampleID i));
      row ← query "upsert annotation"
              (UpsertSampleAnnotation (env_now env) (env_newID env 0) tenantID (as_SampleID i) (as_EvidenceRecordID i) (as_Result i)
                 (as_AnnotatedBy i) (as_Notes i));
      _ ← writeAuditLog (mkLog (env_newID env 1) tenantID "sample_annotated" (as_AnnotatedBy i) None (Some (a_SampleID row)) None None
                           None "" (env_now env));
      mret row).

Definition ListAnnotations (env : Env) (sampleID : UUID) : Tx World Error (list AnnotationRow) :=
  inTx env (λ tenantID, tx_gets (λ w, ListSampleAnnotations tenantID sampleID (db w))).

Definition ListAuditLog (env : Env) (limit : Z) : Tx World Error (list LogRow) :=
  let limit := if limit <=? 0 then 100 else limit in
  inTx env (λ tenantID w,
    match ListSampleAuditLog tenantID (int32 limit) (db w) with
    | None => (Err (ErrStatement "list audit log"), w)
    | Some rows => (Ok rows, w)
    end).
End Store.
End AuditSample.
