(* ===== verification/AuditSampleSpec.v ===== *)
(** * Audit samples: what a draw promises

    A draw is a duplicate-free part of its population, of the size asked for or
    of all there is, and a larger draw with the same seed extends a smaller one;
    what was drawn is what a later read returns, in order; a frozen population
    gives the same draw whatever arrives after its horizon; and the rejection of an
    empty population is told to the sink but never recorded. *)

From Stdlib Require Import Ascii.
From stdpp Require Import relations.
From S2P Require Import Prelude GoTime Tenancy Json Sha256 Scope ScopeStore GoJson ChaCha8 Sampler AuditSample.

(** ** The sampler *)

Module SamplerSpec.
Import Sampler.

Section Shuffle.
Context {A : Type}.
Implicit Types (l out : list A) (rng : ChaCha8.State).

Lemma swap_perm i j l : swap i j l ≡ₚ l.
Proof.
  unfold swap. destruct (l !! i) as [a|] eqn:Ei; [|done]. destruct (l !! j) as [b|] eqn:Ej; [|done].
  destruct (decide (i = j)) as [->|Hne].
  { rewrite list_insert_insert_eq. simplify_eq. by rewrite list_insert_id. }
  by apply Permutation_insert_swap.
Qed.

Lemma length_swap i j l : length (swap i j l) = length l.
Proof. by rewrite swap_perm. Qed.

(** A swap at or after [k] keeps the first [k] elements. *)
Lemma take_swap k i j l : (k ≤ i)%nat → (k ≤ j)%nat → take k (swap i j l) = take k l.
Proof.
  intros Hi Hj. unfold swap. destruct (l !! i); [|done]. destruct (l !! j); [|done]. by rewrite !take_insert_ge.
Qed.

Lemma shuffle_perm k i out rng : shuffle k i out rng ≡ₚ out.
Proof.
  revert i out rng. induction k as [|k IH]; intros i out rng; [done|]. cbn [shuffle].
  destruct (ChaCha8.Uint64 rng) as [x rng']. by rewrite IH, swap_perm.
Qed.

Lemma take_shuffle m k i out rng : (m ≤ i)%nat → take m (shuffle k i out rng) = take m out.
Proof.
  revert i out rng. induction k as [|k IH]; intros i out rng Hm; [done|]. cbn [shuffle].
  destruct (ChaCha8.Uint64 rng) as [x rng']. rewrite IH by lia.
  apply take_swap; [done|]. by etrans; [|apply Nat.le_add_r].
Qed.

(** The generator after [k] calls. *)
Definition after (k : nat) rng : ChaCha8.State := Nat.iter k (λ s, (ChaCha8.Uint64 s).2) rng.

Lemma after_S k rng : after k (ChaCha8.Uint64 rng).2 = after (S k) rng.
Proof. unfold after. by rewrite Nat.iter_succ_r. Qed.

Lemma shuffle_add k1 k2 i out rng :
  shuffle (k1 + k2) i out rng = shuffle k2 (i + k1) (shuffle k1 i out rng) (after k1 rng).
Proof.
  revert i out rng. induction k1 as [|k1 IH]; intros i out rng; [by rewrite Nat.add_0_r|]. cbn [Nat.add shuffle].
  rewrite <- after_S. destruct (ChaCha8.Uint64 rng) as [x rng']. rewrite IH. f_equal. lia.
Qed.

(** A longer shuffle begins like a shorter one. *)
Lemma shuffle_extends k m out rng :
  (k ≤ m)%nat → take k (shuffle m 0 out rng) = take k (shuffle k 0 out rng).
Proof.
  intros Hkm. replace m with (k + (m - k))%nat by lia. rewrite shuffle_add. apply take_shuffle. lia.
Qed.
End Shuffle.

Lemma after_ready k rng : ChaCha8.ready rng → ChaCha8.ready (after k rng).
Proof.
  intros H. induction k as [|k IH]; [done|]. unfold after in *. rewrite Nat.iter_succ.
  by apply (ChaCha8.Uint64_returns _ 2 IH).
Qed.

(** The number of members a draw returns. *)
Definition size (population : list UUID) (n : Z) : nat :=
  if Z.of_nat (length population) <? n then length population else Z.to_nat n.

Lemma Sample_Ok population n seed out :
  Sample population n seed = Ok out →
  population ≠ [] ∧ 0 < n ∧ seed ≠ "" ∧ out = take (size population n) (shuffle (size population n) 0 population (newRNG seed)).
Proof.
  unfold Sample. case_bool_decide as Hp; [done|]. destruct (Z.leb_spec n 0); [done|]. case_bool_decide; [done|].
  intros [= <-]. split_and!; [by intros ->|done|done|done].
Qed.

Lemma size_le population n : (size population n ≤ length population)%nat.
Proof. unfold size. destruct (Z.ltb_spec (Z.of_nat (length population)) n); lia. Qed.

Lemma Sample_part population n seed out :
  Sample population n seed = Ok out → length out = size population n ∧ ∃ rest, out ++ rest ≡ₚ population.
Proof.
  intros (_ & _ & _ & ->)%Sample_Ok. split.
  - rewrite length_take, shuffle_perm. pose proof (size_le population n). lia.
  - exists (drop (size population n) (shuffle (size population n) 0 population (newRNG seed))). by rewrite take_drop, shuffle_perm.
Qed.

(** C23: a draw fails exactly on an empty population, a size that is not positive or
    an empty seed, checked in that order; otherwise it returns as many members as
    asked for, or all, each occurrence of the population at most once, and a larger
    draw with the same seed extends it.  The generator answers every call of the
    draw: its loop ends within two turns. *)
Theorem Sample_spec population n seed :
  match Sample population n seed with
  | Err e => e = (if decide (population = []) then ErrEmptyPopulation else if decide (n ≤ 0) then ErrInvalidN else ErrEmptySeed) ∧
             (population = [] ∨ n ≤ 0 ∨ seed = "")
  | Ok out =>
      population ≠ [] ∧ 0 < n ∧ seed ≠ "" ∧
      Z.of_nat (length out) = n `min` Z.of_nat (length population) ∧
      (∃ rest, out ++ rest ≡ₚ population) ∧ (NoDup population → NoDup out) ∧
      (∀ m out', n ≤ m → Sample population m seed = Ok out' → out `prefix_of` out')
  end ∧
  ∀ k, ∃ r, ChaCha8.Uint64_loop 2 (after k (newRNG seed)) = Some r.
Proof.
  split.
  - destruct (Sample population n seed) as [out|e] eqn:E.
    + pose proof (Sample_part _ _ _ _ E) as [Hl [rest Hr]]. pose proof (Sample_Ok _ _ _ _ E) as (Hp & Hn & Hs & ->).
      split_and!; try done.
      * rewrite Hl. unfold size. destruct (Z.ltb_spec (Z.of_nat (length population)) n); lia.
      * by exists rest.
      * intros Hd. rewrite <- Hr in Hd. by apply NoDup_app in Hd as (? & _ & _).
      * intros m out' Hm (_ & _ & _ & ->)%Sample_Ok. assert (Hk : (size population n ≤ size population m)%nat).
        { unfold size. destruct (Z.ltb_spec (Z.of_nat (length population)) n), (Z.ltb_spec (Z.of_nat (length population)) m); lia. }
        rewrite <- (shuffle_extends _ _ population (newRNG seed) Hk), <- (Nat.min_l _ _ Hk), <- take_take. apply prefix_take.
    + revert E. unfold Sample. case_bool_decide as Hp; [intros [= <-]|].
      { apply nil_length_inv in Hp as ->. rewrite decide_True by done. by split; [|left]. }
      rewrite decide_False by (by intros ->). destruct (Z.leb_spec n 0); [intros [= <-]|].
      { rewrite decide_True by done. split; [done|]. right. by left. }
      rewrite decide_False by lia. case_bool_decide; [|done]. intros [= <-]. split; [done|]. right. by right.
  - intros k. eexists. apply (ChaCha8.Uint64_returns _ 2); [|done]. apply after_ready, ChaCha8.ready_NewChaCha8.
Qed.
End SamplerSpec.

(** ** The store *)

Module SampleSpec.
Import AuditSample.

(** *** Statements *)

Lemma query_Ok {A} stmt (q : DB → option (A * DB)) w a w' :
  query stmt q w = (Ok a, w') → ∃ d, q (db w) = Some (a, d) ∧ w' = mkWorld d (sink w).
Proof. unfold query. destruct (q (db w)) as [[x d]|]; [|done]. intros [= -> <-]. by exists d. Qed.

Lemma lookup_one_Ok {A} (q : DB → option A) w a w' : lookup_one q w = (Ok a, w') → q (db w) = Some a ∧ w' = w.
Proof. unfold lookup_one. destruct (q (db w)); [|done]. by intros [= -> <-]. Qed.

Lemma sample_log_Ok r w w' :
  writeAuditLog r w = (Ok (), w') →
  w' = mkWorld (with_log (db w) (sample_audit_log (db w) ++ [r])) (sink w ++ [r]).
Proof. unfold writeAuditLog, WriteSampleAuditLog. destruct (_ && _); [|done]. by intros [= <-]. Qed.

Lemma sample_log_succeeds r w :
  l_Action r ∈ ["population_created"; "sample_drawn"; "sample_annotated"; "sample_rejected"] → l_Actor r ≠ "" →
  ¬ (l_ID r ∈ l_ID <$> sample_audit_log (db w)) →
  writeAuditLog r w = (Ok (), mkWorld (with_log (db w) (sample_audit_log (db w) ++ [r])) (sink w ++ [r])).
Proof.
  intros H1 H2 H3. unfold writeAuditLog, WriteSampleAuditLog.
  by rewrite (bool_decide_eq_true_2 _ H1), (bool_decide_eq_true_2 _ H2), (bool_decide_eq_false_2 _ H3).
Qed.

Lemma create_sample_Ok now id t pop n seed by_ d row d' :
  CreateSample now id t pop n seed by_ d = Some (row, d') →
  row = mkSample id t pop n seed by_ now ∧ d' = with_samples d (samples d ++ [row]) ∧ ¬ (id ∈ s_ID <$> samples d).
Proof.
  unfold CreateSample. destruct (_ && _) eqn:E; [|done]. intros [= <- <-]. apply andb_prop in E as [_ E].
  apply negb_true_iff, bool_decide_eq_false in E. done.
Qed.

(** *** The members of a population *)

Definition scope_filter (d : ScopeStore.DB) (t : UUID) (predicate : string) (candidates : list (UUID * option UUID))
  : result Error (list UUID) :=
  if isTrivialPredicate predicate then Ok candidates.*1
  else
    match Scope.Evaluate predicate (ScopeStore.rowToCell <$> ScopeStore.ListScopeCells t d) with
    | None => Err ErrPanic
    | Some (Err e) => Err (ErrPredicate e)
    | Some (Ok matching) => Ok (filter (λ c, allowed (Scope.ID <$> matching) c = true) candidates).*1
    end.

Lemma applyScopeFilter_eq t predicate cs w :
  applyScopeFilter t predicate cs w = (scope_filter (scopes (db w)) t predicate cs, w).
Proof.
  unfold applyScopeFilter, scope_filter. destruct (isTrivialPredicate predicate); [done|].
  unfold mbind, tx_bind, tx_gets. by destruct (Scope.Evaluate _ _) as [[]|].
Qed.

(** What a stored population denotes in a database. *)
Definition members (d : DB) (p : PopulationRow) : result Error (list UUID) :=
  scope_filter (scopes d) (p_TenantID p) (p_ScopePredicate p)
    (ListPopulationEvidenceIDs (p_TenantID p) (p_ControlID p) (Some (p_TimeWindowStart p)) (Some (p_TimeWindowEnd p)) (p_FrozenAt p) d).

Lemma get_population_at t id d p : GetPopulationByID t id d = Some p → p_TenantID p = t ∧ p_ID p = id ∧ p ∈ populations d.
Proof.
  unfold GetPopulationByID. destruct (select_where _ _) as [|x l] eqn:E; [done|]. intros [= ->].
  assert (Hp : p ∈ select_where (population_at t id) (populations d)) by (rewrite E; left).
  apply elem_of_select_where in Hp as [[->%bool_decide_eq_true ->%bool_decide_eq_true]%andb_prop ?]. done.
Qed.

Lemma resolve_eq t id w p :
  GetPopulationByID t id (db w) = Some p → resolvePopulationEvidenceIDsFromRow t p w = (members (db w) p, w).
Proof.
  intros (<- & _ & _)%get_population_at. unfold resolvePopulationEvidenceIDsFromRow, mbind, tx_bind, tx_gets.
  by rewrite applyScopeFilter_eq.
Qed.

(** *** Drawing *)

(** The evidence rows of a sample, from ordinal [k]. *)
Fixpoint evidence_rows (sid t : UUID) (k : nat) (ids : list UUID) : list SampleEvidenceRow :=
  match ids with
  | [] => []
  | rec :: ids => mkSampleEvidence sid t rec (int32 (Z.of_nat k)) :: evidence_rows sid t (S k) ids
  end.

Lemma insert_evidence_Ok sid t k ids w w' :
  insertEvidence sid t k ids w = (Ok (), w') →
  w' = mkWorld (with_sample_evidence (db w) (sample_evidence (db w) ++ evidence_rows sid t k ids)) (sink w) ∧
  NoDup ids ∧ (∀ r, r ∈ sample_evidence (db w) → se_SampleID r = sid → ¬ (se_EvidenceRecordID r ∈ ids)).
Proof.
  revert k w. induction ids as [|x ids IH]; intros k w; cbn [insertEvidence evidence_rows].
  - intros [= <-]. rewrite app_nil_r. split_and!; [by destruct w as [[] ?]|constructor|by intros ? ? ? ?%elem_of_nil].
  - intros H. apply tx_bind_Ok in H as ([] & w1 & (d & Hq & ->)%query_Ok & (-> & Hnd & Hold)%IH).
    unfold InsertSampleEvidence in Hq. destruct (_ && _) eqn:E; [|done]. injection Hq as <-.
    apply andb_prop in E as [_ E]. apply negb_true_iff in E.
    assert (Hx : ∀ r, r ∈ sample_evidence (db w) → se_SampleID r = sid → se_EvidenceRecordID r ≠ x).
    { intros r Hr Es Ex. apply not_true_iff_false in E. apply E, existsb_exists. exists r. split; [by apply list_elem_of_In|].
      by rewrite andb_true_iff, !bool_decide_eq_true. }
    cbn [db sample_evidence with_sample_evidence] in *. split_and!.
    + cbn. by rewrite <- app_assoc.
    + constructor; [|done]. eapply (Hold (mkSampleEvidence sid t x _)); [apply elem_of_app; right; left|done].
    + intros r Hr Es [Ex|Hin]%elem_of_cons; [by eapply Hx|]. eapply Hold; [apply elem_of_app; by left|done|done].
Qed.

Section Store.
Context {UT : UUIDText} {JB : JsonB}.
Implicit Types (env : Env) (w : World).

Definition drawn_entry (env : Env) (i : DrawSampleInput) (t : UUID) (s : Sample) : LogRow :=
  mkLog (env_newID env 1) t "sample_drawn" (ds_CreatedBy i) (Some (s_PopulationID (sample s))) (Some (s_ID (sample s)))
    (Some (ds_Seed i)) (Some (int32 (ds_N i))) (Some (int32 (Z.of_nat (length (EvidenceRecordIDs s))))) "" (env_now env).

(** What a successful draw did. *)
Lemma DrawSample_Ok env i w s w' :
  DrawSample env i w = (Ok s, w') →
  ∃ t p ids, tenant_of (env_ctx env) = Some t ∧ GetPopulationByID t (ds_PopulationID i) (db w) = Some p ∧
    members (db w) p = Ok ids ∧ Sampler.Sample ids (ds_N i) (ds_Seed i) = Ok (EvidenceRecordIDs s) ∧
    sample s = mkSample (env_newID env 0) t (p_ID p) (int32 (Z.of_nat (length (EvidenceRecordIDs s)))) (ds_Seed i) (ds_CreatedBy i)
                 (env_now env) ∧
    ¬ (env_newID env 0 ∈ s_ID <$> samples (db w)) ∧ NoDup (EvidenceRecordIDs s) ∧
    db w' = mkDB (scopes (db w)) (evidence_records (db w)) (populations (db w)) (samples (db w) ++ [sample s])
              (sample_evidence (db w) ++ evidence_rows (env_newID env 0) t 0 (EvidenceRecordIDs s)) (sample_annotations (db w))
              (sample_audit_log (db w) ++ [drawn_entry env i t s]).
Proof using.
  unfold DrawSample. destruct (_ <=? 0); [done|]. case_bool_decide; [done|]. case_bool_decide; [done|]. intros E.
  apply (inTx_cases db) in E as [(t & a & Ht & [= <-] & E)|(e & [=] & _)].
  apply tx_bind_Ok in E as (p & w1 & [Hp ->]%lookup_one_Ok & E).
  apply tx_bind_Ok in E as (ids & w1 & Hr & E). rewrite (resolve_eq _ _ _ _ Hp) in Hr. injection Hr as Hm <-.
  case_bool_decide; [unfold tx_try in E; by destruct (writeAuditLog _ w) as [[] ?]|].
  destruct (Sampler.Sample ids (ds_N i) (ds_Seed i)) as [drawn|] eqn:Hs; [|done].
  apply tx_bind_Ok in E as (row & w1 & (d & (-> & -> & Hf)%create_sample_Ok & ->)%query_Ok & E).
  apply tx_bind_Ok in E as ([] & w2 & (-> & Hnd & _)%insert_evidence_Ok & E).
  apply tx_bind_Ok in E as ([] & w3 & ->%sample_log_Ok & [= <- <-]).
  exists t, p, ids. by split_and!.
Qed.

(** *** Reachable states *)

(** The operations of the store, and what the rest of the system does to the
    ledger, the scopes and the populations. *)
Inductive sample_step : World → World → Prop :=
| step_population env i w : sample_step w (CreatePopulation env i w).2
| step_draw env i w : sample_step w (DrawSample env i w).2
| step_annotate env i w : sample_step w (AnnotateSample env i w).2
| step_elsewhere sc ev ps w :
    sample_step w (mkWorld (mkDB sc ev ps (samples (db w)) (sample_evidence (db w)) (sample_annotations (db w)) (sample_audit_log (db w)))
                     (sink w)).

Definition evidence_of (s : SampleRow) (d : DB) : list SampleEvidenceRow :=
  select_where (λ r, bool_decide (se_TenantID r = s_TenantID s) && bool_decide (se_SampleID r = s_ID s)) (sample_evidence d).

(** A sample has the evidence it says, in order and without repetition, and an
    entry that maps its seed to it. *)
Record recorded (s : SampleRow) (d : DB) : Prop := {
  recorded_evidence : ∃ ids, NoDup ids ∧ ids ≠ [] ∧ s_N s = int32 (Z.of_nat (length ids)) ∧
                             evidence_of s d = evidence_rows (s_ID s) (s_TenantID s) 0 ids;
  recorded_entry : ∃ l, l ∈ sample_audit_log d ∧ l_Action l = "sample_drawn" ∧ l_TenantID l = s_TenantID s ∧
                        l_PopulationID l = Some (s_PopulationID s) ∧ l_SampleID l = Some (s_ID s) ∧
                        l_Seed l = Some (s_Seed s) ∧ l_NReturned l = Some (s_N s);
}.

Record consistent (d : DB) : Prop := {
  consistent_ids : NoDup (s_ID <$> samples d);
  consistent_refs r : r ∈ sample_evidence d → se_SampleID r ∈ s_ID <$> samples d;
  consistent_samples s : s ∈ samples d → recorded s d;
  consistent_log l : l ∈ sample_audit_log d → l_Action l ≠ "sample_rejected";
}.

Lemma consistent_ext d d' more :
  samples d' = samples d → sample_evidence d' = sample_evidence d → sample_audit_log d' = sample_audit_log d ++ more →
  Forall (λ l, l_Action l ≠ "sample_rejected") more → consistent d → consistent d'.
Proof using.
  intros E1 E2 E3 Hm [H1 H2 H3 H4]. split; rewrite ?E1, ?E2, ?E3; [done|done| |].
  - intros s Hs. destruct (H3 s Hs) as [He (l & Hl & E)]. split; [unfold evidence_of; by rewrite E2|].
    exists l. rewrite E3. split; [by apply elem_of_app; left|done].
  - intros l [Hl|Hl]%elem_of_app; [by apply H4|]. by eapply Forall_forall in Hm.
Qed.

Lemma evidence_rows_ids sid t k ids r : r ∈ evidence_rows sid t k ids → se_SampleID r = sid ∧ se_TenantID r = t.
Proof using.
  revert k. induction ids as [|x ids IH]; intros k; cbn [evidence_rows]; [by intros ?%elem_of_nil|].
  intros [->|Hr]%elem_of_cons; [done|by eapply IH].
Qed.

Lemma select_all {A} (p : A → bool) l : (∀ x, x ∈ l → p x = true) → select_where p l = l.
Proof using.
  unfold select_where. induction l as [|x l IH]; intros H; [done|]. rewrite filter_cons, decide_True by (apply H; left).
  f_equal. apply IH. intros y Hy. apply H. by right.
Qed.

(** A drawn sample joins the others. *)
Lemma consistent_draw env i t s d :
  ¬ (s_ID (sample s) ∈ s_ID <$> samples d) → NoDup (EvidenceRecordIDs s) → EvidenceRecordIDs s ≠ [] →
  sample s = mkSample (env_newID env 0) t (s_PopulationID (sample s)) (int32 (Z.of_nat (length (EvidenceRecordIDs s)))) (ds_Seed i)
               (ds_CreatedBy i) (env_now env) →
  consistent d →
  consistent (mkDB (scopes d) (evidence_records d) (populations d) (samples d ++ [sample s])
                (sample_evidence d ++ evidence_rows (env_newID env 0) t 0 (EvidenceRecordIDs s)) (sample_annotations d)
                (sample_audit_log d ++ [drawn_entry env i t s])).
Proof using.
  intros Hf Hnd Hne Es [H1 H2 H3 H4].
  assert (Eid : s_ID (sample s) = env_newID env 0) by by rewrite Es. assert (Et : s_TenantID (sample s) = t) by by rewrite Es.
  split; cbn [samples sample_evidence sample_audit_log].
  - rewrite fmap_app, NoDup_app. split_and!; [done| |apply NoDup_singleton]. by intros x Hx ->%list_elem_of_singleton.
  - intros r. rewrite elem_of_app, fmap_app, elem_of_app. intros [Hr|Hr]; [left; auto|right].
    apply evidence_rows_ids in Hr as [-> _]. rewrite <- Eid. left.
  - intros x [Hx| ->%list_elem_of_singleton]%elem_of_app.
    + destruct (H3 x Hx) as [(ids & ? & ? & ? & He) (l & Hl & E)]. split; [|exists l; split; [by apply elem_of_app; left|done]].
      exists ids. split_and!; [done..|]. unfold evidence_of in *. cbn [sample_evidence]. rewrite select_where_app, He.
      rewrite select_where_none; [by rewrite app_nil_r|]. intros r [Er _]%evidence_rows_ids. rewrite Er, andb_false_iff.
      right. apply bool_decide_eq_false. intros E'. apply Hf. rewrite Eid, E'. by apply list_elem_of_fmap_2.
    + split.
      * exists (EvidenceRecordIDs s). split_and!; [done|done|by rewrite Es at 1|]. unfold evidence_of. cbn [sample_evidence].
        rewrite select_where_app, select_where_none, Eid, Et.
        { rewrite select_all; [done|]. intros r [-> ->]%evidence_rows_ids. by rewrite !bool_decide_eq_true_2. }
        intros r Hr. apply andb_false_iff. right. apply bool_decide_eq_false. intros E'. apply Hf. rewrite <- E'. auto.
      * eexists. split; [apply elem_of_app; right; left|]. unfold drawn_entry. cbn. split_and!; try done.
        -- by rewrite Es at 1.
        -- by rewrite Es.
  - intros l [Hl| ->%list_elem_of_singleton]%elem_of_app; [auto|done].
Qed.

Lemma consistent_rollback env {A} (fn : UUID → Tx World Error A) w :
  consistent (db w) → (∀ t a w', fn t w = (Ok a, w') → consistent (db w')) → consistent (db (inTx env fn w).2).
Proof using.
  intros Hw Hfn. destruct (inTx env fn w) as [r w'] eqn:E. cbn [snd].
  apply (inTx_cases db) in E as [(t & a & _ & _ & E)|(e & _ & E)]; [by eapply Hfn|by rewrite E].
Qed.

Lemma sample_step_consistent w w' : sample_step w w' → consistent (db w) → consistent (db w').
Proof using.
  destruct 1 as [env i w|env i w|env i w|sc ev ps w]; intros Hw.
  - unfold CreatePopulation. case_bool_decide; [done|]. destruct (After _ _); [done|]. cbv zeta. apply consistent_rollback; [done|].
    intros t a w' E. apply tx_bind_Ok in E as (ids & w1 & Hr & E). unfold resolvePopulationEvidenceIDs in Hr.
    apply tx_bind_Ok in Hr as (cs & w2 & [= <- <-] & Hr). rewrite applyScopeFilter_eq in Hr. injection Hr as _ <-.
    apply tx_bind_Ok in E as (row & w2 & (d & Hq & ->)%query_Ok & E).
    apply tx_bind_Ok in E as ([] & w3 & ->%sample_log_Ok & [= <- <-]).
    unfold CreatePopulationQ in Hq. destruct (jsonb_in _); [|done]. destruct (pgTimestamptz (cp_TimeWindowStart i)); [|done].
    destruct (pgTimestamptz (cp_TimeWindowEnd i)); [|done]. cbn [mbind option_bind] in Hq. destruct (_ && _); [|done].
    injection Hq as <- <-. eapply (consistent_ext (db w)); [reflexivity..| |exact Hw]. by apply Forall_singleton.
  - destruct (DrawSample env i w) as [[s|e] w'] eqn:E; cbn [snd].
    + apply DrawSample_Ok in E as (t & p & ids & _ & _ & _ & Hs & Er & Hf & Hnd & ->).
      apply consistent_draw; [by rewrite Er|done| |by rewrite Er|done].
      intros En. pose proof (SamplerSpec.Sample_part _ _ _ _ Hs) as [Hl _].
      apply SamplerSpec.Sample_Ok in Hs as (Hne & Hn & _). rewrite En in Hl. unfold SamplerSpec.size in Hl.
      destruct ids; [done|]. destruct (_ <? _); simpl in Hl; lia.
    + unfold DrawSample in E. destruct (_ <=? 0); [by injection E as _ <-|]. case_bool_decide; [by injection E as _ <-|].
      case_bool_decide; [by injection E as _ <-|]. apply (inTx_cases db) in E as [(t & a & _ & [=] & _)|(e' & _ & E)].
      by rewrite E.
  - unfold AnnotateSample. destruct (negb _); [done|]. case_bool_decide; [done|]. apply consistent_rollback; [done|].
    intros t a w' E. apply tx_bind_Ok in E as (s & w1 & [_ ->]%lookup_one_Ok & E).
    apply tx_bind_Ok in E as (row & w2 & (d & Hq & ->)%query_Ok & E).
    apply tx_bind_Ok in E as ([] & w3 & ->%sample_log_Ok & [= <- <-]).
    assert (Hd : ∃ as', d = with_annotations (db w) as').
    { unfold UpsertSampleAnnotation in Hq. destruct (_ && _); [|done]. destruct (updated_rows _ _ _); [destruct (_ && _); [|done]|];
        injection Hq as _ <-; eauto. }
    destruct Hd as [as' ->]. eapply (consistent_ext (db w)); [reflexivity..| |exact Hw]. by apply Forall_singleton.
  - apply (consistent_ext (db w) _ []); [done|done|symmetry; apply app_nil_r|constructor|done].
Qed.

Lemma reachable_consistent sc ev ps w :
  rtc sample_step (mkWorld (mkDB sc ev ps [] [] [] []) []) w → consistent (db w).
Proof using.
  intros H. assert (H0 : consistent (db (mkWorld (mkDB sc ev ps [] [] [] []) []))).
  { split; cbn; [constructor|by intros ? ?%elem_of_nil..]. }
  revert H0. generalize H. clear H. generalize (mkWorld (mkDB sc ev ps [] [] [] []) []). intros w0 H.
  induction H; eauto using sample_step_consistent.
Qed.

(** At every reachable state each sample has the number of evidence records it
    says, in consecutive order and without repetition, and the log maps its seed
    and population to it; and no rejected draw is on the log, although the draw of
    an empty population writes such an entry. *)
Theorem samples_recorded sc ev ps w s :
  rtc sample_step (mkWorld (mkDB sc ev ps [] [] [] []) []) w → s ∈ samples (db w) →
  recorded s (db w) ∧ Forall (λ l, l_Action l ≠ "sample_rejected") (sample_audit_log (db w)).
Proof using.
  intros [H1 H2 H3 H4]%reachable_consistent Hs. split; [by apply H3|]. by apply Forall_forall.
Qed.

(** *** Reading a sample back *)

Lemma evidence_rows_at sid t k ids r :
  r ∈ evidence_rows sid t k ids →
  ∃ j x, ids !! j = Some x ∧ r = mkSampleEvidence sid t x (int32 (Z.of_nat (k + j))).
Proof using.
  revert k. induction ids as [|y ids IH]; intros k; cbn [evidence_rows]; [by intros ?%elem_of_nil|].
  intros [->|Hr]%elem_of_cons; [exists 0%nat, y; by rewrite Nat.add_0_r|].
  destruct (IH (S k) Hr) as (j & x & Hj & ->). exists (S j), x. split; [done|]. by rewrite Nat.add_succ_r.
Qed.

Lemma evidence_rows_sorted sid t k ids :
  Z.of_nat (k + length ids) < 2 ^ 31 → StronglySorted by_ordinal (evidence_rows sid t k ids).
Proof using.
  revert k. induction ids as [|x ids IH]; intros k Hk; [constructor|]. cbn [evidence_rows length] in *. constructor; [apply IH; lia|].
  apply Forall_forall. intros r (j & y & Hj%lookup_lt_Some & ->)%evidence_rows_at. unfold by_ordinal. cbn [se_Ordinal].
  rewrite !int32_small by lia. lia.
Qed.

Lemma evidence_rows_fmap sid t k ids : se_EvidenceRecordID <$> evidence_rows sid t k ids = ids.
Proof using. revert k. induction ids as [|x ids IH]; intros k; [done|]. cbn [evidence_rows]. by rewrite fmap_cons, IH. Qed.

(** The rows of a sample come back in the order they were drawn. *)
Lemma by_ordinal_rows sid t ids :
  Z.of_nat (length ids) < 2 ^ 31 → merge_sort by_ordinal (evidence_rows sid t 0 ids) = evidence_rows sid t 0 ids.
Proof using.
  intros Hl. apply (StronglySorted_unique_strong by_ordinal).
  - intros x y. rewrite merge_sort_Permutation. intros (j & a & Hj & ->)%evidence_rows_at (j' & b & Hj' & ->)%evidence_rows_at.
    unfold by_ordinal. cbn [se_Ordinal]. pose proof (lookup_lt_Some _ _ _ Hj). pose proof (lookup_lt_Some _ _ _ Hj').
    rewrite !int32_small by lia. intros. assert (j = j') as <- by lia. by simplify_eq.
  - apply StronglySorted_merge_sort; intros x; unfold by_ordinal; lia.
  - apply evidence_rows_sorted. lia.
  - apply merge_sort_Permutation.
Qed.

(** What a draw returned is what a later read of the sample returns, record by
    record and in the same order; the sample has the size asked for, or that of the
    population, and its records are members of the population, none twice. *)
Theorem drawn_sample_reads_back sc ev ps w env i s w' ctx now newID :
  rtc sample_step (mkWorld (mkDB sc ev ps [] [] [] []) []) w → DrawSample env i w = (Ok s, w') →
  tenant_of ctx = tenant_of (env_ctx env) → Z.of_nat (length (EvidenceRecordIDs s)) < 2 ^ 31 →
  (GetSample (mkEnv ctx healthy now newID) (s_ID (sample s)) w').1 = Ok s ∧
  ∃ t p ids rest, tenant_of ctx = Some t ∧ GetPopulationByID t (ds_PopulationID i) (db w) = Some p ∧ members (db w) p = Ok ids ∧
    EvidenceRecordIDs s ++ rest ≡ₚ ids ∧ NoDup (EvidenceRecordIDs s) ∧
    s_N (sample s) = ds_N i `min` Z.of_nat (length ids).
Proof using.
  intros [H1 H2 _ _]%reachable_consistent (t & p & ids & Ht & Hp & Hm & Hs & Er & Hf & Hnd & Hd)%DrawSample_Ok Hc Hl.
  rewrite Ht in Hc. pose proof (SamplerSpec.Sample_part _ _ _ _ Hs) as [Hlen [rest Hrest]]. split.
  - unfold GetSample, inTx. cbn [env_infra env_ctx]. rewrite (inTx_healthy db ctx t) by done.
    unfold mbind, tx_bind, lookup_one, GetSampleByID. rewrite Hd. cbn [samples]. rewrite select_where_app, select_where_none.
    + rewrite Er. unfold select_where. rewrite app_nil_l, filter_cons, filter_nil, decide_True by (unfold sample_at; cbn; by rewrite !bool_decide_eq_true_2).
      cbn [head tx_gets mret tx_ret fst s_ID]. unfold ListSampleEvidence. rewrite Hd. cbn [sample_evidence].
      rewrite select_where_app, select_where_none, select_all, app_nil_l, by_ordinal_rows, evidence_rows_fmap; [| done| |].
      * destruct s as [row drawn]. cbn in *. by rewrite Er.
      * intros r [-> ->]%evidence_rows_ids. by rewrite !bool_decide_eq_true_2.
      * intros r Hr. apply andb_false_iff. right. apply bool_decide_eq_false. intros E. apply Hf. rewrite <- E. auto.
    + intros x Hx. unfold sample_at. apply andb_false_iff. right. apply bool_decide_eq_false. rewrite Er. cbn [s_ID]. intros E.
      apply Hf. rewrite <- E. by apply list_elem_of_fmap_2.
  - exists t, p, ids, rest. split_and!; try done. rewrite Er. cbn [s_N]. rewrite int32_small by lia. rewrite Hlen.
    unfold SamplerSpec.size. destruct (Z.ltb_spec (Z.of_nat (length ids)) (ds_N i)); [lia|].
    apply SamplerSpec.Sample_Ok in Hs. lia.
Qed.

(** *** Drawing again *)

Lemma scope_filter_members sc t predicate cs ids x :
  scope_filter sc t predicate cs = Ok ids → x ∈ ids → x ∈ cs.*1.
Proof using.
  unfold scope_filter. destruct (isTrivialPredicate predicate); [by intros [= <-]|].
  destruct (Scope.Evaluate _ _) as [[matching|]|]; [|done..]. intros [= <-].
  rewrite !list_elem_of_fmap. intros (c & -> & [_ Hc]%list_elem_of_filter). eauto.
Qed.

Lemma members_exist d p ids x : members d p = Ok ids → x ∈ ids → evidence_exists d (p_TenantID p) x = true.
Proof using.
  intros Hm Hx. eapply scope_filter_members in Hx; [|exact Hm]. apply list_elem_of_fmap in Hx as (c & -> & Hc).
  unfold ListPopulationEvidenceIDs in Hc. apply list_elem_of_fmap in Hc as (e & -> & He).
  rewrite merge_sort_Permutation in He. apply elem_of_select_where in He as [He Hin].
  unfold evidence_exists. apply existsb_exists. exists e. split; [by apply list_elem_of_In|]. cbn.
  unfold in_population in He. rewrite !andb_true_iff in He. destruct He as [[[[-> _] _] _] _]. by rewrite bool_decide_eq_true_2.
Qed.

Lemma insert_evidence_succeeds sid t k ids w :
  existsb (sample_at t sid) (samples (db w)) = true → (∀ x, x ∈ ids → evidence_exists (db w) t x = true) → NoDup ids →
  (∀ r, r ∈ sample_evidence (db w) → se_SampleID r = sid → ¬ (se_EvidenceRecordID r ∈ ids)) →
  Z.of_nat (k + length ids) < 2 ^ 31 →
  insertEvidence sid t k ids w =
  (Ok (), mkWorld (with_sample_evidence (db w) (sample_evidence (db w) ++ evidence_rows sid t k ids)) (sink w)).
Proof using.
  revert k w. induction ids as [|x ids IH]; intros k w Hs He Hnd Hold Hk; cbn [insertEvidence evidence_rows].
  { rewrite app_nil_r. by destruct w as [[] ?]. }
  apply NoDup_cons in Hnd as [Hx Hnd]. cbn [length] in Hk. unfold mbind at 1, tx_bind at 1, query, InsertSampleEvidence.
  rewrite (proj2 (Z.leb_le 0 _)) by (rewrite int32_small; lia). rewrite Hs, He by left. cbn [andb].
  assert (Hno : existsb (λ r, bool_decide (se_SampleID r = sid) && bool_decide (se_EvidenceRecordID r = x)) (sample_evidence (db w)) = false).
  { apply not_true_iff_false. rewrite existsb_exists. intros (r & Hr%list_elem_of_In & [E1 E2]%andb_prop).
    apply bool_decide_eq_true in E1, E2. apply (Hold r Hr E1). rewrite E2. left. }
  rewrite Hno. cbn [negb mbind option_bind]. rewrite IH; cbn; [by rewrite <- app_assoc|done| |done| |lia].
  - intros y Hy. apply He. by right.
  - intros r [Hr| ->%list_elem_of_singleton]%elem_of_app E Hin; [|done]. apply (Hold r Hr E). by right.
Qed.

(** A draw whose inputs are in order returns. *)
Lemma DrawSample_succeeds env i w t p ids :
  env_infra env = healthy → tenant_of (env_ctx env) = Some t → GetPopulationByID t (ds_PopulationID i) (db w) = Some p →
  members (db w) p = Ok ids → ids ≠ [] → NoDup ids → Z.of_nat (length ids) < 2 ^ 31 →
  0 < ds_N i → ds_Seed i ≠ "" → ds_CreatedBy i ≠ "" →
  ¬ (env_newID env 0 ∈ s_ID <$> samples (db w)) → ¬ (env_newID env 0 ∈ se_SampleID <$> sample_evidence (db w)) →
  ¬ (env_newID env 1 ∈ l_ID <$> sample_audit_log (db w)) →
  ∃ s w', DrawSample env i w = (Ok s, w') ∧ Sampler.Sample ids (ds_N i) (ds_Seed i) = Ok (EvidenceRecordIDs s).
Proof using.
  intros Hh Ht Hp Hm Hne Hnd Hl Hn Hsd Hby Hf1 Hf2 Hf3.
  assert (HS : ∃ drawn, Sampler.Sample ids (ds_N i) (ds_Seed i) = Ok drawn).
  { unfold Sampler.Sample. rewrite bool_decide_eq_false_2 by (by destruct ids). rewrite (proj2 (Z.leb_gt _ _)) by lia.
    rewrite bool_decide_eq_false_2 by done. eauto. }
  destruct HS as [drawn HS]. destruct (SamplerSpec.Sample_part _ _ _ _ HS) as [Hlen [rest Hperm]].
  assert (Hle : (length drawn ≤ length ids)%nat) by (rewrite Hlen; apply SamplerSpec.size_le).
  assert (Hpos : 0 < Z.of_nat (length drawn)).
  { rewrite Hlen. unfold SamplerSpec.size. destruct ids; [done|]. destruct (_ <? _); cbn; lia. }
  destruct (get_population_at _ _ _ _ Hp) as (Et & Ei & Hin).
  unfold DrawSample. rewrite (proj2 (Z.leb_gt _ _)) by lia. rewrite !bool_decide_eq_false_2 by done.
  unfold inTx. rewrite Hh, (inTx_healthy db _ t) by done. unfold mbind at 1, tx_bind at 1, lookup_one. rewrite Hp.
  unfold mbind at 1, tx_bind at 1. rewrite (resolve_eq _ _ _ _ Hp), Hm, bool_decide_eq_false_2, HS by (by destruct ids).
  unfold mbind at 1, tx_bind at 1, query, CreateSample. rewrite int32_small by lia.
  assert (Hpop : existsb (population_at t (p_ID p)) (populations (db w)) = true).
  { apply existsb_exists. exists p. split; [by apply list_elem_of_In|]. unfold population_at. by rewrite Et, !bool_decide_eq_true_2. }
  rewrite (proj2 (Z.ltb_lt _ _)), Hpop, !bool_decide_eq_true_2, bool_decide_eq_false_2 by done. cbn [andb negb].
  unfold mbind at 1, tx_bind at 1. rewrite insert_evidence_succeeds; cbn [s_ID db samples with_samples sample_evidence].
  - unfold mbind at 1, tx_bind at 1. rewrite sample_log_succeeds by first [done|right; left].
    eexists (mkDrawn _ drawn), _. split; done.
  - rewrite existsb_app. apply orb_true_iff. right. cbn. unfold sample_at. cbn. by rewrite !bool_decide_eq_true_2.
  - intros x Hx. rewrite <- Et. apply (members_exist (db w) p ids); [done|]. rewrite <- Hperm. apply elem_of_app. by left.
  - rewrite <- Hperm in Hnd. by apply NoDup_app in Hnd as (? & _ & _).
  - intros r Hr E _. apply Hf2. rewrite <- E. by apply list_elem_of_fmap_2.
  - lia.
Qed.

(** *** Frozen populations *)

Lemma in_population_late t c a b h e : h < e_ObservedAt e → in_population t c a b (Some h) e = false.
Proof using. intros H. unfold in_population, before_horizon. rewrite (bool_decide_eq_false_2 (e_ObservedAt e ≤ h)) by lia. apply andb_false_r. Qed.

Lemma by_id_unique l k : NoDup (e_ID <$> l) → l ≡ₚ k → merge_sort by_id l = merge_sort by_id k.
Proof using.
  intros Hn Hp. apply (StronglySorted_unique_strong by_id).
  - intros x y. rewrite !merge_sort_Permutation, <- Hp. unfold by_id. intros Hx Hy ? ?.
    apply (NoDup_key_inj e_ID l); [done..|lia].
  - apply StronglySorted_merge_sort; intros x; unfold by_id; lia.
  - apply StronglySorted_merge_sort; intros x; unfold by_id; lia.
  - by rewrite !merge_sort_Permutation.
Qed.

Lemma frozen_members d d' p h more :
  p_FrozenAt p = Some h → scopes d' = scopes d → evidence_records d' ≡ₚ evidence_records d ++ more →
  Forall (λ e, h < e_ObservedAt e) more → NoDup (e_ID <$> evidence_records d') → members d' p = members d p.
Proof using.
  intros Hh Hs Hp Hm Hn. unfold members, ListPopulationEvidenceIDs. rewrite Hs, Hh. do 2 f_equal. apply by_id_unique.
  - eapply sublist_NoDup; [exact Hn|]. apply fmap_sublist, sublist_filter.
  - unfold select_where. rewrite Hp, filter_app. fold (select_where (in_population (p_TenantID p) (p_ControlID p)
      (Some (p_TimeWindowStart p)) (Some (p_TimeWindowEnd p)) (Some h)) more). rewrite select_where_none; [by rewrite app_nil_r|].
    intros e He. apply in_population_late. by eapply Forall_forall in Hm.
Qed.

Lemma members_NoDup d p ids : NoDup (e_ID <$> evidence_records d) → members d p = Ok ids →
  NoDup ids ∧ (length ids ≤ length (evidence_records d))%nat.
Proof using.
  intros Hn Hm. set (cs := ListPopulationEvidenceIDs (p_TenantID p) (p_ControlID p) (Some (p_TimeWindowStart p))
    (Some (p_TimeWindowEnd p)) (p_FrozenAt p) d). assert (Hsub : ids `sublist_of` cs.*1).
  { revert Hm. unfold members, scope_filter. destruct (isTrivialPredicate _); [by intros [= <-]|].
    destruct (Scope.Evaluate _ _) as [[]|]; [|done..]. intros [= <-]. apply fmap_sublist, sublist_filter. }
  assert (Hcs : cs.*1 ≡ₚ e_ID <$> select_where (in_population (p_TenantID p) (p_ControlID p) (Some (p_TimeWindowStart p))
      (Some (p_TimeWindowEnd p)) (p_FrozenAt p)) (evidence_records d)).
  { unfold cs, ListPopulationEvidenceIDs. rewrite <- list_fmap_compose. by rewrite merge_sort_Permutation. }
  split.
  - eapply sublist_NoDup; [|exact Hsub]. rewrite Hcs. eapply sublist_NoDup; [exact Hn|]. apply fmap_sublist, sublist_filter.
  - apply sublist_length in Hsub. rewrite Hcs, length_fmap in Hsub. etrans; [exact Hsub|]. apply length_filter.
Qed.

(** A population that was frozen can be drawn again: with the same size and
    seed the second draw returns, and returns the same records in the same order,
    whatever evidence observed after the horizon has arrived and in whatever order
    the ledger is stored. *)
Theorem frozen_redraw env i w s w1 env' by' w2 t p h more :
  DrawSample env i w = (Ok s, w1) → tenant_of (env_ctx env) = Some t →
  GetPopulationByID t (ds_PopulationID i) (db w) = Some p → p_FrozenAt p = Some h →
  GetPopulationByID t (ds_PopulationID i) (db w2) = Some p → scopes (db w2) = scopes (db w) →
  evidence_records (db w2) ≡ₚ evidence_records (db w) ++ more → Forall (λ e, h < e_ObservedAt e) more →
  NoDup (e_ID <$> evidence_records (db w2)) → Z.of_nat (length (evidence_records (db w2))) < 2 ^ 31 →
  env_infra env' = healthy → tenant_of (env_ctx env') = Some t → by' ≠ "" →
  ¬ (env_newID env' 0 ∈ s_ID <$> samples (db w2)) → ¬ (env_newID env' 0 ∈ se_SampleID <$> sample_evidence (db w2)) →
  ¬ (env_newID env' 1 ∈ l_ID <$> sample_audit_log (db w2)) →
  ∃ s' w3, DrawSample env' (mkDrawInput (ds_PopulationID i) (ds_N i) (ds_Seed i) by') w2 = (Ok s', w3) ∧
    EvidenceRecordIDs s' = EvidenceRecordIDs s.
Proof using.
  intros (t0 & p0 & ids & Ht0 & Hp0 & Hm & Hs & _)%DrawSample_Ok Ht Hp Hh Hp2 Hsc Hev Hmore Hn Hl Hinf Ht' Hby Hf1 Hf2 Hf3.
  rewrite Ht in Ht0. injection Ht0 as <-. rewrite Hp in Hp0. injection Hp0 as <-.
  rewrite <- (frozen_members (db w) (db w2) p h more Hh Hsc Hev Hmore Hn) in Hm.
  destruct (members_NoDup _ _ _ Hn Hm) as [Hnd Hle]. pose proof (SamplerSpec.Sample_Ok _ _ _ _ Hs) as (Hne & HN & Hseed & _).
  destruct (DrawSample_succeeds env' (mkDrawInput (ds_PopulationID i) (ds_N i) (ds_Seed i) by') w2 t p ids) as (s' & w3 & HD & HS);
    try done; [lia|].
  exists s', w3. split; [done|]. cbn in HS. rewrite Hs in HS. by injection HS.
Qed.

(** Drawing from an empty population fails, and the entry that says so reaches
    the external sink but not the log: it is rolled back with the draw. *)
Theorem rejection_not_recorded env i w t p :
  env_infra env = healthy → tenant_of (env_ctx env) = Some t → 0 < ds_N i → ds_Seed i ≠ "" → ds_CreatedBy i ≠ "" →
  GetPopulationByID t (ds_PopulationID i) (db w) = Some p → members (db w) p = Ok [] →
  ¬ (env_newID env 0 ∈ l_ID <$> sample_audit_log (db w)) →
  DrawSample env i w =
  (Err ErrEmptyPopulation,
   mkWorld (db w) (sink w ++ [mkLog (env_newID env 0) t "sample_rejected" (ds_CreatedBy i) (Some (p_ID p)) None (Some (ds_Seed i))
                                (Some (int32 (ds_N i))) None "empty_population" (env_now env)])).
Proof using.
  intros Hh Ht HN Hseed Hby Hp Hm Hf. unfold DrawSample. rewrite (proj2 (Z.leb_gt _ _)) by lia. rewrite !bool_decide_eq_false_2 by done.
  unfold inTx. rewrite Hh, (inTx_healthy db _ t) by done. unfold mbind at 1, tx_bind at 1, lookup_one. rewrite Hp.
  unfold mbind, tx_bind. rewrite (resolve_eq _ _ _ _ Hp), Hm, bool_decide_eq_true_2 by done.
  unfold tx_try. by rewrite sample_log_succeeds by first [done|do 3 right; left].
Qed.

(** An annotation is accepted for any record of the tenant, sampled or not. *)
Lemma annotation_accepted env i w t s :
  env_infra env = healthy → tenant_of (env_ctx env) = Some t → as_Result i ∈ AnnotationResults → as_AnnotatedBy i ≠ "" →
  GetSampleByID t (as_SampleID i) (db w) = Some s → evidence_exists (db w) t (as_EvidenceRecordID i) = true →
  ¬ (env_newID env 0 ∈ a_ID <$> sample_annotations (db w)) → ¬ (env_newID env 1 ∈ l_ID <$> sample_audit_log (db w)) →
  ∃ a w', AnnotateSample env i w = (Ok a, w') ∧ a_EvidenceRecordID a = as_EvidenceRecordID i ∧ a_Result a = as_Result i.
Proof using.
  intros Hh Ht Hr Hby Hs He Hf1 Hf2. unfold AnnotateSample. rewrite (bool_decide_eq_true_2 _ Hr), bool_decide_eq_false_2 by done.
  cbn [negb]. unfold inTx. rewrite Hh, (inTx_healthy db _ t) by done. unfold mbind at 1, tx_bind at 1, lookup_one. rewrite Hs.
  assert (Hq : ∃ a as', UpsertSampleAnnotation (env_now env) (env_newID env 0) t (as_SampleID i) (as_EvidenceRecordID i) (as_Result i)
      (as_AnnotatedBy i) (as_Notes i) (db w) = Some (a, with_annotations (db w) as') ∧ a_EvidenceRecordID a = as_EvidenceRecordID i ∧
      a_Result a = as_Result i).
  { unfold UpsertSampleAnnotation. rewrite (bool_decide_eq_true_2 _ Hr), (bool_decide_eq_true_2 _ Hby). cbn [andb].
    destruct (updated_rows _ _ _) as [|a l] eqn:E.
    - assert (Hx : existsb (sample_at t (as_SampleID i)) (samples (db w)) = true).
      { unfold GetSampleByID in Hs. destruct (select_where _ _) as [|x l] eqn:El; [done|]. injection Hs as ->.
        assert (Hin : s ∈ select_where (sample_at t (as_SampleID i)) (samples (db w))) by (rewrite El; left).
        apply elem_of_select_where in Hin as [? ?]. apply existsb_exists. exists s. by rewrite <- list_elem_of_In. }
      rewrite Hx, He, bool_decide_eq_false_2 by done. cbn. eauto 10.
    - assert (Ha : a ∈ updated_rows (annotation_key t (as_SampleID i) (as_EvidenceRecordID i))
        (reannotate (env_now env) (as_Result i) (as_AnnotatedBy i) (as_Notes i)) (sample_annotations (db w))) by (rewrite E; left).
      unfold updated_rows in Ha. apply list_elem_of_fmap in Ha as (x & -> & [Hk _]%elem_of_select_where).
      eexists _, _. split; [done|]. unfold annotation_key in Hk. rewrite !andb_true_iff, !bool_decide_eq_true in Hk. by destruct Hk. }
  destruct Hq as (a & as' & Hq & Ea & Eb). unfold mbind at 1, tx_bind at 1, query. rewrite Hq.
  unfold mbind, tx_bind. rewrite sample_log_succeeds by first [done|do 2 right; left]. eauto 10.
Qed.
End Store.
End SampleSpec.

(** ** A population at work *)

Module SampleDemo.
Import AuditSample SampleSpec.
#[local] Existing Instance binary_uuid.
#[local] Existing Instance canonical_jsonb.

Definition ctx : Context := {| ctx_tenant := Some "a1" |}.
Definition env (fresh : N) (now : Time) : Env := mkEnv ctx healthy now (λ n, (fresh + N.of_nat n)%N).
Definition record (id : UUID) (at_ : Time) : EvidenceRow := mkEvidence id 1 (Some 50%N) None at_.

Definition ledger : list EvidenceRow := [record 14 40; record 11 10; record 13 30; record 12 20].
Definition scope0 : ScopeStore.DB := ScopeStore.mkDB [] [] [ScopeStore.mkControl 50 1 ""].
Definition w0 : World := mkWorld (mkDB scope0 ledger [] [] [] [] []) [].

Definition q1 : CreatePopulationInput := mkPopulationInput 50 "" 5 100 "auditor".
Definition w1 : World := (CreatePopulation (env 200 60) q1 w0).2.
Definition pop : PopulationRow :=
  hd (mkPopulation 0 0 0 "" 0 0 None 0 "" 0) (populations (db w1)).

(** The period of the population is frozen at 45. *)
Definition frozen_pop : PopulationRow :=
  mkPopulation (p_ID pop) (p_TenantID pop) (p_ControlID pop) (p_ScopePredicate pop) (p_TimeWindowStart pop) (p_TimeWindowEnd pop)
    (Some 45) (p_RowCount pop) (p_CreatedBy pop) (p_CreatedAt pop).
Definition elsewhere (ev : list EvidenceRow) (ps : list PopulationRow) (w : World) : World :=
  mkWorld (mkDB (scopes (db w)) ev ps (samples (db w)) (sample_evidence (db w)) (sample_annotations (db w)) (sample_audit_log (db w))) (sink w).
Definition w2 : World := elsewhere ledger [frozen_pop] w1.

Definition ask : DrawSampleInput := mkDrawInput 200 2 "soc2-2026q2" "auditor".
Definition drawn : result Error Sample * World := DrawSample (env 300 70) ask w2.
Definition first : Sample := match drawn.1 with Ok s => s | Err _ => mkDrawn (mkSample 0 0 0 0 "" "" 0) [] end.

(** Evidence observed after the horizon arrives, and the table is rewritten. *)
Definition late : list EvidenceRow := [record 9 50; record 15 90].
Definition w3 : World := elsewhere ([record 9 50] ++ ledger ++ [record 15 90]) [frozen_pop] drawn.2.

Lemma drawn_ok : DrawSample (env 300 70) ask w2 = (Ok first, drawn.2).
Proof. vm_compute. reflexivity. Qed.

Lemma samples_reached : rtc sample_step w0 w2.
Proof.
  eapply rtc_l; [apply (step_population (env 200 60) q1 w0)|]. apply rtc_once, (step_elsewhere scope0 ledger [frozen_pop] w1).
Qed.

Lemma Sample_spec_witness :
  Sampler.Sample [11; 12; 13; 14]%N 2 "soc2-2026q2" = Ok (EvidenceRecordIDs first) ∧ NoDup (EvidenceRecordIDs first).
Proof.
  pose proof (SamplerSpec.Sample_spec [11; 12; 13; 14]%N 2 "soc2-2026q2") as [H _].
  assert (E : Sampler.Sample [11; 12; 13; 14]%N 2 "soc2-2026q2" = Ok (EvidenceRecordIDs first)) by (vm_compute; reflexivity).
  rewrite E in H. split; [exact E|]. apply H. refine (bool_decide_unpack _ _); vm_compute; exact I.
Defined.

Lemma samples_recorded_witness : s_ID (sample first) = 300%N ∧ recorded (sample first) (db drawn.2).
Proof.
  split; [vm_compute; reflexivity|]. apply (samples_recorded scope0 ledger [] drawn.2 (sample first)).
  - eapply rtc_r; [exact samples_reached|]. apply (step_draw (env 300 70) ask w2).
  - vm_compute. left.
Defined.

Lemma drawn_sample_reads_back_witness :
  length (EvidenceRecordIDs first) = 2%nat ∧ (GetSample (mkEnv ctx healthy 80 N.of_nat) 300 drawn.2).1 = Ok first.
Proof.
  split; [vm_compute; reflexivity|].
  destruct (drawn_sample_reads_back scope0 ledger [] w2 (env 300 70) ask first drawn.2 ctx 80 N.of_nat samples_reached drawn_ok eq_refl
    ltac:(vm_compute; reflexivity)) as [H _].
  assert (E : s_ID (sample first) = 300%N) by (vm_compute; reflexivity). rewrite E in H. exact H.
Defined.

Lemma frozen_redraw_witness :
  ∃ s' w', DrawSample (env 400 95) (mkDrawInput 200 2 "soc2-2026q2" "second auditor") w3 = (Ok s', w') ∧
    EvidenceRecordIDs s' = EvidenceRecordIDs first.
Proof.
  apply (frozen_redraw (env 300 70) ask w2 first drawn.2 (env 400 95) "second auditor" w3 1 frozen_pop 45 late drawn_ok);
    try (vm_compute; reflexivity).
  - apply (Permutation_middle ledger [record 15 90] (record 9 50)).
  - repeat constructor.
  - refine (bool_decide_unpack _ _); vm_compute; exact I.
  - done.
  - refine (bool_decide_unpack _ _); vm_compute; exact I.
  - refine (bool_decide_unpack _ _); vm_compute; exact I.
  - refine (bool_decide_unpack _ _); vm_compute; exact I.
Defined.

(** A window in which nothing was observed. *)
Definition q2 : CreatePopulationInput := mkPopulationInput 50 "" 200 300 "auditor".
Definition w4 : World := (CreatePopulation (env 210 60) q2 w2).2.

Lemma rejection_not_recorded_witness :
  (DrawSample (env 500 99) (mkDrawInput 210 2 "s" "auditor") w4).1 = Err ErrEmptyPopulation ∧
  db (DrawSample (env 500 99) (mkDrawInput 210 2 "s" "auditor") w4).2 = db w4.
Proof.
  rewrite (rejection_not_recorded (env 500 99) (mkDrawInput 210 2 "s" "auditor") w4 1
    (List.last (populations (db w4)) pop)); try (vm_compute; reflexivity).
  - split; reflexivity.
  - done.
  - done.
  - refine (bool_decide_unpack _ _); vm_compute; exact I.
Defined.

(** Without a horizon the same size and seed need not give the same sample. *)
Definition live : World := elsewhere ledger [pop] w1.
Definition live_later : World := elsewhere (ledger ++ late) [pop] w1.

Lemma live_redraw_differs :
  ∃ s s' u u', DrawSample (env 300 70) ask live = (Ok s, u) ∧ DrawSample (env 300 70) ask live_later = (Ok s', u') ∧
    EvidenceRecordIDs s ≠ EvidenceRecordIDs s'.
Proof.
  eexists _, _, _, _. split_and!; [vm_compute; reflexivity|vm_compute; reflexivity|]. refine (bool_decide_unpack _ _); vm_compute; exact I.
Qed.

(** A record outside the sample is annotated like the sampled ones. *)
Lemma annotation_outside_sample :
  ¬ (13%N ∈ EvidenceRecordIDs first) ∧
  ∃ a w', AnnotateSample (env 600 99) (mkAnnotateInput 300 13 "passed" "auditor" "") drawn.2 = (Ok a, w') ∧ a_EvidenceRecordID a = 13%N.
Proof.
  split; [refine (bool_decide_unpack _ _); vm_compute; exact I|].
  eexists _, _. split; [vm_compute; reflexivity|reflexivity].
Qed.
End SampleDemo.
