(* ===== verification/Redact.v ===== *)
(** * Redaction of evidence payloads

    Models internal/evidence/redact/redact.go: the rule grammar, the walk that
    replaces what a rule addresses, and the rules a schema declares.  A payload is
    the fields of a google.protobuf.Struct; the deep copy made before the walk
    belongs to that library and is a parameter. *)

From Stdlib Require Import Ascii SpecFloat.
From S2P Require Import Prelude Json Float64 GoJson.

(** [strings.Split] on one character. *)
Fixpoint split_on (c : ascii) (s : string) : list string :=
  match s with
  | "" => [""]
  | String a s =>
      match split_on c s with
      | w :: ws => if bool_decide (a = c) then "" :: w :: ws else String a w :: ws
      | [] => []
      end
  end.

(** [strings.SplitN(s, c, 2)]: the text before and after the first [c]. *)
Fixpoint cut_on (c : ascii) (s : string) : option (string * string) :=
  match s with
  | "" => None
  | String a s =>
      if bool_decide (a = c) then Some ("", s)
      else match cut_on c s with Some (k, v) => Some (String a k, v) | None => None end
  end.

(** Numbers a Struct can hold and text that is UTF-8. *)
Fixpoint plain_value (a : any) : bool :=
  match a with
  | ANum (S754_infinity _) | ANum S754_nan => false
  | AStr s => utf8_valid s
  | AArr items => forallb plain_value items
  | AObj m => forallb (λ kv, utf8_valid kv.1 && plain_value kv.2) m
  | _ => true
  end.

(** [structpb.NewStruct(s.AsMap())] *)
Class StructPB := {
  cloneStruct : list (string * any) → option (list (string * any));
  cloneStruct_plain p : plain_value (AObj p) = true → cloneStruct p = Some p;
}.

(** An instance that copies every payload. *)
Definition faithful_clone : StructPB.
Proof. by refine {| cloneStruct p := Some p |}. Defined.

Module Redact.

Definition Marker : string := "<<REDACTED>>".

Inductive Error := ErrMalformedRule | ErrClone.

Inductive segment := Name (name : string) | Wildcard.

(** Pulls the trailing [[*]] off a segment, read backwards. *)
Fixpoint strip_wildcards (l : list ascii) : list ascii * nat :=
  match l with
  | c1 :: c2 :: c3 :: l' =>
      if bool_decide (c1 = "]"%char) && bool_decide (c2 = "*"%char) && bool_decide (c3 = "["%char)
      then let '(r, n) := strip_wildcards l' in (r, S n)
      else (l, O)
  | _ => (l, O)
  end.

Definition parse_part (part : string) : option (list segment) :=
  if bool_decide (part = "") then None
  else
    let '(r, wildcards) := strip_wildcards (rev (String.list_ascii_of_string part)) in
    let name := String.string_of_list_ascii (rev r) in
    if existsb (λ c, bool_decide (c = "["%char) || bool_decide (c = "]"%char)) r then None
    else Some ((if bool_decide (name = "") then [] else [Name name]) ++ replicate wildcards Wildcard).

Definition parseRule (raw : string) : option (list segment) :=
  match raw with
  | String "$" (String "." rest) =>
      if bool_decide (rest = "") then None
      else segs ← mapM parse_part (split_on "." rest); Some (concat segs)
  | _ => None
  end.

(** Replaces what [segs] addresses; a path that is missing changes nothing. *)
Fixpoint walk (segs : list segment) (node : any) : any :=
  match segs with
  | [] => node
  | seg :: rest =>
      let into child := match rest with [] => AStr Marker | _ => walk rest child end in
      match seg, node with
      | Wildcard, AArr items => AArr (map into items)
      | Name n, AObj m => AObj (map (λ kv, if bool_decide (kv.1 = n) then (kv.1, into kv.2) else kv) m)
      | _, _ => node
      end
  end.

Definition applyParsed (m : list (string * any)) (rule : list segment) : list (string * any) :=
  match walk rule (AObj m) with AObj m' => m' | _ => m end.

Fixpoint apply_rules (m : list (string * any)) (rules : list string) : result Error (list (string * any)) :=
  match rules with
  | [] => Ok m
  | raw :: rules =>
      match parseRule raw with
      | None => Err ErrMalformedRule
      | Some rule => apply_rules (applyParsed m rule) rules
      end
  end.

(** [None] is a nil payload. *)
Definition Apply {SP : StructPB} (payload : option (list (string * any))) (rules : list string)
  : result Error (option (list (string * any))) :=
  match payload, rules with
  | None, _ => Ok None
  | Some p, [] => Ok (Some p)
  | Some p, _ =>
      match cloneStruct p with
      | None => Err ErrClone
      | Some clone => match apply_rules clone rules with Ok m => Ok (Some m) | Err e => Err e end
      end
  end.

(** An array of strings; null is no array, and a null element the empty string. *)
Definition rule_texts (j : json) : option (list string) :=
  match j with
  | JNull => Some []
  | JArr items => mapM (λ i, match i with JStr s => Some s | JNull => Some "" | _ => None end) items
  | _ => None
  end.

(** The last member wins. *)
Definition ExtractRulesFromSchema (schemaJSON : string) : result Error (list string) :=
  match decode_all schemaJSON with
  | Some (JObj ms) =>
      match get (rev ms) "x-redaction-rules" with
      | None => Ok []
      | Some raw =>
          match rule_texts raw with
          | None => Err ErrMalformedRule
          | Some rules => if forallb (λ r, bool_decide (is_Some (parseRule r))) rules then Ok rules else Err ErrMalformedRule
          end
      end
  | _ => Ok []
  end.

Example parse_nested : parseRule "$.findings[*].token" = Some [Name "findings"; Wildcard; Name "token"].
Proof. reflexivity. Qed.
Example parse_matrix : parseRule "$.matrix[*][*].cell" = Some [Name "matrix"; Wildcard; Wildcard; Name "cell"].
Proof. reflexivity. Qed.
Example parse_refuses : Forall (λ r, parseRule r = None) [""; "field"; "$."; "$.a..b"; "$.a[0].b"; "$.a[*"].
Proof. repeat constructor. Qed.
End Redact.
