(* ===== verification/RedactSpec.v ===== *)
(** * Redaction: what the ledger never sees

    A redacted payload holds the marker wherever a rule addresses it, in whatever
    order the rules ran, and is unchanged elsewhere; and the rules a schema declares
    are rules that apply. *)

From Stdlib Require Import Ascii SpecFloat.
From S2P Require Import Prelude Json Float64 GoJson Redact.
Import Redact.

(** ** Positions of a value *)

Inductive position := Key (k : string) | Index (i : nat).

Fixpoint at_path (path : list position) (v : any) : option any :=
  match path, v with
  | [], _ => Some v
  | Key k :: path, AObj m => c ← get m k; at_path path c
  | Index i :: path, AArr items => c ← items !! i; at_path path c
  | _, _ => None
  end.

(** A rule covers the positions it addresses and those below them. *)
Fixpoint covered (segs : list segment) (path : list position) : bool :=
  match segs, path with
  | [], _ => true
  | Name n :: segs, Key k :: path => bool_decide (n = k) && covered segs path
  | Wildcard :: segs, Index _ :: path => covered segs path
  | _, _ => false
  end.

Definition scalar (v : any) : bool := match v with AArr _ | AObj _ => false | _ => true end.

Lemma get_map (f : any → any) n m k :
  get (map (λ kv, if bool_decide (kv.1 = n) then (kv.1, f kv.2) else kv) m) k =
  (if bool_decide (n = k) then f <$> get m k else get m k).
Proof.
  induction m as [|[a v] m IH]; simpl; [by case_bool_decide|].
  destruct (bool_decide (a = n)) eqn:E; simpl; rewrite IH; [apply bool_decide_eq_true in E as ->|apply bool_decide_eq_false in E].
  - by repeat case_bool_decide.
  - repeat case_bool_decide; congruence || done.
Qed.

(** The step of the walk into a child. *)
Definition into (rest : list segment) (child : any) : any :=
  match rest with [] => AStr Marker | _ => walk rest child end.

Lemma walk_name n rest m :
  walk (Name n :: rest) (AObj m) = AObj (map (λ kv, if bool_decide (kv.1 = n) then (kv.1, into rest kv.2) else kv) m).
Proof. done. Qed.
Lemma walk_wildcard rest items : walk (Wildcard :: rest) (AArr items) = AArr (into rest <$> items).
Proof. done. Qed.

Lemma walk_scalar segs v : scalar v = true → walk segs v = v.
Proof. by destruct segs as [|[]], v. Qed.

Lemma into_scalar segs v x : scalar v = true → into segs v = x → x = AStr Marker ∨ x = v.
Proof. intros Hv <-. destruct segs; [by left|]. right. by apply walk_scalar. Qed.

(** What a walk leaves at a position is the marker, or comes from what was there. *)
Lemma at_walk segs path v x :
  at_path path (walk segs v) = Some x →
  x = AStr Marker ∨ ∃ y segs', at_path path v = Some y ∧ x = walk segs' y.
Proof.
  revert segs v. induction path as [|p path IH]; intros segs v.
  { intros [= <-]. right. by exists v, segs. }
  assert (Hin : ∀ rest c, at_path path (into rest c) = Some x →
    x = AStr Marker ∨ ∃ y segs', at_path path c = Some y ∧ x = walk segs' y).
  { intros rest c. destruct rest as [|s rest]; [|apply IH]. intros H. left. destruct path as [|[]]; [by injection H as <-|done..]. }
  destruct segs as [|seg segs]; [intros H; right; by exists x, []|].
  assert (Hsame : ∀ u, u = v → at_path (p :: path) u = Some x → x = AStr Marker ∨ ∃ y segs', at_path (p :: path) v = Some y ∧ x = walk segs' y).
  { intros u -> H. right. by exists x, []. }
  destruct seg as [n|], v as [| | | |items|m]; try (by apply Hsame).
  - rewrite walk_name. destruct p as [k|]; [|done]. cbn [at_path]. rewrite get_map.
    case_bool_decide; [|intros H'; right; by exists x, []].
    destruct (get m k) as [c|]; [|done]. cbn. apply Hin.
  - rewrite walk_wildcard. destruct p as [|i]; [done|]. cbn [at_path]. rewrite list_lookup_fmap.
    destruct (items !! i) as [c|]; [|done]. cbn. apply Hin.
Qed.

(** After the walk of a rule there is only the marker at a position it covers. *)
Lemma walk_marks segs path v x :
  segs ≠ [] → covered segs path = true → at_path path (walk segs v) = Some x → x = AStr Marker.
Proof.
  revert path v. induction segs as [|seg segs IH]; intros path v Hne Ha; [done|].
  assert (Hin : ∀ path c, covered segs path = true → at_path path (into segs c) = Some x → x = AStr Marker).
  { intros path' c. destruct segs as [|s segs'].
    - destruct path' as [|[]]; [by intros _ [= <-]|done..].
    - intros H1 H2. by eapply IH. }
  destruct seg as [n|], path as [|[k|i] path]; try done; cbn [covered] in Ha.
  - apply andb_prop in Ha as [->%bool_decide_eq_true Ha]. destruct v as [| | | | |m]; try done.
    rewrite walk_name. cbn [at_path]. rewrite get_map, bool_decide_eq_true_2 by done. destruct (get m k); [|done]. by apply Hin.
  - destruct v as [| | | |items|]; try done. rewrite walk_wildcard. cbn [at_path]. rewrite list_lookup_fmap.
    destruct (items !! i); [|done]. by apply Hin.
Qed.

(** ... and leaves what it does not cover. *)
Lemma walk_keeps segs path v x :
  segs ≠ [] → covered segs path = false → scalar x = true → (at_path path (walk segs v) = Some x ↔ at_path path v = Some x).
Proof.
  revert path v. induction segs as [|seg segs IH]; intros path v Hne Hc Hx; [done|].
  assert (Hin : ∀ path c, covered segs path = false → at_path path (into segs c) = Some x ↔ at_path path c = Some x).
  { intros path' c. destruct segs as [|s segs']; [by destruct path'|]. intros H1. by apply IH. }
  destruct seg as [n|], path as [|[k|i] path]; cbn [covered] in Hc;
    try (by destruct v; try done; cbn; split; intros [= <-]).
  - destruct v as [| | | | |m]; try done. rewrite walk_name. cbn [at_path]. rewrite get_map.
    case_bool_decide as E; [|done]. destruct (get m k); [|done]. cbn. by apply Hin.
  - destruct v as [| | | |items|]; try done. rewrite walk_wildcard. cbn [at_path]. rewrite list_lookup_fmap.
    destruct (items !! i); [|done]. cbn. by apply Hin.
Qed.

(** ** Rules *)

Lemma strip_wildcards_nil l n : strip_wildcards l = ([], n) → l ≠ [] → n ≠ O.
Proof.
  destruct l as [|c1 [|c2 [|c3 l]]]; [done..|]. cbn [strip_wildcards].
  destruct (bool_decide (c1 = "]"%char) && bool_decide (c2 = "*"%char) && bool_decide (c3 = "["%char)); [|done].
  destruct (strip_wildcards l). by intros [= _ <-].
Qed.

Lemma parse_part_nonempty part segs : parse_part part = Some segs → segs ≠ [].
Proof.
  unfold parse_part. case_bool_decide as Hp; [done|].
  destruct (strip_wildcards _) as [r n] eqn:E. destruct (existsb _ r); [done|]. intros [= <-].
  case_bool_decide as Hn; [|done]. cbn.
  assert (Hr : r = []).
  { apply (f_equal String.list_ascii_of_string) in Hn. rewrite String.list_ascii_of_string_of_list_ascii in Hn.
    by apply (f_equal (@rev ascii)) in Hn; rewrite rev_involutive in Hn. }
  subst r. apply strip_wildcards_nil in E; [by destruct n|]. intros H. apply (f_equal (@rev ascii)) in H. rewrite rev_involutive in H. by destruct part.
Qed.

Lemma split_on_nonempty c s : split_on c s ≠ [].
Proof. induction s as [|a s IH]; [done|]. cbn. destruct (split_on c s); [done|]. by case_bool_decide. Qed.

(** A rule that parses has a segment. *)
Lemma parseRule_nonempty raw segs : parseRule raw = Some segs → segs ≠ [].
Proof.
  unfold parseRule. repeat case_match; try done. destruct (mapM parse_part _) as [parts|] eqn:E; [|done]. intros [= <-].
  apply mapM_Some in E. inversion E as [|p part ? ? Hp _ Hs]; subst.
  - by edestruct split_on_nonempty.
  - apply parse_part_nonempty in Hp. by destruct part.
Qed.

(** ** Application *)

Lemma applyParsed_walk m segs : AObj (applyParsed m segs) = walk segs (AObj m).
Proof. unfold applyParsed. by destruct segs as [|[]]. Qed.

Lemma apply_rules_split rules : ∀ m m',
  apply_rules m rules = Ok m' →
  ∃ parsed, mapM parseRule rules = Some parsed ∧ m' = foldl applyParsed m parsed.
Proof.
  induction rules as [|raw rules IH]; intros m m'; cbn; [intros [= <-]; by exists []|].
  destruct (parseRule raw) as [segs|]; [|done]. intros (parsed & -> & ->)%IH. by exists (segs :: parsed).
Qed.

(** The marker stays where it is. *)
Lemma foldl_marker parsed path : ∀ m,
  (∀ x, at_path path (AObj m) = Some x → x = AStr Marker) →
  ∀ x, at_path path (AObj (foldl applyParsed m parsed)) = Some x → x = AStr Marker.
Proof.
  induction parsed as [|segs parsed IH]; intros m Hm; [done|]. cbn. apply IH. intros x.
  rewrite applyParsed_walk. intros [?|(y & segs' & Hy & ->)]%at_walk; [done|]. rewrite (Hm y Hy). by apply walk_scalar.
Qed.

Lemma foldl_marks parsed segs path : ∀ m x,
  segs ∈ parsed → segs ≠ [] → covered segs path = true →
  at_path path (AObj (foldl applyParsed m parsed)) = Some x → x = AStr Marker.
Proof.
  induction parsed as [|segs' parsed IH]; intros m x Hin Hne Hc; [by apply not_elem_of_nil in Hin|].
  apply elem_of_cons in Hin as [<-|Hin]; cbn; [|by apply IH].
  apply foldl_marker. intros y. rewrite applyParsed_walk. by apply walk_marks.
Qed.

Lemma foldl_keeps parsed path x : ∀ m,
  Forall (λ segs, segs ≠ [] ∧ covered segs path = false) parsed → scalar x = true →
  (at_path path (AObj (foldl applyParsed m parsed)) = Some x ↔ at_path path (AObj m) = Some x).
Proof.
  induction parsed as [|segs parsed IH]; intros m HF Hx; [done|]. apply Forall_cons in HF as [[Hne Hc] HF]. cbn.
  rewrite IH by done. rewrite applyParsed_walk. by apply walk_keeps.
Qed.

Lemma Apply_split {SP : StructPB} p rules p' :
  Apply (Some p) rules = Ok (Some p') →
  ∃ parsed m, mapM parseRule rules = Some parsed ∧ p' = foldl applyParsed m parsed ∧
              (rules = [] ∨ cloneStruct p = Some m) ∧ (rules = [] → m = p).
Proof.
  unfold Apply. destruct rules as [|r rules]; [intros [= <-]; exists [], p; by auto|].
  destruct (cloneStruct p) as [m|]; [|done]. destruct (apply_rules m (r :: rules)) as [m'|] eqn:E; [|done]. intros [= <-].
  apply apply_rules_split in E as (parsed & ? & ->). exists parsed, m. split_and!; by auto.
Qed.

(** Redaction removes what the rules address and nothing else: every rule that
    was applied parses; whatever the redacted payload holds at a position a rule
    addresses, or below one, is the marker, whatever the order of the rules; and of
    a payload of finite numbers and UTF-8 text every scalar at a position no rule
    covers is the one that was there. *)
Theorem Apply_redacts {SP : StructPB} p rules p' :
  Apply (Some p) rules = Ok (Some p') →
  (∀ rule, rule ∈ rules → is_Some (parseRule rule)) ∧
  (∀ rule segs path x, rule ∈ rules → parseRule rule = Some segs → covered segs path = true →
     at_path path (AObj p') = Some x → x = AStr Marker) ∧
  (plain_value (AObj p) = true → ∀ path x, scalar x = true →
     (∀ rule segs, rule ∈ rules → parseRule rule = Some segs → covered segs path = false) →
     (at_path path (AObj p') = Some x ↔ at_path path (AObj p) = Some x)).
Proof.
  intros (parsed & m & Hp & -> & Hm & Hnil)%Apply_split. apply mapM_Some in Hp.
  split_and!.
  - intros rule [i Hi]%list_elem_of_lookup. destruct (Forall2_lookup_l _ _ _ _ _ Hp Hi) as (segs & _ & Hs). by exists segs.
  - intros rule segs path x [i Hi]%list_elem_of_lookup Hs Hc.
    destruct (Forall2_lookup_l _ _ _ _ _ Hp Hi) as (segs' & Hi' & Hs'). simplify_eq.
    apply foldl_marks with segs; [by eapply list_elem_of_lookup_2|by eapply parseRule_nonempty|done].
  - intros Hplain path x Hx Hunc. rewrite foldl_keeps; [|apply Forall_lookup; intros i segs Hi|done].
    + destruct Hm as [Hm|Hm]; [by rewrite Hnil|]. rewrite cloneStruct_plain in Hm by done. by simplify_eq.
    + destruct (Forall2_lookup_r _ _ _ _ _ Hp Hi) as (rule & Hi' & Hs).
      split; [by eapply parseRule_nonempty|]. apply (Hunc rule); [by eapply list_elem_of_lookup_2|done].
Qed.

(** The rules a schema declares are rules that apply. *)
Lemma ExtractRules_parse schema rules :
  ExtractRulesFromSchema schema = Ok rules → Forall (λ r, is_Some (parseRule r)) rules.
Proof.
  unfold ExtractRulesFromSchema. destruct (decode_all schema) as [[]|]; try (by intros [= <-]; constructor).
  destruct (get _ _) as [raw|]; [|by intros [= <-]; constructor]. destruct (rule_texts raw) as [rs|]; [|done].
  destruct (forallb _ rs) eqn:E; [|done]. intros [= <-]. apply Forall_forall. intros r Hr.
  rewrite forallb_forall in E. apply list_elem_of_In, E in Hr. by apply bool_decide_eq_true in Hr.
Qed.

Module RedactDemo.
Definition payload : list (string * any) :=
  [("host", AStr "db1"); ("findings", AArr [AObj [("id", ANum (of_Z 1)); ("token", AStr "s3cret")]; AObj [("token", AObj [])]])].
Definition rules : list string := ["$.findings[*].token"; "$.owner"].
Definition redacted : list (string * any) :=
  [("host", AStr "db1"); ("findings", AArr [AObj [("id", ANum (of_Z 1)); ("token", AStr Marker)]; AObj [("token", AStr Marker)]])].

Example redacts : @Apply faithful_clone (Some payload) rules = Ok (Some redacted).
Proof. reflexivity. Qed.
End RedactDemo.
