(* ===== verification/EvidenceRecord.v ===== *)
(** * Evidence records and their content hash

    Models proto/evidence/v1 as the ingestion stage sees it (with Result and
    missingField's view of it) and internal/canonjson/canonjson.go: the sorted
    scope, the hash over the deterministic encoding, and the canonical JSON of a
    scope with its reader.  Protobuf's encoders and Go's unstable sort are
    parameters. *)

From Stdlib Require Import Ascii SpecFloat.
From S2P Require Import Prelude GoTime Tenancy Json Sha256 Float64 Scope GoJson Redact.

(** ** Messages *)

Module Evidence.

Record ScopeDimension := mkDimension { Key : string; Values : list string }.

(** The wire carries any int32; [RESULT_OTHER] is a number the enum does not name. *)
Inductive Result :=
| RESULT_UNSPECIFIED
| RESULT_PASS
| RESULT_FAIL
| RESULT_NA
| RESULT_INCONCLUSIVE
| RESULT_OTHER (n : Z).

(** [google.protobuf.Timestamp]; nothing on the wire bounds the nanoseconds. *)
Record Timestamp := mkTimestamp { Seconds : Z; Nanos : Z }.

Record SourceAttribution := mkSource { ActorType : string; ActorId : string; SessionId : string }.

(** [Unknown] holds the fields the schema does not name, which are encoded again
    when the message is.  A payload is the sorted list of a Struct's fields. *)
Record EvidenceRecord := mkRecord {
  IdempotencyKey : string;
  EvidenceKind : string;
  SchemaVersion : string;
  ControlId : string;
  Scope : list ScopeDimension;
  ObservedAt : option Timestamp;
  RecordResult : Result;
  Payload : option (list (string * any));
  Source : option SourceAttribution;
  PayloadUri : option string;
  Unknown : string;
}.

Definition with_payload (r : EvidenceRecord) (p : option (list (string * any))) : EvidenceRecord :=
  mkRecord (IdempotencyKey r) (EvidenceKind r) (SchemaVersion r) (ControlId r) (Scope r) (ObservedAt r) (RecordResult r) p
    (Source r) (PayloadUri r) (Unknown r).
Definition with_scope (r : EvidenceRecord) (s : list ScopeDimension) : EvidenceRecord :=
  mkRecord (IdempotencyKey r) (EvidenceKind r) (SchemaVersion r) (ControlId r) s (ObservedAt r) (RecordResult r) (Payload r)
    (Source r) (PayloadUri r) (Unknown r).

#[global] Instance Result_eq_dec : EqDecision Result.
Proof. solve_decision. Defined.
#[global] Instance ScopeDimension_eq_dec : EqDecision ScopeDimension.
Proof. solve_decision. Defined.

(** Unix time 0. *)
Definition unix_epoch : Time := 719162 * ns_per_day.
(** [ts.AsTime()] and [timestamppb.New(t)] *)
Definition AsTime (ts : Timestamp) : Time := unix_epoch + Seconds ts * ns_per_second + Nanos ts.
Definition UnixNano (t : Time) : Z := int64 (t - unix_epoch).
Definition of_UnixNano (n : Z) : Time := unix_epoch + n.
Definition NewTimestamp (t : Time) : Timestamp := mkTimestamp ((t - unix_epoch) / ns_per_second) ((t - unix_epoch) mod ns_per_second).
End Evidence.
Import Evidence.

(** ** Encoders outside the repository *)

(** [proto.MarshalOptions{Deterministic: true}.Marshal]: a function of the
    message, which fails with a text. *)
Class ProtoMarshal := proto_Marshal : EvidenceRecord → result string string.

(** [protojson.Marshal] and [protojson.Unmarshal] of a Struct.  What a jsonb column
    gives back of a marshalled Struct reads as the same Struct, but for the sign of
    a zero, which Postgres drops. *)
Class ProtoJson {JB : JsonB} := {
  protojson_Marshal : list (string * any) → result string string;
  protojson_Unmarshal : string → option (list (string * any));
  protojson_stored p s t :
    protojson_Marshal p = Ok s → jsonb_in s = Some t →
    t ≠ "" ∧ ∃ q, protojson_Unmarshal t = Some q ∧ AObj q = unsigned_zero (AObj p);
}.

(** [sort.Slice] by key: sorted, and unstable. *)
Definition dimension_le (a b : ScopeDimension) : Prop := String.le (Key a) (Key b).
#[global] Instance dimension_le_dec : RelDecision dimension_le.
Proof. intros a b. unfold dimension_le. apply _. Defined.

Class GoSort := {
  sort_Slice : list ScopeDimension → list ScopeDimension;
  sort_Slice_perm l : sort_Slice l ≡ₚ l;
  sort_Slice_sorted l : StronglySorted dimension_le (sort_Slice l);
}.

(** One possible choice. *)
Definition stable_sort : GoSort.
Proof.
  refine {| sort_Slice := merge_sort dimension_le |}.
  - apply merge_sort_Permutation.
  - apply StronglySorted_merge_sort.
    + intros a b c. unfold dimension_le. apply (transitivity (R := String.le)).
    + intros a b. unfold dimension_le. apply (total String.le).
Defined.

(** ** canonjson *)

Module canonjson.
Section Canon.
Context {GS : GoSort}.

(** [sort.Strings] on a copy of the values, then the dimensions by key. *)
Definition sortedScope (scope : list ScopeDimension) : list ScopeDimension :=
  match scope with
  | [] => []
  | _ => sort_Slice ((λ d, mkDimension (Key d) (merge_sort String.le (Values d))) <$> scope)
  end.

Definition HashRecord {PM : ProtoMarshal} (r : EvidenceRecord) : result string string :=
  match proto_Marshal (with_scope r (sortedScope (Scope r))) with
  | Err e => Err ("canonjson: marshal: " +:+ e)
  | Ok bytes => Ok (sha256_hex bytes)
  end.

(** No values marshal as null: [append([]string(nil), ...)] of nothing is nil. *)
Definition dimension_json (d : ScopeDimension) : json :=
  JObj [("key", JStr (Key d)); ("values", match Values d with [] => JNull | vs => JArr (JStr <$> vs) end)].

Definition MarshalCanonicalScope (scope : list ScopeDimension) : string :=
  match scope with
  | [] => "null"
  | _ => render go_quote (JArr (dimension_json <$> sortedScope scope))
  end.
End Canon.

(** One element: a member selects its field in any case, the last one winning and
    each decoded into what is there already. *)
Record slots := mkSlots { sl_Key : string; sl_Values : option (list string); sl_spare : list string }.
Definition slots_zero : slots := mkSlots "" None [].

Fixpoint decode_dim_fields (ms : list (string * json)) (d : slots) : slots * bool :=
  match ms with
  | [] => (d, false)
  | (k, v) :: ms =>
      let '(d', bad) :=
        if bool_decide (Scope.foldName k = "KEY") then
          let '(s, bad) := Scope.decode_string v (sl_Key d) in (mkSlots s (sl_Values d) (sl_spare d), bad)
        else if bool_decide (Scope.foldName k = "VALUES") then
          let '(vs, spare, bad) := Scope.decode_values v (sl_Values d) (sl_spare d) in (mkSlots (sl_Key d) vs spare, bad)
        else (d, false) in
      let '(d'', bad') := decode_dim_fields ms d' in (d'', bad || bad')
  end.

Definition decode_dim (j : json) (d : slots) : slots * bool :=
  match j with
  | JNull => (d, false)
  | JObj ms => decode_dim_fields ms d
  | _ => (d, true)
  end.

(** [None] is an error of the decoder. *)
Definition UnmarshalCanonicalScope (raw : string) : option (list ScopeDimension) :=
  if bool_decide (raw = "") || bool_decide (raw = "null") then Some []
  else
    match decode_all raw with
    | Some JNull => Some []
    | Some (JArr items) =>
        let '(ds, _, bad) := Scope.decode_elems decode_dim slots_zero items [] in
        if bad then None else Some ((λ d, mkDimension (sl_Key d) (default [] (sl_Values d))) <$> ds)
    | _ => None
    end.
End canonjson.
