(* ===== verification/Ingest.v ===== *)
(** * Evidence ingestion

    Models internal/evidence/ingest/ingest.go: the checks a record passes, the
    transaction that appends it to the ledger, the audit entry and the message to
    the sink that every decision leaves, and the lookup of a receipt; with the
    statements of evidence_ledger.sql and the constraints of migrations
    20260511000000, 20260511000004, 20260608040000 and 20260608070000. *)

From Stdlib Require Import Ascii.
From S2P Require Import Prelude GoTime Tenancy Json Sha256 Float64 TimeText Scope GoJson EvalState Postgres Redact EvidenceRecord.
Import Evidence.

Module Ingest.

(** ** Decisions *)

Inductive Decision :=
| DecisionUnknown
| DecisionAccepted
| DecisionDeduplicated
| DecisionRejectedValidation
| DecisionRejectedUnknownKind
| DecisionRejectedIdempotencyMismatch
| DecisionRejectedScopeViolation
| DecisionRejectedObservedAtSkew
| DecisionRejectedOversized
| DecisionRejectedUnauthenticated
| DecisionRejectedRateLimit
| DecisionRejectedInternalError.
#[global] Instance Decision_eq_dec : EqDecision Decision.
Proof. solve_decision. Defined.

(** [Decision.String] *)
Definition decision_text (d : Decision) : string :=
  match d with
  | DecisionAccepted => "accepted"
  | DecisionDeduplicated => "deduplicated"
  | DecisionRejectedValidation => "rejected_validation"
  | DecisionRejectedUnknownKind => "rejected_unknown_kind"
  | DecisionRejectedIdempotencyMismatch => "rejected_idempotency_mismatch"
  | DecisionRejectedScopeViolation => "rejected_scope_violation"
  | DecisionRejectedObservedAtSkew => "rejected_observed_at_skew"
  | DecisionRejectedOversized => "rejected_oversized"
  | DecisionRejectedUnauthenticated => "rejected_unauthenticated"
  | DecisionRejectedRateLimit => "rejected_rate_limit"
  | _ => "rejected_internal_error"
  end.

(** The values evidence_audit_log_decision_chk admits. *)
Definition audit_decisions : list string :=
  ["accepted"; "deduplicated"; "rejected_validation"; "rejected_unknown_kind"; "rejected_idempotency_mismatch";
   "rejected_scope_violation"; "rejected_observed_at_skew"; "rejected_oversized"; "rejected_rate_limit";
   "rejected_unauthenticated"; "rejected_internal_error"].

Definition MaxObservedAtSkew : Duration := 24 * time_Hour.
Definition MaxPayloadBytes : Z := 2 ^ 20.

Record Receipt := mkReceipt { RecordID : string; Hash : string; IngestedAt : Time; CredentialID : string; Deduplicated : bool }.
Definition no_receipt : Receipt := mkReceipt "" "" time_zero "" false.

(** The fields of [credstore.Credential] this package reads. *)
Record Credential := mkCredential { ID : string; TenantID : string; ScopePredicate : string; Kinds : list string }.

(** ** Tables *)

Record EvidenceRow := mkRow {
  er_ID : UUID;
  er_TenantID : UUID;
  er_ControlID : option UUID;
  er_ControlRef : string;
  er_ObservedAt : Time;
  er_IngestedAt : Time;
  er_Provenance : string;
  er_Result : string;
  er_Payload : string;
  er_PayloadUri : option string;
  er_Hash : string;
  er_FreshnessClass : string;
  er_IdempotencyKey : option string;
  er_EvidenceKind : option string;
  er_SchemaVersion : option string;
  er_CredentialID : option string;
  er_IngestionPath : string;
  er_SourceAttribution : string;
  er_ScopeCanonical : option string;
  er_ObservedAtNanos : option Z;
}.

Record AuditRow := mkAudit {
  al_ID : UUID;
  al_TenantID : UUID;
  al_CredentialID : string;
  al_Decision : string;
  al_ReasonCode : string;
  al_IdempotencyKey : option string;
  al_EvidenceKind : option string;
  al_RecordID : option UUID;
  al_ReceivedAt : Time;
}.

(** The fields of a [unifiedlog.Entry] that vary. *)
Record SinkEntry := mkEntry {
  se_ActorID : string;
  se_TenantID : UUID;
  se_TargetID : string;
  se_Action : string;
  se_RowID : UUID;
  se_PayloadJSON : string;
}.

(** [controls] holds the (tenant_id, id) pairs a row may refer to. *)
Record DB := mkDB {
  controls : list (UUID * UUID);
  evidence_records : list EvidenceRow;
  evidence_audit_log : list AuditRow;
}.
Record World := mkWorld { db : DB; sink : list SinkEntry }.

Definition with_records (d : DB) (t : list EvidenceRow) : DB := mkDB (controls d) t (evidence_audit_log d).
Definition with_audit (d : DB) (t : list AuditRow) : DB := mkDB (controls d) (evidence_records d) t.

(** ** Statements *)

(** The parameters of the INSERT are a row with the texts given for its jsonb
    columns; [tenantID] is NULL when it did not parse. *)
Definition GetEvidenceRecordByIdempotency (tenantID : option UUID) (key : string) (d : DB) : result SqlErr (EvidenceRow * DB) :=
  if negb (pg_text key) then Err OtherViolation
  else match select_where (λ r, bool_decide (Some (er_TenantID r) = tenantID) && bool_decide (er_IdempotencyKey r = Some key))
               (evidence_records d) with
       | r :: _ => Ok (r, d)
       | [] => Err NoRows
       end.

Definition texts_ok (p : EvidenceRow) : bool :=
  pg_text (er_ControlRef p) && pg_text_opt (er_PayloadUri p) && pg_text (er_Hash p) && pg_text_opt (er_IdempotencyKey p) &&
  pg_text_opt (er_EvidenceKind p) && pg_text_opt (er_SchemaVersion p) && pg_text_opt (er_CredentialID p) && pg_text (er_IngestionPath p).

Definition checks_ok (p : EvidenceRow) : bool :=
  bool_decide (er_ControlRef p ≠ "") &&
  bool_decide (er_IngestionPath p ∈ ["push"; "pull"; "subscribe"; "manual_upload"; "webhook"]).

Definition idem_key (r : EvidenceRow) : option (UUID * string) := (er_TenantID r,.) <$> er_IdempotencyKey r.

(** The primary key and evidence_records_tenant_idem_uniq. *)
Definition conflicts (p r : EvidenceRow) : bool :=
  bool_decide (er_ID r = er_ID p) ||
  match idem_key p with Some k => bool_decide (idem_key r = Some k) | None => false end.

Definition stored_row {JB : JsonB} (now : Time) (p : EvidenceRow) : option EvidenceRow :=
  prov ← jsonb_in (er_Provenance p); payload ← jsonb_in (er_Payload p); source ← jsonb_in (er_SourceAttribution p);
  scope ← match er_ScopeCanonical p with None => Some None | Some s => t ← jsonb_in s; Some (Some t) end;
  Some (mkRow (er_ID p) (er_TenantID p) (er_ControlID p) (er_ControlRef p) (to_micros (er_ObservedAt p)) now prov (er_Result p) payload
          (er_PayloadUri p) (er_Hash p) (er_FreshnessClass p) (er_IdempotencyKey p) (er_EvidenceKind p) (er_SchemaVersion p)
          (er_CredentialID p) (er_IngestionPath p) source scope (er_ObservedAtNanos p)).

(** [rivals] are rows other transactions committed since this one last looked: a
    unique index sees them.  The foreign key is checked at the end. *)
Definition InsertEvidenceRecord {JB : JsonB} (now : Time) (rivals : list EvidenceRow) (tenantID : option UUID)
    (params : UUID → EvidenceRow) (d : DB) : result SqlErr (EvidenceRow * DB) :=
  match tenantID with
  | None => Err OtherViolation
  | Some t =>
      match stored_row now (params t) with
      | None => Err OtherViolation
      | Some r =>
          if negb (texts_ok r && checks_ok r) then Err OtherViolation
          else if existsb (conflicts r) (evidence_records d ++ rivals) then Err UniqueViolation
          else if match er_ControlID r with Some c => bool_decide ((t, c) ∈ controls d) | None => true end
          then Ok (r, with_records d (evidence_records d ++ [r]))
          else Err OtherViolation
      end
  end.

Definition InsertEvidenceAuditEntry (r : AuditRow) (d : DB) : option DB :=
  if pg_text (al_CredentialID r) && pg_text (al_ReasonCode r) && pg_text_opt (al_IdempotencyKey r) && pg_text_opt (al_EvidenceKind r) &&
     bool_decide (al_Decision r ∈ audit_decisions) && negb (bool_decide (al_ID r ∈ (al_ID <$> evidence_audit_log d)))
  then Some (with_audit d (evidence_audit_log d ++ [r]))
  else None.

Definition newest_received (a b : AuditRow) : Prop := al_ReceivedAt b ≤ al_ReceivedAt a.
#[global] Instance newest_received_dec : RelDecision newest_received.
Proof. intros a b. unfold newest_received. apply _. Defined.

Definition GetEvidenceAuditEntryByReceipt {PL : Planner} (tenantID : option UUID) (credentialID : string) (recordID : UUID) (d : DB)
  : option AuditRow :=
  head (merge_sort newest_received
          (plan (select_where (λ r, bool_decide (Some (al_TenantID r) = tenantID) && bool_decide (al_CredentialID r = credentialID) &&
                                    bool_decide (al_RecordID r = Some recordID)) (evidence_audit_log d)))).

(** ** Texts *)

(** [d.String()] for a duration of an hour or more. *)
Definition duration_text (d : Duration) : string :=
  let u := Z.abs d in
  let s := u / ns_per_second in
  (if d <? 0 then "-" else "") +:+ Itoa (s / 3600) +:+ "h" +:+ Itoa (s / 60 mod 60) +:+ "m" +:+
  Itoa (s mod 60) +:+ frac_digits (u mod ns_per_second) +:+ "s".

(** [t.Sub(u)], which saturates. *)
Definition Sub (t u : Time) : Duration := (- 2 ^ 63) `max` ((2 ^ 63 - 1) `min` (t - u)).

Definition truncate (s : string) (n : nat) : string := if (n <? String.length s)%nat then String.substring 0 n s else s.
Definition ptrStr (s : string) : option string := if bool_decide (s = "") then None else Some s.

Example skew_text : duration_text (Sub 0 (25 * time_Hour + 61500000000)) = "-25h1m1.5s".
Proof. reflexivity. Qed.

(** ** Checks *)

(** Failures of the libraries, whose texts go into the reason. *)
Inductive Failure :=
| FRedactApply (e : Redact.Error)
| FTenant (e : TenancyErr)
| FTx (e : TxErr)
| FLookup (e : SqlErr)
| FInsert (e : SqlErr).

Inductive Error :=
| ErrMissingField (what : string)
| ErrUnknownKind
| ErrValidation
| ErrIdempotencyMismatch
| ErrScopeViolation
| ErrObservedAtSkew
| ErrOversized
| ErrNoTenantCredential
| ErrInternal (what : string)
| ErrFailure (f : Failure).

(** The interfaces [SchemaValidator], [TenantAwareRegistry] and [RedactionLookup];
    a validator need not implement the last two. *)
Record SchemaValidator := mkValidator {
  ValidatePayload : string → string → string → string → option string;
  IsRegistered : string → string → bool;
  IsRegisteredForTenant : option (string → string → string → bool);
  RedactionRulesFor : option (string → string → string → result string (list string));
}.

Record Service := mkService { valid : SchemaValidator; path : string }.
Definition New (v : SchemaValidator) : Service := mkService v "push".
Definition WithPath (s : Service) (p : string) : Service := mkService (valid s) p.

Definition missing_dimension (d : ScopeDimension) : option string :=
  if bool_decide (Key d = "") then Some "scope dimension key is required"
  else if bool_decide (Values d = []) then Some "scope dimension values is required"
  else None.

(** [None] where the source returns the empty string. *)
Definition missingField (r : EvidenceRecord) : option string :=
  if bool_decide (IdempotencyKey r = "") then Some "idempotency_key is required"
  else if bool_decide (EvidenceKind r = "") then Some "evidence_kind is required"
  else if bool_decide (SchemaVersion r = "") then Some "schema_version is required"
  else if bool_decide (ControlId r = "") then Some "control_id is required"
  else if bool_decide (Scope r = []) then Some "scope is required (at least one dimension)"
  else match ObservedAt r with
  | None => Some "observed_at is required"
  | Some _ =>
    if bool_decide (RecordResult r = RESULT_UNSPECIFIED) then Some "result is required"
    else match Payload r, Source r with
    | None, _ => Some "payload is required"
    | _, None => Some "source_attribution is required"
    | Some _, Some _ => head (omap (M := list) missing_dimension (Scope r))
    end
  end.

(** The values a record has for a dimension: those of the last with its key. *)
Definition have (scope : list ScopeDimension) (k : string) : option (list string) :=
  Values <$> last (select_where (λ d, bool_decide (Key d = k)) scope).

Definition part_satisfied (scope : list ScopeDimension) (part : string) : bool :=
  let part := TrimSpace part in
  if bool_decide (part = "") then true
  else match cut_on "=" part with
       | None => false
       | Some (k, v) =>
           match have scope (TrimSpace k) with
           | None => false
           | Some vals => bool_decide (TrimSpace v ∈ vals)
           end
       end.

Definition scopeSatisfiesPredicate (scope : list ScopeDimension) (predicate : string) : bool :=
  forallb (part_satisfied scope) (split_on "," predicate).

Definition protoResultToEnum (r : Result) : option string :=
  match r with
  | RESULT_PASS => Some EvalState.ResultPass
  | RESULT_FAIL => Some EvalState.ResultFail
  | RESULT_NA => Some EvalState.ResultNA
  | RESULT_INCONCLUSIVE => Some EvalState.ResultInconclusive
  | _ => None
  end.

(** A decision to reject, with the reason for the audit log. *)
Record Rejection := mkRejection { rj_decision : Decision; rj_reason : string; rj_error : Error }.

Definition require (b : bool) (r : Rejection) : result Rejection () := if b then Ok () else Err r.

(** What the checks hand to the transaction; [pr_record] has the redacted payload. *)
Record Prepared := mkPrepared {
  pr_record : EvidenceRecord;
  pr_payloadJSON : string;
  pr_hash : string;
  pr_observed : Time;
  pr_scopeCanonical : string;
  pr_provenance : string;
  pr_source : string;
  pr_controlID : option UUID;
  pr_result : string;
  pr_ctx : Context;
}.

(** What the call finds around it: the clock, the database's [now()], the state of
    the pool for the transaction and for the audit entry, what [uuid.New] returns,
    the rows other transactions commit while this one runs, and the texts of
    library errors and of [strconv.Quote]. *)
Record Env := mkEnv {
  env_clock : Time;
  env_now : Time;
  env_infra : Infra;
  env_audit_infra : Infra;
  env_newID : UUID;
  env_auditID : UUID;
  env_rivals : list EvidenceRow;
  env_errtext : Failure → string;
  env_Quote : string → string;
}.

Section Service.
Context {UT : UUIDText} {JB : JsonB} {PM : ProtoMarshal} {PJ : ProtoJson} {GS : GoSort} {SP : StructPB}.

Definition registered (s : Service) (cred : Credential) (rec : EvidenceRecord) : bool :=
  match IsRegisteredForTenant (valid s) with
  | Some probe => probe (TenantID cred) (EvidenceKind rec) (SchemaVersion rec)
  | None => IsRegistered (valid s) (EvidenceKind rec) (SchemaVersion rec)
  end.

(** The record with its payload redacted, and the bytes of record. *)
Definition redact_payload (env : Env) (s : Service) (cred : Credential) (rec : EvidenceRecord) (payloadJSON : string)
  : result Rejection (EvidenceRecord * string) :=
  match RedactionRulesFor (valid s) with
  | None => Ok (rec, payloadJSON)
  | Some lookup =>
      match lookup (TenantID cred) (EvidenceKind rec) (SchemaVersion rec) with
      | Err e => Err (mkRejection DecisionRejectedInternalError ("redaction lookup: " +:+ e) (ErrInternal "redaction lookup"))
      | Ok [] => Ok (rec, payloadJSON)
      | Ok rules =>
          match Redact.Apply (Payload rec) rules with
          | Err e => Err (mkRejection DecisionRejectedInternalError ("redaction apply: " +:+ env_errtext env (FRedactApply e))
                            (ErrFailure (FRedactApply e)))
          | Ok redacted =>
              match protojson_Marshal (default [] redacted) with
              | Err _ => Err (mkRejection DecisionRejectedInternalError "payload re-marshal after redact" (ErrInternal "redacted re-marshal"))
              | Ok redactedJSON => Ok (with_payload rec redacted, redactedJSON)
              end
          end
      end
  end.

Definition provenance_json (s : Service) (cred : Credential) (rec : EvidenceRecord) (receivedAt : Time) : string :=
  render go_quote (JObj [("credential_id", JStr (ID cred)); ("credential_type", JStr "api_key"); ("endpoint_version", JStr "v1");
                         ("ingestion_path", JStr (path s)); ("received_at", JStr (FormatRFC3339Nano receivedAt));
                         ("schema_version", JStr (SchemaVersion rec))]).

Definition source_json (rec : EvidenceRecord) : string :=
  let sa := default (mkSource "" "" "") (Source rec) in
  render go_quote (JObj [("actor_id", JStr (ActorId sa)); ("actor_type", JStr (ActorType sa)); ("session_id", JStr (SessionId sa))]).

(** Everything before the transaction, in the order of the source. *)
Definition checks (env : Env) (s : Service) (rec : EvidenceRecord) (cred : Credential) : result Rejection Prepared :=
  let receivedAt := env_clock env in
  _ ← match missingField rec with
      | Some msg => Err (mkRejection DecisionRejectedValidation msg (ErrMissingField msg))
      | None => Ok ()
      end;
  let observed := AsTime (default (mkTimestamp 0 0) (ObservedAt rec)) in
  let skew := Sub observed receivedAt in
  _ ← require ((- MaxObservedAtSkew <=? skew) && (skew <=? MaxObservedAtSkew))
        (mkRejection DecisionRejectedObservedAtSkew
           ("observed_at skew " +:+ duration_text skew +:+ " > " +:+ duration_text MaxObservedAtSkew) ErrObservedAtSkew);
  payloadJSON ← match protojson_Marshal (default [] (Payload rec)) with
                | Err e => Err (mkRejection DecisionRejectedValidation ("payload marshal: " +:+ e) ErrValidation)
                | Ok b => Ok b
                end;
  let size := Z.of_nat (String.length payloadJSON) in
  _ ← require (negb ((MaxPayloadBytes <? size) && bool_decide (PayloadUri rec = None)))
        (mkRejection DecisionRejectedOversized ("payload " +:+ Itoa size +:+ " > " +:+ Itoa MaxPayloadBytes +:+ " bytes") ErrOversized);
  _ ← require (registered s cred rec)
        (mkRejection DecisionRejectedUnknownKind ("kind=" +:+ EvidenceKind rec +:+ " version=" +:+ SchemaVersion rec) ErrUnknownKind);
  _ ← match ValidatePayload (valid s) (TenantID cred) (EvidenceKind rec) (SchemaVersion rec) payloadJSON with
      | Some e => Err (mkRejection DecisionRejectedValidation e ErrValidation)
      | None => Ok ()
      end;
  '(rec, payloadJSON) ← redact_payload env s cred rec payloadJSON;
  _ ← require (bool_decide (Kinds cred = []) || bool_decide (EvidenceKind rec ∈ Kinds cred))
        (mkRejection DecisionRejectedScopeViolation ("credential " +:+ ID cred +:+ " not authorized for kind " +:+ EvidenceKind rec)
           ErrScopeViolation);
  _ ← require (bool_decide (ScopePredicate cred = "") || scopeSatisfiesPredicate (Scope rec) (ScopePredicate cred))
        (mkRejection DecisionRejectedScopeViolation
           ("scope_predicate " +:+ env_Quote env (ScopePredicate cred) +:+ " not satisfied") ErrScopeViolation);
  hash ← match canonjson.HashRecord rec with
         | Err e => Err (mkRejection DecisionRejectedInternalError ("canonjson: " +:+ e) (ErrInternal "hash"))
         | Ok h => Ok h
         end;
  let scopeCanonical := canonjson.MarshalCanonicalScope (Scope rec) in
  resultEnum ← match protoResultToEnum (RecordResult rec) with
               | None => Err (mkRejection DecisionRejectedValidation "unrecognized result enum" (ErrMissingField "result"))
               | Some e => Ok e
               end;
  tenantCtx ← match WithTenant {| ctx_tenant := None |} (TenantID cred) with
              | Err e => Err (mkRejection DecisionRejectedInternalError ("WithTenant: " +:+ env_errtext env (FTenant e)) (ErrFailure (FTenant e)))
              | Ok c => Ok c
              end;
  Ok (mkPrepared rec payloadJSON hash observed scopeCanonical (provenance_json s cred rec receivedAt) (source_json rec)
        (uuid_Parse (ControlId rec)) resultEnum tenantCtx).

(** ** The transaction *)

(** The errors of the transaction's function. *)
Inductive TxFailure := TxMismatch | TxFailed (f : Failure).
#[global] Instance TxFailure_error : TxError TxFailure := λ e, TxFailed (FTx e).

Definition insert_params (env : Env) (s : Service) (cred : Credential) (recordID : option UUID) (p : Prepared) (t : UUID) : EvidenceRow :=
  let rec := pr_record p in
  mkRow (default (env_newID env) recordID) t (pr_controlID p) (ControlId rec) (pr_observed p) (env_now env) (pr_provenance p)
    (pr_result p) (pr_payloadJSON p) (PayloadUri rec) (pr_hash p) "monthly" (Some (IdempotencyKey rec)) (ptrStr (EvidenceKind rec))
    (ptrStr (SchemaVersion rec)) (ptrStr (ID cred)) (path s) (pr_source p) (Some (pr_scopeCanonical p)) (Some (UnixNano (pr_observed p))).

Definition dedup (hash : string) (existing : EvidenceRow) : Tx (Session DB) TxFailure (EvidenceRow * bool) :=
  if bool_decide (er_Hash existing ≠ hash) then tx_fail TxMismatch else mret (existing, true).

(** The row appended or found, and whether it was found. *)
Definition append (env : Env) (s : Service) (cred : Credential) (recordID : option UUID) (p : Prepared)
  : Tx (Session DB) TxFailure (EvidenceRow * bool) :=
  let tenantID := uuid_Parse (TenantID cred) in
  let key := IdempotencyKey (pr_record p) in
  tx_try (stmt (GetEvidenceRecordByIdempotency tenantID key)) (λ looked,
    match looked with
    | Ok existing => dedup (pr_hash p) existing
    | Err NoRows =>
        tx_try (stmt (InsertEvidenceRecord (env_now env) (env_rivals env) tenantID (insert_params env s cred recordID p))) (λ inserted,
          match inserted with
          | Ok row => mret (row, false)
          | Err UniqueViolation =>
              tx_try (stmt (GetEvidenceRecordByIdempotency tenantID key)) (λ again,
                match again with
                | Ok existing => dedup (pr_hash p) existing
                | Err _ => tx_fail (TxFailed (FInsert UniqueViolation))
                end)
          | Err e => tx_fail (TxFailed (FInsert e))
          end)
    | Err e => tx_fail (TxFailed (FLookup e))
    end).

(** The rows the others committed are there whatever became of this transaction. *)
Definition arrive (env : Env) (w : World) : World :=
  mkWorld (with_records (db w) (evidence_records (db w) ++ env_rivals env)) (sink w).

Definition run_append (env : Env) (s : Service) (cred : Credential) (recordID : option UUID) (p : Prepared) (w : World)
  : result TxFailure (EvidenceRow * bool) * World :=
  let '(r, se) := withTx (env_infra env) (pr_ctx p) (append env s cred recordID p) (mkSession (db w) false) in
  (r, arrive env (mkWorld (s_db se) (sink w))).

(** ** Audit *)

Definition audit_payload (cred : Credential) (idem kind reason : string) : string :=
  render go_quote (JObj [("credential_id", JStr (ID cred)); ("evidence_kind", JStr kind); ("idempotency_key", JStr idem);
                         ("reason_code", JStr (truncate reason 1024))]).

(** The entry in a transaction of its own, best effort; the sink is told inside it,
    whether or not the entry was written. *)
Definition writeAudit (env : Env) (cred : Credential) (idem kind : string) (decision : Decision) (reason : string)
    (recordID : option UUID) (w : World) : World :=
  if bool_decide (TenantID cred = "") then w
  else match WithTenant {| ctx_tenant := None |} (TenantID cred), uuid_Parse (TenantID cred) with
  | Ok tenantCtx, Some t =>
      if negb (begin_ok (env_audit_infra env)) then w
      else match ApplyTenant (env_audit_infra env) tenantCtx with
      | Err _ => w
      | Ok _ =>
          let row := mkAudit (env_auditID env) t (ID cred) (decision_text decision) (truncate reason 1024) (ptrStr idem) (ptrStr kind) recordID
                       (env_now env) in
          let entry := mkEntry (ID cred) t (match recordID with Some r => uuid_String r | None => "" end) (decision_text decision)
                         (env_auditID env) (audit_payload cred idem kind reason) in
          let d := match InsertEvidenceAuditEntry row (db w) with
                   | Some d => if commit_ok (env_audit_infra env) then d else db w
                   | None => db w
                   end in
          mkWorld d (sink w ++ [entry])
      end
  | _, _ => w
  end.

(** ** Process *)

Record Outcome := mkOutcome { receipt : Receipt; decision : Decision; error : option Error }.

Definition reject (env : Env) (cred : Credential) (idem kind : string) (recordID : option UUID) (r : Rejection) (w : World) : Outcome * World :=
  (mkOutcome no_receipt (rj_decision r) (Some (rj_error r)), writeAudit env cred idem kind (rj_decision r) (rj_reason r) recordID w).

Definition ProcessWithRecordID (env : Env) (s : Service) (rec : option EvidenceRecord) (cred : Credential) (recordID : option UUID)
    (w : World) : Outcome * World :=
  match rec with
  | None => reject env cred "" "" recordID (mkRejection DecisionRejectedValidation "nil record" (ErrMissingField "record is nil")) w
  | Some rec =>
      if bool_decide (TenantID cred = "") then (mkOutcome no_receipt DecisionRejectedUnauthenticated (Some ErrNoTenantCredential), w)
      else match checks env s rec cred with
      | Err rj => reject env cred (IdempotencyKey rec) (EvidenceKind rec) recordID rj w
      | Ok p =>
          let '(r, w') := run_append env s cred recordID p w in
          match r with
          | Err TxMismatch =>
              reject env cred (IdempotencyKey rec) (EvidenceKind rec) recordID
                (mkRejection DecisionRejectedIdempotencyMismatch "hash mismatch for idempotency_key" ErrIdempotencyMismatch) w'
          | Err (TxFailed f) =>
              reject env cred (IdempotencyKey rec) (EvidenceKind rec) recordID
                (mkRejection DecisionRejectedInternalError (env_errtext env f) (ErrFailure f)) w'
          | Ok (row, deduped) =>
              let d := if deduped then DecisionDeduplicated else DecisionAccepted in
              (mkOutcome (mkReceipt (uuid_String (er_ID row)) (er_Hash row) (er_IngestedAt row) (ID cred) deduped) d None,
               writeAudit env cred (IdempotencyKey rec) (EvidenceKind rec) d "" (Some (er_ID row)) w')
          end
      end
  end.

Definition Process (env : Env) (s : Service) (rec : option EvidenceRecord) (cred : Credential) (w : World) : Outcome * World :=
  ProcessWithRecordID env s rec cred None w.

(** ** Receipts *)

Record ReceiptStatus := mkStatus {
  rs_RecordID : string;
  rs_CredentialID : string;
  rs_Decision : string;
  rs_ReasonCode : string;
  rs_IdempotencyKey : option string;
  rs_EvidenceKind : option string;
  rs_ReceivedAt : Time;
}.

Inductive LookupErr := LookupNoTenant | LookupTenant (e : TenancyErr) | LookupBegin | LookupNoRows.

Definition LookupReceiptStatus {PL : Planner} (infra : Infra) (cred : Credential) (recordID : UUID) (w : World) : result LookupErr ReceiptStatus :=
  if bool_decide (TenantID cred = "") then Err LookupNoTenant
  else match WithTenant {| ctx_tenant := None |} (TenantID cred) with
  | Err e => Err (LookupTenant e)
  | Ok ctx =>
      if negb (begin_ok infra) then Err LookupBegin
      else match ApplyTenant infra ctx with
      | Err e => Err (LookupTenant e)
      | Ok _ =>
          match GetEvidenceAuditEntryByReceipt (uuid_Parse (TenantID cred)) (ID cred) recordID (db w) with
          | None => Err LookupNoRows
          | Some r => Ok (mkStatus (uuid_String recordID) (al_CredentialID r) (al_Decision r) (al_ReasonCode r) (al_IdempotencyKey r)
                            (al_EvidenceKind r) (al_ReceivedAt r))
          end
      end
  end.

End Service.
End Ingest.
