(* ===== verification/Http.v ===== *)
(** * What the handlers share

    The credential the middleware leaves in a request's context, replies and status
    codes. *)

From S2P Require Import Prelude Tenancy Ingest.

(** [credstore.Credential]; the ingestion stage reads part of it. *)
Record Credential := mkCred {
  cred_key : Ingest.Credential;
  cred_IsAdmin : bool;
  cred_IsApprover : bool;
  cred_UserID : string;
  cred_OwnerRoles : list string;
}.
Definition cred_ID (c : Credential) : string := Ingest.ID (cred_key c).
Definition cred_TenantID (c : Credential) : string := Ingest.TenantID (cred_key c).

(** [httpresp.WriteJSON], [httpresp.WriteError] and [httperr.WriteInternal]. *)
Inductive Reply (A : Type) :=
| WriteJSON (code : Z) (a : A)
| WriteError (code : Z) (msg : string)
| WriteInternal (op : string).
Arguments WriteJSON {A} _ _.
Arguments WriteError {A} _ _.
Arguments WriteInternal {A} _.

Definition StatusOK : Z := 200.
Definition StatusCreated : Z := 201.
Definition StatusBadRequest : Z := 400.
Definition StatusUnauthorized : Z := 401.
Definition StatusForbidden : Z := 403.
Definition StatusNotFound : Z := 404.
Definition StatusConflict : Z := 409.
Definition StatusUnprocessableEntity : Z := 422.
Definition StatusServiceUnavailable : Z := 503.

