(* ===== verification/EvidenceVerify.v ===== *)
(** * Verification of the evidence ledger

    Models internal/evidence/ingest/verify.go (the record a ledger row stands for
    and the comparison of its hash) and the walk of
    cmd/atlas-cli/cmd_evidence_verify.go over the tenants' rows. *)

From Stdlib Require Import Ascii.
From S2P Require Import Prelude GoTime Tenancy Json Sha256 Float64 Scope GoJson EvalState Postgres Redact EvidenceRecord Ingest.
Import Evidence Ingest.

Module Verify.

Definition resultEnumToProto (r : string) : Result :=
  if bool_decide (r = EvalState.ResultPass) then RESULT_PASS
  else if bool_decide (r = EvalState.ResultFail) then RESULT_FAIL
  else if bool_decide (r = EvalState.ResultNA) then RESULT_NA
  else if bool_decide (r = EvalState.ResultInconclusive) then RESULT_INCONCLUSIVE
  else RESULT_UNSPECIFIED.

Definition deref (s : option string) : string := default "" s.

(** The struct the source_attribution column is decoded into. *)
Definition decode_source (raw : string) : option SourceAttribution :=
  match decode_all raw with
  | Some JNull => Some (mkSource "" "" "")
  | Some (JObj ms) =>
      match decode_fields false ["ACTOR_TYPE"; "ACTOR_ID"; "SESSION_ID"] ms [SStr ""; SStr ""; SStr ""] with
      | ([SStr t; SStr i; SStr s], false) => Some (mkSource t i s)
      | _ => None
      end
  | _ => None
  end.

Inductive VerifyErr := ErrScope | ErrPayload | ErrSource | ErrHash (text : string).

Section Verify.
Context {JB : JsonB} {PM : ProtoMarshal} {PJ : ProtoJson} {GS : GoSort}.

(** A column that is empty leaves its field unset. *)
Definition decode_column {A} (raw : string) (decode : string → option A) (e : VerifyErr) : result VerifyErr (option A) :=
  if bool_decide (raw = "") then Ok None
  else match decode raw with Some a => Ok (Some a) | None => Err e end.

Definition RecordFromLedgerRow (row : EvidenceRow) : result VerifyErr EvidenceRecord :=
  let observed := match er_ObservedAtNanos row with
                  | Some n => NewTimestamp (of_UnixNano n)
                  | None => NewTimestamp (er_ObservedAt row)
                  end in
  scope ← decode_column (default "" (er_ScopeCanonical row)) canonjson.UnmarshalCanonicalScope ErrScope;
  payload ← decode_column (er_Payload row) protojson_Unmarshal ErrPayload;
  source ← decode_column (er_SourceAttribution row) decode_source ErrSource;
  Ok (mkRecord (deref (er_IdempotencyKey row)) (deref (er_EvidenceKind row)) (deref (er_SchemaVersion row)) (er_ControlRef row)
        (default [] scope) (Some observed) (resultEnumToProto (er_Result row)) payload source (er_PayloadUri row) "").

Definition LedgerRowHash (row : EvidenceRow) : result VerifyErr string :=
  rec ← RecordFromLedgerRow row;
  map_err ErrHash (canonjson.HashRecord rec).

(** [ok] and the hash recomputed. *)
Definition VerifyLedgerRow (row : EvidenceRow) : result VerifyErr (bool * string) :=
  recomputed ← LedgerRowHash row;
  Ok (bool_decide (recomputed = er_Hash row), recomputed).

(** ** The walk *)

Definition row_le (a b : EvidenceRow) : Prop := (er_ID a ≤ er_ID b)%N.
#[global] Instance row_le_dec : RelDecision row_le.
Proof. intros a b. unfold row_le. apply _. Defined.

Definition WalkEvidenceRecordsForVerify (tenantID afterID : UUID) (pageSize : Z) (d : DB) : list EvidenceRow :=
  take (Z.to_nat pageSize)
    (merge_sort row_le (select_where (λ r, bool_decide (er_TenantID r = tenantID) && bool_decide (afterID < er_ID r)%N) (evidence_records d))).

Record verifyMismatch := mkMismatch { m_tenant : UUID; m_record : UUID; m_stored : string; m_recomputed : string }.

(** A row that does not decode is a mismatch without a recomputed hash. *)
Definition check_row (tenantID : UUID) (row : EvidenceRow) : list verifyMismatch :=
  match VerifyLedgerRow row with
  | Err _ => [mkMismatch tenantID (er_ID row) (er_Hash row) ""]
  | Ok (true, _) => []
  | Ok (false, recomputed) => [mkMismatch tenantID (er_ID row) (er_Hash row) recomputed]
  end.

(** The pages from a cursor on; [None] when the fuel runs out. *)
Fixpoint walk_pages (fuel : nat) (tenantID cursor : UUID) (pageSize : Z) (d : DB) (scanned : Z) (ms : list verifyMismatch)
  : option (Z * list verifyMismatch) :=
  match fuel with
  | O => None
  | S fuel =>
      match WalkEvidenceRecordsForVerify tenantID cursor pageSize d with
      | [] => Some (scanned, ms)
      | r :: page =>
          walk_pages fuel tenantID (er_ID (List.last (r :: page) r)) pageSize d (scanned + Z.of_nat (length (r :: page)))
            (ms ++ concat (check_row tenantID <$> r :: page))
      end
  end.

(** From the zero identifier; each page read in a transaction of its own. *)
Definition walkTenant (tenantID : UUID) (pageSize : Z) (d : DB) : option (Z * list verifyMismatch) :=
  walk_pages (S (length (evidence_records d))) tenantID uuid_Nil pageSize d 0 [].

Definition verifyDefaultPage : Z := 1000.

Fixpoint walk_tenants (tenants : list UUID) (pageSize : Z) (d : DB) : option (Z * Z * list verifyMismatch) :=
  match tenants with
  | [] => Some (0, 0, [])
  | t :: tenants =>
      '(n, ms) ← walkTenant t pageSize d;
      '(n', k, ms') ← walk_tenants tenants pageSize d;
      Some (n + n', k + 1, ms ++ ms')
  end.

(** Rows scanned, tenants and mismatches; a page size that is not positive is the
    default one. *)
Definition verifyLedger (tenants : list UUID) (pageSize : Z) (d : DB) : option (Z * Z * list verifyMismatch) :=
  walk_tenants tenants (if pageSize <=? 0 then verifyDefaultPage else pageSize) d.
End Verify.
End Verify.
