(* ===== verification/StreamBuf.v ===== *)
(** * The evidence stream buffer

    Models internal/evidence/streambuf/streambuf.go: what the publisher puts on the
    stream and answers, and what the consumer does with a message.  NATS JetStream
    and protobuf's wire format are parameters; a redelivery is another run of
    [handle]. *)

From Stdlib Require Import Ascii.
From S2P Require Import Prelude GoTime Tenancy Json Sha256 Float64 Scope GoJson EvalState Postgres Redact EvidenceRecord Ingest.
Import Evidence Ingest.

(** ** Outside the repository *)

(** [proto.Marshal] and [proto.Unmarshal] *)
Class ProtoWire := {
  wire_Marshal : EvidenceRecord → option string;
  wire_Unmarshal : string → option EvidenceRecord;
  wire_roundtrip r s : wire_Marshal r = Some s → wire_Unmarshal s = Some r;
}.

(** [uuid.NewSHA1] in the namespace of the package. *)
Class UUIDv5 := uuid_NewSHA1 : string → UUID.

(** A header value that NATS carries as it is: no control characters and no white
    space at either end. *)
Fixpoint printable (s : string) : bool :=
  match s with "" => true | String c s => (32 <=? code c)%N && negb (bool_decide (code c = 127%N)) && printable s end.
Definition header_text (s : string) : bool := printable s && bool_decide (TrimSpace s = s).

Module StreamBuf.

(** The headers the publisher sets; a header that was not set reads as empty. *)
Record Header := mkHeader {
  MsgId : string;
  HeaderCredentialID : string;
  HeaderCredentialTenant : string;
  HeaderCredentialKinds : string;
  HeaderCredentialScope : string;
  HeaderIdempotencyKey : string;
  HeaderEvidenceKind : string;
  HeaderReceiptRecordID : string;
}.
Record Msg := mkMsg { Data : string; Headers : Header }.

(** A stream as the messages it holds, with the time each was stored. *)
Abbreviation Stream := (list (Time * Msg)) (only parsing).

Definition DefaultMaxAge : Duration := 7 * 24 * time_Hour.
Definition Duplicates : Duration := 120 * ns_per_second.

(** A message with the identifier of one stored within the window. *)
Definition duplicate (now : Time) (m : Msg) (s : Stream) : bool :=
  existsb (λ x, bool_decide (MsgId (Headers x.2) = MsgId (Headers m)) && (now - x.1 <? Duplicates)) s.

(** [js.PublishMsg] on a stream configured as [Open] does: an acknowledged message
    is stored, unless it is a duplicate, which is dropped; of one that was not
    acknowledged nothing is known.  [carried] is a header value as it arrives. *)
Class JetStream := {
  js_PublishMsg : Time → Msg → Stream → bool * Stream;
  carried : string → string;
  js_stored now m s s' : js_PublishMsg now m s = (true, s') → duplicate now m s = false → s' = s ++ [(now, m)];
  js_dropped now m s s' : js_PublishMsg now m s = (true, s') → duplicate now m s = true → s' = s;
  carried_text v : header_text v = true → carried v = v;
}.

(** One that never fails. *)
Definition calm_stream : JetStream.
Proof.
  refine {| js_PublishMsg now m s := (true, if duplicate now m s then s else s ++ [(now, m)]); carried v := v |}.
  - by intros now m s s' [= <-] ->.
  - by intros now m s s' [= <-] ->.
  - done.
Defined.

(** ** Publisher *)

Section StreamBuf.
Context {UT : UUIDText} {JB : JsonB} {PM : ProtoMarshal} {PJ : ProtoJson} {GS : GoSort} {SP : StructPB} {PW : ProtoWire} {V5 : UUIDv5} {JS : JetStream}.

Inductive PublishErr := ErrNilRecord | ErrNoTenantCred | ErrMarshal | ErrHashRecord (text : string) | ErrPublish.

Definition message (rec : EvidenceRecord) (cred : Credential) (data : string) (recordID : UUID) : Msg :=
  mkMsg data (mkHeader (TenantID cred +:+ "|" +:+ IdempotencyKey rec) (ID cred) (TenantID cred) (join "," (Kinds cred)) (ScopePredicate cred)
                (IdempotencyKey rec) (EvidenceKind rec) (uuid_String recordID)).

(** [now] is the broker's time and the publisher's. *)
Definition Publish (now : Time) (rec : option EvidenceRecord) (cred : Credential) (s : Stream)
  : result (Decision * PublishErr) Receipt * Stream :=
  match rec with
  | None => (Err (DecisionRejectedValidation, ErrNilRecord), s)
  | Some rec =>
      if bool_decide (TenantID cred = "") then (Err (DecisionRejectedUnauthenticated, ErrNoTenantCred), s)
      else match wire_Marshal rec with
      | None => (Err (DecisionRejectedValidation, ErrMarshal), s)
      | Some data =>
          match canonjson.HashRecord rec with
          | Err e => (Err (DecisionRejectedInternalError, ErrHashRecord e), s)
          | Ok hash =>
              let recordID := uuid_NewSHA1 (TenantID cred +:+ "|" +:+ IdempotencyKey rec +:+ "|" +:+ hash) in
              match js_PublishMsg now (message rec cred data recordID) s with
              | (false, s') => (Err (DecisionRejectedInternalError, ErrPublish), s')
              | (true, s') => (Ok (mkReceipt (uuid_String recordID) hash now (ID cred) false), s')
              end
          end
      end
  end.

(** [DirectPublisher] *)
Definition PublishDirect (env : Env) (svc : Service) (rec : option EvidenceRecord) (cred : Credential) (w : World) : Outcome * World :=
  Process env svc rec cred w.

(** ** Consumer *)

Inductive Settlement := Ack | Nak | Term.

Definition isPoison (d : Decision) : bool :=
  match d with
  | DecisionRejectedValidation | DecisionRejectedUnknownKind | DecisionRejectedIdempotencyMismatch | DecisionRejectedScopeViolation
  | DecisionRejectedObservedAtSkew | DecisionRejectedOversized | DecisionRejectedUnauthenticated => true
  | _ => false
  end.

(** The credential recovered from the headers. *)
Definition header_credential (h : Header) : Credential :=
  let kinds := carried (HeaderCredentialKinds h) in
  mkCredential (carried (HeaderCredentialID h)) (carried (HeaderCredentialTenant h)) (carried (HeaderCredentialScope h))
    (if bool_decide (kinds = "") then [] else split_on "," kinds).

Definition pgUUIDFromHeader (v : string) : option UUID := uuid_Parse v.

(** The counters of the consumer. *)
Record Consumer := mkConsumer { processed : Z; reprocessed : Z }.

Definition handle (env : Env) (svc : Service) (m : Msg) (c : Consumer) (w : World) : Settlement * Consumer * World :=
  let h := Headers m in
  match wire_Unmarshal (Data m) with
  | None => (Term, c, w)
  | Some rec =>
      let '(o, w') := ProcessWithRecordID env svc (Some rec) (header_credential h) (pgUUIDFromHeader (carried (HeaderReceiptRecordID h))) w in
      match error o with
      | Some _ => (if isPoison (decision o) then Term else Nak, c, w')
      | None =>
          let re := if bool_decide (decision o = DecisionDeduplicated) then reprocessed c + 1 else reprocessed c in
          (Ack, mkConsumer (processed c + 1) re, w')
      end
  end.

(** Deliveries of one message in sequence, each with what it finds around it, until
    one settles it: an acknowledgement may be lost, and an unsettled message comes
    again. *)
Fixpoint deliver (envs : list (Env * bool)) (svc : Service) (m : Msg) (c : Consumer) (w : World) : Consumer * World :=
  match envs with
  | [] => (c, w)
  | (env, ack_lost) :: envs =>
      let '(st, c', w') := handle env svc m c w in
      match st with
      | Term => (c', w')
      | Ack => if ack_lost then deliver envs svc m c' w' else (c', w')
      | Nak => deliver envs svc m c' w'
      end
  end.
End StreamBuf.
End StreamBuf.
