(* ===== verification/IngestSpec.v ===== *)
(** * Evidence ingestion: what the ledger promises

    A record in the ledger passed every check for the credential that pushed it and
    holds nothing a redaction rule addresses; the ledger only grows, with one row
    per tenant and idempotency key; a repeated push finds the first row; and the
    hash of an accepted row can be recomputed from its columns. *)

From Stdlib Require Import Ascii SpecFloat.
From S2P Require Import Prelude GoTime Tenancy Json Sha256 Float64 Scope GoJson EvalState Postgres Redact RedactSpec EvidenceRecord Ingest EvidenceVerify.
Import Evidence Ingest.

Module IngestSpec.
Section Spec.
Context {UT : UUIDText} {JB : JsonB} {PM : ProtoMarshal} {PJ : ProtoJson} {GS : GoSort} {SP : StructPB}.

(** ** Frames *)

Lemma writeAudit_frame env cred idem kind d reason rid w :
  evidence_records (db (writeAudit env cred idem kind d reason rid w)) = evidence_records (db w) ∧
  controls (db (writeAudit env cred idem kind d reason rid w)) = controls (db w).
Proof using.
  unfold writeAudit, InsertEvidenceAuditEntry. repeat (case_bool_decide || case_match); simplify_eq/=; done.
Qed.

(** The row with a key, if there is one. *)
Definition row_of (tenantID : option UUID) (key : string) (d : DB) : option EvidenceRow :=
  head (select_where (λ r, bool_decide (Some (er_TenantID r) = tenantID) && bool_decide (er_IdempotencyKey r = Some key)) (evidence_records d)).

Lemma row_of_elem t key d r : row_of (Some t) key d = Some r → r ∈ evidence_records d ∧ idem_key r = Some (t, key).
Proof using.
  unfold row_of. intros H%head_Some_elem_of. apply elem_of_select_where in H as [H ?]. split; [done|].
  apply andb_prop in H as [H1%bool_decide_eq_true H2%bool_decide_eq_true]. unfold idem_key. rewrite H2. by simplify_eq/=.
Qed.

Lemma row_of_None t key d r : row_of (Some t) key d = None → r ∈ evidence_records d → idem_key r ≠ Some (t, key).
Proof using.
  unfold row_of. intros H%head_None Hr Hk. unfold idem_key in Hk. destruct (er_IdempotencyKey r) as [k|] eqn:E; [|done].
  injection Hk as Ht ->. assert (Hin : r ∈ @nil EvidenceRow); [|by apply elem_of_nil in Hin]. rewrite <- H.
  apply elem_of_select_where. split; [|done]. rewrite E, Ht. by rewrite !bool_decide_eq_true_2.
Qed.

Lemma GetEvidenceRecord_row t key d :
  pg_text key = true →
  GetEvidenceRecordByIdempotency t key d = match row_of t key d with Some r => Ok (r, d) | None => Err NoRows end.
Proof using. unfold GetEvidenceRecordByIdempotency, row_of. intros ->. cbn [negb]. by destruct (select_where _ _). Qed.

(** ** The transaction *)

(** The three ways it ends: the row was there, was appended, or nothing was. *)
Inductive appended (env : Env) (s : Service) (cred : Credential) (rid : option UUID) (p : Prepared) (d : DB)
  : result TxFailure (EvidenceRow * bool) → DB → Prop :=
| app_found r :
    pg_text (IdempotencyKey (pr_record p)) = true →
    row_of (uuid_Parse (TenantID cred)) (IdempotencyKey (pr_record p)) d = Some r → er_Hash r = pr_hash p →
    appended env s cred rid p d (Ok (r, true)) d
| app_new t r :
    row_of (uuid_Parse (TenantID cred)) (IdempotencyKey (pr_record p)) d = None → uuid_Parse (TenantID cred) = Some t →
    stored_row (env_now env) (insert_params env s cred rid p t) = Some r →
    texts_ok r = true → existsb (conflicts r) (evidence_records d ++ env_rivals env) = false →
    (∀ c, er_ControlID r = Some c → (t, c) ∈ controls d) →
    appended env s cred rid p d (Ok (r, false)) (with_records d (evidence_records d ++ [r]))
| app_fail e : appended env s cred rid p d (Err e) d.

Lemma withTx_session infra ctx (body : Tx (Session DB) TxFailure (EvidenceRow * bool)) d r se :
  withTx infra ctx body (mkSession d false) = (r, se) →
  (∃ a, r = Ok a ∧ body (mkSession d false) = (Ok a, se)) ∨ (∃ e, r = Err e ∧ s_db se = d).
Proof using UT.
  intros H. apply (withTx_cases s_db) in H. destruct H as [H|(e & -> & H)]; [by left|right; by exists e].
Qed.

Lemma append_spec env s cred rid p d r se :
  append env s cred rid p (mkSession d false) = (Ok r, se) → appended env s cred rid p d (Ok r) (s_db se).
Proof using.
  unfold append, tx_try, stmt, dedup, tx_fail, mret, tx_ret. cbn [aborted s_db].
  destruct (GetEvidenceRecordByIdempotency _ _ d) as [[x d0]|e] eqn:E.
  - unfold GetEvidenceRecordByIdempotency in E. destruct (pg_text _) eqn:Hk; [|done]. cbn [negb] in E.
    destruct (select_where _ _) as [|y l] eqn:Es; [done|].
    injection E as <- <-. case_bool_decide as Hh; [done|]. intros [= <- <-]. cbn [s_db].
    apply app_found; [done|by unfold row_of; rewrite Es|done].
  - destruct e; try done.
    unfold GetEvidenceRecordByIdempotency in E. destruct (negb _); [done|]. destruct (select_where _ _) as [|y l] eqn:Es; [|done]. clear E.
    change (bool_decide (NoRows = NoRows)) with true. cbn [negb aborted s_db].
    unfold InsertEvidenceRecord. destruct (uuid_Parse (TenantID cred)) as [t|] eqn:Et; [|done].
    destruct (stored_row _ _) as [x|] eqn:Ex; [|done].
    destruct (texts_ok x && checks_ok x) eqn:Hok; [|done]. apply andb_prop in Hok as [Hok _]. cbn [negb].
    destruct (existsb _ _) eqn:Ec.
    { (* the transaction is aborted: the second lookup fails *) by change (bool_decide (UniqueViolation = NoRows)) with false. }
    destruct (match er_ControlID x with Some _ => _ | None => _ end) eqn:Ef; [|done].
    cbn. intros [= <- <-]. rewrite <- Et in Es. eapply app_new; [by unfold row_of; rewrite Es|done..|].
    intros c Hc. rewrite Hc in Ef. by apply bool_decide_eq_true in Ef.
Qed.

Lemma run_append_spec env s cred rid p w r w' :
  run_append env s cred rid p w = (r, w') →
  ∃ d, appended env s cred rid p (db w) r d ∧ db w' = with_records d (evidence_records d ++ env_rivals env).
Proof using.
  unfold run_append. destruct (withTx _ _ _ _) as [r0 se] eqn:E. intros [= <- <-].
  exists (s_db se). split; [|done]. apply withTx_session in E as [(a & -> & E)|(e & -> & ->)]; [|constructor].
  by apply append_spec.
Qed.

(** ** The outcome of a call *)

Definition outcome_of (cred : Credential) (r : result TxFailure (EvidenceRow * bool)) : Outcome :=
  match r with
  | Err TxMismatch => mkOutcome no_receipt DecisionRejectedIdempotencyMismatch (Some ErrIdempotencyMismatch)
  | Err (TxFailed f) => mkOutcome no_receipt DecisionRejectedInternalError (Some (ErrFailure f))
  | Ok (row, deduped) =>
      mkOutcome (mkReceipt (uuid_String (er_ID row)) (er_Hash row) (er_IngestedAt row) (ID cred) deduped)
        (if deduped then DecisionDeduplicated else DecisionAccepted) None
  end.

Definition same_ledger (d d' : DB) : Prop := evidence_records d' = evidence_records d ∧ controls d' = controls d.

Lemma Process_Some env s rec cred rid p w :
  TenantID cred ≠ "" → checks env s rec cred = Ok p →
  let '(r, w1) := run_append env s cred rid p w in
  let '(o, w') := ProcessWithRecordID env s (Some rec) cred rid w in
  o = outcome_of cred r ∧ same_ledger (db w1) (db w').
Proof using.
  intros Ht Hp. destruct (run_append _ _ _ _ _ _) as [r w1] eqn:E. unfold ProcessWithRecordID.
  rewrite bool_decide_eq_false_2 by done. rewrite Hp, E.
  destruct r as [[row []]|[|]]; unfold reject; cbn; (split; [done|apply writeAudit_frame]).
Qed.

(** A call that appends or finds a row passed the checks. *)
Lemma Process_cases env s rec cred rid w o w' :
  ProcessWithRecordID env s rec cred rid w = (o, w') →
  (error o ≠ None ∧ same_ledger (db w) (db w')) ∨
  ∃ rec' p r d, rec = Some rec' ∧ TenantID cred ≠ "" ∧ checks env s rec' cred = Ok p ∧ appended env s cred rid p (db w) r d ∧
    o = outcome_of cred r ∧ evidence_records (db w') = evidence_records d ++ env_rivals env ∧ controls (db w') = controls d.
Proof using.
  intros H. destruct rec as [rec|]; cbn in H.
  2:{ left. injection H as <- <-. split; [done|apply writeAudit_frame]. }
  case_bool_decide as Ht; [left; by injection H as <- <-|].
  destruct (checks env s rec cred) as [p|rj] eqn:Hc.
  2:{ left. injection H as <- <-. split; [done|apply writeAudit_frame]. }
  right. pose proof (Process_Some env s rec cred rid p w Ht Hc) as HP. unfold ProcessWithRecordID in HP.
  rewrite bool_decide_eq_false_2, Hc in HP by done.
  destruct (run_append env s cred rid p w) as [r w1] eqn:E.
  rewrite H in HP.
  destruct HP as [-> [Hl Hctl]]. apply run_append_spec in E as (d & Ha & Hd).
  exists rec, p, r, d. split_and!; [done..|by rewrite Hl, Hd|by rewrite Hctl, Hd].
Qed.

(** ** What the checks establish *)

(** The bytes stored are those of the payload the record then has: the record's own
    when there are no rules, the redacted one otherwise. *)
Definition redacted (s : Service) (cred : Credential) (rec rec' : EvidenceRecord) : Prop :=
  rec' = rec ∧ match RedactionRulesFor (valid s) with
               | Some f => f (TenantID cred) (EvidenceKind rec) (SchemaVersion rec) = Ok []
               | None => True
               end ∨
  ∃ f rules q, RedactionRulesFor (valid s) = Some f ∧ f (TenantID cred) (EvidenceKind rec) (SchemaVersion rec) = Ok rules ∧
    Redact.Apply (Payload rec) rules = Ok q ∧ rec' = with_payload rec q.

Record cleared (env : Env) (s : Service) (rec : EvidenceRecord) (cred : Credential) (p : Prepared) : Prop := {
  cl_fields : missingField rec = None;
  cl_skew : ∀ ts, ObservedAt rec = Some ts → Z.abs (AsTime ts - env_clock env) ≤ MaxObservedAtSkew;
  cl_size : ∃ json, protojson_Marshal (default [] (Payload rec)) = Ok json ∧
              (Z.of_nat (String.length json) ≤ MaxPayloadBytes ∨ PayloadUri rec ≠ None) ∧
              ValidatePayload (valid s) (TenantID cred) (EvidenceKind rec) (SchemaVersion rec) json = None;
  cl_registered : registered s cred rec = true;
  cl_kinds : Kinds cred = [] ∨ EvidenceKind rec ∈ Kinds cred;
  cl_predicate : ScopePredicate cred = "" ∨ scopeSatisfiesPredicate (Scope rec) (ScopePredicate cred) = true;
  cl_redacted : redacted s cred rec (pr_record p);
  cl_bytes : protojson_Marshal (default [] (Payload (pr_record p))) = Ok (pr_payloadJSON p);
  cl_hash : canonjson.HashRecord (pr_record p) = Ok (pr_hash p);
  cl_result : protoResultToEnum (RecordResult rec) = Some (pr_result p);
  cl_tenant : is_Some (uuid_Parse (TenantID cred)) ∧ pr_ctx p = {| ctx_tenant := Some (TenantID cred) |};
  cl_columns :
    pr_observed p = AsTime (default (mkTimestamp 0 0) (ObservedAt rec)) ∧
    pr_scopeCanonical p = canonjson.MarshalCanonicalScope (Scope rec) ∧ pr_source p = source_json rec;
}.

Lemma redact_payload_Ok env s cred rec json rec' json' :
  protojson_Marshal (default [] (Payload rec)) = Ok json → redact_payload env s cred rec json = Ok (rec', json') →
  redacted s cred rec rec' ∧ protojson_Marshal (default [] (Payload rec')) = Ok json'.
Proof using.
  unfold redact_payload, redacted. intros Hj. destruct (RedactionRulesFor _) as [f|] eqn:Ef.
  2:{ intros [= <- <-]. split; [by left|done]. }
  destruct (f _ _ _) as [rules|] eqn:Er; [|done]. destruct rules as [|rule rules].
  { intros [= <- <-]. split; [by left|done]. }
  destruct (Redact.Apply _ _) as [q|] eqn:Ea; [|done]. destruct (protojson_Marshal (default [] q)) as [j|] eqn:Eq; [|done].
  intros [= <- <-]. split; [right; by exists f, (rule :: rules), q|done].
Qed.

Lemma redacted_fields s cred rec rec' :
  redacted s cred rec rec' → ∃ q, rec' = with_payload rec q.
Proof using. intros [[-> _]|(? & ? & q & _ & _ & _ & ->)]; [exists (Payload rec); by destruct rec|by exists q]. Qed.

Lemma Sub_within t u : (- MaxObservedAtSkew <=? Sub t u) && (Sub t u <=? MaxObservedAtSkew) = true ↔ Z.abs (t - u) ≤ MaxObservedAtSkew.
Proof using. unfold Sub, MaxObservedAtSkew, time_Hour. rewrite andb_true_iff, !Z.leb_le. lia. Qed.

Lemma require_Ok b r u : require b r = Ok u → b = true.
Proof using. by destruct b. Qed.

Lemma checks_Ok env s rec cred p : checks env s rec cred = Ok p → cleared env s rec cred p.
Proof using.
  unfold checks. intros H.
  apply result_bind_Ok in H as (? & Hm & H). apply result_bind_Ok in H as (? & Hsk%require_Ok & H). apply Sub_within in Hsk.
  apply result_bind_Ok in H as (json & Hj & H). apply result_bind_Ok in H as (? & Hsz%require_Ok & H).
  apply result_bind_Ok in H as (? & Hreg%require_Ok & H). apply result_bind_Ok in H as (? & Hv & H).
  apply result_bind_Ok in H as ([rec' json'] & Hr & H). apply result_bind_Ok in H as (? & Hk%require_Ok & H).
  apply result_bind_Ok in H as (? & Hp%require_Ok & H). apply result_bind_Ok in H as (hash & Hh & H).
  apply result_bind_Ok in H as (enum & He & H). apply result_bind_Ok in H as (ctx & Hc & H). injection H as <-.
  destruct (protojson_Marshal (default [] (Payload rec))) as [j|] eqn:Ej; [|done]. injection Hj as ->.
  destruct (redact_payload_Ok _ _ _ _ _ _ _ Ej Hr) as [Hred Hb]. destruct (redacted_fields _ _ _ _ Hred) as [q Hq].
  apply orb_prop in Hk, Hp. apply negb_true_iff in Hsz.
  split; cbn; rewrite ?Hq; cbn.
  - by destruct (missingField rec).
  - intros ts Hts. by rewrite Hts in Hsk.
  - exists json. split_and!; [done| |by destruct (ValidatePayload _ _ _ _ _)].
    apply andb_false_iff in Hsz as [Hsz%Z.ltb_ge|Hsz%bool_decide_eq_false]; [by left|by right].
  - done.
  - rewrite Hq in Hk. cbn in Hk. destruct Hk as [Hk%bool_decide_eq_true|Hk%bool_decide_eq_true]; [by left|by right].
  - rewrite Hq in Hp. cbn in Hp. destruct Hp as [Hp%bool_decide_eq_true|Hp]; [by left|by right].
  - by rewrite <- Hq.
  - rewrite Hq in Hb. by apply Hb.
  - rewrite <- Hq. destruct (canonjson.HashRecord rec'); [by injection Hh as ->|done].
  - rewrite Hq in He. cbn in He. destruct (protoResultToEnum _); [by injection He as ->|done].
  - unfold WithTenant in Hc. destruct (uuid_Parse _); [|done]. by injection Hc as <-.
  - done.
Qed.

Lemma missingField_None rec :
  missingField rec = None →
  ∃ ts, ObservedAt rec = Some ts ∧ Payload rec ≠ None ∧ Source rec ≠ None ∧ Scope rec ≠ [] ∧
        Forall (λ d, Key d ≠ "" ∧ Values d ≠ []) (Scope rec).
Proof using.
  unfold missingField. repeat (case_bool_decide; [done|]). destruct (ObservedAt rec) as [ts|]; [|done].
  case_bool_decide; [done|]. destruct (Payload rec), (Source rec); try done. intros Hh. exists ts. split_and!; try done.
  apply Forall_forall. intros d Hd. destruct (missing_dimension d) as [m|] eqn:E.
  - assert (Hm : m ∈ omap (M := list) missing_dimension (Scope rec)) by (apply list_elem_of_omap; eauto).
    destruct (omap _ _); [by apply elem_of_nil in Hm|done].
  - unfold missing_dimension in E. by repeat case_bool_decide.
Qed.

(** A rejection is never the decision "accepted". *)
Lemma checks_decision env s rec cred rj : checks env s rec cred = Err rj → rj_decision rj ≠ DecisionAccepted ∧ rj_decision rj ≠ DecisionDeduplicated.
Proof using.
  unfold checks. intros H.
  repeat (let x := fresh "x" in apply result_bind_Err in H as [H|(x & _ & H)];
    [unfold require, redact_payload in H; repeat case_match; by simplify_eq
    |match type of x with (_ * _)%type => destruct x as [rec' json'] | _ => idtac end]).
  done.
Qed.

Lemma Process_rejected env s rec cred rid w o w' :
  ProcessWithRecordID env s rec cred rid w = (o, w') → error o ≠ None → decision o ≠ DecisionAccepted ∧ decision o ≠ DecisionDeduplicated.
Proof using.
  unfold ProcessWithRecordID, reject. intros H Ho. destruct rec as [rec|]; [|by injection H as <- <-].
  case_bool_decide; [by injection H as <- <-|]. destruct (checks env s rec cred) as [p|rj] eqn:E.
  - destruct (run_append _ _ _ _ _ _) as [[[row []]|[|]] w1]; by injection H as <- <-.
  - injection H as <- <-. by apply checks_decision in E.
Qed.

(** ** The invariant of the ledger *)

Definition ids (d : DB) : list UUID := er_ID <$> evidence_records d.
Definition keys (d : DB) : list (UUID * string) := omap (M := list) idem_key (evidence_records d).

Record ledger_ok (d : DB) : Prop := {
  ids_unique : NoDup (ids d);
  keys_unique : NoDup (keys d);
  refs_hold : Forall (λ r, ∀ c, er_ControlID r = Some c → (er_TenantID r, c) ∈ controls d) (evidence_records d);
}.

Lemma omap_key_inj {A K} (f : A → option K) l (x y : A) k :
  NoDup (omap (M := list) f l) → x ∈ l → y ∈ l → f x = Some k → f y = Some k → x = y.
Proof using.
  induction l as [|z l IH]; [by intros _ ?%elem_of_nil|]. intros Hnd Hx Hy Ex Ey.
  assert (Hl : ∀ w, w ∈ l → f w = Some k → k ∈ omap (M := list) f l) by (intros; apply list_elem_of_omap; eauto).
  cbn in Hnd. apply elem_of_cons in Hx as [->|Hx], Hy as [->|Hy]; [done| | |].
  - rewrite Ex in Hnd. apply NoDup_cons in Hnd as [Hnd _]. destruct Hnd. eauto.
  - rewrite Ey in Hnd. apply NoDup_cons in Hnd as [Hnd _]. destruct Hnd. eauto.
  - apply IH; try done. destruct (f z); [by apply NoDup_cons in Hnd as [_ ?]|done].
Qed.

Lemma row_of_unique d t key r : NoDup (keys d) → r ∈ evidence_records d → idem_key r = Some (t, key) → row_of (Some t) key d = Some r.
Proof using.
  intros Hk Hr Hi. destruct (row_of (Some t) key d) as [r'|] eqn:E.
  - apply row_of_elem in E as [Hr' Hi']. f_equal. by eapply omap_key_inj.
  - by eapply row_of_None in E.
Qed.

Lemma stored_row_fields now p r :
  stored_row now p = Some r →
  er_ID r = er_ID p ∧ er_TenantID r = er_TenantID p ∧ er_ControlID r = er_ControlID p ∧ er_IdempotencyKey r = er_IdempotencyKey p ∧
  er_Hash r = er_Hash p.
Proof using.
  unfold stored_row. destruct (jsonb_in (er_Provenance p)); [|done]. destruct (jsonb_in (er_Payload p)); [|done].
  destruct (jsonb_in (er_SourceAttribution p)); [|done]. cbn. destruct (match er_ScopeCanonical p with Some _ => _ | None => _ end); [|done].
  by intros [= <-].
Qed.

Lemma new_row_key env s cred rid p t r :
  stored_row (env_now env) (insert_params env s cred rid p t) = Some r →
  idem_key r = Some (t, IdempotencyKey (pr_record p)) ∧ er_TenantID r = t ∧ er_Hash r = pr_hash p ∧ er_ID r = default (env_newID env) rid.
Proof using.
  intros (Hi & Ht & _ & Hk & Hh)%stored_row_fields. unfold idem_key. rewrite Hk, Ht, Hi, Hh. done.
Qed.

(** The columns the row gets from the record. *)
Lemma new_row env s cred rid p t r :
  stored_row (env_now env) (insert_params env s cred rid p t) = Some r →
  ∃ payload, jsonb_in (pr_payloadJSON p) = Some payload ∧ er_TenantID r = t ∧ er_CredentialID r = ptrStr (ID cred) ∧
    er_IdempotencyKey r = Some (IdempotencyKey (pr_record p)) ∧ er_EvidenceKind r = ptrStr (EvidenceKind (pr_record p)) ∧ er_Payload r = payload.
Proof using.
  unfold stored_row. cbn. destruct (jsonb_in (pr_provenance p)); [|done]. destruct (jsonb_in (pr_payloadJSON p)) as [payload|]; [|done].
  destruct (jsonb_in (pr_source p)); [|done]. destruct (jsonb_in (pr_scopeCanonical p)); [|done]. intros [= <-]. by exists payload.
Qed.

Lemma no_conflict r l : existsb (conflicts r) l = false → ¬ (er_ID r ∈ er_ID <$> l) ∧ ∀ k, idem_key r = Some k → ¬ (k ∈ omap (M := list) idem_key l).
Proof using.
  intros H. assert (Hno : ∀ x, x ∈ l → conflicts r x = false).
  { intros x Hx. destruct (conflicts r x) eqn:E; [|done]. rewrite <- H. symmetry. apply existsb_exists. exists x. by rewrite <- list_elem_of_In. }
  split.
  - intros (x & E & Hx)%list_elem_of_fmap. apply Hno in Hx. unfold conflicts in Hx. rewrite <- E in Hx. by rewrite bool_decide_eq_true_2 in Hx.
  - intros k Hk (x & Hx & E)%list_elem_of_omap. apply Hno in Hx. unfold conflicts in Hx. rewrite Hk, E in Hx.
    by rewrite (bool_decide_eq_true_2 (Some k = Some k)), orb_true_r in Hx.
Qed.

(** Other transactions keep the constraints: their rows fit the ledger this call
    started from. *)
Definition rivals_ok (env : Env) (d : DB) : Prop := ledger_ok (with_records d (evidence_records d ++ env_rivals env)).

Lemma appended_ok env s cred rid p d r d' :
  rivals_ok env d → appended env s cred rid p d r d' → ledger_ok (with_records d' (evidence_records d' ++ env_rivals env)).
Proof using.
  intros Hok Ha. destruct Ha as [r _ _|t r _ Ht Hs _ Hc Hfk|]; try done.
  destruct (new_row_key _ _ _ _ _ _ _ Hs) as (Hk & Htr & _ & _). apply no_conflict in Hc as [Hid Hkey]. destruct Hok as [Hi Hu Hr].
  unfold ids, keys in *. cbn in *.
  split; unfold ids, keys; cbn; rewrite <- app_assoc.
  - rewrite (Permutation_app_comm [r]), app_assoc, fmap_app. apply NoDup_app. split_and!; [done| |apply NoDup_singleton].
    intros x Hx ->%list_elem_of_singleton. by apply Hid.
  - rewrite (Permutation_app_comm [r]), app_assoc, omap_app. apply NoDup_app. cbn. rewrite Hk. split_and!; [done| |apply NoDup_singleton].
    intros x Hx ->%list_elem_of_singleton. by eapply Hkey.
  - rewrite Forall_app in Hr. rewrite !Forall_app, Forall_singleton. split_and!; [apply Hr| |apply Hr].
    intros c Hc. rewrite Htr. by apply Hfk.
Qed.

Lemma ledger_ok_same d d' : same_ledger d d' → ledger_ok d → ledger_ok d'.
Proof using. intros [Hl Hc] [H1 H2 H3]. split; unfold ids, keys in *; by rewrite ?Hl, ?Hc. Qed.

(** One call of the service. *)
Inductive step : World → World → Prop :=
| step_process env s rec cred rid w o w' :
    rivals_ok env (db w) → ProcessWithRecordID env s rec cred rid w = (o, w') → step w w'.

Lemma step_ok w w' : step w w' → ledger_ok (db w) → ledger_ok (db w') ∧ evidence_records (db w) `prefix_of` evidence_records (db w').
Proof using.
  intros [env s rec cred rid w1 o w1' Hr Hp] Hok.
  apply Process_cases in Hp as [[_ Hs]|(rec' & p & r & d & -> & _ & _ & Ha & _ & Hl & Hc)].
  - split; [by eapply ledger_ok_same|]. by rewrite (proj1 Hs).
  - split; [eapply (ledger_ok_same (with_records d (evidence_records d ++ env_rivals env))); [done|by eapply appended_ok]|].
    rewrite Hl. destruct Ha; cbn; [by apply prefix_app_r|rewrite <- app_assoc; by apply prefix_app_r|by apply prefix_app_r].
Qed.

(** C9: the ledger is append-only and idempotency keys are unique: whatever the calls
    and whatever other transactions commit beside them, every ledger reached
    extends the one it came from, and has one row per record id, one per tenant
    and idempotency key, and no row for a control its tenant does not have. *)
Theorem ledger_append_only w w' :
  ledger_ok (db w) → rtc step w w' → ledger_ok (db w') ∧ evidence_records (db w) `prefix_of` evidence_records (db w').
Proof using.
  intros Hok. induction 1 as [|w1 w2 w3 Hs _ IH]; [done|]. destruct (step_ok _ _ Hs Hok) as [Hok2 Hp].
  destruct (IH Hok2) as [? ?]. split; [done|]. by etrans.
Qed.

(** ** The hash does not depend on when a record is pushed *)

Lemma Apply_nil p : Redact.Apply p [] = Ok p.
Proof using. by destruct p. Qed.

Lemma redacted_det s cred rec r1 r2 : redacted s cred rec r1 → redacted s cred rec r2 → r1 = r2.
Proof using.
  intros [[-> H1]|(f & rules & q & Hf & Hr & Hq & ->)] [[-> H2]|(f' & rules' & q' & Hf' & Hr' & Hq' & ->)]; [done| | |].
  - rewrite Hf', Hr' in H1. injection H1 as ->. rewrite Apply_nil in Hq'. injection Hq' as <-. by destruct rec.
  - rewrite Hf, Hr in H2. injection H2 as ->. rewrite Apply_nil in Hq. injection Hq as <-. by destruct rec.
  - congruence.
Qed.

Lemma checks_hash env env' s rec cred p p' :
  checks env s rec cred = Ok p → checks env' s rec cred = Ok p' → pr_hash p' = pr_hash p.
Proof using.
  intros H%checks_Ok H'%checks_Ok. pose proof (cl_hash _ _ _ _ _ H) as Hh. pose proof (cl_hash _ _ _ _ _ H') as Hh'.
  rewrite (redacted_det _ _ _ _ _ (cl_redacted _ _ _ _ _ H') (cl_redacted _ _ _ _ _ H)) in Hh'. congruence.
Qed.

(** What passed the checks passes them again while its time is near enough the
    clock's. *)
Lemma checks_again env env' s rec cred p :
  checks env s rec cred = Ok p →
  (∀ ts, ObservedAt rec = Some ts → Z.abs (AsTime ts - env_clock env') ≤ MaxObservedAtSkew) →
  ∃ p', checks env' s rec cred = Ok p'.
Proof using.
  intros H Hskew. unfold checks in *.
  apply result_bind_Ok in H as ([] & E1 & H). rewrite E1. cbn [mbind result_bind].
  assert (Hobs : is_Some (ObservedAt rec)).
  { destruct (missingField rec) eqn:Hm; [done|]. clear -Hm. unfold missingField in Hm. repeat (case_bool_decide; [done|]).
    destruct (ObservedAt rec); [by eexists|done]. }
  destruct Hobs as [ts Hts]. specialize (Hskew ts Hts). rewrite Hts in *. cbn [default id] in *.
  apply result_bind_Ok in H as ([] & _ & H).
  assert (Hs : (- MaxObservedAtSkew <=? Sub (AsTime ts) (env_clock env')) && (Sub (AsTime ts) (env_clock env') <=? MaxObservedAtSkew) = true).
  { unfold Sub, MaxObservedAtSkew, time_Hour in *. apply andb_true_iff. rewrite !Z.leb_le. lia. }
  rewrite Hs. cbn [require mbind result_bind].
  apply result_bind_Ok in H as (json & E3 & H). rewrite E3. cbn [mbind result_bind].
  apply result_bind_Ok in H as ([] & E4 & H). rewrite E4. cbn [mbind result_bind].
  apply result_bind_Ok in H as ([] & E5 & H). rewrite E5. cbn [mbind result_bind].
  apply result_bind_Ok in H as ([] & E6 & H). rewrite E6. cbn [mbind result_bind].
  apply result_bind_Ok in H as ([rec' json'] & E7 & H).
  assert (E7' : redact_payload env' s cred rec json = Ok (rec', json')).
  { unfold redact_payload in *. destruct (RedactionRulesFor (valid s)) as [l|]; [|done].
    destruct (l _ _ _) as [[|x xs]|]; [done| |done]. destruct (Redact.Apply _ _) as [red|]; [|done]. by destruct (protojson_Marshal _). }
  rewrite E7'. cbn [mbind result_bind].
  apply result_bind_Ok in H as ([] & E8 & H). rewrite E8. cbn [mbind result_bind].
  apply result_bind_Ok in H as ([] & E9 & H). unfold require in E9. destruct (_ || _) in E9 |- *; [|done]. cbn [require mbind result_bind].
  apply result_bind_Ok in H as (h & E10 & H). rewrite E10. cbn [mbind result_bind].
  apply result_bind_Ok in H as (re & E11 & H). rewrite E11. cbn [mbind result_bind].
  apply result_bind_Ok in H as (tc & E12 & H). destruct (WithTenant _ _) as [c|]; [|done]. eauto.
Qed.

(** ** Repeated pushes *)

Lemma append_found env s cred rid p d r :
  pg_text (IdempotencyKey (pr_record p)) = true →
  row_of (uuid_Parse (TenantID cred)) (IdempotencyKey (pr_record p)) d = Some r →
  append env s cred rid p (mkSession d false) =
  (if bool_decide (er_Hash r = pr_hash p) then Ok (r, true) else Err TxMismatch, mkSession d false).
Proof using.
  intros Hk Hr. unfold append, tx_try, stmt. cbn [aborted s_db]. rewrite GetEvidenceRecord_row, Hr by done.
  unfold dedup, tx_fail, mret, tx_ret. by repeat case_bool_decide.
Qed.

(** On a healthy pool the transaction commits what its function did. *)
Lemma run_append_healthy env s rec cred rid p w :
  env_infra env = healthy → TenantID cred ≠ "" → checks env s rec cred = Ok p →
  run_append env s cred rid p w =
  let '(r, se) := append env s cred rid p (mkSession (db w) false) in
  (r, arrive env (mkWorld (match r with Ok _ => s_db se | Err _ => db w end) (sink w))).
Proof using.
  intros Hi Ht Hc. unfold run_append, withTx. rewrite Hi. cbn [begin_ok negb healthy].
  destruct (cl_tenant _ _ _ _ _ (checks_Ok _ _ _ _ _ Hc)) as [_ ->].
  unfold ApplyTenant, TenantFromContext. cbn [ctx_tenant]. rewrite (bool_decide_eq_false_2 _ Ht). cbn [mbind result_bind set_config_ok healthy].
  by destruct (append _ _ _ _ _ _) as [[] ?].
Qed.

(** A call that finds the key answers by the hash alone. *)
Lemma Process_found env s rec cred rid p w r :
  env_infra env = healthy → TenantID cred ≠ "" → checks env s rec cred = Ok p →
  pg_text (IdempotencyKey (pr_record p)) = true →
  row_of (uuid_Parse (TenantID cred)) (IdempotencyKey (pr_record p)) (db w) = Some r →
  let '(o, w') := ProcessWithRecordID env s (Some rec) cred rid w in
  o = outcome_of cred (if bool_decide (er_Hash r = pr_hash p) then Ok (r, true) else Err TxMismatch) ∧
  evidence_records (db w') = evidence_records (db w) ++ env_rivals env ∧ controls (db w') = controls (db w).
Proof using.
  intros Hi Ht Hc Hk Hr. pose proof (Process_Some env s rec cred rid p w Ht Hc) as HP.
  rewrite (run_append_healthy _ _ _ _ _ _ _ Hi Ht Hc), (append_found _ _ _ _ _ _ r Hk Hr) in HP.
  destruct (ProcessWithRecordID _ _ _ _ _ _) as [o w']. destruct HP as [-> [Hl Hctl]]. rewrite Hl, Hctl.
  by destruct (bool_decide (er_Hash r = pr_hash p)).
Qed.

(** A call that does not find it inserts. *)
Lemma append_missing env s cred rid p d :
  pg_text (IdempotencyKey (pr_record p)) = true →
  row_of (uuid_Parse (TenantID cred)) (IdempotencyKey (pr_record p)) d = None →
  match InsertEvidenceRecord (env_now env) (env_rivals env) (uuid_Parse (TenantID cred)) (insert_params env s cred rid p) d with
  | Ok (r, d') => append env s cred rid p (mkSession d false) = (Ok (r, false), mkSession d' false)
  | Err e => ∃ se, append env s cred rid p (mkSession d false) = (Err (TxFailed (FInsert e)), se)
  end.
Proof using.
  intros Hk Hr. unfold append, tx_try, stmt. cbn [aborted s_db]. rewrite GetEvidenceRecord_row, Hr by done.
  change (bool_decide (NoRows = NoRows)) with true. cbn [negb aborted s_db].
  destruct (InsertEvidenceRecord _ _ _ _ d) as [[r d']|[]]; try done; eauto.
Qed.

Lemma Process_missing env s rec cred rid p w :
  env_infra env = healthy → TenantID cred ≠ "" → checks env s rec cred = Ok p →
  pg_text (IdempotencyKey (pr_record p)) = true →
  row_of (uuid_Parse (TenantID cred)) (IdempotencyKey (pr_record p)) (db w) = None →
  let '(o, w') := ProcessWithRecordID env s (Some rec) cred rid w in
  match InsertEvidenceRecord (env_now env) (env_rivals env) (uuid_Parse (TenantID cred)) (insert_params env s cred rid p) (db w) with
  | Ok (r, d') => o = outcome_of cred (Ok (r, false)) ∧ evidence_records (db w') = evidence_records d' ++ env_rivals env
  | Err e => o = outcome_of cred (Err (TxFailed (FInsert e))) ∧ evidence_records (db w') = evidence_records (db w) ++ env_rivals env
  end.
Proof using.
  intros Hi Ht Hc Hk Hr. pose proof (Process_Some env s rec cred rid p w Ht Hc) as HP.
  rewrite (run_append_healthy _ _ _ _ _ _ _ Hi Ht Hc) in HP. pose proof (append_missing env s cred rid p (db w) Hk Hr) as HA.
  destruct (ProcessWithRecordID _ _ _ _ _ _) as [o w'].
  destruct (InsertEvidenceRecord _ _ _ _ _) as [[r d']|e]; [rewrite HA in HP|destruct HA as [se HA]; rewrite HA in HP];
    destruct HP as [-> [Hl _]]; by rewrite Hl.
Qed.

(** A mismatch is answered only where the key is. *)
Lemma run_append_mismatch env s cred rid p w w' :
  run_append env s cred rid p w = (Err TxMismatch, w') →
  ∃ r, row_of (uuid_Parse (TenantID cred)) (IdempotencyKey (pr_record p)) (db w) = Some r ∧ er_Hash r ≠ pr_hash p.
Proof using.
  unfold run_append, withTx. destruct (negb _); [done|]. destruct (ApplyTenant _ _); [|done].
  destruct (pg_text (IdempotencyKey (pr_record p))) eqn:Hk.
  - destruct (row_of (uuid_Parse (TenantID cred)) (IdempotencyKey (pr_record p)) (db w)) as [r|] eqn:Hr.
    + rewrite (append_found _ _ _ _ _ _ r Hk Hr). case_bool_decide; [by destruct (commit_ok _)|]. intros _. by exists r.
    + pose proof (append_missing env s cred rid p (db w) Hk Hr) as HA.
      destruct (InsertEvidenceRecord _ _ _ _ _) as [[r d']|e]; [rewrite HA; by destruct (commit_ok _)|]. destruct HA as [se ->]. done.
  - unfold append, tx_try, stmt. cbn [aborted s_db]. unfold GetEvidenceRecordByIdempotency. by rewrite Hk.
Qed.

(** What an answer without error left in the ledger. *)
Lemma Process_receipt env s rec cred rid w o w' :
  ProcessWithRecordID env s (Some rec) cred rid w = (o, w') → error o = None →
  ∃ t r p, uuid_Parse (TenantID cred) = Some t ∧ TenantID cred ≠ "" ∧ checks env s rec cred = Ok p ∧ r ∈ evidence_records (db w') ∧
    idem_key r = Some (t, IdempotencyKey rec) ∧ pg_text (IdempotencyKey rec) = true ∧ er_Hash r = pr_hash p ∧
    receipt o = mkReceipt (uuid_String (er_ID r)) (er_Hash r) (er_IngestedAt r) (ID cred) (bool_decide (decision o = DecisionDeduplicated)).
Proof using.
  intros H Ho. apply Process_cases in H as [[Hne _]|(rec' & p & res & d & [= ->] & Ht & Hc & Ha & -> & Hl & _)]; [done|].
  assert (Hkey : IdempotencyKey (pr_record p) = IdempotencyKey rec').
  { apply checks_Ok, cl_redacted, redacted_fields in Hc as [q ->]. done. }
  destruct (cl_tenant _ _ _ _ _ (checks_Ok _ _ _ _ _ Hc)) as [[t Hp] _].
  destruct Ha as [r Hk Hr Hh|t' r Hr Ht' Hs Htx Hcf Hfk|[]]; try done.
  - rewrite Hkey in *. rewrite Hp in Hr. apply row_of_elem in Hr as [Hr Hi]. exists t, r, p. split_and!; try done.
    rewrite Hl. apply elem_of_app. by left.
  - destruct (new_row_key _ _ _ _ _ _ _ Hs) as (Hi & Htr & Hh & _). rewrite Hkey in *. exists t', r, p. split_and!; try done.
    + rewrite Hl. cbn. rewrite !elem_of_app, list_elem_of_singleton. by left; right.
    + apply stored_row_fields in Hs as (_ & _ & _ & Hik & _). unfold texts_ok in Htx. rewrite Hik in Htx. cbn in Htx. rewrite Hkey in Htx.
      by repeat (apply andb_prop in Htx as [Htx ?]).
Qed.

(** C1: pushing is idempotent on the key: after a push that was accepted, and
    whatever was appended since, a push under the same tenant and key that passes
    the checks writes nothing; it is answered with the first receipt's id, hash and
    time when its content hash is the first one's, which it is for the same record,
    and rejected as a mismatch otherwise. *)
Theorem push_idempotent env s rec cred rid w o w1 env2 s2 rec2 cred2 rid2 p2 w2 o2 w3 :
  ProcessWithRecordID env s (Some rec) cred rid w = (o, w1) → error o = None →
  evidence_records (db w1) `prefix_of` evidence_records (db w2) → ledger_ok (db w2) →
  env_infra env2 = healthy → TenantID cred2 = TenantID cred → IdempotencyKey rec2 = IdempotencyKey rec →
  checks env2 s2 rec2 cred2 = Ok p2 →
  ProcessWithRecordID env2 s2 (Some rec2) cred2 rid2 w2 = (o2, w3) →
  evidence_records (db w3) = evidence_records (db w2) ++ env_rivals env2 ∧
  (if bool_decide (pr_hash p2 = Hash (receipt o))
   then error o2 = None ∧ decision o2 = DecisionDeduplicated ∧ RecordID (receipt o2) = RecordID (receipt o) ∧
        Hash (receipt o2) = Hash (receipt o) ∧ IngestedAt (receipt o2) = IngestedAt (receipt o)
   else error o2 = Some ErrIdempotencyMismatch ∧ decision o2 = DecisionRejectedIdempotencyMismatch) ∧
  (s2 = s → rec2 = rec → cred2 = cred → pr_hash p2 = Hash (receipt o)).
Proof using.
  intros H1 Ho Hpre Hok Hi Ht Hkey Hc2 H2.
  destruct (Process_receipt _ _ _ _ _ _ _ _ H1 Ho) as (t & r & p & Hp & Hne & Hc & Hr & Hk & Htxt & Hh & Hrec).
  assert (Hkey2 : IdempotencyKey (pr_record p2) = IdempotencyKey rec).
  { pose proof Hc2 as Hx. apply checks_Ok, cl_redacted, redacted_fields in Hx as [q ->]. done. }
  assert (Hrow : row_of (uuid_Parse (TenantID cred2)) (IdempotencyKey (pr_record p2)) (db w2) = Some r).
  { rewrite Hkey2, Ht, Hp. apply row_of_unique; [apply Hok| |done]. destruct Hpre as [l ->]. apply elem_of_app. by left. }
  pose proof (Process_found env2 s2 rec2 cred2 rid2 p2 w2 r Hi) as HP. rewrite H2 in HP.
  destruct HP as (-> & -> & _); [by rewrite Ht|done|by rewrite Hkey2|done|].
  assert (Hho : Hash (receipt o) = er_Hash r) by by rewrite Hrec.
  split_and!; [done| |].
  - rewrite Hho. destruct (decide (er_Hash r = pr_hash p2)) as [E|E].
    + rewrite !bool_decide_eq_true_2 by done. by rewrite Hrec.
    + rewrite (bool_decide_eq_false_2 (er_Hash r = _)), (bool_decide_eq_false_2 (pr_hash p2 = _)) by congruence. done.
  - intros -> -> ->. rewrite Hho, Hh. by eapply checks_hash.
Qed.

(** ** What is accepted *)

(** A part of a scope predicate, as a requirement on the record's scope. *)
Definition part_holds (scope : list ScopeDimension) (part : string) : Prop :=
  TrimSpace part = "" ∨
  ∃ k v d, cut_on "=" (TrimSpace part) = Some (k, v) ∧ d ∈ scope ∧ Key d = TrimSpace k ∧ TrimSpace v ∈ Values d.

Lemma scopeSatisfiesPredicate_holds scope predicate part :
  scopeSatisfiesPredicate scope predicate = true → part ∈ split_on "," predicate → part_holds scope part.
Proof using.
  unfold scopeSatisfiesPredicate. rewrite forallb_forall. intros H Hp%list_elem_of_In%H. unfold part_satisfied in Hp.
  case_bool_decide as E; [by left|]. right. destruct (cut_on _ _) as [[k v]|]; [|done]. unfold have in Hp.
  destruct (last _) as [d|] eqn:El; [|done]. cbn in Hp. apply bool_decide_eq_true in Hp.
  apply last_Some in El as [l El]. assert (Hd : d ∈ select_where (λ d, bool_decide (Key d = TrimSpace k)) scope).
  { rewrite El. apply elem_of_app. right. by left. }
  apply elem_of_select_where in Hd as [Hk%bool_decide_eq_true Hd]. by exists k, v, d.
Qed.

Lemma get_fmap (f : any → any) m k : get (map (λ kv, (kv.1, f kv.2)) m) k = f <$> get m k.
Proof using. induction m as [|[a v] m IH]; [done|]. cbn. case_bool_decide; [done|apply IH]. Qed.

Lemma at_path_unsigned path : ∀ v, at_path path (unsigned_zero v) = unsigned_zero <$> at_path path v.
Proof using.
  induction path as [|[k|i] path IH]; intros v; [by destruct v| |].
  - destruct v as [| |[]| | |m]; try done. cbn. rewrite get_fmap. destruct (get m k); [apply IH|done].
  - destruct v as [| |[]| |items|]; try done. cbn. rewrite list_lookup_fmap. destruct (items !! i); [apply IH|done].
Qed.

(** What the rules cover is gone from what the ledger gives back. *)
Lemma redacted_ledger s cred rec rec' q f rules :
  redacted s cred rec rec' → Payload rec ≠ None → AObj q = unsigned_zero (AObj (default [] (Payload rec'))) →
  RedactionRulesFor (valid s) = Some f → f (TenantID cred) (EvidenceKind rec) (SchemaVersion rec) = Ok rules →
  ∀ rule segs pos x, rule ∈ rules → Redact.parseRule rule = Some segs → covered segs pos = true →
    at_path pos (AObj q) = Some x → x = AStr Redact.Marker.
Proof using.
  intros Hred Hpl Hq Hf Hr rule segs pos x Hin Hparse Hcov. rewrite Hq, at_path_unsigned.
  destruct Hred as [[-> H]|(f' & rules' & q' & Hf' & Hr' & Ha & ->)].
  { rewrite Hf, Hr in H. injection H as ->. by apply elem_of_nil in Hin. }
  simplify_eq. rewrite Hr in Hr'. injection Hr' as <-. destruct (Payload rec) as [p|]; [|done]. cbn.
  destruct q' as [p'|].
  2:{ unfold Redact.Apply in Ha. repeat case_match; by simplify_eq. }
  cbn. intros (y & Hy & ->)%fmap_Some.
  by rewrite (proj1 (proj2 (Apply_redacts p rules p' Ha)) rule segs pos y Hin Hparse Hcov Hy).
Qed.

(** C2: nothing enters the ledger unchecked: an accepted push appends exactly one
    row, under the credential's tenant, for a record whose kind the credential may
    push and the registry knows, whose scope has every value the credential's
    predicate asks for, which was observed within 24 hours of its arrival and whose
    payload the schema validated; and what the ledger gives back of the payload
    holds only the marker wherever a redaction rule of the kind reaches. *)
Theorem accepted_was_allowed env s rec cred rid w o w' :
  ProcessWithRecordID env s (Some rec) cred rid w = (o, w') → decision o = DecisionAccepted →
  ∃ row ts json q,
    evidence_records (db w') = evidence_records (db w) ++ row :: env_rivals env ∧
    RecordID (receipt o) = uuid_String (er_ID row) ∧ Hash (receipt o) = er_Hash row ∧
    uuid_Parse (TenantID cred) = Some (er_TenantID row) ∧ er_CredentialID row = ptrStr (ID cred) ∧
    er_IdempotencyKey row = Some (IdempotencyKey rec) ∧ er_EvidenceKind row = ptrStr (EvidenceKind rec) ∧
    (Kinds cred = [] ∨ EvidenceKind rec ∈ Kinds cred) ∧ registered s cred rec = true ∧
    (ScopePredicate cred = "" ∨ ∀ part, part ∈ split_on "," (ScopePredicate cred) → part_holds (Scope rec) part) ∧
    ObservedAt rec = Some ts ∧ Z.abs (AsTime ts - env_clock env) ≤ MaxObservedAtSkew ∧
    protojson_Marshal (default [] (Payload rec)) = Ok json ∧
    ValidatePayload (valid s) (TenantID cred) (EvidenceKind rec) (SchemaVersion rec) json = None ∧
    (Z.of_nat (String.length json) ≤ MaxPayloadBytes ∨ PayloadUri rec ≠ None) ∧
    protojson_Unmarshal (er_Payload row) = Some q ∧
    ∀ f rules rule segs pos x,
      RedactionRulesFor (valid s) = Some f → f (TenantID cred) (EvidenceKind rec) (SchemaVersion rec) = Ok rules →
      rule ∈ rules → Redact.parseRule rule = Some segs → covered segs pos = true →
      at_path pos (AObj q) = Some x → x = AStr Redact.Marker.
Proof using.
  intros H Hd. destruct (Process_cases _ _ _ _ _ _ _ _ H) as [[Hne _]|(rec' & p & res & d & [= ->] & Ht & Hc & Ha & -> & Hl & _)].
  { by destruct (Process_rejected _ _ _ _ _ _ _ _ H Hne). }
  destruct Ha as [r _ _ _|t r _ Ht' Hs _ _ _|[]]; try done. apply checks_Ok in Hc.
  destruct (new_row _ _ _ _ _ _ _ Hs) as (payload & Hpl & Hrow).
  destruct (redacted_fields _ _ _ _ (cl_redacted _ _ _ _ _ Hc)) as [q0 Hq0].
  destruct (missingField_None _ (cl_fields _ _ _ _ _ Hc)) as (ts & Hts & Hpay & _).
  destruct (cl_size _ _ _ _ _ Hc) as (json & Hj & Hsz & Hv).
  destruct (protojson_stored _ _ _ (cl_bytes _ _ _ _ _ Hc) Hpl) as (_ & q & Hq & Hu).
  exists r, ts, json, q. rewrite Hl. cbn [evidence_records with_records]. rewrite <- app_assoc.
  destruct Hrow as (Htn & Hcr & Hk & Hkind & Hp). rewrite Hq0 in Hk, Hkind. rewrite Htn, Hp, Hcr, Hk, Hkind.
  split_and!; try done.
  - apply Hc.
  - apply Hc.
  - destruct (cl_predicate _ _ _ _ _ Hc) as [?|Hpr]; [by left|right]. intros part. by apply scopeSatisfiesPredicate_holds.
  - by apply Hc.
  - intros f rules rule segs pos x Hf Hr. by apply (redacted_ledger s cred rec' (pr_record p) q f rules (cl_redacted _ _ _ _ _ Hc)).
Qed.

(** A push that loses the race for its key is answered with an internal error:
    when another transaction commits a row of the same tenant and key between the
    lookup and the insert, the insert violates the unique index, the transaction is
    aborted, and the second lookup, meant to find that row and answer
    "deduplicated", fails; even if the row has the same content hash. *)
Theorem lost_race_is_internal_error env s rec cred rid w p t r rival o w' :
  checks env s rec cred = Ok p → uuid_Parse (TenantID cred) = Some t → env_infra env = healthy →
  row_of (Some t) (IdempotencyKey rec) (db w) = None →
  stored_row (env_now env) (insert_params env s cred rid p t) = Some r → texts_ok r = true → checks_ok r = true →
  rival ∈ env_rivals env → idem_key rival = Some (t, IdempotencyKey rec) →
  TenantID cred ≠ "" → ProcessWithRecordID env s (Some rec) cred rid w = (o, w') →
  decision o = DecisionRejectedInternalError ∧ error o = Some (ErrFailure (FInsert UniqueViolation)) ∧
  evidence_records (db w') = evidence_records (db w) ++ env_rivals env ∧
  (er_Hash rival = pr_hash p → ∃ row, row ∈ evidence_records (db w') ∧ er_Hash row = pr_hash p ∧ idem_key row = Some (t, IdempotencyKey rec)).
Proof using.
  intros Hc Ht Hi Hr Hs Htx Hck Hriv Hk Hne HP.
  assert (Hkey : IdempotencyKey (pr_record p) = IdempotencyKey rec).
  { pose proof Hc as Hc'. apply checks_Ok, cl_redacted, redacted_fields in Hc' as [q ->]. done. }
  destruct (new_row_key _ _ _ _ _ _ _ Hs) as (Hik & _ & _ & _).
  assert (Hpg : pg_text (IdempotencyKey (pr_record p)) = true).
  { apply stored_row_fields in Hs as (_ & _ & _ & Hx & _). unfold texts_ok in Htx. rewrite Hx in Htx. cbn in Htx.
    by repeat (apply andb_prop in Htx as [Htx ?]). }
  pose proof (Process_missing env s rec cred rid p w Hi Hne Hc Hpg) as HM. rewrite HP, Hkey, Ht in HM. specialize (HM Hr).
  assert (Hins : InsertEvidenceRecord (env_now env) (env_rivals env) (Some t) (insert_params env s cred rid p) (db w) = Err UniqueViolation).
  { unfold InsertEvidenceRecord. rewrite Hs, Htx, Hck. cbn [andb negb].
    replace (existsb (conflicts r) (evidence_records (db w) ++ env_rivals env)) with true; [done|].
    symmetry. apply existsb_exists. exists rival. split; [by apply list_elem_of_In, elem_of_app; right|].
    unfold conflicts. rewrite Hik, Hk, Hkey. by rewrite (bool_decide_eq_true_2 (Some _ = Some _)), orb_true_r. }
  rewrite Hins in HM. destruct HM as [-> Hl]. split_and!; [done..|]. intros Hh. exists rival. rewrite Hl, elem_of_app. by auto.
Qed.
End Spec.
End IngestSpec.
