(* ===== verification/EvidenceVerifySpec.v ===== *)
(** * Verification of the ledger: accepted rows verify, and none is skipped

    The canonical scope and the source attribution read back from their jsonb
    columns, so that the record rebuilt from an accepted row is the one that was
    hashed; and the walk checks every row of a tenant once and ends. *)

From Stdlib Require Import Ascii SpecFloat.
From S2P Require Import Prelude GoTime Tenancy Json Sha256 Float64 Scope GoJson EvalState Postgres Redact RedactSpec EvidenceRecord Ingest EvidenceVerify IngestSpec.
Import Evidence Ingest.

Module VerifySpec.
Import IngestSpec Verify.

(** ** Sorted scopes *)

Definition scope_text (scope : list ScopeDimension) : bool :=
  forallb (λ d, utf8_valid (Key d) && forallb utf8_valid (Values d)) scope.

Lemma string_le_anti : AntiSymm (=) String.le.
Proof. apply _. Qed.

Lemma sort_strings_sorted vs : merge_sort String.le (merge_sort String.le vs) = merge_sort String.le vs.
Proof.
  apply (StronglySorted_unique String.le).
  - apply StronglySorted_merge_sort; apply _.
  - apply StronglySorted_merge_sort; apply _.
  - by rewrite merge_sort_Permutation.
Qed.

Section Sorted.
Context {GS : GoSort}.

Definition sort_values (d : ScopeDimension) : ScopeDimension := mkDimension (Key d) (merge_sort String.le (Values d)).

Lemma sortedScope_eq scope : canonjson.sortedScope scope = match scope with [] => [] | _ => sort_Slice (sort_values <$> scope) end.
Proof using. done. Qed.

Lemma sortedScope_perm scope : canonjson.sortedScope scope ≡ₚ sort_values <$> scope.
Proof using. rewrite sortedScope_eq. destruct scope; [done|apply sort_Slice_perm]. Qed.

Lemma key_sort_values (scope : list ScopeDimension) : Key <$> (sort_values <$> scope) = Key <$> scope.
Proof using. by rewrite <- list_fmap_compose. Qed.

(** Distinct keys have one sorted order. *)
Lemma sort_Slice_unique l k : NoDup (Key <$> l) → k ≡ₚ l → StronglySorted dimension_le k → sort_Slice l = k.
Proof using.
  intros Hnd Hp Hs. apply (StronglySorted_unique_strong dimension_le).
  - intros x y. rewrite sort_Slice_perm. intros Hx Hy Hxy Hyx. eapply (NoDup_key_inj Key l); [done|done| |].
    + by rewrite <- Hp.
    + by apply (anti_symm String.le).
  - apply sort_Slice_sorted.
  - done.
  - by rewrite sort_Slice_perm, Hp.
Qed.

Lemma sortedScope_idem scope :
  NoDup (Key <$> scope) → canonjson.sortedScope (canonjson.sortedScope scope) = canonjson.sortedScope scope.
Proof using.
  intros Hnd. destruct scope as [|d scope]; [done|].
  assert (Hv : sort_values <$> canonjson.sortedScope (d :: scope) = canonjson.sortedScope (d :: scope)).
  { rewrite <- (list_fmap_id (canonjson.sortedScope _)) at 2. apply list_fmap_ext. intros i x Hx%list_elem_of_lookup_2.
    rewrite sortedScope_perm in Hx. apply list_elem_of_fmap in Hx as (y & -> & _). unfold sort_values. cbn. by rewrite sort_strings_sorted. }
  assert (Hne : canonjson.sortedScope (d :: scope) ≠ []).
  { intros E. pose proof (sortedScope_perm (d :: scope)) as Hp. rewrite E in Hp. by apply Permutation_nil_l in Hp. }
  rewrite (sortedScope_eq (canonjson.sortedScope _)). destruct (canonjson.sortedScope (d :: scope)) as [|x l] eqn:E; [done|].
  rewrite Hv. apply sort_Slice_unique; [|done|rewrite <- E; apply sort_Slice_sorted].
  rewrite <- E, sortedScope_perm, key_sort_values. done.
Qed.
End Sorted.

(** ** The scope column *)

Lemma forallb_Forall {A} (f : A → bool) l : forallb f l = true ↔ Forall (λ x, f x = true) l.
Proof. rewrite forallb_forall, Forall_forall. by setoid_rewrite list_elem_of_In. Qed.

Lemma dimension_json_writable d :
  utf8_valid (Key d) = true → forallb utf8_valid (Values d) = true → writable (canonjson.dimension_json d).
Proof.
  intros Hk Hv. apply writable_obj. constructor; [|constructor; [|done]]; (split; [done|]); cbn.
  - by constructor.
  - destruct (Values d) as [|v vs] eqn:E; [constructor|]. constructor.
    apply forallb_Forall in Hv. apply (proj2 (Forall_fmap JStr _ (v :: vs))). eapply Forall_impl; [exact Hv|]. intros x Hx. by constructor.
Qed.

Lemma height_strings vs : (height (JArr (JStr <$> vs)) ≤ 1)%nat.
Proof.
  cbn. apply le_n_S. change (map height (JStr <$> vs)) with (height <$> (JStr <$> vs)). rewrite <- list_fmap_compose.
  apply max_list_le, Forall_fmap, Forall_forall. intros x _. cbn. lia.
Qed.

Lemma scope_json_decodes {GS : GoSort} scope :
  scope ≠ [] → scope_text scope = true →
  decode_all (canonjson.MarshalCanonicalScope scope) = Some (JArr (canonjson.dimension_json <$> canonjson.sortedScope scope)).
Proof.
  intros Hne Ht. unfold canonjson.MarshalCanonicalScope. destruct scope as [|d scope]; [done|].
  assert (Hall : Forall (λ d, utf8_valid (Key d) = true ∧ forallb utf8_valid (Values d) = true) (canonjson.sortedScope (d :: scope))).
  { rewrite sortedScope_perm. apply Forall_fmap. apply forallb_Forall in Ht. eapply Forall_impl; [exact Ht|].
    intros x [Hk Hv]%andb_prop. split; [done|]. cbn. apply forallb_Forall. rewrite merge_sort_Permutation. by apply forallb_Forall. }
  apply (decode_render go_quote).
  - constructor. apply Forall_fmap. eapply Forall_impl; [exact Hall|]. intros x [Hk Hv]. by apply dimension_json_writable.
  - transitivity 3%nat; [|by apply Nat.leb_le]. cbn. apply le_n_S, max_list_le.
    change (map height ?l) with (height <$> l). rewrite <- list_fmap_compose. apply Forall_fmap, Forall_forall. intros x _. cbn.
    destruct (Values x) as [|v vs]; [by auto with arith|]. pose proof (height_strings (v :: vs)). cbn in *. lia.
Qed.

Lemma scope_json_number_free l : number_free (JArr (canonjson.dimension_json <$> l)) = true.
Proof.
  cbn. apply forallb_Forall, Forall_fmap, Forall_forall. intros d _. cbn. destruct (Values d) as [|v vs]; [done|].
  rewrite andb_true_r. apply forallb_Forall, (proj2 (Forall_fmap JStr _ (v :: vs))), Forall_forall. done.
Qed.

Lemma to_any_str x k : to_any x = JStr k → x = JStr k.
Proof. by destruct x. Qed.

Lemma to_any_strings x vs : to_any x = JArr (JStr <$> vs) → x = JArr (JStr <$> vs).
Proof.
  destruct x as [| | | |l|]; try done. cbn. intros [= H]. f_equal. revert vs H.
  induction l as [|x l IH]; intros [|v vs] H; try done. cbn in H |- *. injection H as Hx Hl. by rewrite (to_any_str _ _ Hx), (IH vs Hl).
Qed.

Lemma decode_elems_strings vs : Scope.decode_elems Scope.decode_string "" (JStr <$> vs) [] = (vs, [], false).
Proof. induction vs as [|v vs IH]; [done|]. cbn. by rewrite IH. Qed.

Lemma to_any_two j a x b y :
  String.compare a b = Lt → distinct_keys j = true → to_any j = JObj [(a, x); (b, y)] →
  ∃ x' y', to_any x' = x ∧ to_any y' = y ∧ (j = JObj [(a, x'); (b, y')] ∨ j = JObj [(b, y'); (a, x')]).
Proof.
  intros Hab Hd Hj. destruct j as [| | | | |ms]; try done. cbn in Hd, Hj. apply andb_prop in Hd as [Hn%bool_decide_eq_true _].
  injection Hj as Hj. assert (Hp : map (λ kv, (kv.1, to_any kv.2)) ms ≡ₚ [(a, x); (b, y)]).
  { rewrite <- Hj. symmetry. apply map_of_perm. by rewrite fst_map. }
  pose proof (Permutation_length Hp) as Hl. destruct ms as [|[k1 v1] [|[k2 v2] [|]]]; try done. cbn in Hp.
  apply Permutation_length_2 in Hp as [[E1 E2]|[E1 E2]]; injection E1 as -> E1; injection E2 as -> E2.
  - exists v1, v2. by auto.
  - exists v2, v1. by auto.
Qed.

Lemma decode_key k ms d :
  canonjson.decode_dim_fields (("key", JStr k) :: ms) d =
  canonjson.decode_dim_fields ms (canonjson.mkSlots k (canonjson.sl_Values d) (canonjson.sl_spare d)).
Proof.
  cbn [canonjson.decode_dim_fields Scope.decode_string]. change (bool_decide (Scope.foldName "key" = "KEY")) with true.
  cbn beta iota. by destruct (canonjson.decode_dim_fields _ _).
Qed.

Lemma decode_vals v ms k vs spare :
  Scope.decode_values v None [] = (Some vs, spare, false) →
  canonjson.decode_dim_fields (("values", v) :: ms) (canonjson.mkSlots k None []) =
  canonjson.decode_dim_fields ms (canonjson.mkSlots k (Some vs) spare).
Proof.
  intros H. cbn [canonjson.decode_dim_fields canonjson.sl_Key canonjson.sl_Values canonjson.sl_spare].
  change (bool_decide (Scope.foldName "values" = "KEY")) with false. change (bool_decide (Scope.foldName "values" = "VALUES")) with true.
  cbn beta iota. rewrite H. by destruct (canonjson.decode_dim_fields _ _).
Qed.

(** One dimension, whatever the order of its members. *)
Lemma decode_dim_read j d :
  Values d ≠ [] → distinct_keys j = true → to_any j = to_any (canonjson.dimension_json d) →
  ∃ spare, canonjson.decode_dim j canonjson.slots_zero = (canonjson.mkSlots (Key d) (Some (Values d)) spare, false).
Proof.
  intros Hv Hd Hj. unfold canonjson.dimension_json in Hj. destruct d as [k vs]. cbn [Key Values] in *.
  destruct vs as [|v vs]; [done|].
  assert (E : to_any (JObj [("key", JStr k); ("values", JArr (JStr <$> v :: vs))]) = JObj [("key", JStr k); ("values", JArr (JStr <$> v :: vs))]).
  { cbn. do 5 f_equal. rewrite <- (map_id (JStr <$> vs)) at 2. change (fmap JStr vs) with (map JStr vs). rewrite !map_map. f_equal. }
  rewrite E in Hj. apply to_any_two in Hj as (x & y & ->%to_any_str & ->%to_any_strings & Hj); [|done|done].
  assert (Hdec : Scope.decode_values (JArr (JStr <$> v :: vs)) None [] = (Some (v :: vs), [], false)).
  { pose proof (decode_elems_strings (v :: vs)) as H. cbn in H |- *. by rewrite H. }
  exists []. unfold canonjson.decode_dim, canonjson.slots_zero.
  destruct Hj as [-> | ->].
  - rewrite decode_key. by rewrite (decode_vals _ _ _ _ _ Hdec).
  - rewrite (decode_vals _ _ _ _ _ Hdec). by rewrite decode_key.
Qed.

Lemma decode_elems_dims items ds :
  Forall2 (λ j d, ∃ spare, canonjson.decode_dim j canonjson.slots_zero = (canonjson.mkSlots (Key d) (Some (Values d)) spare, false)) items ds →
  ∃ sl, Scope.decode_elems canonjson.decode_dim canonjson.slots_zero items [] = (sl, [], false) ∧
        (λ d, mkDimension (canonjson.sl_Key d) (default [] (canonjson.sl_Values d))) <$> sl = ds.
Proof.
  induction 1 as [|j [k vs] items ds (spare & Hj) _ (sl & Hsl & Hds)]; [by exists []|]. cbn. rewrite Hj, Hsl.
  eexists. split; [done|]. cbn. by rewrite Hds.
Qed.

(** The column reads back as the sorted scope. *)
Lemma stored_scope {JB : JsonB} {GS : GoSort} scope t :
  scope ≠ [] → Forall (λ d, Values d ≠ []) scope → scope_text scope = true →
  jsonb_in (canonjson.MarshalCanonicalScope scope) = Some t →
  t ≠ "" ∧ canonjson.UnmarshalCanonicalScope t = Some (canonjson.sortedScope scope).
Proof.
  intros Hne Hv Ht Hj. destruct (jsonb_same _ _ _ Hj (scope_json_decodes _ Hne Ht) (scope_json_number_free _)) as (w & Hw & Hd & Hany).
  destruct w as [| | | |items|]; try done. cbn in Hany. injection Hany as Hany. cbn in Hd. apply forallb_Forall in Hd.
  assert (Hit : Forall2 (λ j d, ∃ spare, canonjson.decode_dim j canonjson.slots_zero =
    (canonjson.mkSlots (Key d) (Some (Values d)) spare, false)) items (canonjson.sortedScope scope)).
  { assert (Hvs : Forall (λ d, Values d ≠ []) (canonjson.sortedScope scope)).
    { rewrite sortedScope_perm. apply Forall_fmap. eapply Forall_impl; [exact Hv|]. intros d Hd' E. apply Hd'. cbn in E.
      apply Permutation_nil_r. rewrite <- E. symmetry. apply merge_sort_Permutation. }
    clear Hw. revert Hany Hd Hvs. generalize (canonjson.sortedScope scope) as ds.
    induction items as [|j items IH]; intros [|d ds] Hany Hd Hvs; try done. cbn in Hany. injection Hany as Hj1 Hj2.
    apply Forall_cons in Hd as [Hd1 Hd2]. apply Forall_cons in Hvs as [Hv1 Hv2]. constructor; [by apply decode_dim_read|by apply IH]. }
  destruct (decode_elems_dims _ _ Hit) as (sl & Hsl & Hds).
  assert (Hts : t ≠ "" ∧ t ≠ "null") by (split; by intros ->).
  split; [apply Hts|]. unfold canonjson.UnmarshalCanonicalScope. rewrite !bool_decide_eq_false_2 by apply Hts. cbn.
  rewrite Hw, Hsl. by rewrite Hds.
Qed.

(** ** The source attribution column *)

Definition source_text (sa : SourceAttribution) : bool :=
  utf8_valid (ActorType sa) && utf8_valid (ActorId sa) && utf8_valid (SessionId sa).

Definition source_members (sa : SourceAttribution) : list (string * json) :=
  [("actor_id", JStr (ActorId sa)); ("actor_type", JStr (ActorType sa)); ("session_id", JStr (SessionId sa))].

Lemma stored_source {JB : JsonB} rec sa t :
  Source rec = Some sa → source_text sa = true → jsonb_in (source_json rec) = Some t →
  t ≠ "" ∧ decode_source t = Some sa.
Proof.
  intros Hs Ht Hj. unfold source_json in Hj. rewrite Hs in Hj. cbn [default] in Hj.
  apply andb_prop in Ht as [[Ht1 Ht2]%andb_prop Ht3].
  assert (Hdec : decode_all (render go_quote (JObj (source_members sa))) = Some (JObj (source_members sa))).
  { apply (decode_render go_quote); [|by apply Nat.leb_le]. constructor.
    repeat (constructor; [split; [done|by constructor]|]). constructor. }
  destruct (jsonb_same _ _ _ Hj Hdec eq_refl) as (w & Hw & Hd & Hany). split; [by intros ->|].
  destruct w as [| | | | |ms]; try done. cbn in Hd. apply andb_prop in Hd as [Hn%bool_decide_eq_true _].
  assert (Hp : map (λ kv, (kv.1, to_any kv.2)) ms ≡ₚ source_members sa).
  { change (to_any (JObj (source_members sa))) with (JObj (source_members sa)) in Hany. cbn [to_any] in Hany. injection Hany as Hany.
    rewrite <- Hany. symmetry. apply map_of_perm. by rewrite fst_map. }
  unfold decode_source. rewrite Hw.
  set (vs := [SStr (ActorType sa); SStr (ActorId sa); SStr (SessionId sa)]).
  assert (Hmem : ∀ k j, (k, j) ∈ ms → (k, j) ∈ source_members sa).
  { intros k j Hin. assert (Hin' : (k, to_any j) ∈ source_members sa).
    { rewrite <- Hp. by apply (list_elem_of_fmap_2 (λ kv, (kv.1, to_any kv.2)) ms (k, j)). }
    assert (Hj' : to_any j = j); [|by rewrite <- Hj'].
    unfold source_members in Hin'. repeat (apply elem_of_cons in Hin' as [E|Hin']; [injection E as _ E; by rewrite (to_any_str _ _ E)|]).
    by apply elem_of_nil in Hin'. }
  destruct (decode_fields_read false ["ACTOR_TYPE"; "ACTOR_ID"; "SESSION_ID"] ms [SStr ""; SStr ""; SStr ""] vs) as (st & -> & Hk & _ & Hset).
  - repeat constructor.
  - repeat constructor; done.
  - intros k j [E|[E|[E|E%elem_of_nil]%elem_of_cons]%elem_of_cons]%Hmem%elem_of_cons; [injection E as -> ->..|done].
    + by exists 1%nat, "ACTOR_ID", (SStr (ActorId sa)).
    + by exists 0%nat, "ACTOR_TYPE", (SStr (ActorType sa)).
    + by exists 2%nat, "SESSION_ID", (SStr (SessionId sa)).
  - assert (Hin : ∀ k s, (k, JStr s) ∈ source_members sa → (k, JStr s) ∈ ms).
    { intros k s Hin. rewrite <- Hp in Hin. apply list_elem_of_In, in_map_iff in Hin as ([k' j] & [= -> E] & Hin).
      apply list_elem_of_In. by rewrite <- (to_any_str _ _ E). }
    assert (E0 : st !! 0%nat = Some (SStr (ActorType sa))) by (eapply (Hset "actor_type"); [apply Hin; right; left|vm_compute; reflexivity]).
    assert (E1 : st !! 1%nat = Some (SStr (ActorId sa))) by (eapply (Hset "actor_id"); [apply Hin; left|vm_compute; reflexivity]).
    assert (E2 : st !! 2%nat = Some (SStr (SessionId sa))) by (eapply (Hset "session_id"); [apply Hin; right; right; left|vm_compute; reflexivity]).
    apply Forall2_length in Hk. destruct st as [|a [|b [|c []]]]; try done. cbn in E0, E1, E2. simplify_eq. by destruct sa.
Qed.

(** ** Accepted rows verify *)

Section Verifies.
Context {UT : UUIDText} {JB : JsonB} {PM : ProtoMarshal} {PJ : ProtoJson} {GS : GoSort} {SP : StructPB}.

(** What the columns can hold of a record, [pl] being its payload after redaction:
    a timestamp in canonical form, within the range of an int64 of nanoseconds,
    UTF-8 text, one dimension per key, no unknown fields and no negative zero. *)
Record reproducible (rec : EvidenceRecord) (pl : list (string * any)) : Prop := {
  rp_observed : ∃ ts, ObservedAt rec = Some ts ∧ 0 ≤ Nanos ts < ns_per_second ∧ - 2 ^ 63 ≤ AsTime ts - unix_epoch < 2 ^ 63;
  rp_source : ∃ sa, Source rec = Some sa ∧ source_text sa = true;
  rp_scope : scope_text (Scope rec) = true ∧ NoDup (Key <$> Scope rec);
  rp_known : Unknown rec = "";
  rp_zero : unsigned_zero (AObj pl) = AObj pl;
}.

Lemma NewTimestamp_UnixNano ts :
  0 ≤ Nanos ts < ns_per_second → - 2 ^ 63 ≤ AsTime ts - unix_epoch < 2 ^ 63 →
  NewTimestamp (of_UnixNano (UnixNano (AsTime ts))) = ts.
Proof using.
  intros Hn Hr. unfold UnixNano, of_UnixNano, NewTimestamp. rewrite int64_small by lia.
  unfold AsTime in *. destruct ts as [s n]. cbn [Seconds Nanos] in *. unfold ns_per_second in *. f_equal.
  - replace (unix_epoch + _ - unix_epoch) with (n + s * 1000000000) by lia. rewrite Z.div_add by lia. rewrite Z.div_small by lia. lia.
  - replace (unix_epoch + _ - unix_epoch) with (n + s * 1000000000) by lia. rewrite Z.mod_add by lia. by rewrite Z.mod_small by lia.
Qed.

Lemma result_roundtrip r e : protoResultToEnum r = Some e → resultEnumToProto e = r.
Proof using. by destruct r; intros [= <-]. Qed.

Lemma deref_ptrStr v : deref (ptrStr v) = v.
Proof using. unfold ptrStr. by case_bool_decide. Qed.

Lemma decode_column_Some {A} raw (f : string → option A) e a : raw ≠ "" → f raw = Some a → decode_column raw f e = Ok (Some a).
Proof using. intros Hr Hf. unfold decode_column. by rewrite bool_decide_eq_false_2, Hf. Qed.

Lemma new_row_columns env s cred rid p t r :
  stored_row (env_now env) (insert_params env s cred rid p t) = Some r →
  jsonb_in (pr_payloadJSON p) = Some (er_Payload r) ∧ jsonb_in (pr_source p) = Some (er_SourceAttribution r) ∧
  (∃ sc, er_ScopeCanonical r = Some sc ∧ jsonb_in (pr_scopeCanonical p) = Some sc) ∧
  er_ObservedAtNanos r = Some (UnixNano (pr_observed p)) ∧ er_IdempotencyKey r = Some (IdempotencyKey (pr_record p)) ∧
  er_EvidenceKind r = ptrStr (EvidenceKind (pr_record p)) ∧ er_SchemaVersion r = ptrStr (SchemaVersion (pr_record p)) ∧
  er_ControlRef r = ControlId (pr_record p) ∧ er_Result r = pr_result p ∧ er_PayloadUri r = PayloadUri (pr_record p) ∧ er_Hash r = pr_hash p.
Proof using.
  unfold stored_row. cbn. destruct (jsonb_in (pr_provenance p)); [|done]. destruct (jsonb_in (pr_payloadJSON p)) as [payload|]; [|done].
  destruct (jsonb_in (pr_source p)); [|done]. destruct (jsonb_in (pr_scopeCanonical p)) as [sc|]; [|done]. intros [= <-].
  cbn. split_and!; try done. by exists sc.
Qed.

(** The record rebuilt from a new row is the one that was hashed, its scope sorted. *)
Lemma RecordFromLedgerRow_new env s rec cred rid p t r pl :
  checks env s rec cred = Ok p → Payload (pr_record p) = Some pl → reproducible rec pl →
  stored_row (env_now env) (insert_params env s cred rid p t) = Some r →
  RecordFromLedgerRow r = Ok (with_scope (pr_record p) (canonjson.sortedScope (Scope rec))).
Proof using.
  intros Hc%checks_Ok Hpl Hrp Hs. destruct (new_row_columns _ _ _ _ _ _ _ Hs) as (Hp & Hsrc & (sc & Hsc & Hscj) & Hn & Hk & Hkind & Hv & Hctl & Hres & Huri & _).
  destruct (redacted_fields _ _ _ _ (cl_redacted _ _ _ _ _ Hc)) as [q Hq].
  destruct (cl_columns _ _ _ _ _ Hc) as (Hobs & Hscope & Hsource).
  destruct (rp_observed _ _ Hrp) as (ts & Hts & Hns & Hrange). destruct (rp_source _ _ Hrp) as (sa & Hsa & Hst).
  destruct (rp_scope _ _ Hrp) as [Htext Hnd]. destruct (missingField_None _ (cl_fields _ _ _ _ _ Hc)) as (_ & _ & _ & _ & Hne & Hdims).
  rewrite Hscope in Hscj. destruct (stored_scope _ _ Hne (Forall_impl _ _ _ Hdims (λ d H, proj2 H)) Htext Hscj) as [Hsc1 Hsc2].
  rewrite Hsource in Hsrc. destruct (stored_source _ _ _ Hsa Hst Hsrc) as [Hsrc1 Hsrc2].
  destruct (protojson_stored _ _ _ (cl_bytes _ _ _ _ _ Hc) Hp) as (Hp1 & q' & Hp2 & Hq').
  rewrite Hpl in Hq'. cbn [default from_option] in Hq'. unfold id in Hq'. rewrite (rp_zero _ _ Hrp) in Hq'. injection Hq' as ->.
  unfold RecordFromLedgerRow. rewrite Hsc, Hn, Hk, Hkind, Hv, Hctl, Hres, Huri, !deref_ptrStr. cbn [default from_option].
  rewrite (decode_column_Some _ _ _ _ Hsc1 Hsc2), (decode_column_Some _ _ _ _ Hp1 Hp2), (decode_column_Some _ _ _ _ Hsrc1 Hsrc2).
  unfold mbind, result_bind. rewrite Hobs, Hts. cbn [default from_option]. unfold id. rewrite NewTimestamp_UnixNano by done.
  rewrite (result_roundtrip _ _ (cl_result _ _ _ _ _ Hc)). rewrite Hq in Hpl |- *. cbn in Hpl. unfold with_scope, with_payload. cbn.
  f_equal. rewrite Hpl, <- Hts, <- Hsa, <- (rp_known _ _ Hrp). done.
Qed.

(** C8: ingestion and verification agree: from the row an accepted push appends,
    the verifier rebuilds the record that was hashed, with its scope sorted, and
    recomputes the hash of the receipt, for every record the columns can hold. *)
Theorem accepted_row_verifies env s rec cred rid w o w' p pl :
  ProcessWithRecordID env s (Some rec) cred rid w = (o, w') → decision o = DecisionAccepted →
  checks env s rec cred = Ok p → Payload (pr_record p) = Some pl → reproducible rec pl →
  ∃ row, evidence_records (db w') = evidence_records (db w) ++ row :: env_rivals env ∧
    RecordFromLedgerRow row = Ok (with_scope (pr_record p) (canonjson.sortedScope (Scope rec))) ∧
    VerifyLedgerRow row = Ok (true, Hash (receipt o)).
Proof using.
  intros H Hd Hc Hpl Hrp.
  destruct (Process_cases _ _ _ _ _ _ _ _ H) as [[Hne _]|(rec' & p' & res & d & [= ->] & Ht & Hc' & Ha & -> & Hl & _)].
  { by destruct (Process_rejected _ _ _ _ _ _ _ _ H Hne). }
  rewrite Hc in Hc'. injection Hc' as <-. destruct Ha as [r _ _ _|t r _ Ht' Hs _ _ _|[]]; try done.
  exists r. rewrite Hl. cbn [evidence_records with_records]. rewrite <- app_assoc.
  assert (Hrec := RecordFromLedgerRow_new _ _ _ _ _ _ _ _ _ Hc Hpl Hrp Hs). split_and!; [done|done|].
  unfold VerifyLedgerRow, LedgerRowHash. rewrite Hrec. cbn [mbind result_bind].
  apply checks_Ok in Hc. pose proof (cl_hash _ _ _ _ _ Hc) as Hh. destruct (redacted_fields _ _ _ _ (cl_redacted _ _ _ _ _ Hc)) as [q Hq].
  assert (Hsame : canonjson.HashRecord (with_scope (pr_record p) (canonjson.sortedScope (Scope rec'))) = Ok (pr_hash p)).
  { rewrite <- Hh. unfold canonjson.HashRecord. rewrite Hq. cbn [Scope with_scope with_payload].
    rewrite sortedScope_idem by apply (rp_scope _ _ Hrp). done. }
  rewrite Hsame. cbn. destruct (new_row_key _ _ _ _ _ _ _ Hs) as (_ & _ & -> & _). by rewrite bool_decide_eq_true_2.
Qed.
End Verifies.

(** ** The walk *)

Section Walk.
Context {JB : JsonB} {PM : ProtoMarshal} {PJ : ProtoJson} {GS : GoSort}.

Definition row_lt (a b : EvidenceRow) : Prop := (er_ID a < er_ID b)%N.

Lemma strict_sort l : NoDup (er_ID <$> l) → StronglySorted row_lt (merge_sort row_le l).
Proof using.
  intros Hnd. assert (Hs : StronglySorted row_le (merge_sort row_le l)).
  { apply StronglySorted_merge_sort; intros x y; [intros z|]; unfold row_le; lia. }
  assert (Hnd' : NoDup (er_ID <$> merge_sort row_le l)) by by rewrite merge_sort_Permutation.
  induction Hs as [|x k Hs IH Hx]; [constructor|]. apply NoDup_cons in Hnd' as [Hni Hnd']. constructor; [by apply IH|].
  rewrite Forall_forall in Hx |- *. intros y Hy. specialize (Hx y Hy). unfold row_lt, row_le in *.
  assert (er_ID x ≠ er_ID y); [|lia]. intros E. apply Hni. rewrite E. by apply list_elem_of_fmap_2.
Qed.

Lemma strict_unique l k : StronglySorted row_lt l → StronglySorted row_lt k → l ≡ₚ k → l = k.
Proof using. intros Hl Hk. apply (StronglySorted_unique_strong row_lt); [|done..]. intros x y _ _. unfold row_lt. lia. Qed.

(** A tenant's rows after an identifier, in order. *)
Definition rows_after (d : DB) (tenantID cursor : UUID) : list EvidenceRow :=
  merge_sort row_le (select_where (λ r, bool_decide (er_TenantID r = tenantID) && bool_decide (cursor < er_ID r)%N) (evidence_records d)).

Lemma rows_after_strict d t c : NoDup (ids d) → StronglySorted row_lt (rows_after d t c).
Proof using.
  intros Hnd. apply strict_sort. eapply sublist_NoDup; [exact Hnd|]. apply fmap_sublist, sublist_filter.
Qed.

Lemma rows_after_ids d t c : NoDup (ids d) → NoDup (er_ID <$> rows_after d t c).
Proof using.
  intros Hnd. unfold rows_after. rewrite merge_sort_Permutation. unfold select_where.
  eapply sublist_NoDup; [exact Hnd|]. apply fmap_sublist, sublist_filter.
Qed.

Lemma elem_of_rows_after d t c r : r ∈ rows_after d t c ↔ r ∈ evidence_records d ∧ er_TenantID r = t ∧ (c < er_ID r)%N.
Proof using. unfold rows_after. rewrite merge_sort_Permutation, elem_of_select_where, andb_true_iff, !bool_decide_eq_true. naive_solver. Qed.

(** The rows after the last of a page are the rest. *)
Lemma rows_after_page d t c page rest r :
  NoDup (ids d) → rows_after d t c = (page ++ [r]) ++ rest → rows_after d t (er_ID r) = rest.
Proof using.
  intros Hnd E. pose proof (rows_after_strict d t c Hnd) as Hs. rewrite E in Hs.
  apply StronglySorted_app in Hs as (Hlt & Hs1 & Hs2).
  apply strict_unique; [by apply rows_after_strict|done|].
  apply NoDup_Permutation.
  - by apply (NoDup_fmap_1 er_ID), rows_after_ids.
  - apply (NoDup_fmap_1 er_ID). pose proof (rows_after_ids d t c Hnd) as Hn.
    rewrite E, fmap_app in Hn. by apply NoDup_app in Hn as (_ & _ & ?).
  - intros x. rewrite elem_of_rows_after. split.
    + intros (Hx & Ht & Hid). assert (Hin : x ∈ rows_after d t c).
      { apply elem_of_rows_after. split_and!; [done..|]. assert (Hr : r ∈ rows_after d t c) by (rewrite E; set_solver).
        apply elem_of_rows_after in Hr as (_ & _ & Hr). lia. }
      rewrite E in Hin. apply elem_of_app in Hin as [Hin|?]; [|done]. exfalso.
      apply elem_of_app in Hin as [Hin| ->%list_elem_of_singleton]; [|lia].
      apply StronglySorted_app in Hs1 as (Hlt1 & _ & _). specialize (Hlt1 x r Hin). unfold row_lt in Hlt1. specialize (Hlt1 ltac:(left)). lia.
    + intros Hx. assert (Hin : x ∈ rows_after d t c) by (rewrite E; set_solver). apply elem_of_rows_after in Hin as (? & ? & ?).
      split_and!; [done..|]. apply (Hlt r x); [set_solver|done].
Qed.

Lemma walk_pages_spec fuel d t ps c n ms :
  NoDup (ids d) → 0 < ps → (length (rows_after d t c) < fuel)%nat →
  walk_pages fuel t c ps d n ms = Some (n + Z.of_nat (length (rows_after d t c)), ms ++ concat (check_row t <$> rows_after d t c)).
Proof using.
  intros Hnd Hps. revert c n ms. induction fuel as [|fuel IH]; intros c n ms Hf; [lia|]. cbn [walk_pages].
  unfold WalkEvidenceRecordsForVerify. fold (rows_after d t c).
  destruct (take (Z.to_nat ps) (rows_after d t c)) as [|r page] eqn:E.
  - assert (Hnil : rows_after d t c = []).
    { destruct (rows_after d t c) as [|x l]; [done|]. destruct (Z.to_nat ps) eqn:Ep; [lia|done]. }
    rewrite Hnil. cbn. by rewrite Z.add_0_r, app_nil_r.
  - assert (Hl : ∃ page' z, r :: page = page' ++ [z] ∧ List.last (r :: page) r = z).
    { destruct (exists_last (l := r :: page) ltac:(done)) as (page' & z & Ez). exists page', z. split; [done|]. rewrite Ez. apply last_last. }
    destruct Hl as (page' & z & Ez & ->).
    assert (Hsplit : rows_after d t c = (page' ++ [z]) ++ drop (Z.to_nat ps) (rows_after d t c)) by by rewrite <- Ez, <- E, take_drop.
    pose proof (rows_after_page d t c page' _ z Hnd Hsplit) as Hrest.
    rewrite IH; rewrite Hrest.
    + rewrite Ez. revert Hsplit. generalize (drop (Z.to_nat ps) (rows_after d t c)) as rest. intros rest Hsplit.
      rewrite Hsplit, (length_app (page' ++ [z])), (fmap_app _ (page' ++ [z])), concat_app, app_assoc. f_equal. f_equal. lia.
    + rewrite Hsplit in Hf at 1. rewrite !length_app in Hf. cbn in Hf. lia.
Qed.

(** C24: the walk ends and skips nothing: with unique record ids, whatever the page
    size, it returns, having checked each row of the tenant exactly once, in the
    order of the ids, the row with the zero id excepted; so it reports exactly the
    rows that do not verify. *)
Theorem walkTenant_complete d t ps :
  NoDup (ids d) → 0 < ps →
  ∃ rows, rows ≡ₚ select_where (λ r, bool_decide (er_TenantID r = t) && bool_decide (uuid_Nil < er_ID r)%N) (evidence_records d) ∧
    StronglySorted row_lt rows ∧
    walkTenant t ps d = Some (Z.of_nat (length rows), concat (check_row t <$> rows)) ∧
    ∀ m, m ∈ concat (check_row t <$> rows) ↔
      ∃ r, r ∈ rows ∧ m_tenant m = t ∧ m_record m = er_ID r ∧ m_stored m = er_Hash r ∧
        match VerifyLedgerRow r with Ok (ok, h) => ok = false ∧ m_recomputed m = h | Err _ => m_recomputed m = "" end.
Proof using.
  intros Hnd Hps. exists (rows_after d t uuid_Nil). split_and!.
  - apply merge_sort_Permutation.
  - by apply rows_after_strict.
  - unfold walkTenant. rewrite walk_pages_spec; [by rewrite Z.add_0_l|done|done|]. unfold rows_after.
    rewrite merge_sort_Permutation. apply le_n_S. unfold select_where. apply length_filter.
  - intros m. rewrite list_elem_of_In, in_concat. setoid_rewrite <- list_elem_of_In. setoid_rewrite list_elem_of_fmap. split.
    + intros (ms & (r & -> & Hr) & Hm). exists r. split; [done|]. unfold check_row in Hm.
      destruct (VerifyLedgerRow r) as [[[] h]|]; [by apply elem_of_nil in Hm|..]; apply list_elem_of_singleton in Hm as ->; done.
    + intros (r & Hr & Ht & Hid & Hst & Hv). exists (check_row t r). split; [by exists r|]. unfold check_row.
      destruct m as [a b c h']. cbn in *. subst.
      destruct (VerifyLedgerRow r) as [[ok h]|]; [destruct Hv as [-> ->]|subst]; by left.
Qed.
End Walk.
End VerifySpec.
