(* ===== verification/StreamBufSpec.v ===== *)
(** * The evidence stream buffer: what a receipt is worth

    A message carries the credential of its publisher; however often it is
    delivered, it appends at most one row, under the identifier of the receipt, and
    one healthy delivery in time is enough; a delivery more than a day after the
    observation loses the record, and a second publish of a key within two minutes
    is acknowledged and dropped. *)

From Stdlib Require Import Ascii SpecFloat.
From S2P Require Import Prelude GoTime Tenancy Json Sha256 Float64 Scope GoJson EvalState Postgres Redact RedactSpec EvidenceRecord Ingest EvidenceVerify IngestSpec StreamBuf.
Import Evidence Ingest.

Module StreamSpec.
Import IngestSpec StreamBuf.

(** ** Headers *)

Definition no_comma (s : string) : bool := bool_decide (cut_on "," s = None).

Lemma split_on_app c a s : cut_on c a = None → split_on c (a +:+ String c s) = a :: split_on c s.
Proof.
  induction a as [|x a IH]; cbn [cut_on].
  - intros _. rewrite str_nil_app. cbn. destruct (split_on c s) eqn:E; [by apply split_on_nonempty in E|]. by rewrite bool_decide_eq_true_2.
  - case_bool_decide as Hx; [done|]. destruct (cut_on c a) as [[]|]; [done|]. intros _. rewrite str_app_cons. cbn [split_on].
    rewrite IH by done. by rewrite bool_decide_eq_false_2.
Qed.

Lemma split_on_none c a : cut_on c a = None → split_on c a = [a].
Proof.
  induction a as [|x a IH]; [done|]. cbn [cut_on]. case_bool_decide as Hx; [done|]. destruct (cut_on c a) as [[]|]; [done|]. intros _.
  cbn [split_on]. rewrite IH by done. by rewrite bool_decide_eq_false_2.
Qed.

Lemma split_join ks : ks ≠ [] → Forall (λ k, no_comma k = true) ks → split_on "," (join "," ks) = ks.
Proof.
  induction ks as [|k ks IH]; [done|]. intros _ [Hk%bool_decide_eq_true Hks]%Forall_cons.
  destruct ks as [|k' ks]; [by apply split_on_none|].
  change (join "," (k :: k' :: ks)) with (k +:+ "," +:+ join "," (k' :: ks)).
  rewrite str_app_cons, str_nil_app, split_on_app by done. by rewrite IH.
Qed.

Lemma join_empty ks : join "," ks = "" → ks = [] ∨ ks = [""].
Proof.
  destruct ks as [|k [|k' ks]]; cbn [join]; [by left|by intros ->; right|]. destruct k; [|done]. done.
Qed.

Lemma uuid_char_solid c : uuid_char c = true → solid c = true ∧ (32 <=? code c)%N = true ∧ code c ≠ 127%N.
Proof.
  intros H. assert (Hr : (33 ≤ code c ≤ 126)%N).
  { unfold uuid_char in H. rewrite !orb_true_iff, !andb_true_iff, !N.leb_le, N.eqb_eq in H. lia. }
  unfold solid, between. rewrite (proj2 (N.ltb_lt _ _)), (proj2 (N.leb_gt (code c) 13)), andb_false_r by lia.
  rewrite bool_decide_eq_false_2 by lia. split_and!; [done|apply N.leb_le; lia|lia].
Qed.

(** The text of an identifier is carried as it is. *)
Lemma uuid_header s : s ≠ "" → uuid_text s = true → header_text s = true.
Proof.
  intros Hne Hs. assert (H : all_solid s = true ∧ printable s = true).
  { clear Hne. induction s as [|c s IH]; [done|]. cbn in Hs. apply andb_prop in Hs as [Hc Hs].
    destruct (uuid_char_solid c Hc) as (H1 & H2 & H3), (IH Hs) as [H4 H5]. cbn. rewrite H1, H4, H2, H5. by rewrite bool_decide_eq_false_2. }
  destruct H as [Hsol Hpr]. unfold header_text. rewrite Hpr. apply bool_decide_eq_true. destruct s as [|c s]; [done|].
  apply TrimSpace_id; [by apply andb_prop in Hsol as [? _]|by apply all_solid_last].
Qed.

(** A credential the headers can carry. *)
Record carriable (cred : Credential) : Prop := {
  ca_texts : header_text (ID cred) = true ∧ header_text (TenantID cred) = true ∧ header_text (ScopePredicate cred) = true ∧
             header_text (join "," (Kinds cred)) = true;
  ca_kinds : Kinds cred ≠ [""] ∧ Forall (λ k, no_comma k = true) (Kinds cred);
}.

Section Stream.
Context {UT : UUIDText} {JB : JsonB} {PM : ProtoMarshal} {PJ : ProtoJson} {GS : GoSort} {SP : StructPB} {PW : ProtoWire} {V5 : UUIDv5} {JS : JetStream}.

(** The consumer acts for the credential of the publisher. *)
Lemma header_credential_message rec cred data rid :
  carriable cred → header_credential (Headers (message rec cred data rid)) = cred.
Proof using.
  intros [(H1 & H2 & H3 & H4) [H5 H6]]. unfold header_credential. cbn. rewrite !carried_text by done.
  destruct cred as [i t p ks]. cbn in *. f_equal. case_bool_decide as E.
  - by apply join_empty in E as [->|].
  - apply split_join; [|done]. by intros ->.
Qed.

Lemma message_receipt rec cred data rid : pgUUIDFromHeader (carried (HeaderReceiptRecordID (Headers (message rec cred data rid)))) = Some rid.
Proof using.
  unfold pgUUIDFromHeader. cbn. rewrite carried_text; [apply uuid_Parse_String|]. apply uuid_header; [apply uuid_String_nonempty|apply uuid_String_text].
Qed.

Lemma handle_message env svc rec cred data rid c w :
  carriable cred → wire_Marshal rec = Some data →
  handle env svc (message rec cred data rid) c w =
  let '(o, w') := ProcessWithRecordID env svc (Some rec) cred (Some rid) w in
  match error o with
  | Some _ => (if isPoison (decision o) then Term else Nak, c, w')
  | None =>
      (Ack, mkConsumer (processed c + 1) (if bool_decide (decision o = DecisionDeduplicated) then reprocessed c + 1 else reprocessed c), w')
  end.
Proof using.
  intros Hc Hw. unfold handle. rewrite (header_credential_message _ _ _ _ Hc), message_receipt. cbn [Data message]. by rewrite (wire_roundtrip _ _ Hw).
Qed.

(** ** Deliveries *)

(** The key of a record is taken, in a ledger without repeated keys. *)
Definition key_taken (cred : Credential) (rec : EvidenceRecord) (d : DB) : Prop :=
  ∃ t r, uuid_Parse (TenantID cred) = Some t ∧ row_of (Some t) (IdempotencyKey rec) d = Some r.

Lemma appended_key env s cred rid rec p d r d' :
  checks env s rec cred = Ok p → appended env s cred rid p d r d' →
  evidence_records d' = evidence_records d ∨
  ¬ key_taken cred rec d ∧ ∃ row t, evidence_records d' = evidence_records d ++ [row] ∧ er_ID row = default (env_newID env) rid ∧
     uuid_Parse (TenantID cred) = Some t ∧ idem_key row = Some (t, IdempotencyKey rec) ∧ er_Hash row = pr_hash p.
Proof using.
  intros Hc Ha. assert (Hkey : IdempotencyKey (pr_record p) = IdempotencyKey rec).
  { apply checks_Ok, cl_redacted, redacted_fields in Hc as [q ->]. done. }
  destruct Ha as [r _ _ _|t r Hr Ht Hs _ _ _|]; [by left| |by left]. right. split.
  - intros (t' & r' & Ht' & Hr'). rewrite Hkey, Ht' in Hr. congruence.
  - destruct (new_row_key _ _ _ _ _ _ _ Hs) as (Hi & _ & Hh & Hid). exists r, t. rewrite Hkey in Hi. by split_and!.
Qed.

Lemma key_taken_app cred rec d d' l : key_taken cred rec d → evidence_records d' = evidence_records d ++ l → key_taken cred rec d'.
Proof using.
  intros (t & r & Ht & Hr) E. exists t. unfold row_of in *. rewrite E, select_where_app.
  destruct (select_where _ (evidence_records d)) as [|x xs]; [done|]. injection Hr as ->. by exists r.
Qed.

(** One delivery: nothing, or the first row of the key. *)
Lemma handle_appends env svc rec cred data rid c w st c' w' :
  carriable cred → wire_Marshal rec = Some data → env_rivals env = [] →
  handle env svc (message rec cred data rid) c w = (st, c', w') →
  evidence_records (db w') = evidence_records (db w) ∨
  ¬ key_taken cred rec (db w) ∧ ∃ row t, evidence_records (db w') = evidence_records (db w) ++ [row] ∧ er_ID row = rid ∧
     uuid_Parse (TenantID cred) = Some t ∧ idem_key row = Some (t, IdempotencyKey rec).
Proof using.
  intros Hca Hw Hriv. rewrite handle_message by done. destruct (ProcessWithRecordID _ _ _ _ _ _) as [o w1] eqn:HP. intros Hh.
  assert (w' = w1) as -> by by destruct (error o); injection Hh as _ _ <-.
  apply Process_cases in HP as [[_ [Hl _]]|(rec' & p & r & d & [= <-] & _ & Hc & Ha & _ & Hl & _)]; [by left|].
  rewrite Hriv, app_nil_r in Hl. rewrite Hl. destruct (appended_key _ _ _ _ _ _ _ _ _ Hc Ha) as [->|[Hk (row & t & H1 & H2 & H3 & H4 & _)]]; [by left|].
  right. split; [done|]. by exists row, t.
Qed.

Lemma key_taken_new cred rec d d' row t :
  uuid_Parse (TenantID cred) = Some t → idem_key row = Some (t, IdempotencyKey rec) →
  evidence_records d' = evidence_records d ++ [row] → key_taken cred rec d'.
Proof using.
  intros Ht Hi E. exists t. destruct (row_of (Some t) (IdempotencyKey rec) d') as [r|] eqn:Hr; [by exists r|].
  eapply (row_of_None _ _ _ row) in Hr; [done|]. rewrite E. apply elem_of_app. right. by left.
Qed.

(** However often the message comes. *)
Lemma deliver_appends envs svc rec cred data rid : ∀ c w c' w',
  carriable cred → wire_Marshal rec = Some data → Forall (λ e, env_rivals e.1 = []) envs →
  deliver envs svc (message rec cred data rid) c w = (c', w') →
  evidence_records (db w') = evidence_records (db w) ∨
  ¬ key_taken cred rec (db w) ∧ ∃ row t, evidence_records (db w') = evidence_records (db w) ++ [row] ∧ er_ID row = rid ∧
     uuid_Parse (TenantID cred) = Some t ∧ idem_key row = Some (t, IdempotencyKey rec).
Proof using.
  induction envs as [|[env lost] envs IH]; intros c w c' w' Hca Hw Hr; [intros [= _ <-]; by left|].
  apply Forall_cons in Hr as [Hr1 Hr2]. cbn [deliver]. destruct (handle _ _ _ _ _) as [[st c1] w1] eqn:Hh.
  apply handle_appends in Hh; [|done..].
  assert (Hgo : deliver envs svc (message rec cred data rid) c1 w1 = (c', w') →
    evidence_records (db w') = evidence_records (db w) ∨
    ¬ key_taken cred rec (db w) ∧ ∃ row t, evidence_records (db w') = evidence_records (db w) ++ [row] ∧ er_ID row = rid ∧
      uuid_Parse (TenantID cred) = Some t ∧ idem_key row = Some (t, IdempotencyKey rec)).
  { intros Hd. destruct (IH _ _ _ _ Hca Hw Hr2 Hd) as [E|[Hk (row & t & E & H2 & H3 & H4)]].
    - by rewrite E.
    - destruct Hh as [E1|[Hk1 (row1 & t1 & E1 & _ & Ht1 & Hi1)]].
      + right. split; [|exists row, t; by rewrite E, E1].
        intros Hkt. apply Hk. apply (key_taken_app _ _ (db w) _ []); [done|]. by rewrite app_nil_r.
      + destruct Hk. exact (key_taken_new _ _ _ _ _ _ Ht1 Hi1 E1). }
  destruct st; [destruct lost| |].
  - exact Hgo.
  - intros [= _ <-]. exact Hh.
  - exact Hgo.
  - intros [= _ <-]. exact Hh.
Qed.

(** A first delivery either stores the record or leaves the message for another. *)
Lemma handle_fresh env svc rec cred data rid p c w st c' w' :
  carriable cred → wire_Marshal rec = Some data → env_rivals env = [] → TenantID cred ≠ "" → checks env svc rec cred = Ok p →
  ¬ key_taken cred rec (db w) →
  handle env svc (message rec cred data rid) c w = (st, c', w') →
  st = Ack ∧ (∃ row, evidence_records (db w') = evidence_records (db w) ++ [row]) ∧ key_taken cred rec (db w') ∨
  st = Nak ∧ same_ledger (db w) (db w').
Proof using.
  intros Hca Hw Hriv Ht Hc Hk. rewrite handle_message by done. destruct (ProcessWithRecordID _ _ _ _ _ _) as [o w1] eqn:HP.
  pose proof (Process_Some env svc rec cred (Some rid) p w Ht Hc) as HS. rewrite HP in HS.
  destruct (run_append _ _ _ _ _ _) as [r w2] eqn:Hr. destruct HS as [-> Hs].
  destruct (run_append_spec _ _ _ _ _ _ _ _ Hr) as (d & Ha & Hd).
  assert (Hkey : IdempotencyKey (pr_record p) = IdempotencyKey rec).
  { pose proof Hc as Hc'. apply checks_Ok, cl_redacted, redacted_fields in Hc' as [q ->]. done. }
  rewrite Hriv in Hd. destruct (cl_tenant _ _ _ _ _ (checks_Ok _ _ _ _ _ Hc)) as [[t Htp] _].
  destruct Hs as [Hs1 Hs2]. rewrite Hd in Hs1, Hs2. cbn in Hs1, Hs2. rewrite app_nil_r in Hs1.
  destruct r as [[row []]|[|f]]; cbn [outcome_of error decision]; intros [= <- _ <-].
  - inversion Ha as [r0 _ Hrow _ E| |]; subst. destruct Hk. exists t, row. by rewrite <- Hkey, <- Htp.
  - left. inversion Ha as [|t0 r0 _ Ht0 Hst _ _ _ E|]; subst. cbn in Hs1. split_and!; [done|by exists row|].
    destruct (new_row_key _ _ _ _ _ _ _ Hst) as (Hi & _). rewrite Hkey in Hi. by eapply key_taken_new.
  - destruct (run_append_mismatch _ _ _ _ _ _ _ Hr) as (row & Hrow & _). destruct Hk. exists t, row. by rewrite <- Hkey, <- Htp.
  - right. inversion Ha; subst. done.
Qed.

(** The statement inserts the row of a delivery. *)
Definition insertable (env : Env) (svc : Service) (rec : EvidenceRecord) (cred : Credential) (rid : UUID) (d : DB) : Prop :=
  ∃ p r d', checks env svc rec cred = Ok p ∧
    InsertEvidenceRecord (env_now env) [] (uuid_Parse (TenantID cred)) (insert_params env svc cred (Some rid) p) d = Ok (r, d').

Lemma insertable_same env svc rec cred rid d d' : same_ledger d d' → insertable env svc rec cred rid d → insertable env svc rec cred rid d'.
Proof using.
  intros [Hl Hc] (p & r & d1 & Hp & Hi). exists p, r. unfold InsertEvidenceRecord in *. rewrite Hl, Hc.
  destruct (uuid_Parse _); [|done]. destruct (stored_row _ _) as [x|]; [|done]. destruct (negb _); [done|]. destruct (existsb _ _); [done|].
  destruct (match er_ControlID x with Some _ => _ | None => _ end); [|done]. injection Hi as -> _. by eexists.
Qed.

Lemma handle_healthy env svc rec cred data rid c w :
  carriable cred → wire_Marshal rec = Some data → env_rivals env = [] → TenantID cred ≠ "" → pg_text (IdempotencyKey rec) = true →
  env_infra env = healthy → insertable env svc rec cred rid (db w) → ¬ key_taken cred rec (db w) →
  ∃ c' w', handle env svc (message rec cred data rid) c w = (Ack, c', w').
Proof using.
  intros Hca Hw Hriv Ht Htxt Hh (p & r & d' & Hp & Hi) Hk.
  assert (Hkey : IdempotencyKey (pr_record p) = IdempotencyKey rec).
  { pose proof Hp as Hc'. apply checks_Ok, cl_redacted, redacted_fields in Hc' as [q ->]. done. }
  destruct (cl_tenant _ _ _ _ _ (checks_Ok _ _ _ _ _ Hp)) as [[t Htp] _].
  pose proof (Process_missing env svc rec cred (Some rid) p w Hh Ht Hp) as HM. rewrite Hkey, Hriv, Hi in HM.
  rewrite handle_message by done. destruct (ProcessWithRecordID _ _ _ _ _ _) as [o w1]. destruct HM as [-> _]; [done| |by eexists _, _].
  destruct (row_of _ _ _) as [row|] eqn:E; [|done]. destruct Hk. exists t, row. by rewrite <- Htp.
Qed.

(** What the ledger asks of the row a delivery would write: the record passes the
    checks and its tenant is a UUID; Postgres accepts its documents and texts and the
    CHECK constraints hold; the receipt's identifier is not in use; and the control
    it names by UUID, if it names one, is a control of the tenant.  (The key being
    free is the other constraint.) *)
Definition storable (env : Env) (svc : Service) (rec : EvidenceRecord) (cred : Credential) (rid : UUID) (d : DB) : Prop :=
  ∃ p t row, checks env svc rec cred = Ok p ∧ uuid_Parse (TenantID cred) = Some t ∧
    stored_row (env_now env) (insert_params env svc cred (Some rid) p t) = Some row ∧
    texts_ok row = true ∧ checks_ok row = true ∧
    (∀ x, x ∈ evidence_records d → er_ID x ≠ rid) ∧
    (∀ c, er_ControlID row = Some c → (t, c) ∈ controls d).

Lemma storable_insertable env svc rec cred rid d :
  storable env svc rec cred rid d → ¬ key_taken cred rec d → insertable env svc rec cred rid d.
Proof using.
  intros (p & t & row & Hp & Ht & Hrow & Htx & Hck & Hid & Hfk) Hk.
  assert (Hkey : IdempotencyKey (pr_record p) = IdempotencyKey rec).
  { pose proof Hp as Hc'. apply checks_Ok, cl_redacted, redacted_fields in Hc' as [q ->]. done. }
  destruct (new_row_key _ _ _ _ _ _ _ Hrow) as (Hi & _ & _ & Hrid). rewrite Hkey in Hi. cbn in Hrid.
  exists p, row. unfold InsertEvidenceRecord. rewrite Ht, Hrow, Htx, Hck, app_nil_r. cbn [andb negb].
  assert (existsb (conflicts row) (evidence_records d) = false) as ->.
  { apply not_true_iff_false. rewrite existsb_exists. intros (x & Hx & Hc). apply list_elem_of_In in Hx.
    unfold conflicts in Hc. rewrite Hi in Hc. apply orb_true_iff in Hc as [Hc|Hc]; apply bool_decide_eq_true in Hc.
    - apply (Hid x Hx). congruence.
    - destruct (row_of (Some t) (IdempotencyKey rec) d) eqn:E; [apply Hk; by eexists t, _|]. by apply (row_of_None _ _ _ _ E Hx). }
  destruct (er_ControlID row) as [c|] eqn:Ec; [|by eexists]. rewrite bool_decide_eq_true_2 by (by apply Hfk). by eexists.
Qed.

(** One healthy delivery stores the record, whatever failed before it. *)
Lemma deliver_stores envs svc rec cred data rid : ∀ c w c' w',
  carriable cred → wire_Marshal rec = Some data → TenantID cred ≠ "" → pg_text (IdempotencyKey rec) = true →
  Forall (λ e, env_rivals e.1 = [] ∧ ∃ p, checks e.1 svc rec cred = Ok p) envs →
  Exists (λ e, env_infra e.1 = healthy ∧ insertable e.1 svc rec cred rid (db w)) envs →
  ¬ key_taken cred rec (db w) →
  deliver envs svc (message rec cred data rid) c w = (c', w') →
  ∃ row, evidence_records (db w') = evidence_records (db w) ++ [row].
Proof using.
  induction envs as [|[env lost] envs IH]; intros c w c' w' Hca Hw Ht Htxt Hall Hex Hk; [by inversion Hex|].
  apply Forall_cons in Hall as [[Hriv [p Hp]] Hall]. cbn [deliver]. destruct (handle _ _ _ _ _) as [[st c1] w1] eqn:Hh.
  destruct (handle_fresh _ _ _ _ _ _ _ _ _ _ _ _ Hca Hw Hriv Ht Hp Hk Hh) as [(-> & [row Hrow] & Hk1)|[-> Hs]].
  - intros Hd. exists row. rewrite <- Hrow. destruct lost; [|by injection Hd as _ <-].
    apply deliver_appends in Hd as [?|[Hno _]]; [done|done|done|done|]. eapply Forall_impl; [exact Hall|]. by intros ? [? _].
  - apply Exists_cons in Hex as [[Hhe Hi]|Hex].
    { destruct (handle_healthy env svc rec cred data rid c w) as (c2 & w2 & E); try done. by rewrite E in Hh. }
    intros Hd. destruct Hs as [Hl Hc]. rewrite <- Hl. eapply (IH c1 w1); try done.
    + eapply Exists_impl; [exact Hex|]. intros [e b] [H1 H2]. split; [done|]. by eapply insertable_same.
    + intros Hkt. apply Hk. apply (key_taken_app _ _ (db w1) _ []); [done|]. by rewrite Hl, app_nil_r.
Qed.

(** ** Receipts *)

(** The identifier a publish derives. *)
Definition receipt_id (rec : EvidenceRecord) (cred : Credential) (hash : string) : UUID :=
  uuid_NewSHA1 (TenantID cred +:+ "|" +:+ IdempotencyKey rec +:+ "|" +:+ hash).

Lemma Publish_Ok now rec cred s rcpt s' :
  Publish now (Some rec) cred s = (Ok rcpt, s') →
  TenantID cred ≠ "" ∧ ∃ data hash, wire_Marshal rec = Some data ∧ canonjson.HashRecord rec = Ok hash ∧
    rcpt = mkReceipt (uuid_String (receipt_id rec cred hash)) hash now (ID cred) false ∧
    js_PublishMsg now (message rec cred data (receipt_id rec cred hash)) s = (true, s').
Proof using.
  unfold Publish. case_bool_decide as Ht; [done|]. destruct (wire_Marshal rec) as [data|]; [|done].
  destruct (canonjson.HashRecord rec) as [hash|] eqn:Hh; [|done]. destruct (js_PublishMsg _ _ _) as [[] s1] eqn:Hj; [|done].
  intros [= <- <-]. split; [done|]. by exists data, hash.
Qed.

(** C25: a published record is stored at most once, under the id of its receipt, and
    when nothing stands in its way it is stored.  Take a publish whose credential fits
    in message headers and whose key was not published within the last two minutes, a
    ledger without that key, and deliveries with no concurrent writer.  The message
    the publish stored, however often it is delivered and whatever fails in between,
    appends at most one row, with the identifier and key of the receipt.  It does
    append it if every delivery passes the checks, the key is a text Postgres stores,
    and one delivery finds the pool healthy and the ledger's constraints met: the
    documents are valid jsonb, the identifier is unused, and a control named by UUID
    belongs to the tenant. *)
Theorem published_is_stored_once now rec cred s rcpt s' envs svc c w c' w' :
  Publish now (Some rec) cred s = (Ok rcpt, s') → carriable cred →
  (∀ m, duplicate now m s = true → MsgId (Headers m) ≠ TenantID cred +:+ "|" +:+ IdempotencyKey rec) →
  Forall (λ e, env_rivals e.1 = []) envs → ¬ key_taken cred rec (db w) →
  ∃ m rid, s' = s ++ [(now, m)] ∧ RecordID rcpt = uuid_String rid ∧
    (deliver envs svc m c w = (c', w') →
     let stored := ∃ row, evidence_records (db w') = evidence_records (db w) ++ [row] ∧ er_ID row = rid ∧
                          er_IdempotencyKey row = Some (IdempotencyKey rec) in
     (evidence_records (db w') = evidence_records (db w) ∨ stored) ∧
     (pg_text (IdempotencyKey rec) = true → Forall (λ e, ∃ p, checks e.1 svc rec cred = Ok p) envs →
      Exists (λ e, env_infra e.1 = healthy ∧ storable e.1 svc rec cred rid (db w)) envs → stored)).
Proof using.
  intros (Ht & data & hash & Hw & Hh & -> & Hj)%Publish_Ok Hca Hdup Hriv Hk.
  exists (message rec cred data (receipt_id rec cred hash)), (receipt_id rec cred hash). split_and!; [|done|].
  { apply js_stored in Hj; [done|]. destruct (duplicate _ _ s) eqn:E; [|done]. by apply Hdup in E. }
  intros Hd stored. assert (Hone : evidence_records (db w') = evidence_records (db w) ∨ stored).
  { destruct (deliver_appends _ _ _ _ _ _ _ _ _ _ Hca Hw Hriv Hd) as [?|[_ (row & t & E & Hid & _ & Hi)]]; [by left|right].
    exists row. split_and!; [done..|]. unfold idem_key in Hi. destruct (er_IdempotencyKey row); [|done]. by injection Hi as _ ->. }
  split; [exact Hone|]. intros Htxt Hch Hex. destruct Hone as [E|]; [exfalso|done].
  destruct (deliver_stores envs svc rec cred data (receipt_id rec cred hash) c w c' w') as [row Hrow]; try done.
  - apply Forall_and. by split.
  - eapply Exists_impl; [exact Hex|]. intros e [? ?]. split; [done|]. by apply storable_insertable.
  - rewrite Hrow in E. apply (f_equal length) in E. rewrite length_app in E. cbn in E. lia.
Qed.

(** C26: a receipt does not outlive the skew window: a record that was published and
    acknowledged, but is delivered more than 24 hours after its observation, which
    the stream's seven days of retention allow, is terminated on its first delivery
    and never stored. *)
Theorem late_delivery_is_lost now rec cred s rcpt s' env svc c w ts :
  Publish now (Some rec) cred s = (Ok rcpt, s') → carriable cred → missingField rec = None → ObservedAt rec = Some ts →
  MaxObservedAtSkew < env_clock env - AsTime ts →
  MaxObservedAtSkew < DefaultMaxAge ∧
  ∃ data hash w', wire_Marshal rec = Some data ∧ Hash rcpt = hash ∧
    handle env svc (message rec cred data (receipt_id rec cred hash)) c w = (Term, c, w') ∧
    evidence_records (db w') = evidence_records (db w).
Proof using.
  intros (Ht & data & hash & Hw & Hh & -> & _)%Publish_Ok Hca Hm Hts Hlate. split; [done|].
  assert (Hrj : ∃ rj, checks env svc rec cred = Err rj ∧ rj_decision rj = DecisionRejectedObservedAtSkew ∧ rj_error rj = ErrObservedAtSkew).
  { unfold checks. rewrite Hm, Hts. cbn [default from_option mbind result_bind]. unfold id, require.
    destruct ((- MaxObservedAtSkew <=? _) && _) eqn:E; [apply Sub_within in E; lia|]. by eexists. }
  destruct Hrj as (rj & Hc & Hd & _). exists data, hash. rewrite handle_message by done. unfold ProcessWithRecordID.
  rewrite bool_decide_eq_false_2 by done. rewrite Hc. unfold reject. cbn. rewrite Hd. eexists. split_and!; [done..|]. apply writeAudit_frame.
Qed.

(** A key published twice within two minutes: the second publish is answered
    "accepted", with the hash and identifier of its own content, but its message is
    dropped, whatever that content is, so no decision on that receipt ever
    follows. *)
Theorem republish_is_dropped now rec cred s rcpt s' now2 rec2 rcpt2 s2 :
  Publish now (Some rec) cred s = (Ok rcpt, s') →
  (∀ m, duplicate now m s = true → MsgId (Headers m) ≠ TenantID cred +:+ "|" +:+ IdempotencyKey rec) →
  IdempotencyKey rec2 = IdempotencyKey rec → now2 - now < Duplicates →
  Publish now2 (Some rec2) cred s' = (Ok rcpt2, s2) →
  s2 = s' ∧ canonjson.HashRecord rec2 = Ok (Hash rcpt2) ∧ RecordID rcpt2 = uuid_String (receipt_id rec2 cred (Hash rcpt2)).
Proof using.
  intros (Ht & data & hash & Hw & Hh & -> & Hj)%Publish_Ok Hdup Hkey Hnow (_ & data2 & hash2 & Hw2 & Hh2 & -> & Hj2)%Publish_Ok.
  split_and!; [|done|done]. apply js_stored in Hj as ->.
  2:{ destruct (duplicate _ _ s) eqn:E; [|done]. by apply Hdup in E. }
  apply (js_dropped _ _ _ _ Hj2). unfold duplicate. rewrite existsb_app. apply orb_true_iff. right. cbn. rewrite Hkey.
  rewrite bool_decide_eq_true_2 by done. rewrite (proj2 (Z.ltb_lt _ _)) by lia. done.
Qed.
End Stream.
End StreamSpec.
