(* ===== verification/IngestDemo.v ===== *)
(** * Evidence ingestion on a concrete record

    Instances of the encoders, and a scan result with a token its schema redacts,
    published, delivered twice and verified: the theorems of IngestSpec,
    EvidenceVerifySpec and StreamBufSpec applied to it. *)

From Stdlib Require Import Ascii SpecFloat.
From S2P Require Import Prelude GoTime Tenancy Json Sha256 Float64 Scope GoJson EvalState Postgres Redact RedactSpec EvidenceRecord Ingest EvidenceVerify IngestSpec EvidenceVerifySpec StreamBuf StreamBufSpec.
Import Evidence Ingest.

(** ** Instances *)

Fixpoint any_eq_dec (a b : any) : {a = b} + {a ≠ b}.
Proof.
  decide equality.
  - apply (decide_rel (=)).
  - decide equality; first [apply (decide_rel (=)) | decide equality].
  - apply (decide_rel (=)).
  - apply (List.list_eq_dec any_eq_dec).
  - apply List.list_eq_dec. decide equality. apply (decide_rel (=)).
Defined.
#[global] Instance any_eq_decision : EqDecision any := any_eq_dec.

(** Payloads of text. *)
Definition text_members (p : list (string * any)) : option (list (string * json)) :=
  mapM (λ kv, match kv.2 with AStr s => Some (kv.1, JStr s) | _ => None end) p.

(** Marshals the payloads it can read back from the column. *)
Definition checked_protojson : @ProtoJson canonical_jsonb.
Proof.
  refine {|
    protojson_Marshal p :=
      match text_members p with
      | None => Err "only text"
      | Some ms =>
          let s := render go_quote (JObj ms) in
          match @jsonb_in canonical_jsonb s with
          | None => Ok s
          | Some t => if bool_decide (t ≠ "" ∧ (AObj <$> Unmarshal_map t) = Some (unsigned_zero (AObj p))) then Ok s else Err "not stored"
          end
      end;
    protojson_Unmarshal := Unmarshal_map |}.
  intros p s t. destruct (text_members p) as [ms|]; [|done].
  cbv zeta. generalize (render go_quote (JObj ms)) as s0. intros s0.
  destruct (@jsonb_in canonical_jsonb s0) as [t0|] eqn:E; [|by intros [= <-] Ht; rewrite E in Ht].
  case_bool_decide as H; [|done]. intros [= <-] Ht. rewrite E in Ht. injection Ht as <-. destruct H as [Hne H]. split; [done|].
  apply fmap_Some in H as (q & Hq & ->). by exists q.
Defined.

(** An encoding that shows the key and the payload. *)
Definition show_record : ProtoMarshal := λ r,
  match text_members (default [] (Payload r)) with
  | Some ms => Ok (IdempotencyKey r +:+ "/" +:+ render go_quote (JObj ms))
  | None => Err "only text"
  end.

Module IngestDemo.
Import IngestSpec VerifySpec StreamBuf StreamSpec.
#[local] Existing Instance binary_uuid.
#[local] Existing Instance canonical_jsonb.
#[local] Existing Instance show_record.
#[local] Existing Instance checked_protojson.
#[local] Existing Instance stable_sort.
#[local] Existing Instance faithful_clone.
#[local] Existing Instance calm_stream.

Definition noon : Time := unix_epoch + 20600 * ns_per_day.
Definition cred : Credential := mkCredential "key_1" "a111" "env = prod" ["scan.v1"].
Definition svc : Service :=
  New (mkValidator (λ _ _ _ _, None) (λ _ _, true) None (Some (λ _ _ _, Ok ["$.token"]))).

Definition scan (token : string) : EvidenceRecord :=
  mkRecord "run-1" "scan.v1" "1.0.0" "scf:VPM-04" [mkDimension "env" ["prod"]; mkDimension "app" ["web"; "api"]]
    (Some (mkTimestamp (20600 * 86400 - 60) 250)) RESULT_PASS (Some [("host", AStr "db1"); ("token", AStr token)])
    (Some (mkSource "system" "ci" "")) None "".
Definition rec : EvidenceRecord := scan "s3cret".

Definition env_at (clock : Time) (fresh : N) (rivals : list EvidenceRow) : Env :=
  mkEnv clock clock healthy healthy fresh (fresh + 1)%N rivals (λ _, "database error") (λ s, s).
Definition env1 : Env := env_at noon 100 [].
Definition w0 : World := mkWorld (mkDB [] [] []) [].
Definition first : Outcome * World := ProcessWithRecordID env1 svc (Some rec) cred None w0.
Definition w1 : World := first.2.
Definition prepared (env : Env) (r : EvidenceRecord) : Prepared :=
  match checks env svc r cred with
  | Ok p => p
  | Err _ => mkPrepared r "" "" 0 "" "" "" None "" {| ctx_tenant := None |}
  end.

Lemma first_ok : ProcessWithRecordID env1 svc (Some rec) cred None w0 = (first.1, w1).
Proof. apply surjective_pairing. Qed.

Example first_accepted : decision first.1 = DecisionAccepted ∧ RecordID (receipt first.1) = "a0010011" ∧ Deduplicated (receipt first.1) = false.
Proof. vm_compute. done. Qed.
Example stored_payload : er_Payload <$> evidence_records (db w1) = [js "{'host':'db1','token':'<<REDACTED>>'}"].
Proof. vm_compute. reflexivity. Qed.

Lemma empty_ok l : ledger_ok (mkDB l [] []).
Proof. split; [constructor|constructor|constructor]. Qed.

Lemma step_first : step w0 w1.
Proof. eapply (step_process env1 svc (Some rec) cred None w0); [apply empty_ok|apply first_ok]. Qed.

Lemma ledger_append_only_witness : ledger_ok (db w1) ∧ length (evidence_records (db w1)) = 1%nat.
Proof.
  split; [|vm_compute; reflexivity]. apply (ledger_append_only w0 w1); [apply empty_ok|apply rtc_once, step_first].
Defined.

Lemma w1_ok : ledger_ok (db w1).
Proof. apply (step_ok w0 w1 step_first), empty_ok. Qed.

(** The same run pushed again an hour later, its token rotated: redaction makes it
    the same content. *)
Definition env2 : Env := env_at (noon + time_Hour) 200 [].
Definition again : Outcome * World := ProcessWithRecordID env2 svc (Some (scan "other")) cred None w1.

Lemma push_idempotent_witness :
  decision again.1 = DecisionDeduplicated ∧ RecordID (receipt again.1) = RecordID (receipt first.1) ∧
  evidence_records (db again.2) = evidence_records (db w1).
Proof.
  assert (Hp : checks env2 svc (scan "other") cred = Ok (prepared env2 (scan "other"))) by (vm_compute; reflexivity).
  assert (He : error first.1 = None) by (vm_compute; reflexivity).
  pose proof (push_idempotent env1 svc rec cred None w0 first.1 w1 env2 svc (scan "other") cred None (prepared env2 (scan "other")) w1 again.1 again.2
    first_ok He (PreOrder_Reflexive _) w1_ok eq_refl eq_refl eq_refl Hp (surjective_pairing _)) as (Hl & Ho & _).
  rewrite (bool_decide_eq_true_2 (pr_hash _ = _)) in Ho by (vm_compute; reflexivity). destruct Ho as (_ & Hd & Hr & _).
  split_and!; [exact Hd|exact Hr|]. rewrite Hl. by rewrite app_nil_r.
Defined.

Lemma accepted_was_allowed_witness :
  ∃ row, evidence_records (db w1) = [row] ∧ er_EvidenceKind row = Some "scan.v1" ∧ uuid_Parse (TenantID cred) = Some (er_TenantID row).
Proof.
  destruct (accepted_was_allowed env1 svc rec cred None w0 first.1 w1 first_ok (proj1 first_accepted))
    as (row & ts & json & q & Hl & _ & _ & Ht & _ & _ & Hk & _).
  exists row. split_and!; [exact Hl|exact Hk|exact Ht].
Defined.

(** The same push, with a rival that commits first. *)
Definition rival : EvidenceRow := hd (mkRow 0 0 None "" 0 0 "" "" "" None "" "" None None None None "" "" None None) (evidence_records (db w1)).
Definition env3 : Env := env_at noon 300 [rival].
Definition raced : Outcome * World := ProcessWithRecordID env3 svc (Some rec) cred None w0.
Definition new_row3 : EvidenceRow :=
  default rival (stored_row (env_now env3) (insert_params env3 svc cred None (prepared env3 rec) 7)).

Lemma lost_race_is_internal_error_witness :
  decision raced.1 = DecisionRejectedInternalError ∧ er_Hash rival = pr_hash (prepared env3 rec).
Proof.
  split; [|vm_compute; reflexivity].
  refine (proj1 (lost_race_is_internal_error env3 svc rec cred None w0 (prepared env3 rec) 7 new_row3 rival raced.1 raced.2 _ _ _ _ _ _ _ _ _ _
    (surjective_pairing _))).
  - vm_compute. reflexivity.
  - vm_compute. reflexivity.
  - vm_compute. reflexivity.
  - vm_compute. reflexivity.
  - vm_compute. reflexivity.
  - vm_compute. reflexivity.
  - vm_compute. reflexivity.
  - left.
  - vm_compute. reflexivity.
  - done.
Defined.

Definition redacted_payload : list (string * any) := [("host", AStr "db1"); ("token", AStr Redact.Marker)].

Lemma rec_reproducible : reproducible rec redacted_payload.
Proof.
  split.
  - eexists. split_and!; [done|vm_compute; congruence|vm_compute; congruence..].
  - eexists. split; done.
  - split; [done|]. refine (bool_decide_unpack _ _). vm_compute. exact I.
  - done.
  - done.
Qed.

Lemma accepted_row_verifies_witness : @Verify.VerifyLedgerRow _ _ _ _ rival = Ok (true, Hash (receipt first.1)).
Proof.
  assert (Hp : checks env1 svc rec cred = Ok (prepared env1 rec)) by (vm_compute; reflexivity).
  destruct (accepted_row_verifies env1 svc rec cred None w0 first.1 w1 (prepared env1 rec) redacted_payload first_ok (proj1 first_accepted) Hp
    ltac:(vm_compute; reflexivity) rec_reproducible) as (row & Hl & _ & Hv).
  assert (row = rival) as <-; [|exact Hv]. unfold rival. by rewrite Hl.
Defined.

(** A ledger with that row, a copy that was tampered with, and one of another
    tenant. *)
Definition tampered : EvidenceRow :=
  mkRow 7 (er_TenantID rival) None (er_ControlRef rival) (er_ObservedAt rival) (er_IngestedAt rival) (er_Provenance rival) (er_Result rival)
    (js "{'host':'db2'}") None (er_Hash rival) "monthly" (Some "run-0") (er_EvidenceKind rival) (er_SchemaVersion rival) None "push"
    (er_SourceAttribution rival) (er_ScopeCanonical rival) (er_ObservedAtNanos rival).
Definition foreign : EvidenceRow :=
  mkRow 9 1 None "c" 0 0 "{}" "pass" "" None "x" "monthly" None None None None "push" "{}" None None.
Definition ledger : DB := mkDB [] [rival; tampered; foreign] [].

Lemma walkTenant_complete_witness : ∃ ms, Verify.walkTenant (er_TenantID rival) 1 ledger = Some (2, ms).
Proof.
  destruct (walkTenant_complete ledger (er_TenantID rival) 1) as (rows & Hp & _ & Hw & _).
  - refine (bool_decide_unpack _ _). vm_compute. exact I.
  - lia.
  - apply Permutation_length in Hp. eexists. rewrite Hw. do 2 f_equal. rewrite Hp. vm_compute. reflexivity.
Defined.

Example walk_reports : (match Verify.walkTenant (er_TenantID rival) 1 ledger with Some (_, ms) => map Verify.m_record ms | None => [] end) = [7%N].
Proof. vm_compute. reflexivity. Qed.

(** ** Through the stream *)

Definition record_dec : EqDecision EvidenceRecord.
Proof.
  assert (EqDecision Timestamp) by solve_decision. assert (EqDecision SourceAttribution) by solve_decision. solve_decision.
Defined.

(** A wire format for the two records of the example. *)
Definition demo_wire : ProtoWire.
Proof.
  refine {| wire_Marshal r := if record_dec r rec then Some "A" else if record_dec r (scan "other") then Some "B" else None;
            wire_Unmarshal s := if bool_decide (s = "A") then Some rec else if bool_decide (s = "B") then Some (scan "other") else None |}.
  intros r s. destruct (record_dec r rec) as [->|]; [by intros [= <-]|]. destruct (record_dec r (scan "other")) as [->|]; [|done].
  by intros [= <-].
Defined.
#[local] Existing Instance demo_wire.
Definition demo_v5 : UUIDv5 := λ s, N.of_nat (String.length s).
#[local] Existing Instance demo_v5.

Definition published : result (Decision * PublishErr) Receipt * list (Time * Msg) := Publish noon (Some rec) cred [].
Definition rcpt : Receipt := match published.1 with Ok r => r | Err _ => no_receipt end.

Lemma published_ok : Publish noon (Some rec) cred [] = (Ok rcpt, published.2).
Proof. vm_compute. reflexivity. Qed.

Lemma cred_carriable : carriable cred.
Proof.
  split; [split_and!; vm_compute; reflexivity|]. split; [done|]. refine (bool_decide_unpack _ _). vm_compute. exact I.
Qed.

Lemma key_free : ¬ key_taken cred rec (db w0).
Proof. by intros (t & r & _ & Hr). Qed.

(** The first delivery finds the pool down, the acknowledgement of the second is
    lost. *)
Definition down : Env :=
  mkEnv noon noon {| begin_ok := false; set_config_ok := true; commit_ok := true |} healthy 400 401 [] (λ _, "pool") (λ s, s).
Definition deliveries : list (Env * bool) := [(down, false); (env_at noon 500 [], true); (env_at (noon + time_Hour) 600 [], false)].
Definition msg : Msg := match published.2 with (_, m) :: _ => m | [] => mkMsg "" (mkHeader "" "" "" "" "" "" "" "") end.
Definition delivered : Consumer * World := deliver deliveries svc msg (mkConsumer 0 0) w0.

Example delivered_counts : processed delivered.1 = 2 ∧ reprocessed delivered.1 = 1 ∧ length (evidence_records (db delivered.2)) = 1%nat.
Proof. vm_compute. done. Qed.

(** Every delivery passes the checks, and the second one can store the record. *)
Lemma deliveries_pass : Forall (λ e, ∃ p, checks e.1 svc rec cred = Ok p) deliveries.
Proof. repeat constructor; eexists; vm_compute; reflexivity. Qed.

Definition rid1 : UUID := receipt_id rec cred (Hash rcpt).
Definition env_stores : Env := env_at noon 500 [].
Definition stored1 : EvidenceRow :=
  default rival (stored_row (env_now env_stores) (insert_params env_stores svc cred (Some rid1) (prepared env_stores rec) 7)).

Lemma second_stores : storable env_stores svc rec cred rid1 (db w0).
Proof.
  exists (prepared env_stores rec), 7%N, stored1. split_and!; [vm_compute; reflexivity..| |].
  - by intros x ?%elem_of_nil.
  - intros c Hc. assert (Hn : er_ControlID stored1 = None) by (vm_compute; reflexivity).
    rewrite Hn in Hc. discriminate Hc.
Qed.

Lemma published_is_stored_once_witness :
  ∃ row, evidence_records (db delivered.2) = [row] ∧ uuid_String (er_ID row) = RecordID rcpt.
Proof.
  destruct (published_is_stored_once noon rec cred [] rcpt published.2 deliveries svc (mkConsumer 0 0) w0 delivered.1 delivered.2 published_ok
    cred_carriable) as (m & rid & Hs & Hrid & Hd).
  - by intros m H.
  - by repeat constructor.
  - exact key_free.
  - assert (Hm : m = msg) by (unfold msg; by rewrite Hs).
    assert (Er : rid = rid1).
    { apply (inj Some). rewrite <- (uuid_Parse_String rid), <- Hrid, <- (uuid_Parse_String rid1). f_equal. }
    destruct Hd as [_ Hst]; [subst m; apply surjective_pairing|].
    destruct Hst as (row & Hl & Hid & _).
    + vm_compute. reflexivity.
    + exact deliveries_pass.
    + rewrite Er. right. left. split; [reflexivity|exact second_stores].
    + exists row. split; [exact Hl|]. by rewrite Hrid, Hid.
Defined.

(** Delivered two days later. *)
Definition late_env : Env := env_at (noon + 48 * time_Hour) 700 [].

Lemma late_delivery_is_lost_witness :
  ∃ data w', handle late_env svc (message rec cred data (receipt_id rec cred (Hash rcpt))) (mkConsumer 0 0) w0 = (Term, mkConsumer 0 0, w').
Proof.
  destruct (late_delivery_is_lost noon rec cred [] rcpt published.2 late_env svc (mkConsumer 0 0) w0 (mkTimestamp (20600 * 86400 - 60) 250)
    published_ok cred_carriable eq_refl eq_refl eq_refl) as (_ & data & hash & w' & _ & <- & Hh & _).
  by exists data, w'.
Defined.

Definition republished : result (Decision * PublishErr) Receipt * list (Time * Msg) :=
  Publish (noon + 60 * ns_per_second) (Some (scan "other")) cred published.2.
Definition rcpt2 : Receipt := match republished.1 with Ok r => r | Err _ => no_receipt end.

Lemma republish_is_dropped_witness : republished.2 = published.2 ∧ Hash rcpt2 ≠ Hash rcpt.
Proof.
  split; [|vm_compute; congruence].
  refine (proj1 (republish_is_dropped noon rec cred [] rcpt published.2 (noon + 60 * ns_per_second) (scan "other") rcpt2 republished.2
    published_ok _ eq_refl eq_refl _)).
  - by intros m H.
  - vm_compute. reflexivity.
Defined.
End IngestDemo.
