(* ===== verification/Bearer.v ===== *)
(** * Bearer tokens

    Models internal/auth/bearer/bearer.go (generation and hashing of tokens) with
    what it uses of the standard library: crypto/hmac over SHA-256, encoding/base32
    without padding, and encoding/hex.DecodeString. *)

From Stdlib Require Import Ascii.
From S2P Require Import Prelude Json Sha256.

(** ** SHA-256 on bytes, and HMAC *)

Definition Sum256_bytes (bs : list N) : list N :=
  let ws := words (pad bs) in (blocks (length ws / 16) ws initial) ≫= be_bytes 4.

Lemma Sum256_string s : Sum256 s = Sum256_bytes (bytes_of s).
Proof. done. Qed.

(** RFC 2104 with a block of 64 bytes. *)
Definition hmac_key (key : list N) : list N :=
  let k := if (64 <? length key)%nat then Sum256_bytes key else key in
  k ++ replicate (64 - length k) 0%N.

Definition HMAC (key msg : list N) : list N :=
  let k := hmac_key key in
  Sum256_bytes (map (N.lxor 92) k ++ Sum256_bytes (map (N.lxor 54) k ++ msg)).

Lemma be_bytes_length k x : length (be_bytes k x) = k.
Proof. revert x. induction k as [|k IH]; intros x; [done|]. simpl. rewrite length_app, IH. simpl. lia. Qed.

Lemma be_bytes_byte k x : Forall (λ b, (b < 256)%N) (be_bytes k x).
Proof.
  revert x. induction k as [|k IH]; intros x; [constructor|]. simpl. apply Forall_app. split; [done|].
  repeat constructor. by apply N.mod_lt.
Qed.

(** Eight words of state, whatever is compressed. *)
Lemma round_length st kw : length st = 8%nat → length (round st kw) = 8%nat.
Proof. intros H. do 9 (destruct st as [|? st]; [done|]). done. Qed.

Lemma rounds_length kws st : length st = 8%nat → length (fold_left round kws st) = 8%nat.
Proof. revert st. induction kws as [|kw kws IH]; intros st H; [done|]. apply IH. by apply round_length. Qed.

Lemma compress_length st b : length st = 8%nat → length (compress st b) = 8%nat.
Proof. intros H. unfold compress. rewrite length_zip_with, rounds_length by done. lia. Qed.

Lemma blocks_length k ws st : length st = 8%nat → length (blocks k ws st) = 8%nat.
Proof.
  revert ws st. induction k as [|k IH]; intros ws st H; [done|]. cbn [blocks]. apply IH. by apply compress_length.
Qed.

Lemma bind_be_bytes_length l : length (l ≫= be_bytes 4) = (4 * length l)%nat.
Proof. induction l as [|x l IH]; [done|]. rewrite bind_cons, length_app, IH, be_bytes_length. simpl. lia. Qed.

Lemma Sum256_bytes_length bs : length (Sum256_bytes bs) = 32%nat.
Proof.
  unfold Sum256_bytes. rewrite bind_be_bytes_length, blocks_length; [done|]. by vm_compute.
Qed.

Lemma Sum256_bytes_byte bs : Forall (λ b, (b < 256)%N) (Sum256_bytes bs).
Proof.
  unfold Sum256_bytes. generalize (blocks (length (words (pad bs)) / 16) (words (pad bs)) initial). intros l.
  induction l as [|x l IH]; [constructor|]. rewrite bind_cons. apply Forall_app. split; [apply be_bytes_byte|done].
Qed.

(** ** Hexadecimal text read back *)

(** [hex.DecodeString]; [None] on an odd length or a character that is no digit. *)
Fixpoint DecodeString (s : string) : option (list N) :=
  match s with
  | "" => Some []
  | String a (String b s) => x ← hex_val a; y ← hex_val b; rest ← DecodeString s; Some ((16 * x + y)%N :: rest)
  | _ => None
  end.

Lemma hex_val_digit n : (n < 16)%N → hex_val (hex_digit n) = Some n.
Proof.
  intros H. assert (Hn : n ∈ map N.of_nat (seq 0 16)).
  { apply list_elem_of_In, in_map_iff. exists (N.to_nat n). split; [lia|]. apply in_seq. lia. }
  clear H. revert n Hn. apply Forall_forall. repeat (constructor; [by vm_compute|]). constructor.
Qed.

Lemma DecodeString_Encode bs : Forall (λ b, (b < 256)%N) bs → DecodeString (EncodeToString bs) = Some bs.
Proof.
  induction 1 as [|b bs Hb _ IH]; [done|].
  change (EncodeToString (b :: bs)) with (String (hex_digit (b / 16)) (String (hex_digit (b mod 16)) (EncodeToString bs))).
  cbn [DecodeString]. rewrite !hex_val_digit by (first [apply N.Div0.div_lt_upper_bound; lia | by apply N.mod_lt]).
  cbn. rewrite IH. cbn. f_equal. f_equal. symmetry. by apply N.div_mod'.
Qed.

Lemma EncodeToString_inj bs bs' :
  Forall (λ b, (b < 256)%N) bs → Forall (λ b, (b < 256)%N) bs' → EncodeToString bs = EncodeToString bs' → bs = bs'.
Proof.
  intros H H' E. apply (f_equal DecodeString) in E. rewrite !DecodeString_Encode in E by done. by simplify_eq.
Qed.

(** ** base32 *)

Fixpoint bits_of (k : nat) (x : N) : list bool :=
  match k with O => [] | S k => N.testbit x (N.of_nat k) :: bits_of k x end.

Fixpoint bits_val (bs : list bool) (acc : N) : N :=
  match bs with [] => acc | b :: bs => bits_val bs (2 * acc + (if b then 1 else 0))%N end.

(** [base32.StdEncoding] then [strings.ToLower]. *)
Definition base32_digit (n : N) : ascii := if (n <? 26)%N then byte (97 + n) else byte (24 + n).

(** Five bits a character; the last group is filled with zeroes. *)
Fixpoint base32_groups (bs : list bool) : string :=
  match bs with
  | a :: b :: c :: d :: e :: bs => String (base32_digit (bits_val [a; b; c; d; e] 0)) (base32_groups bs)
  | [] => ""
  | bs => String (base32_digit (bits_val (take 5 (bs ++ replicate 5 false)) 0)) ""
  end.
Definition base32_lower (raw : list N) : string := base32_groups (raw ≫= bits_of 8).

(** ** internal/auth/bearer *)

Module Bearer.
Definition PrefixProd : string := "atlas_".
Definition PrefixTest : string := "atlas_test_".
Definition SecretLen : nat := 20.
Definition HashKeyMinBytes : nat := 32.

Inductive Error := ErrHashKeyMissing | ErrUnknownPrefix (p : string) | ErrRandom.

Record Hasher := mkHasher { key : list N }.

Definition NewHasher (k : list N) : result Error Hasher :=
  if (length k <? HashKeyMinBytes)%nat then Err ErrHashKeyMissing else Ok (mkHasher k).

Definition Hash (h : Hasher) (token : string) : list N := HMAC (key h) (bytes_of token).

(** [random] is what rand.Read fills the buffer with, if it succeeds. *)
Definition Generate (prefix : string) (random : option (list N)) : result Error string :=
  if negb (bool_decide (prefix = PrefixProd)) && negb (bool_decide (prefix = PrefixTest)) then Err (ErrUnknownPrefix prefix)
  else match random with
       | None => Err ErrRandom
       | Some raw => Ok (prefix +:+ base32_lower raw)
       end.

Definition Last4 (token : string) : string :=
  let n := String.length token in if (n <? 4)%nat then token else String.substring (n - 4) 4 token.

(** What the table's length constraint and the hexadecimal form rely on. *)
Lemma Hash_length h token : length (Hash h token) = 32%nat.
Proof. apply Sum256_bytes_length. Qed.

Lemma Hash_byte h token : Forall (λ b, (b < 256)%N) (Hash h token).
Proof. apply Sum256_bytes_byte. Qed.

Example generated :
  Generate PrefixProd (Some (bytes_of "abcdefghijklmnopqrst")) = Ok "atlas_mfrggzdfmztwq2lknnwg23tpobyxe43u".
Proof. vm_compute. reflexivity. Qed.

(** RFC 4231, test case 2. *)
Example hmac_vector :
  EncodeToString (HMAC (bytes_of "Jefe") (bytes_of "what do ya want for nothing?")) =
  "5bdcc146bf60754e6a042426089575c75a003f089d2739839dec58b964ec3843".
Proof. vm_compute. reflexivity. Qed.

Example short_key : NewHasher (bytes_of "too short") = Err ErrHashKeyMissing.
Proof. done. Qed.
End Bearer.

#[global] Opaque Sum256_bytes HMAC.
