(* ===== verification/CredStore.v ===== *)
(** * The credential store

    Models internal/api/credstore/credstore.go.  Records are shared: both maps of the
    store hold pointers to the same record, so the model has a heap of records and
    the maps hold indices into it.  The optional durability backend is the interface
    [Persister]; [DurableKeys] states what the store relies on of it, over an abstract
    view of the backend as a finite map from credential ids. *)

From Stdlib Require Import Ascii.
From S2P Require Import Prelude GoTime Tenancy Json Sha256 Postgres EvidenceRecord Bearer.

Module CredStore.

Record Credential := mkCred {
  ID : string;
  TenantID : string;
  ScopePredicate : string;
  Kinds : list string;
  TTL : Duration;
  IssuedAt : Time;
  LastUsedAt : Time;
  RotatedFrom : string;
  Last4 : string;
  IsAdmin : bool;
  IsApprover : bool;
  UserID : string;
  OwnerRoles : list string;
}.

Definition HasOwnerRole (c : Credential) (role : string) : bool :=
  if bool_decide (role = "") then IsAdmin c
  else if IsAdmin c then true
  else bool_decide (role ∈ OwnerRoles c).

Definition with_LastUsedAt (c : Credential) (t : Time) : Credential :=
  mkCred (ID c) (TenantID c) (ScopePredicate c) (Kinds c) (TTL c) (IssuedAt c) t (RotatedFrom c) (Last4 c) (IsAdmin c) (IsApprover c)
    (UserID c) (OwnerRoles c).
Definition with_RotatedFrom (c : Credential) (r : string) : Credential :=
  mkCred (ID c) (TenantID c) (ScopePredicate c) (Kinds c) (TTL c) (IssuedAt c) (LastUsedAt c) r (Last4 c) (IsAdmin c) (IsApprover c)
    (UserID c) (OwnerRoles c).
Definition with_UserID (c : Credential) (u : string) : Credential :=
  mkCred (ID c) (TenantID c) (ScopePredicate c) (Kinds c) (TTL c) (IssuedAt c) (LastUsedAt c) (RotatedFrom c) (Last4 c) (IsAdmin c)
    (IsApprover c) u (OwnerRoles c).

(** [RetiresAt] is the zero time where there is no deadline. *)
Record PersistedCredential := mkPersisted { Cred : Credential; TokenHashHex : string; RetiresAt : Time }.

Inductive state := stateActive | stateRevoked.
#[global] Instance state_eq_dec : EqDecision state.
Proof. solve_decision. Defined.

Record record := mkRecord {
  cred : Credential;
  tokenHash : string;
  rstate : state;
  retiresAt : Time;
  persisted : bool;
}.
Definition with_cred (r : record) (c : Credential) : record := mkRecord c (tokenHash r) (rstate r) (retiresAt r) (persisted r).
Definition with_state (r : record) (s : state) : record := mkRecord (cred r) (tokenHash r) s (retiresAt r) (persisted r).
Definition with_retires (r : record) (t : Time) : record := mkRecord (cred r) (tokenHash r) (rstate r) t (persisted r).
Definition with_persisted (r : record) : record := mkRecord (cred r) (tokenHash r) (rstate r) (retiresAt r) true.

(** ** The store *)

(** The interface [Persister]: [D] is the durable state, [X] what a call meets of
    clocks, random sources and pools, [E] the backend's errors. *)
Record Persister (X D E : Type) := mkPersister {
  NewID : X → result E string;
  HashToken : string → string;
  Insert : X → PersistedCredential → Tx D E ();
  p_Rotate : X → PersistedCredential → string → string → Time → Tx D E ();
  p_Revoke : X → string → string → Tx D E ();
  LoadActive : X → Tx D E (list PersistedCredential);
}.
Arguments mkPersister {X D E}.
Arguments NewID {X D E}.
Arguments HashToken {X D E}.
Arguments Insert {X D E}.
Arguments p_Rotate {X D E}.
Arguments p_Revoke {X D E}.
Arguments LoadActive {X D E}.

Section Store.
Context {X D E : Type}.

Inductive Error :=
| ErrUnknownKey
| ErrEmptyToken
| ErrRandom
| ErrNilPersister
| ErrAttached
| ErrNewID (e : E)
| ErrLoad (e : E)
| ErrPersistIssue (e : E)
| ErrPersistRotate (e : E)
| ErrPersistSuccessor (e : E)
| ErrPersistRevoke (e : E).

Record Store := mkStore {
  heap : list record;
  byID : gmap string nat;
  byTokenHash : gmap string nat;
  rotationGrace : Duration;
  persist : option (Persister X D E);
}.

Definition New (grace : Duration) : Store := mkStore [] ∅ ∅ grace None.

(** What one call reads of its surroundings: the bytes rand.Read gives for an id
    and for a token, time.Now at issue and at rotation, and the backend's part. *)
Record Env := mkEnv {
  env_id : option (list N);
  env_token : option (list N);
  env_issued : Time;
  env_rotated : Time;
  env_x : X;
}.

(** [s.byID[id] = r; s.byTokenHash[r.tokenHash] = r] for a new record. *)
Definition put (r : record) (s : Store) : Store :=
  let p := length (heap s) in
  mkStore (heap s ++ [r]) (<[ID (cred r) := p]> (byID s)) (<[tokenHash r := p]> (byTokenHash s)) (rotationGrace s) (persist s).

(** An assignment through a pointer. *)
Definition modify (p : nat) (f : record → record) (s : Store) : Store :=
  mkStore (alter f p (heap s)) (byID s) (byTokenHash s) (rotationGrace s) (persist s).

Definition deref (s : Store) (p : nat) : option (nat * record) := (p,.) <$> heap s !! p.
Definition find_id (s : Store) (id : string) : option (nat * record) := byID s !! id ≫= deref s.
Definition find_hash (s : Store) (h : string) : option (nat * record) := byTokenHash s !! h ≫= deref s.

Definition hashToken (t : string) : string := sha256_hex t.
Definition hash (s : Store) (token : string) : string :=
  match persist s with Some p => HashToken p token | None => hashToken token end.

Definition lookupTokenLocked (s : Store) (token : string) : option (nat * record) :=
  match find_hash s (hash s token) with
  | Some r => Some r
  | None => match persist s with Some _ => find_hash s (hashToken token) | None => None end
  end.

(** One turn of the loop; [loaded] counts. *)
Definition load_row (acc : Store * Z) (pc : PersistedCredential) : Store * Z :=
  let '(s, loaded) := acc in
  if bool_decide (is_Some (byID s !! ID (Cred pc))) then (s, loaded)
  else if bool_decide (is_Some (byTokenHash s !! TokenHashHex pc)) then (s, loaded)
  else (put (mkRecord (Cred pc) (TokenHashHex pc) stateActive (RetiresAt pc) true) s, loaded + 1).

Definition AttachPersistence (p : option (Persister X D E)) (x : X) : Tx (Store * D) Error Z := λ '(s, d),
  match p, persist s with
  | None, _ => (Err ErrNilPersister, (s, d))
  | Some _, Some _ => (Err ErrAttached, (s, d))
  | Some p, None =>
      match LoadActive p x d with
      | (Err e, d') => (Err (ErrLoad e), (s, d'))
      | (Ok rows, d') =>
          let '(s', loaded) := fold_left load_row rows (mkStore (heap s) (byID s) (byTokenHash s) (rotationGrace s) (Some p), 0) in
          (Ok loaded, (s', d'))
      end
  end.

(** [s[len(s)-n:]] *)
Definition tail_of (n : nat) (s : string) : string := String.substring (String.length s - n) n s.

(** The arguments the issuers hand down. *)
Record Grant := mkGrant {
  g_tenantID : string;
  g_scope : string;
  g_kinds : list string;
  g_ttl : Duration;
  g_rotatedFrom : string;
  g_isAdmin : bool;
  g_isApprover : bool;
  g_ownerRoles : list string;
}.

Definition randomHex (r : option (list N)) : result Error string :=
  match r with Some bs => Ok (EncodeToString bs) | None => Err ErrRandom end.

Definition buildLocked (env : Env) (s : Store) (g : Grant) : result Error (Credential * string * record) :=
  credID ← match persist s with
           | Some p => map_err ErrNewID (NewID p (env_x env))
           | None => id ← randomHex (env_id env); Ok ("key_" +:+ id)
           end;
  token ← randomHex (env_token env);
  let c := mkCred credID (g_tenantID g) (g_scope g) (g_kinds g) (g_ttl g) (env_issued env) time_zero (g_rotatedFrom g) (tail_of 4 token)
             (g_isAdmin g) (g_isApprover g) credID (g_ownerRoles g) in
  Ok (c, token, mkRecord c (hash s token) stateActive time_zero false).

Definition issueLocked (env : Env) (g : Grant) : Tx (Store * D) Error (Credential * string) := λ '(s, d),
  match buildLocked env s g with
  | Err e => (Err e, (s, d))
  | Ok (c, token, r) =>
      match persist s with
      | None => (Ok (c, token), (put r s, d))
      | Some p =>
          match Insert p (env_x env) (mkPersisted c (tokenHash r) time_zero) d with
          | (Err e, d') => (Err (ErrPersistIssue e), (s, d'))
          | (Ok _, d') => (Ok (c, token), (put (with_persisted r) s, d'))
          end
      end
  end.

Definition Issue (env : Env) (tenantID scope : string) (kinds : list string) (ttl : Duration) : Tx (Store * D) Error (Credential * string) :=
  issueLocked env (mkGrant tenantID scope kinds ttl "" false false []).
Definition IssueAdmin (env : Env) (tenantID : string) (ttl : Duration) : Tx (Store * D) Error (Credential * string) :=
  issueLocked env (mkGrant tenantID "" [] ttl "" true true []).
Definition IssueApprover (env : Env) (tenantID : string) (ttl : Duration) : Tx (Store * D) Error (Credential * string) :=
  issueLocked env (mkGrant tenantID "" [] ttl "" false true []).
Definition IssueOwner (env : Env) (tenantID : string) (roles : list string) (ttl : Duration) : Tx (Store * D) Error (Credential * string) :=
  issueLocked env (mkGrant tenantID "" [] ttl "" false false roles).

Definition IssueFixedAdmin (env : Env) (tenantID token : string) : Tx (Store * D) Error Credential := λ '(s, d),
  if bool_decide (token = "") then (Err ErrEmptyToken, (s, d))
  else match randomHex (env_id env) with
       | Err e => (Err e, (s, d))
       | Ok id =>
           let credID := "key_" +:+ id in
           let c := mkCred credID tenantID "" [] 0 (env_issued env) time_zero "" (tail_of (4 `min` String.length token) token) true true
                      credID [] in
           (Ok c, (put (mkRecord c (hash s token) stateActive time_zero false) s, d))
       end.

(** The successor becomes visible, then the predecessor's deadline is set. *)
Definition swap (p : nat) (r : record) (deadline : Time) (s : Store) : Store := modify p (λ q, with_retires q deadline) (put r s).

Definition Rotate (env : Env) (id : string) : Tx (Store * D) Error (Credential * string * Time) := λ '(s, d),
  match find_id s id with
  | None => (Err ErrUnknownKey, (s, d))
  | Some (p, pred) =>
      if negb (bool_decide (rstate pred = stateActive)) then (Err ErrUnknownKey, (s, d))
      else if negb (IsZero (retiresAt pred)) then (Err ErrUnknownKey, (s, d))
      else
        let pc := cred pred in
        match buildLocked env s (mkGrant (TenantID pc) (ScopePredicate pc) (Kinds pc) (TTL pc) id (IsAdmin pc) (IsApprover pc) (OwnerRoles pc)) with
        | Err e => (Err e, (s, d))
        | Ok (successor, bearer, rec) =>
            let predecessorExpiresAt := env_rotated env + rotationGrace s in
            match persist s with
            | None => (Ok (successor, bearer, predecessorExpiresAt), (swap p rec predecessorExpiresAt s, d))
            | Some P =>
                if persisted pred then
                  match p_Rotate P (env_x env) (mkPersisted successor (tokenHash rec) time_zero) id (TenantID pc) predecessorExpiresAt d with
                  | (Err e, d') => (Err (ErrPersistRotate e), (s, d'))
                  | (Ok _, d') => (Ok (successor, bearer, predecessorExpiresAt), (swap p (with_persisted rec) predecessorExpiresAt s, d'))
                  end
                else
                  match Insert P (env_x env) (mkPersisted (with_RotatedFrom successor "") (tokenHash rec) time_zero) d with
                  | (Err e, d') => (Err (ErrPersistSuccessor e), (s, d'))
                  | (Ok _, d') => (Ok (successor, bearer, predecessorExpiresAt), (swap p (with_persisted rec) predecessorExpiresAt s, d'))
                  end
            end
        end
  end.

Definition Revoke (env : Env) (id : string) : Tx (Store * D) Error () := λ '(s, d),
  match find_id s id with
  | None => (Err ErrUnknownKey, (s, d))
  | Some (p, r) =>
      match persist s with
      | Some P =>
          if persisted r then
            match p_Revoke P (env_x env) id (TenantID (cred r)) d with
            | (Err e, d') => (Err (ErrPersistRevoke e), (s, d'))
            | (Ok _, d') => (Ok (), (modify p (λ q, with_state q stateRevoked) s, d'))
            end
          else (Ok (), (modify p (λ q, with_state q stateRevoked) s, d))
      | None => (Ok (), (modify p (λ q, with_state q stateRevoked) s, d))
      end
  end.

(** A range over a map comes in any order. *)
Definition List_ {PL : Planner} (now : Time) (tenantID : string) (s : Store) : list Credential :=
  cred <$> select_where (λ r, bool_decide (rstate r = stateActive) && bool_decide (TenantID (cred r) = tenantID) &&
                              negb (negb (IsZero (retiresAt r)) && After now (retiresAt r)))
             (omap (M := list) (λ p, heap s !! p) (plan (map_to_list (byID s)).*2)).

Definition RebindUserIDForTests (token userID : string) : Tx (Store * D) Error () := λ '(s, d),
  match lookupTokenLocked s token with
  | None => (Err ErrUnknownKey, (s, d))
  | Some (p, r) =>
      if bool_decide (rstate r = stateRevoked) then (Err ErrUnknownKey, (s, d))
      else (Ok (), (modify p (λ q, with_cred q (with_UserID (cred q) userID)) s, d))
  end.

(** [now] and [used] are the two readings of the clock. *)
Definition Authenticate (now used : Time) (token : string) : Tx (Store * D) Error Credential := λ '(s, d),
  match lookupTokenLocked s token with
  | None => (Err ErrUnknownKey, (s, d))
  | Some (p, r) =>
      if bool_decide (rstate r = stateRevoked) then (Err ErrUnknownKey, (s, d))
      else if negb (IsZero (retiresAt r)) && After now (retiresAt r) then (Err ErrUnknownKey, (s, d))
      else
        let c := with_LastUsedAt (cred r) used in
        (Ok c, (modify p (λ q, with_cred q c) s, d))
  end.
End Store.
Arguments Store : clear implicits.
Arguments Error : clear implicits.
Arguments Env : clear implicits.
Arguments mkEnv {X}.

(** ** What the store relies on *)

(** A credential as the backend holds it. *)
Record KeyView := mkView {
  kv_cred : Credential;
  kv_hash : string;
  kv_expires : option Time;
  kv_retires : option Time;
  kv_revoked : bool;
}.

Definition passed (now : Time) (t : option Time) : bool := match t with Some t => After now t | None => false end.
Definition active (now : Time) (v : KeyView) : bool :=
  negb (kv_revoked v) && negb (passed now (kv_expires v)) && negb (passed now (kv_retires v)).
Definition reloaded (v : KeyView) : PersistedCredential := mkPersisted (kv_cred v) (kv_hash v) (default time_zero (kv_retires v)).

Section Interface.
Context {UT : UUIDText}.

Definition same_tenant (t u : string) : bool := bool_decide (uuid_Parse t = uuid_Parse u) && bool_decide (is_Some (uuid_Parse t)).

(** What a credential says of its holder and comes back from storage as it was
    issued.  The scope predicate and the lifetime may come back in another form:
    see [keeps]. *)
Record same_grant (c c' : Credential) : Prop := {
  sg_id : ID c' = ID c;
  sg_tenant : same_tenant (TenantID c) (TenantID c') = true;
  sg_kinds : Kinds c' = Kinds c;
  sg_last4 : Last4 c' = Last4 c;
  sg_admin : IsAdmin c' = IsAdmin c;
  sg_approver : IsApprover c' = IsApprover c;
  sg_user : UserID c' = UserID c;
  sg_roles : OwnerRoles c' = OwnerRoles c;
}.

(** The scope predicate and the lifetime are as they were, or in the form [scope]
    and [ttl] in which the backend stores them. *)
Record keeps (scope : string → string) (ttl : Duration → Duration) (c c' : Credential) : Prop := {
  kp_scope : ScopePredicate c' = ScopePredicate c ∨ ScopePredicate c' = scope (ScopePredicate c);
  kp_ttl : TTL c' = TTL c ∨ TTL c' = ttl (TTL c);
}.

Definition retire (tenantID : string) (t : Time) (v : KeyView) : KeyView :=
  if same_tenant tenantID (TenantID (kv_cred v)) && negb (kv_revoked v)
  then mkView (kv_cred v) (kv_hash v) (kv_expires v) (Some t) (kv_revoked v) else v.
Definition revoke (tenantID : string) (v : KeyView) : KeyView :=
  if same_tenant tenantID (TenantID (kv_cred v))
  then mkView (kv_cred v) (kv_hash v) (kv_expires v) (kv_retires v) true else v.

(** What an INSERT of [pc] makes of a view. *)
Record inserted (stored : Time → Time) (scope : string → string) (ttl : Duration → Duration)
    (pc : PersistedCredential) (m m' : gmap string KeyView) : Prop := {
  ins_new_id : m !! ID (Cred pc) = None;
  ins_new_hash i v : m !! i = Some v → kv_hash v ≠ TokenHashHex pc;
  ins_view : ∃ v, m' = <[ID (Cred pc) := v]> m ∧ kv_hash v = TokenHashHex pc ∧ kv_retires v = None ∧ kv_revoked v = false ∧
    same_grant (Cred pc) (kv_cred v) ∧
    ScopePredicate (kv_cred v) = scope (ScopePredicate (Cred pc)) ∧ TTL (kv_cred v) = ttl (TTL (Cred pc)) ∧
    kv_expires v = if TTL (Cred pc) <=? 0 then None else Some (stored (IssuedAt (Cred pc) + TTL (Cred pc)));
}.

(** [dk_sees x] says that the boot scan sees every tenant's rows, [dk_clock x] is
    what it reads of the clock, [dk_stored] the precision of stored times, [dk_scope]
    and [dk_ttl] the stored forms of a predicate and of a lifetime.  Only ids the
    backend minted go through its storage unchanged. *)
Class DurableKeys {X D E} (P : Persister X D E) := {
  view : D → gmap string KeyView;
  dk_wf : D → Prop;
  dk_minted : string → Prop;
  dk_sees : X → bool;
  dk_clock : X → Time;
  dk_stored : Time → Time;
  dk_scope : string → string;
  dk_ttl : Duration → Duration;
  dk_stored_le t : dk_stored t ≤ t;
  dk_stored_pos t : Evidence.unix_epoch ≤ t → 0 < dk_stored t;
  dk_id d i v : view d !! i = Some v → ID (kv_cred v) = i;
  dk_view_minted d i v : view d !! i = Some v → dk_minted i;
  dk_tenant d i v : view d !! i = Some v → is_Some (uuid_Parse (TenantID (kv_cred v)));
  dk_deadline d i v t : dk_wf d → view d !! i = Some v → kv_retires v = Some t → 0 < t;
  dk_hash d i j v w : dk_wf d → view d !! i = Some v → view d !! j = Some w → kv_hash v = kv_hash w → i = j;
  dk_NewID x id : NewID P x = Ok id → dk_minted id;
  dk_insert x pc token d d' :
    dk_wf d → dk_minted (ID (Cred pc)) → UserID (Cred pc) = ID (Cred pc) → TokenHashHex pc = HashToken P token →
    Insert P x pc d = (Ok (), d') →
    dk_wf d' ∧ inserted dk_stored dk_scope dk_ttl pc (view d) (view d');
  dk_rotate x pc token pred tenantID t d d' :
    dk_wf d → dk_minted (ID (Cred pc)) → UserID (Cred pc) = ID (Cred pc) → TokenHashHex pc = HashToken P token → dk_minted pred →
    Evidence.unix_epoch ≤ t → p_Rotate P x pc pred tenantID t d = (Ok (), d') →
    dk_wf d' ∧ ∃ m, inserted dk_stored dk_scope dk_ttl pc (view d) m ∧ view d' = alter (retire tenantID (dk_stored t)) pred m;
  dk_revoke x id tenantID d d' :
    dk_wf d → dk_minted id → p_Revoke P x id tenantID d = (Ok (), d') →
    dk_wf d' ∧ view d' = alter (revoke tenantID) id (view d);
  dk_insert_err x pc d d' e : Insert P x pc d = (Err e, d') → d' = d;
  dk_rotate_err x pc pred tenantID t d d' e : p_Rotate P x pc pred tenantID t d = (Err e, d') → d' = d;
  dk_revoke_err x id tenantID d d' e : p_Revoke P x id tenantID d = (Err e, d') → d' = d;
  dk_load x d r d' :
    dk_wf d → LoadActive P x d = (r, d') →
    d' = d ∧
    ∀ rows, r = Ok rows → dk_sees x = true →
      ∀ pc, pc ∈ rows ↔ ∃ i v, view d !! i = Some v ∧ active (dk_clock x) v = true ∧ pc = reloaded v;
}.
End Interface.
End CredStore.
