(* ===== verification/ApiKey.v ===== *)
(** * API keys

    Models internal/auth/apikeystore: the store behind the administration routes
    (apikeystore.go) and the durability backend of the credential store
    (persister.go), over the table api_keys with the statements of
    internal/db/queries/api_keys.sql and the constraints of migration
    20260511000012. *)

From Stdlib Require Import Ascii.
From S2P Require Import Prelude GoTime Tenancy Json Sha256 Float64 Postgres EvidenceRecord Bearer CredStore.

(** What is relied on of uuid.Parse besides [UUIDText]: it accepts the printed form,
    the bare digits, the form in braces and the URN, none of which starts with
    the prefix of a credential id. *)
Class KeyText {UT : UUIDText} := key_not_uuid u : uuid_Parse ("key_" +:+ uuid_String u) = None.

Definition binary_key_text : KeyText (UT := binary_uuid).
Proof. by intros [|]. Defined.

Module ApiKey.
Import CredStore.

Record ApiKey := mkKey {
  ak_ID : UUID;
  ak_TenantID : UUID;
  ak_TokenHash : list N;
  ak_ScopePredicate : string;
  ak_AllowedKinds : list string;
  ak_IssuedBy : option UUID;
  ak_IssuedAt : Time;
  ak_ExpiresAt : option Time;
  ak_LastUsedAt : option Time;
  ak_RevokedAt : option Time;
  ak_RotatedFrom : option UUID;
  ak_RetiresAt : option Time;
  ak_IsAdmin : bool;
  ak_IsApprover : bool;
  ak_OwnerRoles : list string;
  ak_Last4 : string;
  ak_TtlSeconds : Z;
}.
Definition DB : Type := list ApiKey.

#[global] Instance DB_rollback : TxState DB := λ before _, before.
#[global] Instance DB_atomic : Atomic (λ d : DB, d).
Proof. done. Qed.

Definition set_last_used (t : Time) (r : ApiKey) : ApiKey :=
  mkKey (ak_ID r) (ak_TenantID r) (ak_TokenHash r) (ak_ScopePredicate r) (ak_AllowedKinds r) (ak_IssuedBy r) (ak_IssuedAt r) (ak_ExpiresAt r)
    (Some t) (ak_RevokedAt r) (ak_RotatedFrom r) (ak_RetiresAt r) (ak_IsAdmin r) (ak_IsApprover r) (ak_OwnerRoles r) (ak_Last4 r)
    (ak_TtlSeconds r).
Definition set_revoked (t : Time) (r : ApiKey) : ApiKey :=
  mkKey (ak_ID r) (ak_TenantID r) (ak_TokenHash r) (ak_ScopePredicate r) (ak_AllowedKinds r) (ak_IssuedBy r) (ak_IssuedAt r) (ak_ExpiresAt r)
    (ak_LastUsedAt r) (Some t) (ak_RotatedFrom r) (ak_RetiresAt r) (ak_IsAdmin r) (ak_IsApprover r) (ak_OwnerRoles r) (ak_Last4 r)
    (ak_TtlSeconds r).
Definition set_retires (t : Time) (r : ApiKey) : ApiKey :=
  mkKey (ak_ID r) (ak_TenantID r) (ak_TokenHash r) (ak_ScopePredicate r) (ak_AllowedKinds r) (ak_IssuedBy r) (ak_IssuedAt r) (ak_ExpiresAt r)
    (ak_LastUsedAt r) (ak_RevokedAt r) (ak_RotatedFrom r) (Some t) (ak_IsAdmin r) (ak_IsApprover r) (ak_OwnerRoles r) (ak_Last4 r)
    (ak_TtlSeconds r).

(** ** Statements *)

(** [guc] is the tenant the transaction is bound to: what row-level security lets a
    statement see and write. *)
Record InsertParams := mkParams {
  ip_ID : UUID;
  ip_TenantID : UUID;
  ip_TokenHash : list N;
  ip_ScopePredicate : string;
  ip_AllowedKinds : list string;
  ip_IssuedBy : option UUID;
  ip_ExpiresAt : option Time;
  ip_RotatedFrom : option UUID;
  ip_IsAdmin : bool;
  ip_IsApprover : bool;
  ip_OwnerRoles : list string;
  ip_Last4 : string;
  ip_TtlSeconds : Z;
}.

(** The row, with the defaults of the columns the statement leaves out. *)
Definition new_key (now : Time) (p : InsertParams) (scope : string) : ApiKey :=
  mkKey (ip_ID p) (ip_TenantID p) (ip_TokenHash p) scope (ip_AllowedKinds p) (ip_IssuedBy p) now (to_micros <$> ip_ExpiresAt p) None None
    (ip_RotatedFrom p) None (ip_IsAdmin p) (ip_IsApprover p) (ip_OwnerRoles p) (ip_Last4 p) (ip_TtlSeconds p).

Definition InsertAPIKey {JB : JsonB} (now : Time) (guc : option UUID) (p : InsertParams) (d : DB) : result SqlErr (ApiKey * DB) :=
  match jsonb_in (ip_ScopePredicate p) with
  | None => Err OtherViolation
  | Some scope =>
      if negb (forallb pg_text (ip_AllowedKinds p) && forallb pg_text (ip_OwnerRoles p) && pg_text (ip_Last4 p)) then Err OtherViolation
      else if negb (bool_decide (guc = Some (ip_TenantID p))) then Err OtherViolation
      else if negb (bool_decide (length (ip_TokenHash p) = 32%nat)) then Err (CheckViolation "api_keys_token_hash_len")
      else if existsb (λ r, bool_decide (ak_ID r = ip_ID p) || bool_decide (ak_TokenHash r = ip_TokenHash p)) d then Err UniqueViolation
      else if match ip_RotatedFrom p with Some f => bool_decide (f ∈ (ak_ID <$> d)) | None => true end
      then Ok (new_key now p scope, d ++ [new_key now p scope])
      else Err ForeignKeyViolation
  end.

Definition in_tenant (guc : option UUID) (tenantID id : UUID) (r : ApiKey) : bool :=
  bool_decide (guc = Some (ak_TenantID r)) && bool_decide (ak_TenantID r = tenantID) && bool_decide (ak_ID r = id).

(** The two scans outside a tenant see every row under a role that bypasses
    row-level security, and none otherwise. *)
Definition GetAPIKeyByHash (bypass : bool) (h : list N) (d : DB) : option ApiKey :=
  head (select_where (λ r, bypass && bool_decide (ak_TokenHash r = h)) d).
Definition GetAPIKeyByID (guc : option UUID) (tenantID id : UUID) (d : DB) : option ApiKey :=
  head (select_where (in_tenant guc tenantID id) d).

Definition newest_issued (a b : ApiKey) : Prop := ak_IssuedAt b ≤ ak_IssuedAt a.
#[global] Instance newest_issued_dec : RelDecision newest_issued.
Proof. intros a b. unfold newest_issued. apply _. Defined.
Definition oldest_issued (a b : ApiKey) : Prop := ak_IssuedAt a ≤ ak_IssuedAt b.
#[global] Instance oldest_issued_dec : RelDecision oldest_issued.
Proof. intros a b. unfold oldest_issued. apply _. Defined.

Definition unrevoked (r : ApiKey) : bool := bool_decide (ak_RevokedAt r = None).

Definition ListAPIKeysByTenant {PL : Planner} (guc : option UUID) (tenantID : UUID) (d : DB) : list ApiKey :=
  merge_sort newest_issued
    (plan (select_where (λ r, bool_decide (guc = Some (ak_TenantID r)) && bool_decide (ak_TenantID r = tenantID) && unrevoked r) d)).
Definition ListAllActiveAPIKeys {PL : Planner} (bypass : bool) (d : DB) : list ApiKey :=
  merge_sort oldest_issued (plan (select_where (λ r, bypass && unrevoked r) d)).

Definition TouchAPIKeyLastUsed (bypass : bool) (now : Time) (h : list N) (d : DB) : DB :=
  update_where (λ r, bypass && bool_decide (ak_TokenHash r = h)) (set_last_used now) d.
Definition RevokeAPIKey (guc : option UUID) (now : Time) (tenantID id : UUID) (d : DB) : DB :=
  update_where (in_tenant guc tenantID id) (set_revoked now) d.
Definition SetAPIKeyRetiresAt (guc : option UUID) (tenantID id : UUID) (t : Time) (d : DB) : DB :=
  update_where (λ r, in_tenant guc tenantID id r && unrevoked r) (set_retires (to_micros t)) d.

(** ** Helpers *)

Inductive Error :=
| ErrUnknownKey
| ErrInvalidUUID (s : string)
| ErrKeyPrefix (s : string)
| ErrNewRandom
| ErrHashDecode
| ErrBearer (e : Bearer.Error)
| ErrSql (e : SqlErr)
| ErrTenantContext (e : TenancyErr)
| ErrTx (e : TxErr)
| ErrLoadKeys.
#[global] Instance Error_tx : TxError Error := ErrTx.

(** A statement; its error ends the function. *)
Definition run {A} (f : DB → result SqlErr (A * DB)) : Tx DB Error A := λ d,
  match f d with Ok (a, d') => (Ok a, d') | Err e => (Err (ErrSql e), d) end.

(** [int64(d.Seconds())]: whole and fractional seconds are added as float64. *)
Definition Seconds (d : Duration) : float64 :=
  fadd (of_Z (Z.quot d ns_per_second)) (fdiv (of_Z (Z.rem d ns_per_second)) (of_Z ns_per_second)).
Definition ttl_seconds (d : Duration) : Z := default 0 (trunc (Seconds d)).
(** [time.Duration(n) * time.Second] *)
Definition seconds (n : Z) : Duration := int64 (n * ns_per_second).

Example ttl_truncates : ttl_seconds (90 * ns_per_second + 999999999) = 90.
Proof. vm_compute. reflexivity. Qed.

Definition scope_bytes (s : string) : string := if bool_decide (s = "") then "{}" else s.

Section Texts.
Context {UT : UUIDText}.

Definition key_id (u : UUID) : string := "key_" +:+ uuid_String u.

Definition uuidToPg (s : string) : result Error UUID :=
  match uuid_Parse s with Some u => Ok u | None => Err (ErrInvalidUUID s) end.

(** [strings.CutPrefix(s, "key_")] *)
Definition cut_key (s : string) : option string :=
  match s with
  | String "k"%char (String "e"%char (String "y"%char (String "_"%char raw))) => Some raw
  | _ => None
  end.

Definition keyIDToPg (keyID : string) : result Error UUID :=
  match cut_key keyID with
  | None => Err (ErrKeyPrefix keyID)
  | Some raw => match uuid_Parse raw with Some u => Ok u | None => Err (ErrInvalidUUID keyID) end
  end.

Definition credentialFromRow (r : ApiKey) : Credential :=
  let credID := key_id (ak_ID r) in
  mkCred credID (uuid_String (ak_TenantID r)) (ak_ScopePredicate r) (ak_AllowedKinds r) (seconds (ak_TtlSeconds r)) (ak_IssuedAt r)
    (default time_zero (ak_LastUsedAt r)) (match ak_RotatedFrom r with Some f => key_id f | None => "" end) (ak_Last4 r) (ak_IsAdmin r)
    (ak_IsApprover r) (match ak_IssuedBy r with Some u => uuid_String u | None => credID end) (ak_OwnerRoles r).
End Texts.

(** ** The store behind the administration routes *)

Record IssueInput := mkInput {
  in_ScopePredicate : string;
  in_AllowedKinds : list string;
  in_TTL : Duration;
  in_IsAdmin : bool;
  in_IsApprover : bool;
  in_OwnerRoles : list string;
  in_IssuedBy : option UUID;
}.

Record Store := mkStore {
  hasher : Bearer.Hasher;
  rotationGrace : Duration;
  prefix : string;
  authBypass : bool;
}.
Definition NewStore (authBypass : bool) (h : Bearer.Hasher) (grace : Duration) : Store :=
  mkStore h (if grace =? 0 then 7 * 24 * time_Hour else grace) Bearer.PrefixProd authBypass.

(** What a call meets: rand.Read, uuid.New, the clock, the database's now() and the
    state of the pool; [ae_touch] is when the detached update of last_used_at lands,
    if it does. *)
Record Env := mkEnv {
  ae_secret : option (list N);
  ae_uuid : UUID;
  ae_clock : Time;
  ae_now : Time;
  ae_infra : Infra;
  ae_query_ok : bool;
  ae_touch : option Time;
}.

Section Store.
Context {UT : UUIDText} {JB : JsonB} {PL : Planner} (s : Store).

Definition insert (env : Env) (guc : option UUID) (tenantID plain : string) (i : IssueInput) (rotatedFrom : UUID) : Tx DB Error ApiKey :=
  t ← tx_lift (uuidToPg tenantID);
  run (InsertAPIKey (ae_now env) guc
         (mkParams (ae_uuid env) t (Bearer.Hash (hasher s) plain) (scope_bytes (in_ScopePredicate i)) (in_AllowedKinds i) (in_IssuedBy i)
            (if 0 <? in_TTL i then Some (ae_clock env + in_TTL i) else None) (pgUUID rotatedFrom) (in_IsAdmin i) (in_IsApprover i)
            (in_OwnerRoles i) (Bearer.Last4 plain) (ttl_seconds (in_TTL i)))).

Definition Issue (env : Env) (ctx : Context) (tenantID : string) (i : IssueInput) : Tx DB Error (Credential * string) := λ d,
  match Bearer.Generate (prefix s) (ae_secret env) with
  | Err e => (Err (ErrBearer e), d)
  | Ok plain =>
      withTx (ae_infra env) ctx
        (r ← insert env (tenant_of ctx) tenantID plain i uuid_Nil; mret (credentialFromRow r, plain)) d
  end.

Definition Rotate (env : Env) (ctx : Context) (tenantID : string) (predecessorID : UUID) : Tx DB Error (Credential * string * Time) :=
  withTx (ae_infra env) ctx
    (let guc := tenant_of ctx in
     t ← tx_lift (uuidToPg tenantID);
     found ← tx_gets (GetAPIKeyByID guc t predecessorID);
     match found with
     | None => tx_fail ErrUnknownKey
     | Some pred =>
         if negb (unrevoked pred) || bool_decide (is_Some (ak_RetiresAt pred)) then tx_fail ErrUnknownKey
         else
           let i := mkInput (ak_ScopePredicate pred) (ak_AllowedKinds pred) (seconds (ak_TtlSeconds pred)) (ak_IsAdmin pred) (ak_IsApprover pred)
                      (ak_OwnerRoles pred) None in
           plain ← tx_lift (map_err ErrBearer (Bearer.Generate (prefix s) (ae_secret env)));
           r ← insert env guc tenantID plain i (ak_ID pred);
           let retiresAt := ae_clock env + rotationGrace s in
           _ ← tx_modify (SetAPIKeyRetiresAt guc t (ak_ID pred) retiresAt);
           mret (credentialFromRow r, plain, retiresAt)
     end).

Definition Revoke (env : Env) (ctx : Context) (tenantID : string) (id : UUID) : Tx DB Error () :=
  withTx (ae_infra env) ctx
    (let guc := tenant_of ctx in
     t ← tx_lift (uuidToPg tenantID);
     found ← tx_gets (GetAPIKeyByID guc t id);
     match found with
     | None => tx_fail ErrUnknownKey
     | Some _ => tx_modify (RevokeAPIKey guc (ae_now env) t id)
     end).

Definition List_ (env : Env) (ctx : Context) (tenantID : string) : Tx DB Error (list Credential) :=
  withTx (ae_infra env) ctx
    (t ← tx_lift (uuidToPg tenantID);
     rows ← tx_gets (ListAPIKeysByTenant (tenant_of ctx) t);
     mret (credentialFromRow <$> rows)).

Definition past (now : Time) (t : option Time) : bool := match t with Some t => After now t | None => false end.

Definition Authenticate (env : Env) (token : string) : Tx DB Error Credential := λ d,
  if bool_decide (token = "") then (Err ErrUnknownKey, d)
  else if negb (ae_query_ok env) then (Err (ErrSql OtherViolation), d)
  else
    let h := Bearer.Hash (hasher s) token in
    match GetAPIKeyByHash (authBypass s) h d with
    | None => (Err ErrUnknownKey, d)
    | Some r =>
        if negb (unrevoked r) then (Err ErrUnknownKey, d)
        else if past (ae_clock env) (ak_RetiresAt r) then (Err ErrUnknownKey, d)
        else if past (ae_clock env) (ak_ExpiresAt r) then (Err ErrUnknownKey, d)
        else (Ok (credentialFromRow r),
              match ae_touch env with Some t => TouchAPIKeyLastUsed (authBypass s) t h d | None => d end)
    end.
End Store.

(** ** The durability backend *)

(** What a call of the backend meets; [x_bypass] tells whether the boot scan runs
    under a role that bypasses row-level security. *)
Record XEnv := mkX {
  x_uuid : option UUID;
  x_now : Time;
  x_clock : Time;
  x_infra : Infra;
  x_query_ok : bool;
  x_bypass : bool;
}.

Section Persister.
Context {UT : UUIDText} {JB : JsonB} {PL : Planner} (h : Bearer.Hasher).

Definition NewID (x : XEnv) : result Error string :=
  match x_uuid x with Some u => Ok (key_id u) | None => Err ErrNewRandom end.

Definition HashToken (token : string) : string := EncodeToString (Bearer.Hash h token).

Definition withTenantTx (x : XEnv) (tenantID : string) (fn : option UUID → Tx DB Error ()) : Tx DB Error () := λ d,
  match WithTenant {| ctx_tenant := None |} tenantID with
  | Err e => (Err (ErrTenantContext e), d)
  | Ok tctx => withTx (x_infra x) tctx (fn (tenant_of tctx)) d
  end.

(** The columns of a credential. *)
Definition row_params (c : Credential) (id t : UUID) (hash : list N) (rotatedFrom : option UUID) : InsertParams :=
  mkParams id t hash (scope_bytes (ScopePredicate c)) (Kinds c) (uuid_Parse (UserID c))
    (if 0 <? TTL c then Some (IssuedAt c + TTL c) else None) rotatedFrom (IsAdmin c) (IsApprover c) (OwnerRoles c) (CredStore.Last4 c)
    (ttl_seconds (TTL c)).

Definition insertRow (x : XEnv) (guc : option UUID) (rec : PersistedCredential) : Tx DB Error () :=
  let c := Cred rec in
  id ← tx_lift (keyIDToPg (ID c));
  t ← tx_lift (uuidToPg (TenantID c));
  hash ← tx_lift (match DecodeString (TokenHashHex rec) with Some hs => Ok hs | None => Err ErrHashDecode end);
  rotatedFrom ← tx_lift (if bool_decide (RotatedFrom c = "") then Ok None else f ← keyIDToPg (RotatedFrom c); Ok (Some f));
  _ ← run (InsertAPIKey (x_now x) guc (row_params c id t hash rotatedFrom));
  mret ().

Definition Insert (x : XEnv) (rec : PersistedCredential) : Tx DB Error () :=
  withTenantTx x (TenantID (Cred rec)) (λ guc, insertRow x guc rec).

Definition PRotate (x : XEnv) (successor : PersistedCredential) (predecessorID tenantID : string) (retiresAt : Time) : Tx DB Error () :=
  predID ← tx_lift (keyIDToPg predecessorID);
  tid ← tx_lift (uuidToPg tenantID);
  withTenantTx x tenantID (λ guc, _ ← insertRow x guc successor; tx_modify (SetAPIKeyRetiresAt guc tid predID retiresAt)).

Definition PRevoke (x : XEnv) (id tenantID : string) : Tx DB Error () :=
  keyID ← tx_lift (keyIDToPg id);
  tid ← tx_lift (uuidToPg tenantID);
  withTenantTx x tenantID (λ guc, tx_modify (RevokeAPIKey guc (x_now x) tid keyID)).

Definition persisted_row (r : ApiKey) : PersistedCredential :=
  mkPersisted (credentialFromRow r) (EncodeToString (ak_TokenHash r)) (default time_zero (ak_RetiresAt r)).

Definition LoadActive (x : XEnv) : Tx DB Error (list PersistedCredential) := λ d,
  if negb (x_query_ok x) then (Err ErrLoadKeys, d)
  else
    (Ok (persisted_row <$> select_where (λ r, negb (past (x_clock x) (ak_ExpiresAt r)) && negb (past (x_clock x) (ak_RetiresAt r)))
                             (ListAllActiveAPIKeys (x_bypass x) d)), d).

(** The backend implements the interface. *)
Definition NewPersister : Persister XEnv DB Error := mkPersister NewID HashToken Insert PRotate PRevoke LoadActive.
End Persister.
End ApiKey.
