(* ===== verification/ApiKeySpec.v ===== *)
(** * The table of API keys is a durable store of credentials

    [persister_durable]: the backend of internal/auth/apikeystore/persister.go keeps
    what [DurableKeys] promises the credential store. *)

From Stdlib Require Import Ascii.
From S2P Require Import Prelude GoTime Tenancy Json Sha256 Float64 Postgres EvidenceRecord Bearer CredStore ApiKey.

Module ApiKeySpec.
Import CredStore ApiKey.

Section Durable.
Context {UT : UUIDText} {KT : KeyText} {JB : JsonB} {PL : Planner}.

Definition view_of (r : ApiKey) : KeyView :=
  mkView (credentialFromRow r) (EncodeToString (ak_TokenHash r)) (ak_ExpiresAt r) (ak_RetiresAt r) (negb (unrevoked r)).
Definition row_key (r : ApiKey) : string := key_id (ak_ID r).
Definition keys (d : DB) : gmap string KeyView := list_to_map ((λ r, (row_key r, view_of r)) <$> d).

(** The unique indexes, that a hash is bytes and that deadlines are dated. *)
Record table_wf (d : DB) : Prop := {
  tw_ids : NoDup (ak_ID <$> d);
  tw_hashes : NoDup (ak_TokenHash <$> d);
  tw_bytes r : r ∈ d → Forall (λ b, (b < 256)%N) (ak_TokenHash r);
  tw_retires r t : r ∈ d → ak_RetiresAt r = Some t → 0 < t;
}.

Lemma cut_key_id u : keyIDToPg (key_id u) = Ok u.
Proof using. unfold keyIDToPg, key_id. change (cut_key _) with (Some (uuid_String u)). cbv beta iota. by rewrite uuid_Parse_String. Qed.

#[global] Instance key_id_inj : Inj (=) (=) key_id.
Proof using. intros u v H. apply (f_equal keyIDToPg) in H. rewrite !cut_key_id in H. by simplify_eq. Qed.

Lemma keys_cons r d : keys (r :: d) = <[row_key r := view_of r]> (keys d).
Proof using. done. Qed.

Lemma row_keys_NoDup d : NoDup (ak_ID <$> d) → NoDup ((λ r, (row_key r, view_of r)) <$> d).*1.
Proof using.
  intros H. rewrite <- list_fmap_compose. unfold compose. cbn. unfold row_key.
  change (λ x, key_id (ak_ID x)) with (key_id ∘ ak_ID). rewrite list_fmap_compose. by apply NoDup_fmap_2; [apply _|].
Qed.

Lemma keys_lookup d i v : NoDup (ak_ID <$> d) → keys d !! i = Some v ↔ ∃ r, r ∈ d ∧ i = row_key r ∧ v = view_of r.
Proof using.
  intros H. unfold keys. rewrite <- elem_of_list_to_map by by apply row_keys_NoDup.
  rewrite list_elem_of_fmap. split.
  - intros (r & [= -> ->] & Hr). eauto.
  - intros (r & Hr & -> & ->). eauto.
Qed.

Lemma keys_lookup_1 d i v : keys d !! i = Some v → ∃ r, r ∈ d ∧ i = row_key r ∧ v = view_of r.
Proof using.
  intros (r & [= -> ->] & Hr)%elem_of_list_to_map_2%list_elem_of_fmap. eauto.
Qed.

(** An update of the row with one key. *)
Lemma keys_update (p : ApiKey → bool) f g k d :
  (∀ r, ak_ID (f r) = ak_ID r) →
  (∀ r, view_of (if p r then f r else r) = if decide (row_key r = k) then g (view_of r) else view_of r) →
  keys (update_where p f d) = alter g k (keys d).
Proof using.
  intros Hk Hv. induction d as [|r d IH]; [symmetry; apply alter_empty|].
  change (update_where p f (r :: d)) with ((if p r then f r else r) :: update_where p f d).
  rewrite !keys_cons, IH, Hv. assert (row_key (if p r then f r else r) = row_key r) as ->.
  { unfold row_key. destruct (p r); [by rewrite Hk|done]. }
  case_decide as E.
  - subst k. apply map_eq. intros i. destruct (decide (i = row_key r)) as [->|Hn].
    + by rewrite lookup_insert_eq, lookup_alter_eq, lookup_insert_eq.
    + rewrite lookup_insert_ne, !lookup_alter_ne, lookup_insert_ne by done. done.
  - by rewrite alter_insert_ne by done.
Qed.

Lemma same_tenant_row t tenantID (r : ApiKey) :
  uuid_Parse tenantID = Some t → same_tenant tenantID (TenantID (credentialFromRow r)) = bool_decide (ak_TenantID r = t).
Proof using.
  intros H. unfold same_tenant. cbn. rewrite H, uuid_Parse_String.
  rewrite (bool_decide_eq_true_2 (is_Some _)) by eauto. rewrite andb_true_r. apply bool_decide_ext. naive_solver.
Qed.

Lemma in_tenant_key t id r : in_tenant (Some t) t id r = bool_decide (ak_TenantID r = t) && bool_decide (row_key r = key_id id).
Proof using.
  unfold in_tenant, row_key. rewrite (bool_decide_ext (key_id _ = _) (ak_ID r = id)) by naive_solver.
  repeat case_bool_decide; simplify_eq; done.
Qed.

Lemma keys_revoke t tenantID id now d :
  uuid_Parse tenantID = Some t → keys (RevokeAPIKey (Some t) now t id d) = alter (revoke tenantID) (key_id id) (keys d).
Proof using.
  intros H. apply keys_update; [done|]. intros r. rewrite in_tenant_key. unfold revoke. cbn [view_of kv_cred].
  rewrite (same_tenant_row t) by done. case_decide as E.
  - rewrite (bool_decide_eq_true_2 (row_key r = _)) by done. rewrite andb_true_r. by case_bool_decide.
  - rewrite (bool_decide_eq_false_2 (row_key r = _)) by done. by rewrite andb_false_r.
Qed.

Lemma keys_retire t tenantID id at_ d :
  uuid_Parse tenantID = Some t →
  keys (SetAPIKeyRetiresAt (Some t) t id at_ d) = alter (retire tenantID (to_micros at_)) (key_id id) (keys d).
Proof using.
  intros H. apply keys_update; [done|]. intros r. rewrite in_tenant_key. unfold retire. cbn [view_of kv_cred kv_revoked].
  rewrite (same_tenant_row t), negb_involutive by done. case_decide as E.
  - rewrite (bool_decide_eq_true_2 (row_key r = _)) by done. rewrite andb_true_r. by destruct (bool_decide _ && unrevoked r).
  - rewrite (bool_decide_eq_false_2 (row_key r = _)) by done. by rewrite andb_false_r.
Qed.

Lemma table_wf_update p f d :
  (∀ r, ak_ID (f r) = ak_ID r) → (∀ r, ak_TokenHash (f r) = ak_TokenHash r) →
  (∀ r t, ak_RetiresAt (f r) = Some t → ak_RetiresAt r = Some t ∨ 0 < t) → table_wf d → table_wf (update_where p f d).
Proof using.
  intros Hi Hh Ht [H1 H2 H3 H4]. split.
  - rewrite (update_where_key ak_ID) by done. done.
  - rewrite (update_where_key ak_TokenHash) by done. done.
  - intros r (r0 & Hr & ->)%elem_of_update_where. destruct (p r0); [rewrite Hh|]; auto.
  - intros r t (r0 & Hr & ->)%elem_of_update_where. destruct (p r0); [intros [E|]%Ht; [|done]|intros E]; by apply (H4 r0).
Qed.

Lemma InsertAPIKey_Ok now guc p d r d' :
  InsertAPIKey now guc p d = Ok (r, d') →
  d' = d ++ [r] ∧ guc = Some (ip_TenantID p) ∧ ¬ (ip_ID p ∈ (ak_ID <$> d)) ∧ ¬ (ip_TokenHash p ∈ (ak_TokenHash <$> d)) ∧
  ∃ scope, jsonb_in (ip_ScopePredicate p) = Some scope ∧ r = new_key now p scope.
Proof using.
  unfold InsertAPIKey. destruct (jsonb_in _) as [scope|]; [|done].
  destruct (negb _); [done|]. case_bool_decide as Hg; [|done]. case_bool_decide; [|done]. cbn [negb].
  destruct (existsb _ _) eqn:Ex; [done|]. destruct (match ip_RotatedFrom p with Some _ => _ | None => _ end); [|done].
  intros [= <- <-]. assert (Hall : ∀ q, q ∈ d → ak_ID q ≠ ip_ID p ∧ ak_TokenHash q ≠ ip_TokenHash p).
  { intros q Hq%list_elem_of_In. apply not_true_iff_false in Ex. split; intros E; apply Ex, existsb_exists; exists q; split; auto;
      rewrite (bool_decide_eq_true_2 _ E); [done|apply orb_true_r]. }
  repeat split; eauto.
  - intros (q & E & Hq)%list_elem_of_fmap. by destruct (Hall q Hq) as [[] _].
  - intros (q & E & Hq)%list_elem_of_fmap. by destruct (Hall q Hq) as [_ []].
Qed.

Lemma keys_snoc d r : ¬ (ak_ID r ∈ (ak_ID <$> d)) → keys (d ++ [r]) = <[row_key r := view_of r]> (keys d).
Proof using.
  intros H. unfold keys. rewrite fmap_app. apply list_to_map_snoc.
  intros (x & E & (q & -> & Hq)%list_elem_of_fmap)%list_elem_of_fmap. cbn in E. apply (inj key_id) in E.
  apply H. rewrite E. by apply list_elem_of_fmap_2.
Qed.

Lemma table_wf_snoc d r :
  ¬ (ak_ID r ∈ (ak_ID <$> d)) → ¬ (ak_TokenHash r ∈ (ak_TokenHash <$> d)) → Forall (λ b, (b < 256)%N) (ak_TokenHash r) →
  ak_RetiresAt r = None → table_wf d → table_wf (d ++ [r]).
Proof using.
  intros Hi Hh Hb Hr [H1 H2 H3 H4]. split; [rewrite fmap_app; apply NoDup_app; repeat split; auto; [|apply NoDup_singleton]..| |].
  - by intros x Hx ->%list_elem_of_singleton.
  - by intros x Hx ->%list_elem_of_singleton.
  - intros q [Hq| ->%list_elem_of_singleton]%elem_of_app; auto.
  - intros q t [Hq| ->%list_elem_of_singleton]%elem_of_app; [by apply H4|by rewrite Hr].
Qed.

Context (h : Bearer.Hasher).

Lemma insertRow_insert x guc pc token u d d' :
  ID (Cred pc) = key_id u → TokenHashHex pc = HashToken h token → insertRow x guc pc d = (Ok (), d') →
  ∃ t rf r, uuid_Parse (TenantID (Cred pc)) = Some t ∧
    InsertAPIKey (x_now x) guc (row_params (Cred pc) u t (Bearer.Hash h token) rf) d = Ok (r, d').
Proof using.
  intros Hid Hh. unfold insertRow.
  rewrite Hid, cut_key_id, Hh. unfold HashToken. rewrite DecodeString_Encode by apply Bearer.Hash_byte.
  intros (id & d1 & [[= <-] ->]%tx_lift_Ok & H)%tx_bind_Ok.
  apply tx_bind_Ok in H as (t & d1 & [Ht ->]%tx_lift_Ok & H).
  apply tx_bind_Ok in H as (hs & d1 & [[= <-] ->]%tx_lift_Ok & H).
  apply tx_bind_Ok in H as (rf & d1 & [Hrf ->]%tx_lift_Ok & H).
  apply tx_bind_Ok in H as (r & d1 & H & [= <-]). unfold run in H.
  destruct (InsertAPIKey _ _ _ _) as [[r' d2]|] eqn:E; [|done]. injection H as -> ->.
  unfold uuidToPg in Ht. destruct (uuid_Parse (TenantID (Cred pc))) as [t'|] eqn:Et; [|done]. injection Ht as ->. eauto.
Qed.

(** How the table stores a scope predicate and a lifetime: as jsonb, with an empty
    predicate as the empty object, and in whole seconds. *)
Definition stored_scope (s : string) : string := default s (jsonb_in (scope_bytes s)).
Definition stored_ttl (t : Duration) : Duration := seconds (ttl_seconds t).

Lemma insertRow_ok x guc pc token u d d' :
  ID (Cred pc) = key_id u → UserID (Cred pc) = ID (Cred pc) → TokenHashHex pc = HashToken h token → table_wf d →
  insertRow x guc pc d = (Ok (), d') → table_wf d' ∧ inserted to_micros stored_scope stored_ttl pc (keys d) (keys d').
Proof using KT.
  intros Hid Hu Hh Hw H. destruct (insertRow_insert _ _ _ _ _ _ _ Hid Hh H) as (t & rf & r & Et & E).
  apply InsertAPIKey_Ok in E as (-> & Hg & Hni & Hnh & scope & Hs & ->). cbn in Hni, Hnh.
  split; [apply table_wf_snoc; auto; apply Bearer.Hash_byte|]. rewrite keys_snoc by done. cbn. split.
  - rewrite Hid. destruct (keys d !! key_id u) eqn:El; [|done].
    apply keys_lookup_1 in El as (q & Hq & Ei & _). apply (inj key_id) in Ei. destruct Hni. rewrite Ei. by apply list_elem_of_fmap_2.
  - intros i v (q & Hq & -> & ->)%keys_lookup_1. rewrite Hh. cbn. intros Eh%EncodeToString_inj;
      [|by eapply tw_bytes|apply Bearer.Hash_byte]. destruct Hnh. rewrite <- Eh. by apply list_elem_of_fmap_2.
  - eexists. split; [unfold row_key; cbn; by rewrite Hid|]. cbn. repeat split; cbn; auto.
    + rewrite <- (bool_decide_eq_true_2 (t = t)) by done. unfold same_tenant. rewrite Et, uuid_Parse_String.
      by rewrite !bool_decide_eq_true_2 by eauto.
    + rewrite Hu, Hid. unfold key_id. by rewrite key_not_uuid.
    + unfold stored_scope. cbn in Hs. by rewrite Hs.
    + destruct (Z.leb_spec (TTL (Cred pc)) 0), (Z.ltb_spec 0 (TTL (Cred pc))); try lia; done.
Qed.

Lemma withTenantTx_ok x tenantID fn d d' :
  withTenantTx x tenantID fn d = (Ok (), d') → ∃ t, uuid_Parse tenantID = Some t ∧ fn (Some t) d = (Ok (), d').
Proof using.
  unfold withTenantTx, WithTenant. destruct (uuid_Parse tenantID) as [t|] eqn:Et; [|done]. intros H. exists t. split; [done|].
  unfold withTx in H. destruct (negb _); [done|].
  unfold ApplyTenant, TenantFromContext, tenant_of, TenantFromContext in H. cbn in H. destruct (bool_decide (tenantID = "")); [done|].
  cbn in H. destruct (set_config_ok _); [|done]. rewrite Et in H. destruct (fn (Some t) d) as [[[]|] d1]; [|done].
  destruct (commit_ok _); [|done]. by simplify_eq.
Qed.

Lemma withTx_failed {A} infra ctx (body : Tx DB Error A) d e d' : withTx infra ctx body d = (Err e, d') → d' = d.
Proof using UT. intros H. apply (withTx_cases (λ d : DB, d)) in H as [(? & ? & ?)|(? & ? & ?)]; done. Qed.

Lemma withTenantTx_err x tenantID fn d d' e : withTenantTx x tenantID fn d = (Err e, d') → d' = d.
Proof using.
  unfold withTenantTx. destruct (WithTenant _ _); [apply withTx_failed|by intros [= _ <-]].
Qed.

(** A bind of a step that leaves the table alone and then a transaction. *)
Lemma lift_bind_err {A} (r : result Error A) (k : A → Tx DB Error ()) d d' e :
  (∀ a, k a d = (Err e, d') → d' = d) → (tx_lift r ≫= k) d = (Err e, d') → d' = d.
Proof using. unfold mbind, tx_bind, tx_lift. destruct r; [intros Hk Hb; exact (Hk _ Hb)|by intros _ [= _ <-]]. Qed.

Lemma LoadActive_rows x d pc :
  x_bypass x = true →
  pc ∈ (persisted_row <$> select_where (λ r, negb (past (x_clock x) (ak_ExpiresAt r)) && negb (past (x_clock x) (ak_RetiresAt r)))
                            (ListAllActiveAPIKeys (x_bypass x) d)) ↔
  ∃ r, r ∈ d ∧ active (x_clock x) (view_of r) = true ∧ pc = reloaded (view_of r).
Proof using.
  intros Hb. rewrite list_elem_of_fmap. setoid_rewrite elem_of_select_where. unfold ListAllActiveAPIKeys.
  setoid_rewrite merge_sort_Permutation. setoid_rewrite elem_of_plan. setoid_rewrite elem_of_select_where. rewrite Hb.
  unfold active, reloaded. cbn. setoid_rewrite negb_involutive.
  assert (Hp : ∀ t, past (x_clock x) t = passed (x_clock x) t) by by intros [].
  setoid_rewrite Hp. setoid_rewrite andb_true_iff. setoid_rewrite andb_true_iff. naive_solver.
Qed.

Lemma micros_pos t : Evidence.unix_epoch ≤ t → 0 < to_micros t.
Proof using. unfold to_micros, Evidence.unix_epoch, ns_per_day, ns_per_second. Z.to_euclidean_division_equations. lia. Qed.

#[global] Instance persister_durable : DurableKeys (NewPersister h).
Proof using KT.
  refine {| view := keys; dk_wf := table_wf; dk_minted i := ∃ u, i = key_id u; dk_sees := x_bypass; dk_clock := x_clock; dk_stored := to_micros;
           dk_scope := stored_scope; dk_ttl := stored_ttl |}.
  - intros t. unfold to_micros. Z.to_euclidean_division_equations. lia.
  - apply micros_pos.
  - by intros d i v (r & _ & -> & ->)%keys_lookup_1.
  - intros d i v (r & _ & -> & _)%keys_lookup_1. by eexists.
  - intros d i v (r & _ & _ & ->)%keys_lookup_1. cbn. rewrite uuid_Parse_String. by eexists.
  - intros d i v t Hw (r & Hr & _ & ->)%keys_lookup_1. by apply (tw_retires d).
  - intros d i j v w Hw (r & Hr & -> & ->)%keys_lookup_1 (q & Hq & -> & ->)%keys_lookup_1. cbn.
    intros E%EncodeToString_inj; [|by apply (tw_bytes d)..]. f_equal. by apply (NoDup_key_inj ak_TokenHash d); [apply tw_hashes|..].
  - intros x id. cbn. unfold NewID. destruct (x_uuid x) as [u|]; [|done]. intros [= <-]. eauto.
  - intros x pc token d d' Hw [u Hu] HU Hh (t & _ & H)%withTenantTx_ok. by apply (insertRow_ok x (Some t) pc token u).
  - intros x pc token pred tenantID t d d' Hw [u Hu] HU Hh [p ->] Hpos. cbn. unfold PRotate. rewrite cut_key_id.
    intros (p' & d1 & [[= <-] ->]%tx_lift_Ok & H)%tx_bind_Ok. apply tx_bind_Ok in H as (tid & d1 & [Ht ->]%tx_lift_Ok & H).
    apply withTenantTx_ok in H as (t' & Et & H). unfold uuidToPg in Ht. rewrite Et in Ht. injection Ht as ->.
    apply tx_bind_Ok in H as ([] & d1 & H & [= <-]).
    destruct (insertRow_ok x (Some tid) pc token u d d1 Hu HU Hh Hw H) as [Hw1 Hi].
    split; [apply table_wf_update; [done..| |done]; intros r t0 [= <-]; right; by apply micros_pos|]. exists (keys d1). split; [done|]. by apply keys_retire.
  - intros x id tenantID d d' Hw [p ->]. cbn. unfold PRevoke. rewrite cut_key_id.
    intros (p' & d1 & [[= <-] ->]%tx_lift_Ok & H)%tx_bind_Ok. apply tx_bind_Ok in H as (tid & d1 & [Ht ->]%tx_lift_Ok & H).
    apply withTenantTx_ok in H as (t' & Et & [= <-]). unfold uuidToPg in Ht. rewrite Et in Ht. injection Ht as ->.
    split; [by apply table_wf_update; auto|by apply keys_revoke].
  - intros x pc d d' e. apply withTenantTx_err.
  - intros x pc pred tenantID t d d' e. do 2 (apply lift_bind_err; intros ?). apply withTenantTx_err.
  - intros x id tenantID d d' e. do 2 (apply lift_bind_err; intros ?). apply withTenantTx_err.
  - intros x d r d' Hw. cbn. unfold LoadActive. destruct (x_query_ok x); cbn [negb]; intros [= <- <-]; (split; [done|]); [|done].
    intros rows [= <-] Hb pc. rewrite LoadActive_rows by done. split.
    + intros (r & Hr & Ha & ->). exists (row_key r), (view_of r). split; [|done]. apply keys_lookup; [apply Hw|eauto].
    + intros (i & v & (r & Hr & -> & ->)%keys_lookup_1 & Ha & ->). eauto.
Defined.
End Durable.
End ApiKeySpec.
