(* ===== verification/CredSpec.v ===== *)
(** * Credentials across restarts

    The process of cmd/atlas as far as credentials go: the bootstrap credentials are
    issued in memory, the durability backend is attached, then the services issue,
    rotate, revoke and authenticate; a restart begins again from the durable state
    alone.  Proved for every backend that keeps [DurableKeys]. *)

From Stdlib Require Import Ascii.
From S2P Require Import Prelude GoTime Tenancy Json Sha256 Postgres EvidenceRecord Bearer CredStore.

Module CredSpec.
Import CredStore.

Section Process.
Context {UT : UUIDText} {X D E : Type} (P : Persister X D E) {DK : DurableKeys P}.

(** ** The process *)

(** [Server.IssueBootstrapCredential] and [Server.IssueBootstrapFixedAdminCredential]. *)
Inductive Bootstrap :=
| BootCredential (tenantID : string)
| BootFixedAdmin (tenantID token : string).

Definition bootstrap (b : Env X * Bootstrap) (w : Store X D E * D) : Store X D E * D :=
  match b.2 with
  | BootCredential t => (Issue b.1 t "" [] 0 w).2
  | BootFixedAdmin t token => (IssueFixedAdmin b.1 t token w).2
  end.

Definition boot_memory (grace : Duration) (bs : list (Env X * Bootstrap)) (d : D) : Store X D E * D :=
  fold_left (λ w b, bootstrap b w) bs (New grace, d).

(** [None] where the process exits because the scan failed. *)
Definition boot (grace : Duration) (bs : list (Env X * Bootstrap)) (x : X) (d : D) : option (Store X D E * D) :=
  match AttachPersistence (Some P) x (boot_memory grace bs d) with
  | (Ok _, w) => Some w
  | (Err _, _) => None
  end.

(** The calls of the services. *)
Inductive Op :=
| OpIssue (env : Env X) (tenantID scope : string) (kinds : list string) (ttl : Duration)
| OpRotate (env : Env X) (id : string)
| OpRevoke (env : Env X) (id : string)
| OpAuthenticate (now used : Time) (token : string).

Definition perform (o : Op) (w : Store X D E * D) : Store X D E * D :=
  match o with
  | OpIssue env t sc ks ttl => (Issue env t sc ks ttl w).2
  | OpRotate env id => (Rotate env id w).2
  | OpRevoke env id => (Revoke env id w).2
  | OpAuthenticate now used token => (Authenticate now used token w).2
  end.

(** The clock is past 1970. *)
Definition dated (o : Op) : Prop := match o with OpRotate env _ => Evidence.unix_epoch ≤ env_rotated env | _ => True end.

(** The bootstrap credentials are none of the backend's: their random ids are not
    of the form it mints, and no stored hash is the plain SHA-256 of a bootstrap
    token. *)
Definition apart (s : Store X D E) (d : D) : Prop :=
  ∀ r, r ∈ heap s → ¬ dk_minted (ID (cred r)) ∧ ∀ i v, view d !! i = Some v → kv_hash v ≠ tokenHash r.

(** A boot at time [dk_clock x] with a scan that sees every tenant. *)
Inductive boots (grace : Duration) (d : D) : Time → Store X D E * D → Prop :=
| boots_intro bs x w :
    0 ≤ grace → dk_wf d → dk_sees x = true → apart (boot_memory grace bs d).1 d → boot grace bs x d = Some w →
    boots grace d (dk_clock x) w.

(** [serves t w]: the process that booted at [t] has reached [w]. *)
Inductive serves : Time → Store X D E * D → Prop :=
| serves_boot grace d t w : boots grace d t w → serves t w
| serves_op t w o : serves t w → dated o → serves t (perform o w).

(** [later w w']: from [w], by calls and restarts, to [w']. *)
Inductive later : Store X D E * D → Store X D E * D → Prop :=
| later_refl w : later w w
| later_op w w' o : later w w' → dated o → later w (perform o w')
| later_restart w w' grace t w'' : later w w' → boots grace w'.2 t w'' → later w w''.

(** ** What memory and table agree on *)

Definition deadline_agrees (t : Time) (u : option Time) : Prop :=
  match u with None => t = time_zero | Some u => 0 < u ≤ t end.

Record agrees (r : record) (v : KeyView) : Prop := {
  ag_hash : kv_hash v = tokenHash r;
  ag_grant : same_grant (cred r) (kv_cred v);
  ag_kept : keeps dk_scope dk_ttl (cred r) (kv_cred v);
  ag_revoked : kv_revoked v = bool_decide (rstate r = stateRevoked);
  ag_deadline : deadline_agrees (retiresAt r) (kv_retires v);
}.

(** [m] is the backend's view, [b] the time of the boot. *)
Record Inv (b : Time) (s : Store X D E) (m : gmap string KeyView) : Prop := {
  inv_persist : persist s = Some P;
  inv_grace : 0 ≤ rotationGrace s;
  inv_id i p : byID s !! i = Some p → ∃ r, heap s !! p = Some r ∧ ID (cred r) = i;
  inv_hash h p : byTokenHash s !! h = Some p → ∃ r, heap s !! p = Some r ∧ tokenHash r = h;
  inv_own p r : heap s !! p = Some r → persisted r = true →
    byID s !! ID (cred r) = Some p ∧ byTokenHash s !! tokenHash r = Some p ∧ dk_minted (ID (cred r)) ∧
    ∃ v, m !! ID (cred r) = Some v ∧ agrees r v;
  inv_memory p r : heap s !! p = Some r → persisted r = false → ¬ dk_minted (ID (cred r));
  inv_rows i v : m !! i = Some v →
    (∃ p r, byID s !! i = Some p ∧ heap s !! p = Some r ∧ persisted r = true) ∨ ∀ now, b ≤ now → active now v = false;
}.

Lemma heap_put (s : Store X D E) r0 q r :
  heap (put r0 s) !! q = Some r ↔ (q < length (heap s))%nat ∧ heap s !! q = Some r ∨ q = length (heap s) ∧ r = r0.
Proof using.
  cbn. rewrite lookup_app_Some. split.
  - intros [H|[H1 H2]]; [left; by split; [apply lookup_lt_Some in H|]|right].
    apply list_lookup_singleton_Some in H2 as [H2 ->]. split; [lia|done].
  - intros [[_ H]|[-> ->]]; [by left|right]. by rewrite Nat.sub_diag.
Qed.

Lemma heap_modify (s : Store X D E) p f q r :
  heap (modify p f s) !! q = Some r ↔ ∃ r0, heap s !! q = Some r0 ∧ r = if decide (q = p) then f r0 else r0.
Proof using.
  cbn. rewrite list_lookup_alter. case_decide as Eq; case_decide as Ep; subst; try done.
  - rewrite fmap_Some. naive_solver.
  - naive_solver.
Qed.

(** The maps point at records with their keys. *)
Definition points (s : Store X D E) : Prop :=
  (∀ i p, byID s !! i = Some p → ∃ r, heap s !! p = Some r ∧ ID (cred r) = i) ∧
  (∀ h p, byTokenHash s !! h = Some p → ∃ r, heap s !! p = Some r ∧ tokenHash r = h).

Lemma points_put s r0 : points s → points (put r0 s).
Proof using.
  intros [Hi Hh]. split; intros k p; cbn [put byID byTokenHash]; setoid_rewrite heap_put; rewrite lookup_insert_Some;
    (intros [[<- <-]|[_ H]]; [by eauto 6|]).
  - destruct (Hi _ _ H) as (r & Hr & <-). exists r. split; [|done]. left. by split; [apply lookup_lt_Some in Hr|].
  - destruct (Hh _ _ H) as (r & Hr & <-). exists r. split; [|done]. left. by split; [apply lookup_lt_Some in Hr|].
Qed.

Lemma inv_points b s m : Inv b s m → points s.
Proof using. intros HI. split; [apply HI|apply HI]. Qed.

(** A new record whose row has just been inserted. *)
Lemma inv_put b s m r0 v :
  Inv b s m → persisted r0 = true → dk_minted (ID (cred r0)) → m !! ID (cred r0) = None →
  (∀ i w, m !! i = Some w → kv_hash w ≠ tokenHash r0) → agrees r0 v →
  Inv b (put r0 s) (<[ID (cred r0) := v]> m).
Proof using.
  intros HI Hp Hmi Hni Hnh Ha. split; try apply HI.
  - apply (points_put s r0 (inv_points _ _ _ HI)).
  - apply (points_put s r0 (inv_points _ _ _ HI)).
  - intros p r [[_ Hr]|[-> ->]]%heap_put Hpr; cbn [put byID byTokenHash].
    + destruct (inv_own _ _ _ HI _ _ Hr Hpr) as (H1 & H2 & H3 & w & Hw & Hag).
      assert (ID (cred r) ≠ ID (cred r0)) by congruence. specialize (Hnh _ _ Hw). rewrite (ag_hash _ _ Hag) in Hnh.
      rewrite !lookup_insert_ne by done. eauto 6.
    + rewrite !lookup_insert_eq. eauto 6.
  - intros p r [[_ Hr]|[-> ->]]%heap_put; [by apply (inv_memory _ _ _ HI p)|congruence].
  - intros i w. rewrite lookup_insert_Some. cbn [put byID]. setoid_rewrite heap_put. intros [[<- <-]|[Hn Hw]].
    + left. exists (length (heap s)), r0. by rewrite lookup_insert_eq; auto.
    + destruct (inv_rows _ _ _ HI _ _ Hw) as [(p & r & H1 & H2 & H3)|]; [left|by right]. exists p, r. rewrite lookup_insert_ne by done.
      split_and!; [done|left; by split; [apply lookup_lt_Some in H2|]|done].
Qed.

(** A record changed in place, with its row. *)
Lemma inv_modify b s m m' p r0 f :
  Inv b s m → heap s !! p = Some r0 →
  ID (cred (f r0)) = ID (cred r0) → tokenHash (f r0) = tokenHash r0 → persisted (f r0) = persisted r0 →
  (∀ j, j ≠ ID (cred r0) ∨ persisted r0 = false → m' !! j = m !! j) →
  (persisted r0 = true → ∀ v, m !! ID (cred r0) = Some v → agrees r0 v →
     ∃ v', m' !! ID (cred r0) = Some v' ∧ agrees (f r0) v') →
  Inv b (modify p f s) m'.
Proof using.
  intros HI H0 Hi Hh Hp Hne Hag. assert (Hkeep : ∀ q r, heap s !! q = Some r → ∃ r', heap (modify p f s) !! q = Some r' ∧
    ID (cred r') = ID (cred r) ∧ tokenHash r' = tokenHash r ∧ persisted r' = persisted r).
  { intros q r Hr. setoid_rewrite heap_modify. destruct (decide (q = p)) as [->|Hn].
    - replace r with r0 by congruence. exists (f r0). split; [by exists r0|done].
    - exists r. split; [by exists r|done]. }
  split; try apply HI.
  - intros i q (r & Hr & <-)%(inv_id _ _ _ HI). destruct (Hkeep q r Hr) as (r' & ? & ? & _). eauto.
  - intros h q (r & Hr & <-)%(inv_hash _ _ _ HI). destruct (Hkeep q r Hr) as (r' & ? & _ & ? & _). eauto.
  - intros q r (r1 & Hr & ->)%heap_modify. cbn [modify byID byTokenHash]. case_decide as Eq.
    + subst q. replace r1 with r0 by congruence. rewrite Hi, Hh, Hp. intros Hpr.
      destruct (inv_own _ _ _ HI _ _ H0 Hpr) as (? & ? & ? & v & Hv & Ha).
      destruct (Hag Hpr v Hv Ha) as (v' & ? & ?). eauto 10.
    + intros Hpr. destruct (inv_own _ _ _ HI _ _ Hr Hpr) as (H1 & ? & ? & v & Hv & Ha). split_and!; [done..|].
      exists v. split; [|done]. rewrite Hne; [done|]. destruct (persisted r0) eqn:Hp0; [left|by right].
      destruct (inv_own _ _ _ HI _ _ H0 Hp0) as (Hb0 & _). congruence.
  - intros q r (r1 & Hr & ->)%heap_modify. case_decide as Eq.
    + subst q. replace r1 with r0 by congruence. rewrite Hi, Hp. by apply (inv_memory _ _ _ HI p).
    + by apply (inv_memory _ _ _ HI q).
  - intros i v Hv. cbn [modify byID]. destruct (decide (i = ID (cred r0) ∧ persisted r0 = true)) as [[-> Hpr]|Hn].
    + left. destruct (inv_own _ _ _ HI _ _ H0 Hpr) as (? & _). exists p, (f r0). split; [done|]. rewrite heap_modify. split.
      { exists r0. by case_decide. } by rewrite Hp.
    + rewrite Hne in Hv by (destruct (persisted r0); [left; naive_solver|by right]).
      destruct (inv_rows _ _ _ HI _ _ Hv) as [(q & r & ? & Hr & ?)|]; [left|by right].
      destruct (Hkeep q r Hr) as (r' & ? & _ & _ & ?). exists q, r'. naive_solver congruence.
Qed.

(** ** Every call keeps it *)

Definition Good (b : Time) (w : Store X D E * D) : Prop := Inv b w.1 (view w.2) ∧ dk_wf w.2.

(** Rows stay, keep their hash, and stay revoked once they are. *)
Definition grows (m m' : gmap string KeyView) : Prop :=
  ∀ i v, m !! i = Some v → ∃ v', m' !! i = Some v' ∧ kv_hash v' = kv_hash v ∧ (kv_revoked v = true → kv_revoked v' = true).

Lemma grows_refl m : grows m m.
Proof using. intros i v H. eauto. Qed.

Lemma grows_trans m1 m2 m3 : grows m1 m2 → grows m2 m3 → grows m1 m3.
Proof using. intros H1 H2 i v (v1 & Hv1 & E1 & R1)%H1. destruct (H2 i v1 Hv1) as (v2 & ? & E2 & R2). exists v2. rewrite E2. auto. Qed.

Lemma grows_inserted stored scope ttl pc m m' : inserted stored scope ttl pc m m' → grows m m'.
Proof using.
  intros [Hn _ (v & -> & _)] i w Hw. exists w. split; [|done]. rewrite lookup_insert_ne; [done|]. congruence.
Qed.

Lemma grows_alter f i m : (∀ v, kv_hash (f v) = kv_hash v) → (∀ v, kv_revoked v = true → kv_revoked (f v) = true) → grows m (alter f i m).
Proof using.
  intros Hh Hr j v Hv. destruct (decide (j = i)) as [->|Hn].
  - exists (f v). rewrite lookup_alter_eq, Hv. auto.
  - exists v. by rewrite lookup_alter_ne.
Qed.

Lemma retire_hash t at_ v : kv_hash (retire t at_ v) = kv_hash v.
Proof using. unfold retire. by destruct (_ && _). Qed.
Lemma retire_revoked t at_ v : kv_revoked (retire t at_ v) = kv_revoked v.
Proof using. unfold retire. by destruct (_ && _). Qed.
Lemma revoke_hash t v : kv_hash (revoke t v) = kv_hash v.
Proof using. unfold revoke. by destruct (same_tenant _ _). Qed.
Lemma revoke_revoked t v : kv_revoked v = true → kv_revoked (revoke t v) = true.
Proof using. unfold revoke. by destruct (same_tenant _ _). Qed.

Lemma find_id_Some (s : Store X D E) id p r : find_id s id = Some (p, r) ↔ byID s !! id = Some p ∧ heap s !! p = Some r.
Proof using.
  unfold find_id, deref. rewrite bind_Some. setoid_rewrite fmap_Some. naive_solver.
Qed.

Lemma find_hash_Some (s : Store X D E) h p r : find_hash s h = Some (p, r) ↔ byTokenHash s !! h = Some p ∧ heap s !! p = Some r.
Proof using.
  unfold find_hash, deref. rewrite bind_Some. setoid_rewrite fmap_Some. naive_solver.
Qed.

Lemma lookup_token_heap (s : Store X D E) token p r : lookupTokenLocked s token = Some (p, r) → heap s !! p = Some r.
Proof using.
  unfold lookupTokenLocked. destruct (find_hash s (hash s token)) eqn:E1.
  - intros [= ->]. by apply find_hash_Some in E1 as [_ ?].
  - destruct (persist s); [|done]. by intros [_ ?]%find_hash_Some.
Qed.

Lemma build_ok env (s : Store X D E) g c token r :
  persist s = Some P → buildLocked env s g = Ok (c, token, r) →
  dk_minted (ID c) ∧ UserID c = ID c ∧ TenantID c = g_tenantID g ∧ r = mkRecord c (HashToken P token) stateActive time_zero false.
Proof using.
  intros Hp. unfold buildLocked, hash. rewrite Hp. intros (id & Hid & (tok & Ht & [= <- <- <-])%result_bind_Ok)%result_bind_Ok.
  split; [|done]. destruct (NewID P (env_x env)) eqn:Hn; [|done]. injection Hid as ->. by apply dk_NewID in Hn.
Qed.

(** A fresh record and the row inserted for it. *)
Lemma inv_inserted b s m m' pc r :
  Inv b s m → inserted dk_stored dk_scope dk_ttl pc m m' → dk_minted (ID (Cred pc)) → (∀ c, same_grant (Cred pc) c → same_grant (cred r) c) →
  ScopePredicate (cred r) = ScopePredicate (Cred pc) → TTL (cred r) = TTL (Cred pc) →
  ID (cred r) = ID (Cred pc) → tokenHash r = TokenHashHex pc → rstate r = stateActive → retiresAt r = time_zero → persisted r = true →
  Inv b (put r s) m'.
Proof using.
  intros HI [Hn Hh (v & -> & Ev & Er & Erv & Hg & Hsc & Htt & _)] Hm Hs Es El Hi Et Est Ere Hp. rewrite <- Hi in *. rewrite <- Et in *.
  apply inv_put; auto. split; auto.
  - split; right; congruence.
  - by rewrite Erv, Est.
  - by rewrite Er, Ere.
Qed.

Lemma issue_good b w env g : Good b w → Good b (issueLocked env g w).2 ∧ grows (view w.2) (view (issueLocked env g w).2.2).
Proof using.
  destruct w as [s d]. intros [HI Hw]. cbn [fst snd] in HI, Hw. unfold issueLocked. pose proof (inv_persist _ _ _ HI) as Hp.
  destruct (buildLocked env s g) as [[[c token] r]|e] eqn:Hb; [|by split; [|apply grows_refl]].
  apply build_ok in Hb as (Hm & Hu & _ & ->); [|done]. rewrite Hp.
  destruct (Insert P _ _ d) as [[[]|e] d'] eqn:Hins.
  - apply dk_insert with (token := token) in Hins as [Hw' Hi]; [|done..]. split; [split; [|done]|by eapply grows_inserted].
    by eapply inv_inserted.
  - apply dk_insert_err in Hins as ->. by split; [|apply grows_refl].
Qed.

Lemma revoke_good b w env id : Good b w → Good b (Revoke env id w).2 ∧ grows (view w.2) (view (Revoke env id w).2.2).
Proof using.
  destruct w as [s d]. intros [HI Hw]. cbn [fst snd] in HI, Hw. unfold Revoke. pose proof (inv_persist _ _ _ HI) as Hp.
  destruct (find_id s id) as [[p r]|] eqn:Hf; [|by split; [|apply grows_refl]]. apply find_id_Some in Hf as [Hid Hr].
  destruct (inv_id _ _ _ HI _ _ Hid) as (r' & Hr' & <-). assert (r' = r) as -> by congruence. rewrite Hp.
  destruct (persisted r) eqn:Hpr.
  - destruct (inv_own _ _ _ HI _ _ Hr Hpr) as (_ & _ & Hm & v & Hv & Ha).
    destruct (p_Revoke P _ _ _ d) as [[[]|e] d'] eqn:Hrev; [|apply dk_revoke_err in Hrev as ->; by split; [|apply grows_refl]].
    apply dk_revoke in Hrev as [Hw' Hv']; [|done..]. cbn. rewrite Hv'.
    split; [split; [|done]|by apply grows_alter; [apply revoke_hash|apply revoke_revoked]]. cbn. rewrite Hv'.
    eapply inv_modify; [done..| |].
    + intros j [Hj|?]; [|congruence]. by rewrite lookup_alter_ne.
    + intros _ v0 Hv0 Ha0. exists (revoke (TenantID (cred r)) v0). rewrite lookup_alter_eq, Hv0. split; [done|].
      unfold revoke. rewrite (sg_tenant _ _ (ag_grant _ _ Ha0)). by destruct Ha0; split.
  - split; [|apply grows_refl]. split; [|done]. cbn. eapply inv_modify; [done..| |by rewrite Hpr]. done.
Qed.

Lemma authenticate_good b w now used token : Good b w → Good b (Authenticate now used token w).2 ∧ (Authenticate now used token w).2.2 = w.2.
Proof using.
  destruct w as [s d]. intros [HI Hw]. cbn [fst snd] in HI, Hw. unfold Authenticate.
  destruct (lookupTokenLocked s token) as [[p r]|] eqn:Hl; [|done].
  destruct (bool_decide _); [done|]. destruct (negb _ && _); [done|]. split; [|done]. split; [|done]. cbn.
  apply lookup_token_heap in Hl.
  eapply inv_modify; [done..| |]; [done|]. intros _ v Hv Ha. exists v. split; [done|]. destruct Ha as [? [] [] ? ?]. by repeat split.
Qed.

(** The predecessor's deadline, in memory and in its row. *)
Lemma agrees_retired r v at_ :
  agrees r v → rstate r = stateActive → Evidence.unix_epoch ≤ at_ →
  agrees (with_retires r at_) (retire (TenantID (cred r)) (dk_stored at_) v).
Proof using.
  intros [Hh Hg Hkp Hr Hd] Hs Ht. rewrite Hs in Hr. unfold retire. rewrite (sg_tenant _ _ Hg), Hr. cbn. split; cbn; auto; [by rewrite Hs|].
  split; [by apply dk_stored_pos|apply dk_stored_le].
Qed.

Lemma rotate_good b w env id :
  Good b w → Evidence.unix_epoch ≤ env_rotated env → Good b (Rotate env id w).2 ∧ grows (view w.2) (view (Rotate env id w).2.2).
Proof using.
  destruct w as [s d]. intros [HI Hw] Ht. cbn [fst snd] in HI, Hw. unfold Rotate. pose proof (inv_persist _ _ _ HI) as Hp.
  destruct (find_id s id) as [[p r]|] eqn:Hf; [|by split; [|apply grows_refl]]. apply find_id_Some in Hf as [Hid Hr].
  destruct (inv_id _ _ _ HI _ _ Hid) as (r' & Hr' & <-). assert (r' = r) as -> by congruence.
  case_bool_decide as Hst; [cbn [negb]|by split; [|apply grows_refl]].
  destruct (IsZero (retiresAt r)); cbn [negb]; [|by split; [|apply grows_refl]].
  destruct (buildLocked env s _) as [[[c token] rec]|e] eqn:Hb; [|by split; [|apply grows_refl]].
  apply build_ok in Hb as (Hm & Hu & _ & ->); [|done]. rewrite Hp.
  assert (Hdl : Evidence.unix_epoch ≤ env_rotated env + rotationGrace s) by (pose proof (inv_grace _ _ _ HI); lia).
  assert (Hput : ∀ q, heap (put q s) !! p = Some r) by (intros q; apply heap_put; left; by split; [apply lookup_lt_Some in Hr|]).
  destruct (persisted r) eqn:Hpr.
  - destruct (inv_own _ _ _ HI _ _ Hr Hpr) as (_ & _ & Hmp & v & Hv & Ha).
    destruct (p_Rotate P _ _ _ _ _ d) as [[[]|e] d'] eqn:Hrot; [|apply dk_rotate_err in Hrot as ->; by split; [|apply grows_refl]].
    apply dk_rotate with (token := token) in Hrot as (Hw' & m & Hi & Hv'); [|done..].
    split; [split; [|done]|]; cbn [fst snd]; rewrite Hv'.
    2: { eapply grows_trans; [by eapply grows_inserted|]. apply grows_alter; [intros; apply retire_hash|intros; by rewrite retire_revoked]. }
    eapply inv_modify; [by eapply inv_inserted|apply Hput|done..| |].
    + intros j [Hj|?]; [|congruence]. by rewrite lookup_alter_ne.
    + intros _ v0 Hv0 Ha0. rewrite lookup_alter_eq, Hv0. eexists. split; [done|]. by apply agrees_retired.
  - destruct (Insert P _ _ d) as [[[]|e] d'] eqn:Hins; [|apply dk_insert_err in Hins as ->; by split; [|apply grows_refl]].
    apply dk_insert with (token := token) in Hins as [Hw' Hi]; [|done..]. split; [split; [|done]|by eapply grows_inserted].
    eapply (inv_modify _ _ (view d')); [|apply Hput|done..|by rewrite Hpr].
    eapply inv_inserted; [done..| |done|done|done|done|done|done|done]. intros c' []. by split.
Qed.

Lemma perform_good b w o : Good b w → dated o → Good b (perform o w) ∧ grows (view w.2) (view (perform o w).2).
Proof using.
  destruct o; cbn [perform dated]; intros HG Hd.
  - by apply issue_good.
  - by apply rotate_good.
  - by apply revoke_good.
  - destruct (authenticate_good b w now used token HG) as [H ->]. split; [done|apply grows_refl].
Qed.

(** ** A boot establishes it *)

(** The store before the backend is attached. *)
Record Memory (grace : Duration) (s : Store X D E) : Prop := {
  me_persist : persist s = None;
  me_grace : rotationGrace s = grace;
  me_points : points s;
  me_records r : r ∈ heap s → persisted r = false;
}.

Lemma memory_put grace s r : Memory grace s → persisted r = false → Memory grace (put r s).
Proof using.
  intros [H1 H2 H3 H4] Hr. split; [done..|by apply points_put|]. intros q. cbn. by intros [?| ->%list_elem_of_singleton]%elem_of_app; auto.
Qed.

Lemma bootstrap_memory grace b s d : Memory grace s → ∃ s', bootstrap b (s, d) = (s', d) ∧ Memory grace s'.
Proof using.
  intros HM. destruct b as [env [t|t token]]; cbn [bootstrap fst snd].
  - unfold Issue, issueLocked. destruct (buildLocked env s _) as [[[c tok] r]|] eqn:Hb; [|by eauto]. rewrite (me_persist _ _ HM).
    eexists. split; [done|]. apply memory_put; [done|].
    unfold buildLocked in Hb. apply result_bind_Ok in Hb as (? & _ & Hb). apply result_bind_Ok in Hb as (? & _ & Hb). by simplify_eq.
  - unfold IssueFixedAdmin. destruct (bool_decide _); [by eauto|]. destruct (randomHex _); [|by eauto].
    eexists. split; [done|]. by apply memory_put.
Qed.

Lemma boot_memory_ok grace bs d : ∃ s, boot_memory grace bs d = (s, d) ∧ Memory grace s.
Proof using.
  unfold boot_memory. assert (HM : Memory grace (New grace)).
  { split; [done|done| |by intros r ?%elem_of_nil]. split; intros ? ?; cbn; by rewrite lookup_empty. }
  revert HM. generalize (New grace : Store X D E). induction bs as [|b bs IH]; intros s HM; [by eauto|].
  cbn [fold_left]. destruct (bootstrap_memory grace b s d HM) as (s' & -> & HM'). by apply IH.
Qed.

Definition loaded (v : KeyView) : record := mkRecord (kv_cred v) (kv_hash v) stateActive (default time_zero (kv_retires v)) true.

(** The store while rows are loaded from the view [m] at time [now]. *)
Record Loading (now : Time) (m : gmap string KeyView) (s : Store X D E) : Prop := {
  lo_persist : persist s = Some P;
  lo_points : points s;
  lo_own p r : heap s !! p = Some r → persisted r = true →
    byID s !! ID (cred r) = Some p ∧ byTokenHash s !! tokenHash r = Some p ∧
    ∃ v, m !! ID (cred r) = Some v ∧ active now v = true ∧ r = loaded v;
  lo_memory p r : heap s !! p = Some r → persisted r = false →
    ¬ dk_minted (ID (cred r)) ∧ ∀ i v, m !! i = Some v → kv_hash v ≠ tokenHash r;
}.

Definition present (s : Store X D E) (i : string) : Prop := ∃ p r, byID s !! i = Some p ∧ heap s !! p = Some r ∧ persisted r = true.

Lemma load_row_ok now d s n i v :
  dk_wf d → Loading now (view d) s → view d !! i = Some v → active now v = true →
  let s' := (load_row (s, n) (reloaded v)).1 in
  Loading now (view d) s' ∧ rotationGrace s' = rotationGrace s ∧ present s' i ∧ ∀ j, present s j → present s' j.
Proof using.
  intros Hw HL Hv Ha. pose proof (dk_id _ _ _ Hv) as Hi. cbn [load_row reloaded Cred TokenHashHex]. rewrite Hi.
  case_bool_decide as Hid; cbn [fst].
  { split; [done|]. split; [done|]. split; [|done]. destruct Hid as [p Hp]. destruct (proj1 (lo_points _ _ _ HL) _ _ Hp) as (r & Hr & Er).
    exists p, r. split_and!; [done..|]. destruct (persisted r) eqn:Hpr; [done|].
    destruct (lo_memory _ _ _ HL _ _ Hr Hpr) as [Hn _]. destruct Hn. rewrite Er. by apply (dk_view_minted d i v). }
  case_bool_decide as Hha; cbn [fst].
  { exfalso. destruct Hha as [p Hp]. destruct (proj2 (lo_points _ _ _ HL) _ _ Hp) as (r & Hr & Er).
    destruct (persisted r) eqn:Hpr; [|destruct (lo_memory _ _ _ HL _ _ Hr Hpr) as [_ Hn]; by apply (Hn i v)].
    destruct (lo_own _ _ _ HL _ _ Hr Hpr) as (Hb & _ & w & Hw' & _ & ->). cbn in Er.
    assert (ID (cred (loaded w)) = i) as Eij by by apply (dk_hash d _ _ w v). rewrite Eij in Hb. apply Hid. eauto. }
  apply eq_None_not_Some in Hid, Hha. change (mkRecord _ _ _ _ _) with (loaded v). split; [|split; [done|split]].
  - split; [apply HL|apply points_put, HL| |].
    + intros p r [[_ Hr]|[-> ->]]%heap_put Hpr; cbn [put byID byTokenHash].
      * destruct (lo_own _ _ _ HL _ _ Hr Hpr) as (H1 & H2 & H3). cbn. rewrite !lookup_insert_ne by congruence. done.
      * rewrite !lookup_insert_eq. split_and!; [done..|]. exists v. split_and!; [|done..]. cbn. by rewrite Hi.
    + intros p r [[_ Hr]|[-> ->]]%heap_put Hpr; [by apply (lo_memory _ _ _ HL p)|done].
  - exists (length (heap s)), (loaded v). cbn [put byID]. rewrite heap_put. cbn. rewrite Hi, lookup_insert_eq. auto.
  - intros j (p & r & Hp & Hr & Hpr). exists p, r. cbn [put byID]. rewrite heap_put. cbn. rewrite Hi, lookup_insert_ne by congruence.
    split_and!; [done|left; by split; [apply lookup_lt_Some in Hr|]|done].
Qed.

Lemma load_rows_ok now d rows s n :
  dk_wf d → Loading now (view d) s → (∀ pc, pc ∈ rows → ∃ i v, view d !! i = Some v ∧ active now v = true ∧ pc = reloaded v) →
  let s' := (fold_left load_row rows (s, n)).1 in
  Loading now (view d) s' ∧ rotationGrace s' = rotationGrace s ∧
  (∀ j, present s j → present s' j) ∧ ∀ pc, pc ∈ rows → present s' (ID (Cred pc)).
Proof using.
  intros Hw. revert s n. induction rows as [|pc rows IH]; intros s n HL Hrows; cbn [fold_left].
  { split_and!; [done|done|done|by intros ? ?%elem_of_nil]. }
  destruct (Hrows pc) as (i & v & Hv & Ha & ->); [by left|].
  destruct (load_row_ok now d s n i v Hw HL Hv Ha) as (HL' & Hg & Hp & Hmono).
  destruct (load_row (s, n) (reloaded v)) as [s1 n1]. cbn [fst] in *.
  destruct (IH s1 n1 HL') as (H1 & H2 & H3 & H4); [intros pc Hpc; apply Hrows; by right|].
  split_and!; [done|congruence|auto|]. intros pc [->|Hpc]%elem_of_cons; [|auto]. cbn. rewrite (dk_id _ _ _ Hv). auto.
Qed.

Lemma active_earlier now now' v : now ≤ now' → active now' v = true → active now v = true.
Proof using.
  unfold active, passed, After. intros H. rewrite !andb_true_iff, !negb_true_iff. intros [[H1 H2] H3]. split_and!; [done|..].
  - destruct (kv_expires v); [|done]. rewrite bool_decide_eq_false in H2 |- *. lia.
  - destruct (kv_retires v); [|done]. rewrite bool_decide_eq_false in H3 |- *. lia.
Qed.

Lemma same_grant_refl c : is_Some (uuid_Parse (TenantID c)) → same_grant c c.
Proof using. intros H. split; try done. unfold same_tenant. by rewrite !bool_decide_eq_true_2. Qed.

Lemma loaded_agrees now d i v : dk_wf d → view d !! i = Some v → active now v = true → agrees (loaded v) v.
Proof using.
  intros Hw Hv Ha. split; cbn; [done|by eapply same_grant_refl, dk_tenant|by split; left|..].
  - unfold active in Ha. by destruct (kv_revoked v).
  - destruct (kv_retires v) as [u|] eqn:Eu; cbn; [|done]. split; [|done]. by apply (dk_deadline d i v).
Qed.

(** [fresh t w]: every durable record in memory is the one its row, alive at [t], gives. *)
Definition fresh (t : Time) (w : Store X D E * D) : Prop :=
  ∀ p r, heap w.1 !! p = Some r → persisted r = true →
  ∃ v, view w.2 !! ID (cred r) = Some v ∧ active t v = true ∧ r = loaded v.

Lemma boots_good grace d t w : boots grace d t w → Good t w ∧ w.2 = d ∧ fresh t w.
Proof using.
  intros [bs x w' Hg Hw Hs Hap Hb]. unfold boot in Hb. destruct (boot_memory_ok grace bs d) as (s & Es & HM). rewrite Es in *.
  cbn [fst] in Hap. unfold AttachPersistence in Hb. rewrite (me_persist _ _ HM) in Hb.
  destruct (LoadActive P x d) as [[rows|e] d'] eqn:Hl; [|done]. apply dk_load in Hl as [-> Hrows]; [|done].
  specialize (Hrows rows eq_refl Hs). set (s0 := mkStore _ _ _ _ _) in Hb.
  assert (HL : Loading (dk_clock x) (view d) s0).
  { split; [done|apply HM|..].
    - intros p r Hr Hp. apply list_elem_of_lookup_2, (me_records _ _ HM) in Hr. congruence.
    - intros p r Hr _. apply list_elem_of_lookup_2 in Hr. by apply Hap. }
  destruct (load_rows_ok (dk_clock x) d rows s0 0 Hw HL) as (H1 & H2 & _ & H4); [intros pc Hpc; by apply Hrows|].
  destruct (fold_left load_row rows (s0, 0)) as [s1 n]. cbn [fst] in *. injection Hb as <-. cbn [fst snd].
  split; [|split; [done|intros p r Hr Hp; by destruct (lo_own _ _ _ H1 _ _ Hr Hp) as (_ & _ & ?)]].
  split; [|done]. cbn [fst snd]. split.
  - apply H1.
  - rewrite H2. cbn. by rewrite (me_grace _ _ HM).
  - apply H1.
  - apply H1.
  - intros p r Hr Hp. destruct (lo_own _ _ _ H1 _ _ Hr Hp) as (Hi & Hh & v & Hv & Ha & ->). split_and!; [done|done|by eapply dk_view_minted|].
    exists v. split; [done|]. by eapply loaded_agrees.
  - intros p r Hr Hp. by destruct (lo_memory _ _ _ H1 _ _ Hr Hp).
  - intros i v Hv. destruct (active (dk_clock x) v) eqn:Ha.
    + left. rewrite <- (dk_id _ _ _ Hv). apply (H4 (reloaded v)), Hrows. eauto.
    + right. intros now Hn. destruct (active now v) eqn:Hnow; [|done]. by rewrite (active_earlier _ _ _ Hn Hnow) in Ha.
Qed.

Lemma serves_good t w : serves t w → Good t w.
Proof using. induction 1 as [grace d t w Hb|t w o H IH Hd]; [by apply boots_good in Hb as [? _]|by apply perform_good]. Qed.

Lemma later_grows w w' : later w w' → ∀ b, Good b w → (∃ b', Good b' w') ∧ grows (view w.2) (view w'.2).
Proof using.
  induction 1 as [w|w w' o H IH Hd|w w' grace t w'' H IH Hb]; intros b HG.
  - split; [by eauto|apply grows_refl].
  - destruct (IH b HG) as [[b' HG'] Hgr]. destruct (perform_good b' w' o HG' Hd) as [H1 H2]. split; [by eauto|by eapply grows_trans].
  - destruct (IH b HG) as [_ Hgr]. destruct (boots_good _ _ _ _ Hb) as (H1 & -> & _). eauto.
Qed.

(** ** Who authenticates *)

(** A token of no bootstrap credential: nothing is filed under its plain SHA-256,
    and what is filed under the backend's hash is durable. *)
Record key_token (s : Store X D E) (token : string) : Prop := {
  kt_legacy : byTokenHash s !! hashToken token = None;
  kt_durable p r : byTokenHash s !! HashToken P token = Some p → heap s !! p = Some r → persisted r = true;
}.

Lemma lookup_key_token b w token p r :
  Good b w → key_token w.1 token →
  lookupTokenLocked w.1 token = Some (p, r) ↔ heap w.1 !! p = Some r ∧ tokenHash r = HashToken P token ∧ persisted r = true.
Proof using.
  intros [HI _] Hk. unfold lookupTokenLocked, hash. rewrite (inv_persist _ _ _ HI).
  assert (Hn : find_hash w.1 (hashToken token) = None) by (unfold find_hash; by rewrite (kt_legacy _ _ Hk)). rewrite Hn.
  transitivity (find_hash w.1 (HashToken P token) = Some (p, r)); [destruct (find_hash w.1 (HashToken P token)); naive_solver|]. rewrite find_hash_Some. split.
  - intros [H1 H2]. destruct (inv_hash _ _ _ HI _ _ H1) as (r' & Hr' & Er'). assert (r' = r) as -> by congruence.
    split_and!; [done..|]. by apply (kt_durable _ _ Hk p).
  - intros (H1 & H2 & H3). destruct (inv_own _ _ _ HI _ _ H1 H3) as (_ & H4 & _). rewrite <- H2. done.
Qed.

Lemma authenticate_Ok b w now used token c :
  Good b w → key_token w.1 token →
  (Authenticate now used token w).1 = Ok c ↔
  ∃ p r, heap w.1 !! p = Some r ∧ tokenHash r = HashToken P token ∧ persisted r = true ∧ rstate r = stateActive ∧
         (retiresAt r = time_zero ∨ now ≤ retiresAt r) ∧ c = with_LastUsedAt (cred r) used.
Proof using.
  intros HG Hk. pose proof (λ p r, lookup_key_token b w token p r HG Hk) as Hlk. destruct w as [s d]. unfold Authenticate. cbn [fst] in Hlk.
  assert (Hzero : ∀ t, negb (IsZero t) && After now t = false ↔ t = time_zero ∨ now ≤ t).
  { intros t. unfold IsZero, After. do 2 case_bool_decide; cbn; split; try done; try lia; auto. }
  split.
  - destruct (lookupTokenLocked s token) as [[p r]|]; [|done]. destruct (proj1 (Hlk p r) eq_refl) as (H1 & H2 & H3).
    case_bool_decide as Hst; [done|]. destruct (negb _ && _) eqn:Hz; [done|]. intros [= <-]. apply Hzero in Hz.
    exists p, r. split_and!; try done. by destruct (rstate r).
  - intros (p & r & H1 & H2 & H3 & H4 & H5 & ->). rewrite (proj2 (Hlk p r)) by done.
    rewrite H4. cbn. by rewrite (proj2 (Hzero _) H5).
Qed.

Lemma same_grant_sym c c' : same_grant c c' → same_grant c' c.
Proof using.
  intros [H1 H2 H3 H4 H5 H6 H7 H8]. split; try done. unfold same_tenant in *. apply andb_true_iff in H2 as [H2 H9].
  rewrite bool_decide_eq_true in H2, H9. rewrite <- H2. by rewrite !bool_decide_eq_true_2.
Qed.

Lemma same_grant_trans c1 c2 c3 : same_grant c1 c2 → same_grant c2 c3 → same_grant c1 c3.
Proof using.
  intros [] []. split; try congruence. unfold same_tenant in *. rewrite !andb_true_iff, !bool_decide_eq_true in *. intuition congruence.
Qed.

(** A row alive now has its record in memory, and its token opens the door. *)
Lemma active_row_authenticates b w now used token i v :
  Good b w → key_token w.1 token → b ≤ now → view w.2 !! i = Some v → active now v = true → kv_hash v = HashToken P token →
  ∃ c, (Authenticate now used token w).1 = Ok c ∧ same_grant c (kv_cred v).
Proof using.
  intros HG Hk Hb Hv Ha Hh. pose proof HG as [HI _].
  destruct (inv_rows _ _ _ HI _ _ Hv) as [(p & r & Hp & Hr & Hpr)|Hn]; [|by rewrite Hn in Ha].
  destruct (inv_own _ _ _ HI _ _ Hr Hpr) as (_ & _ & _ & v' & Hv' & Hag).
  destruct (inv_id _ _ _ HI _ _ Hp) as (r' & Hr' & <-). assert (r' = r) as -> by congruence. assert (v' = v) as -> by congruence.
  exists (with_LastUsedAt (cred r) used). rewrite (authenticate_Ok b w) by done. split; [|by destruct (ag_grant _ _ Hag); split].
  unfold active in Ha. rewrite !andb_true_iff, !negb_true_iff in Ha. destruct Ha as [[Ha1 Ha2] Ha3].
  exists p, r. split_and!; try done.
  - by rewrite <- (ag_hash _ _ Hag).
  - pose proof (ag_revoked _ _ Hag) as Er. rewrite Ha1 in Er. by destruct (rstate r).
  - pose proof (ag_deadline _ _ Hag) as Hd. unfold deadline_agrees in Hd. destruct (kv_retires v); [right|by left].
    cbn in Ha3. unfold After in Ha3. rewrite bool_decide_eq_false in Ha3. lia.
Qed.

(** What a token that authenticates says about the table. *)
Lemma authenticated_row b w now used token c :
  Good b w → key_token w.1 token → (Authenticate now used token w).1 = Ok c →
  ∃ p r v, heap w.1 !! p = Some r ∧ persisted r = true ∧ view w.2 !! ID c = Some v ∧ kv_hash v = HashToken P token ∧ agrees r v ∧
           c = with_LastUsedAt (cred r) used.
Proof using.
  intros HG Hk (p & r & H1 & H2 & H3 & H4 & _ & ->)%(authenticate_Ok b); [|done..]. pose proof HG as [HI _].
  destruct (inv_own _ _ _ HI _ _ H1 H3) as (_ & _ & _ & v & Hv & Hag). exists p, r, v. split_and!; try done.
  by rewrite (ag_hash _ _ Hag).
Qed.

(** A fresh process lets in exactly the tokens of live rows, with what their rows say. *)
Lemma fresh_row grace d t w now used token c :
  boots grace d t w → key_token w.1 token → (Authenticate now used token w).1 = Ok c →
  ∃ v, view d !! ID c = Some v ∧ active t v = true ∧ kv_hash v = HashToken P token ∧ c = with_LastUsedAt (kv_cred v) used.
Proof using.
  intros Hb Hk Hc. destruct (boots_good _ _ _ _ Hb) as (HG & <- & Hf).
  destruct (authenticated_row _ _ _ _ _ _ HG Hk Hc) as (p & r & v & Hr & Hp & Hv & Hh & Hag & ->).
  destruct (Hf p r Hr Hp) as (v0 & Hv0 & Ha & Er). cbn in Hv. assert (v0 = v) as -> by congruence.
  exists v. split_and!; try done. by rewrite Er.
Qed.

(** The token of a live row gets from a fresh process what its row says. *)
Lemma fresh_credential grace d t w now used token c v i :
  boots grace d t w → key_token w.1 token → (Authenticate now used token w).1 = Ok c → same_grant c (kv_cred v) →
  view d !! i = Some v → c = with_LastUsedAt (kv_cred v) used.
Proof using.
  intros Hb Hk Hc Hsg Hv. destruct (fresh_row _ _ _ _ _ _ _ _ Hb Hk Hc) as (v' & Hv' & _ & _ & ->).
  cbn in Hv', Hsg. pose proof (sg_id _ _ Hsg) as Ei. cbn in Ei. rewrite <- Ei, (dk_id _ _ _ Hv) in Hv'. by assert (v' = v) as -> by congruence.
Qed.

(** A record and its row, each as a caller who authenticates sees it. *)
Lemma agrees_fresh r v c' used :
  agrees r v → c' = with_LastUsedAt (kv_cred v) used →
  same_grant (with_LastUsedAt (cred r) used) c' ∧ keeps dk_scope dk_ttl (with_LastUsedAt (cred r) used) c'.
Proof using. intros [_ [] [] _ _] ->. by repeat split. Qed.

Lemma authenticate_unknown (w : Store X D E * D) now used token e : (Authenticate now used token w).1 = Err e → e = ErrUnknownKey.
Proof using.
  destruct w as [s d]. unfold Authenticate. destruct (lookupTokenLocked s token) as [[p r]|]; [|by intros [= <-]].
  destruct (bool_decide _); [by intros [= <-]|]. destruct (negb _ && _); [by intros [= <-]|done].
Qed.

(** C4: A restart keeps the keys that have not expired.  Take a token other than those of bootstrap credentials (which
    live in memory alone).  Whatever the process did before, at the moment a new process has booted from its table the
    token authenticates exactly when it authenticated before and its row is neither revoked, expired nor past its
    deadline.  The credential has the same id, tenant, kinds, last four characters, flags, user and roles; its scope
    predicate and its lifetime are as they were or in the form the table stores them, which is not always an equivalent
    one: an empty predicate is stored as an empty JSON object. *)
Theorem restart_keeps_keys t w grace t' w' token used :
  serves t w → boots grace w.2 t' w' → t ≤ t' → key_token w.1 token → key_token w'.1 token →
  (∀ c v, (Authenticate t' used token w).1 = Ok c → view w.2 !! ID c = Some v → active t' v = true →
     ∃ c', (Authenticate t' used token w').1 = Ok c' ∧ same_grant c c' ∧ keeps dk_scope dk_ttl c c') ∧
  (∀ c', (Authenticate t' used token w').1 = Ok c' →
     ∃ c v, (Authenticate t' used token w).1 = Ok c ∧ view w.2 !! ID c = Some v ∧ active t' v = true ∧
            same_grant c c' ∧ keeps dk_scope dk_ttl c c').
Proof using.
  intros HG%serves_good Hb Ht Hk Hk'. destruct (boots_good _ _ _ _ Hb) as (HG' & Ed & Hf). split.
  - intros c v Hc Hv Ha. destruct (authenticated_row _ _ _ _ _ _ HG Hk Hc) as (p & r & v0 & _ & _ & Hv0 & Hh & Hag & ->).
    assert (v0 = v) as -> by congruence.
    destruct (active_row_authenticates t' w' t' used token _ v HG' Hk' ltac:(done)
                ltac:(by rewrite Ed) Ha Hh) as (c' & Hc' & Hsg). exists c'. split; [done|].
    destruct (agrees_fresh r v c' used Hag) as [? ?]; [|done].
    by eapply fresh_credential.
  - intros c' Hc'. destruct (fresh_row _ _ _ _ _ _ _ _ Hb Hk' Hc') as (v & Hv & Ha & Hh & Ec').
    destruct (active_row_authenticates t w t' used token _ v HG Hk Ht Hv Ha Hh) as (c & Hc & Hsg).
    destruct (authenticated_row _ _ _ _ _ _ HG Hk Hc) as (p & r & v0 & _ & _ & Hv0 & _ & Hag & ->).
    assert (ID (with_LastUsedAt (cred r) used) = ID c') as Ei by (by rewrite <- (sg_id _ _ Hsg), (dk_id _ _ _ Hv)).
    assert (v0 = v) as -> by congruence. exists (with_LastUsedAt (cred r) used), v. split_and!; [done..| |];
      by apply (agrees_fresh r v c' used Hag).
Qed.

(** C5: A revocation is for good.  Once [Revoke] of a durable credential has succeeded, no token authenticates as that
    credential again, after whatever sequence of issues, rotations, revocations and restarts. *)
Theorem revoked_for_good t w env id p r w1 w2 :
  serves t w → find_id w.1 id = Some (p, r) → persisted r = true → Revoke env id w = (Ok (), w1) → later w1 w2 →
  ∀ token now used c, (Authenticate now used token w2).1 = Ok c → ID c ≠ id.
Proof using.
  intros HG%serves_good [Hid Hr]%find_id_Some Hp Hrev Hl token now used c Hc Ei.
  pose proof (revoke_good t w env id HG) as [HG1 _]. rewrite Hrev in HG1. cbn [snd] in HG1.
  assert (Hrow : ∃ v, view w1.2 !! id = Some v ∧ kv_revoked v = true).
  { destruct w as [s d]. destruct HG as [HI Hw]. cbn [fst snd] in *. destruct (inv_id _ _ _ HI _ _ Hid) as (r' & Hr' & <-).
    assert (r' = r) as -> by congruence. destruct (inv_own _ _ _ HI _ _ Hr Hp) as (_ & _ & Hm & v & Hv & Hag).
    unfold Revoke in Hrev. rewrite (proj2 (find_id_Some s _ p r)), (inv_persist _ _ _ HI), Hp in Hrev by done.
    destruct (p_Revoke P _ _ _ d) as [[[]|] d'] eqn:Hpr; [|done]. injection Hrev as <-. apply dk_revoke in Hpr as [_ Hvd]; [|done..].
    cbn [snd]. rewrite Hvd, lookup_alter_eq, Hv. eexists. split; [done|]. unfold revoke. by rewrite (sg_tenant _ _ (ag_grant _ _ Hag)). }
  destruct Hrow as (v & Hv & Hrv). destruct (later_grows _ _ Hl t HG1) as [[b' [HI' _]] Hgr].
  destruct (Hgr id v Hv) as (v' & Hv' & _ & Hrv'). specialize (Hrv' Hrv).
  destruct w2 as [s2 d2]. unfold Authenticate in Hc. cbn [fst snd] in *.
  destruct (lookupTokenLocked s2 token) as [[q r2]|] eqn:Hlk; [|done]. apply lookup_token_heap in Hlk.
  case_bool_decide as Hst; [done|]. destruct (negb _ && _); [done|]. injection Hc as <-. cbn in Ei.
  destruct (persisted r2) eqn:Hp2.
  - destruct (inv_own _ _ _ HI' _ _ Hlk Hp2) as (_ & _ & _ & v2 & Hv2 & Hag2). rewrite Ei in Hv2. assert (v2 = v') as -> by congruence.
    rewrite (ag_revoked _ _ Hag2), bool_decide_eq_true in Hrv'. done.
  - apply (inv_memory _ _ _ HI' _ _ Hlk Hp2). rewrite Ei. by eapply dk_view_minted.
Qed.

(** Only a restart enforces an expiry.  A token whose row expires at [e] and has no deadline authenticates at every
    later time for as long as the process runs; a process booted after [e] never lets it in. *)
Theorem expiry_waits_for_restart t w now used token c v e :
  serves t w → key_token w.1 token → (Authenticate now used token w).1 = Ok c → view w.2 !! ID c = Some v →
  kv_expires v = Some e → kv_retires v = None →
  (∀ now', (Authenticate now' used token w).1 = Ok c) ∧
  (∀ grace t' w' now', boots grace w.2 t' w' → e < t' → key_token w'.1 token →
     (Authenticate now' used token w').1 = Err ErrUnknownKey).
Proof using.
  intros HG%serves_good Hk Hc Hv He Hr. split.
  - intros now'. rewrite (authenticate_Ok t w) by done.
    destruct (authenticated_row _ _ _ _ _ _ HG Hk Hc) as (p0 & r0 & v0 & Hr0 & Hp0 & Hv0 & Hh0 & Hag & ->).
    assert (v0 = v) as -> by congruence. apply (authenticate_Ok t w) in Hc as (p & r & H1 & H2 & H3 & H4 & _ & Ec); [|done..].
    exists p, r. split_and!; try done. left. destruct HG as [HI _].
    destruct (inv_own _ _ _ HI _ _ H1 H3) as (_ & H6 & _). destruct (inv_own _ _ _ HI _ _ Hr0 Hp0) as (_ & H7 & _).
    rewrite <- (ag_hash _ _ Hag), Hh0, <- H2, H6 in H7. assert (r = r0) as -> by congruence.
    pose proof (ag_deadline _ _ Hag) as Hd. by rewrite Hr in Hd.
  - intros grace t' w' now' Hb Hlt Hk'.
    destruct (Authenticate now' used token w').1 as [c'|er] eqn:Hc'.
    + exfalso. destruct (fresh_row _ _ _ _ _ _ _ _ Hb Hk' Hc') as (v' & Hv' & Ha & Hh' & _).
      destruct (authenticated_row _ _ _ _ _ _ HG Hk Hc) as (_ & _ & v1 & _ & _ & Hv1 & Hh1 & _ & _).
      assert (v1 = v) as -> by congruence. destruct HG as [_ Hw].
      assert (ID c = ID c') as Ei by (apply (dk_hash w.2 _ _ v v'); congruence).
      rewrite <- Ei, Hv in Hv'. injection Hv' as <-. unfold active, passed, After in Ha. rewrite He in Ha.
      rewrite bool_decide_eq_true_2 in Ha by done. by rewrite andb_false_r in Ha.
    + by apply authenticate_unknown in Hc' as ->.
Qed.

(** Writes fail closed.  With the backend attached, an issue, a rotation or a revocation that reports an error has
    changed nothing, in memory or in the table. *)
Theorem writes_fail_closed (s : Store X D E) d env g id :
  persist s = Some P →
  (∀ e w, issueLocked env g (s, d) = (Err e, w) → w = (s, d)) ∧
  (∀ e w, Rotate env id (s, d) = (Err e, w) → w = (s, d)) ∧
  (∀ e w, Revoke env id (s, d) = (Err e, w) → w = (s, d)).
Proof using DK.
  intros Hp. split_and!; intros e w.
  - unfold issueLocked. destruct (buildLocked env s g) as [[[c tok] r]|]; [|by intros [= _ <-]]. rewrite Hp.
    destruct (Insert P _ _ d) as [[?|e0] d'] eqn:Hi; [done|]. intros [= _ <-]. by apply dk_insert_err in Hi as ->.
  - unfold Rotate. destruct (find_id s id) as [[p r]|]; [|by intros [= _ <-]]. destruct (negb _); [by intros [= _ <-]|].
    destruct (negb _); [by intros [= _ <-]|]. destruct (buildLocked env s _) as [[[c tok] rec]|]; [|by intros [= _ <-]]. rewrite Hp.
    destruct (persisted r).
    + destruct (p_Rotate P _ _ _ _ _ d) as [[?|e0] d'] eqn:Hi; [done|]. intros [= _ <-]. by apply dk_rotate_err in Hi as ->.
    + destruct (Insert P _ _ d) as [[?|e0] d'] eqn:Hi; [done|]. intros [= _ <-]. by apply dk_insert_err in Hi as ->.
  - unfold Revoke. destruct (find_id s id) as [[p r]|]; [|by intros [= _ <-]]. rewrite Hp. destruct (persisted r); [|done].
    destruct (p_Revoke P _ _ _ d) as [[?|e0] d'] eqn:Hi; [done|]. intros [= _ <-]. by apply dk_revoke_err in Hi as ->.
Qed.

(** What a successful rotation of a durable credential leaves behind. *)
Lemma rotate_shape b w env id p r succ bearer deadline w' :
  Good b w → Evidence.unix_epoch ≤ env_rotated env → byID w.1 !! id = Some p → heap w.1 !! p = Some r → persisted r = true →
  Rotate env id w = (Ok (succ, bearer, deadline), w') →
  rstate r = stateActive ∧ deadline = env_rotated env + rotationGrace w.1 ∧
  HashToken P bearer ≠ tokenHash r ∧ ID succ ≠ id ∧
  w'.1 = swap p (mkRecord succ (HashToken P bearer) stateActive time_zero true) deadline w.1 ∧
  RotatedFrom succ = id ∧ TenantID succ = TenantID (cred r) ∧ ScopePredicate succ = ScopePredicate (cred r) ∧
  Kinds succ = Kinds (cred r) ∧ IsAdmin succ = IsAdmin (cred r) ∧ IsApprover succ = IsApprover (cred r) ∧
  OwnerRoles succ = OwnerRoles (cred r).
Proof using.
  destruct w as [s d]. intros [HI Hw] Ht Hid Hr Hpr. cbn [fst snd] in *. unfold Rotate. rewrite (proj2 (find_id_Some s id p r)) by done.
  case_bool_decide as Hst; [cbn [negb]|done]. destruct (IsZero _); cbn [negb]; [|done]. set (g := mkGrant _ _ _ _ _ _ _ _).
  destruct (buildLocked env s g) as [[[c tok] rec]|] eqn:Hb; [|done].
  assert (Hg : RotatedFrom c = id ∧ TenantID c = TenantID (cred r) ∧ ScopePredicate c = ScopePredicate (cred r) ∧ Kinds c = Kinds (cred r) ∧
               IsAdmin c = IsAdmin (cred r) ∧ IsApprover c = IsApprover (cred r) ∧ OwnerRoles c = OwnerRoles (cred r)).
  { unfold buildLocked in Hb. apply result_bind_Ok in Hb as (? & _ & Hb). apply result_bind_Ok in Hb as (? & _ & Hb). by simplify_eq. }
  apply build_ok in Hb as (Hm & Hu & _ & ->); [|apply HI]. rewrite (inv_persist _ _ _ HI), Hpr.
  destruct (inv_id _ _ _ HI _ _ Hid) as (r' & Hr' & <-). assert (r' = r) as -> by congruence.
  destruct (inv_own _ _ _ HI _ _ Hr Hpr) as (_ & _ & Hmp & v & Hv & Hag).
  destruct (p_Rotate P _ _ _ _ _ d) as [[[]|e] d'] eqn:Hrot; [|done]. intros [= -> -> <- <-].
  assert (Hfresh : ID succ ≠ ID (cred r) ∧ HashToken P bearer ≠ tokenHash r); [|naive_solver].
  apply dk_rotate with (token := bearer) in Hrot as (_ & m & [Hn Hh _] & _); try done; [|pose proof (inv_grace _ _ _ HI); lia].
  cbn in Hn, Hh. split; [congruence|]. rewrite <- (ag_hash _ _ Hag). by apply not_eq_sym, (Hh _ _ Hv).
Qed.

(** C33: A rotation hands over.  The predecessor's token works until the deadline, and at no time after it; the
    successor's works at once and carries the same authority; the predecessor cannot be rotated again. *)
Theorem rotation_hands_over t w env id token now used c succ bearer deadline w' :
  serves t w → Evidence.unix_epoch ≤ env_rotated env → key_token w.1 token →
  (Authenticate now used token w).1 = Ok c → ID c = id → Rotate env id w = (Ok (succ, bearer, deadline), w') →
  deadline = env_rotated env + rotationGrace w.1 ∧
  (∀ now', is_Ok (Authenticate now' used token w').1 = bool_decide (now' ≤ deadline)) ∧
  (∀ now', (Authenticate now' used bearer w').1 = Ok (with_LastUsedAt succ used)) ∧
  RotatedFrom succ = id ∧ TenantID succ = TenantID c ∧ ScopePredicate succ = ScopePredicate c ∧ Kinds succ = Kinds c ∧
  IsAdmin succ = IsAdmin c ∧ IsApprover succ = IsApprover c ∧ OwnerRoles succ = OwnerRoles c ∧
  (∀ env', (Rotate env' id w').1 = Err ErrUnknownKey).
Proof using.
  intros HG%serves_good Ht Hk (p & r & H1 & H2 & H3 & _ & _ & ->)%(authenticate_Ok t) <- Hrot; [|done..]. cbn [ID with_LastUsedAt] in *.
  pose proof HG as [HI _]. destruct (inv_own _ _ _ HI _ _ H1 H3) as (Hb & Hh & _).
  destruct (rotate_shape _ _ _ _ _ _ _ _ _ _ HG Ht Hb H1 H3 Hrot) as (Hst & Hd & Hnh & Hni & Hw' & Hrest).
  assert (Hpos : 0 < deadline) by (pose proof (inv_grace _ _ _ HI); unfold Evidence.unix_epoch, ns_per_day, ns_per_second in Ht; lia).
  pose proof (rotate_good t w env (ID (cred r)) HG Ht) as [[HI' _] _]. rewrite Hrot in HI'. cbn [snd] in HI'.
  destruct w' as [s' d']. cbn [fst] in *. pose proof (lookup_lt_Some _ _ _ H1) as Hlt.
  assert (Hp' : heap s' !! p = Some (with_retires r deadline)).
  { rewrite Hw'. unfold swap. apply heap_modify. exists r. case_decide; [|done]. split; [|done]. apply heap_put. by left. }
  split; [done|]. split; [|split; [|split_and!; try apply Hrest]].
  - intros now'. unfold Authenticate, lookupTokenLocked, hash. rewrite (inv_persist _ _ _ HI').
    rewrite (proj2 (find_hash_Some s' (HashToken P token) p (with_retires r deadline))).
    2: { split; [|done]. rewrite Hw', <- H2. cbn. by rewrite lookup_insert_ne. }
    cbn. rewrite Hst. cbn. unfold IsZero, After. rewrite (bool_decide_eq_false_2 (deadline = _)) by (unfold time_zero; lia). cbn.
    repeat case_bool_decide; try done; lia.
  - intros now'. unfold Authenticate, lookupTokenLocked, hash. rewrite (inv_persist _ _ _ HI').
    rewrite (proj2 (find_hash_Some s' (HashToken P bearer) (length (heap w.1)) (mkRecord succ (HashToken P bearer) stateActive time_zero true))); [done|].
    split; [by rewrite Hw'; cbn; rewrite lookup_insert_eq|]. rewrite Hw'. unfold swap. apply heap_modify.
    eexists. split; [apply heap_put; by right|]. case_decide; [lia|done].
  - intros env'. unfold Rotate. rewrite (proj2 (find_id_Some s' (ID (cred r)) p (with_retires r deadline))).
    2: { split; [|done]. rewrite Hw'. cbn. by rewrite lookup_insert_ne. }
    cbn. rewrite Hst. cbn. unfold IsZero. rewrite (bool_decide_eq_false_2 (deadline = _)) by (unfold time_zero; lia). done.
Qed.
End Process.
End CredSpec.
