(* ===== verification/CredApi.v ===== *)
(** * Who gets in, and who manages credentials

    Models the gRPC interceptor that authenticates every call (internal/api/server.go),
    the AdminCredentials service behind it (internal/api/admin/service.go), the
    middleware that binds a request to its tenant (internal/api/tenancymw), and the
    HTTP routes under /v1/admin/credentials (internal/api/admincreds/http.go).  The
    JSON and protobuf bodies arrive decoded; formatted error texts are cut to their
    fixed part. *)

From Stdlib Require Import Ascii.
From S2P Require Import Prelude GoTime Tenancy Json Sha256 GoJson Postgres Redact EvidenceRecord Ingest Http Bearer CredStore ApiKey.

Module CredApi.
Import CredStore.

(** ** gRPC *)

Inductive Code := InvalidArgument | NotFound | Internal | Unauthenticated.
Inductive Rpc (A : Type) := RpcOk (a : A) | RpcErr (code : Code) (msg : string).
Arguments RpcOk {A} _.
Arguments RpcErr {A} _ _.

(** [strings.EqualFold(s, "bearer")]: none of its letters folds outside ASCII. *)
Definition lower_ascii (c : ascii) : ascii :=
  let n := code c in if ((65 <=? n) && (n <=? 90))%N then byte (n + 32) else c.
Fixpoint lower_text (s : string) : string := match s with "" => "" | String c s => String (lower_ascii c) (lower_text s) end.

(** [md]: the values of the authorization key, if the call has metadata. *)
Definition extractBearer (md : option (list string)) : Rpc string :=
  match md with
  | None => RpcErr Unauthenticated "missing metadata"
  | Some [] => RpcErr Unauthenticated "missing authorization metadata"
  | Some (auth :: _) =>
      match cut_on " " (TrimSpace auth) with
      | None => RpcErr Unauthenticated "authorization must be `Bearer <token>`"
      | Some (scheme, rest) =>
          if negb (bool_decide (lower_text scheme = "bearer")) then RpcErr Unauthenticated "authorization must be `Bearer <token>`"
          else
            let tok := TrimSpace rest in
            if bool_decide (tok = "") then RpcErr Unauthenticated "authorization must be `Bearer <token>`" else RpcOk tok
      end
  end.

(** [adminv1.ApiKeyHandle] *)
Record ApiKeyHandle := mkHandle {
  ah_Id : string;
  ah_TenantId : string;
  ah_ScopePredicate : string;
  ah_Kinds : list string;
  ah_Ttl : Duration;
  ah_IssuedAt : Time;
  ah_LastUsedAt : option Time;
  ah_RotatedFrom : string;
  ah_Last4 : string;
}.

Definition handleFromCred (c : Credential) : ApiKeyHandle :=
  mkHandle (ID c) (TenantID c) (ScopePredicate c) (Kinds c) (TTL c) (IssuedAt c)
    (if IsZero (LastUsedAt c) then None else Some (LastUsedAt c)) (RotatedFrom c) (Last4 c).

Record RpcIssueRequest := mkRpcIssue { ri_TenantId : string; ri_ScopePredicate : string; ri_Kinds : list string; ri_Ttl : Duration }.

Section Rpc.
Context {X D E : Type}.

Definition authInterceptor {A} (now used : Time) (md : option (list string))
    (handler : Credential → Store X D E * D → Rpc A * (Store X D E * D)) (w : Store X D E * D) : Rpc A * (Store X D E * D) :=
  match extractBearer md with
  | RpcErr c m => (RpcErr c m, w)
  | RpcOk token =>
      match Authenticate now used token w with
      | (Err ErrUnknownKey, w') => (RpcErr Unauthenticated "invalid or revoked bearer token", w')
      | (Err _, w') => (RpcErr Internal "authenticate", w')
      | (Ok cred, w') => handler cred w'
      end
  end.

(** The handlers of the service; none of them looks at the credential. *)
Definition RpcIssue (env : Env X) (req : RpcIssueRequest) (_ : Credential) (w : Store X D E * D)
  : Rpc (ApiKeyHandle * string) * (Store X D E * D) :=
  if bool_decide (ri_TenantId req = "") then (RpcErr InvalidArgument "tenant_id is required", w)
  else match Issue env (ri_TenantId req) (ri_ScopePredicate req) (ri_Kinds req) (ri_Ttl req) w with
       | (Err _, w') => (RpcErr Internal "issue", w')
       | (Ok (cred, bearer), w') => (RpcOk (handleFromCred cred, bearer), w')
       end.

Definition RpcRotate (env : Env X) (id : string) (_ : Credential) (w : Store X D E * D)
  : Rpc (ApiKeyHandle * string * Time) * (Store X D E * D) :=
  if bool_decide (id = "") then (RpcErr InvalidArgument "id is required", w)
  else match Rotate env id w with
       | (Err ErrUnknownKey, w') => (RpcErr NotFound "unknown key id", w')
       | (Err _, w') => (RpcErr Internal "rotate", w')
       | (Ok (successor, bearer, predecessorExpiresAt), w') => (RpcOk (handleFromCred successor, bearer, predecessorExpiresAt), w')
       end.

Definition RpcRevoke (env : Env X) (id : string) (_ : Credential) (w : Store X D E * D) : Rpc () * (Store X D E * D) :=
  if bool_decide (id = "") then (RpcErr InvalidArgument "id is required", w)
  else match Revoke env id w with
       | (Err ErrUnknownKey, w') => (RpcErr NotFound "unknown key id", w')
       | (Err _, w') => (RpcErr Internal "revoke", w')
       | (Ok _, w') => (RpcOk (), w')
       end.

Definition RpcList {PL : Planner} (now : Time) (tenantId : string) (_ : Credential) (w : Store X D E * D)
  : Rpc (list ApiKeyHandle) * (Store X D E * D) :=
  if bool_decide (tenantId = "") then (RpcErr InvalidArgument "tenant_id is required", w)
  else (RpcOk (handleFromCred <$> List_ now tenantId w.1), w).
End Rpc.

(** What the ingestion service reads of the credential in the context. *)
Definition ingest_cred (c : Credential) : Ingest.Credential := Ingest.mkCredential (ID c) (TenantID c) (ScopePredicate c) (Kinds c).

(** ** HTTP *)

Definition StatusNoContent : Z := 204.
Definition StatusInternalServerError : Z := 500.

(** The context and the credential in it; [aq_tenant_param] is the query's tenant_id. *)
Record Request := mkRequest { aq_ctx : Context; aq_cred : option Credential; aq_id : string; aq_tenant_param : string }.

Record IssueRequest := mkIssueRequest {
  iq_TenantID : string;
  iq_ScopePredicate : string;
  iq_AllowedKinds : list string;
  iq_TTLSeconds : Z;
  iq_IsAdmin : bool;
  iq_IsApprover : bool;
  iq_OwnerRoles : list string;
}.

Record IssueResponse := mkIssueResponse {
  ir_ID : string;
  ir_TenantID : string;
  ir_BearerToken : string;
  ir_Last4 : string;
  ir_IssuedAt : Time;
  ir_ExpiresAt : string;
}.

Record ListItem := mkListItem {
  li_ID : string;
  li_TenantID : string;
  li_ScopePredicate : string;
  li_AllowedKinds : list string;
  li_Last4 : string;
  li_IssuedAt : Time;
  li_LastUsedAt : option Time;
  li_IsAdmin : bool;
  li_IsApprover : bool;
  li_OwnerRoles : list string;
  li_RotatedFrom : string;
}.

Record RotateResponse := mkRotateResponse {
  rr_ID : string;
  rr_BearerToken : string;
  rr_Last4 : string;
  rr_PredecessorExpiresAt : Time;
}.

Section Http.
Context {UT : UUIDText} {JB : JsonB} {PL : Planner}.

(** [tenancymw.Middleware] *)
Definition Middleware {A S} (next : Request → S → Reply A * S) (r : Request) (s : S) : Reply A * S :=
  match aq_cred r with
  | None => next r s
  | Some cred =>
      match WithTenant (aq_ctx r) (TenantID cred) with
      | Err _ => (WriteError StatusInternalServerError "internal server error", s)
      | Ok ctx => next (mkRequest ctx (aq_cred r) (aq_id r) (aq_tenant_param r)) s
      end
  end.

Definition requireAdmin (r : Request) : result (Z * string) Credential :=
  match aq_cred r with
  | None => Err (StatusUnauthorized, "missing credential")
  | Some cred => if IsAdmin cred then Ok cred else Err (StatusForbidden, "admin credential required")
  end.

(** [strings.TrimPrefix(s, "key_")] *)
Definition parseCredID (s : string) : option UUID := uuid_Parse (default s (ApiKey.cut_key s)).

Definition HttpIssue (st : ApiKey.Store) (env : ApiKey.Env) (body : option IssueRequest) (r : Request) (d : ApiKey.DB)
  : Reply IssueResponse * ApiKey.DB :=
  match requireAdmin r with
  | Err (c, m) => (WriteError c m, d)
  | Ok cred =>
      match body with
      | None => (WriteError StatusBadRequest "invalid JSON body", d)
      | Some req =>
          if negb (bool_decide (iq_TenantID req = "")) then
            (WriteError StatusBadRequest "tenant_id is not accepted; tenant is derived from the calling credential", d)
          else
            match ApiKey.Issue st env (aq_ctx r) (TenantID cred)
                    (ApiKey.mkInput (iq_ScopePredicate req) (iq_AllowedKinds req) (ApiKey.seconds (iq_TTLSeconds req)) (iq_IsAdmin req)
                       (iq_IsApprover req) (iq_OwnerRoles req) None) d with
            | (Err _, d') => (WriteInternal "issue failed", d')
            | (Ok (issued, plain), d') =>
                (WriteJSON StatusCreated
                   (mkIssueResponse (ID issued) (TenantID issued) plain (Last4 issued) (IssuedAt issued)
                      (if negb (IsZero (IssuedAt issued)) && (0 <? TTL issued) then FormatRFC3339 (IssuedAt issued + TTL issued) else "")), d')
            end
      end
  end.

Definition listItem (c : Credential) : ListItem :=
  mkListItem (ID c) (TenantID c) (ScopePredicate c) (Kinds c) (Last4 c) (IssuedAt c)
    (if IsZero (LastUsedAt c) then None else Some (LastUsedAt c)) (IsAdmin c) (IsApprover c) (OwnerRoles c) (RotatedFrom c).

Definition HttpList (env : ApiKey.Env) (r : Request) (d : ApiKey.DB) : Reply (list ListItem) * ApiKey.DB :=
  match requireAdmin r with
  | Err (c, m) => (WriteError c m, d)
  | Ok cred =>
      if negb (bool_decide (aq_tenant_param r = "")) then
        (WriteError StatusBadRequest "tenant_id query parameter is not accepted; tenant is derived from the calling credential", d)
      else match ApiKey.List_ env (aq_ctx r) (TenantID cred) d with
           | (Err _, d') => (WriteInternal "list failed", d')
           | (Ok creds, d') => (WriteJSON StatusOK (listItem <$> creds), d')
           end
  end.

(** What Rotate and Revoke check before they call the store. *)
Definition admin_target (r : Request) : result (Z * string) (Credential * UUID) :=
  cred ← requireAdmin r;
  match parseCredID (aq_id r) with
  | None => Err (StatusBadRequest, "invalid credential id")
  | Some uid =>
      match TenantFromContext (aq_ctx r) with
      | Err _ => Err (StatusBadRequest, "invalid tenant in credential")
      | Ok _ => Ok (cred, uid)
      end
  end.

Definition HttpRotate (st : ApiKey.Store) (env : ApiKey.Env) (r : Request) (d : ApiKey.DB) : Reply RotateResponse * ApiKey.DB :=
  match admin_target r with
  | Err (c, m) => (WriteError c m, d)
  | Ok (cred, uid) =>
      match ApiKey.Rotate st env (aq_ctx r) (TenantID cred) uid d with
      | (Err ApiKey.ErrUnknownKey, d') => (WriteError StatusNotFound "unknown credential id", d')
      | (Err _, d') => (WriteInternal "rotate failed", d')
      | (Ok (successor, plain, predExp), d') =>
          (WriteJSON StatusOK (mkRotateResponse (ID successor) plain (Last4 successor) predExp), d')
      end
  end.

Definition HttpRevoke (env : ApiKey.Env) (r : Request) (d : ApiKey.DB) : Reply () * ApiKey.DB :=
  match admin_target r with
  | Err (c, m) => (WriteError c m, d)
  | Ok (cred, uid) =>
      match ApiKey.Revoke env (aq_ctx r) (TenantID cred) uid d with
      | (Err ApiKey.ErrUnknownKey, d') => (WriteError StatusNotFound "unknown credential id", d')
      | (Err _, d') => (WriteInternal "revoke failed", d')
      | (Ok _, d') => (WriteJSON StatusNoContent (), d')
      end
  end.
End Http.
End CredApi.
