(* ===== verification/CredApiSpec.v ===== *)
(** * What the services around the credential stores promise

    The credential store of the gRPC services and the table of API keys behind the
    administration routes are one system: they share the table.  The theorems relate
    the two, and say what the routes and the service guard.

    Module CredDemo applies the theorems of CredSpec and of this file to a process that
    issues a key for a connector, rotates it, revokes it and restarts. *)

From Stdlib Require Import Ascii.
From S2P Require Import Prelude GoTime Tenancy Json Sha256 GoJson Postgres Redact EvidenceRecord Ingest Http IngestSpec IngestDemo Bearer CredStore ApiKey ApiKeySpec CredSpec CredApi.

Module CredApiSpec.
Import CredStore CredApi ApiKeySpec CredSpec.

Section Services.
Context {UT : UUIDText} {KT : KeyText} {JB : JsonB} {PL : Planner} (h : Bearer.Hasher).
Abbreviation P := (ApiKey.NewPersister h).
Abbreviation World := (Store ApiKey.XEnv ApiKey.DB ApiKey.Error * ApiKey.DB)%type.

Lemma view_keys d : view (P := P) d = keys d.
Proof using. done. Qed.

(** ** Two stores, one table *)

Lemma by_hash_Some d hs r : ApiKey.GetAPIKeyByHash true hs d = Some r → r ∈ d ∧ ApiKey.ak_TokenHash r = hs.
Proof using.
  unfold ApiKey.GetAPIKeyByHash. destruct (select_where _ d) as [|q l] eqn:Es; [done|]. intros [= ->].
  assert (Hr : r ∈ select_where (λ r, true && bool_decide (ApiKey.ak_TokenHash r = hs)) d) by (rewrite Es; left).
  apply elem_of_select_where in Hr as [Hh Hr]. by rewrite andb_true_l, bool_decide_eq_true in Hh.
Qed.

Lemma by_hash_None d hs r : ApiKey.GetAPIKeyByHash true hs d = None → r ∈ d → ApiKey.ak_TokenHash r ≠ hs.
Proof using.
  unfold ApiKey.GetAPIKeyByHash. intros Hn Hr Hh. destruct (select_where _ d) as [|q l] eqn:Es; [|done].
  assert (Hin : r ∈ select_where (λ r, true && bool_decide (ApiKey.ak_TokenHash r = hs)) d).
  { apply elem_of_select_where. by rewrite andb_true_l, bool_decide_eq_true. }
  rewrite Es in Hin. by apply elem_of_nil in Hin.
Qed.

(** The row behind a hash. *)
Lemma hash_row d i v token :
  table_wf d → keys d !! i = Some v → kv_hash v = HashToken P token →
  ∃ r, r ∈ d ∧ v = view_of r ∧ i = row_key r ∧ ApiKey.ak_TokenHash r = Bearer.Hash h token.
Proof using.
  intros Hw (r & Hr & -> & ->)%keys_lookup_1 Hh. exists r. split_and!; try done. cbn in Hh.
  apply EncodeToString_inj in Hh; [done|by apply (tw_bytes d)|apply Bearer.Hash_byte].
Qed.

Lemma active_view_of now r :
  active now (view_of r) =
  ApiKey.unrevoked r && negb (ApiKey.past now (ApiKey.ak_ExpiresAt r)) && negb (ApiKey.past now (ApiKey.ak_RetiresAt r)).
Proof using. unfold active. cbn. by rewrite negb_involutive. Qed.

(** C34: The two stores agree at boot on the keys of the table.  Take any bearer other than the tokens of bootstrap and
    fixed administrator credentials, which only memory knows.  When the process has just loaded the table, the
    credential store in memory and the store that asks the table at that instant, over a pool that bypasses row-level
    security and whose query succeeds, answer it alike: both refuse it, or both give the same credential. *)
Theorem boot_agrees_with_table grace d t w st env token used :
  boots P grace d t w → key_token P w.1 token → token ≠ "" →
  ApiKey.hasher st = h → ApiKey.authBypass st = true → ApiKey.ae_query_ok env = true → ApiKey.ae_clock env = t →
  (Authenticate t used token w).1 =
  match (ApiKey.Authenticate st env token d).1 with
  | Ok c => Ok (with_LastUsedAt c used)
  | Err _ => Err ErrUnknownKey
  end.
Proof using KT.
  intros Hb Hk Hne Hh Hby Hq Hc. destruct (boots_good P _ _ _ _ Hb) as (HG & Ed & _). pose proof HG as [_ Hw]. rewrite Ed in Hw.
  assert (Hapi : ∀ c, (ApiKey.Authenticate st env token d).1 = Ok c ↔
                 ∃ r, r ∈ d ∧ ApiKey.ak_TokenHash r = Bearer.Hash h token ∧ active t (view_of r) = true ∧ c = ApiKey.credentialFromRow r).
  { intros c. unfold ApiKey.Authenticate. rewrite bool_decide_eq_false_2, Hq, Hby, Hh, Hc by done. cbn [negb].
    destruct (ApiKey.GetAPIKeyByHash true _ d) as [r|] eqn:Hg.
    - apply by_hash_Some in Hg as [Hr Er].
      assert (Hone : (∃ r', r' ∈ d ∧ ApiKey.ak_TokenHash r' = Bearer.Hash h token ∧ active t (view_of r') = true ∧
                        c = ApiKey.credentialFromRow r') ↔ active t (view_of r) = true ∧ c = ApiKey.credentialFromRow r).
      { split; [|by eauto 6]. intros (r' & Hr' & Er' & Ha & ->).
        assert (r' = r) as -> by (apply (NoDup_key_inj ApiKey.ak_TokenHash d); [apply Hw|done|done|congruence]). done. }
      rewrite Hone, active_view_of. destruct (ApiKey.unrevoked r), (ApiKey.past t (ApiKey.ak_RetiresAt r)),
        (ApiKey.past t (ApiKey.ak_ExpiresAt r)); cbn; naive_solver.
    - split; [done|]. intros (r & Hr & Er & _). by destruct (by_hash_None _ _ _ Hg Hr). }
  destruct (ApiKey.Authenticate st env token d).1 as [c|e] eqn:Ha.
  - destruct (proj1 (Hapi c) eq_refl) as (r & Hr & Er & Hact & ->).
    assert (Hv : keys d !! row_key r = Some (view_of r)) by (apply keys_lookup; [apply Hw|eauto]).
    destruct (active_row_authenticates P t w t used token (row_key r) (view_of r)) as (c & Hc' & Hsg); try done.
    { by rewrite Ed. } { cbn. by rewrite Er. }
    destruct (fresh_row P _ _ _ _ _ _ _ _ Hb Hk Hc') as (v & Hv' & _ & _ & ->).
    rewrite Hc'. f_equal. f_equal. rewrite view_keys in Hv'.
    pose proof (sg_id _ _ Hsg) as Ei. cbn in Ei. cbn in Hv'. unfold row_key in Hv. rewrite Ei, Hv' in Hv.
    by injection Hv as ->.
  - destruct (Authenticate t used token w).1 as [c|e'] eqn:Hcs; [|by apply authenticate_unknown in Hcs as ->].
    destruct (fresh_row P _ _ _ _ _ _ _ _ Hb Hk Hcs) as (v & Hv & Hact & Hhv & _).
    destruct (hash_row d _ v token Hw Hv Hhv) as (r & Hr & -> & _ & Er).
    assert (Hbad : Err e = Ok (ApiKey.credentialFromRow r)); [|done]. apply Hapi. eauto 6.
Qed.

(** ** Managing keys *)

(** A request that passed the middleware and the administrator's check. *)
Lemma admin_request {A S} (next : Request → S → Reply A * S) r s (out : Reply A * S) :
  Middleware next r s = out → ∀ a, aq_cred r = Some a →
  out = (WriteError StatusInternalServerError "internal server error", s) ∨
  is_Some (uuid_Parse (TenantID a)) ∧
  out = next (mkRequest {| ctx_tenant := Some (TenantID a) |} (Some a) (aq_id r) (aq_tenant_param r)) s.
Proof using.
  intros <- a Ha. unfold Middleware. rewrite Ha. unfold WithTenant. destruct (uuid_Parse (TenantID a)) eqn:Et; [right|by left].
  split; [by eauto|done].
Qed.

(** A transaction of the store for a tenant, when it commits. *)
Lemma withTx_body {A} infra tenantID (body : Tx ApiKey.DB ApiKey.Error A) d a d' :
  withTx infra {| ctx_tenant := Some tenantID |} body d = (Ok a, d') →
  body d = (Ok a, d') ∧ tenant_of {| ctx_tenant := Some tenantID |} = uuid_Parse tenantID.
Proof using.
  unfold withTx, ApplyTenant, tenant_of, TenantFromContext. cbn. destruct (negb _); [done|].
  destruct (bool_decide (tenantID = "")); [done|]. cbn. destruct (set_config_ok _); [|done].
  destruct (body d) as [[a'|] d1]; [|done]. destruct (commit_ok _); [|done]. by intros [= -> ->].
Qed.

(** What a revocation over HTTP that answers 204 has done. *)
Lemma http_revoke_shape env r d d' :
  Middleware (HttpRevoke env) r d = (WriteJSON StatusNoContent (), d') →
  ∃ a t u, aq_cred r = Some a ∧ IsAdmin a = true ∧ uuid_Parse (TenantID a) = Some t ∧ parseCredID (aq_id r) = Some u ∧
    (∃ q, q ∈ d ∧ ApiKey.ak_ID q = u ∧ ApiKey.ak_TenantID q = t) ∧
    d' = ApiKey.RevokeAPIKey (Some t) (ApiKey.ae_now env) t u d.
Proof using.
  intros H. destruct (aq_cred r) as [a|] eqn:Hc.
  2: { unfold Middleware, HttpRevoke, admin_target, requireAdmin in H. by rewrite !Hc in H. }
  destruct (admin_request _ _ _ _ H a Hc) as [?|[[t Ht] Hout]]; [done|]. unfold HttpRevoke, admin_target, requireAdmin in Hout.
  cbn in Hout. destruct (IsAdmin a) eqn:Had; [|done]. cbn in Hout. destruct (parseCredID (aq_id r)) as [u|] eqn:Hu; [|done].
  unfold TenantFromContext in Hout. cbn in Hout. destruct (bool_decide (TenantID a = "")); [done|].
  destruct (ApiKey.Revoke env _ _ u d) as [[[]|e] d1] eqn:Hr; [|by destruct e]. injection Hout as ->.
  unfold ApiKey.Revoke in Hr. apply withTx_body in Hr as [Hr Hg]. rewrite Hg, Ht in Hr.
  apply tx_bind_Ok in Hr as (t' & d2 & [Ht' ->]%tx_lift_Ok & Hr). unfold ApiKey.uuidToPg in Ht'. rewrite Ht in Ht'. injection Ht' as ->.
  apply tx_bind_Ok in Hr as (found & d2 & [= <- <-] & Hr).
  destruct (ApiKey.GetAPIKeyByID (Some t') t' u d) as [q|] eqn:Hq; [|done]. injection Hr as <-.
  exists a, t', u. split_and!; try done. exists q. unfold ApiKey.GetAPIKeyByID in Hq.
  assert (Hin : q ∈ select_where (ApiKey.in_tenant (Some t') t' u) d) by (by apply head_Some_elem_of).
  apply elem_of_select_where in Hin as [Hin Hqd]. unfold ApiKey.in_tenant in Hin.
  rewrite !andb_true_iff, !bool_decide_eq_true in Hin. naive_solver.
Qed.

Lemma parse_key_id u : parseCredID (ApiKey.key_id u) = Some u.
Proof using. unfold parseCredID. change (ApiKey.cut_key _) with (Some (uuid_String u)). cbn. apply uuid_Parse_String. Qed.

(** A row revoked in the table is refused by whoever asks the table. *)
Lemma revoked_row_refused st env token d u t now :
  table_wf d → (∃ q, q ∈ d ∧ ApiKey.ak_ID q = u ∧ ApiKey.ak_TenantID q = t ∧ ApiKey.ak_TokenHash q = Bearer.Hash h token) →
  ApiKey.hasher st = h → ApiKey.ae_query_ok env = true →
  (ApiKey.Authenticate st env token (ApiKey.RevokeAPIKey (Some t) now t u d)).1 = Err ApiKey.ErrUnknownKey.
Proof using.
  intros Hw (q & Hq & Hu & Ht & Hh) Hst Hok. unfold ApiKey.Authenticate. case_bool_decide; [done|]. rewrite Hok, Hst. cbn [negb].
  destruct (ApiKey.authBypass st) eqn:Hb.
  2: { unfold ApiKey.GetAPIKeyByHash. by rewrite select_where_none by done. }
  destruct (ApiKey.GetAPIKeyByHash true _ _) as [r|] eqn:Hg; [|done]. apply by_hash_Some in Hg as [(q' & Hq' & ->)%elem_of_update_where Hr].
  assert (Hh' : ApiKey.ak_TokenHash q' = Bearer.Hash h token) by (destruct (ApiKey.in_tenant _ _ _ q'); done).
  assert (q' = q) as -> by (apply (NoDup_key_inj ApiKey.ak_TokenHash d); [apply Hw|done|done|congruence]).
  unfold ApiKey.in_tenant. by rewrite !bool_decide_eq_true_2 by (by rewrite ?Ht).
Qed.

(** C35: A revocation over HTTP waits for a restart.  When the route /v1/admin/credentials/{id}/revoke has answered 204
    for a credential that the running process serves, its bearer still passes the gRPC interceptor as that credential;
    the store that asks the table refuses it, and so does every process booted afterwards. *)
Theorem http_revocation_waits_for_restart t (w : World) now used token md c env r d' :
  serves P t w → key_token P w.1 token → extractBearer md = RpcOk token → (Authenticate now used token w).1 = Ok c →
  aq_id r = ID c → Middleware (HttpRevoke env) r w.2 = (WriteJSON StatusNoContent (), d') →
  (∀ A (handler : Credential → World → Rpc A * World), ∃ w1, authInterceptor now used md handler (w.1, d') = handler c w1) ∧
  (∀ st env', ApiKey.hasher st = h → ApiKey.ae_query_ok env' = true →
     (ApiKey.Authenticate st env' token d').1 = Err ApiKey.ErrUnknownKey) ∧
  (∀ grace t' w' now' used', boots P grace d' t' w' → key_token P w'.1 token →
     (Authenticate now' used' token w').1 = Err ErrUnknownKey).
Proof using KT.
  intros HG%(serves_good P) Hk Hmd Hc Hid Hrev. pose proof HG as [_ Hw]. cbn in Hw.
  destruct (authenticated_row P _ _ _ _ _ _ HG Hk Hc) as (_ & _ & v & _ & _ & Hv & Hh & _ & _). rewrite view_keys in Hv.
  destruct (hash_row _ _ _ _ Hw Hv Hh) as (q & Hq & -> & Hi & Hhq).
  destruct (http_revoke_shape _ _ _ _ Hrev) as (a & tn & u & _ & _ & Htn & Hu & (q' & Hq' & Hu' & Ht') & ->).
  rewrite Hid, Hi in Hu. unfold row_key in Hu. rewrite parse_key_id in Hu. injection Hu as <-.
  assert (q' = q) as -> by (apply (NoDup_key_inj ApiKey.ak_ID w.2); [apply Hw|done..]). split_and!.
  - intros A handler. unfold authInterceptor. rewrite Hmd. destruct w as [s d]. cbn [fst snd] in *. unfold Authenticate in *.
    destruct (lookupTokenLocked s token) as [[p r0]|]; [|done]. destruct (bool_decide _); [done|]. destruct (negb _ && _); [done|].
    injection Hc as <-. by eexists.
  - intros st env' Hst Hok. apply revoked_row_refused; [done|by exists q|done..].
  - intros grace t' w' now' used' Hb Hk'. destruct (Authenticate now' used' token w').1 as [c'|e] eqn:Hc';
      [exfalso|by apply authenticate_unknown in Hc' as ->].
    destruct (fresh_row P _ _ _ _ _ _ _ _ Hb Hk' Hc') as (v' & Hv' & Ha & Hh' & _). rewrite view_keys in Hv'.
    apply keys_lookup_1 in Hv' as (q2 & (q1 & Hq1 & ->)%elem_of_update_where & _ & ->). cbn in Hh'.
    assert (q1 = q) as ->.
    { apply (NoDup_key_inj ApiKey.ak_TokenHash w.2); [apply Hw|done|done|]. rewrite Hhq.
      destruct (ApiKey.in_tenant _ _ _ q1); (apply EncodeToString_inj in Hh'; [done|by apply (tw_bytes w.2)|apply Bearer.Hash_byte]). }
    unfold ApiKey.in_tenant in Ha. rewrite !bool_decide_eq_true_2 in Ha by (by rewrite ?Ht'). done.
Qed.

(** ** An unrestricted key and ingestion *)

Lemma empty_object_refuses scope : Ingest.scopeSatisfiesPredicate scope "{}" = false.
Proof using. done. Qed.

(** The row an issue leaves. *)
Lemma issue_row t w env tenantID scope kinds ttl c bearer w1 :
  serves P t w → Issue env tenantID scope kinds ttl w = (Ok (c, bearer), w1) →
  ScopePredicate c = scope ∧ TenantID c = tenantID ∧
  ∃ r, r ∈ w1.2 ∧ ApiKey.ak_TokenHash r = Bearer.Hash h bearer ∧ jsonb_in (ApiKey.scope_bytes scope) = Some (ApiKey.ak_ScopePredicate r).
Proof using.
  intros [HI _]%(serves_good P) H. destruct w as [s d]. cbn [fst snd] in HI. unfold Issue, issueLocked in H.
  pose proof (inv_persist _ _ _ _ HI) as Hp.
  destruct (buildLocked env s _) as [[[c0 tok] r]|] eqn:Hb; [|done]. pose proof Hb as Hb'.
  apply (build_ok P) in Hb' as ([u Hu] & _ & _ & ->); [|done]. rewrite Hp in H.
  destruct (Insert P _ _ d) as [[[]|] d1] eqn:Hi; [|done]. injection H as -> -> <-. cbn [snd].
  assert (Hg : ScopePredicate c = scope ∧ TenantID c = tenantID).
  { unfold buildLocked in Hb. apply result_bind_Ok in Hb as (? & _ & Hb). apply result_bind_Ok in Hb as (? & _ & Hb). by simplify_eq. }
  split; [apply Hg|]. split; [apply Hg|]. cbn in Hi. unfold ApiKey.Insert in Hi. apply withTenantTx_ok in Hi as (tn & _ & Hi).
  destruct (insertRow_insert h _ _ (mkPersisted c (ApiKey.HashToken h bearer) time_zero) bearer u _ _ Hu eq_refl Hi) as (t' & rf & r & _ & Hins).
  apply InsertAPIKey_Ok in Hins as (-> & _ & _ & _ & sc & Hsc & ->). cbn in Hsc. destruct Hg as [Hg _]. rewrite Hg in Hsc.
  eexists. split; [apply elem_of_app; right; by left|]. done.
Qed.

Section Push.
Context {PM : ProtoMarshal} {PJ : ProtoJson} {GS : GoSort} {SP : StructPB}.

(** A restart locks out an unrestricted key.  A credential issued without a scope predicate has none while the
    process runs; after a restart it still authenticates, but its predicate has become the text of an empty JSON
    object, which the ingestion service reads as a condition no record meets: it accepts nothing. *)
Theorem restart_locks_out_unrestricted_key t w env tenantID kinds ttl c bearer w1 grace t' w' now used c' :
  jsonb_in "{}" = Some "{}" →
  serves P t w → Issue env tenantID "" kinds ttl w = (Ok (c, bearer), w1) →
  boots P grace w1.2 t' w' → key_token P w'.1 bearer → (Authenticate now used bearer w').1 = Ok c' →
  ScopePredicate c = "" ∧ ScopePredicate c' = "{}" ∧
  ∀ ienv svc rec rid iw o iw', Ingest.ProcessWithRecordID ienv svc rec (ingest_cred c') rid iw = (o, iw') →
    Ingest.decision o ≠ Ingest.DecisionAccepted ∧ Ingest.decision o ≠ Ingest.DecisionDeduplicated.
Proof using KT.
  intros Hjb Hs Hi Hb Hk Hc'. destruct (issue_row _ _ _ _ _ _ _ _ _ _ Hs Hi) as (Hsc & _ & r & Hr & Hh & Hj).
  change (ApiKey.scope_bytes "") with "{}" in Hj.
  rewrite Hjb in Hj. injection Hj as Hj. destruct (boots_good P _ _ _ _ Hb) as ([_ Hw] & Ed & _). cbn in Hw. rewrite Ed in Hw.
  destruct (fresh_row P _ _ _ _ _ _ _ _ Hb Hk Hc') as (v & Hv & _ & Hhv & ->). destruct (hash_row _ _ _ _ Hw Hv Hhv) as (q & Hq & -> & _ & Hhq).
  assert (q = r) as -> by (apply (NoDup_key_inj ApiKey.ak_TokenHash w1.2); [apply Hw|done|done|congruence]).
  split; [done|]. split; [done|]. intros ienv svc rec rid iw o iw' Ho.
  destruct (IngestSpec.Process_cases _ _ _ _ _ _ _ _ Ho) as [[He _]|(rec' & p & r' & d & _ & _ & Hp & _)].
  - by apply (IngestSpec.Process_rejected _ _ _ _ _ _ _ _ Ho).
  - apply IngestSpec.checks_Ok in Hp. destruct (IngestSpec.cl_predicate _ _ _ _ _ Hp) as [Hpr|Hpr];
      change (Ingest.ScopePredicate (ingest_cred _)) with (ApiKey.ak_ScopePredicate r) in Hpr; rewrite <- Hj in Hpr; [done|].
    by rewrite empty_object_refuses in Hpr.
Qed.
End Push.

(** A bearer just issued authenticates at once, as what was asked for. *)
Lemma issued_authenticates t w env tenantID scope kinds ttl c bearer w1 now used :
  serves P t w → Issue env tenantID scope kinds ttl w = (Ok (c, bearer), w1) →
  (Authenticate now used bearer w1).1 = Ok (with_LastUsedAt c used) ∧ TenantID c = tenantID ∧ Kinds c = kinds.
Proof using.
  intros [HI _]%(serves_good P) H. destruct w as [s d]. cbn [fst snd] in HI. unfold Issue, issueLocked in H.
  pose proof (inv_persist _ _ _ _ HI) as Hp.
  destruct (buildLocked env s _) as [[[c0 tok] r]|] eqn:Hb; [|done]. pose proof Hb as Hb'.
  apply (build_ok P) in Hb' as (_ & _ & _ & ->); [|done]. rewrite Hp in H.
  destruct (Insert P _ _ d) as [[[]|] d1] eqn:Hi; [|done]. injection H as -> -> <-. split.
  - unfold Authenticate, lookupTokenLocked, hash. cbn [persist put]. rewrite Hp.
    rewrite (proj2 (find_hash_Some _ (HashToken P bearer) (length (heap s)) (mkRecord c (HashToken P bearer) stateActive time_zero true))); [done|].
    split; [apply lookup_insert_eq|]. apply heap_put. by right.
  - unfold buildLocked in Hb. apply result_bind_Ok in Hb as (? & _ & Hb). apply result_bind_Ok in Hb as (? & _ & Hb). by simplify_eq.
Qed.

(** The AdminCredentials service does not look at its caller: whoever authenticates, of whatever tenant and with
    whatever flags, is handed a bearer of the tenant the request names. *)
Theorem rpc_issues_for_any_tenant t (w : World) now used md token caller env req c bearer w1 :
  serves P t w → extractBearer md = RpcOk token → (Authenticate now used token w).1 = Ok caller → ri_TenantId req ≠ "" →
  Issue env (ri_TenantId req) (ri_ScopePredicate req) (ri_Kinds req) (ri_Ttl req) (Authenticate now used token w).2 = (Ok (c, bearer), w1) →
  authInterceptor now used md (RpcIssue env req) w = (RpcOk (handleFromCred c, bearer), w1) ∧
  ∀ now' used', ∃ c', (Authenticate now' used' bearer w1).1 = Ok c' ∧ TenantID c' = ri_TenantId req ∧ Kinds c' = ri_Kinds req.
Proof using KT.
  intros Hs Hmd Ha Hne Hi. assert (Hs' : serves P t (Authenticate now used token w).2) by by apply (serves_op P t w (OpAuthenticate now used token)).
  split.
  - unfold authInterceptor. rewrite Hmd. destruct (Authenticate now used token w) as [r w0]. cbn [fst snd] in *. rewrite Ha.
    unfold RpcIssue. rewrite bool_decide_eq_false_2 by done. by rewrite Hi.
  - intros now' used'. destruct (issued_authenticates t _ _ _ _ _ _ _ _ _ now' used' Hs' Hi) as (H1 & H2 & H3). eauto 6.
Qed.

(** ** The routes keep to the caller's tenant *)

Definition others (t : UUID) (d : ApiKey.DB) : ApiKey.DB := select_where (λ r, negb (bool_decide (ApiKey.ak_TenantID r = t))) d.

Lemma others_update t p f d :
  (∀ r, p r = true → ApiKey.ak_TenantID r = t) → (∀ r, ApiKey.ak_TenantID (f r) = ApiKey.ak_TenantID r) →
  others t (update_where p f d) = others t d.
Proof using.
  intros Hp Hf. unfold others, select_where, update_where. induction d as [|r d IH]; [done|]. cbn [map].
  rewrite !filter_cons, IH. destruct (p r) eqn:E; [|done]. rewrite Hf, (Hp r E). by rewrite bool_decide_eq_true_2.
Qed.

Lemma others_insert now t p d r d' : ApiKey.InsertAPIKey now (Some t) p d = Ok (r, d') → others t d' = others t d.
Proof using.
  intros (-> & [= Ht] & _ & _ & sc & _ & ->)%InsertAPIKey_Ok. unfold others. rewrite select_where_app.
  rewrite (select_where_none _ [_]); [by rewrite app_nil_r|]. intros x ->%list_elem_of_singleton. cbn. by rewrite <- Ht, bool_decide_eq_true_2.
Qed.

Lemma in_tenant_tenant g t id r : ApiKey.in_tenant g t id r = true → ApiKey.ak_TenantID r = t.
Proof using. unfold ApiKey.in_tenant. rewrite !andb_true_iff, !bool_decide_eq_true. naive_solver. Qed.

Lemma insert_others st env t tenantID plain i rf d r d' :
  uuid_Parse tenantID = Some t → ApiKey.insert st env (Some t) tenantID plain i rf d = (Ok r, d') → others t d' = others t d.
Proof using.
  intros Ht. unfold ApiKey.insert. intros (t' & d1 & [Ht' ->]%tx_lift_Ok & H)%tx_bind_Ok. unfold ApiKey.run in H.
  destruct (ApiKey.InsertAPIKey _ _ _ _) as [[r' d2]|] eqn:Hi; [|done]. injection H as -> ->. by eapply others_insert.
Qed.

(** C36: The administration routes keep to the caller's tenant.  Behind the tenant middleware, issuing, rotating and
    revoking need an administrator's credential, and leave the rows of every other tenant exactly as they were. *)
Theorem admin_routes_keep_to_tenant st env r a t d :
  aq_cred r = Some a → uuid_Parse (TenantID a) = Some t →
  (∀ body, others t (Middleware (HttpIssue st env body) r d).2 = others t d) ∧
  others t (Middleware (HttpRotate st env) r d).2 = others t d ∧
  others t (Middleware (HttpRevoke env) r d).2 = others t d ∧
  (IsAdmin a = false →
     (∀ body, Middleware (HttpIssue st env body) r d = (WriteError StatusForbidden "admin credential required", d)) ∧
     Middleware (HttpRotate st env) r d = (WriteError StatusForbidden "admin credential required", d) ∧
     Middleware (HttpRevoke env) r d = (WriteError StatusForbidden "admin credential required", d)).
Proof using.
  intros Ha Ht. unfold Middleware. rewrite Ha. unfold WithTenant. rewrite Ht.
  unfold HttpIssue, HttpRotate, HttpRevoke, admin_target, requireAdmin. cbn [aq_cred aq_ctx aq_id].
  destruct (IsAdmin a) eqn:Had; [|done]. cbn. split_and!; [..|done].
  - intros [req|]; [|done]. destruct (negb _); [done|]. destruct (ApiKey.Issue _ _ _ _ _ d) as [[[c pl]|] d'] eqn:Hi;
      unfold ApiKey.Issue in Hi; (destruct (Bearer.Generate _ _) as [plain|]; [|by simplify_eq]); cbn [snd].
    + apply withTx_body in Hi as [Hi Hg]. rewrite Hg, Ht in Hi. apply tx_bind_Ok in Hi as (row & d1 & Hi & [= _ _ <-]). by eapply insert_others.
    + by apply withTx_failed in Hi as ->.
  - destruct (parseCredID _) as [u|]; [|done]. unfold TenantFromContext. cbn. destruct (bool_decide (TenantID a = "")); [done|].
    destruct (ApiKey.Rotate _ _ _ _ _ d) as [[[[c pl] dl]|e] d'] eqn:Hi; unfold ApiKey.Rotate in Hi; cbn [snd].
    + apply withTx_body in Hi as [Hi Hg]. rewrite Hg, Ht in Hi. unfold ApiKey.uuidToPg in Hi. rewrite Ht in Hi.
      apply tx_bind_Ok in Hi as (t' & d1 & [[= <-] ->]%tx_lift_Ok & Hi). apply tx_bind_Ok in Hi as (q & d1 & [= <- <-] & Hi).
      destruct (ApiKey.GetAPIKeyByID _ _ _ _) as [pred|]; [|done]. destruct (negb _ || _); [done|].
      apply tx_bind_Ok in Hi as (plain & d1 & [_ ->]%tx_lift_Ok & Hi). apply tx_bind_Ok in Hi as (row & d1 & Hi & Hr).
      apply tx_bind_Ok in Hr as ([] & d2 & [= <-] & [= _ _ _ <-]). unfold ApiKey.SetAPIKeyRetiresAt.
      rewrite others_update; [by eapply insert_others| |done]. intros x [Hx _]%andb_true_iff. by eapply in_tenant_tenant.
    + apply withTx_failed in Hi as ->. by destruct e.
  - destruct (parseCredID _) as [u|]; [|done]. unfold TenantFromContext. cbn. destruct (bool_decide (TenantID a = "")); [done|].
    destruct (ApiKey.Revoke _ _ _ _ d) as [[[]|e] d'] eqn:Hi; unfold ApiKey.Revoke in Hi; cbn [snd].
    + apply withTx_body in Hi as [Hi Hg]. rewrite Hg, Ht in Hi. unfold ApiKey.uuidToPg in Hi. rewrite Ht in Hi.
      apply tx_bind_Ok in Hi as (t' & d1 & [[= <-] ->]%tx_lift_Ok & Hi). apply tx_bind_Ok in Hi as (q & d1 & [= <- <-] & Hi).
      destruct (ApiKey.GetAPIKeyByID _ _ _ _) as [pred|]; [|done]. injection Hi as <-. unfold ApiKey.RevokeAPIKey.
      apply others_update; [|done]. intros x. apply in_tenant_tenant.
    + apply withTx_failed in Hi as ->. by destruct e.
Qed.
End Services.
End CredApiSpec.

Module CredDemo.
Import CredStore CredApi ApiKeySpec CredSpec CredApiSpec.
#[local] Existing Instance binary_uuid.
#[local] Existing Instance binary_key_text.
#[local] Existing Instance canonical_jsonb.
#[local] Existing Instance table_order.

Definition key : Bearer.Hasher := Bearer.mkHasher (bytes_of "0123456789abcdef0123456789abcdef").
Abbreviation P := (ApiKey.NewPersister key).
Abbreviation World := (Store ApiKey.XEnv ApiKey.DB ApiKey.Error * ApiKey.DB)%type.

Definition hour (n : Z) : Time := 739000 * ns_per_day + n * time_Hour.
Definition at_ (u : UUID) (n : Z) : ApiKey.XEnv := ApiKey.mkX (Some u) (hour n) (hour n) healthy true true.
Definition call (u : UUID) (secret : string) (n : Z) : Env ApiKey.XEnv :=
  mkEnv (Some (bytes_of secret)) (Some (bytes_of secret)) (hour n) (hour n) (at_ u n).
Definition acme : string := uuid_String 7%N.
Definition grace : Duration := 24 * time_Hour.

(** ** Booting *)

Definition booted (n : Z) (d : ApiKey.DB) : World := default (New grace, d) (boot P grace [] (at_ 1 n) d).

Lemma boots_at n d : table_wf d → bool_decide (is_Some (boot P grace [] (at_ 1 n) d)) = true → boots P grace d (hour n) (booted n d).
Proof.
  intros Hw Hb. change (hour n) with (dk_clock (P := P) (at_ 1 n)). apply (boots_intro P grace d [] (at_ 1 n)); [done|done|done|by intros r ?%elem_of_nil|].
  unfold booted. apply bool_decide_eq_true in Hb as [w Hb]. by rewrite Hb.
Qed.

Lemma empty_wf : table_wf [].
Proof. split; [constructor|constructor|by intros r ?%elem_of_nil|by intros r t ?%elem_of_nil]. Qed.

(** Every record is durable and nothing is filed under the plain hash. *)
Definition durable_only (s : Store ApiKey.XEnv ApiKey.DB ApiKey.Error) (token : string) : bool :=
  forallb persisted (heap s) && bool_decide (byTokenHash s !! hashToken token = None).

Lemma key_token_of s token : durable_only s token = true → key_token P s token.
Proof.
  intros [H1 H2]%andb_true_iff. split; [by apply bool_decide_eq_true in H2|]. intros p r _ Hr.
  rewrite forallb_forall in H1. apply H1, list_elem_of_In. by eapply list_elem_of_lookup_2.
Qed.

(** ** The story *)

Definition w0 : World := booted 0 [].
Definition issue_call : Op := OpIssue (call 11 "connector" 1) acme "" ["scan.v1"] (10 * time_Hour).
Definition w1 : World := perform issue_call w0.
Definition bearer : string := EncodeToString (bytes_of "connector").

Lemma serving0 : serves P (hour 0) w0.
Proof. apply (serves_boot P grace []), boots_at; [apply empty_wf|vm_compute; reflexivity]. Qed.
Lemma serving1 : serves P (hour 0) w1.
Proof. by apply (serves_op P (hour 0) w0 issue_call serving0). Qed.

Lemma bearer_is_key1 : key_token P w1.1 bearer.
Proof. apply key_token_of. vm_compute. reflexivity. Qed.

Definition cred1 : Credential :=
  Eval vm_compute in
  match (Authenticate (hour 2) (hour 2) bearer w1).1 with
  | Ok c => c
  | Err _ => mkCred "" "" "" [] 0 0 0 "" "" false false "" []
  end.

Example cred1_id : ID cred1 = "key_a1101" ∧ Kinds cred1 = ["scan.v1"].
Proof. split; reflexivity. Qed.

Lemma authenticated1 : (Authenticate (hour 2) (hour 2) bearer w1).1 = Ok cred1.
Proof. vm_compute. reflexivity. Qed.

(** The key's row. *)
Definition row1 : ApiKey.ApiKey := hd (ApiKey.mkKey 0 0 [] "" [] None 0 None None None None None false false [] "" 0) w1.2.
Lemma table1 : w1.2 = [row1] ∧ table_wf w1.2.
Proof.
  split; [vm_compute; reflexivity|].
  split; [refine (bool_decide_unpack _ _); vm_compute; exact I..| |].
  - apply Forall_forall. refine (bool_decide_unpack _ _). vm_compute. exact I.
  - intros r t Hr Ht. assert (Hn : Forall (λ r, ApiKey.ak_RetiresAt r = None) w1.2) by (refine (bool_decide_unpack _ _); vm_compute; exact I).
    rewrite Forall_forall in Hn. by rewrite (Hn r Hr) in Ht.
Qed.
Lemma view1 : view (P := P) w1.2 !! ID cred1 = Some (view_of row1).
Proof. vm_compute. reflexivity. Qed.

(** A restart three hours later, when the key is still good. *)
Definition w2 : World := booted 3 w1.2.
Lemma boots2 : boots P grace w1.2 (hour 3) w2.
Proof. apply boots_at; [apply table1|vm_compute; reflexivity]. Qed.
Lemma bearer_is_key2 : key_token P w2.1 bearer.
Proof. apply key_token_of. vm_compute. reflexivity. Qed.

Lemma restart_keeps_keys_witness :
  ∃ c', (Authenticate (hour 3) (hour 3) bearer w2).1 = Ok c' ∧ ID c' = "key_a1101" ∧ Kinds c' = ["scan.v1"] ∧
        (ScopePredicate c' = "" ∨ ScopePredicate c' = "{}") ∧ TTL c' = 10 * time_Hour.
Proof.
  destruct (proj1 (restart_keeps_keys P (hour 0) w1 grace (hour 3) w2 bearer (hour 3) serving1 boots2 ltac:(by unfold hour, time_Hour; lia)
                     bearer_is_key1 bearer_is_key2)
              (with_LastUsedAt cred1 (hour 3)) (view_of row1)) as (c' & Hc' & Hsg & Hks & Hkt).
  - vm_compute. reflexivity.
  - exact view1.
  - vm_compute. reflexivity.
  - exists c'. split; [exact Hc'|]. split; [apply (sg_id _ _ Hsg)|]. split; [apply (sg_kinds _ _ Hsg)|]. split.
    + vm_compute in Hks. exact Hks.
    + destruct Hkt as [->| ->]; vm_compute; reflexivity.
Defined.

(** Eleven hours after the boot the key has expired. *)
Definition w3 : World := booted 12 w1.2.
Lemma boots3 : boots P grace w1.2 (hour 12) w3.
Proof. apply boots_at; [apply table1|vm_compute; reflexivity]. Qed.
Lemma bearer_is_key3 : key_token P w3.1 bearer.
Proof. apply key_token_of. vm_compute. reflexivity. Qed.

Lemma expiry_waits_for_restart_witness :
  (Authenticate (hour 1000) (hour 2) bearer w1).1 = Ok cred1 ∧ (Authenticate (hour 12) (hour 2) bearer w3).1 = Err ErrUnknownKey.
Proof.
  destruct (expiry_waits_for_restart P (hour 0) w1 (hour 2) (hour 2) bearer cred1 (view_of row1) (hour 11) serving1 bearer_is_key1
              authenticated1 view1 ltac:(vm_compute; reflexivity) ltac:(vm_compute; reflexivity)) as [H1 H2].
  split; [apply H1|]. apply (H2 grace (hour 12) w3 (hour 12) boots3); [by unfold hour, time_Hour; lia|apply bearer_is_key3].
Defined.

(** Revoked, then restarted. *)
Definition revoke_call : Env ApiKey.XEnv := call 0 "" 4.
Definition w4 : World := (Revoke revoke_call "key_a1101" w1).2.
Definition record1 : record := default (mkRecord cred1 "" stateActive 0 false) (heap w1.1 !! 0%nat).
Definition w5 : World := booted 5 w4.2.

Lemma wf4 : table_wf w4.2.
Proof. apply (revoke_good P (hour 0) w1 revoke_call "key_a1101" (serves_good P _ _ serving1)). Qed.

Definition named (r : result (Error ApiKey.Error) Credential) : option string := match r with Ok c => Some (ID c) | Err _ => None end.

Lemma revoked_for_good_witness :
  named (Authenticate (hour 3) (hour 3) bearer w1).1 = Some "key_a1101" ∧
  bool_decide (named (Authenticate (hour 6) (hour 6) bearer w5).1 = Some "key_a1101") = false.
Proof.
  split; [vm_compute; reflexivity|]. apply bool_decide_eq_false. intros Hn.
  destruct (Authenticate (hour 6) (hour 6) bearer w5).1 as [c|] eqn:Hc; [|discriminate Hn]. injection Hn as Hn. revert Hn.
  apply (revoked_for_good P (hour 0) w1 revoke_call "key_a1101" 0%nat record1 w4 w5 serving1) with (5 := Hc).
  - vm_compute. reflexivity.
  - vm_compute. reflexivity.
  - transitivity ((Revoke revoke_call "key_a1101" w1).1, w4); [apply surjective_pairing|]. by f_equal.
  - apply (later_restart P w4 w4 grace (hour 5)); [apply later_refl|]. apply boots_at; [apply wf4|vm_compute; reflexivity].
Defined.

(** Rotated: the old bearer has a day left. *)
Definition rotate_call : Env ApiKey.XEnv := call 12 "successor" 5.
Definition w6 : World := (Rotate rotate_call "key_a1101" w1).2.
Definition successor : string := EncodeToString (bytes_of "successor").
Definition cred6 : Credential :=
  Eval vm_compute in match (Rotate rotate_call "key_a1101" w1).1 with Ok (c, _, _) => c | Err _ => cred1 end.

Lemma rotation_hands_over_witness :
  is_Ok (Authenticate (hour 29) (hour 2) bearer w6).1 = true ∧ is_Ok (Authenticate (hour 29 + 1) (hour 2) bearer w6).1 = false ∧
  (Authenticate (hour 40) (hour 2) successor w6).1 = Ok (with_LastUsedAt cred6 (hour 2)) ∧
  (Rotate (call 13 "again" 6) "key_a1101" w6).1 = Err ErrUnknownKey.
Proof.
  destruct (rotation_hands_over P (hour 0) w1 rotate_call "key_a1101" bearer (hour 2) (hour 2) cred1 cred6 successor (hour 29) w6 serving1)
    as (_ & H1 & H2 & _ & _ & _ & _ & _ & _ & _ & H3).
  - vm_compute. discriminate.
  - apply bearer_is_key1.
  - apply authenticated1.
  - reflexivity.
  - transitivity ((Rotate rotate_call "key_a1101" w1).1, w6); [apply surjective_pairing|]. by f_equal.
  - split; [rewrite H1; vm_compute; reflexivity|]. split; [rewrite H1; vm_compute; reflexivity|]. split; [apply H2|apply H3].
Defined.

(** A database that is down when a key is issued, rotated and revoked. *)
Definition down : Env ApiKey.XEnv :=
  mkEnv (Some []) (Some (bytes_of "lost")) (hour 6) (hour 6)
    (ApiKey.mkX (Some 14%N) (hour 6) (hour 6) {| begin_ok := false; set_config_ok := true; commit_ok := true |} true true).
Definition grant : Grant := mkGrant acme "" [] 0 "" false false [].

Lemma writes_fail_closed_witness :
  (issueLocked down grant w1).2 = w1 ∧ (Rotate down "key_a1101" w1).2 = w1 ∧ (Revoke down "key_a1101" w1).2 = w1.
Proof.
  assert (Hp : persist w1.1 = Some P) by apply (serves_good P _ _ serving1).
  destruct (writes_fail_closed P w1.1 w1.2 down grant "key_a1101" Hp) as (H1 & H2 & H3). rewrite (surjective_pairing w1).
  split; [|split].
  - apply (H1 (ErrPersistIssue (ApiKey.ErrTx TxBegin))). rewrite (surjective_pairing (issueLocked _ _ _)). by f_equal.
  - apply (H2 (ErrPersistRotate (ApiKey.ErrTx TxBegin))). rewrite (surjective_pairing (Rotate _ _ _)). by f_equal.
  - apply (H3 (ErrPersistRevoke (ApiKey.ErrTx TxBegin))). rewrite (surjective_pairing (Revoke _ _ _)). by f_equal.
Defined.

(** ** The routes *)

Definition table_store : ApiKey.Store := ApiKey.NewStore true key 0.
Definition http_env (n : Z) : ApiKey.Env := ApiKey.mkEnv (Some (bytes_of "abcdefghijklmnopqrst")) 21 (hour n) (hour n) healthy true None.

Lemma boot_agrees_with_table_witness :
  (Authenticate (hour 3) (hour 3) bearer w2).1 = Ok (with_LastUsedAt (ApiKey.credentialFromRow row1) (hour 3)).
Proof.
  rewrite (boot_agrees_with_table key grace w1.2 (hour 3) w2 table_store (http_env 3) bearer (hour 3) boots2 bearer_is_key2);
    [vm_compute; reflexivity|vm_compute; discriminate|reflexivity..].
Defined.

Definition admin : Credential := mkCred "key_a1" acme "" [] 0 0 0 "" "" true true "key_a1" [].
Definition revoke_request : Request := mkRequest {| ctx_tenant := None |} (Some admin) "key_a1101" "".
Definition d7 : ApiKey.DB := (Middleware (HttpRevoke (http_env 6)) revoke_request w1.2).2.

Lemma http_revocation_waits_for_restart_witness :
  (∃ w, authInterceptor (hour 2) (hour 2) (Some ["Bearer " +:+ bearer]) (λ c w, (RpcOk (ID c), w)) (w1.1, d7) = (RpcOk "key_a1101", w)) ∧
  (ApiKey.Authenticate table_store (http_env 7) bearer d7).1 = Err ApiKey.ErrUnknownKey.
Proof.
  destruct (http_revocation_waits_for_restart key (hour 0) w1 (hour 2) (hour 2) bearer (Some ["Bearer " +:+ bearer]) cred1 (http_env 6)
              revoke_request d7 serving1 bearer_is_key1) as (H1 & H2 & _).
  - vm_compute. reflexivity.
  - apply authenticated1.
  - reflexivity.
  - vm_compute. reflexivity.
  - split; [|apply H2; reflexivity]. destruct (H1 string (λ c w, (RpcOk (ID c), w))) as [w Hw]. exists w. exact Hw.
Defined.

Lemma admin_routes_keep_to_tenant_witness : others 7%N (Middleware (HttpRevoke (http_env 6)) revoke_request w1.2).2 = [].
Proof.
  destruct (admin_routes_keep_to_tenant table_store (http_env 6) revoke_request admin 7%N w1.2) as (_ & _ & H & _); [reflexivity..|].
  rewrite H. vm_compute. reflexivity.
Defined.

(** ** Ingestion with the reloaded key *)

#[local] Existing Instance show_record.
#[local] Existing Instance checked_protojson.
#[local] Existing Instance stable_sort.
#[local] Existing Instance faithful_clone.

Definition cred2 : Credential :=
  Eval vm_compute in match (Authenticate (hour 3) (hour 3) bearer w2).1 with Ok c => c | Err _ => cred1 end.

(** The same push is accepted before the restart and refused after it. *)
Example accepted_before_restart :
  Ingest.decision (Ingest.ProcessWithRecordID IngestDemo.env1 IngestDemo.svc (Some IngestDemo.rec) (ingest_cred cred1) None IngestDemo.w0).1 =
  Ingest.DecisionAccepted.
Proof. vm_compute. reflexivity. Qed.

Lemma restart_locks_out_unrestricted_key_witness :
  ScopePredicate cred2 = "{}" ∧
  Ingest.decision (Ingest.ProcessWithRecordID IngestDemo.env1 IngestDemo.svc (Some IngestDemo.rec) (ingest_cred cred2) None IngestDemo.w0).1 ≠
  Ingest.DecisionAccepted.
Proof.
  destruct (restart_locks_out_unrestricted_key key (hour 0) w0 (call 11 "connector" 1) acme ["scan.v1"] (10 * time_Hour)
              (with_LastUsedAt cred1 0) bearer w1 grace (hour 3) w2 (hour 3) (hour 3) cred2) as (_ & H1 & H2).
  - vm_compute. reflexivity.
  - apply serving0.
  - rewrite (surjective_pairing (Issue _ _ _ _ _ _)). by f_equal.
  - apply boots2.
  - apply bearer_is_key2.
  - vm_compute. reflexivity.
  - split; [exact H1|]. destruct (Ingest.ProcessWithRecordID _ _ _ _ _ _) as [o iw] eqn:Ho. apply (H2 _ _ _ _ _ _ _ Ho).
Defined.
End CredDemo.
