(* ===== verification/Token.v ===== *)
(** * Access tokens, their revocation, and the way in over HTTP

    Module Jwt models internal/auth/jwt/claims.go (the claims and their validation) and
    the verification half of internal/auth/tokensign/tokensign.go, with the decoding of a
    payload into the claims as encoding/json does it.  Module Revocation models
    internal/auth/revocation/revocation.go with its two tables and the OAuth endpoints over
    it, internal/api/oauth/revoke.go and introspect.go.  Module JwtMw models the middleware
    every HTTP request passes in internal/api/httpserver.go:
    internal/auth/jwtmw/middleware.go behind [jwtBypass], [requireCredential], and
    internal/api/tenancymw/middleware.go. *)

From Stdlib Require Import Ascii.
From S2P Require Import Prelude GoTime Tenancy Json Scope GoJson Postgres Redact EvidenceRecord Ingest Http CredApi.

Module Jwt.

Record RegisteredClaims := mkRegistered {
  Issuer : string;
  Subject : string;
  Audience : list string;
  ExpiresAt : Z;
  NotBefore : Z;
  IssuedAt : Z;
  ID : string;
}.

Record AtlasClaims := mkClaims {
  registered :> RegisteredClaims;
  IDPIssuer : string;
  CurrentTenantID : UUID;
  AvailableTenants : list UUID;
  Roles : gmap UUID (list string);
  SuperAdmin : bool;
}.

(** ** Validation *)

Inductive Error :=
| ErrIssuerMismatch
| ErrAudienceMismatch
| ErrExpired
| ErrNotYetValid
| ErrMissingExpiration
| ErrTenantOutOfScope.

Record ValidationParams := mkParams { ExpectedIssuer : string; ExpectedAudience : string; Now : Time }.

(** [t.Unix()] and [time.Unix(sec, 0)]. *)
Definition Unix (t : Time) : Z := (t - Evidence.unix_epoch) / ns_per_second.
Definition time_Unix (sec : Z) : Time := Evidence.unix_epoch + sec * ns_per_second.

Fixpoint audienceContains (audience : list string) (expected : string) : bool :=
  match audience with [] => false | a :: l => bool_decide (a = expected) || audienceContains l expected end.
Fixpoint tenantInList (list_ : list UUID) (target : UUID) : bool :=
  match list_ with [] => false | t :: l => bool_decide (t = target) || tenantInList l target end.

Definition Validate (c : AtlasClaims) (p : ValidationParams) : result Error () :=
  if bool_decide (Issuer c = "") || negb (bool_decide (Issuer c = ExpectedIssuer p)) then Err ErrIssuerMismatch
  else if negb (audienceContains (Audience c) (ExpectedAudience p)) then Err ErrAudienceMismatch
  else if ExpiresAt c =? 0 then Err ErrMissingExpiration
  else
    let now := Unix (Now p) in
    if ExpiresAt c <=? now then Err ErrExpired
    else if (0 <? NotBefore c) && (now <? NotBefore c) then Err ErrNotYetValid
    else if negb (bool_decide (CurrentTenantID c = uuid_Nil)) && negb (tenantInList (AvailableTenants c) (CurrentTenantID c)) then Err ErrTenantOutOfScope
    else Ok ().

(** ** The payload *)

(** A slice while a document is decoded into it: what its array holds, and its
    length.  A null element leaves what the array held. *)
Record slice (A : Type) := mkSlice { backing : list A; len : nat }.
Arguments mkSlice {A} _ _.
Arguments backing {A} _.
Arguments len {A} _.

Section Slice.
Context {A : Type} (zero : A) (f : A → json → option A).
Fixpoint decode_elems (i : nat) (b : list A) (items : list json) : option (list A) :=
  match items with
  | [] => Some b
  | v :: items =>
      x ← f (default zero (b !! i)) v;
      decode_elems (S i) (if (i <? length b)%nat then <[i := x]> b else b ++ [x]) items
  end.
Definition decode_slice (s : slice A) (v : json) : option (slice A) :=
  match v with
  | JNull | JArr [] => Some (mkSlice [] 0)
  | JArr items => b ← decode_elems 0 (backing s) items; Some (mkSlice b (length items))
  | _ => None
  end.
End Slice.
Definition slice_elems {A} (s : slice A) : list A := take (len s) (backing s).

Definition decode_string (old : string) (v : json) : option string :=
  match v with JNull => Some old | JStr s => Some s | _ => None end.
Definition decode_bool (old : bool) (v : json) : option bool :=
  match v with JNull => Some old | JBool b => Some b | _ => None end.
Definition decode_int (old : Z) (v : json) : option Z :=
  match v with JNull => Some old | JNum lit => ParseInt lit | _ => None end.

Section Decode.
Context {UT : UUIDText}.

(** [UUID.UnmarshalText] is called on a string. *)
Definition decode_uuid (old : UUID) (v : json) : option UUID :=
  match v with JNull => Some old | JStr s => uuid_Parse s | _ => None end.

Fixpoint decode_members (ms : list (string * json)) (m : gmap UUID (list string)) : option (gmap UUID (list string)) :=
  match ms with
  | [] => Some m
  | (k, v) :: ms =>
      u ← uuid_Parse k;
      s ← decode_slice "" decode_string (mkSlice [] 0) v;
      decode_members ms (<[u := slice_elems s]> m)
  end.
Definition decode_roles (old : gmap UUID (list string)) (v : json) : option (gmap UUID (list string)) :=
  match v with JNull => Some ∅ | JObj ms => decode_members ms old | _ => None end.

(** The struct's fields, embedded ones first, under their names in upper case. *)
Inductive field :=
| FString (s : string)
| FInt (z : Z)
| FUuid (u : UUID)
| FBool (b : bool)
| FStrings (s : slice string)
| FUuids (s : slice UUID)
| FRoles (m : gmap UUID (list string)).

Definition claim_names : list string :=
  ["ISS"; "SUB"; "AUD"; "EXP"; "NBF"; "IAT"; "JTI"; "ATLAS:IDP_ISSUER"; "ATLAS:CURRENT_TENANT_ID"; "ATLAS:AVAILABLE_TENANTS"; "ATLAS:ROLES";
   "ATLAS:SUPER_ADMIN"].
Definition zero_fields : list field :=
  [FString ""; FString ""; FStrings (mkSlice [] 0); FInt 0; FInt 0; FInt 0; FString ""; FString ""; FUuid uuid_Nil; FUuids (mkSlice [] 0);
   FRoles ∅; FBool false].

Definition into_field (old : field) (v : json) : option field :=
  match old with
  | FString s => FString <$> decode_string s v
  | FInt z => FInt <$> decode_int z v
  | FUuid u => FUuid <$> decode_uuid u v
  | FBool b => FBool <$> decode_bool b v
  | FStrings s => FStrings <$> decode_slice "" decode_string s v
  | FUuids s => FUuids <$> decode_slice uuid_Nil decode_uuid s v
  | FRoles m => FRoles <$> decode_roles m v
  end.

Fixpoint into_fields (ms : list (string * json)) (st : list field) : option (list field) :=
  match ms with
  | [] => Some st
  | (k, v) :: ms =>
      match list_find (λ n, n = Scope.foldName k) claim_names with
      | None => into_fields ms st
      | Some (i, _) => old ← st !! i; new ← into_field old v; into_fields ms (<[i := new]> st)
      end
  end.

Definition claims_of (st : list field) : option AtlasClaims :=
  match st with
  | [FString iss; FString sub; FStrings aud; FInt exp; FInt nbf; FInt iat; FString jti; FString idp; FUuid current; FUuids available; FRoles roles; FBool super] =>
      Some (mkClaims (mkRegistered iss sub (slice_elems aud) exp nbf iat jti) idp current (slice_elems available) roles super)
  | _ => None
  end.

Definition Unmarshal_claims (payload : string) : option AtlasClaims :=
  match decode_all payload with
  | Some JNull => claims_of zero_fields
  | Some (JObj ms) => st ← into_fields ms zero_fields; claims_of st
  | _ => None
  end.

(** ** Verification *)

(** What tokensign uses of github.com/go-jose/go-jose: a compact token that is signed
    with an allowed algorithm parses into an object with the key ids of its signatures
    and a payload, and verifying it with a public key returns that payload. *)
Class Jose := {
  PublicKey : Type;
  JWS : Type;
  ParseSignedCompact : string → option JWS;
  jws_kids : JWS → list string;
  jws_payload : JWS → string;
  jws_signed_by : JWS → PublicKey → bool;
}.
Context {JO : Jose}.

Inductive VerifyErr := ErrKeystore | ErrParse | ErrSignatures (n : nat) | ErrNoKey (kid : string) | ErrSignature | ErrUnmarshal.

Record VerificationKey := mkVerificationKey { KeyID : string; Key : PublicKey }.

Fixpoint findKey (vks : list VerificationKey) (kid : string) : option PublicKey :=
  match vks with
  | [] => None
  | vk :: vks => if bool_decide (KeyID vk = kid) then Some (Key vk) else findKey vks kid
  end.

(** [keys] is what the keystore answers. *)
Definition Verify (keys : option (list VerificationKey)) (tok : string) : result VerifyErr AtlasClaims :=
  match keys with
  | None => Err ErrKeystore
  | Some vks =>
      match ParseSignedCompact tok with
      | None => Err ErrParse
      | Some parsed =>
          match jws_kids parsed with
          | [kid] =>
              match findKey vks kid with
              | None => Err (ErrNoKey kid)
              | Some pub =>
                  if jws_signed_by parsed pub then
                    match Unmarshal_claims (jws_payload parsed) with Some c => Ok c | None => Err ErrUnmarshal end
                  else Err ErrSignature
              end
          | kids => Err (ErrSignatures (length kids))
          end
      end
  end.

(** A token has one meaning, whatever the keystore holds. *)
Lemma Verify_functional ks ks' tok c c' : Verify ks tok = Ok c → Verify ks' tok = Ok c' → c = c'.
Proof using. unfold Verify. intros H H'. repeat split_match. done. Qed.
End Decode.

Lemma audienceContains_spec l a : audienceContains l a = true ↔ a ∈ l.
Proof. induction l as [|x l IH]; simpl; [by rewrite elem_of_nil|]. rewrite orb_true_iff, bool_decide_eq_true, IH, elem_of_cons. naive_solver. Qed.
Lemma tenantInList_spec l t : tenantInList l t = true ↔ t ∈ l.
Proof. induction l as [|x l IH]; simpl; [by rewrite elem_of_nil|]. rewrite orb_true_iff, bool_decide_eq_true, IH, elem_of_cons. naive_solver. Qed.
End Jwt.

(** [strings.SplitN(strings.TrimSpace(auth), " ", 2)] when it yields two parts, the
    first equal to "Bearer" under folding: the second, trimmed. *)
Definition bearer_part (auth : string) : option string :=
  match cut_on " " (TrimSpace auth) with
  | None => None
  | Some (scheme, rest) => if bool_decide (CredApi.lower_text scheme = "bearer") then Some (TrimSpace rest) else None
  end.

Module Revocation.
Import Jwt.

Record RevokedRow := mkRevoked { rv_jti : string; rv_revoked_at : Time; rv_expires_at : Time; rv_revoked_by : string }.
Record EventRow := mkEvent { ev_jti : string; ev_revoked_at : Time; ev_revoked_by : string; ev_ip_address : option string }.
Record DB := mkDB { oauth_revoked_tokens : list RevokedRow; oauth_revocation_events : list EventRow }.

Inductive RevocationErr := ErrNoPool | ErrEmptyJti | ErrEmptyRevokedBy | ErrBegin | ErrQuery | ErrInsert | ErrAudit | ErrCommit.

(** [pool] is false for a store made without one. *)
Record Store := mkStore { pool : bool }.

(** What a call meets: the application's clock, the database's now(), the pool, whether
    a single statement outside a transaction succeeds, and the addresses the inet type
    accepts. *)
Record Env := mkEnv { env_clock : Time; env_now : Time; env_infra : Infra; env_exec_ok : bool; env_inet : string → bool }.

(** ** The store *)

Definition insert_revoked (now : Time) (jti : string) (expiresAt : Time) (revokedBy : string) (d : DB) : option DB :=
  if negb (pg_text jti && pg_text revokedBy) then None
  else if bool_decide (jti ∈ (rv_jti <$> oauth_revoked_tokens d)) then Some d
  else Some (mkDB (oauth_revoked_tokens d ++ [mkRevoked jti now (to_micros expiresAt) revokedBy]) (oauth_revocation_events d)).

Definition insert_event (inet : string → bool) (now : Time) (jti revokedBy : string) (ip : option string) (d : DB) : option DB :=
  if negb (pg_text jti && pg_text revokedBy && match ip with Some a => inet a | None => true end) then None
  else Some (mkDB (oauth_revoked_tokens d) (oauth_revocation_events d ++ [mkEvent jti now revokedBy ip])).

Definition Revoke (s : Store) (env : Env) (jti : string) (expiresAt : Time) (revokedBy ipAddress : string) (d : DB) : result RevocationErr () * DB :=
  if negb (pool s) then (Err ErrNoPool, d)
  else if bool_decide (jti = "") then (Err ErrEmptyJti, d)
  else if bool_decide (revokedBy = "") then (Err ErrEmptyRevokedBy, d)
  else if negb (begin_ok (env_infra env)) then (Err ErrBegin, d)
  else
    match insert_revoked (env_now env) jti expiresAt revokedBy d with
    | None => (Err ErrInsert, d)
    | Some d1 =>
        match insert_event (env_inet env) (env_now env) jti revokedBy (if bool_decide (ipAddress = "") then None else Some ipAddress) d1 with
        | None => (Err ErrAudit, d)
        | Some d2 => if commit_ok (env_infra env) then (Ok (), d2) else (Err ErrCommit, d)
        end
    end.

Definition IsRevoked (s : Store) (env : Env) (jti : string) (d : DB) : result RevocationErr bool :=
  if negb (pool s) then Err ErrNoPool
  else if bool_decide (jti = "") then Ok false
  else if negb (env_exec_ok env && pg_text jti) then Err ErrQuery
  else
    match select_where (λ r, bool_decide (rv_jti r = jti) && bool_decide (env_now env < rv_expires_at r)) (oauth_revoked_tokens d) with
    | _ :: _ => Ok true
    | [] => Ok false
    end.

Definition Sweep (s : Store) (env : Env) (d : DB) : result RevocationErr Z * DB :=
  if negb (pool s) then (Err ErrNoPool, d)
  else if negb (env_exec_ok env) then (Err ErrQuery, d)
  else
    let dead := λ r, bool_decide (rv_expires_at r < env_now env) in
    (Ok (Z.of_nat (length (select_where dead (oauth_revoked_tokens d)))),
     mkDB (select_where (λ r, negb (dead r)) (oauth_revoked_tokens d)) (oauth_revocation_events d)).

(** ** The endpoints *)

Definition StatusInternalServerError : Z := 500.

(** A request: the body's three values ([None] when the form does not parse), what
    [r.BasicAuth()] answers, the Authorization header, and the peer's address
    ([requestIP]). *)
Record Form := mkForm { fm_token : string; fm_client_id : string; fm_client_secret : string }.
Record Request := mkRequest {
  rq_content_type : string;
  rq_form : option Form;
  rq_basic : option (string * string);
  rq_auth : string;
  rq_ip : option string;
}.

Definition isFormContentType (ct : string) : bool :=
  let base := match cut_on ";" ct with Some (b, _) => b | None => ct end in
  bool_decide (CredApi.lower_text (TrimSpace base) = "application/x-www-form-urlencoded").

Section Endpoints.
Context {UT : UUIDText} {JO : Jose}.

(** An endpoint's dependencies: the keystore's answer, the revocation store, what the
    client store answers to an id and a secret (absent when there is no such store),
    and the issuer. *)
Record Endpoint := mkEndpoint {
  keys : option (list VerificationKey);
  revoked : Store;
  clients : option (string → string → bool);
  issuer : string;
}.

Definition client_ok (e : Endpoint) (id secret : string) : bool := match clients e with Some f => f id secret | None => false end.

Definition extractBearerRaw (r : Request) : option string := if bool_decide (rq_auth r = "") then None else bearer_part (rq_auth r).

(** The self-revocation path of [authenticate]. *)
Definition authenticate_self (e : Endpoint) (env : Env) (r : Request) (target : result VerifyErr AtlasClaims) : option string :=
  match extractBearerRaw r with
  | None => None
  | Some bearer =>
      if negb (String.prefix "eyJ" bearer) then None
      else
        match Verify (keys e) bearer with
        | Err _ => None
        | Ok caller =>
            match Validate caller (mkParams (issuer e) (issuer e) (env_clock env)) with
            | Err _ => None
            | Ok _ =>
                match target with
                | Err _ => Some ("user:" +:+ Subject caller)
                | Ok t => if negb (bool_decide (Subject t = Subject caller)) then None else Some ("user:" +:+ Subject caller)
                end
            end
        end
  end.

Definition authenticate (e : Endpoint) (env : Env) (r : Request) (f : Form) (target : result VerifyErr AtlasClaims) : option string :=
  let by_form :=
    if negb (bool_decide (fm_client_id f = "")) then
      if negb (bool_decide (fm_client_secret f = "")) && client_ok e (fm_client_id f) (fm_client_secret f)
      then Some ("oauth_client:" +:+ fm_client_id f) else None
    else authenticate_self e env r target in
  match rq_basic r with
  | Some (id, secret) =>
      if negb (bool_decide (id = "")) && negb (bool_decide (secret = ""))
      then if client_ok e id secret then Some ("oauth_client:" +:+ id) else None
      else by_form
  | None => by_form
  end.

(** [RevocationEndpoint.ServeHTTP]; an OAuth error keeps its code. *)
Definition ServeRevoke (e : Endpoint) (env : Env) (r : Request) (d : DB) : Reply () * DB :=
  if negb (isFormContentType (rq_content_type r)) then (WriteError StatusBadRequest "invalid_request", d)
  else
    match rq_form r with
    | None => (WriteError StatusBadRequest "invalid_request", d)
    | Some f =>
        let tokenIn := TrimSpace (fm_token f) in
        if bool_decide (tokenIn = "") then (WriteError StatusBadRequest "invalid_request", d)
        else
          let target := Verify (keys e) tokenIn in
          match authenticate e env r f target with
          | None => (WriteError StatusUnauthorized "invalid_client", d)
          | Some revokedBy =>
              match target with
              | Err _ => (WriteJSON StatusOK (), d)
              | Ok claims =>
                  let exp := if ExpiresAt claims <=? 0 then env_clock env + time_Hour else time_Unix (ExpiresAt claims) in
                  match Revoke (revoked e) env (ID claims) exp revokedBy (default "" (rq_ip r)) d with
                  | (Err _, d') => (WriteError StatusInternalServerError "server_error", d')
                  | (Ok _, d') => (WriteJSON StatusOK (), d')
                  end
              end
          end
    end.

Definition authenticateInspector (e : Endpoint) (r : Request) (f : Form) : bool :=
  let by_form :=
    if bool_decide (fm_client_id f = "") || bool_decide (fm_client_secret f = "") then false
    else client_ok e (fm_client_id f) (fm_client_secret f) in
  match rq_basic r with
  | Some (id, secret) => if negb (bool_decide (id = "")) && negb (bool_decide (secret = "")) then client_ok e id secret else by_form
  | None => by_form
  end.

(** [IntrospectionEndpoint.ServeHTTP]: the claims of an active token, [None] for an
    inactive one. *)
Definition ServeIntrospect (e : Endpoint) (env : Env) (r : Request) (d : DB) : Reply (option AtlasClaims) :=
  if negb (isFormContentType (rq_content_type r)) then WriteError StatusBadRequest "invalid_request"
  else
    match rq_form r with
    | None => WriteError StatusBadRequest "invalid_request"
    | Some f =>
        let tokenIn := TrimSpace (fm_token f) in
        if bool_decide (tokenIn = "") then WriteError StatusBadRequest "invalid_request"
        else if negb (authenticateInspector e r f) then WriteError StatusUnauthorized "invalid_client"
        else
          match Verify (keys e) tokenIn with
          | Err _ => WriteJSON StatusOK None
          | Ok claims =>
              match Validate claims (mkParams (issuer e) (issuer e) (env_clock env)) with
              | Err _ => WriteJSON StatusOK None
              | Ok _ =>
                  if negb (bool_decide (ID claims = "")) then
                    match IsRevoked (revoked e) env (ID claims) d with
                    | Ok false => WriteJSON StatusOK (Some claims)
                    | _ => WriteJSON StatusOK None
                    end
                  else WriteJSON StatusOK (Some claims)
              end
          end
    end.
End Endpoints.
End Revocation.

Module JwtMw.
Import Jwt.

(** A request as it arrives, and what its context gathers on the way. *)
Record HttpRequest := mkHttp { hr_path : string; hr_auth : string; hr_cookies : list (string * string); hr_tenant_header : string }.
Record Ctx := mkCtx { cx_tenant : Context; cx_claims : option AtlasClaims; cx_cred : option Credential }.
Definition Background : Ctx := mkCtx {| ctx_tenant := None |} None None.

Definition Handler (S A : Type) : Type := HttpRequest → Ctx → S → Reply A * S.

(** [r.Cookie(name)] *)
Definition Cookie (r : HttpRequest) (name : string) : option string :=
  snd <$> head (select_where (λ c, bool_decide (c.1 = name)) (hr_cookies r)).

Definition DefaultCookieName : string := "atlas_jwt".
Definition JWTPrefix : string := "eyJ".

Fixpoint count_char (c : ascii) (s : string) : nat :=
  match s with "" => 0 | String a s => (if bool_decide (a = c) then 1 else 0) + count_char c s end.
Definition isJWTShape (tok : string) : bool := String.prefix JWTPrefix tok && (count_char "." tok =? 2)%nat.

Definition extractJWT (r : HttpRequest) (cookieName : string) : option string :=
  let by_cookie :=
    if bool_decide (cookieName = "") then None
    else match Cookie r cookieName with
         | Some v => if negb (bool_decide (v = "")) && isJWTShape v then Some v else None
         | None => None
         end in
  if bool_decide (hr_auth r = "") then by_cookie
  else match bearer_part (hr_auth r) with
       | Some tok => if isJWTShape tok then Some tok else by_cookie
       | None => by_cookie
       end.

Section Middleware.
Context {UT : UUIDText} {JO : Jose} {S A : Type}.

Record Options := mkOptions { opt_ExpectedIssuer : string; opt_ExpectedAudience : string; opt_CookieName : string }.

(** The validator's dependencies; [revoked] may be absent. *)
Record Validator := mkValidator { keys : option (list VerificationKey); revoked : option Revocation.Store; opts : Options }.

Definition cookieName (v : Validator) : string := if bool_decide (opt_CookieName (opts v) = "") then DefaultCookieName else opt_CookieName (opts v).

Definition write401 (s : S) : Reply A * S := (WriteError StatusUnauthorized "invalid_token", s).

(** The credential [jwtmw] makes of the claims, without its times. *)
Definition credential_of (c : AtlasClaims) : Credential :=
  mkCred (Ingest.mkCredential ("jwt:" +:+ ID c) (uuid_String (CurrentTenantID c)) "" []) (SuperAdmin c) (SuperAdmin c) (Subject c)
    (default [] (Roles c !! CurrentTenantID c)).

(** [jwtmw.Middleware]; [db] holds the revocation tables it reads. *)
Definition Middleware (v : Validator) (env : Revocation.Env) (db : Revocation.DB) (next : Handler S A) : Handler S A := λ r cx s,
  match extractJWT r (cookieName v) with
  | None => next r cx s
  | Some tok =>
      match Verify (keys v) tok with
      | Err _ => write401 s
      | Ok claims =>
          match Validate claims (mkParams (opt_ExpectedIssuer (opts v)) (opt_ExpectedAudience (opts v)) (Revocation.env_clock env)) with
          | Err _ => write401 s
          | Ok _ =>
              let proceed :=
                match (if bool_decide (CurrentTenantID claims = uuid_Nil) then Ok (cx_tenant cx)
                       else WithTenant (cx_tenant cx) (uuid_String (CurrentTenantID claims))) with
                | Err _ => write401 s
                | Ok tctx => next r (mkCtx tctx (Some claims) (Some (credential_of claims))) s
                end in
              match revoked v with
              | Some st =>
                  if negb (bool_decide (ID claims = "")) then
                    match Revocation.IsRevoked st env (ID claims) db with
                    | Ok false => proceed
                    | _ => write401 s
                    end
                  else proceed
              | None => proceed
              end
          end
      end
  end.

(** An entry that ends in a slash is a prefix, any other the whole path. *)
Definition ends_in_slash (p : string) : bool := bool_decide (String.get (String.length p - 1) p = Some "/"%char).
Definition exempted (path p : string) : bool :=
  if bool_decide (p = "") then false else if ends_in_slash p then String.prefix p path else bool_decide (path = p).

Definition jwtBypass (mw : Handler S A → Handler S A) (exempt : list string) (next : Handler S A) : Handler S A := λ r cx s,
  if existsb (exempted (hr_path r)) exempt then next r cx s else mw next r cx s.

Definition requireCredential (exempt : list string) (next : Handler S A) : Handler S A := λ r cx s,
  if existsb (exempted (hr_path r)) exempt then next r cx s
  else match cx_cred cx with
       | None => (WriteError StatusUnauthorized "authorization must be `Bearer <token>`", s)
       | Some _ => next r cx s
       end.

(** [tenancymw.Middleware] *)
Definition tenancyMiddleware (next : Handler S A) : Handler S A := λ r cx s,
  match cx_cred cx with
  | None => next r cx s
  | Some cred =>
      match WithTenant (cx_tenant cx) (cred_TenantID cred) with
      | Err _ => (WriteError 500 "internal server error", s)
      | Ok tctx => next r (mkCtx tctx (cx_claims cx) (cx_cred cx)) s
      end
  end.

Definition exempt : list string :=
  ["/auth/"; "/health"; "/ready"; "/metrics"; "/v1/version"; "/v1/install-state"; "/v1/calendar.ics"; "/.well-known/"; "/oauth/token";
   "/oauth/authorize"; "/oauth/revoke"; "/oauth/introspect"; "/oauth/device_authorization"; "/v1/test/issue-jwt"; "/scim/"].

(** The authentication part of the chain that the server mounts, down to the routes:
    the way of every request but OPTIONS, which [corsMiddleware] answers before it. *)
Definition chain (jwt : option Validator) (env : Revocation.Env) (db : Revocation.DB) (next : Handler S A) : Handler S A :=
  match jwt with
  | Some v => jwtBypass (Middleware v env db) exempt (requireCredential exempt (tenancyMiddleware next))
  | None => tenancyMiddleware next
  end.

Definition serve (jwt : option Validator) (env : Revocation.Env) (db : Revocation.DB) (next : Handler S A) (r : HttpRequest) (s : S) : Reply A * S :=
  chain jwt env db next r Background s.
End Middleware.
End JwtMw.
