(* ===== verification/Session.v ===== *)
(** * Sessions

    Models internal/auth/sessions/sessions.go with the statements of
    internal/db/queries/sessions.sql, the logout and session lookup of
    internal/api/auth/http.go, and the routes of internal/api/me/sessions.go. *)

From Stdlib Require Import Ascii.
From S2P Require Import Prelude GoTime Tenancy Json Sha256 GoJson TimeText Postgres Ingest Http Bearer.

(** ** base64 *)

(** [base64.RawURLEncoding]: six bits a character, the last group filled with zeroes. *)
Definition base64_digit (n : N) : ascii :=
  if (n <? 26)%N then byte (65 + n) else if (n <? 52)%N then byte (71 + n) else if (n <? 62)%N then byte (n - 4)
  else if (n =? 62)%N then "-"%char else "_"%char.
Fixpoint base64_groups (bs : list bool) : string :=
  match bs with
  | a :: b :: c :: d :: e :: f :: bs => String (base64_digit (bits_val [a; b; c; d; e; f] 0)) (base64_groups bs)
  | [] => ""
  | bs => String (base64_digit (bits_val (take 6 (bs ++ replicate 6 false)) 0)) ""
  end.
Definition base64_url (raw : list N) : string := base64_groups (raw ≫= bits_of 8).

Example base64_text : base64_url (bytes_of "any carnal pleas?") = "YW55IGNhcm5hbCBwbGVhcz8".
Proof. reflexivity. Qed.

Module Sessions.

Definition CookieName : string := "atlas_session".
Definition DefaultTTL : Duration := 7 * 24 * time_Hour.
Definition RefreshThreshold : Duration := 24 * time_Hour.
Definition MaxUserAgentBytes : nat := 512.

Inductive Error :=
| ErrNotFound
| ErrRevoked
| ErrExpired
| ErrRandom
| ErrSql (e : SqlErr)
| ErrTx (e : TxErr).
#[global] Instance Error_tx : TxError Error := ErrTx.

Record Session := mkSession {
  ID : string;
  TenantID : UUID;
  UserID : UUID;
  IdpIssuer : string;
  IdpSubject : string;
  IssuedAt : Time;
  ExpiresAt : Time;
  LastSeenAt : Time;
  RevokedAt : option Time;
  UserAgent : string;
  IPAddress : string;
  GeoCountry : string;
  GeoCity : string;
}.

Record Row := mkRow {
  row_ID : string;
  row_TenantID : UUID;
  row_UserID : UUID;
  row_IdpIssuer : string;
  row_IdpSubject : string;
  row_IssuedAt : Time;
  row_ExpiresAt : Time;
  row_LastSeenAt : Time;
  row_RevokedAt : option Time;
  row_UserAgent : option string;
  row_IpAddress : option string;
  row_GeoCountry : option string;
  row_GeoCity : option string;
}.

(** me_audit_log, without the columns the database fills in. *)
Record AuditRow := mkAudit { ma_TenantID : UUID; ma_UserID : UUID; ma_Action : string; ma_Before : string; ma_After : string }.

(** [users] holds the ids a session may refer to. *)
Record DB := mkDB { users : list UUID; sessions : list Row; me_audit_log : list AuditRow }.
Definition with_sessions (d : DB) (t : list Row) : DB := mkDB (users d) t (me_audit_log d).
Definition with_audit (d : DB) (t : list AuditRow) : DB := mkDB (users d) (sessions d) t.

#[global] Instance DB_rollback : TxState DB := λ before _, before.
#[global] Instance DB_atomic : Atomic (λ d : DB, d).
Proof. done. Qed.

Definition set_times (expires seen : Time) (r : Row) : Row :=
  mkRow (row_ID r) (row_TenantID r) (row_UserID r) (row_IdpIssuer r) (row_IdpSubject r) (row_IssuedAt r) expires seen (row_RevokedAt r)
    (row_UserAgent r) (row_IpAddress r) (row_GeoCountry r) (row_GeoCity r).
Definition set_revoked (t : Time) (r : Row) : Row :=
  mkRow (row_ID r) (row_TenantID r) (row_UserID r) (row_IdpIssuer r) (row_IdpSubject r) (row_IssuedAt r) (row_ExpiresAt r) (row_LastSeenAt r)
    (Some t) (row_UserAgent r) (row_IpAddress r) (row_GeoCountry r) (row_GeoCity r).

(** ** Statements *)

(** [guc] is the tenant the transaction is bound to. *)
Definition CreateSession (now : Time) (guc : option UUID) (p : Row) (d : DB) : result SqlErr (Row * DB) :=
  if negb (pg_text (row_ID p) && pg_text (row_IdpIssuer p) && pg_text (row_IdpSubject p) && pg_text_opt (row_UserAgent p) &&
           pg_text_opt (row_IpAddress p)) then Err OtherViolation
  else if negb (bool_decide (guc = Some (row_TenantID p))) then Err OtherViolation
  else if bool_decide (row_ID p ∈ (row_ID <$> sessions d)) then Err UniqueViolation
  else if negb (bool_decide (row_UserID p ∈ users d)) then Err ForeignKeyViolation
  else
    let r := mkRow (row_ID p) (row_TenantID p) (row_UserID p) (row_IdpIssuer p) (row_IdpSubject p) now (to_micros (row_ExpiresAt p)) now None
               (row_UserAgent p) (row_IpAddress p) None None in
    Ok (r, with_sessions d (sessions d ++ [r])).

Definition at_key (guc : option UUID) (tenantID : UUID) (id : string) (r : Row) : bool :=
  bool_decide (guc = Some (row_TenantID r)) && bool_decide (row_TenantID r = tenantID) && bool_decide (row_ID r = id).
Definition live (r : Row) : bool := bool_decide (row_RevokedAt r = None).

Definition GetSessionByID (guc : option UUID) (tenantID : UUID) (id : string) (d : DB) : option Row :=
  head (select_where (at_key guc tenantID id) (sessions d)).
Definition TouchSession (guc : option UUID) (now : Time) (tenantID : UUID) (id : string) (expires : Time) (d : DB) : DB :=
  with_sessions d (update_where (λ r, at_key guc tenantID id r && live r) (set_times (to_micros expires) now) (sessions d)).
Definition RevokeSession (guc : option UUID) (now : Time) (tenantID : UUID) (id : string) (d : DB) : DB :=
  with_sessions d (update_where (at_key guc tenantID id) (set_revoked now) (sessions d)).

Definition of_user (guc : option UUID) (tenantID userID : UUID) (r : Row) : bool :=
  bool_decide (guc = Some (row_TenantID r)) && bool_decide (row_TenantID r = tenantID) && bool_decide (row_UserID r = userID).
Definition newest_seen (a b : Row) : Prop := row_LastSeenAt b ≤ row_LastSeenAt a.
#[global] Instance newest_seen_dec : RelDecision newest_seen.
Proof. intros a b. unfold newest_seen. apply _. Defined.
Definition ListSessionsForUser {PL : Planner} (guc : option UUID) (now : Time) (tenantID userID : UUID) (d : DB) : list Row :=
  merge_sort newest_seen (plan (select_where (λ r, of_user guc tenantID userID r && live r && bool_decide (now < row_ExpiresAt r)) (sessions d))).

(** The two counting updates: the rows matched, and the table. *)
Definition RevokeSessionForUser (guc : option UUID) (now : Time) (tenantID : UUID) (id : string) (userID : UUID) (d : DB) : Z * DB :=
  let p := λ r, at_key guc tenantID id r && bool_decide (row_UserID r = userID) in
  (Z.of_nat (length (select_where p (sessions d))),
   with_sessions d (update_where p (λ r, set_revoked (default now (row_RevokedAt r)) r) (sessions d))).
Definition RevokeOtherSessionsForUser (guc : option UUID) (now : Time) (tenantID userID : UUID) (keep : string) (d : DB) : Z * DB :=
  let p := λ r, of_user guc tenantID userID r && negb (bool_decide (row_ID r = keep)) && live r in
  (Z.of_nat (length (select_where p (sessions d))), with_sessions d (update_where p (set_revoked now) (sessions d))).

Definition InsertMeAuditLog {JB : JsonB} (guc : option UUID) (a : AuditRow) (d : DB) : result SqlErr (() * DB) :=
  match jsonb_in (ma_Before a), jsonb_in (ma_After a) with
  | Some b, Some c =>
      if negb (bool_decide (guc = Some (ma_TenantID a))) then Err OtherViolation
      else Ok ((), with_audit d (me_audit_log d ++ [mkAudit (ma_TenantID a) (ma_UserID a) (ma_Action a) b c]))
  | _, _ => Err OtherViolation
  end.

(** ** The store *)

Record Store := mkStore { ttl : Duration }.
Definition NewStore (t : Duration) : Store := mkStore (if t =? 0 then DefaultTTL else t).

(** What a call meets: rand.Read, the clock, the database's now(), the pool. *)
Record Env := mkEnv { env_random : option (list N); env_clock : Time; env_now : Time; env_infra : Infra }.

Definition NewID (r : option (list N)) : result Error string :=
  match r with Some bs => Ok (base64_url bs) | None => Err ErrRandom end.

Record CreateInput := mkCreate {
  in_TenantID : UUID;
  in_UserID : UUID;
  in_IdpIssuer : string;
  in_IdpSubject : string;
  in_UserAgent : string;
  in_IPAddress : string;
}.

Definition truncateUserAgent (ua : string) : string :=
  if (String.length ua <=? MaxUserAgentBytes)%nat then ua else String.substring 0 MaxUserAgentBytes ua.
Definition nullable (v : string) : option string := if bool_decide (v = "") then None else Some v.

Definition sessionFromRow (r : Row) : Session :=
  mkSession (row_ID r) (row_TenantID r) (row_UserID r) (row_IdpIssuer r) (row_IdpSubject r) (row_IssuedAt r) (row_ExpiresAt r)
    (row_LastSeenAt r) (row_RevokedAt r) (default "" (row_UserAgent r)) (default "" (row_IpAddress r)) (default "" (row_GeoCountry r))
    (default "" (row_GeoCity r)).

Section Store.
Context {UT : UUIDText} {PL : Planner} (s : Store).

Definition Create (env : Env) (ctx : Context) (i : CreateInput) : Tx DB Error Session := λ d,
  match NewID (env_random env) with
  | Err e => (Err e, d)
  | Ok id =>
      withTx (env_infra env) ctx
        (λ d, match CreateSession (env_now env) (tenant_of ctx)
                      (mkRow id (in_TenantID i) (in_UserID i) (in_IdpIssuer i) (in_IdpSubject i) time_zero (env_clock env + ttl s) time_zero None
                         (nullable (truncateUserAgent (in_UserAgent i))) (nullable (in_IPAddress i)) None None) d with
              | Err e => (Err (ErrSql e), d)
              | Ok (r, d') => (Ok (sessionFromRow r), d')
              end) d
  end.

(** The refresh, inside the transaction that read the row. *)
Definition slide (env : Env) (guc : option UUID) (tenantID : UUID) (id : string) (r : Row) : Tx DB Error Session := λ d,
  if Ingest.Sub (row_ExpiresAt r) (env_clock env) <? RefreshThreshold then
    let newExpiry := env_clock env + ttl s in
    (Ok (sessionFromRow (set_times newExpiry (row_LastSeenAt r) r)), TouchSession guc (env_now env) tenantID id newExpiry d)
  else (Ok (sessionFromRow r), d).

Definition Read (env : Env) (ctx : Context) (tenantID : UUID) (id : string) : Tx DB Error Session :=
  withTx (env_infra env) ctx
    (let guc := tenant_of ctx in
     found ← tx_gets (GetSessionByID guc tenantID id);
     match found with
     | None => tx_fail ErrNotFound
     | Some r =>
         if negb (live r) then tx_fail ErrRevoked
         else if After (env_clock env) (row_ExpiresAt r) then tx_fail ErrExpired
         else slide env guc tenantID id r
     end).

Definition ListForUser (env : Env) (ctx : Context) (tenantID userID : UUID) : Tx DB Error (list Session) :=
  withTx (env_infra env) ctx
    (rows ← tx_gets (ListSessionsForUser (tenant_of ctx) (env_now env) tenantID userID); mret (sessionFromRow <$> rows)).

Definition RevokeForUser (env : Env) (ctx : Context) (tenantID userID : UUID) (id : string) : Tx DB Error bool :=
  withTx (env_infra env) ctx
    (λ d, let '(n, d') := RevokeSessionForUser (tenant_of ctx) (env_now env) tenantID id userID d in (Ok (0 <? n), d')).

Definition RevokeOthersForUser (env : Env) (ctx : Context) (tenantID userID : UUID) (keepID : string) : Tx DB Error Z :=
  withTx (env_infra env) ctx
    (λ d, let '(n, d') := RevokeOtherSessionsForUser (tenant_of ctx) (env_now env) tenantID userID keepID d in (Ok n, d')).

Definition Revoke (env : Env) (ctx : Context) (tenantID : UUID) (id : string) : Tx DB Error () :=
  withTx (env_infra env) ctx (tx_modify (RevokeSession (tenant_of ctx) (env_now env) tenantID id)).

(** ** The handlers *)

(** The context with its credential, the path's id, the session cookie and the
    X-Tenant-Id header. *)
Record Request := mkRequest {
  rq_ctx : Context;
  rq_cred : option Credential;
  rq_id : string;
  rq_cookie : option string;
  rq_tenant_header : string;
}.

Definition StatusNoContent : Z := 204.

(** [Handler.Logout]; the outcome of the revocation is dropped. *)
Definition Logout (env : Env) (r : Request) (d : DB) : Reply () * DB :=
  let d' := match rq_cookie r with
            | None => d
            | Some c =>
                if bool_decide (c = "") then d
                else match uuid_Parse (rq_tenant_header r) with
                     | Some tid => (Revoke env (rq_ctx r) tid c d).2
                     | None => d
                     end
            end in
  (WriteJSON StatusNoContent (), d').

Inductive ResolveErr := ErrNoCookie | ErrSession (e : Error).
Definition ResolveSession (env : Env) (r : Request) (tenantID : UUID) : Tx DB ResolveErr Session := λ d,
  match rq_cookie r with
  | None => (Err ErrNoCookie, d)
  | Some c => let '(res, d') := Read env (rq_ctx r) tenantID c d in (map_err ErrSession res, d')
  end.

Definition authnContext (r : Request) : option (Context * Credential) :=
  match rq_cred r with
  | None => None
  | Some cred =>
      if bool_decide (cred_TenantID cred = "") then None
      else match TenantFromContext (rq_ctx r) with Err _ => None | Ok _ => Some (rq_ctx r, cred) end
  end.

Record sessionWire := mkWire {
  sw_ID : string;
  sw_Last4 : string;
  sw_CreatedAt : string;
  sw_LastUsedAt : option string;
  sw_IsCurrent : bool;
  sw_UserAgent : string;
  sw_IPAddress : string;
  sw_GeoCountry : string;
  sw_GeoCity : string;
}.

Definition last4OfSessionID (id : string) : string :=
  let n := String.length id in if (n <=? 4)%nat then id else String.substring (n - 4) 4 id.
Definition currentSessionIDFromRequest (r : Request) : string := default "" (rq_cookie r).

Definition sessionWireFrom (x : Session) (currentID : string) : sessionWire :=
  mkWire (ID x) (last4OfSessionID (ID x)) (FormatRFC3339 (IssuedAt x))
    (if IsZero (LastSeenAt x) then None else Some (FormatRFC3339 (LastSeenAt x)))
    (bool_decide (ID x = currentID) && negb (bool_decide (currentID = ""))) (UserAgent x) (IPAddress x) (GeoCountry x) (GeoCity x).

Definition ListSessions (env : Env) (r : Request) (d : DB) : Reply (list sessionWire * Z) * DB :=
  match authnContext r with
  | None => (WriteError StatusUnauthorized "tenant context missing", d)
  | Some (ctx, cred) =>
      match uuid_Parse (cred_UserID cred) with
      | None => (WriteJSON StatusOK ([], 0), d)
      | Some user =>
          match uuid_Parse (cred_TenantID cred) with
          | None => (WriteError StatusUnauthorized "tenant context invalid", d)
          | Some tenant =>
              match ListForUser env ctx tenant user d with
              | (Err _, d') => (WriteInternal "list sessions", d')
              | (Ok rows, d') =>
                  (WriteJSON StatusOK ((λ x, sessionWireFrom x (currentSessionIDFromRequest r)) <$> rows, Z.of_nat (length rows)), d')
              end
          end
      end
  end.

Context {JB : JsonB}.

(** [ProfileHandler.writeAuditLog], whose error the callers drop; the message to the
    external sink is not modelled. *)
Definition writeAuditLog (env : Env) (ctx : Context) (tenantID userID : UUID) (action before after_ : string) : Tx DB Error () :=
  withTx (env_infra env) ctx
    (λ d, match InsertMeAuditLog (tenant_of ctx) (mkAudit tenantID userID action before after_) d with
          | Err e => (Err (ErrSql e), d)
          | Ok (_, d') => (Ok (), d')
          end).

Definition revoke_entry (id : string) (revoked : bool) : string := render go_quote (JObj [("revoked", JBool revoked); ("session_id", JStr id)]).
Definition others_entry (keep : string) (n : Z) : string :=
  render go_quote (JObj [("keep_session_id", JStr keep); ("revoked_count", JNum (Itoa n))]).

(** [audit] is the environment of the second transaction. *)
Definition RevokeSessionHandler (env audit : Env) (r : Request) (d : DB) : Reply () * DB :=
  match authnContext r with
  | None => (WriteError StatusUnauthorized "tenant context missing", d)
  | Some (ctx, cred) =>
      if bool_decide (rq_id r = "") then (WriteError StatusBadRequest "session id required", d)
      else
        match uuid_Parse (cred_UserID cred), uuid_Parse (cred_TenantID cred) with
        | None, _ => (WriteError StatusNotFound "session not found", d)
        | Some _, None => (WriteError StatusUnauthorized "tenant context invalid", d)
        | Some user, Some tenant =>
            match RevokeForUser env ctx tenant user (rq_id r) d with
            | (Err _, d') => (WriteInternal "revoke session", d')
            | (Ok false, d') => (WriteError StatusNotFound "session not found", d')
            | (Ok true, d') =>
                (WriteJSON StatusNoContent (),
                 (writeAuditLog audit ctx tenant user "session.revoke" (revoke_entry (rq_id r) false) (revoke_entry (rq_id r) true) d').2)
            end
        end
  end.

Definition RevokeOtherSessions (env audit : Env) (r : Request) (d : DB) : Reply Z * DB :=
  match authnContext r with
  | None => (WriteError StatusUnauthorized "tenant context missing", d)
  | Some (ctx, cred) =>
      match uuid_Parse (cred_UserID cred), uuid_Parse (cred_TenantID cred) with
      | None, _ => (WriteError StatusNotFound "no sessions for this credential", d)
      | Some _, None => (WriteError StatusUnauthorized "tenant context invalid", d)
      | Some user, Some tenant =>
          let currentID := currentSessionIDFromRequest r in
          match RevokeOthersForUser env ctx tenant user currentID d with
          | (Err _, d') => (WriteInternal "revoke other sessions", d')
          | (Ok n, d') =>
              (WriteJSON StatusOK n,
               if 0 <? n then (writeAuditLog audit ctx tenant user "session.revoke" (others_entry currentID 0) (others_entry currentID n) d').2
               else d')
          end
      end
  end.
End Store.
End Sessions.
