(* ===== verification/AuthSpec.v ===== *)
(** * What tokens and sessions guarantee

    Module JwtSpec: a request that reaches a route carries the tenant of a token that was
    verified, validated and not revoked; a token once revoked is refused for as long as it
    would otherwise live.  Module SessionSpec: how long a session lives, that a revoked one
    stays out, and what the routes over sessions do behind the middleware.  Module
    AuthDemo: a signed token, its revocation and a user's sessions on concrete values. *)

From Stdlib Require Import Ascii.
From S2P Require Import Prelude GoTime Tenancy Json GoJson TimeText Postgres EvidenceRecord Ingest Http Token Session.

Module JwtSpec.
Import Jwt JwtMw.

Section Admission.
Context {UT : UUIDText} {JO : Jose} {S A : Type}.

(** The claims of a token the request presents, which the validator accepts. *)
Definition authentic (v : Validator) (env : Revocation.Env) (db : Revocation.DB) (r : HttpRequest) (c : AtlasClaims) : Prop :=
  ∃ tok, extractJWT r (cookieName v) = Some tok ∧
         Verify (keys v) tok = Ok c ∧
         Validate c (mkParams (opt_ExpectedIssuer (opts v)) (opt_ExpectedAudience (opts v)) (Revocation.env_clock env)) = Ok () ∧
         ∀ st, revoked v = Some st → ID c ≠ "" → Revocation.IsRevoked st env (ID c) db = Ok false.

(** The context a route sees of a request with claims [c]. *)
Definition bound (c : AtlasClaims) : Ctx :=
  mkCtx {| ctx_tenant := Some (uuid_String (CurrentTenantID c)) |} (Some c) (Some (credential_of c)).

Lemma authentic_unique v env db r c c' : authentic v env db r c → authentic v env db r c' → c = c'.
Proof using. intros (tok & E & V & _) (tok' & E' & V' & _). congruence. Qed.

Lemma tenant_of_bound c : tenant_of (cx_tenant (bound c)) = Some (CurrentTenantID c).
Proof using.
  unfold tenant_of, TenantFromContext, bound. cbn. rewrite bool_decide_false by apply uuid_String_nonempty.
  by apply uuid_Parse_String.
Qed.

Lemma WithTenant_String ctx u : WithTenant ctx (uuid_String u) = Ok {| ctx_tenant := Some (uuid_String u) |}.
Proof using. unfold WithTenant. by rewrite uuid_Parse_String. Qed.

Lemma Validate_inv c p :
  Validate c p = Ok () →
  Issuer c = ExpectedIssuer p ∧ ExpectedAudience p ∈ Audience c ∧ Unix (Now p) < ExpiresAt c ∧ ExpiresAt c ≠ 0 ∧
  (CurrentTenantID c = uuid_Nil ∨ CurrentTenantID c ∈ AvailableTenants c).
Proof using.
  unfold Validate. rewrite <- audienceContains_spec, <- tenantInList_spec. intros H. repeat split_match. all: split_and!.
  all: repeat match goal with
         | H : _ || _ = false |- _ => apply orb_false_iff in H as [??]
         | H : negb _ = false |- _ => apply negb_false_iff in H
         | H : _ && _ = false |- _ => apply andb_false_iff in H
         | H : bool_decide _ = true |- _ => apply bool_decide_eq_true in H
         end; try done; try lia.
  destruct Heqb4 as [E|E]; apply negb_false_iff in E; [left; by apply bool_decide_eq_true in E|by right].
Qed.

Lemma authentic_dec v env db r : (∃ c, authentic v env db r c) ∨ (∀ c, ¬ authentic v env db r c).
Proof using.
  unfold authentic. destruct (extractJWT _ _) as [tok|]; [|right; by intros c (? & ? & _)].
  destruct (Verify (keys v) tok) as [c|] eqn:Hv; [|right; intros c (? & ? & ? & _); congruence].
  destruct (Validate c (mkParams (opt_ExpectedIssuer (opts v)) (opt_ExpectedAudience (opts v)) (Revocation.env_clock env))) as [[]|] eqn:Hc;
    [|right; intros c0 (? & ? & ? & ? & ?); simplify_eq; congruence].
  assert (Hd : (∀ st, revoked v = Some st → ID c ≠ "" → Revocation.IsRevoked st env (ID c) db = Ok false) ∨
               ∃ st, revoked v = Some st ∧ ID c ≠ "" ∧ Revocation.IsRevoked st env (ID c) db ≠ Ok false).
  { destruct (revoked v) as [st|]; [|by left]. destruct (decide (ID c = "")); [by left|].
    destruct (Revocation.IsRevoked st env (ID c) db) as [[]|] eqn:E; [right|left|right]; try (exists st; by rewrite E). by intros ? [= <-] _. }
  destruct Hd as [Hr|(st & Hs & Hid & Hr)]; [left; by eauto 6|]. right. intros c0 (? & ? & ? & ? & Hn). simplify_eq. assert (c0 = c) as -> by congruence. by apply Hr, Hn.
Qed.

(** On a path that is not exempt, an authentic request goes to the route bound to its
    claims, and any other is refused. *)
Lemma serve_authentic v env db (next : Handler S A) r c s :
  existsb (exempted (hr_path r)) exempt = false → authentic v env db r c → serve (Some v) env db next r s = next r (bound c) s.
Proof using.
  intros Hp (tok & Ht & Hv & Hc & Hr). unfold serve, chain, jwtBypass. rewrite Hp. unfold Middleware. rewrite Ht, Hv, Hc. cbn zeta.
  rewrite (WithTenant_String (cx_tenant Background)).
  assert (Hn : ∀ tctx : Context, requireCredential exempt (tenancyMiddleware next) r (mkCtx tctx (Some c) (Some (credential_of c))) s = next r (bound c) s).
  { intros tctx. unfold requireCredential. rewrite Hp. unfold tenancyMiddleware. cbn [cx_cred cx_tenant cx_claims].
    change (cred_TenantID (credential_of c)) with (uuid_String (CurrentTenantID c)). by rewrite WithTenant_String. }
  assert (Ha : ∀ b : bool, match (if b then Ok (cx_tenant Background) else Ok {| ctx_tenant := Some (uuid_String (CurrentTenantID c)) |}) : result TenancyErr Context with
             | Err _ => write401 s
             | Ok tctx => requireCredential exempt (tenancyMiddleware next) r (mkCtx tctx (Some c) (Some (credential_of c))) s
             end = next r (bound c) s) by (intros []; apply Hn).
  destruct (revoked v) as [st|]; [|apply Ha]. case_bool_decide as Hid; cbn [negb]; [apply Ha|]. rewrite (Hr st) by done. apply Ha.
Qed.

Lemma serve_refused v env db (next : Handler S A) r s :
  existsb (exempted (hr_path r)) exempt = false → (∀ c, ¬ authentic v env db r c) → ∃ msg, serve (Some v) env db next r s = (WriteError StatusUnauthorized msg, s).
Proof using.
  intros Hp Hn. unfold serve, chain, jwtBypass. rewrite Hp. unfold Middleware.
  destruct (extractJWT _ _) as [tok|] eqn:Ht; [|unfold requireCredential; rewrite Hp; cbn; by eexists].
  destruct (Verify _ _) as [c|] eqn:Hv; [|by eexists].
  destruct (Validate _ _) as [[]|] eqn:Hc; [|by eexists]. cbn zeta.
  destruct (revoked v) as [st|] eqn:Er.
  - case_bool_decide as Hid; cbn [negb].
    + exfalso. apply (Hn c). exists tok. by split_and!.
    + destruct (Revocation.IsRevoked _ _ _ _) as [[]|] eqn:Hr; [by eexists| |by eexists].
      exfalso. apply (Hn c). exists tok. split_and!; try done. intros st' ?. congruence.
  - exfalso. apply (Hn c). exists tok. split_and!; try done. congruence.
Qed.

(** An exempt path reaches its route without a credential, claims or tenant. *)
Lemma serve_exempt jwt env db (next : Handler S A) r s :
  existsb (exempted (hr_path r)) exempt = true → serve jwt env db next r s = next r Background s.
Proof using. intros Hp. destruct jwt as [v|]; [|done]. unfold serve, chain, jwtBypass, requireCredential. by rewrite Hp. Qed.

(** C6: a request on a path that is not exempt either presents a token that verifies
    under the keystore, carries the expected issuer and audience, is not expired, names
    a tenant its subject may use (or none) and is not revoked, and then the route runs
    with exactly that token's tenant bound to its transactions; or it is answered 401
    and nothing runs. *)
Theorem admitted_requests_are_bound v env db (next : Handler S A) r s :
  existsb (exempted (hr_path r)) exempt = false →
  (∃ c, authentic v env db r c ∧ serve (Some v) env db next r s = next r (bound c) s ∧
        tenant_of (cx_tenant (bound c)) = Some (CurrentTenantID c) ∧
        Issuer c = opt_ExpectedIssuer (opts v) ∧ opt_ExpectedAudience (opts v) ∈ Audience c ∧ Unix (Revocation.env_clock env) < ExpiresAt c ∧
        (CurrentTenantID c = uuid_Nil ∨ CurrentTenantID c ∈ AvailableTenants c)) ∨
  ((∀ c, ¬ authentic v env db r c) ∧ ∃ msg, serve (Some v) env db next r s = (WriteError StatusUnauthorized msg, s)).
Proof using.
  intros Hp. destruct (authentic_dec v env db r) as [[c Hc]|Hn]; [left|right; split; [done|by apply serve_refused]].
  exists c. pose proof Hc as (tok & _ & _ & Hv & _). apply Validate_inv in Hv as (? & ? & ? & _ & ?).
  split_and!; auto using serve_authentic, tenant_of_bound.
Qed.
End Admission.

(** ** Revocation lasts *)

Section Revoked.
Context {UT : UUIDText} {JO : Jose}.
Import Revocation.

(** What changes the revocation tables: the endpoint and the sweeper. *)
Inductive Op :=
| OpRevoke (e : Endpoint) (env : Env) (r : Request)
| OpSweep (st : Store) (env : Env).
Definition exec (op : Op) (d : DB) : DB :=
  match op with
  | OpRevoke e env r => (ServeRevoke e env r d).2
  | OpSweep st env => (Sweep st env d).2
  end.
Definition run (ops : list Op) (d : DB) : DB := foldl (λ d op, exec op d) d ops.
Definition op_now (op : Op) : Time := match op with OpRevoke _ env _ | OpSweep _ env => env_now env end.
Definition fresh : DB := mkDB [] [].

(** [own] tells the platform's own signing keys; [own_keys] says that a keystore
    answers with none but them. *)
Definition own_keys (own : PublicKey → Prop) (ks : option (list VerificationKey)) : Prop :=
  ∀ vks, ks = Some vks → Forall (λ vk, own (Key vk)) vks.
Definition own_op (own : PublicKey → Prop) (op : Op) : Prop :=
  match op with OpRevoke e _ _ => own_keys own (keys e) | OpSweep _ _ => True end.

(** Among the tokens signed with the platform's keys those that share an id share
    their expiry: every mint draws a new id.  Nothing is said of foreign keys, with
    which anybody can sign any claims. *)
Definition one_expiry (own : PublicKey → Prop) (c : AtlasClaims) : Prop :=
  ∀ ks tok c', own_keys own ks → Verify ks tok = Ok c' → ID c' = ID c → ExpiresAt c' = ExpiresAt c.

(** The rows under the token's id expire with it. *)
Definition expiry_kept (c : AtlasClaims) (d : DB) : Prop :=
  ∀ row, row ∈ oauth_revoked_tokens d → rv_jti row = ID c → 0 < ExpiresAt c → rv_expires_at row = time_Unix (ExpiresAt c).
Definition listed (c : AtlasClaims) (d : DB) : Prop := ∃ row, row ∈ oauth_revoked_tokens d ∧ rv_jti row = ID c.

Lemma micros_Unix x : to_micros (time_Unix x) = time_Unix x.
Proof using.
  unfold to_micros, time_Unix, Evidence.unix_epoch, ns_per_day, ns_per_second. Z.to_euclidean_division_equations. lia.
Qed.

Lemma Revoke_cases st env jti exp by_ ip d res d' :
  Revoke st env jti exp by_ ip d = (res, d') →
  (∃ e, res = Err e ∧ d' = d) ∨
  (res = Ok () ∧ jti ≠ "" ∧
   (jti ∈ (rv_jti <$> oauth_revoked_tokens d) ∧ oauth_revoked_tokens d' = oauth_revoked_tokens d ∨
    oauth_revoked_tokens d' = oauth_revoked_tokens d ++ [mkRevoked jti (env_now env) (to_micros exp) by_])).
Proof using.
  unfold Revoke, insert_revoked, insert_event. intros H. repeat (split_match || case_bool_decide); simplify_eq/=; eauto 8.
Qed.

(** The token a call revoked, if it did. *)
Lemma ServeRevoke_cases e env r d rep d' :
  ServeRevoke e env r d = (rep, d') →
  oauth_revoked_tokens d' = oauth_revoked_tokens d ∨
  ∃ f c by_, rq_form r = Some f ∧ Verify (keys e) (TrimSpace (fm_token f)) = Ok c ∧
    oauth_revoked_tokens d' = oauth_revoked_tokens d ++
      [mkRevoked (ID c) (env_now env) (to_micros (if ExpiresAt c <=? 0 then env_clock env + time_Hour else time_Unix (ExpiresAt c))) by_].
Proof using.
  unfold ServeRevoke.
  intros H. destruct (negb _); [by simplify_eq; left|]. destruct (rq_form r) as [f|] eqn:Hf; [|by simplify_eq; left].
  case_bool_decide; [by simplify_eq; left|]. destruct (authenticate _ _ _ _ _) as [by_|]; [|by simplify_eq; left].
  destruct (Verify _ _) as [c|] eqn:Hv; [|by simplify_eq; left]. destruct (Revoke _ _ _ _ _ _ _) as [res d1] eqn:Hr.
  assert (d1 = d') as -> by (by destruct res; simplify_eq).
  apply Revoke_cases in Hr as [(? & ? & ->)|(? & _ & [[_ ?]|?])]; [by left|by left|]. right. by exists f, c, by_.
Qed.

Lemma exec_expiry_kept own c op d : one_expiry own c → own_op own op → expiry_kept c d → expiry_kept c (exec op d).
Proof using.
  intros Hu Hown Hk. destruct op as [e env r|st env]; unfold exec.
  - destruct (ServeRevoke e env r d) as [rep d'] eqn:E. cbn [snd]. unfold expiry_kept.
    apply ServeRevoke_cases in E as [->|(f & c' & by_ & _ & Hv & ->)]; [done|]. intros row [Hr|Hr]%elem_of_app; [by apply Hk|].
    apply list_elem_of_singleton in Hr as ->. cbn. intros Hid Hpos. rewrite (Hu _ _ _ Hown Hv Hid).
    rewrite (proj2 (Z.leb_gt _ _)) by done. apply micros_Unix.
  - unfold Sweep. destruct (pool st), (env_exec_ok env); cbn; try done. intros row [_ Hr]%elem_of_select_where. by apply Hk.
Qed.

Lemma exec_listed c op d T :
  expiry_kept c d → 0 < ExpiresAt c → op_now op ≤ T → T ≤ time_Unix (ExpiresAt c) → listed c d → listed c (exec op d).
Proof using.
  intros Hk Hpos Hop HT (row & Hr & Hid). exists row. split; [|done]. destruct op as [e env r|st env]; unfold exec; cbn in Hop.
  - destruct (ServeRevoke e env r d) as [rep d'] eqn:E. cbn [snd].
    apply ServeRevoke_cases in E as [->|(f & c' & by_ & _ & _ & ->)]; [done|]. apply elem_of_app. by left.
  - unfold Sweep. destruct (pool st), (env_exec_ok env); cbn; try done. apply elem_of_select_where. split; [|done].
    apply negb_true_iff, bool_decide_false. rewrite (Hk row Hr Hid Hpos). lia.
Qed.

Lemma run_expiry_kept own c ops d : one_expiry own c → Forall (own_op own) ops → expiry_kept c d → expiry_kept c (run ops d).
Proof using. intros Hu Ho. revert d. induction Ho as [|op ops Ho _ IH]; intros d Hk; [done|]. apply IH. by eapply exec_expiry_kept. Qed.

Lemma run_listed own c ops d T :
  one_expiry own c → Forall (own_op own) ops → expiry_kept c d → 0 < ExpiresAt c → Forall (λ op, op_now op ≤ T) ops → T ≤ time_Unix (ExpiresAt c) → listed c d → listed c (run ops d).
Proof using.
  intros Hu Ho Hk Hpos Hops HT. revert d Hk. induction Hops as [|op ops Hop Hops IH]; intros d Hk Hl; [done|].
  apply Forall_cons in Ho as [Ho Hos]. apply IH; [done|by eapply exec_expiry_kept|by eapply exec_listed].
Qed.

(** A successful call lists the token. *)
Lemma ServeRevoke_lists e env r f d d' c :
  rq_form r = Some f → Verify (keys e) (TrimSpace (fm_token f)) = Ok c → ServeRevoke e env r d = (WriteJSON StatusOK (), d') → listed c d' ∧ ID c ≠ "".
Proof using.
  intros Hf Hv. unfold ServeRevoke. rewrite Hf, Hv. cbv zeta.
  generalize (if ExpiresAt c <=? 0 then env_clock env + time_Hour else time_Unix (ExpiresAt c)). intros exp H. repeat split_match.
  apply Revoke_cases in Heqp as [(? & ? & _)|(_ & Hid & [[Hin E]|E])]; [done|..]; (split; [|done]); unfold listed; rewrite E.
  - apply list_elem_of_fmap in Hin as (row & -> & ?). by exists row.
  - eexists. split; [apply elem_of_app; right; by apply list_elem_of_singleton|done].
Qed.

Lemma Unix_lt t x : Unix t < x → t < time_Unix x.
Proof using. unfold Unix, time_Unix, ns_per_second. Z.to_euclidean_division_equations. lia. Qed.

Lemma listed_IsRevoked c d st env :
  expiry_kept c d → 0 < ExpiresAt c → env_now env < time_Unix (ExpiresAt c) → ID c ≠ "" → listed c d → IsRevoked st env (ID c) d ≠ Ok false.
Proof using.
  intros Hk Hpos Hn Hid (row & Hr & Hj). unfold IsRevoked. rewrite bool_decide_false by done.
  destruct (pool st), (env_exec_ok env && pg_text (ID c)); cbn; try done. destruct (select_where _ _) eqn:E; [|done].
  assert (Hin : row ∈ @nil RevokedRow); [|by apply elem_of_nil in Hin]. rewrite <- E. apply elem_of_select_where. split; [|done].
  rewrite !bool_decide_true; [done|by rewrite (Hk row)|done].
Qed.

(** The state of the tables that a revoked token's claims meet, up to a time [T]. *)
Lemma revoked_is_listed own before after e env r f d' c T :
  one_expiry own c → own_keys own (keys e) → Forall (own_op own) before → Forall (own_op own) after →
  rq_form r = Some f → Verify (keys e) (TrimSpace (fm_token f)) = Ok c →
  ServeRevoke e env r (run before fresh) = (WriteJSON StatusOK (), d') →
  Forall (λ op, op_now op ≤ T) after → Evidence.unix_epoch ≤ T → Unix T < ExpiresAt c →
  expiry_kept c (run after d') ∧ 0 < ExpiresAt c ∧ T < time_Unix (ExpiresAt c) ∧ ID c ≠ "" ∧ listed c (run after d').
Proof using.
  intros Hu Hoe Hob Hoa Hf Hv Hs Hops Hep Hlt. assert (Hpos : 0 < ExpiresAt c).
  { unfold Unix, ns_per_second in Hlt. Z.to_euclidean_division_equations. lia. }
  pose proof (Unix_lt _ _ Hlt) as HT. assert (Hk : expiry_kept c d').
  { replace d' with (exec (OpRevoke e env r) (run before fresh)) by (cbn; by rewrite Hs).
    apply (exec_expiry_kept own); [done..|]. apply (run_expiry_kept own); [done..|]. by intros row ?%elem_of_nil. }
  destruct (ServeRevoke_lists _ _ _ _ _ _ _ Hf Hv Hs) as [Hl Hid].
  split_and!; try done; [by eapply run_expiry_kept|]. eapply run_listed; eauto. lia.
Qed.

(** What an active answer means. *)
Lemma introspect_active e env r f d c :
  rq_form r = Some f → ServeIntrospect e env r d = WriteJSON StatusOK (Some c) →
  Verify (keys e) (TrimSpace (fm_token f)) = Ok c ∧ Validate c (mkParams (issuer e) (issuer e) (env_clock env)) = Ok () ∧
  (ID c = "" ∨ IsRevoked (revoked e) env (ID c) d = Ok false).
Proof using.
  intros Hf. unfold ServeIntrospect. rewrite Hf. intros H. repeat split_match.
  all: match goal with u : () |- _ => destruct u end; split_and!; try done; try by right.
  left. by match goal with H : negb (bool_decide _) = false |- _ => apply negb_false_iff, bool_decide_eq_true in H end.
Qed.

(** C7: once the revocation endpoint has answered 200 for a token that verifies
    against its keystore, whatever later calls to the endpoint and sweeps of the
    table do, no request that presents the token reaches a route that is not exempt
    from authentication and introspection never reports it active.  The endpoint's
    keystore holds only the platform's own keys, and tokens signed with those share
    an id only if they share their expiry; the middleware has a revocation store; at
    the time of the check the database's clock, in the lookup and in the calls and
    sweeps before it, is not ahead of the clock tokens are checked against, which is
    past 1970.  (The endpoint also answers 200 when the token does not verify or the
    keystore fails, and then revokes nothing.) *)
Theorem revoked_token_refused {S A} own before after e env r f d' c v st cenv (next : Handler S A) req s e' r' f' tok :
  one_expiry own c → own_keys own (keys e) → Forall (own_op own) before → Forall (own_op own) after →
  rq_form r = Some f → TrimSpace (fm_token f) = tok → Verify (keys e) tok = Ok c →
  ServeRevoke e env r (run before fresh) = (WriteJSON StatusOK (), d') →
  Forall (λ op, op_now op ≤ env_clock cenv) after → env_now cenv ≤ env_clock cenv → Evidence.unix_epoch ≤ env_clock cenv →
  JwtMw.revoked v = Some st → existsb (exempted (hr_path req)) exempt = false →
  extractJWT req (cookieName v) = Some tok →
  rq_form r' = Some f' → TrimSpace (fm_token f') = tok →
  (∃ msg, serve (Some v) cenv (run after d') next req s = (WriteError StatusUnauthorized msg, s)) ∧
  ∀ c', ServeIntrospect e' cenv r' (run after d') ≠ WriteJSON StatusOK (Some c').
Proof using.
  intros Hu Hoe Hob Hoa Hf Htok Hv Hs Hops Hclk Hep Hst Hp Hx Hf' Htok'. subst tok.
  assert (Hl : Unix (env_clock cenv) < ExpiresAt c → ID c ≠ "" ∧ ∀ st', IsRevoked st' cenv (ID c) (run after d') ≠ Ok false).
  { intros Hlt. destruct (revoked_is_listed own before after e env r f d' c (env_clock cenv)) as (Hk & Hpos & HT & Hid & Hin); try done.
    split; [done|]. intros st'. apply listed_IsRevoked; try done. lia. }
  split.
  - apply serve_refused; [done|]. intros c0 (tok & Hx0 & Hv0 & Hval & Hr0). rewrite Hx in Hx0. simplify_eq.
    assert (c0 = c) as -> by (by eapply Verify_functional). apply Validate_inv in Hval as (_ & _ & Hlt & _).
    destruct (Hl Hlt) as [Hid Hr]. by apply (Hr st), Hr0.
  - intros c' H. apply (introspect_active _ _ _ _ _ _ Hf') in H as (Hv' & Hval & Hr'). rewrite Htok' in Hv'.
    assert (c' = c) as -> by (by eapply Verify_functional). apply Validate_inv in Hval as (_ & _ & Hlt & _).
    destruct (Hl Hlt) as [Hid Hr]. by destruct Hr' as [|?%Hr].
Qed.
End Revoked.
End JwtSpec.

Module SessionSpec.
Import Jwt Sessions.

Section Store.
Context {UT : UUIDText} (s : Store).

(** ** Transactions on a healthy pool *)

Lemma withTx_healthy ctx t {A} (body : Tx DB Error A) d :
  tenant_of ctx = Some t → withTx healthy ctx body d = match body d with (Err e, _) => (Err e, d) | ok => ok end.
Proof using.
  unfold tenant_of, withTx, ApplyTenant. intros H. destruct (TenantFromContext ctx) as [str|]; [|done]. cbn.
  by destruct (body d) as [[] ?].
Qed.

(** The row a read finds, after the update of that row. *)
Lemma Get_update guc t id p f d r :
  (∀ x, row_ID (f x) = row_ID x ∧ row_TenantID (f x) = row_TenantID x) →
  GetSessionByID guc t id d = Some r →
  GetSessionByID guc t id (with_sessions d (update_where p f (sessions d))) = Some (if p r then f r else r).
Proof using.
  intros Hf. unfold GetSessionByID. cbn [sessions with_sessions]. assert (Hk : ∀ x, at_key guc t id (if p x then f x else x) = at_key guc t id x).
  { intros x. destruct (p x); [|done]. unfold at_key. by destruct (Hf x) as [-> ->]. }
  induction (sessions d) as [|x l IH]; [done|]. unfold update_where, select_where in *. cbn [map]. rewrite !filter_cons, (Hk x).
  case_decide; [|done]. cbn. by intros [= ->].
Qed.

(** ** The window *)

Definition expiry_after (clock : Time) (r : Row) : Time :=
  if bool_decide (row_ExpiresAt r < clock + RefreshThreshold) then to_micros (clock + ttl s) else row_ExpiresAt r.

Lemma Sub_threshold a b : (Ingest.Sub a b <? RefreshThreshold) = bool_decide (a < b + RefreshThreshold).
Proof using.
  unfold Ingest.Sub. change (2 ^ 63) with 9223372036854775808. change RefreshThreshold with 86400000000000.
  case_bool_decide; [apply Z.ltb_lt|apply Z.ltb_ge]; lia.
Qed.

(** One read of a live session that has not expired, and of one that has. *)
Lemma Read_live ctx t id r clock now rnd d :
  tenant_of ctx = Some t → GetSessionByID (Some t) t id d = Some r → live r = true → clock ≤ row_ExpiresAt r →
  ∃ x d' r', Read s (mkEnv rnd clock now healthy) ctx t id d = (Ok x, d') ∧ GetSessionByID (Some t) t id d' = Some r' ∧ live r' = true ∧
             row_ExpiresAt r' = expiry_after clock r.
Proof using.
  intros Ht Hg Hl He. unfold Read. cbn [env_infra]. rewrite (withTx_healthy _ _ _ _ Ht), Ht.
  unfold mbind, tx_bind, tx_gets. rewrite Hg, Hl. cbn [negb env_clock]. unfold After. rewrite bool_decide_false by lia.
  unfold slide, expiry_after. cbn [env_clock env_now]. rewrite Sub_threshold. case_bool_decide as Hw; [|by eexists _, d, r].
  eexists _, _, _. split; [done|]. unfold TouchSession. split; [by apply Get_update|].
  assert (Hk : at_key (Some t) t id r = true).
  { unfold GetSessionByID in Hg. apply head_Some in Hg as [l Hg]. assert (Hr : r ∈ select_where (at_key (Some t) t id) (sessions d)).
    { rewrite Hg. by left. } by apply elem_of_select_where in Hr as [? _]. }
  by rewrite Hk, Hl.
Qed.

Lemma Read_expired ctx t id r clock now rnd d :
  tenant_of ctx = Some t → GetSessionByID (Some t) t id d = Some r → live r = true → row_ExpiresAt r < clock →
  Read s (mkEnv rnd clock now healthy) ctx t id d = (Err ErrExpired, d).
Proof using.
  intros Ht Hg Hl He. unfold Read. cbn [env_infra]. rewrite (withTx_healthy _ _ _ _ Ht), Ht.
  unfold mbind, tx_bind, tx_gets. rewrite Hg, Hl. cbn [negb env_clock]. unfold After. by rewrite bool_decide_true.
Qed.

(** The row a successful login leaves. *)
Lemma Create_row env ctx i x d d' :
  Create s env ctx i d = (Ok x, d') →
  tenant_of ctx = Some (in_TenantID i) ∧
  ∃ r, GetSessionByID (tenant_of ctx) (in_TenantID i) (ID x) d' = Some r ∧ live r = true ∧ row_UserID r = in_UserID i ∧
       row_ExpiresAt r = to_micros (env_clock env + ttl s).
Proof using.
  unfold Create. destruct (NewID _) as [id|]; [|done]. intros [(x' & [= <-] & H)|(? & ? & ?)]%(withTx_cases (λ d : DB, d)); [|done].
  destruct (CreateSession _ _ _ _) as [[r d1]|] eqn:E; [|done]. simplify_eq. unfold CreateSession in E. cbn in E.
  destruct (negb _); [done|]. destruct (bool_decide (tenant_of ctx = _)) eqn:Eg; [|done]. apply bool_decide_eq_true in Eg.
  case_bool_decide as Hid; [done|]. cbn [negb] in E. destruct (negb _); [done|]. simplify_eq. split; [done|].
  match goal with |- context [sessions d ++ [?r]] => exists r end. split; [|by split_and!]. unfold GetSessionByID. cbn [sessions with_sessions]. rewrite select_where_app, select_where_none.
  - rewrite app_nil_l. unfold select_where. rewrite filter_cons, decide_True; [done|]. unfold at_key. cbn. by rewrite Eg, !bool_decide_true.
  - intros y Hy. unfold at_key. rewrite !andb_false_iff. right. apply bool_decide_false. intros Hy2. apply Hid. cbn in Hy2.
    rewrite <- Hy2. by apply list_elem_of_fmap_2.
Qed.

(** Reads of one session, at the given clocks of the application and the database:
    the table they leave when all of them succeed. *)
Fixpoint reads (ctx : Context) (t : UUID) (id : string) (cs : list (Time * Time)) (d : DB) : option DB :=
  match cs with
  | [] => Some d
  | (c, now) :: cs => match Read s (mkEnv None c now healthy) ctx t id d with (Ok _, d') => reads ctx t id cs d' | _ => None end
  end.

(** Each read follows the one before within the refresh threshold. *)
Fixpoint close (from : Time) (cs : list (Time * Time)) : Prop :=
  match cs with [] => True | (c, _) :: cs => from ≤ c ≤ from + RefreshThreshold ∧ close c cs end.
Fixpoint last_clock (from : Time) (cs : list (Time * Time)) : Time := match cs with [] => from | (c, _) :: cs => last_clock c cs end.

Definition in_window (clock : Time) (r : Row) : Prop := clock + RefreshThreshold ≤ row_ExpiresAt r ≤ clock + ttl s.

Lemma in_window_fresh clock r : RefreshThreshold + 1000 ≤ ttl s → row_ExpiresAt r = to_micros (clock + ttl s) → in_window clock r.
Proof using. unfold in_window, to_micros. intros ? ->. Z.to_euclidean_division_equations. lia. Qed.

Lemma reads_window ctx t id cs c0 d r :
  RefreshThreshold + 1000 ≤ ttl s → tenant_of ctx = Some t → GetSessionByID (Some t) t id d = Some r → live r = true → in_window c0 r → close c0 cs →
  ∃ d' r', reads ctx t id cs d = Some d' ∧ GetSessionByID (Some t) t id d' = Some r' ∧ live r' = true ∧ in_window (last_clock c0 cs) r'.
Proof using.
  intros Httl Ht. revert c0 d r. induction cs as [|[c now] cs IH]; intros c0 d r Hg Hl Hw Hc; [by exists d, r|]. destruct Hc as [Hc Hcs].
  destruct (Read_live ctx t id r c now None d) as (x & d' & r' & Hr & Hg' & Hl' & He); [done..|unfold in_window in Hw; lia|].
  cbn [reads last_clock]. rewrite Hr. apply (IH c d' r'); try done. unfold expiry_after in He. case_bool_decide; [by apply in_window_fresh|].
  unfold in_window in *. lia.
Qed.

(** C37: a session made by a login at [c0] is read successfully for as long as each use
    comes within the refresh threshold of the one before (the login first), and it is
    expired when it has then been idle for longer than its lifetime. *)
Theorem session_window env ctx i x d0 d cs :
  RefreshThreshold + 1000 ≤ ttl s → Create s env ctx i d0 = (Ok x, d) → close (env_clock env) cs →
  ∃ d', reads ctx (in_TenantID i) (ID x) cs d = Some d' ∧
        ∀ c now rnd, last_clock (env_clock env) cs + ttl s < c →
          Read s (mkEnv rnd c now healthy) ctx (in_TenantID i) (ID x) d' = (Err ErrExpired, d').
Proof using.
  intros Httl Hc Hcs. apply Create_row in Hc as (Ht & r & Hg & Hl & _ & He). rewrite Ht in Hg.
  destruct (reads_window ctx (in_TenantID i) (ID x) cs (env_clock env) d r) as (d' & r' & Hr & Hg' & Hl' & Hw); auto using in_window_fresh.
  exists d'. split; [done|]. intros c now rnd Hlt. apply Read_expired with r'; try done. unfold in_window in Hw. lia.
Qed.

(** ** Revoked for good *)

Inductive Op :=
| OpCreate (env : Env) (ctx : Context) (i : CreateInput)
| OpRead (env : Env) (ctx : Context) (t : UUID) (id : string)
| OpRevoke (env : Env) (ctx : Context) (t : UUID) (id : string)
| OpRevokeForUser (env : Env) (ctx : Context) (t u : UUID) (id : string)
| OpRevokeOthers (env : Env) (ctx : Context) (t u : UUID) (keep : string).
Definition exec (op : Op) (d : DB) : DB :=
  match op with
  | OpCreate env ctx i => (Create s env ctx i d).2
  | OpRead env ctx t id => (Read s env ctx t id d).2
  | OpRevoke env ctx t id => (Revoke env ctx t id d).2
  | OpRevokeForUser env ctx t u id => (RevokeForUser env ctx t u id d).2
  | OpRevokeOthers env ctx t u keep => (RevokeOthersForUser env ctx t u keep d).2
  end.
Definition run (ops : list Op) (d : DB) : DB := foldl (λ d op, exec op d) d ops.

(** What an operation does to the table: it adds a row under a new id, or updates rows
    without touching their ids or clearing a revocation. *)
Definition evolves (d d' : DB) : Prop :=
  (∃ r, ¬ (row_ID r ∈ (row_ID <$> sessions d)) ∧ sessions d' = sessions d ++ [r]) ∨
  (∃ p f, (∀ r, row_ID (f r) = row_ID r ∧ (row_RevokedAt r ≠ None → row_RevokedAt (f r) ≠ None)) ∧ sessions d' = update_where p f (sessions d)).

Lemma update_where_false {A} (p : A → bool) f l : (∀ x, x ∈ l → p x = false) → update_where p f l = l.
Proof using.
  intros H. unfold update_where. induction l as [|x l IH]; [done|]. cbn [map]. rewrite (H x) by left. f_equal. apply IH. intros y Hy. apply H. by right.
Qed.

Lemma evolves_refl d : evolves d d.
Proof using. right. exists (λ _, false), id. split; [done|]. symmetry. by apply update_where_false. Qed.

Lemma evolves_withTx {A} infra ctx (body : Tx DB Error A) d : evolves d (body d).2 → evolves d (withTx infra ctx body d).2.
Proof using UT.
  intros H. destruct (withTx infra ctx body d) as [res d'] eqn:E.
  apply (withTx_cases (λ d : DB, d)) in E as [(a & -> & E)|(e & -> & E)]; [by rewrite E in H|]. cbn. rewrite E. apply evolves_refl.
Qed.

Ltac updates :=
  right; unfold TouchSession, RevokeSession, RevokeSessionForUser, RevokeOtherSessionsForUser; cbn;
  match goal with |- context [update_where ?p ?f (sessions ?d)] => exists p, f end.

Lemma exec_evolves op d : evolves d (exec op d).
Proof using.
  destruct op as [env ctx i|env ctx t id|env ctx t id|env ctx t u id|env ctx t u keep]; unfold exec.
  - unfold Create. destruct (NewID _); [|apply evolves_refl]. apply evolves_withTx. unfold CreateSession. cbn.
    destruct (negb _); [apply evolves_refl|]. destruct (negb _); [apply evolves_refl|]. case_bool_decide as Hid; [apply evolves_refl|].
    destruct (negb _); [apply evolves_refl|]. left. by match goal with |- context [sessions d ++ [?r]] => exists r end.
  - apply evolves_withTx. unfold mbind, tx_bind, tx_gets. destruct (GetSessionByID _ _ _ _) as [r|]; [|apply evolves_refl].
    destruct (negb _); [apply evolves_refl|]. destruct (After _ _); [apply evolves_refl|]. unfold slide.
    destruct (_ <? _); [|apply evolves_refl]. by updates.
  - apply evolves_withTx. by updates.
  - apply evolves_withTx. by updates.
  - apply evolves_withTx. by updates.
Qed.

Definition unique_ids (d : DB) : Prop := NoDup (row_ID <$> sessions d).
Definition dead (id : string) (d : DB) : Prop := ∃ r, r ∈ sessions d ∧ row_ID r = id ∧ row_RevokedAt r ≠ None.

Lemma evolves_unique d d' : evolves d d' → unique_ids d → unique_ids d'.
Proof using.
  unfold unique_ids. intros [(r & Hr & ->)|(p & f & Hf & ->)] Hu.
  - rewrite fmap_app. apply NoDup_app. split_and!; [done| |by apply NoDup_singleton]. intros x Hx ->%list_elem_of_singleton. done.
  - rewrite update_where_key; [done|]. intros r _. apply Hf.
Qed.

Lemma evolves_dead id d d' : evolves d d' → dead id d → dead id d'.
Proof using.
  intros He (r & Hr & Hid & Hv). destruct He as [(r0 & _ & E)|(p & f & Hf & E)].
  - exists r. rewrite E. split; [|done]. apply elem_of_app. by left.
  - exists (if p r then f r else r). rewrite E. destruct (Hf r) as [Hi Hr']. split; [|destruct (p r); rewrite ?Hi; auto].
    apply elem_of_update_where. by exists r.
Qed.

Lemma run_dead id ops d : unique_ids d → dead id d → unique_ids (run ops d) ∧ dead id (run ops d).
Proof using.
  revert d. induction ops as [|op ops IH]; intros d Hu Hd; [done|].
  apply IH; [by eapply evolves_unique, Hu; apply exec_evolves|by eapply evolves_dead, Hd; apply exec_evolves].
Qed.

Lemma Read_dead env ctx t id d x : unique_ids d → dead id d → (Read s env ctx t id d).1 ≠ Ok x.
Proof using.
  intros Hu (r & Hr & Hid & Hv). destruct (Read s env ctx t id d) as [res d'] eqn:E. cbn. intros ->.
  apply (withTx_cases (λ d : DB, d)) in E as [(y & [= <-] & E)|(? & ? & _)]; [|done].
  unfold mbind, tx_bind, tx_gets in E. destruct (GetSessionByID _ _ _ _) as [r'|] eqn:Hg; [|done].
  unfold GetSessionByID in Hg. apply head_Some in Hg as [l Hg].
  assert (Hin : r' ∈ select_where (at_key (tenant_of ctx) t id) (sessions d)) by (rewrite Hg; by left).
  apply elem_of_select_where in Hin as [Hk Hin]. unfold at_key in Hk. rewrite !andb_true_iff, !bool_decide_eq_true in Hk.
  assert (r' = r) as -> by (apply (NoDup_key_inj row_ID (sessions d)); naive_solver congruence).
  unfold live in E. by rewrite bool_decide_false in E.
Qed.

Definition owned (t u : UUID) (id : string) (r : Row) : Prop := row_ID r = id ∧ row_TenantID r = t ∧ row_UserID r = u.

Lemma owned_where guc t u id r : guc = Some t → at_key guc t id r && bool_decide (row_UserID r = u) = true ↔ owned t u id r.
Proof using. intros ->. unfold at_key, owned. rewrite !andb_true_iff, !bool_decide_eq_true. naive_solver. Qed.

(** C38: a user's request to end a session ends it for good when the session is that
    user's: whatever logins, reads and revocations follow, it is never read again.
    When it is nobody's or another user's, the answer is no and nothing changes. *)
Theorem revoked_session_stays_out env ctx t u id d b d' :
  unique_ids d → tenant_of ctx = Some t → RevokeForUser env ctx t u id d = (Ok b, d') →
  (b = true ∧ (∃ r, r ∈ sessions d ∧ owned t u id r) ∧ ∀ ops env' ctx' t' x, (Read s env' ctx' t' id (run ops d')).1 ≠ Ok x) ∨
  (b = false ∧ (∀ r, r ∈ sessions d → ¬ owned t u id r) ∧ d' = d).
Proof using.
  intros Hu Ht H. assert (Hu' : unique_ids d').
  { apply (evolves_unique d); [|done]. replace d' with (exec (OpRevokeForUser env ctx t u id) d) by (cbn; by rewrite H). apply exec_evolves. }
  apply (withTx_cases (λ d : DB, d)) in H as [(y & [= <-] & H)|(? & ? & _)]; [|done].
  unfold RevokeSessionForUser in H. set (p := λ r, at_key (tenant_of ctx) t id r && bool_decide (row_UserID r = u)) in H. simplify_eq.
  assert (Hp : ∀ r, p r = true ↔ owned t u id r) by (intros r; by apply owned_where).
  destruct (select_where p (sessions d)) as [|r l] eqn:E.
  - right. assert (Hn : ∀ r, r ∈ sessions d → p r = false).
    { intros r Hr. apply not_true_iff_false. intros Hpr. assert (Hin : r ∈ @nil Row); [|by apply elem_of_nil in Hin].
      rewrite <- E. by apply elem_of_select_where. }
    split_and!; [done| |].
    + intros r Hr Ho. apply Hp in Ho. by rewrite Hn in Ho.
    + rewrite update_where_false by done. by destruct d.
  - left. assert (Hin : r ∈ select_where p (sessions d)) by (rewrite E; left). apply elem_of_select_where in Hin as [Hpr Hr].
    split_and!; [done|by exists r; rewrite <- Hp|]. intros ops env' ctx' t' x.
    destruct (run_dead id ops _ Hu') as [??]; [|by apply Read_dead].
    exists (set_revoked (default (env_now env) (row_RevokedAt r)) r). split_and!; [|by apply Hp in Hpr as [? _]|done].
    apply elem_of_update_where. exists r. by rewrite Hpr.
Qed.
End Store.

(** ** The routes *)

(** A handler's view of a request behind the middleware; [id] is the path's. *)
Definition session_request (id : string) (r : JwtMw.HttpRequest) (cx : JwtMw.Ctx) : Request :=
  mkRequest (JwtMw.cx_tenant cx) (JwtMw.cx_cred cx) id (JwtMw.Cookie r CookieName) (JwtMw.hr_tenant_header r).

(** What google/uuid does with the subject of a user's token: the prefix makes its
    length none of those [Parse] accepts. *)
Class SubjectText {UT : UUIDText} := subject_no_uuid u : uuid_Parse ("user:" +:+ uuid_String u) = None.

Section Routes.
Context {UT : UUIDText} {JO : Jwt.Jose} {PL : Planner} {JB : JsonB}.

Definition logout_route (env : Env) : JwtMw.Handler DB () := λ r cx, Logout env (session_request "" r cx).
Definition list_route (env : Env) : JwtMw.Handler DB (list sessionWire * Z) := λ r cx, ListSessions env (session_request "" r cx).
Definition revoke_route (env audit : Env) (id : string) : JwtMw.Handler DB () := λ r cx, RevokeSessionHandler env audit (session_request id r cx).
Definition revoke_others_route (env audit : Env) : JwtMw.Handler DB Z := λ r cx, RevokeOtherSessions env audit (session_request "" r cx).

(** C39: signing out revokes nothing: /auth/logout is exempt from authentication, so its
    context has no tenant, the transaction that would revoke the session fails, and the
    handler drops that failure.  Every request to it is answered 204 with the sessions
    as they were, whatever cookie and tenant header it carries. *)
Theorem logout_revokes_nothing jwt renv rdb env r d :
  JwtMw.hr_path r = "/auth/logout" → JwtMw.serve jwt renv rdb (logout_route env) r d = (WriteJSON StatusNoContent (), d).
Proof using.
  intros Hp. rewrite JwtSpec.serve_exempt by (by rewrite Hp). unfold logout_route, Logout. cbn [rq_cookie rq_tenant_header rq_ctx session_request].
  f_equal. destruct (JwtMw.Cookie r CookieName) as [c|]; [|done]. case_bool_decide; [done|]. destruct (uuid_Parse _); [|done].
  unfold Revoke, withTx. by destruct (begin_ok _).
Qed.

Context {ST : SubjectText}.

Lemma authn_bound id r c :
  authnContext (session_request id r (JwtSpec.bound c)) =
  Some ({| ctx_tenant := Some (uuid_String (Jwt.CurrentTenantID c)) |}, JwtMw.credential_of c).
Proof using.
  unfold authnContext, session_request, JwtSpec.bound. cbn. rewrite !bool_decide_false by apply uuid_String_nonempty. done.
Qed.

(** C40: a user signed in with an access token, whose subject is the prefixed user id,
    sees none of the sessions and can end none of them: the three routes parse the
    subject without removing the prefix. *)
Theorem token_users_have_no_sessions v renv rdb env audit r c u id d :
  existsb (JwtMw.exempted (JwtMw.hr_path r)) JwtMw.exempt = false → JwtSpec.authentic v renv rdb r c →
  Jwt.Subject c = "user:" +:+ uuid_String u → id ≠ "" →
  JwtMw.serve (Some v) renv rdb (list_route env) r d = (WriteJSON StatusOK ([], 0), d) ∧
  JwtMw.serve (Some v) renv rdb (revoke_route env audit id) r d = (WriteError StatusNotFound "session not found", d) ∧
  JwtMw.serve (Some v) renv rdb (revoke_others_route env audit) r d = (WriteError StatusNotFound "no sessions for this credential", d).
Proof using ST.
  intros Hp Ha Hs Hid. rewrite !(JwtSpec.serve_authentic v renv rdb _ r c) by done.
  unfold list_route, revoke_route, revoke_others_route, ListSessions, RevokeSessionHandler, RevokeOtherSessions. rewrite !authn_bound.
  change (cred_UserID (JwtMw.credential_of c)) with (Jwt.Subject c). rewrite Hs, subject_no_uuid. cbn [rq_id session_request].
  by rewrite bool_decide_false.
Qed.
End Routes.
End SessionSpec.

Module AuthDemo.
Import Jwt JwtMw.
#[local] Existing Instance binary_uuid.
#[local] Existing Instance canonical_jsonb.

Definition payload : string :=
  js "{'iss':'atlas','sub':'user:a101','aud':['atlas'],'exp':1800000000,'jti':'j1','atlas:current_tenant_id':'a1','atlas:available_tenants':['a11','a1'],'atlas:roles':{'a1':['admin']}}".
Definition tok : string := "eyJ.payload.signature".

(** Somebody else's token with the same id and a later expiry. *)
Definition forged_payload : string := js "{'iss':'atlas','sub':'user:a101','aud':['atlas'],'exp':1900000000,'jti':'j1'}".
Definition forged : string := "eyJ.forged.signature".

(** Key 7 signed the platform's token, key 9 the forged one. *)
#[local] Instance two_tokens : Jose.
Proof.
  refine {| PublicKey := nat; JWS := string;
            ParseSignedCompact t := if bool_decide (t = tok) then Some payload
                                    else if bool_decide (t = forged) then Some forged_payload else None;
            jws_kids _ := ["k1"]; jws_payload p := p;
            jws_signed_by p k := if bool_decide (p = payload) then (k =? 7)%nat else (k =? 9)%nat |}.
Defined.
#[local] Instance subject_text : SessionSpec.SubjectText.
Proof. by intros u. Defined.

Definition keys1 : option (list VerificationKey) := Some [mkVerificationKey "k0" 3%nat; mkVerificationKey "k1" 7%nat].
Definition claims1 : AtlasClaims :=
  mkClaims (mkRegistered "atlas" "user:a101" ["atlas"] 1800000000 0 0 "j1") "" 1%N [3%N; 1%N] {[1%N := ["admin"]]} false.

(** The payload decodes to the claims; a null in a repeated array keeps the element. *)
Example Verify_tok : Verify keys1 tok = Ok claims1.
Proof. vm_compute. reflexivity. Qed.
Example null_element : Audience <$> (registered <$> Unmarshal_claims (js "{'aud':['a','b'],'AUD':[null]}")) = Some ["a"].
Proof. vm_compute. reflexivity. Qed.

(** Under the forger's key the id does have another expiry. *)
Example Verify_forged :
  match Verify (Some [mkVerificationKey "k1" 9%nat]) forged with
  | Ok c => Jwt.ID c = "j1" ∧ Jwt.ExpiresAt c = 1900000000
  | Err _ => False
  end.
Proof. vm_compute. split; reflexivity. Qed.

Definition own (k : nat) : Prop := k ≠ 9%nat.
Lemma own_keys1 : JwtSpec.own_keys own keys1.
Proof. intros vks [= <-]. repeat constructor; unfold own; cbn; lia. Qed.

Lemma own_find vks kid k : Forall (λ vk, own (Key vk)) vks → findKey vks kid = Some k → own k.
Proof.
  induction 1 as [|vk vks Hvk _ IH]; [done|]. cbn. case_bool_decide; [|done]. by intros [= <-].
Qed.

Lemma one_token_expiry : JwtSpec.one_expiry own claims1.
Proof.
  intros ks t c Hown Hv _. assert (t = tok) as ->; [|by rewrite (Verify_functional _ _ _ _ _ Hv Verify_tok)].
  unfold Verify in Hv. destruct ks as [vks|]; [|done]. specialize (Hown vks eq_refl).
  cbn [ParseSignedCompact two_tokens] in Hv. case_bool_decide as Ht; [done|]. case_bool_decide as Hf; [|done].
  exfalso. cbn [jws_kids two_tokens] in Hv. destruct (findKey vks "k1") as [k|] eqn:Hk; [|done].
  apply (own_find _ _ _ Hown) in Hk. cbn [jws_signed_by two_tokens] in Hv.
  rewrite bool_decide_false in Hv by done. by rewrite (proj2 (Nat.eqb_neq k 9)) in Hv.
Qed.

Definition inet (s : string) : bool := true.
Definition env_at (sec : Z) : Revocation.Env := Revocation.mkEnv (time_Unix sec) (time_Unix sec) healthy true inet.
Definition v : Validator := mkValidator keys1 (Some (Revocation.mkStore true)) (mkOptions "atlas" "atlas" "").
Definition ep : Revocation.Endpoint := Revocation.mkEndpoint keys1 (Revocation.mkStore true) (Some (λ id secret, bool_decide (secret = "s3cret"))) "atlas".

Definition form : Revocation.Form := Revocation.mkForm " eyJ.payload.signature " "" "".
Definition post : Revocation.Request :=
  Revocation.mkRequest "application/x-www-form-urlencoded; charset=utf-8" (Some form) (Some ("cli", "s3cret")) "" (Some "10.0.0.1").
Definition get (path : string) : HttpRequest := mkHttp path "Bearer eyJ.payload.signature" [("atlas_session", "c00kie")] "a1".
Definition route : Handler nat nat := λ _ _ n, (WriteJSON StatusOK (S n), S n).

Definition revoked_db : Revocation.DB := (Revocation.ServeRevoke ep (env_at 1700000000) post JwtSpec.fresh).2.
Definition later : list JwtSpec.Op :=
  [JwtSpec.OpSweep (Revocation.mkStore true) (env_at 1700000100); JwtSpec.OpRevoke ep (env_at 1700000200) post].

(** Before the revocation the request goes through, afterwards it does not. *)
Example admitted_before : (serve (Some v) (env_at 1700000000) JwtSpec.fresh route (get "/v1/risks") 0%nat).1 = WriteJSON StatusOK 1%nat.
Proof. vm_compute. reflexivity. Qed.

Lemma tok_authentic : JwtSpec.authentic v (env_at 1700000000) JwtSpec.fresh (get "/v1/me/sessions") claims1.
Proof. exists tok. split_and!; try (vm_compute; reflexivity). intros st [= <-] _. vm_compute. reflexivity. Qed.

Lemma admitted_requests_are_bound_witness :
  (∃ c, JwtSpec.authentic v (env_at 1700000000) JwtSpec.fresh (get "/v1/risks") c ∧
        serve (Some v) (env_at 1700000000) JwtSpec.fresh route (get "/v1/risks") 0%nat = route (get "/v1/risks") (JwtSpec.bound c) 0%nat).
Proof.
  destruct (JwtSpec.admitted_requests_are_bound v (env_at 1700000000) JwtSpec.fresh route (get "/v1/risks") 0%nat) as [(c & Hc & Hs & _)|[_ [msg Hs]]].
  - vm_compute. reflexivity.
  - exact (ex_intro _ c (conj Hc Hs)).
  - exfalso. assert (E := f_equal fst Hs). vm_compute in E. discriminate E.
Defined.

Lemma revoked_token_refused_witness :
  (∃ msg, serve (Some v) (env_at 1700000300) (JwtSpec.run later revoked_db) route (get "/v1/risks") 0%nat = (WriteError StatusUnauthorized msg, 0%nat)) ∧
  Revocation.ServeIntrospect ep (env_at 1700000300) post (JwtSpec.run later revoked_db) ≠ WriteJSON StatusOK (Some claims1).
Proof.
  destruct (JwtSpec.revoked_token_refused (JO := two_tokens) own [] later ep (env_at 1700000000) post form revoked_db claims1 v (Revocation.mkStore true) (env_at 1700000300)
              route (get "/v1/risks") 0%nat ep post form tok) as [H1 H2];
    [exact one_token_expiry|exact own_keys1|constructor|repeat constructor; exact own_keys1
    |reflexivity|vm_compute; reflexivity|exact Verify_tok|vm_compute; reflexivity
    |repeat constructor; vm_compute; discriminate|vm_compute; discriminate|vm_compute; discriminate|reflexivity|vm_compute; reflexivity
    |vm_compute; reflexivity|reflexivity|vm_compute; reflexivity|].
  exact (conj H1 (H2 claims1)).
Defined.

(** ** Sessions *)

Import Sessions.
#[local] Existing Instance table_order.

Definition ctx1 : Context := {| ctx_tenant := Some "a1" |}.
Definition db0 : Sessions.DB := Sessions.mkDB [5%N; 6%N] [] [].
Definition store : Store := NewStore 0.
Definition session_env (sec : Z) : Env := mkEnv (Some [1%N; 2%N; 3%N]) (time_Unix sec) (time_Unix sec) healthy.
Definition login : CreateInput := mkCreate 1%N 5%N "https://idp" "sub" "curl" "10.0.0.1".
Definition day : Z := 86400.

Definition made : result Error Sessions.Session * Sessions.DB := Create store (session_env 1700000000) ctx1 login db0.
Definition db1 : Sessions.DB := made.2.
Definition session1 : Sessions.Session :=
  Sessions.mkSession "AQID" 1%N 5%N "https://idp" "sub" (time_Unix 1700000000) (time_Unix (1700000000 + 7 * day)) (time_Unix 1700000000) None
    "curl" "10.0.0.1" "" "".

Lemma made_ok : made = (Ok session1, db1).
Proof. vm_compute. reflexivity. Qed.

(** A user agent of valid text that is cut inside a character makes the login fail. *)
Definition agent : string := String.concat "" (replicate 511 "a") +:+ utf8_encode 233 +:+ "b".
Example long_agent_fails :
  utf8_valid agent = true ∧
  (Create store (session_env 1700000000) ctx1 (mkCreate 1%N 5%N "https://idp" "sub" agent "10.0.0.1") db0).1 = Err (ErrSql OtherViolation).
Proof. split; vm_compute; reflexivity. Qed.

(** Nine days of daily use, the session's first lifetime and more. *)
Definition daily : list (Time * Time) := (λ k, (time_Unix (1700000000 + Z.of_nat k * day), 0)) <$> seq 1 9.

Lemma session_window_witness :
  ∃ d', SessionSpec.reads store ctx1 1%N "AQID" daily db1 = Some d' ∧
        Read store (session_env (1700000000 + 17 * day)) ctx1 1%N "AQID" d' = (Err ErrExpired, d').
Proof.
  destruct (SessionSpec.session_window store (session_env 1700000000) ctx1 login session1 db0 db1 daily) as (d' & H & He).
  - vm_compute. discriminate.
  - exact made_ok.
  - vm_compute. repeat split; discriminate.
  - exists d'. split; [exact H|]. apply (He (time_Unix (1700000000 + 17 * day)) (time_Unix (1700000000 + 17 * day)) (Some [1%N; 2%N; 3%N])).
    vm_compute. reflexivity.
Defined.

Definition ended : Sessions.DB := (RevokeForUser (session_env 1700000500) ctx1 1%N 5%N "AQID" db1).2.
Lemma revoked_session_stays_out_witness :
  (Read store (session_env 1700000600) ctx1 1%N "AQID" (SessionSpec.run store [SessionSpec.OpRead (session_env 1700000550) ctx1 1%N "AQID"] ended)).1
  ≠ Ok session1.
Proof.
  destruct (SessionSpec.revoked_session_stays_out store (session_env 1700000500) ctx1 1%N 5%N "AQID" db1 true ended) as [(_ & _ & H)|(E & _)].
  - unfold SessionSpec.unique_ids. vm_compute. repeat constructor. inversion 1.
  - vm_compute. reflexivity.
  - vm_compute. reflexivity.
  - apply H.
  - discriminate E.
Defined.

Lemma logout_revokes_nothing_witness :
  serve (Some v) (env_at 1700000600) JwtSpec.fresh (SessionSpec.logout_route (session_env 1700000600))
    (mkHttp "/auth/logout" "" [("atlas_session", "AQID")] "a1") db1 = (WriteJSON StatusNoContent (), db1).
Proof. apply SessionSpec.logout_revokes_nothing. reflexivity. Defined.

Lemma token_users_have_no_sessions_witness :
  serve (Some v) (env_at 1700000000) JwtSpec.fresh (SessionSpec.list_route (session_env 1700000000)) (get "/v1/me/sessions") db1 =
  (WriteJSON StatusOK ([], 0), db1).
Proof.
  destruct (SessionSpec.token_users_have_no_sessions v (env_at 1700000000) JwtSpec.fresh (session_env 1700000000) (session_env 1700000000)
              (get "/v1/me/sessions") claims1 5%N "AQID" db1) as [H _]; [vm_compute; reflexivity|exact tok_authentic|reflexivity|discriminate|exact H].
Defined.
End AuthDemo.
