(* ===== verification/Policy.v ===== *)
(** * Policies and their life cycle

    Models internal/policy/store.go: a governance document is drafted, reviewed,
    approved, published and superseded; with the statements of policies.sql and the
    constraints of migrations 20260511000000, 20260511000016 and 20260516000002. *)

From S2P Require Import Prelude GoTime Tenancy Json Postgres.

Module Policy.

(** ** Data *)

Definition StateDraft := "draft".
Definition StateUnderReview := "under_review".
Definition StateApproved := "approved".
Definition StatePublished := "published".
Definition StateSuperseded := "superseded".

Definition SourceCommunityDraft := "community_draft".
Definition SourceTenantAuthored := "tenant_authored".
Definition SourceVendorProvided := "vendor_provided".

(** A row of [policies] ([dbx.Policy]). *)
Record Row := mkRow {
  row_ID : UUID;
  row_TenantID : UUID;
  row_Title : string;
  row_Version : string;
  row_EffectiveDate : option Time;
  row_BodyMd : string;
  row_AcknowledgmentRequiredRoles : list string;
  row_Status : string;
  row_CreatedAt : Time;
  row_UpdatedAt : Time;
  row_PredecessorID : option UUID;
  row_OwnerRole : string;
  row_ApproverRole : string;
  row_LinkedControlIds : list (option UUID);
  row_SourceAttribution : string;
  row_CreatedBy : string;
  row_SubmittedAt : option Time;
  row_SubmittedBy : option string;
  row_ApprovedAt : option Time;
  row_ApprovedBy : option string;
  row_PublishedAt : option Time;
  row_PublishedBy : option string;
  row_SupersededAt : option Time;
  row_NextReviewAt : option Time;
}.

(** The domain shape. *)
Record Policy := mkPolicy {
  ID : UUID;
  TenantID : UUID;
  PredecessorID : option UUID;
  Title : string;
  Version : string;
  EffectiveDate : option Time;
  BodyMd : string;
  OwnerRole : string;
  ApproverRole : string;
  LinkedControlIDs : list UUID;
  AcknowledgmentRequiredRoles : list string;
  Status : string;
  SourceAttribution : string;
  CreatedBy : string;
  SubmittedAt : option Time;
  SubmittedBy : option string;
  ApprovedAt : option Time;
  ApprovedBy : option string;
  PublishedAt : option Time;
  PublishedBy : option string;
  SupersededAt : option Time;
  CreatedAt : Time;
  UpdatedAt : Time;
}.

Definition IsOrphan (p : Policy) : bool := bool_decide (LinkedControlIDs p = []).

(** A row of [policy_acknowledgments]. *)
Record AckRow := mkAckRow {
  ar_ID : UUID;
  ar_TenantID : UUID;
  ar_PolicyID : UUID;
  ar_PolicyVersionID : UUID;
  ar_UserID : UUID;
  ar_AcknowledgedAt : Time;
  ar_AckToken : string;
  ar_EvidenceRecordID : option UUID;
  ar_CreatedAt : Time;
}.

(** The columns of [api_keys] the acknowledgement rate reads. *)
Record ApiKey := mkKey {
  ak_TenantID : UUID;
  ak_IssuedBy : option UUID;
  ak_RevokedAt : option Time;
  ak_IsAdmin : bool;
  ak_OwnerRoles : list string;
}.

(** The columns of [controls] the stock policies refer to. *)
Record ControlRow := mkControl {
  ct_ID : UUID;
  ct_TenantID : UUID;
  ct_ScfID : option string;
  ct_CreatedAt : Time;
}.

(** [users] holds the (tenant_id, id) pairs an acknowledgement may refer to. *)
Record DB := mkDB {
  policies : list Row;
  acknowledgments : list AckRow;
  users : list (UUID * UUID);
  api_keys : list ApiKey;
  controls : list ControlRow;
}.
Definition with_policies (d : DB) (t : list Row) : DB :=
  mkDB t (acknowledgments d) (users d) (api_keys d) (controls d).
Definition with_acks (d : DB) (t : list AckRow) : DB :=
  mkDB (policies d) t (users d) (api_keys d) (controls d).

Inductive Error :=
| ErrNotFound
| ErrWrongState
| ErrOrphanPublish
| ErrTitleRequired
| ErrVersionRequired
| ErrBodyRequired
| ErrOwnerRoleRequired
| ErrApproverRoleRequired
| ErrCreatedByRequired
| ErrInvalidVersion
| ErrInvalidSource (s : string)
| ErrPredecessorNotInTenant
| ErrCheck (constraint : string)
| ErrPredecessorNotPublished (id : UUID)
| ErrStatement (what : string) (e : SqlErr)
| ErrTx (e : TxErr).
#[global] Instance Error_tx : TxError Error := ErrTx.

(** ** Constraints *)

Definition no_effective_date_states := [StateDraft; StateUnderReview; StateApproved].
Definition effective_date_states := [StatePublished; StateSuperseded].

(** The CHECK constraints; Postgres tests them in name order. *)
Definition check_row (r : Row) : option string :=
  if bool_decide (row_ApproverRole r = "") then Some "policies_approver_role_nonempty"
  else if bool_decide (row_BodyMd r = "") then Some "policies_body_md_nonempty"
  else if bool_decide (row_CreatedBy r = "") then Some "policies_created_by_nonempty"
  else if negb (bool_decide (row_Status r ∈ effective_date_states) && bool_decide (row_EffectiveDate r ≠ None) ||
                bool_decide (row_Status r ∈ no_effective_date_states) && bool_decide (row_EffectiveDate r = None))
  then Some "policies_effective_date_set_when_published"
  else if bool_decide (row_OwnerRole r = "") then Some "policies_owner_role_nonempty"
  else if negb (bool_decide (row_SourceAttribution r ∈ [SourceCommunityDraft; SourceTenantAuthored; SourceVendorProvided]))
  then Some "policies_source_attribution_chk"
  else if negb (bool_decide (row_Status r ∈ no_effective_date_states ++ effective_date_states))
  then Some "policies_status_chk"
  else if bool_decide (row_Title r = "") then Some "policies_title_nonempty"
  else if bool_decide (row_Version r = "") then Some "policies_version_nonempty"
  else None.

Definition texts_ok (r : Row) : bool :=
  forallb pg_text ([row_Title r; row_Version r; row_BodyMd r; row_OwnerRole r; row_ApproverRole r; row_SourceAttribution r; row_CreatedBy r] ++
                   row_AcknowledgmentRequiredRoles r) && pg_text_opt (row_PublishedBy r).

(** policies_predecessor_unique_when_set: at most one successor. *)
Definition predecessor_key (r : Row) : option (UUID * UUID) := (row_TenantID r,.) <$> row_PredecessorID r.

(** The primary key and the partial unique index. *)
Definition conflicts (r x : Row) : bool :=
  bool_decide (row_ID x = row_ID r) ||
  match predecessor_key r with Some k => bool_decide (predecessor_key x = Some k) | None => false end.

(** An INSERT of [r]; the self-reference is checked at the end, when the row is
    there. *)
Definition insert_policy (r : Row) (d : DB) : result SqlErr (Row * DB) :=
  if negb (texts_ok r) then Err OtherViolation
  else match check_row r with
  | Some c => Err (CheckViolation c)
  | None =>
      if existsb (conflicts r) (policies d) then Err UniqueViolation
      else if match row_PredecessorID r with
              | None => true
              | Some p => bool_decide ((row_TenantID r, p) ∈ ((λ x, (row_TenantID x, row_ID x)) <$> policies d ++ [r]))
              end
      then Ok (r, with_policies d (policies d ++ [r]))
      else Err ForeignKeyViolation
  end.

(** ** Statements *)

Definition at_key (tenantID id : option UUID) (r : Row) : bool :=
  bool_decide (Some (row_TenantID r) = tenantID) && bool_decide (Some (row_ID r) = id).
Definition in_state (s : string) (r : Row) : bool := bool_decide (row_Status r = s).

Record CreatePolicyParams := mkCreateParams {
  cp_ID : option UUID;
  cp_TenantID : option UUID;
  cp_PredecessorID : option UUID;
  cp_Title : string;
  cp_Version : string;
  cp_BodyMd : string;
  cp_OwnerRole : string;
  cp_ApproverRole : string;
  cp_LinkedControlIds : list (option UUID);
  cp_AcknowledgmentRequiredRoles : list string;
  cp_SourceAttribution : string;
  cp_CreatedBy : string;
}.

(** [id] and [tenant_id] are NOT NULL. *)
Definition CreatePolicy (now : Time) (a : CreatePolicyParams) (d : DB) : result SqlErr (Row * DB) :=
  match cp_ID a, cp_TenantID a with
  | Some id, Some t =>
      insert_policy (mkRow id t (cp_Title a) (cp_Version a) None (cp_BodyMd a) (cp_AcknowledgmentRequiredRoles a) StateDraft now now
                       (cp_PredecessorID a) (cp_OwnerRole a) (cp_ApproverRole a) (cp_LinkedControlIds a) (cp_SourceAttribution a)
                       (cp_CreatedBy a) None None None None None None None None) d
  | _, _ => Err OtherViolation
  end.

Record InsertPublishedPolicyParams := mkPublishedParams {
  ip_ID : option UUID;
  ip_TenantID : option UUID;
  ip_PredecessorID : option UUID;
  ip_Title : string;
  ip_Version : string;
  ip_BodyMd : string;
  ip_OwnerRole : string;
  ip_ApproverRole : string;
  ip_LinkedControlIds : list (option UUID);
  ip_AcknowledgmentRequiredRoles : list string;
  ip_EffectiveDate : Time;
  ip_SourceAttribution : string;
  ip_CreatedBy : string;
  ip_PublishedBy : option string;
}.

Definition InsertPublishedPolicy (now : Time) (a : InsertPublishedPolicyParams) (d : DB) : result SqlErr (Row * DB) :=
  match ip_ID a, ip_TenantID a with
  | Some id, Some t =>
      insert_policy (mkRow id t (ip_Title a) (ip_Version a) (Some (ip_EffectiveDate a)) (ip_BodyMd a) (ip_AcknowledgmentRequiredRoles a)
                       StatePublished now now (ip_PredecessorID a) (ip_OwnerRole a) (ip_ApproverRole a) (ip_LinkedControlIds a)
                       (ip_SourceAttribution a) (ip_CreatedBy a) None None None None (Some now) (ip_PublishedBy a) None None) d
  | _, _ => Err OtherViolation
  end.

Definition GetPolicyByID (tenantID id : option UUID) (d : DB) : result SqlErr (Row * DB) :=
  first_row (select_where (at_key tenantID id) (policies d)) d.

(** ORDER BY created_at DESC, id ASC *)
Definition newest_first (r1 r2 : Row) : Prop :=
  row_CreatedAt r2 < row_CreatedAt r1 ∨ (row_CreatedAt r1 = row_CreatedAt r2 ∧ (row_ID r1 ≤ row_ID r2)%N).
(** ORDER BY created_at ASC, id ASC *)
Definition oldest_first (r1 r2 : Row) : Prop :=
  row_CreatedAt r1 < row_CreatedAt r2 ∨ (row_CreatedAt r1 = row_CreatedAt r2 ∧ (row_ID r1 ≤ row_ID r2)%N).
#[global] Instance newest_first_dec : RelDecision newest_first.
Proof. intros r1 r2. unfold newest_first. apply _. Defined.
#[global] Instance oldest_first_dec : RelDecision oldest_first.
Proof. intros r1 r2. unfold oldest_first. apply _. Defined.

Definition ListPolicies (tenantID : option UUID) (d : DB) : list Row :=
  merge_sort newest_first (select_where (λ r, bool_decide (Some (row_TenantID r) = tenantID)) (policies d)).

(** An [UPDATE ... RETURNING *] read as [:one]; [actor] is the text parameter. *)
Definition update_one (actor : option string) (p : Row → bool) (f : Row → Row) (d : DB) : result SqlErr (Row * DB) :=
  if negb (pg_text_opt actor) then Err OtherViolation
  else match updated_rows p f (policies d) with
  | [] => Err NoRows
  | (r :: _) as rs =>
      match omap (M := list) check_row rs with
      | c :: _ => Err (CheckViolation c)
      | [] => Ok (r, with_policies d (update_where p f (policies d)))
      end
  end.

Definition submit_row (now : Time) (by_ : option string) (r : Row) : Row :=
  mkRow (row_ID r) (row_TenantID r) (row_Title r) (row_Version r) (row_EffectiveDate r) (row_BodyMd r) (row_AcknowledgmentRequiredRoles r)
    StateUnderReview (row_CreatedAt r) now (row_PredecessorID r) (row_OwnerRole r) (row_ApproverRole r) (row_LinkedControlIds r)
    (row_SourceAttribution r) (row_CreatedBy r) (Some now) by_ (row_ApprovedAt r) (row_ApprovedBy r) (row_PublishedAt r)
    (row_PublishedBy r) (row_SupersededAt r) (row_NextReviewAt r).

Definition approve_row (now : Time) (by_ : option string) (r : Row) : Row :=
  mkRow (row_ID r) (row_TenantID r) (row_Title r) (row_Version r) (row_EffectiveDate r) (row_BodyMd r) (row_AcknowledgmentRequiredRoles r)
    StateApproved (row_CreatedAt r) now (row_PredecessorID r) (row_OwnerRole r) (row_ApproverRole r) (row_LinkedControlIds r)
    (row_SourceAttribution r) (row_CreatedBy r) (row_SubmittedAt r) (row_SubmittedBy r) (Some now) by_ (row_PublishedAt r)
    (row_PublishedBy r) (row_SupersededAt r) (row_NextReviewAt r).

Definition publish_row (now effective : Time) (by_ : option string) (r : Row) : Row :=
  mkRow (row_ID r) (row_TenantID r) (row_Title r) (row_Version r) (Some effective) (row_BodyMd r) (row_AcknowledgmentRequiredRoles r)
    StatePublished (row_CreatedAt r) now (row_PredecessorID r) (row_OwnerRole r) (row_ApproverRole r) (row_LinkedControlIds r)
    (row_SourceAttribution r) (row_CreatedBy r) (row_SubmittedAt r) (row_SubmittedBy r) (row_ApprovedAt r) (row_ApprovedBy r) (Some now)
    by_ (row_SupersededAt r) (row_NextReviewAt r).

Definition supersede_row (now : Time) (r : Row) : Row :=
  mkRow (row_ID r) (row_TenantID r) (row_Title r) (row_Version r) (row_EffectiveDate r) (row_BodyMd r) (row_AcknowledgmentRequiredRoles r)
    StateSuperseded (row_CreatedAt r) now (row_PredecessorID r) (row_OwnerRole r) (row_ApproverRole r) (row_LinkedControlIds r)
    (row_SourceAttribution r) (row_CreatedBy r) (row_SubmittedAt r) (row_SubmittedBy r) (row_ApprovedAt r) (row_ApprovedBy r)
    (row_PublishedAt r) (row_PublishedBy r) (Some now) (row_NextReviewAt r).

Definition SubmitPolicyForReview (now : Time) (tenantID id : option UUID) (by_ : option string) : DB → result SqlErr (Row * DB) :=
  update_one by_ (λ r, at_key tenantID id r && in_state StateDraft r) (submit_row now by_).
Definition ApprovePolicy (now : Time) (tenantID id : option UUID) (by_ : option string) : DB → result SqlErr (Row * DB) :=
  update_one by_ (λ r, at_key tenantID id r && in_state StateUnderReview r) (approve_row now by_).
Definition PublishApprovedPolicy (now : Time) (tenantID id : option UUID) (effective : Time) (by_ : option string)
  : DB → result SqlErr (Row * DB) :=
  update_one by_ (λ r, at_key tenantID id r && in_state StateApproved r) (publish_row now effective by_).
Definition SupersedePolicyAtPublish (now : Time) (tenantID id : option UUID) : DB → result SqlErr (Row * DB) :=
  update_one None (λ r, at_key tenantID id r && in_state StatePublished r) (supersede_row now).

(** The recursive part of [WITH RECURSIVE chain]: the successors of the rows of the
    last round, until a round finds none.  On a cycle Postgres does not stop. *)
Fixpoint chain_rounds (fuel : nat) (table frontier : list Row) : option (list Row) :=
  match frontier with
  | [] => Some []
  | _ =>
      match fuel with
      | O => None
      | S fuel =>
          rest ← chain_rounds fuel table
                   (frontier ≫= λ c, select_where (λ p, bool_decide (row_PredecessorID p = Some (row_ID c)) &&
                                                       bool_decide (row_TenantID p = row_TenantID c)) table);
          Some (frontier ++ rest)
      end
  end.

Definition chain_fuel (d : DB) : nat := S (length (policies d)).

Definition ListPolicyVersionChain (tenantID id : option UUID) (d : DB) : option (list Row) :=
  merge_sort oldest_first <$> chain_rounds (chain_fuel d) (policies d) (select_where (at_key tenantID id) (policies d)).

(** ** Row conversion *)

Definition uuidsToPg (us : list UUID) : list (option UUID) := pgUUID <$> us.
Definition uuidsFromPg (us : list (option UUID)) : list UUID := goUUID <$> us.

Definition policyFromRow (r : Row) : Policy :=
  mkPolicy (row_ID r) (row_TenantID r) (row_PredecessorID r) (row_Title r) (row_Version r) (row_EffectiveDate r) (row_BodyMd r)
    (row_OwnerRole r) (row_ApproverRole r) (uuidsFromPg (row_LinkedControlIds r)) (row_AcknowledgmentRequiredRoles r) (row_Status r)
    (row_SourceAttribution r) (row_CreatedBy r) (row_SubmittedAt r) (row_SubmittedBy r) (row_ApprovedAt r) (row_ApprovedBy r)
    (row_PublishedAt r) (row_PublishedBy r) (row_SupersededAt r) (row_CreatedAt r) (row_UpdatedAt r).
Definition policyFromChainRow (r : Row) : Policy := policyFromRow r.

(** ** The store *)

(** The surroundings of a call: context, pool, process clock, transaction clock and
    the identifier [uuid.New] draws. *)
Record Env := mkEnv {
  env_ctx : Context;
  env_infra : Infra;
  env_clock : Time;
  env_now : Time;
  env_newID : UUID;
}.

Record CreateInput := mkCreate {
  in_Title : string;
  in_Version : string;
  in_BodyMd : string;
  in_OwnerRole : string;
  in_ApproverRole : string;
  in_LinkedControlIDs : list UUID;
  in_AcknowledgmentRequiredRoles : list string;
  in_SourceAttribution : string;
  in_CreatedBy : string;
}.

Record PublishInput := mkPublish {
  pi_NewVersion : string;
  pi_EffectiveDate : option Time;
  pi_PublishedBy : string;
}.

Record ListFilter := mkFilter { lf_Status : string }.

Definition validSourceAttribution (s : string) : bool :=
  bool_decide (s = SourceCommunityDraft) || bool_decide (s = SourceTenantAuthored) || bool_decide (s = SourceVendorProvided).

Definition validateCreate (i : CreateInput) : option Error :=
  if bool_decide (in_Title i = "") then Some ErrTitleRequired
  else if bool_decide (in_Version i = "") then Some ErrVersionRequired
  else if bool_decide (in_BodyMd i = "") then Some ErrBodyRequired
  else if bool_decide (in_OwnerRole i = "") then Some ErrOwnerRoleRequired
  else if bool_decide (in_ApproverRole i = "") then Some ErrApproverRoleRequired
  else if bool_decide (in_CreatedBy i = "") then Some ErrCreatedByRequired
  else if bool_decide (in_SourceAttribution i ≠ "") && negb (validSourceAttribution (in_SourceAttribution i))
  then Some (ErrInvalidSource (in_SourceAttribution i))
  else None.

Definition mapCreateError (e : SqlErr) : Error :=
  match e with
  | ForeignKeyViolation => ErrPredecessorNotInTenant
  | CheckViolation c => ErrCheck c
  | e => ErrStatement "create policy" e
  end.

(** [t.UTC().Truncate(24 * time.Hour)] *)
Definition truncate_day (t : Time) : Time := t / ns_per_day * ns_per_day.

Section Store.
Context {UT : UUIDText}.

(** Runs [fn] in a transaction of the caller's tenant. *)
Definition inTx {A} (env : Env) (fn : UUID → Tx (Session DB) Error A) : Tx DB Error A := λ d,
  let '(r, se) := Tenancy.inTx (env_infra env) (env_ctx env) fn (mkSession d false) in (r, s_db se).

Definition Create (env : Env) (i : CreateInput) : Tx DB Error Policy :=
  match validateCreate i with
  | Some e => tx_fail e
  | None =>
      let source := if bool_decide (in_SourceAttribution i = "") then SourceTenantAuthored else in_SourceAttribution i in
      inTx env (λ tenantID,
        tx_try (stmt (CreatePolicy (env_now env)
                        (mkCreateParams (pgUUID (env_newID env)) (pgUUID tenantID) None (in_Title i) (in_Version i) (in_BodyMd i)
                           (in_OwnerRole i) (in_ApproverRole i) (uuidsToPg (in_LinkedControlIDs i))
                           (in_AcknowledgmentRequiredRoles i) source (in_CreatedBy i))))
          (λ r, match r with
                | Err e => tx_fail (mapCreateError e)
                | Ok row => mret (policyFromRow row)
                end))
  end.

Definition Get (env : Env) (id : UUID) : Tx DB Error Policy :=
  inTx env (λ tenantID,
    tx_try (stmt (GetPolicyByID (pgUUID tenantID) (pgUUID id)))
      (λ r, match r with
            | Err NoRows => tx_fail ErrNotFound
            | Err e => tx_fail (ErrStatement "get policy" e)
            | Ok row => mret (policyFromRow row)
            end)).

Definition List_ (env : Env) (f : ListFilter) : Tx DB Error (list Policy) :=
  inTx env (λ tenantID,
    tx_try (stmt (query (ListPolicies (pgUUID tenantID))))
      (λ r, match r with
            | Err e => tx_fail (ErrStatement "list policies" e)
            | Ok rows =>
                mret (policyFromRow <$>
                      select_where (λ r, negb (bool_decide (lf_Status f ≠ "") && bool_decide (row_Status r ≠ lf_Status f))) rows)
            end)).

Definition transition (env : Env) (id : UUID) (run : UUID → DB → result SqlErr (Row * DB)) : Tx DB Error Policy :=
  inTx env (λ tenantID,
    tx_try (stmt (run tenantID))
      (λ r, match r with
            | Err NoRows =>
                tx_try (stmt (GetPolicyByID (pgUUID tenantID) (pgUUID id)))
                  (λ g, match g with Err NoRows => tx_fail ErrNotFound | _ => tx_fail ErrWrongState end)
            | Err e => tx_fail (ErrStatement "transition" e)
            | Ok row => mret (policyFromRow row)
            end)).

Definition SubmitForReview (env : Env) (id : UUID) (actor : string) : Tx DB Error Policy :=
  if bool_decide (actor = "") then tx_fail ErrCreatedByRequired
  else transition env id (λ tenantID, SubmitPolicyForReview (env_now env) (pgUUID tenantID) (pgUUID id) (stringPtr actor)).

Definition Approve (env : Env) (id : UUID) (approver : string) : Tx DB Error Policy :=
  if bool_decide (approver = "") then tx_fail ErrCreatedByRequired
  else transition env id (λ tenantID, ApprovePolicy (env_now env) (pgUUID tenantID) (pgUUID id) (stringPtr approver)).

(** The first publication: the approved row becomes the published one. *)
Definition publish_first (env : Env) (tenantID approvedID : UUID) (effective : Time) (i : PublishInput)
  : Tx (Session DB) Error Policy :=
  tx_try (stmt (PublishApprovedPolicy (env_now env) (pgUUID tenantID) (pgUUID approvedID) effective (stringPtr (pi_PublishedBy i))))
    (λ r, match r with
          | Err NoRows => tx_fail ErrWrongState
          | Err e => tx_fail (ErrStatement "publish (first)" e)
          | Ok row => mret (policyFromRow row)
          end).

(** A later one: the predecessor is superseded, and a copy of the approved row
    inserted as published. *)
Definition publish_next (env : Env) (tenantID : UUID) (approved : Row) (predecessorID : UUID) (effective : Time) (i : PublishInput)
  : Tx (Session DB) Error Policy :=
  tx_try (stmt (SupersedePolicyAtPublish (env_now env) (pgUUID tenantID) (pgUUID predecessorID)))
    (λ r, match r with
          | Err NoRows => tx_fail (ErrPredecessorNotPublished predecessorID)
          | Err e => tx_fail (ErrStatement "supersede predecessor" e)
          | Ok _ =>
              if bool_decide (pi_NewVersion i = row_Version approved) then tx_fail ErrInvalidVersion
              else
                tx_try (stmt (InsertPublishedPolicy (env_now env)
                                (mkPublishedParams (pgUUID (env_newID env)) (pgUUID tenantID) (pgUUID predecessorID) (row_Title approved)
                                   (pi_NewVersion i) (row_BodyMd approved) (row_OwnerRole approved) (row_ApproverRole approved)
                                   (row_LinkedControlIds approved) (row_AcknowledgmentRequiredRoles approved) effective
                                   (row_SourceAttribution approved) (row_CreatedBy approved) (stringPtr (pi_PublishedBy i)))))
                  (λ r, match r with
                        | Err e => tx_fail (ErrStatement "insert published policy" e)
                        | Ok row => mret (policyFromRow row)
                        end)
          end).

Definition Publish (env : Env) (approvedID : UUID) (i : PublishInput) : Tx DB Error Policy :=
  if bool_decide (pi_PublishedBy i = "") then tx_fail ErrCreatedByRequired
  else
    let effective := truncate_day (default (env_clock env) (pi_EffectiveDate i)) in
    inTx env (λ tenantID,
      tx_try (stmt (GetPolicyByID (pgUUID tenantID) (pgUUID approvedID)))
        (λ r, match r with
              | Err NoRows => tx_fail ErrNotFound
              | Err e => tx_fail (ErrStatement "get approved policy" e)
              | Ok approved =>
                  if negb (in_state StateApproved approved) then tx_fail ErrWrongState
                  else if bool_decide (row_LinkedControlIds approved = []) then tx_fail ErrOrphanPublish
                  else if bool_decide (pi_NewVersion i = "") then tx_fail ErrInvalidVersion
                  else match row_PredecessorID approved with
                       | None => publish_first env tenantID approvedID effective i
                       | Some p => publish_next env tenantID approved p effective i
                       end
              end)).

(** [None] when the recursive query does not end. *)
Definition VersionChain (env : Env) (id : UUID) : Tx DB Error (option (list Policy)) :=
  inTx env (λ tenantID,
    tx_try (stmt (query (ListPolicyVersionChain (pgUUID tenantID) (pgUUID id))))
      (λ r, match r with
            | Err e => tx_fail (ErrStatement "list version chain" e)
            | Ok rows => mret (option_map (map policyFromChainRow) rows)
            end)).

End Store.
End Policy.
