(* ===== verification/PolicyAck.v ===== *)
(** * Policy acknowledgements

    Models internal/policy/acknowledgment.go: who must acknowledge a published
    policy, the acknowledgement itself with its daily token, the link to the
    evidence it produced and the rate; with the statements of
    policy_acknowledgments.sql and the constraints of migration 20260511000017. *)

From Stdlib Require Import Ascii.
From S2P Require Import Prelude GoTime Tenancy Json Sha256 Float64 TimeText Postgres Policy.
Import Policy.

Module PolicyAck.

Definition AcknowledgmentFreshness : Duration := 365 * 24 * time_Hour.

Inductive AckError :=
| ErrAckPolicyNotPublished
| ErrAckNotRequired
| ErrAckMissingUser
| ErrAckMissingPolicyID
| ErrAckNotFound
| ErrAckParseUser
| ErrAckStatement (what : string) (e : SqlErr)
| ErrAckTx (e : TxErr).
#[global] Instance AckError_tx : TxError AckError := ErrAckTx.

Record AckCaller := mkCaller { UserID : string; OwnerRoles : list string; IsAdmin : bool }.

Record Pending := mkPending {
  pd_PolicyID : UUID;
  pd_PolicyVersionID : UUID;
  pd_Title : string;
  pd_Version : string;
  pd_EffectiveDate : option Time;
  pd_RequiredRoles : list string;
  pd_LastAcknowledgedAt : option Time;
}.

Record Ack := mkAck {
  ack_ID : UUID;
  ack_PolicyID : UUID;
  ack_PolicyVersionID : UUID;
  ack_UserID : UUID;
  ack_AcknowledgedAt : Time;
  ack_Token : string;
  ack_EvidenceRecordID : option UUID;
  ack_Deduplicated : bool;
}.

Record RateResult := mkRate {
  Numerator : Z;
  Denominator : Z;
  Percent : option float64;
  WindowSeconds : Z;
}.

(** ** Tokens *)

Definition nul : string := String (ascii_of_N 0) "".

Definition DeriveAckToken (userID policyVersionID : string) (t : Time) : string :=
  "ack-" +:+ String.substring 0 32 (sha256_hex (userID +:+ nul +:+ policyVersionID +:+ nul +:+ FormatDate t)).

(** ** Statements *)

Definition GetPolicyForAcknowledge : option UUID → option UUID → DB → result SqlErr (Row * DB) := GetPolicyByID.

Definition GetAcknowledgmentByToken (tenantID : option UUID) (token : string) (d : DB) : result SqlErr (AckRow * DB) :=
  first_row (select_where (λ a, bool_decide (Some (ar_TenantID a) = tenantID) && bool_decide (ar_AckToken a = token))
               (acknowledgments d)) d.

(** The primary key and policy_acknowledgments_ack_token_unique. *)
Definition ack_conflicts (r x : AckRow) : bool :=
  bool_decide (ar_ID x = ar_ID r) ||
  bool_decide (ar_AckToken r ≠ "") && bool_decide (ar_TenantID x = ar_TenantID r) && bool_decide (ar_AckToken x = ar_AckToken r).

Record InsertAckParams := mkAckParams {
  ia_ID : option UUID;
  ia_TenantID : option UUID;
  ia_PolicyID : option UUID;
  ia_PolicyVersionID : option UUID;
  ia_UserID : option UUID;
  ia_AcknowledgedAt : Time;
  ia_AckToken : string;
  ia_EvidenceRecordID : option UUID;
}.

(** [rivals] are rows other transactions committed since this one last looked: the
    unique index sees them.  The references are checked at the end. *)
Definition InsertPolicyAcknowledgment (now : Time) (rivals : list AckRow) (a : InsertAckParams) (d : DB)
  : result SqlErr (AckRow * DB) :=
  match ia_ID a, ia_TenantID a, ia_PolicyID a, ia_PolicyVersionID a, ia_UserID a with
  | Some id, Some t, Some p, Some v, Some u =>
      let r := mkAckRow id t p v u (to_micros (ia_AcknowledgedAt a)) (ia_AckToken a) (ia_EvidenceRecordID a) now in
      if bool_decide (now + 60 * ns_per_second < ar_AcknowledgedAt r)
      then Err (CheckViolation "policy_acknowledgments_acknowledged_at_chk")
      else if existsb (ack_conflicts r) (acknowledgments d ++ rivals) then Err UniqueViolation
      else if bool_decide ((t, v) ∈ ((λ x, (row_TenantID x, row_ID x)) <$> policies d)) && bool_decide ((t, u) ∈ users d)
      then Ok (r, with_acks d (acknowledgments d ++ [r]))
      else Err ForeignKeyViolation
  | _, _, _, _, _ => Err OtherViolation
  end.

Definition SetAcknowledgmentEvidenceRecord (tenantID id evidenceRecordID : option UUID) (d : DB) : result SqlErr (() * DB) :=
  Ok ((), with_acks d
            (update_where (λ a, bool_decide (Some (ar_TenantID a) = tenantID) && bool_decide (Some (ar_ID a) = id))
               (λ a, mkAckRow (ar_ID a) (ar_TenantID a) (ar_PolicyID a) (ar_PolicyVersionID a) (ar_UserID a) (ar_AcknowledgedAt a)
                       (ar_AckToken a) evidenceRecordID (ar_CreatedAt a))
               (acknowledgments d))).

Record PendingRow := mkPendingRow {
  pr_ID : UUID;
  pr_Title : string;
  pr_Version : string;
  pr_EffectiveDate : option Time;
  pr_AcknowledgmentRequiredRoles : list string;
  pr_LatestAckAt : option Time;
}.

(** The lateral join: the latest acknowledgement of this version by the user. *)
Definition latest_ack (userID : option UUID) (d : DB) (p : Row) : option Time :=
  foldr (λ a m, Some (match m with Some t => Z.max t (ar_AcknowledgedAt a) | None => ar_AcknowledgedAt a end)) None
    (select_where (λ a, bool_decide (ar_TenantID a = row_TenantID p) && bool_decide (Some (ar_UserID a) = userID) &&
                        bool_decide (ar_PolicyVersionID a = row_ID p)) (acknowledgments d)).

Definition must_acknowledge (tenantID : option UUID) (isAdmin : bool) (ownerRoles : list string) (p : Row) : bool :=
  bool_decide (Some (row_TenantID p) = tenantID) && in_state StatePublished p &&
  bool_decide (row_AcknowledgmentRequiredRoles p ≠ []) && (isAdmin || overlap (row_AcknowledgmentRequiredRoles p) ownerRoles).

Section Pending.
(** The collation of the database, and the order of rows it leaves open. *)
Context (collate : string → string → Prop) `{!RelDecision collate} {PL : Planner}.

(** ORDER BY title ASC, created_at DESC *)
Definition by_title (r1 r2 : Row) : Prop :=
  (row_Title r1 ≠ row_Title r2 ∧ collate (row_Title r1) (row_Title r2)) ∨
  (row_Title r1 = row_Title r2 ∧ row_CreatedAt r2 ≤ row_CreatedAt r1).
#[global] Instance by_title_dec : RelDecision by_title.
Proof using Type*. intros r1 r2. unfold by_title. apply _. Defined.

Definition ListPendingAcksForUser (tenantID userID : option UUID) (isAdmin : bool) (ownerRoles : list string) (d : DB)
  : list PendingRow :=
  (λ p, mkPendingRow (row_ID p) (row_Title p) (row_Version p) (row_EffectiveDate p) (row_AcknowledgmentRequiredRoles p)
          (latest_ack userID d p)) <$>
  merge_sort by_title (plan (select_where (must_acknowledge tenantID isAdmin ownerRoles) (policies d))).
End Pending.

(** A live key that makes its holder a required acknowledger. *)
Definition key_counts (requiredRoles : list string) (k : ApiKey) : bool :=
  bool_decide (ak_RevokedAt k = None) && (ak_IsAdmin k || overlap (ak_OwnerRoles k) requiredRoles).

Definition required_users (tenantID : option UUID) (requiredRoles : list string) (d : DB) : list UUID :=
  remove_dups (omap (M := list) ak_IssuedBy
    (select_where (λ k, bool_decide (Some (ak_TenantID k) = tenantID) && key_counts requiredRoles k) (api_keys d))).

Definition CountRequiredRoleUsersForVersion (tenantID : option UUID) (requiredRoles : list string) (d : DB) : Z :=
  Z.of_nat (length (required_users tenantID requiredRoles d)).

Definition acked_users (tenantID version : option UUID) (cutoff : Time) (requiredRoles : list string) (d : DB) : list UUID :=
  remove_dups (ar_UserID <$>
    select_where (λ a, bool_decide (Some (ar_TenantID a) = tenantID) && bool_decide (Some (ar_PolicyVersionID a) = version) &&
                       bool_decide (cutoff ≤ ar_AcknowledgedAt a) &&
                       existsb (λ k, bool_decide (ak_TenantID k = ar_TenantID a) && bool_decide (ak_IssuedBy k = Some (ar_UserID a)) &&
                                     key_counts requiredRoles k) (api_keys d))
      (acknowledgments d)).

Definition CountFreshAcksForVersion (tenantID version : option UUID) (cutoff : Time) (requiredRoles : list string) (d : DB) : Z :=
  Z.of_nat (length (acked_users tenantID version cutoff requiredRoles d)).

(** ** The store *)

Definition rolesIntersect (caller : AckCaller) (required : list string) : bool :=
  if IsAdmin caller then true
  else if bool_decide (required = []) || bool_decide (OwnerRoles caller = []) then false
  else existsb (λ r, bool_decide (r ∈ (list_to_set required : gset string))) (OwnerRoles caller).

Definition ackFromRow (r : AckRow) (deduped : bool) : Ack :=
  mkAck (ar_ID r) (ar_PolicyID r) (ar_PolicyVersionID r) (ar_UserID r) (ar_AcknowledgedAt r) (ar_AckToken r) (ar_EvidenceRecordID r)
    deduped.

Definition pgUUIDPtr (u : option UUID) : option UUID := u ≫= pgUUID.

(** [ae_clock] is the store's clock, [ae_now] the transaction's. *)
Record AckEnv := mkAckEnv {
  ae_ctx : Context;
  ae_infra : Infra;
  ae_clock : Time;
  ae_now : Time;
  ae_newID : UUID;
  ae_rivals : list AckRow;
}.

Record RecordInput := mkRecordInput {
  ri_PolicyID : UUID;
  ri_Caller : AckCaller;
  ri_EvidenceRecordID : option UUID;
  ri_ObservedAt : Time;
}.

Section AckStore.
Context {UT : UUIDText}.

(** Rows the others committed are there whatever became of this transaction. *)
Definition arrive (env : AckEnv) (d : DB) : DB := with_acks d (acknowledgments d ++ ae_rivals env).

Definition ack_inTx {A} (env : AckEnv) (fn : UUID → Tx (Session DB) AckError A) : Tx DB AckError A := λ d,
  let '(r, se) := Tenancy.inTx (ae_infra env) (ae_ctx env) fn (mkSession d false) in (r, arrive env (s_db se)).

(** The rows of [PendingForUser] that are not fresh. *)
Definition pending_of (cutoff : Time) (p : PendingRow) : option Pending :=
  let isFresh := match pr_LatestAckAt p with Some t => negb (Before t cutoff) | None => false end in
  if isFresh then None
  else Some (mkPending (pr_ID p) (pr_ID p) (pr_Title p) (pr_Version p) (pr_EffectiveDate p) (pr_AcknowledgmentRequiredRoles p)
               (pr_LatestAckAt p)).

Definition PendingForUser (collate : string → string → Prop) `{!RelDecision collate} {PL : Planner} (env : AckEnv) (caller : AckCaller)
  : Tx DB AckError (list Pending) :=
  if bool_decide (UserID caller = "") then tx_fail ErrAckMissingUser
  else match uuid_Parse (UserID caller) with
  | None => tx_fail ErrAckParseUser
  | Some userID =>
      ack_inTx env (λ tenantID,
        tx_try (stmt (if forallb pg_text (OwnerRoles caller)
                      then query (ListPendingAcksForUser collate (pgUUID tenantID) (pgUUID userID) (IsAdmin caller) (OwnerRoles caller))
                      else λ _, Err OtherViolation))
          (λ r, match r with
                | Err e => tx_fail (ErrAckStatement "list pending" e)
                | Ok rows => mret (omap (M := list) (pending_of (ae_clock env - AcknowledgmentFreshness)) rows)
                end))
  end.

(** The transaction of [Record]. *)
Definition record_tx (env : AckEnv) (i : RecordInput) (userID : UUID) (observed : Time) (token : string) (tenantID : UUID)
  : Tx (Session DB) AckError Ack :=
  tx_try (stmt (GetPolicyForAcknowledge (pgUUID tenantID) (pgUUID (ri_PolicyID i)))) (λ r,
    match r with
    | Err NoRows => tx_fail ErrAckNotFound
    | Err e => tx_fail (ErrAckStatement "load policy" e)
    | Ok policyRow =>
        if negb (in_state StatePublished policyRow) then tx_fail ErrAckPolicyNotPublished
        else if negb (rolesIntersect (ri_Caller i) (row_AcknowledgmentRequiredRoles policyRow)) then tx_fail ErrAckNotRequired
        else
          tx_try (stmt (GetAcknowledgmentByToken (pgUUID tenantID) token)) (λ g,
            match g with
            | Ok existing => mret (ackFromRow existing true)
            | Err NoRows =>
                tx_try (stmt (InsertPolicyAcknowledgment (ae_now env) (ae_rivals env)
                                (mkAckParams (pgUUID (ae_newID env)) (pgUUID tenantID) (pgUUID (ri_PolicyID i)) (pgUUID (ri_PolicyID i))
                                   (pgUUID userID) observed token (pgUUIDPtr (ri_EvidenceRecordID i))))) (λ ins,
                  match ins with
                  | Ok row => mret (ackFromRow row false)
                  | Err UniqueViolation =>
                      tx_try (stmt (GetAcknowledgmentByToken (pgUUID tenantID) token)) (λ g2,
                        match g2 with
                        | Ok existing2 => mret (ackFromRow existing2 true)
                        | Err _ => tx_fail (ErrAckStatement "insert" UniqueViolation)
                        end)
                  | Err e => tx_fail (ErrAckStatement "insert" e)
                  end)
            | Err e => tx_fail (ErrAckStatement "idempotency probe" e)
            end)
    end).

(** [Record]; the name is a keyword here. *)
Definition Record_ (env : AckEnv) (i : RecordInput) : Tx DB AckError Ack :=
  if bool_decide (ri_PolicyID i = uuid_Nil) then tx_fail ErrAckMissingPolicyID
  else if bool_decide (UserID (ri_Caller i) = "") then tx_fail ErrAckMissingUser
  else match uuid_Parse (UserID (ri_Caller i)) with
  | None => tx_fail ErrAckParseUser
  | Some userID =>
      let observed := if IsZero (ri_ObservedAt i) then ae_clock env else ri_ObservedAt i in
      let token := DeriveAckToken (UserID (ri_Caller i)) (uuid_String (ri_PolicyID i)) observed in
      ack_inTx env (record_tx env i userID observed token)
  end.

Definition SetEvidenceRecordID (env : AckEnv) (ackID evidenceRecordID : UUID) : Tx DB AckError () :=
  ack_inTx env (λ tenantID,
    tx_try (stmt (SetAcknowledgmentEvidenceRecord (pgUUID tenantID) (pgUUID ackID) (pgUUID evidenceRecordID)))
      (λ r, match r with
            | Err e => tx_fail (ErrAckStatement "set evidence record id" e)
            | Ok _ => mret ()
            end)).

Definition percent (num denom : Z) : option float64 :=
  if 0 <? denom then Some (fmul (fdiv (of_Z num) (of_Z denom)) (of_Z 100)) else None.

Definition Rate (env : AckEnv) (policyID : UUID) : Tx DB AckError RateResult :=
  ack_inTx env (λ tenantID,
    tx_try (stmt (GetPolicyForAcknowledge (pgUUID tenantID) (pgUUID policyID))) (λ r,
      match r with
      | Err NoRows => tx_fail ErrAckNotFound
      | Err e => tx_fail (ErrAckStatement "rate: load policy" e)
      | Ok policyRow =>
          if negb (in_state StatePublished policyRow) then tx_fail ErrAckPolicyNotPublished
          else
            let required := row_AcknowledgmentRequiredRoles policyRow in
            tx_try (stmt (query (CountRequiredRoleUsersForVersion (pgUUID tenantID) required))) (λ d,
              match d with
              | Err e => tx_fail (ErrAckStatement "rate denominator" e)
              | Ok denom =>
                  tx_try (stmt (query (CountFreshAcksForVersion (pgUUID tenantID) (pgUUID policyID)
                                         (to_micros (ae_clock env - AcknowledgmentFreshness)) required))) (λ n,
                    match n with
                    | Err e => tx_fail (ErrAckStatement "rate numerator" e)
                    | Ok num => mret (mkRate num denom (percent num denom) (AcknowledgmentFreshness / ns_per_second))
                    end)
              end)
      end)).

End AckStore.
End PolicyAck.
