(* ===== verification/PolicySeed.v ===== *)
(** * Stock policies

    Models internal/policy/seed/seed.go: the stock directory, the split of a file
    into front matter and body, the resolution of SCF codes to controls and the
    transaction that inserts the drafts.  Reading YAML belongs to gopkg.in/yaml.v3
    and is a parameter. *)

From Stdlib Require Import Ascii.
From S2P Require Import Prelude GoTime Tenancy Json Postgres Policy.
Import Policy.

Module PolicySeed.

Definition StockPolicyCount : nat := 5.

Record FrontMatter := mkFront {
  fm_Title : string;
  fm_Version : string;
  fm_OwnerRole : string;
  fm_ApproverRole : string;
  fm_LinkedControlIDs : list string;
  fm_AcknowledgmentRequiredRoles : list string;
  fm_SourceAttribution : string;
}.

Record StockPolicy := mkStock { sp_FrontMatter : FrontMatter; sp_BodyMd : string; sp_SourcePath : string }.

Record LoadedPolicy := mkLoaded { lp_ID : UUID; lp_Title : string; lp_LinkedControlCount : nat; lp_OrphanWarning : bool }.

Record Report := mkReport { Loaded : list LoadedPolicy; MissingAnchors : list string; OrphanWarnings : list string }.
Definition no_report : Report := mkReport [] [] [].

Inductive SeedError :=
| ErrReadDir
| ErrFileCount (found : nat)
| ErrReadFile (path : string)
| ErrNoLeadingDelimiter (path : string)
| ErrNoTrailingDelimiter (path : string)
| ErrFrontMatter (path : string)
| ErrPolicyCount (got : nat)
| ErrSeedTenant (e : TenancyErr)
| ErrResolve (title : string)
| ErrInsert (title : string) (e : SqlErr)
| ErrSeedTx (e : TxErr).
#[global] Instance SeedError_tx : TxError SeedError := ErrSeedTx.

(** [yaml.Unmarshal] into a [FrontMatter]. *)
Class Yaml := yaml_Unmarshal : string → option FrontMatter.

(** ** Files *)

(** [strings.TrimLeft] with a set of characters. *)
Fixpoint TrimLeft (s : string) (cutset : list ascii) : string :=
  match s with
  | "" => ""
  | String c t => if bool_decide (c ∈ cutset) then TrimLeft t cutset else s
  end.

(** What follows a prefix. *)
Fixpoint after_prefix (p s : string) : option string :=
  match p, s with
  | "", s => Some s
  | String a p, String b s => if bool_decide (a = b) then after_prefix p s else None
  | String _ _, "" => None
  end.
Definition TrimPrefix (s p : string) : string := default s (after_prefix p s).

(** The text before and after the first occurrence of [sub]. *)
Fixpoint cut_at (sub s : string) : option (string * string) :=
  match after_prefix sub s with
  | Some rest => Some ("", rest)
  | None =>
      match s with
      | "" => None
      | String c t => match cut_at sub t with Some (a, b) => Some (String c a, b) | None => None end
      end
  end.

Definition LF : ascii := ascii_of_nat 10.
Definition CR : ascii := ascii_of_nat 13.
Definition TAB : ascii := ascii_of_nat 9.
Definition lf_delimiter : string := "---" +:+ String LF "".
Definition crlf_delimiter : string := "---" +:+ String CR (String LF "").

Section Files.
Context {Y : Yaml}.

Definition parseStockPolicy (path src : string) : result SeedError StockPolicy :=
  let src := TrimLeft src [" "%char; TAB; LF] in
  match after_prefix lf_delimiter src, after_prefix crlf_delimiter src with
  | None, None => Err (ErrNoLeadingDelimiter path)
  | _, _ =>
      let body := TrimPrefix (TrimPrefix src lf_delimiter) crlf_delimiter in
      match cut_at (String LF "---") body with
      | None => Err (ErrNoTrailingDelimiter path)
      | Some (fmText, rest) =>
          match yaml_Unmarshal fmText with
          | None => Err (ErrFrontMatter path)
          | Some fm => Ok (mkStock fm (TrimLeft rest [CR; LF]) path)
          end
      end
  end.

(** An entry of the directory, and what reading it gives. *)
Record DirEntry := mkEntry { de_Name : string; de_IsDir : bool; de_Data : option string }.

(** [filepath.Ext] of a name without separators: from the last dot. *)
Fixpoint Ext (name : string) : string :=
  match name with
  | "" => ""
  | String c t => let e := Ext t in if bool_decide (e = "") && bool_decide (c = "."%char) then name else e
  end.

Definition by_name (a b : DirEntry) : Prop := String.le (de_Name a) (de_Name b).
#[global] Instance by_name_dec : RelDecision by_name.
Proof. intros a b. unfold by_name. apply _. Defined.

(** The paths share the root, so they sort as the names do. *)
Definition LoadFromFS (entries : option (list DirEntry)) (root : string) : result SeedError (list StockPolicy) :=
  match entries with
  | None => Err ErrReadDir
  | Some entries =>
      let files := merge_sort by_name (select_where (λ e, negb (de_IsDir e) && bool_decide (Ext (de_Name e) = ".md")) entries) in
      if bool_decide (length files ≠ StockPolicyCount) then Err (ErrFileCount (length files))
      else foldr (λ e acc,
             let p := root +:+ "/" +:+ de_Name e in
             sp ← match de_Data e with None => Err (ErrReadFile p) | Some data => parseStockPolicy p data end;
             rest ← acc; Ok (sp :: rest)) (Ok []) files
  end.
End Files.

(** ** Anchors *)

(** The controls found for a list of codes, and the codes without one. *)
Definition AnchorResolver : Type := list string → DB → option (list UUID * list string).

Definition NoopAnchorResolver : AnchorResolver := λ scfCodes _, Some ([], scfCodes).

(** The role a pool is connected as.  The lookup runs outside the transaction that
    set [app.current_tenant], and row-level security shows it no row. *)
Inductive Role := AtlasApp | BypassRLS.
Definition visible (role : Role) (d : DB) : list ControlRow :=
  match role with AtlasApp => [] | BypassRLS => controls d end.

Definition created_first (a b : ControlRow) : Prop := ct_CreatedAt a ≤ ct_CreatedAt b.
#[global] Instance created_first_dec : RelDecision created_first.
Proof. intros a b. unfold created_first. apply _. Defined.

(** [SELECT DISTINCT ON (scf_id) ... ORDER BY scf_id, created_at ASC]: the oldest of
    each code. *)
Definition first_control {PL : Planner} (role : Role) (code : string) (d : DB) : option UUID :=
  ct_ID <$> head (merge_sort created_first
                    (plan (select_where (λ c, bool_decide (ct_ScfID c = Some code)) (visible role d)))).

Definition SQLAnchorResolver {PL : Planner} (role : Role) : AnchorResolver := λ scfCodes d,
  if bool_decide (scfCodes = []) then Some ([], [])
  else if negb (forallb pg_text scfCodes) then None
  else Some (omap (M := list) (λ c, first_control role c d) scfCodes,
             select_where (λ c, bool_decide (first_control role c d = None)) scfCodes).

(** ** Seeding *)

Section Seed.
Context {UT : UUIDText}.

Definition add_report (rep : Report) (id : UUID) (sp : StockPolicy) (linked : list UUID) (missing : list string) : Report :=
  let title := fm_Title (sp_FrontMatter sp) in
  let orphan := bool_decide (linked = []) in
  mkReport (Loaded rep ++ [mkLoaded id title (length linked) orphan]) (MissingAnchors rep ++ missing)
    (OrphanWarnings rep ++ if orphan then [title] else []).

(** The lookup sees the database as it was before the transaction, which changes
    no control. *)
Fixpoint seed_all (now : Time) (tenantID : UUID) (resolve : AnchorResolver) (work : list (UUID * StockPolicy)) (rep : Report)
  : Tx (Session DB) SeedError Report :=
  match work with
  | [] => mret rep
  | (id, sp) :: work => λ s,
      let fm := sp_FrontMatter sp in
      match resolve (fm_LinkedControlIDs fm) (s_db s) with
      | None => (Err (ErrResolve (fm_Title fm)), s)
      | Some (linked, missing) =>
          let source := if bool_decide (fm_SourceAttribution fm = "") then SourceCommunityDraft else fm_SourceAttribution fm in
          tx_try (stmt (CreatePolicy now
                          (mkCreateParams (Some id) (Some tenantID) None (fm_Title fm) (fm_Version fm) (sp_BodyMd sp) (fm_OwnerRole fm)
                             (fm_ApproverRole fm) (Some <$> linked) (fm_AcknowledgmentRequiredRoles fm) source "system:stock-seed")))
            (λ r, match r with
                  | Err e => tx_fail (ErrInsert (fm_Title fm) e)
                  | Ok _ => seed_all now tenantID resolve work (add_report rep id sp linked missing)
                  end) s
      end
  end.

(** [newIDs] are the identifiers [uuid.New] draws; a nil resolver is the no-op. *)
Definition Seed (infra : Infra) (now : Time) (newIDs : list UUID) (tenantID : UUID) (policies : list StockPolicy)
    (anchorResolver : option AnchorResolver) : Tx DB SeedError Report := λ d,
  if bool_decide (length policies ≠ StockPolicyCount) then (Err (ErrPolicyCount (length policies)), d)
  else match WithTenant {| ctx_tenant := None |} (uuid_String tenantID) with
  | Err e => (Err (ErrSeedTenant e), d)
  | Ok ctx =>
      let '(r, se) := withTx infra ctx (seed_all now tenantID (default NoopAnchorResolver anchorResolver) (zip newIDs policies) no_report)
                        (mkSession d false) in
      (r, s_db se)
  end.
End Seed.

End PolicySeed.
