(* ===== verification/PolicyApi.v ===== *)
(** * The policy handlers

    Models internal/api/policies/handlers.go and internal/api/policyacks/handlers.go:
    who may call what, how requests are read and how the stores' errors become
    status codes; the list with acknowledgement rates of policies.sql; and an
    acknowledgement with the evidence it pushes.  Decoding the request's JSON and
    printing PDFs are parameters. *)

From Stdlib Require Import Ascii.
From S2P Require Import Prelude GoTime Tenancy Json Sha256 Float64 TimeText Scope GoJson EvalState Postgres Redact EvidenceRecord Ingest Http Policy PolicyAck.
Import Policy PolicyAck.

Module PolicyApi.

(** ** Requests and replies *)

(** A request as the handlers see it: its context with the credential the
    middleware left, the identifier in its path, and the query's parameters. *)
Record Request := mkRequest {
  rq_ctx : Context;
  rq_cred : option Credential;
  rq_id : string;
  rq_status : string;
  rq_include : list string;
  rq_versions : string;
}.

Definition tenantCredContext (r : Request) : option (Context * Credential) :=
  match rq_cred r with
  | None => None
  | Some cred =>
      if bool_decide (cred_TenantID cred = "") then None
      else match TenantFromContext (rq_ctx r) with
           | Err _ => None
           | Ok _ => Some (rq_ctx r, cred)
           end
  end.

(** ** Wire shapes *)

Record policyWire := mkWire {
  w_ID : string;
  w_PredecessorID : option string;
  w_Title : string;
  w_Version : string;
  w_EffectiveDate : option string;
  w_BodyMd : string;
  w_OwnerRole : string;
  w_ApproverRole : string;
  w_LinkedControlIDs : list string;
  w_AcknowledgmentRequiredRoles : list string;
  w_Status : string;
  w_SourceAttribution : string;
  w_CreatedBy : string;
  w_SubmittedAt : option Time;
  w_SubmittedBy : option string;
  w_ApprovedAt : option Time;
  w_ApprovedBy : option string;
  w_PublishedAt : option Time;
  w_PublishedBy : option string;
  w_SupersededAt : option Time;
  w_CreatedAt : Time;
  w_UpdatedAt : Time;
  w_Warnings : list string;
}.

Record policyAckRateCellWire := mkCell { c_Numerator : Z; c_Denominator : Z; c_Percent : option float64 }.
Record policyWithAckRateWire := mkWithRate { wr_policy : policyWire; wr_AckRate : option policyAckRateCellWire }.

Record createReq := mkCreateReq {
  cr_Title : string;
  cr_Version : string;
  cr_BodyMd : string;
  cr_OwnerRole : string;
  cr_ApproverRole : string;
  cr_LinkedControlIDs : list string;
  cr_AcknowledgmentRequiredRoles : list string;
  cr_SourceAttribution : string;
}.
Record publishReq := mkPublishReq { pq_NewVersion : string; pq_EffectiveDate : option string }.
Definition no_publishReq : publishReq := mkPublishReq "" None.

Definition WarningOrphanPolicy : string := "orphan_policy".

Section Api.
Context {UT : UUIDText}.

Definition uuidsToStrings (us : list UUID) : list string := uuid_String <$> us.
(** NULL elements are passed over. *)
Definition pgUUIDsToStrings (us : list (option UUID)) : list string := omap (M := list) (fmap uuid_String) us.

Definition wireFromPolicy (p : Policy) : policyWire :=
  mkWire (uuid_String (ID p)) (uuid_String <$> PredecessorID p) (Title p) (Version p) (FormatDate <$> EffectiveDate p) (BodyMd p)
    (OwnerRole p) (ApproverRole p) (uuidsToStrings (LinkedControlIDs p)) (AcknowledgmentRequiredRoles p) (Status p) (SourceAttribution p)
    (CreatedBy p) (SubmittedAt p) (SubmittedBy p) (ApprovedAt p) (ApprovedBy p) (PublishedAt p) (PublishedBy p) (SupersededAt p)
    (CreatedAt p) (UpdatedAt p) (if IsOrphan p then [WarningOrphanPolicy] else []).

Definition wireFromAckRateBaseColumns (r : Row) : policyWire :=
  mkWire (uuid_String (row_ID r)) (uuid_String <$> row_PredecessorID r) (row_Title r) (row_Version r) (FormatDate <$> row_EffectiveDate r)
    (row_BodyMd r) (row_OwnerRole r) (row_ApproverRole r) (pgUUIDsToStrings (row_LinkedControlIds r)) (row_AcknowledgmentRequiredRoles r)
    (row_Status r) (row_SourceAttribution r) (row_CreatedBy r) (row_SubmittedAt r) (row_SubmittedBy r) (row_ApprovedAt r)
    (row_ApprovedBy r) (row_PublishedAt r) (row_PublishedBy r) (row_SupersededAt r) (row_CreatedAt r) (row_UpdatedAt r)
    (if bool_decide (row_LinkedControlIds r = []) then [WarningOrphanPolicy] else []).

(** A row of [ListPoliciesWithAckRate]: the policy, and the two counts where it is
    published. *)
Record AckRateRow := mkRateRow { rr_policy : Row; rr_cell : option (Z * Z) }.

Definition wireFromAckRateRow (r : AckRateRow) : policyWithAckRateWire :=
  mkWithRate (wireFromAckRateBaseColumns (rr_policy r))
    (match rr_cell r with
     | Some (num, denom) => Some (mkCell num denom (percent num denom))
     | None => None
     end).

(** The scalar subqueries of [ack_cells]. *)
Definition ack_denominator (p : Row) (d : DB) : Z :=
  Z.of_nat (length (remove_dups (omap (M := list) ak_IssuedBy
    (select_where (λ k, bool_decide (ak_TenantID k = row_TenantID p) && bool_decide (ak_RevokedAt k = None) &&
                        bool_decide (ak_IssuedBy k ≠ None) &&
                        (ak_IsAdmin k || overlap (ak_OwnerRoles k) (row_AcknowledgmentRequiredRoles p))) (api_keys d))))).

Definition ack_numerator (cutoff : Time) (p : Row) (d : DB) : Z :=
  Z.of_nat (length (remove_dups (ar_UserID <$>
    select_where (λ a, bool_decide (ar_TenantID a = row_TenantID p) && bool_decide (ar_PolicyVersionID a = row_ID p) &&
                       bool_decide (cutoff ≤ ar_AcknowledgedAt a) &&
                       existsb (λ k, bool_decide (ak_TenantID k = ar_TenantID a) && bool_decide (ak_IssuedBy k = Some (ar_UserID a)) &&
                                     bool_decide (ak_RevokedAt k = None) &&
                                     (ak_IsAdmin k || overlap (ak_OwnerRoles k) (row_AcknowledgmentRequiredRoles p))) (api_keys d))
      (acknowledgments d)))).

Definition ListPoliciesWithAckRate (tenantID : option UUID) (cutoff : Time) (d : DB) : list AckRateRow :=
  (λ p, mkRateRow p (if in_state StatePublished p then Some (ack_numerator cutoff p d, ack_denominator p d) else None)) <$>
  ListPolicies tenantID d.

(** ** Policies *)

(** The failures of the list with rates. *)
Inductive ListErr := ListTenant (e : TenancyErr) | ListBegin | ListParse | ListStatement (e : SqlErr) | ListCommit | ListNoPool.
#[global] Instance ListErr_tx : TxError ListErr :=
  λ e, match e with TxTenancy e => ListTenant e | TxParseTenant => ListParse | TxBegin => ListBegin | TxCommit => ListCommit end.

Definition parseUUIDs (strs : list string) : option (list UUID) :=
  foldr (λ s acc, let s := TrimSpace s in
           if bool_decide (s = "") then acc
           else u ← uuid_Parse s; us ← acc; Some (u :: us)) (Some []) strs.

Definition writeCreateErr {A} (e : Error) : Reply A :=
  match e with
  | ErrTitleRequired => WriteError StatusBadRequest "policy: title is required"
  | ErrVersionRequired => WriteError StatusBadRequest "policy: version is required"
  | ErrBodyRequired => WriteError StatusBadRequest "policy: body_md is required"
  | ErrOwnerRoleRequired => WriteError StatusBadRequest "policy: owner_role is required"
  | ErrApproverRoleRequired => WriteError StatusBadRequest "policy: approver_role is required"
  | ErrCreatedByRequired => WriteError StatusBadRequest "policy: created_by is required"
  | _ => WriteInternal "create policy"
  end.

Definition writeTransitionErr {A} (e : Error) : Reply A :=
  match e with
  | ErrNotFound => WriteError StatusNotFound "policy not found"
  | ErrWrongState => WriteError StatusConflict "policy not in expected state for this transition"
  | _ => WriteInternal "transition"
  end.

Definition writePublishErr {A} (e : Error) : Reply A :=
  match e with
  | ErrOrphanPublish => WriteError StatusConflict "policy: cannot publish orphan policy (no linked controls)"
  | ErrNotFound => WriteError StatusNotFound "policy not found"
  | ErrWrongState => WriteError StatusConflict "policy not in expected state for publish"
  | ErrInvalidVersion => WriteError StatusBadRequest "policy: new version must be non-empty and differ from predecessor"
  | _ => WriteInternal "publish policy"
  end.

(** The environment of the store for a request. *)
Definition for_request (env : Env) (ctx : Context) : Env := mkEnv ctx (env_infra env) (env_clock env) (env_now env) (env_newID env).

(** [req] is the decoded body, [None] when it does not decode. *)
Definition CreatePolicy (env : Env) (r : Request) (req : option createReq) (d : DB) : Reply policyWire * DB :=
  match tenantCredContext r with
  | None => (WriteError StatusUnauthorized "tenant context missing", d)
  | Some (ctx, cred) =>
      match req with
      | None => (WriteError StatusBadRequest "invalid JSON body", d)
      | Some req =>
          match parseUUIDs (cr_LinkedControlIDs req) with
          | None => (WriteError StatusBadRequest "linked_control_ids contains invalid UUID", d)
          | Some linkedIDs =>
              match Create (for_request env ctx)
                      (mkCreate (cr_Title req) (cr_Version req) (cr_BodyMd req) (cr_OwnerRole req) (cr_ApproverRole req) linkedIDs
                         (cr_AcknowledgmentRequiredRoles req) (cr_SourceAttribution req) (cred_ID cred)) d with
              | (Err e, d') => (writeCreateErr e, d')
              | (Ok p, d') => (WriteJSON StatusCreated (wireFromPolicy p), d')
              end
          end
      end
  end.

Definition includesAckRate (r : Request) : bool :=
  existsb (λ v, existsb (λ tok, bool_decide (TrimSpace tok = "ack_rate")) (split_on "," v)) (rq_include r).

(** [pool] tells whether the handler has one.  The transaction only reads. *)
Definition listPoliciesWithAckRate (env : Env) (pool : bool) (ctx : Context) (statusFilter : string) (d : DB)
  : result ListErr (list policyWithAckRateWire) :=
  if negb pool then Err ListNoPool
  else match TenantFromContext ctx with
  | Err e => Err (ListTenant e)
  | Ok tenantStr =>
      rows ← (withTx (env_infra env) ctx
                (λ se, match uuid_Parse tenantStr with
                       | None => (Err ListParse, se)
                       | Some tenantID =>
                           tx_try (stmt (query (ListPoliciesWithAckRate (Some tenantID)
                                                  (to_micros (env_clock env - AcknowledgmentFreshness)))))
                             (λ r, tx_lift (map_err ListStatement r)) se
                       end) (mkSession d false)).1;
      Ok (wireFromAckRateRow <$>
          select_where (λ r, negb (bool_decide (statusFilter ≠ "") && bool_decide (row_Status (rr_policy r) ≠ statusFilter))) rows)
  end.

Definition ListPolicies (env : Env) (pool : bool) (r : Request) (d : DB) : Reply (list policyWire + list policyWithAckRateWire) :=
  match tenantCredContext r with
  | None => WriteError StatusUnauthorized "tenant context missing"
  | Some (ctx, _) =>
      let statusFilter := TrimSpace (rq_status r) in
      if includesAckRate r then
        match listPoliciesWithAckRate env pool ctx statusFilter d with
        | Err _ => WriteInternal "list policies (with ack_rate)"
        | Ok out => WriteJSON StatusOK (inr out)
        end
      else
        match (List_ (for_request env ctx) (mkFilter statusFilter) d).1 with
        | Err _ => WriteInternal "list policies"
        | Ok rows => WriteJSON StatusOK (inl (wireFromPolicy <$> rows))
        end
  end.

(** [None] when the recursive query does not end. *)
Definition GetPolicy (env : Env) (r : Request) (d : DB) : option (Reply (policyWire + list policyWire)) :=
  match tenantCredContext r with
  | None => Some (WriteError StatusUnauthorized "tenant context missing")
  | Some (ctx, _) =>
      match uuid_Parse (rq_id r) with
      | None => Some (WriteError StatusBadRequest "id must be a UUID")
      | Some id =>
          if bool_decide (rq_versions r = "true") then
            match (VersionChain (for_request env ctx) id d).1 with
            | Err _ => Some (WriteInternal "version chain")
            | Ok None => None
            | Ok (Some []) => Some (WriteError StatusNotFound "policy not found")
            | Ok (Some chain) => Some (WriteJSON StatusOK (inr (wireFromPolicy <$> chain)))
            end
          else
            match (Get (for_request env ctx) id d).1 with
            | Err ErrNotFound => Some (WriteError StatusNotFound "policy not found")
            | Err _ => Some (WriteInternal "get policy")
            | Ok p => Some (WriteJSON StatusOK (inl (wireFromPolicy p)))
            end
      end
  end.

Definition Submit (env : Env) (r : Request) (d : DB) : Reply policyWire * DB :=
  match tenantCredContext r with
  | None => (WriteError StatusUnauthorized "tenant context missing", d)
  | Some (ctx, cred) =>
      match uuid_Parse (rq_id r) with
      | None => (WriteError StatusBadRequest "id must be a UUID", d)
      | Some id =>
          match SubmitForReview (for_request env ctx) id (cred_ID cred) d with
          | (Err e, d') => (writeTransitionErr e, d')
          | (Ok p, d') => (WriteJSON StatusOK (wireFromPolicy p), d')
          end
      end
  end.

Definition Approve (env : Env) (r : Request) (d : DB) : Reply policyWire * DB :=
  match tenantCredContext r with
  | None => (WriteError StatusUnauthorized "tenant context missing", d)
  | Some (ctx, cred) =>
      if negb (cred_IsApprover cred) && negb (cred_IsAdmin cred) then (WriteError StatusForbidden "approver role required", d)
      else match uuid_Parse (rq_id r) with
      | None => (WriteError StatusBadRequest "id must be a UUID", d)
      | Some id =>
          match Policy.Approve (for_request env ctx) id (cred_ID cred) d with
          | (Err e, d') => (writeTransitionErr e, d')
          | (Ok p, d') => (WriteJSON StatusOK (wireFromPolicy p), d')
          end
      end
  end.

(** An absent or empty date leaves the choice to the store. *)
Definition effective_date (s : option string) : option (option Time) :=
  match s with
  | None | Some "" => Some None
  | Some s => t ← ParseDate s; Some (Some t)
  end.

(** [hasBody] is [r.ContentLength > 0]; [req] the decoded body. *)
Definition Publish (env : Env) (r : Request) (hasBody : bool) (req : option publishReq) (d : DB) : Reply policyWire * DB :=
  match tenantCredContext r with
  | None => (WriteError StatusUnauthorized "tenant context missing", d)
  | Some (ctx, cred) =>
      if negb (cred_IsApprover cred) && negb (cred_IsAdmin cred) then (WriteError StatusForbidden "approver role required for publish", d)
      else match uuid_Parse (rq_id r) with
      | None => (WriteError StatusBadRequest "id must be a UUID", d)
      | Some id =>
          match (if hasBody then req else Some no_publishReq) with
          | None => (WriteError StatusBadRequest "invalid JSON body", d)
          | Some req =>
              if bool_decide (pq_NewVersion req = "") then (WriteError StatusBadRequest "new_version is required", d)
              else
                match effective_date (pq_EffectiveDate req) with
                | None => (WriteError StatusBadRequest "effective_date must be YYYY-MM-DD", d)
                | Some effective =>
                    match Policy.Publish (for_request env ctx) id (mkPublish (pq_NewVersion req) effective (cred_ID cred)) d with
                    | (Err e, d') => (writePublishErr e, d')
                    | (Ok p, d') => (WriteJSON StatusCreated (wireFromPolicy p), d')
                    end
                end
          end
      end
  end.

(** The document handed to the renderer, and what the renderer says. *)
Record Doc := mkDoc {
  doc_Title : string;
  doc_Version : string;
  doc_OwnerRole : string;
  doc_ApproverRole : string;
  doc_Status : string;
  doc_BodyMd : string;
  doc_EffectiveDate : string;
}.
Inductive RenderErr := ErrChromeUnavailable | RenderFailed.

Definition PDF (renderPDF : Doc → result RenderErr string) (env : Env) (r : Request) (d : DB) : Reply string :=
  match tenantCredContext r with
  | None => WriteError StatusUnauthorized "tenant context missing"
  | Some (ctx, _) =>
      match uuid_Parse (rq_id r) with
      | None => WriteError StatusBadRequest "id must be a UUID"
      | Some id =>
          match (Get (for_request env ctx) id d).1 with
          | Err ErrNotFound => WriteError StatusNotFound "policy not found"
          | Err _ => WriteInternal "get policy"
          | Ok p =>
              let doc := mkDoc (Title p) (Version p) (OwnerRole p) (ApproverRole p) (Status p) (BodyMd p)
                           (default "" (FormatDate <$> EffectiveDate p)) in
              match renderPDF doc with
              | Err ErrChromeUnavailable => WriteError StatusServiceUnavailable "pdf renderer unavailable: chrome not installed"
              | Err RenderFailed => WriteInternal "render pdf"
              | Ok bytes => WriteJSON StatusOK bytes
              end
          end
      end
  end.

End Api.
End PolicyApi.
