(* ===== verification/PolicyAckApi.v ===== *)
(** * The acknowledgement handlers

    Models internal/api/policyacks/handlers.go: the pending list, the rate, and an
    acknowledgement, which records a row, pushes one evidence record through the
    ingestion stage and links the two. *)

From S2P Require Import Prelude GoTime Tenancy Json Sha256 Float64 TimeText Scope GoJson EvalState Postgres Redact EvidenceRecord Ingest Http Policy PolicyAck PolicyApi.
Import Evidence PolicyAck PolicyApi.

Module PolicyAckApi.

Definition EvidenceKind := "policy.acknowledgment.v1".
Definition EvidenceVersion := "1.0.0".
Definition IngestionPath := "manual_upload".

Record pendingItem := mkItem {
  it_PolicyID : string;
  it_PolicyVersionID : string;
  it_Title : string;
  it_Version : string;
  it_EffectiveDate : option string;
  it_RequiredRoles : list string;
  it_LastAcknowledgedAt : option Time;
}.
Record pendingResponse := mkPendingResponse { Pending_ : list pendingItem; Count : Z; pe_WindowSeconds : Z }.

(** Why evidence was not emitted. *)
Inductive EmissionErr := ErrPayload | ErrIngest (e : Ingest.Error).

Record ackResponse := mkAckResponse {
  rs_ID : string;
  rs_PolicyID : string;
  rs_PolicyVersionID : string;
  rs_UserID : string;
  rs_AcknowledgedAt : Time;
  rs_AckToken : string;
  rs_EvidenceRecordID : option string;
  rs_Deduplicated : bool;
  rs_EvidenceEmissionOK : bool;
  rs_EvidenceEmissionErr : option EmissionErr;
}.

(** The two stores a request touches. *)
Record World := mkWorld { pol : Policy.DB; ing : Ingest.World }.

(** One environment for each of the calls of [Acknowledge]. *)
Record AckApiEnv := mkAckApiEnv { en_record : AckEnv; en_ingest : Ingest.Env; en_link : AckEnv }.

Definition ack_for_request (env : AckEnv) (ctx : Context) : AckEnv :=
  mkAckEnv ctx (ae_infra env) (ae_clock env) (ae_now env) (ae_newID env) (ae_rivals env).

Definition ackCallerFromCred (c : Credential) : AckCaller := mkCaller (cred_UserID c) (cred_OwnerRoles c) (cred_IsAdmin c).

Section Handlers.
Context {UT : UUIDText}.

Definition isUUIDUser (id : string) : bool :=
  if bool_decide (id = "") then false else match uuid_Parse id with Some _ => true | None => false end.

Definition window_seconds : Z := AcknowledgmentFreshness / ns_per_second.

Definition item_of (p : Pending) : pendingItem :=
  mkItem (uuid_String (pd_PolicyID p)) (uuid_String (pd_PolicyVersionID p)) (pd_Title p) (pd_Version p) (FormatDate <$> pd_EffectiveDate p)
    (pd_RequiredRoles p) (pd_LastAcknowledgedAt p).

Definition MyAcknowledgments (collate : string → string → Prop) `{!RelDecision collate} {PL : Planner} (env : AckEnv) (r : Request)
    (d : Policy.DB) : Reply pendingResponse :=
  match tenantCredContext r with
  | None => WriteError StatusUnauthorized "authentication required"
  | Some (ctx, cred) =>
      if negb (isUUIDUser (cred_UserID cred)) then WriteJSON StatusOK (mkPendingResponse [] 0 window_seconds)
      else match (PendingForUser collate (ack_for_request env ctx) (ackCallerFromCred cred) d).1 with
      | Err ErrAckMissingUser => WriteError StatusUnauthorized "credential carries no user id"
      | Err _ => WriteInternal "list pending acks"
      | Ok pending => WriteJSON StatusOK (mkPendingResponse (item_of <$> pending) (Z.of_nat (length pending)) window_seconds)
      end
  end.

Definition writeAckResp (a : Ack) (emissionOK : bool) (emissionErr : option EmissionErr) : Reply ackResponse :=
  WriteJSON (if ack_Deduplicated a then StatusOK else StatusCreated)
    (mkAckResponse (uuid_String (ack_ID a)) (uuid_String (ack_PolicyID a)) (uuid_String (ack_PolicyVersionID a))
       (uuid_String (ack_UserID a)) (ack_AcknowledgedAt a) (ack_Token a) (uuid_String <$> ack_EvidenceRecordID a) (ack_Deduplicated a)
       emissionOK emissionErr).

Definition writeRecordError {A} (e : AckError) : Reply A :=
  match e with
  | ErrAckNotFound => WriteError StatusNotFound "policy not found"
  | ErrAckPolicyNotPublished => WriteError StatusConflict "policy is not in published state"
  | ErrAckNotRequired => WriteError StatusForbidden "caller's roles do not intersect the policy's acknowledgment_required_roles"
  | ErrAckMissingUser => WriteError StatusUnauthorized "credential carries no user id"
  | ErrAckMissingPolicyID => WriteError StatusBadRequest "policy id is required"
  | _ => WriteInternal "record acknowledgment"
  end.

Definition payload (a : Ack) : list (string * any) :=
  [("acknowledged_at", AStr (FormatRFC3339Nano (ack_AcknowledgedAt a))); ("policy_id", AStr (uuid_String (ack_PolicyID a)));
   ("policy_version_id", AStr (uuid_String (ack_PolicyVersionID a))); ("user_id", AStr (uuid_String (ack_UserID a)))].

(** [structpb.NewStruct], which refuses text that is not UTF-8. *)
Definition NewStruct (m : list (string * any)) : option (list (string * any)) := if plain_value (AObj m) then Some m else None.

Definition ack_record (a : Ack) (cred : Credential) (payloadStruct : list (string * any)) : EvidenceRecord :=
  mkRecord (ack_Token a) EvidenceKind EvidenceVersion
    ("policy:" +:+ uuid_String (ack_PolicyID a) +:+ ":v" +:+ uuid_String (ack_PolicyVersionID a))
    [mkDimension "policy_id" [uuid_String (ack_PolicyID a)]] (Some (NewTimestamp (ack_AcknowledgedAt a))) RESULT_PASS (Some payloadStruct)
    (Some (mkSource "human" (cred_UserID cred) (cred_ID cred))) None "".

Definition with_evidence (a : Ack) (e : UUID) : Ack :=
  mkAck (ack_ID a) (ack_PolicyID a) (ack_PolicyVersionID a) (ack_UserID a) (ack_AcknowledgedAt a) (ack_Token a) (Some e)
    (ack_Deduplicated a).

Section Emission.
Context {JB : JsonB} {PM : ProtoMarshal} {PJ : ProtoJson} {GS : GoSort} {SP : StructPB}.

(** After the row: the evidence, then the link. *)
Definition emit (env : AckApiEnv) (s : Ingest.Service) (ctx : Context) (cred : Credential) (a : Ack) (w : World)
  : Reply ackResponse * World :=
  match NewStruct (payload a) with
  | None => (writeAckResp a false (Some ErrPayload), w)
  | Some payloadStruct =>
      let '(o, w') := Ingest.Process (en_ingest env) (Ingest.WithPath s IngestionPath) (Some (ack_record a cred payloadStruct))
                        (cred_key cred) (ing w) in
      match Ingest.error o with
      | Some e => (writeAckResp a false (Some (ErrIngest e)), mkWorld (pol w) w')
      | None =>
          match uuid_Parse (Ingest.RecordID (Ingest.receipt o)) with
          | None => (writeAckResp a true None, mkWorld (pol w) w')
          | Some recordUUID =>
              let '(u, d') := SetEvidenceRecordID (ack_for_request (en_link env) ctx) (ack_ID a) recordUUID (pol w) in
              (writeAckResp (match u with Ok _ => with_evidence a recordUUID | Err _ => a end) true None, mkWorld d' w')
          end
      end
  end.

Definition Acknowledge (env : AckApiEnv) (ingester : option Ingest.Service) (r : Request) (w : World) : Reply ackResponse * World :=
  match tenantCredContext r with
  | None => (WriteError StatusUnauthorized "authentication required", w)
  | Some (ctx, cred) =>
      if bool_decide (cred_UserID cred = "") then (WriteError StatusUnauthorized "credential carries no user id", w)
      else match uuid_Parse (rq_id r) with
      | None => (WriteError StatusBadRequest "policy id must be a uuid", w)
      | Some policyID =>
          match ingester with
          | None => (WriteError StatusServiceUnavailable "evidence ingest service not configured", w)
          | Some s =>
              let '(rec, d') := Record_ (ack_for_request (en_record env) ctx)
                                  (mkRecordInput policyID (ackCallerFromCred cred) None time_zero) (pol w) in
              match rec with
              | Err e => (writeRecordError e, mkWorld d' (ing w))
              | Ok a => emit env s ctx cred a (mkWorld d' (ing w))
              end
          end
      end
  end.
End Emission.

Definition AcknowledgmentRate (env : AckEnv) (r : Request) (d : Policy.DB) : Reply RateResult :=
  match tenantCredContext r with
  | None => WriteError StatusUnauthorized "authentication required"
  | Some (ctx, _) =>
      match uuid_Parse (rq_id r) with
      | None => WriteError StatusBadRequest "policy id must be a uuid"
      | Some policyID =>
          match (Rate (ack_for_request env ctx) policyID d).1 with
          | Err ErrAckNotFound => WriteError StatusNotFound "policy not found"
          | Err ErrAckPolicyNotPublished => WriteError StatusConflict "policy is not in published state"
          | Err _ => WriteInternal "compute rate"
          | Ok rate => WriteJSON StatusOK rate
          end
      end
  end.

End Handlers.
End PolicyAckApi.
