(* ===== verification/PolicySpec.v ===== *)
(** * The policy life cycle keeps its promises, and one it does not

    What a published policy went through, that publication never supersedes, what
    the history of a policy is, and the stock policies. *)

From S2P Require Import Prelude GoTime Tenancy Json Postgres Policy PolicySeed.
Import Policy PolicySeed.

Module PolicySpec.

(** ** One statement at a time *)

Lemma select_head {A} (p q : A → bool) l r t :
  select_where p l = r :: t → q r = true → ∃ t', select_where (λ x, p x && q x) l = r :: t'.
Proof.
  unfold select_where. induction l as [|x l IH]; [done|]. rewrite !filter_cons.
  destruct (p x) eqn:Hp; cbn [andb].
  - rewrite decide_True by done. intros [= -> _] Hq. rewrite decide_True by done. eauto.
  - rewrite decide_False by done. rewrite (decide_False (P := false = true)) by done. auto.
Qed.

Lemma policy_update_Ok by_ p f d r d' :
  update_one by_ p f d = Ok (r, d') →
  ∃ x xs, select_where p (policies d) = x :: xs ∧ r = f x ∧ d' = with_policies d (update_where p f (policies d)) ∧
    ∀ y, y ∈ policies d → p y = true → check_row (f y) = None.
Proof.
  unfold update_one. case_match; [done|]. unfold updated_rows. destruct (select_where p (policies d)) as [|x xs] eqn:Hs; [done|].
  csimpl. case_match eqn:Ho; [|done]. intros [= <- <-]. exists x, xs. split_and!; auto. intros y Hy Hpy.
  destruct (check_row (f y)) as [c|] eqn:Hc; [|done]. exfalso.
  assert (Hin : c ∈ omap (M := list) check_row (f <$> (x :: xs))).
  { apply list_elem_of_omap. exists (f y). split; [|done]. apply list_elem_of_fmap_2. rewrite <- Hs. by apply elem_of_select_where. }
  csimpl in Hin. rewrite Ho in Hin. by apply elem_of_nil in Hin.
Qed.

Lemma select_cons_elem {A} (p : A → bool) l x xs : select_where p l = x :: xs → p x = true ∧ x ∈ l.
Proof. intros H. apply elem_of_select_where. rewrite H. left. Qed.

Lemma policy_at_key t id r : at_key t id r = true ↔ Some (row_TenantID r) = t ∧ Some (row_ID r) = id.
Proof. unfold at_key. by rewrite andb_true_iff, !bool_decide_eq_true. Qed.

Lemma insert_policy_Ok r d x d' :
  insert_policy r d = Ok (x, d') →
  x = r ∧ d' = with_policies d (policies d ++ [r]) ∧ check_row r = None ∧ ∀ y, y ∈ policies d → conflicts r y = false.
Proof.
  unfold insert_policy. case_match; [done|]. destruct (check_row r) eqn:Hc; [done|].
  destruct (existsb _ _) eqn:He; [done|]. case_match; [|done]. intros [= <- <-]. split_and!; [done..|].
  intros y Hy. apply not_true_iff_false. intros Hcf. apply not_true_iff_false in He. apply He, existsb_exists.
  exists y. split; [|done]. by apply list_elem_of_In.
Qed.

Lemma GetPolicyByID_Ok t id d r d' :
  GetPolicyByID t id d = Ok (r, d') → d' = d ∧ ∃ rs, select_where (at_key t id) (policies d) = r :: rs.
Proof. unfold GetPolicyByID, first_row. destruct (select_where _ _); [done|]. intros [= -> ->]. eauto. Qed.

Section Calls.
Context {UT : UUIDText}.

(** A call runs its body to the end, or changes nothing. *)
Lemma policy_inTx_cases {A} env (fn : UUID → Tx (Session DB) Error A) d r d' :
  Policy.inTx env fn d = (r, d') →
  (∃ t a aborted, tenant_of (env_ctx env) = Some t ∧ r = Ok a ∧ fn t (mkSession d false) = (Ok a, mkSession d' aborted)) ∨
  (∃ e, r = Err e ∧ d' = d).
Proof using UT.
  unfold Policy.inTx. destruct (Tenancy.inTx _ _ _ _) as [r0 [d0 ab]] eqn:E. intros [= -> ->].
  apply (inTx_cases s_db) in E as [(t & a & ? & ? & ?)|(e & ? & ?)]; [left|right]; eauto 10.
Qed.

(** A transition that succeeds is the update of one row. *)
Lemma policy_transition_Ok env id run d p d' :
  transition env id run d = (Ok p, d') →
  ∃ t r, tenant_of (env_ctx env) = Some t ∧ run t d = Ok (r, d') ∧ p = policyFromRow r.
Proof using UT.
  unfold transition. intros [(t & a & ab & Ht & [= <-] & H)|(e & [=] & _)]%policy_inTx_cases.
  rewrite try_live in H. destruct (run t d) as [[r d1]|e] eqn:E.
  - injection H. intros. subst. eauto.
  - destruct e; try discriminate H. change (negb (bool_decide (NoRows = NoRows))) with false in H.
    rewrite try_live in H. repeat case_match; discriminate H.
Qed.

(** ** Publication *)

(** A row with a predecessor holds the predecessor's one place for a successor, also
    after a row was superseded. *)
Lemma place_taken p now r x d :
  x ∈ policies d → predecessor_key r ≠ None → predecessor_key x = predecessor_key r →
  ∃ y, y ∈ update_where p (supersede_row now) (policies d) ∧ conflicts r y = true.
Proof using.
  intros Hx Hr Hk. exists (if p x then supersede_row now x else x). split; [apply elem_of_update_where; by exists x|].
  unfold conflicts. destruct (predecessor_key r) as [k|]; [|done]. apply orb_true_iff. right. apply bool_decide_eq_true.
  rewrite <- Hk. by destruct (p x).
Qed.

Lemma publish_next_fails env t approved pred eff i d p se :
  approved ∈ policies d → pgUUID t = Some (row_TenantID approved) → row_PredecessorID approved = Some pred →
  publish_next env t approved pred eff i (mkSession d false) ≠ (Ok p, se).
Proof using.
  intros Ha Ht Hp. unfold publish_next. rewrite try_live.
  destruct (SupersedePolicyAtPublish _ _ _ d) as [[x d1]|e] eqn:E; [|by destruct e].
  case_match; [done|]. rewrite try_live. unfold SupersedePolicyAtPublish in E.
  apply policy_update_Ok in E as (y & ys & [Hpy _]%select_cons_elem & _ & -> & _).
  apply andb_true_iff in Hpy as [[_ Hid]%policy_at_key _].
  assert (Hpp : pgUUID pred = Some pred) by (symmetry in Hid; by rewrite Hid, (pgUUID_Some _ _ Hid)).
  rewrite Ht, Hpp.
  destruct (InsertPublishedPolicy _ _ _) as [[z d2]|e] eqn:E2; [exfalso|by destruct e].
  unfold InsertPublishedPolicy in E2. cbn [ip_ID ip_TenantID ip_PredecessorID] in E2.
  destruct (pgUUID (env_newID env)) as [nid|]; [|done].
  apply insert_policy_Ok in E2 as (_ & _ & _ & Hc). cbn [policies with_policies] in Hc.
  match type of Hc with ∀ y, y ∈ update_where ?q _ _ → conflicts ?r _ = false =>
    assert (Hw : ∃ w, w ∈ update_where q (supersede_row (env_now env)) (policies d) ∧ conflicts r w = true) end.
  { apply (place_taken _ _ _ approved); [done..|]. unfold predecessor_key. by rewrite Hp. }
  destruct Hw as (w & Hw & Hw'). by rewrite Hc in Hw'.
Qed.

(** What a successful publication does to the table. *)
Definition published_in_place (env : Env) (id : UUID) (i : PublishInput) (r : Row) (p : Policy) (d d' : DB) : Prop :=
  let eff := truncate_day (default (env_clock env) (pi_EffectiveDate i)) in
  let publish := publish_row (env_now env) eff (Some (pi_PublishedBy i)) in
  r ∈ policies d ∧ row_ID r = id ∧ tenant_of (env_ctx env) = Some (row_TenantID r) ∧ row_Status r = StateApproved ∧
  row_LinkedControlIds r ≠ [] ∧ row_PredecessorID r = None ∧ p = policyFromRow (publish r) ∧
  d' = with_policies d (update_where (λ x, at_key (Some (row_TenantID r)) (Some id) x && in_state StateApproved x) publish (policies d)) ∧
  pi_PublishedBy i ≠ "" ∧ pi_NewVersion i ≠ "" ∧
  ∀ x, x ∈ policies d → at_key (Some (row_TenantID r)) (Some id) x && in_state StateApproved x = true → check_row (publish x) = None.

Lemma policy_Publish_Ok env id i d p d' :
  Publish env id i d = (Ok p, d') → ∃ r, published_in_place env id i r p d d'.
Proof using UT.
  unfold Publish. case_bool_decide as Hby; [done|]. intros [(t & a & ab & Ht & [= <-] & H)|(e & [=] & _)]%policy_inTx_cases.
  rewrite try_live in H. destruct (GetPolicyByID _ _ d) as [[r d0]|e] eqn:E; [|by destruct e].
  apply GetPolicyByID_Ok in E as (-> & rs & Hsel). destruct (select_cons_elem _ _ _ _ Hsel) as [[Htr Hid]%policy_at_key Hr].
  destruct (in_state StateApproved r) eqn:Hst; cbn [negb] in H; [|done].
  case_bool_decide as Hl; [done|]. case_bool_decide as Hv; [done|].
  destruct (row_PredecessorID r) as [pred|] eqn:Hp; [by eapply publish_next_fails in H|].
  unfold publish_first in H. rewrite try_live in H.
  destruct (PublishApprovedPolicy _ _ _ _ _ d) as [[x d1]|e] eqn:E; [|by destruct e].
  unfold PublishApprovedPolicy, stringPtr in E. rewrite bool_decide_false in E by done.
  apply policy_update_Ok in E as (y & ys & Hy & -> & -> & Hck).
  destruct (select_head _ _ _ _ _ Hsel Hst) as [t' Ht']. rewrite Ht' in Hy. injection Hy as -> _.
  injection H as <- <- _. symmetry in Htr, Hid. rewrite Htr, Hid in *.
  apply pgUUID_Some in Htr as ->, Hid as ->. apply bool_decide_eq_true in Hst. exists y. by split_and!.
Qed.

(** ** What a policy went through *)

(** A stamp: an instant and a named actor. *)
Definition stamped (at_ : option Time) (by_ : option string) (t : Time) : Prop := at_ = Some t ∧ ∃ who, by_ = Some who ∧ who ≠ "".

(** The states in order, each with the stamps of those before it. *)
Inductive history (now : Time) (r : Row) : Prop :=
| was_drafted :
    row_Status r = StateDraft → row_SubmittedAt r = None → row_ApprovedAt r = None → row_PublishedAt r = None →
    row_CreatedAt r ≤ now → history now r
| was_submitted a :
    row_Status r = StateUnderReview → stamped (row_SubmittedAt r) (row_SubmittedBy r) a → row_ApprovedAt r = None →
    row_PublishedAt r = None → row_CreatedAt r ≤ a ≤ now → history now r
| was_approved a b :
    row_Status r = StateApproved → stamped (row_SubmittedAt r) (row_SubmittedBy r) a → stamped (row_ApprovedAt r) (row_ApprovedBy r) b →
    row_PublishedAt r = None → row_CreatedAt r ≤ a → a ≤ b ≤ now → history now r
| was_published a b c :
    row_Status r = StatePublished → stamped (row_SubmittedAt r) (row_SubmittedBy r) a → stamped (row_ApprovedAt r) (row_ApprovedBy r) b →
    stamped (row_PublishedAt r) (row_PublishedBy r) c → row_CreatedAt r ≤ a → a ≤ b → b ≤ c ≤ now →
    row_LinkedControlIds r ≠ [] → history now r.

Definition standing (now : Time) (r : Row) : Prop :=
  row_PredecessorID r = None ∧ row_SupersededAt r = None ∧ history now r.
Definition sound (now : Time) (d : DB) : Prop :=
  NoDup (row_ID <$> policies d) ∧ ∀ r, r ∈ policies d → standing now r ∧ check_row r = None.

(** Everything the store and the stock seed do, with a clock that does not go back;
    the others leave the table alone. *)
Inductive reachable : Time → DB → Prop :=
| reach_start now d : policies d = [] → reachable now d
| reach_create now d env i r d' : reachable now d → now ≤ env_now env → Create env i d = (r, d') → reachable (env_now env) d'
| reach_submit now d env id who r d' : reachable now d → now ≤ env_now env → SubmitForReview env id who d = (r, d') → reachable (env_now env) d'
| reach_approve now d env id who r d' : reachable now d → now ≤ env_now env → Approve env id who d = (r, d') → reachable (env_now env) d'
| reach_publish now d env id i r d' : reachable now d → now ≤ env_now env → Publish env id i d = (r, d') → reachable (env_now env) d'
| reach_seed now now' d infra ids t ps res r d' :
    reachable now d → now ≤ now' → Seed infra now' ids t ps res d = (r, d') → reachable now' d'
| reach_other now now' d d' : reachable now d → now ≤ now' → policies d' = policies d → reachable now' d'.

Lemma history_mono now now' r : now ≤ now' → history now r → history now' r.
Proof using.
  intros Hn []; [eapply was_drafted|eapply was_submitted|eapply was_approved|eapply was_published]; eauto; lia.
Qed.

Lemma sound_mono now now' d d' : now ≤ now' → policies d' = policies d → sound now d → sound now' d'.
Proof using.
  intros Hn Hp [Hd Hs]. split; rewrite Hp; [done|]. intros r Hr. destruct (Hs r Hr) as ((? & ? & ?) & ?).
  split; [split_and!|]; eauto using history_mono.
Qed.

Lemma sound_update now now' d p f :
  now ≤ now' → sound now d → (∀ x, row_ID (f x) = row_ID x) →
  (∀ x, x ∈ policies d → p x = true → check_row (f x) = None) →
  (∀ x, x ∈ policies d → p x = true → standing now x → standing now' (f x)) →
  sound now' (with_policies d (update_where p f (policies d))).
Proof using.
  intros Hn Hsd Hid Hc Hf. assert (Hm := sound_mono _ _ d d Hn eq_refl Hsd). destruct Hsd as [Hd Hs], Hm as [_ Hm].
  split; cbn [policies with_policies].
  - rewrite update_where_key; auto.
  - intros r (x & Hx & ->)%elem_of_update_where. destruct (p x) eqn:Hp; [|auto]. destruct (Hs x Hx). auto.
Qed.

Lemma CreatePolicy_sound now now' a d r d' :
  now ≤ now' → cp_PredecessorID a = None → sound now d → CreatePolicy now' a d = Ok (r, d') → sound now' d'.
Proof using.
  intros Hn Hp Hsd. unfold CreatePolicy. repeat case_match; try done.
  intros (-> & -> & Hck & Hc)%insert_policy_Ok. apply (sound_mono _ now' d d Hn eq_refl) in Hsd as [Hd Hs].
  split; cbn [policies with_policies].
  - rewrite fmap_app. apply NoDup_app. split_and!; [done| |apply NoDup_singleton].
    intros x (y & -> & Hy)%list_elem_of_fmap Hx%list_elem_of_singleton. specialize (Hc y Hy). unfold conflicts in Hc.
    apply orb_false_iff in Hc as [Hc%bool_decide_eq_false _]. by destruct Hc.
  - intros x [?| ->%list_elem_of_singleton]%elem_of_app; [auto|]. split; [|done]. split_and!; [done..|]. by apply was_drafted.
Qed.

Lemma Create_sound now env i d r d' : now ≤ env_now env → sound now d → Create env i d = (r, d') → sound (env_now env) d'.
Proof using UT.
  intros Hn Hs. unfold Create. destruct (validateCreate i).
  { intros [= <- <-]. by eapply sound_mono. }
  intros [(t & a & ab & _ & _ & H)|(e & _ & ->)]%policy_inTx_cases; [|by eapply sound_mono].
  rewrite try_live in H. destruct (CreatePolicy _ _ d) as [[x d1]|e] eqn:E; [|done].
  injection H as _ <- _. by eapply CreatePolicy_sound in E.
Qed.

Lemma transition_sound now env id run d r d' :
  now ≤ env_now env → sound now d → transition env id run d = (r, d') →
  (∀ t x d1, run t d = Ok (x, d1) → sound (env_now env) d1) → sound (env_now env) d'.
Proof using UT.
  intros Hn Hs H Hrun. destruct r as [p|e].
  - apply policy_transition_Ok in H as (t & x & _ & E & _). eauto.
  - unfold transition in H. apply policy_inTx_cases in H as [(? & ? & ? & _ & [=] & _)|(? & _ & ->)]. by eapply sound_mono.
Qed.

Lemma state_row s r : in_state s r = true → row_Status r = s.
Proof using. apply bool_decide_eq_true. Qed.

Ltac by_state :=
  match goal with
  | H1 : row_Status ?r = _, H2 : row_Status ?r = _ |- _ => rewrite H1 in H2; try discriminate H2
  end.

Lemma SubmitForReview_sound now env id who d r d' :
  now ≤ env_now env → sound now d → SubmitForReview env id who d = (r, d') → sound (env_now env) d'.
Proof using UT.
  intros Hn Hs. unfold SubmitForReview. case_bool_decide; [intros [= <- <-]; by eapply sound_mono|].
  intros Hr. eapply transition_sound; [done..|]. intros t x d1 (y & ys & _ & _ & -> & Hck)%policy_update_Ok.
  eapply sound_update; [done..|exact Hck|]. intros z _ [_ Hst%state_row]%andb_true_iff (Hp & Hsup & Hh).
  split_and!; [done..|]. destruct Hh; try by_state.
  apply (was_submitted _ _ (env_now env)); try done; [|simpl; lia].
  split; [done|]. exists who. unfold stringPtr. by rewrite bool_decide_false.
Qed.

Lemma Approve_sound now env id who d r d' :
  now ≤ env_now env → sound now d → Approve env id who d = (r, d') → sound (env_now env) d'.
Proof using UT.
  intros Hn Hs. unfold Approve. case_bool_decide; [intros [= <- <-]; by eapply sound_mono|].
  intros Hr. eapply transition_sound; [done..|]. intros t x d1 (y & ys & _ & _ & -> & Hck)%policy_update_Ok.
  eapply sound_update; [done..|exact Hck|]. intros z _ [_ Hst%state_row]%andb_true_iff (Hp & Hsup & Hh).
  split_and!; [done..|]. destruct Hh as [|a|a b|a b c]; try by_state.
  apply (was_approved _ _ a (env_now env)); try done; simpl; try lia.
  split; [done|]. exists who. unfold stringPtr. by rewrite bool_decide_false.
Qed.

Lemma Publish_sound now env id i d r d' :
  now ≤ env_now env → sound now d → Publish env id i d = (r, d') → sound (env_now env) d'.
Proof using UT.
  intros Hn Hs Hr. destruct r as [p|e].
  - apply policy_Publish_Ok in Hr as (x & Hx & Hid & _ & _ & Hl & _ & _ & -> & Hby & _ & Hck).
    eapply sound_update; [done..|exact Hck|]. intros z Hz [[_ Hk]%policy_at_key Hst%state_row]%andb_true_iff (Hp & Hsup & Hh).
    assert (z = x) as -> by (eapply (NoDup_key_inj row_ID); [apply Hs|done..|congruence]).
    split_and!; [done..|]. destruct Hh as [|a|a b|a b c]; try by_state.
    apply (was_published _ _ a b (env_now env)); try done; simpl; try lia. by split; [|eexists].
  - unfold Publish in Hr. case_bool_decide; [injection Hr as _ <-; by eapply sound_mono|].
    apply policy_inTx_cases in Hr as [(? & ? & ? & _ & [=] & _)|(? & _ & ->)]. by eapply sound_mono.
Qed.

Lemma seed_all_sound now now' t res work rep d rep' se :
  now ≤ now' → sound now d → seed_all now' t res work rep (mkSession d false) = (Ok rep', se) → sound now' (s_db se).
Proof using.
  intros Hn. revert now Hn rep d. induction work as [|[id sp] work IH]; intros now Hn rep d Hs; cbn [seed_all].
  - intros [= _ <-]. by eapply sound_mono.
  - destruct (res _ _) as [[linked missing]|]; [|done]. rewrite try_live.
    destruct (CreatePolicy _ _ d) as [[x d1]|e] eqn:E; [|done]. intros H. apply (IH now' ltac:(done)) in H; [done|].
    by eapply CreatePolicy_sound in E.
Qed.

Lemma Seed_sound now now' infra ids t ps res d r d' :
  now ≤ now' → sound now d → Seed infra now' ids t ps res d = (r, d') → sound now' d'.
Proof using UT.
  intros Hn Hs. unfold Seed. case_bool_decide; [intros [= _ <-]; by eapply sound_mono|].
  destruct (WithTenant _ _); [|intros [= _ <-]; by eapply sound_mono].
  destruct (withTx _ _ _ _) as [r0 se] eqn:E. intros [= _ <-].
  apply (withTx_cases s_db) in E as [(rep & -> & E)|(e & -> & ->)]; [|by eapply sound_mono].
  by eapply seed_all_sound in E.
Qed.

Lemma reachable_sound now d : reachable now d → sound now d.
Proof using UT.
  induction 1 as [now d Hp|now d env i r d' _ IH Hn H|now d env id w r d' _ IH Hn H|now d env id w r d' _ IH Hn H|
                  now d env id i r d' _ IH Hn H|now now' d infra ids t ps res r d' _ IH Hn H|now now' d d' _ IH Hn Hp].
  - split; rewrite Hp; [constructor|by intros ? ?%elem_of_nil].
  - by eapply Create_sound.
  - by eapply SubmitForReview_sound.
  - by eapply Approve_sound.
  - by eapply Publish_sound.
  - by eapply Seed_sound.
  - by eapply sound_mono.
Qed.

(** ** The life cycle as a machine *)

(** The requests that move a policy. *)
Inductive request := Submit (who : string) | Review (who : string) | Release (i : PublishInput).

Definition requester (a : request) : string :=
  match a with Submit who | Review who => who | Release i => pi_PublishedBy i end.

Definition perform (env : Env) (id : UUID) (a : request) : Tx DB Error Policy :=
  match a with
  | Submit who => SubmitForReview env id who
  | Review who => Approve env id who
  | Release i => Publish env id i
  end.

(** What a request makes of one policy. *)
Definition moved (env : Env) (a : request) (r : Row) : result Error Row :=
  match a with
  | Submit who => if in_state StateDraft r then Ok (submit_row (env_now env) (Some who) r) else Err ErrWrongState
  | Review who => if in_state StateUnderReview r then Ok (approve_row (env_now env) (Some who) r) else Err ErrWrongState
  | Release i =>
      if negb (in_state StateApproved r) then Err ErrWrongState
      else if bool_decide (row_LinkedControlIds r = []) then Err ErrOrphanPublish
      else if bool_decide (pi_NewVersion i = "") then Err ErrInvalidVersion
      else Ok (publish_row (env_now env) (truncate_day (default (env_clock env) (pi_EffectiveDate i))) (Some (pi_PublishedBy i)) r)
  end.

(** The policy of an identifier, and the table with that row replaced. *)
Definition policy_at (t id : UUID) (d : DB) : option Row := head (select_where (at_key (pgUUID t) (pgUUID id)) (policies d)).
Definition replace_policy (r : Row) (d : DB) : DB :=
  with_policies d ((λ x, if bool_decide (row_ID x = row_ID r) then r else x) <$> policies d).

Lemma if_none {A} (b : bool) (c : A) k : (if b then Some c else k) = None ↔ b = false ∧ k = None.
Proof using. destruct b; naive_solver. Qed.

Lemma check_row_moves r now who eff :
  check_row r = None →
  (row_Status r = StateDraft → check_row (submit_row now who r) = None) ∧
  (row_Status r = StateUnderReview → check_row (approve_row now who r) = None) ∧
  (row_Status r = StateApproved → check_row (publish_row now eff who r) = None).
Proof using.
  unfold check_row, no_effective_date_states, effective_date_states. rewrite !if_none. cbn.
  intros (? & ? & ? & He & ? & ? & ? & ? & ? & _).
  split_and!; intros Hst; rewrite Hst in He; split_and!; try done.
  all: destruct (row_EffectiveDate r); [by vm_compute in He|by vm_compute].
Qed.

Lemma policy_at_elem t id d r : policy_at t id d = Some r → r ∈ policies d ∧ at_key (pgUUID t) (pgUUID id) r = true.
Proof using.
  unfold policy_at. destruct (select_where _ _) eqn:E; [done|]. intros [= <-]. apply select_cons_elem in E as []. auto.
Qed.

(** The key is unique, so a statement for it touches that row or none. *)
Lemma key_rows now t id d q :
  sound now d →
  select_where (λ x, at_key (pgUUID t) (pgUUID id) x && q x) (policies d) =
  match policy_at t id d with Some r => if q r then [r] else [] | None => [] end.
Proof using.
  intros [Hd _]. unfold policy_at. set (p := at_key (pgUUID t) (pgUUID id)).
  assert (Hp : ∀ x y, p x = true → p y = true → row_ID x = row_ID y).
  { intros x y [_ Hx]%policy_at_key [_ Hy]%policy_at_key. congruence. }
  clearbody p. induction (policies d) as [|x l IH]; [done|]. csimpl in Hd. apply NoDup_cons in Hd as [Hx Hd].
  unfold select_where in *. rewrite !filter_cons. destruct (p x) eqn:Hpx; cbn [andb].
  - rewrite (decide_True (P := true = true)) by done. simpl.
    assert (Hn : ∀ y, y ∈ l → p y = false).
    { intros y Hy. apply not_true_iff_false. intros Hpy. apply Hx. rewrite (Hp x y) by done. by apply list_elem_of_fmap_2. }
    assert (E : filter (λ y, p y && q y = true) l = []) by (apply select_where_none; intros y Hy; by rewrite Hn).
    rewrite E. by destruct (q x).
  - rewrite !(decide_False (P := false = true)) by done. by apply IH.
Qed.

Lemma replace_policy_update now t id d r f q :
  sound now d → policy_at t id d = Some r → q r = true → row_ID (f r) = row_ID r →
  with_policies d (update_where (λ x, at_key (pgUUID t) (pgUUID id) x && q x) f (policies d)) = replace_policy (f r) d.
Proof using.
  intros [Hd _] Hr Hq Hid. apply policy_at_elem in Hr as [Hr Hk]. unfold replace_policy, update_where. f_equal.
  apply map_ext_in. intros x Hx%list_elem_of_In. rewrite Hid. case_bool_decide as He.
  - rewrite (NoDup_key_inj row_ID _ x r Hd Hx Hr He). by rewrite Hk, Hq.
  - destruct (at_key _ _ x) eqn:E; [|done]. apply policy_at_key in E as [_ E], Hk as [_ Hk]. congruence.
Qed.

Lemma update_one_at now by_ t id d q f :
  sound now d → pg_text_opt by_ = true → (∀ r, row_ID (f r) = row_ID r) → (∀ r, q r = true → check_row r = None → check_row (f r) = None) →
  update_one by_ (λ x, at_key (pgUUID t) (pgUUID id) x && q x) f d =
  match policy_at t id d with
  | Some r => if q r then Ok (f r, replace_policy (f r) d) else Err NoRows
  | None => Err NoRows
  end.
Proof using.
  intros Hs Hby Hid Hc. unfold update_one, updated_rows. rewrite Hby, (key_rows now) by done. cbn [negb].
  destruct (policy_at t id d) as [r|] eqn:Hr; [|done]. destruct (q r) eqn:Hq; [|done]. csimpl.
  rewrite Hc; [|done|apply Hs; by apply policy_at_elem in Hr as []].
  by rewrite (replace_policy_update now t id d r f q).
Qed.

Lemma GetPolicyByID_at t id d :
  GetPolicyByID (pgUUID t) (pgUUID id) d = match policy_at t id d with Some r => Ok (r, d) | None => Err NoRows end.
Proof using. unfold GetPolicyByID, policy_at. by destruct (select_where _ _). Qed.

Lemma policy_inTx_healthy {A} env t (fn : UUID → Tx (Session DB) Error A) d :
  env_infra env = healthy → tenant_of (env_ctx env) = Some t →
  Policy.inTx env fn d = match fn t (mkSession d false) with (Ok a, se) => (Ok a, s_db se) | (Err e, _) => (Err e, d) end.
Proof using UT.
  intros Hi Ht. unfold Policy.inTx. rewrite Hi, (inTx_healthy s_db _ t) by done. by destruct (fn t _) as [[] ?].
Qed.

(** The outcome of a transition whose statement is an update of the addressed row. *)
Lemma transition_at now env t id by_ q f d :
  sound now d → env_infra env = healthy → tenant_of (env_ctx env) = Some t → pg_text_opt by_ = true →
  (∀ r, row_ID (f r) = row_ID r) → (∀ r, q r = true → check_row r = None → check_row (f r) = None) →
  transition env id (λ t, update_one by_ (λ x, at_key (pgUUID t) (pgUUID id) x && q x) f) d =
  match policy_at t id d with
  | None => (Err ErrNotFound, d)
  | Some r => if q r then (Ok (policyFromRow (f r)), replace_policy (f r) d) else (Err ErrWrongState, d)
  end.
Proof using UT.
  intros Hs Hi Ht Hby Hid Hc. unfold transition. rewrite (policy_inTx_healthy _ t), try_live, (update_one_at now) by done.
  destruct (policy_at t id d) as [r|] eqn:Hr.
  2: { change (negb (bool_decide (NoRows = NoRows))) with false. by rewrite try_live, GetPolicyByID_at, Hr. }
  destruct (q r); [done|]. change (negb (bool_decide (NoRows = NoRows))) with false. by rewrite try_live, GetPolicyByID_at, Hr.
Qed.

Lemma Publish_at now env t id i d :
  sound now d → env_infra env = healthy → tenant_of (env_ctx env) = Some t → pi_PublishedBy i ≠ "" → pg_text (pi_PublishedBy i) = true →
  Publish env id i d =
  match policy_at t id d with
  | None => (Err ErrNotFound, d)
  | Some r => match moved env (Release i) r with Err e => (Err e, d) | Ok r' => (Ok (policyFromRow r'), replace_policy r' d) end
  end.
Proof using UT.
  intros Hs Hi Ht Hne Hby. unfold Publish. rewrite bool_decide_false by done.
  rewrite (policy_inTx_healthy _ t), try_live, GetPolicyByID_at by done.
  destruct (policy_at t id d) as [r|] eqn:Hr; [|done]. unfold moved.
  destruct (in_state StateApproved r) eqn:Hst; cbn [negb]; [|done]. case_bool_decide; [done|]. case_bool_decide; [done|].
  destruct (proj2 Hs r) as [(Hp & _) Hc]; [by apply policy_at_elem in Hr as []|]. rewrite Hp.
  unfold publish_first. rewrite try_live. unfold PublishApprovedPolicy, stringPtr. rewrite bool_decide_false by done.
  rewrite (update_one_at now); [|done..|].
  2: { intros x Hx%state_row Hcx. by apply check_row_moves. }
  by rewrite Hr, Hst.
Qed.

(** C27: the life cycle of a policy.  In every state the store can reach, a request
    to submit, approve or publish, made by a named actor over a healthy connection,
    does to the one policy it addresses in the caller's tenant what the machine
    [moved] says and returns it, leaves every other policy alone, and otherwise
    changes nothing and says why: not found, wrong state, no linked control or no
    version. *)
Theorem lifecycle_refines now env t id a d :
  reachable now d → env_infra env = healthy → tenant_of (env_ctx env) = Some t →
  requester a ≠ "" → pg_text (requester a) = true →
  perform env id a d =
  match policy_at t id d with
  | None => (Err ErrNotFound, d)
  | Some r => match moved env a r with Err e => (Err e, d) | Ok r' => (Ok (policyFromRow r'), replace_policy r' d) end
  end.
Proof using UT.
  intros Hs%reachable_sound Hi Ht Hne Hby. destruct a as [who|who|i]; cbn [perform requester moved] in *.
  - unfold SubmitForReview, SubmitPolicyForReview, stringPtr. rewrite !bool_decide_false by done.
    rewrite (transition_at now env t); [by destruct (policy_at t id d) as [r|]; [destruct (in_state _ r)|]|done..|].
    intros r Hr%state_row Hc. by apply check_row_moves.
  - unfold Approve, ApprovePolicy, stringPtr. rewrite !bool_decide_false by done.
    rewrite (transition_at now env t); [by destruct (policy_at t id d) as [r|]; [destruct (in_state _ r)|]|done..|].
    intros r Hr%state_row Hc. by apply check_row_moves.
  - by apply (Publish_at now).
Qed.

(** C28: what is published was reviewed.  In every state the store can reach, a
    published policy was submitted, approved and published, in that order in time and
    each by a named actor, and it has linked controls. *)
Theorem published_was_reviewed now d r :
  reachable now d → r ∈ policies d → row_Status r = StatePublished →
  ∃ a b c, stamped (row_SubmittedAt r) (row_SubmittedBy r) a ∧ stamped (row_ApprovedAt r) (row_ApprovedBy r) b ∧
    stamped (row_PublishedAt r) (row_PublishedBy r) c ∧ row_CreatedAt r ≤ a ≤ b ∧ b ≤ c ≤ now ∧ row_LinkedControlIds r ≠ [].
Proof using UT.
  intros [_ Hs]%reachable_sound Hr Hst. destruct (Hs r Hr) as [(_ & _ & Hh) _].
  destruct Hh as [|a|a b|a b c]; try by_state. exists a, b, c. split_and!; (done || lia).
Qed.

(** Publication never makes a new version.  From any state of the tables, a
    publication that succeeds updates the approved row in place: that row has no
    predecessor, keeps its version whatever version was asked for, and no row is
    added or superseded. *)
Theorem Publish_never_supersedes env id i d p d' :
  Publish env id i d = (Ok p, d') →
  (∃ r, r ∈ policies d ∧ row_ID r = id ∧ row_PredecessorID r = None ∧ Version p = row_Version r ∧ ID p = id) ∧
  length (policies d') = length (policies d) ∧
  ∀ x, x ∈ policies d' → row_Status x = StateSuperseded → x ∈ policies d.
Proof using UT.
  intros (r & Hr & Hid & _ & _ & _ & Hp & -> & -> & _)%policy_Publish_Ok. split_and!.
  - by exists r.
  - cbn [policies with_policies]. unfold update_where. apply length_map.
  - cbn [policies with_policies]. intros x (y & Hy & ->)%elem_of_update_where Hst. by case_match.
Qed.

(** The recursive query of a policy nothing succeeds. *)
Lemma chain_single d r :
  (∀ x, x ∈ policies d → row_PredecessorID x = None) → chain_rounds (chain_fuel d) (policies d) [r] = Some [r].
Proof using.
  intros Hp. unfold chain_fuel. cbn [chain_rounds mbind list_bind].
  rewrite app_nil_r, select_where_none; [by destruct (length (policies d))|].
  intros x Hx. by rewrite Hp.
Qed.

(** The history of a policy is the policy.  In every state the store can reach,
    the version chain ends, and holds the policy asked for and nothing else. *)
Lemma version_history_is_single now env t id d :
  reachable now d → env_infra env = healthy → tenant_of (env_ctx env) = Some t →
  VersionChain env id d = (Ok (Some (policyFromRow <$> option_list (policy_at t id d))), d).
Proof using UT.
  intros Hs%reachable_sound Hi Ht. unfold VersionChain. rewrite (policy_inTx_healthy _ t) by done. rewrite try_live.
  unfold query, ListPolicyVersionChain. pose proof (key_rows now t id d (λ _, true) Hs) as Hk.
  rewrite (select_where_ext _ (at_key (pgUUID t) (pgUUID id))) in Hk by (intros; apply andb_true_r). rewrite Hk.
  destruct (policy_at t id d) as [r|]; [|done].
  rewrite chain_single; [done|]. intros x Hx. by destruct (proj2 Hs x Hx) as [[? _] _].
Qed.

End Calls.
End PolicySpec.
