(* ===== verification/PolicyAckSpec.v ===== *)
(** * Acknowledgements count once a day, last a year, and make an honest rate *)

From S2P Require Import Prelude GoTime Tenancy Json Sha256 Float64 TimeText Postgres Policy PolicyAck PolicySpec.
Import Policy PolicyAck PolicySpec.

Module PolicyAckSpec.

Section Acks.
Context {UT : UUIDText}.

Lemma ack_inTx_cases {A} env (fn : UUID → Tx (Session DB) AckError A) d r d' :
  ack_inTx env fn d = (r, d') →
  (∃ t a se, tenant_of (ae_ctx env) = Some t ∧ r = Ok a ∧ fn t (mkSession d false) = (Ok a, se) ∧ d' = arrive env (s_db se)) ∨
  (∃ e, r = Err e ∧ d' = arrive env d).
Proof using UT.
  unfold ack_inTx. destruct (Tenancy.inTx _ _ _ _) as [r0 se] eqn:E. intros [= -> <-].
  apply (inTx_cases s_db) in E as [(t & a & ? & ? & ?)|(e & ? & ->)]; [left|right]; eauto 10.
Qed.

Lemma ack_inTx_healthy {A} env t (fn : UUID → Tx (Session DB) AckError A) d :
  ae_infra env = healthy → tenant_of (ae_ctx env) = Some t →
  ack_inTx env fn d =
  match fn t (mkSession d false) with (Ok a, se) => (Ok a, arrive env (s_db se)) | (Err e, _) => (Err e, arrive env d) end.
Proof using UT.
  intros Hi Ht. unfold ack_inTx. rewrite Hi, (inTx_healthy s_db _ t) by done. by destruct (fn t _) as [[] ?].
Qed.

(** ** Tokens *)

Lemma DeriveAckToken_day u p t t' : day_of t = day_of t' → DeriveAckToken u p t = DeriveAckToken u p t'.
Proof using. intros H. unfold DeriveAckToken, FormatDate. by rewrite H. Qed.

Lemma DeriveAckToken_nonempty u p t : DeriveAckToken u p t ≠ "".
Proof using. done. Qed.

Definition observed (env : AckEnv) (i : RecordInput) : Time := if IsZero (ri_ObservedAt i) then ae_clock env else ri_ObservedAt i.
Definition token_of (env : AckEnv) (i : RecordInput) : string :=
  DeriveAckToken (UserID (ri_Caller i)) (uuid_String (ri_PolicyID i)) (observed env i).

(** The acknowledgement a tenant holds under a token. *)
Definition ack_at (t : UUID) (token : string) (d : DB) : option AckRow :=
  head (select_where (λ a, bool_decide (Some (ar_TenantID a) = pgUUID t) && bool_decide (ar_AckToken a = token)) (acknowledgments d)).

Lemma GetAcknowledgmentByToken_at t token d :
  GetAcknowledgmentByToken (pgUUID t) token d = match ack_at t token d with Some a => Ok (a, d) | None => Err NoRows end.
Proof using. unfold GetAcknowledgmentByToken, ack_at. by destruct (select_where _ _). Qed.

Lemma ack_at_more t token d more d' a :
  acknowledgments d' = acknowledgments d ++ more → ack_at t token d = Some a → ack_at t token d' = Some a.
Proof using. unfold ack_at. intros ->. rewrite select_where_app. by destruct (select_where _ (acknowledgments d)). Qed.

(** The row an insertion stores. *)
Definition new_ack (env : AckEnv) (i : RecordInput) (t u : UUID) : AckRow :=
  mkAckRow (ae_newID env) t (ri_PolicyID i) (ri_PolicyID i) u (to_micros (observed env i)) (token_of env i)
    (pgUUIDPtr (ri_EvidenceRecordID i)) (ae_now env).

Lemma InsertPolicyAcknowledgment_Ok env i t u d r d' :
  InsertPolicyAcknowledgment (ae_now env) (ae_rivals env)
    (mkAckParams (pgUUID (ae_newID env)) (pgUUID t) (pgUUID (ri_PolicyID i)) (pgUUID (ri_PolicyID i)) (pgUUID u) (observed env i)
       (token_of env i) (pgUUIDPtr (ri_EvidenceRecordID i))) d = Ok (r, d') →
  r = new_ack env i t u ∧ d' = with_acks d (acknowledgments d ++ [r]) ∧ pgUUID t = Some t ∧ pgUUID u = Some u.
Proof using.
  unfold InsertPolicyAcknowledgment. cbn [ia_ID ia_TenantID ia_PolicyID ia_PolicyVersionID ia_UserID ia_AcknowledgedAt ia_AckToken ia_EvidenceRecordID].
  destruct (pgUUID (ae_newID env)) as [n|] eqn:E1, (pgUUID t) as [t'|] eqn:E2, (pgUUID (ri_PolicyID i)) as [p|] eqn:E3,
    (pgUUID u) as [u'|] eqn:E4; try done.
  apply pgUUID_Some in E1, E3. pose proof (pgUUID_Some _ _ E2). pose proof (pgUUID_Some _ _ E4). subst.
  case_match; [done|]. case_match; [done|]. case_match; [|done]. by intros [= <- <-].
Qed.

(** What a recorded acknowledgement is: found under the token, or new. *)
Lemma record_tx_Ok env i u t d a se :
  record_tx env i u (observed env i) (token_of env i) t (mkSession d false) = (Ok a, se) →
  ∃ row p, ack_at t (token_of env i) (s_db se) = Some row ∧ policy_at t (ri_PolicyID i) d = Some p ∧
    row_Status p = StatePublished ∧ rolesIntersect (ri_Caller i) (row_AcknowledgmentRequiredRoles p) = true ∧
    policies (s_db se) = policies d ∧
    (a = ackFromRow row true ∧ s_db se = d ∨
     a = ackFromRow row false ∧ row = new_ack env i t u ∧ pgUUID u = Some u ∧ acknowledgments (s_db se) = acknowledgments d ++ [row]).
Proof using.
  unfold record_tx. rewrite try_live. unfold GetPolicyForAcknowledge. rewrite GetPolicyByID_at.
  destruct (policy_at t (ri_PolicyID i) d) as [p|] eqn:Hp; [|done].
  destruct (in_state StatePublished p) eqn:Hst; [|done]. apply state_row in Hst. cbn [negb].
  destruct (rolesIntersect _ _) eqn:Hro; [|done]. cbn [negb]. rewrite try_live, GetAcknowledgmentByToken_at.
  destruct (ack_at t (token_of env i) d) as [row|] eqn:Ha.
  { intros [= <- <-]. exists row, p. cbn [s_db]. split_and!; try done. by left. }
  change (negb (bool_decide (NoRows = NoRows))) with false. rewrite try_live.
  destruct (InsertPolicyAcknowledgment _ _ _ d) as [[row d1]|e] eqn:E.
  - apply InsertPolicyAcknowledgment_Ok in E as (Hrow & -> & Hpt & Hpu). intros [= <- <-]. exists row, p. cbn [s_db policies with_acks].
    split_and!; try done; [|by right]. unfold ack_at in *. cbn [acknowledgments with_acks]. rewrite select_where_app.
    destruct (select_where _ (acknowledgments d)); [|done]. unfold select_where. rewrite app_nil_l, filter_cons_True; [done|].
    subst row. cbn [ar_TenantID ar_AckToken new_ack]. rewrite Hpt. by rewrite !bool_decide_true.
  - by destruct e.
Qed.

Lemma Record_Ok env i d a d' :
  Record_ env i d = (Ok a, d') →
  ∃ t u row p more, tenant_of (ae_ctx env) = Some t ∧ uuid_Parse (UserID (ri_Caller i)) = Some u ∧ ri_PolicyID i ≠ uuid_Nil ∧ UserID (ri_Caller i) ≠ "" ∧
    ack_at t (token_of env i) d' = Some row ∧ policy_at t (ri_PolicyID i) d = Some p ∧
    row_Status p = StatePublished ∧ rolesIntersect (ri_Caller i) (row_AcknowledgmentRequiredRoles p) = true ∧
    policies d' = policies d ∧ acknowledgments d' = acknowledgments d ++ more ∧
    (a = ackFromRow row true ∨ a = ackFromRow row false ∧ row = new_ack env i t u ∧ pgUUID u = Some u ∧ row ∈ acknowledgments d').
Proof using UT.
  unfold Record_. case_bool_decide as Hnil; [done|]. case_bool_decide as Hu; [done|]. destruct (uuid_Parse _) as [u|] eqn:Hpu; [|done].
  intros [(t & a' & se & Ht & [= <-] & H & ->)|(e & [=] & _)]%ack_inTx_cases.
  apply record_tx_Ok in H as (row & p & Hat & Hp & Hst & Hro & Hpol & Hcase).
  exists t, u, row, p. destruct Hcase as [[-> Hd]|(-> & Hrow & Hpu' & Hd)].
  - exists (ae_rivals env). split_and!; try done; [|by rewrite <- Hd|by left].
    by apply (ack_at_more _ _ (s_db se) (ae_rivals env)).
  - exists (row :: ae_rivals env). split_and!; try done.
    + by apply (ack_at_more _ _ (s_db se) (ae_rivals env)).
    + unfold arrive. cbn [acknowledgments with_acks]. by rewrite Hd, <- app_assoc.
    + right. split_and!; [done..|]. unfold arrive. cbn [acknowledgments with_acks]. rewrite Hd. set_solver.
Qed.

(** A call that finds the token returns what it found. *)
Lemma Record_found env i t u p row d :
  ae_infra env = healthy → tenant_of (ae_ctx env) = Some t → uuid_Parse (UserID (ri_Caller i)) = Some u →
  UserID (ri_Caller i) ≠ "" → ri_PolicyID i ≠ uuid_Nil → policy_at t (ri_PolicyID i) d = Some p → row_Status p = StatePublished →
  rolesIntersect (ri_Caller i) (row_AcknowledgmentRequiredRoles p) = true → ack_at t (token_of env i) d = Some row →
  Record_ env i d = (Ok (ackFromRow row true), arrive env d).
Proof using UT.
  intros Hi Ht Hpu Hu Hnil Hp Hst Hro Hat. unfold Record_. rewrite bool_decide_false, bool_decide_false, Hpu by done.
  rewrite (ack_inTx_healthy _ t) by done. change (if IsZero (ri_ObservedAt i) then ae_clock env else ri_ObservedAt i) with (observed env i).
  fold (token_of env i). unfold record_tx, GetPolicyForAcknowledge. rewrite try_live, GetPolicyByID_at, Hp.
  assert (Hst' : in_state StatePublished p = true) by (by apply bool_decide_eq_true). rewrite Hst', Hro. cbn [negb].
  by rewrite try_live, GetAcknowledgmentByToken_at, Hat.
Qed.

(** An acknowledgement counts once a day.  After an acknowledgement was
    recorded, a second one of the same policy by the same caller on the same UTC day,
    whatever other acknowledgements came in between, returns the first, marked as a
    duplicate, and adds nothing. *)
Lemma record_once_a_day env env' i i' d a d1 d2 more :
  Record_ env i d = (Ok a, d1) →
  policies d2 = policies d1 → acknowledgments d2 = acknowledgments d1 ++ more →
  ri_PolicyID i' = ri_PolicyID i → ri_Caller i' = ri_Caller i → day_of (observed env' i') = day_of (observed env i) →
  ae_ctx env' = ae_ctx env → ae_infra env' = healthy →
  Record_ env' i' d2 =
  (Ok (mkAck (ack_ID a) (ack_PolicyID a) (ack_PolicyVersionID a) (ack_UserID a) (ack_AcknowledgedAt a) (ack_Token a)
         (ack_EvidenceRecordID a) true), arrive env' d2).
Proof using UT.
  intros (t & u & row & p & more0 & Ht & Hpu & Hnil & Hu & Hat & Hp & Hst & Hro & Hpol & Hacks & Ha)%Record_Ok
    Hp2 Ha2 Hid Hc Hday Hctx Hi.
  assert (Htok : token_of env' i' = token_of env i) by (unfold token_of; rewrite Hid, Hc; by apply DeriveAckToken_day).
  rewrite (Record_found env' i' t u p row); rewrite ?Hid, ?Hc, ?Hctx, ?Htok; try done.
  - by destruct Ha as [->|[-> _]].
  - unfold policy_at. by rewrite Hp2, Hpol.
  - by eapply ack_at_more.
Qed.

(** ** Pending *)

Lemma rolesIntersect_spec caller required :
  rolesIntersect caller required = true ↔ IsAdmin caller = true ∨ overlap required (OwnerRoles caller) = true.
Proof using.
  unfold rolesIntersect. destruct (IsAdmin caller); [naive_solver|]. rewrite overlap_spec.
  destruct (decide (required = [])) as [->|Hr]; [rewrite bool_decide_true by done; set_solver|].
  destruct (decide (OwnerRoles caller = [])) as [->|Ho]; [rewrite orb_comm, bool_decide_true by done; set_solver|].
  rewrite !bool_decide_false by done. cbn [orb]. rewrite existsb_exists. setoid_rewrite <- list_elem_of_In.
  setoid_rewrite bool_decide_eq_true. setoid_rewrite elem_of_list_to_set. naive_solver.
Qed.

(** The acknowledgements of a version by a user. *)
Definition acks_of (u : UUID) (d : DB) (p : Row) (a : AckRow) : Prop :=
  a ∈ acknowledgments d ∧ ar_TenantID a = row_TenantID p ∧ pgUUID u = Some (ar_UserID a) ∧ ar_PolicyVersionID a = row_ID p.

Lemma latest_ack_before u d p cutoff :
  match latest_ack (pgUUID u) d p with Some t => t < cutoff | None => True end ↔
  ∀ a, acks_of u d p a → ar_AcknowledgedAt a < cutoff.
Proof using.
  unfold latest_ack.
  set (l := select_where _ _).
  assert (Hl : ∀ a, a ∈ l ↔ acks_of u d p a).
  { intros a. unfold l, acks_of. rewrite elem_of_select_where, !andb_true_iff, !bool_decide_eq_true. naive_solver. }
  transitivity (∀ a, a ∈ l → ar_AcknowledgedAt a < cutoff); [|by setoid_rewrite Hl]. clear Hl. clearbody l.
  induction l as [|a l IH]; [set_solver|]. cbn [foldr]. setoid_rewrite elem_of_cons.
  destruct (foldr _ None l) as [m|] eqn:E.
  - rewrite Z.max_lub_lt_iff, IH. naive_solver.
  - assert (Hnil : l = []) by (destruct l; [done|by cbn [foldr] in E]). subst l.
    split; [intros ? ? [->|?%elem_of_nil]; done|intros H; apply H; by left].
Qed.

Section Pending.
Context (collate : string → string → Prop) `{!RelDecision collate} {PL : Planner}.

Lemma PendingForUser_Ok env caller d l d' :
  PendingForUser collate env caller d = (Ok l, d') →
  ∃ t u, tenant_of (ae_ctx env) = Some t ∧ uuid_Parse (UserID caller) = Some u ∧
    ∀ id, id ∈ (pd_PolicyVersionID <$> l) ↔
      ∃ p, p ∈ policies d ∧ row_ID p = id ∧ must_acknowledge (pgUUID t) (IsAdmin caller) (OwnerRoles caller) p = true ∧
        ∀ a, acks_of u d p a → ar_AcknowledgedAt a < ae_clock env - AcknowledgmentFreshness.
Proof using UT.
  unfold PendingForUser. case_bool_decide; [done|]. destruct (uuid_Parse _) as [u|] eqn:Hu; [|done].
  intros [(t & l' & se & Ht & [= <-] & E & _)|(e & [=] & _)]%ack_inTx_cases. exists t, u. split_and!; [done..|].
  rewrite try_live in E. destruct (forallb _ _); [|done]. injection E as <- _. intros id.
  rewrite list_elem_of_fmap. setoid_rewrite list_elem_of_omap.
  setoid_rewrite list_elem_of_fmap. setoid_rewrite merge_sort_Permutation.
  setoid_rewrite elem_of_plan. setoid_rewrite elem_of_select_where. setoid_rewrite <- latest_ack_before.
  unfold pending_of, Before. split.
  - intros (pd & -> & pr & (p & -> & Hm & Hp) & Hsome). exists p. cbn [pr_LatestAckAt pr_ID] in Hsome.
    destruct (latest_ack _ d p) as [m|]; [|by injection Hsome as <-].
    case_bool_decide; [|done]. by injection Hsome as <-.
  - intros (p & Hp & <- & Hm & Hl).
    exists (mkPending (row_ID p) (row_ID p) (row_Title p) (row_Version p) (row_EffectiveDate p) (row_AcknowledgmentRequiredRoles p)
              (latest_ack (pgUUID u) d p)).
    split; [done|]. eexists. split; [by exists p|]. cbn [pr_LatestAckAt pr_ID].
    destruct (latest_ack _ d p) as [m|]; [by rewrite bool_decide_true|done].
Qed.

(** An acknowledgement lasts a year.  After a new acknowledgement was recorded,
    the policy is off the caller's list of pending acknowledgements for as long as
    the acknowledgement is not older than 365 days, whatever else was acknowledged;
    and once every acknowledgement of it by the caller is older, it is on the list
    again, provided it asks any role for one. *)
Theorem acknowledgement_lasts_a_year env env' i d a d1 d2 more l d3 :
  Record_ env i d = (Ok a, d1) → ack_Deduplicated a = false →
  policies d2 = policies d1 → acknowledgments d2 = acknowledgments d1 ++ more →
  ae_ctx env' = ae_ctx env → PendingForUser collate env' (ri_Caller i) d2 = (Ok l, d3) →
  (ae_clock env' - AcknowledgmentFreshness ≤ ack_AcknowledgedAt a → ri_PolicyID i ∉ (pd_PolicyVersionID <$> l)) ∧
  ((∀ x, x ∈ acknowledgments d2 → ar_UserID x = ack_UserID a → ar_AcknowledgedAt x < ae_clock env' - AcknowledgmentFreshness) →
   (∀ p, p ∈ policies d2 → row_ID p = ri_PolicyID i → row_AcknowledgmentRequiredRoles p ≠ []) →
   ri_PolicyID i ∈ (pd_PolicyVersionID <$> l)).
Proof using UT.
  intros (t & u & row & p & more0 & Ht & Hpu & Hnil & Hu & Hat & Hp & Hst & Hro & Hpol & Hacks & Ha)%Record_Ok
    Hnew Hp2 Ha2 Hctx (t' & u' & Ht' & Hu' & Hl)%PendingForUser_Ok.
  rewrite Hctx, Ht in Ht'. injection Ht' as <-. rewrite Hpu in Hu'. injection Hu' as <-.
  destruct Ha as [->|(-> & Hrow & Hpgu & Hin)]; [done|]. rewrite !Hl. apply policy_at_elem in Hp as [Hp [Htp Hip]%policy_at_key]. split.
  - intros Hfresh (q & Hq & Hid & Hm & Hall). unfold must_acknowledge in Hm. rewrite !andb_true_iff, !bool_decide_eq_true in Hm.
    destruct Hm as [[[Htq _] _] _]. symmetry in Htq. apply pgUUID_Some in Htq.
    assert (Hlt : ar_AcknowledgedAt row < ae_clock env' - AcknowledgmentFreshness); [|simpl in *; lia].
    apply Hall. unfold acks_of. rewrite Ha2. subst row. cbn. split_and!; [set_solver|done..].
  - intros Hall Hroles. symmetry in Hip. apply pgUUID_Some in Hip. exists p. rewrite Hp2, Hpol. split_and!; [done..| |].
    + unfold must_acknowledge. rewrite <- Htp, bool_decide_true by done. rewrite !andb_true_iff. split_and!; [done| | |].
      * by apply bool_decide_eq_true.
      * apply bool_decide_eq_true. apply Hroles; [by rewrite Hp2, Hpol|done].
      * apply rolesIntersect_spec in Hro. by apply orb_true_iff.
    + intros x (Hx & _ & Hux & _). apply Hall; [done|]. subst row. cbn. congruence.
Qed.
End Pending.

(** ** The rate *)

(** A user holds a live key that makes an acknowledgement due. *)
Definition due (t : UUID) (roles : list string) (d : DB) (u : UUID) : Prop :=
  ∃ k, k ∈ api_keys d ∧ pgUUID t = Some (ak_TenantID k) ∧ ak_IssuedBy k = Some u ∧ key_counts roles k = true.

Definition acked_since (t id : UUID) (cutoff : Time) (d : DB) (u : UUID) : Prop :=
  ∃ a, a ∈ acknowledgments d ∧ pgUUID t = Some (ar_TenantID a) ∧ pgUUID id = Some (ar_PolicyVersionID a) ∧ ar_UserID a = u ∧
    cutoff ≤ ar_AcknowledgedAt a.

Lemma elem_of_required_users t roles d u : u ∈ required_users (pgUUID t) roles d ↔ due t roles d u.
Proof using.
  unfold required_users, due. rewrite elem_of_remove_dups, list_elem_of_omap.
  split; intros (k & Hk); exists k; revert Hk; rewrite elem_of_select_where, (andb_true_iff _ (key_counts _ _)), bool_decide_eq_true;
    intuition congruence.
Qed.

Lemma elem_of_acked_users t id cutoff roles d u :
  u ∈ acked_users (pgUUID t) (pgUUID id) cutoff roles d ↔ due t roles d u ∧ acked_since t id cutoff d u.
Proof using.
  unfold acked_users, due, acked_since. rewrite elem_of_remove_dups, list_elem_of_fmap. split.
  - intros (a & -> & [Hsel Ha]%elem_of_select_where). apply andb_true_iff in Hsel as [Hsel (k & Hk%list_elem_of_In & Hkey)%existsb_exists].
    rewrite !andb_true_iff, !bool_decide_eq_true in Hsel. apply andb_true_iff in Hkey as [Hkey Hkc].
    rewrite !andb_true_iff, !bool_decide_eq_true in Hkey. destruct Hsel as [[Ht Hv] Hc], Hkey as [Hkt Hki].
    split; [|by exists a]. exists k. rewrite Hkt. by split_and!.
  - intros [(k & Hk & Hkt & Hki & Hkc) (a & Ha & Hat & Hav & <- & Hc)]. exists a. split; [done|]. apply elem_of_select_where.
    split; [|done]. rewrite Hat, Hav, !bool_decide_true by done. apply existsb_exists. exists k. split; [by apply list_elem_of_In|].
    rewrite Hkc, !bool_decide_true by congruence. done.
Qed.

(** The rate is honest.  A rate that is returned is that of a published policy;
    its denominator counts, each once, the users who must acknowledge it, its
    numerator those of them who did within the window, so it is never above the
    denominator, and there is no percentage exactly when nobody must. *)
Theorem rate_counts_due_users env id d r d' :
  Rate env id d = (Ok r, d') →
  ∃ t p us as_, tenant_of (ae_ctx env) = Some t ∧ policy_at t id d = Some p ∧ row_Status p = StatePublished ∧
    NoDup us ∧ (∀ u, u ∈ us ↔ due t (row_AcknowledgmentRequiredRoles p) d u) ∧ Denominator r = Z.of_nat (length us) ∧
    NoDup as_ ∧
    (∀ u, u ∈ as_ ↔ u ∈ us ∧ acked_since t id (to_micros (ae_clock env - AcknowledgmentFreshness)) d u) ∧
    Numerator r = Z.of_nat (length as_) ∧
    Numerator r ≤ Denominator r ∧ (Percent r = None ↔ us = []).
Proof using UT.
  unfold Rate. intros [(t & a & se & Ht & [= <-] & E & _)|(e & [=] & _)]%ack_inTx_cases. rewrite try_live in E.
  unfold GetPolicyForAcknowledge in E. rewrite GetPolicyByID_at in E. destruct (policy_at t id d) as [p|] eqn:Hp; [|done].
  destruct (in_state StatePublished p) eqn:Hst; [|done]. cbn [negb] in E. rewrite try_live in E. unfold query in E at 1. rewrite try_live in E.
  injection E as <- _. apply state_row in Hst.
  set (us := required_users (pgUUID t) (row_AcknowledgmentRequiredRoles p) d).
  set (as_ := acked_users (pgUUID t) (pgUUID id) (to_micros (ae_clock env - AcknowledgmentFreshness)) (row_AcknowledgmentRequiredRoles p) d).
  assert (Hus : NoDup us) by apply NoDup_remove_dups. assert (Has : NoDup as_) by apply NoDup_remove_dups.
  exists t, p, us, as_. cbn [Denominator Numerator Percent]. split_and!; try done.
  - intros u. apply elem_of_required_users.
  - intros u. unfold as_, us. by rewrite elem_of_acked_users, elem_of_required_users.
  - unfold CountFreshAcksForVersion, CountRequiredRoleUsersForVersion. fold us as_. apply inj_le, submseteq_length.
    apply NoDup_submseteq; [done|]. intros u. unfold as_, us. rewrite elem_of_acked_users, elem_of_required_users. naive_solver.
  - unfold percent, CountRequiredRoleUsersForVersion. fold us. destruct us as [|u us']; [done|].
    rewrite (proj2 (Z.ltb_lt _ _)) by (cbn [length]; lia). done.
Qed.

(** ** A race *)

(** An acknowledgement that loses a race fails.  When the token is taken between
    the look-up and the insertion, the call reports the violated constraint instead
    of the acknowledgement that won, and adds nothing of its own. *)
Lemma lost_ack_race_fails env i t u p x d :
  ae_infra env = healthy → tenant_of (ae_ctx env) = Some t → uuid_Parse (UserID (ri_Caller i)) = Some u →
  UserID (ri_Caller i) ≠ "" → ri_PolicyID i ≠ uuid_Nil → t ≠ uuid_Nil → u ≠ uuid_Nil → ae_newID env ≠ uuid_Nil →
  policy_at t (ri_PolicyID i) d = Some p → row_Status p = StatePublished →
  rolesIntersect (ri_Caller i) (row_AcknowledgmentRequiredRoles p) = true → observed env i ≤ ae_now env →
  ack_at t (token_of env i) d = None → x ∈ ae_rivals env → ar_TenantID x = t → ar_AckToken x = token_of env i →
  Record_ env i d = (Err (ErrAckStatement "insert" UniqueViolation), arrive env d).
Proof using UT.
  intros Hi Ht Hpu Hu Hnil Htn Hun Hin Hp Hst Hro Hobs Hat Hx Hxt Hxk.
  unfold Record_. rewrite bool_decide_false, bool_decide_false, Hpu by done. rewrite (ack_inTx_healthy _ t) by done.
  change (if IsZero (ri_ObservedAt i) then ae_clock env else ri_ObservedAt i) with (observed env i). fold (token_of env i).
  unfold record_tx, GetPolicyForAcknowledge. rewrite try_live, GetPolicyByID_at, Hp.
  assert (Hst' : in_state StatePublished p = true) by (by apply bool_decide_eq_true). rewrite Hst', Hro. cbn [negb].
  rewrite try_live, GetAcknowledgmentByToken_at, Hat. change (negb (bool_decide (NoRows = NoRows))) with false. rewrite try_live.
  assert (E : InsertPolicyAcknowledgment (ae_now env) (ae_rivals env)
    (mkAckParams (pgUUID (ae_newID env)) (pgUUID t) (pgUUID (ri_PolicyID i)) (pgUUID (ri_PolicyID i)) (pgUUID u) (observed env i)
       (token_of env i) (pgUUIDPtr (ri_EvidenceRecordID i))) d = Err UniqueViolation); [|by rewrite E].
  unfold InsertPolicyAcknowledgment, pgUUID. cbn [ia_ID ia_TenantID ia_PolicyID ia_PolicyVersionID ia_UserID ia_AcknowledgedAt ia_AckToken ia_EvidenceRecordID].
  rewrite !bool_decide_false by done. cbn [ar_AcknowledgedAt]. rewrite bool_decide_false.
  2: { unfold to_micros. pose proof (Z.mul_div_le (observed env i) 1000). unfold ns_per_second. lia. }
  rewrite (proj2 (existsb_exists _ _)); [done|]. exists x. split; [apply list_elem_of_In; set_solver|].
  unfold ack_conflicts. cbn. rewrite Hxt, Hxk. apply orb_true_iff. right. by rewrite !bool_decide_true.
Qed.

End Acks.
End PolicyAckSpec.
