(* ===== verification/PolicyApiSpec.v ===== *)
(** * The policy handlers agree with the stores and with each other *)

From S2P Require Import Prelude GoTime Tenancy Json Sha256 Float64 TimeText Scope GoJson EvalState Postgres Redact RedactSpec EvidenceRecord Ingest Http EvidenceVerify IngestSpec Policy PolicyAck PolicyApi PolicyAckApi PolicySpec PolicyAckSpec.
Import Policy PolicyAck PolicyApi PolicyAckApi PolicySpec PolicyAckSpec.

Module PolicyApiSpec.

Section Api.
Context {UT : UUIDText}.

(** ** Gates *)

Lemma tenantCredContext_Some r ctx cred : tenantCredContext r = Some (ctx, cred) → ctx = rq_ctx r ∧ rq_cred r = Some cred.
Proof using.
  unfold tenantCredContext. destruct (rq_cred r) as [c|]; [|done]. case_bool_decide; [done|]. case_match; [|done]. by intros [= <- <-].
Qed.

(** A call that changes a table ran in a tenant. *)
Lemma policy_inTx_changes {A} env (fn : UUID → Tx (Session DB) Error A) d :
  (Policy.inTx env fn d).2 ≠ d → is_Some (tenant_of (env_ctx env)).
Proof using UT.
  destruct (Policy.inTx env fn d) as [r d'] eqn:E. apply policy_inTx_cases in E as [(t & a & ab & Ht & _)|(e & _ & ->)]; [|done].
  by exists t.
Qed.

Definition releases (r : Request) : Prop :=
  ∃ cred t, rq_cred r = Some cred ∧ (cred_IsApprover cred = true ∨ cred_IsAdmin cred = true) ∧ tenant_of (rq_ctx r) = Some t.

Lemma releases_intro r cred t :
  rq_cred r = Some cred → negb (cred_IsApprover cred) && negb (cred_IsAdmin cred) = false → tenant_of (rq_ctx r) = Some t → releases r.
Proof using. intros Hc Hg Ht. exists cred, t. split_and!; [done| |done]. destruct (cred_IsApprover cred), (cred_IsAdmin cred); auto. Qed.

(** Only approvers approve and publish.  A request to approve or to publish that
    changes any table carries a credential that is an approver's or an
    administrator's, and is made in a tenant. *)
Lemma only_approvers_release env r hasBody req d :
  (PolicyApi.Approve env r d).2 ≠ d ∨ (PolicyApi.Publish env r hasBody req d).2 ≠ d → releases r.
Proof using UT.
  unfold PolicyApi.Approve, PolicyApi.Publish. destruct (tenantCredContext r) as [[ctx cred]|] eqn:Hctx; [|by intros []].
  apply tenantCredContext_Some in Hctx as [-> Hc].
  destruct (negb (cred_IsApprover cred) && negb (cred_IsAdmin cred)) eqn:Hg; [by intros []|].
  destruct (uuid_Parse (rq_id r)) as [id|]; [|by intros []].
  set (env' := for_request env (rq_ctx r)). intros [H|H].
  - destruct (Policy.Approve env' id (cred_ID cred) d) as [res d'] eqn:E.
    assert (Hd : (Policy.Approve env' id (cred_ID cred) d).2 ≠ d) by (rewrite E; by destruct res). clear E H.
    unfold Policy.Approve in Hd. case_bool_decide; [done|]. unfold transition in Hd. apply policy_inTx_changes in Hd as [t Ht].
    by eapply releases_intro.
  - destruct (if hasBody then req else Some no_publishReq) as [q|]; [|done]. case_bool_decide; [done|].
    destruct (effective_date (pq_EffectiveDate q)) as [eff|]; [|done].
    set (i := mkPublish (pq_NewVersion q) eff (cred_ID cred)) in *.
    destruct (Policy.Publish env' id i d) as [res d'] eqn:E.
    assert (Hd : (Policy.Publish env' id i d).2 ≠ d) by (rewrite E; by destruct res). clear E H.
    unfold Policy.Publish in Hd. case_bool_decide; [done|]. apply policy_inTx_changes in Hd as [t Ht].
    by eapply releases_intro.
Qed.

(** ** The two rates *)

Lemma select_omap_issued (q : ApiKey → bool) (l : list ApiKey) :
  omap (M := list) ak_IssuedBy (select_where (λ k, q k && bool_decide (ak_IssuedBy k ≠ None)) l) = omap (M := list) ak_IssuedBy (select_where q l).
Proof using.
  unfold select_where. induction l as [|k l IH]; [done|]. rewrite !filter_cons.
  destruct (q k) eqn:Hq; cbn [andb]; [|by rewrite !(decide_False (P := false = true))].
  rewrite (decide_True (P := true = true)) by done. destruct (ak_IssuedBy k) as [u|] eqn:Hk.
  - rewrite decide_True by done. cbn. by rewrite Hk, IH.
  - rewrite decide_False by done. cbn. by rewrite Hk, IH.
Qed.

Lemma ack_denominator_eq p t d :
  row_TenantID p = t → ack_denominator p d = CountRequiredRoleUsersForVersion (Some t) (row_AcknowledgmentRequiredRoles p) d.
Proof using.
  intros <-. unfold ack_denominator, CountRequiredRoleUsersForVersion, required_users. do 3 f_equal.
  rewrite <- (select_omap_issued (λ k, bool_decide (Some (ak_TenantID k) = Some (row_TenantID p)) && key_counts (row_AcknowledgmentRequiredRoles p) k)).
  f_equal. apply select_where_ext. intros k _. unfold key_counts.
  rewrite (bool_decide_ext (Some (ak_TenantID k) = Some (row_TenantID p)) (ak_TenantID k = row_TenantID p)) by (split; congruence).
  repeat destruct (bool_decide _); done || by rewrite ?andb_true_r, ?andb_false_r.
Qed.

Lemma ack_numerator_eq p t cutoff d :
  row_TenantID p = t →
  ack_numerator cutoff p d = CountFreshAcksForVersion (Some t) (Some (row_ID p)) cutoff (row_AcknowledgmentRequiredRoles p) d.
Proof using.
  intros <-. unfold ack_numerator, CountFreshAcksForVersion, acked_users. do 4 f_equal. apply select_where_ext. intros a _.
  rewrite (bool_decide_ext (Some (ar_TenantID a) = Some (row_TenantID p)) (ar_TenantID a = row_TenantID p)) by (split; congruence).
  rewrite (bool_decide_ext (Some (ar_PolicyVersionID a) = Some (row_ID p)) (ar_PolicyVersionID a = row_ID p)) by (split; congruence).
  f_equal. induction (api_keys d) as [|k ks IH]; [done|]. cbn [existsb]. rewrite IH. f_equal. unfold key_counts. by rewrite andb_assoc.
Qed.

Lemma withTx_live_healthy {D E A} `{!TxError E} ctx str (body : Tx (Session D) E A) d :
  TenantFromContext ctx = Ok str →
  (withTx healthy ctx body (mkSession d false)).1 = (body (mkSession d false)).1.
Proof using UT.
  intros H. unfold withTx, ApplyTenant. rewrite H. cbn. by destruct (body _) as [[] ?].
Qed.

(** The two computations of the rate agree.  Where the list of policies comes
    with acknowledgement rates, every published policy of the tenant is in it with
    the numerator, the denominator and the percentage that the rate of that policy,
    computed on its own at the same instant, has. *)
Theorem list_rate_agrees env aenv ctx t d p :
  NoDup (row_ID <$> policies d) → env_infra env = healthy → ae_infra aenv = healthy → ae_clock aenv = env_clock env →
  ae_ctx aenv = ctx → tenant_of ctx = Some t → t ≠ uuid_Nil → p ∈ policies d → row_TenantID p = t → row_ID p ≠ uuid_Nil →
  row_Status p = StatePublished →
  ∃ out x rate, listPoliciesWithAckRate env true ctx "" d = Ok out ∧ x ∈ out ∧ wr_policy x = wireFromAckRateBaseColumns p ∧
    (Rate aenv (row_ID p) d).1 = Ok rate ∧
    wr_AckRate x = Some (mkCell (Numerator rate) (Denominator rate) (Percent rate)).
Proof using UT.
  intros Hnd Hi Hai Hclk Hctx Ht Hnil Hp Hpt Hpid Hst.
  pose proof Ht as Ht'. unfold tenant_of in Ht'. destruct (TenantFromContext ctx) as [str|] eqn:Hstr; [|done].
  set (cutoff := to_micros (env_clock env - AcknowledgmentFreshness)).
  assert (Hat : policy_at t (row_ID p) d = Some p).
  { assert (Hk : at_key (pgUUID t) (pgUUID (row_ID p)) p = true).
    { apply policy_at_key. unfold pgUUID. rewrite !bool_decide_false by done. by rewrite Hpt. }
    unfold policy_at. destruct (select_where _ _) as [|y ys] eqn:E.
    - assert (Hin : p ∈ select_where (at_key (pgUUID t) (pgUUID (row_ID p))) (policies d)) by (by apply elem_of_select_where).
      rewrite E in Hin. by apply elem_of_nil in Hin.
    - apply select_cons_elem in E as [Hky Hy]. cbn [head]. f_equal. apply (NoDup_key_inj row_ID _ y p Hnd Hy Hp).
      apply policy_at_key in Hky as [_ Hky], Hk as [_ Hk]. congruence. }
  assert (Hstate : in_state StatePublished p = true) by (by apply bool_decide_eq_true).
  eexists _, (wireFromAckRateRow (mkRateRow p (Some (ack_numerator cutoff p d, ack_denominator p d)))), _.
  split_and!; [| |done| |].
  - unfold listPoliciesWithAckRate. cbn [negb]. rewrite Hstr, Hi, (withTx_live_healthy _ str) by done. cbn beta. rewrite Ht', try_live.
    reflexivity.
  - apply list_elem_of_fmap_2. apply elem_of_select_where. split; [done|]. apply list_elem_of_fmap.
    exists p. split; [by rewrite Hstate|]. unfold Policy.ListPolicies. rewrite merge_sort_Permutation. apply elem_of_select_where.
    split; [|done]. apply bool_decide_eq_true. congruence.
  - unfold Rate. rewrite (ack_inTx_healthy _ t) by (rewrite ?Hctx; done). rewrite try_live. unfold GetPolicyForAcknowledge.
    rewrite GetPolicyByID_at, Hat, Hstate. cbn [negb]. rewrite try_live. unfold query at 1. rewrite try_live. reflexivity.
  - cbn. rewrite (ack_numerator_eq p t), (ack_denominator_eq p t) by done. rewrite Hclk. unfold pgUUID. by rewrite !bool_decide_false.
Qed.

End Api.
End PolicyApiSpec.
