(* ===== verification/PolicyAckApiSpec.v ===== *)
(** * An acknowledgement and its evidence are one, however often it is sent

    Module PolicyDemo applies the theorems of PolicySpec, PolicyAckSpec, PolicyApiSpec and
    of this file to one access policy, from draft to acknowledgement. *)

From S2P Require Import Prelude GoTime Tenancy Json Sha256 Float64 Scope GoJson TimeText Postgres EvalState Redact RedactSpec EvidenceRecord Ingest Http EvidenceVerify IngestSpec IngestDemo Policy PolicyAck PolicySeed PolicyApi PolicyAckApi PolicySpec PolicyAckSpec PolicyApiSpec.

Import Policy PolicyAck PolicyApi PolicyAckApi PolicySpec PolicyAckSpec.

Module PolicyAckApiSpec.

Section Handlers.
Context {UT : UUIDText} {JB : JsonB} {PM : ProtoMarshal} {PJ : ProtoJson} {GS : GoSort} {SP : StructPB}.

(** Healthy connections and nobody else at work. *)
Definition quiet_ack (e : AckEnv) : Prop := ae_infra e = healthy ∧ ae_rivals e = [].
Definition quiet (env : AckApiEnv) : Prop :=
  quiet_ack (en_record env) ∧ quiet_ack (en_link env) ∧
  Ingest.env_infra (en_ingest env) = healthy ∧ Ingest.env_rivals (en_ingest env) = [].

(** The link, as a function on rows. *)
Definition link (t ackID e : option UUID) (a : AckRow) : AckRow :=
  if bool_decide (Some (ar_TenantID a) = t) && bool_decide (Some (ar_ID a) = ackID)
  then mkAckRow (ar_ID a) (ar_TenantID a) (ar_PolicyID a) (ar_PolicyVersionID a) (ar_UserID a) (ar_AcknowledgedAt a) (ar_AckToken a) e (ar_CreatedAt a)
  else a.

Lemma link_idem t i e a : link t i e (link t i e a) = link t i e a.
Proof using. unfold link. destruct (bool_decide (Some (ar_TenantID a) = t) && bool_decide (Some (ar_ID a) = i)) eqn:E; cbn; by rewrite E. Qed.

Lemma arrive_quiet e d : ae_rivals e = [] → arrive e d = d.
Proof using. intros H. unfold arrive. rewrite H, app_nil_r. by destruct d. Qed.

Lemma SetEvidenceRecordID_quiet env ctx t ackID e d :
  quiet_ack env → tenant_of ctx = Some t →
  SetEvidenceRecordID (ack_for_request env ctx) ackID e d =
  (Ok (), with_acks d (link (pgUUID t) (pgUUID ackID) (pgUUID e) <$> acknowledgments d)).
Proof using UT.
  intros [Hi Hr] Ht. unfold SetEvidenceRecordID. rewrite (ack_inTx_healthy _ t) by done. rewrite try_live. cbn [SetAcknowledgmentEvidenceRecord].
  cbn -[arrive]. by rewrite arrive_quiet.
Qed.

Lemma ack_at_link t token d i e a :
  ack_at t token d = Some a →
  ack_at t token (with_acks d (link (pgUUID t) i e <$> acknowledgments d)) = Some (link (pgUUID t) i e a).
Proof using.
  unfold ack_at, select_where. cbn [acknowledgments with_acks]. induction (acknowledgments d) as [|x l IH]; [done|].
  csimpl. rewrite !filter_cons.
  assert (Hx : bool_decide (Some (ar_TenantID (link (pgUUID t) i e x)) = pgUUID t) && bool_decide (ar_AckToken (link (pgUUID t) i e x) = token) =
               bool_decide (Some (ar_TenantID x) = pgUUID t) && bool_decide (ar_AckToken x = token)).
  { unfold link. by destruct (bool_decide (Some (ar_TenantID x) = pgUUID t) && bool_decide (Some (ar_ID x) = i)). }
  rewrite Hx. destruct (decide _); [|done]. by intros [= ->].
Qed.

(** The reply again, marked as a duplicate. *)
Definition duplicate (r : ackResponse) : ackResponse :=
  mkAckResponse (rs_ID r) (rs_PolicyID r) (rs_PolicyVersionID r) (rs_UserID r) (rs_AcknowledgedAt r) (rs_AckToken r)
    (rs_EvidenceRecordID r) true (rs_EvidenceEmissionOK r) (rs_EvidenceEmissionErr r).

Abbreviation svc s := (Ingest.WithPath s IngestionPath).
Abbreviation record_of a cred := (ack_record a cred (payload a)).

(** The evidence of an acknowledgement is in the ledger. *)
Record emitted (env : AckApiEnv) (s : Ingest.Service) (cred : Credential) (a : Ack) (d : Ingest.DB) (r : Ingest.EvidenceRow) : Prop := {
  em_struct : NewStruct (payload a) = Some (payload a);
  em_tenant : cred_TenantID cred ≠ "" ∧ ∃ t, uuid_Parse (cred_TenantID cred) = Some t ∧ Ingest.idem_key r = Some (t, ack_Token a);
  em_row : r ∈ Ingest.evidence_records d;
  em_text : pg_text (ack_Token a) = true;
  em_checks : ∃ p, Ingest.checks (en_ingest env) (svc s) (record_of a cred) (cred_key cred) = Ok p ∧ Ingest.er_Hash r = Ingest.pr_hash p;
}.

Lemma NewStruct_Some m p : NewStruct m = Some p → p = m.
Proof using. unfold NewStruct. case_match; [|done]. by intros [= ->]. Qed.

Lemma emit_ok env s ctx cred t a w c resp w' :
  quiet env → tenant_of ctx = Some t →
  emit env s ctx cred a w = (WriteJSON c resp, w') → rs_EvidenceEmissionOK resp = true →
  ∃ r, emitted env s cred a (Ingest.db (ing w')) r ∧
    WriteJSON c resp = writeAckResp (with_evidence a (Ingest.er_ID r)) true None ∧
    pol w' = with_acks (pol w) (link (pgUUID t) (pgUUID (ack_ID a)) (pgUUID (Ingest.er_ID r)) <$> acknowledgments (pol w)).
Proof using.
  intros (_ & Hl & _ & _) Ht H Hok. unfold emit in H. destruct (NewStruct (payload a)) as [q|] eqn:Hn; [|by injection H as _ <- _].
  pose proof (NewStruct_Some _ _ Hn). subst q.
  destruct (Ingest.Process _ _ _ _ _) as [o iw] eqn:HP. destruct (Ingest.error o) as [e|] eqn:He; [by injection H as _ <- _|].
  pose proof HP as HP'. apply IngestSpec.Process_receipt in HP' as (tn & r & p & Hp & Hne & Hc & Hr & Hk & Htx & Hh & Hrec); [|done].
  rewrite Hrec in H. cbn [Ingest.RecordID] in H. rewrite uuid_Parse_String, (SetEvidenceRecordID_quiet _ _ t) in H by done.
  injection H as <- <- <-. exists r. split; [|done]. split; [done|by eauto..].
Qed.

(** Sending the same acknowledgement again finds the evidence there. *)
Lemma emit_again env env2 s ctx cred t a a2 w r :
  quiet env2 → tenant_of ctx = Some t → emitted env s cred a (Ingest.db (ing w)) r → IngestSpec.ledger_ok (Ingest.db (ing w)) →
  Z.abs (ack_AcknowledgedAt a - Ingest.env_clock (en_ingest env2)) ≤ Ingest.MaxObservedAtSkew →
  payload a2 = payload a → ack_Token a2 = ack_Token a → ack_PolicyID a2 = ack_PolicyID a → ack_PolicyVersionID a2 = ack_PolicyVersionID a →
  ack_AcknowledgedAt a2 = ack_AcknowledgedAt a →
  ∃ iw, emit env2 s ctx cred a2 w =
    (writeAckResp (with_evidence a2 (Ingest.er_ID r)) true None,
     mkWorld (with_acks (pol w) (link (pgUUID t) (pgUUID (ack_ID a2)) (pgUUID (Ingest.er_ID r)) <$> acknowledgments (pol w))) iw) ∧
    Ingest.evidence_records (Ingest.db iw) = Ingest.evidence_records (Ingest.db (ing w)).
Proof using.
  intros (_ & Hl & Hi & Hriv) Ht [Hst (Hne & tn & Htn & Hk) Hr Htx (p & Hc & Hh)] Hled Hskew Hpay Htok Hpid Hvid Hat.
  assert (Hrec : record_of a2 cred = record_of a cred) by (unfold ack_record; by rewrite Hpay, Htok, Hpid, Hvid, Hat).
  destruct (IngestSpec.checks_again _ (en_ingest env2) _ _ _ _ Hc) as [p2 Hc2].
  { intros ts [= <-]. unfold Evidence.AsTime, Evidence.NewTimestamp. cbn [Evidence.Seconds Evidence.Nanos].
    pose proof (Z.div_mod (ack_AcknowledgedAt a - Evidence.unix_epoch) ns_per_second ltac:(done)). lia. }
  assert (Hkey : Evidence.IdempotencyKey (Ingest.pr_record p2) = ack_Token a).
  { pose proof Hc2 as Hx. apply IngestSpec.checks_Ok, IngestSpec.cl_redacted, IngestSpec.redacted_fields in Hx as [q ->]. done. }
  pose proof (IngestSpec.Process_found (en_ingest env2) (svc s) (record_of a cred) (cred_key cred) None p2 (ing w) r Hi Hne Hc2) as HP.
  rewrite Hkey in HP. specialize (HP Htx). unfold cred_TenantID in Htn. rewrite Htn in HP.
  specialize (HP (IngestSpec.row_of_unique _ _ _ _ (IngestSpec.keys_unique _ Hled) Hr Hk)).
  rewrite (bool_decide_true (Ingest.er_Hash r = Ingest.pr_hash p2)) in HP by (rewrite Hh; symmetry; by eapply IngestSpec.checks_hash).
  unfold emit. rewrite Hpay in *. rewrite Hst. unfold Ingest.Process. rewrite Hrec.
  destruct (Ingest.ProcessWithRecordID _ _ _ _ _ _) as [o iw]. destruct HP as (-> & Hrows & _). exists iw.
  cbn [IngestSpec.outcome_of Ingest.error Ingest.receipt Ingest.RecordID]. rewrite uuid_Parse_String, (SetEvidenceRecordID_quiet _ _ t) by done.
  split; [done|]. by rewrite Hrows, Hriv, app_nil_r.
Qed.

(** An acknowledgement and its evidence are recorded once.  After a request
    to acknowledge a policy was answered with its evidence emitted, the same request
    on the same UTC day, within a day of the acknowledgement by the ingestion
    stage's clock, is answered 200 with the same acknowledgement and the same
    evidence record, marked as a duplicate, and leaves the acknowledgements, the
    policies and the ledger as they are. *)
Theorem acknowledge_again env env2 s r w c resp w1 :
  quiet env → quiet env2 → Acknowledge env (Some s) r w = (WriteJSON c resp, w1) → rs_EvidenceEmissionOK resp = true →
  IngestSpec.ledger_ok (Ingest.db (ing w1)) →
  day_of (ae_clock (en_record env2)) = day_of (ae_clock (en_record env)) →
  Z.abs (rs_AcknowledgedAt resp - Ingest.env_clock (en_ingest env2)) ≤ Ingest.MaxObservedAtSkew →
  ∃ w2, Acknowledge env2 (Some s) r w1 = (WriteJSON StatusOK (duplicate resp), w2) ∧ pol w2 = pol w1 ∧
    Ingest.evidence_records (Ingest.db (ing w2)) = Ingest.evidence_records (Ingest.db (ing w1)).
Proof using.
  intros Hq Hq2 H Hok Hled Hday Hskew. unfold Acknowledge in *. destruct (tenantCredContext r) as [[ctx cred]|]; [|done].
  case_bool_decide as Hu; [done|]. destruct (uuid_Parse (rq_id r)) as [pid|]; [|done].
  set (i := mkRecordInput pid (ackCallerFromCred cred) None time_zero) in *.
  destruct (Record_ _ i (pol w)) as [[a|e] d1] eqn:Hrec; [|by destruct e].
  apply Record_Ok in Hrec as (t & u & row & p & more & Ht & Hpu & Hnil & _ & Hat & Hp & Hst & Hro & Hpol & _ & Ha). cbn [ae_ctx ack_for_request] in Ht.
  apply (emit_ok _ _ _ _ t) in H as (r0 & Hem & Hresp & Hw1); [|done..]. cbn [pol] in Hw1.
  set (lk := link (pgUUID t) (pgUUID (ack_ID a)) (pgUUID (Ingest.er_ID r0))) in *.
  assert (Hrow : a = ackFromRow row (ack_Deduplicated a)) by (by destruct Ha as [->|[-> _]]).
  rewrite (Record_found _ i t u p (lk row)).
  - rewrite arrive_quiet by apply Hq2.
    destruct (emit_again env env2 s ctx cred t a (ackFromRow (lk row) true) (mkWorld (pol w1) (ing w1)) r0) as (iw & -> & Hiw); try done.
    { replace (ack_AcknowledgedAt a) with (rs_AcknowledgedAt resp) by (by injection Hresp as _ ->). done. }
    1-5: rewrite Hrow; unfold lk, link; by destruct (_ && _).
    exists (mkWorld (pol w1) iw). split_and!; [|done..].
    assert (Hid : ack_ID (ackFromRow (lk row) true) = ack_ID a) by (rewrite Hrow; unfold lk, link; by destruct (_ && _)).
    f_equal.
    + injection Hresp as _ ->. rewrite Hrow. unfold writeAckResp, duplicate, lk, link. cbn. by destruct (_ && _).
    + f_equal. rewrite Hid. cbn [pol]. fold lk. rewrite Hw1. unfold with_acks. cbn [acknowledgments]. f_equal.
      rewrite <- list_fmap_compose. apply list_fmap_ext. intros _ x _. apply link_idem.
  - by apply Hq2.
  - done.
  - done.
  - done.
  - done.
  - rewrite Hw1. unfold policy_at in *. cbn [policies with_acks]. by rewrite Hpol.
  - done.
  - done.
  - rewrite Hw1. apply ack_at_link.
    assert (Htok : token_of (ack_for_request (en_record env2) ctx) i = token_of (ack_for_request (en_record env) ctx) i)
      by (by apply DeriveAckToken_day).
    by rewrite Htok.
Qed.


End Handlers.
End PolicyAckApiSpec.

Module PolicyDemo.
Import Policy PolicyAck PolicyApi PolicyAckApi PolicySpec PolicyAckSpec PolicyApiSpec PolicyAckApiSpec.
#[local] Existing Instance binary_uuid.
#[local] Existing Instance canonical_jsonb.
#[local] Existing Instance show_record.
#[local] Existing Instance checked_protojson.
#[local] Existing Instance stable_sort.
#[local] Existing Instance faithful_clone.
#[local] Existing Instance table_order.

Definition noon : Time := Evidence.unix_epoch + 20600 * ns_per_day + 12 * time_Hour.
Definition acme : Context := {| ctx_tenant := Some "a111" |}.
Definition tenant : UUID := 7%N.
Definition user : UUID := 5%N.

Definition env_at (k : Z) : Env := mkEnv acme healthy (noon + k * time_Hour) (noon + k * time_Hour) 11.
Definition input : CreateInput := mkCreate "Access control" "1.0" "Least privilege." "it" "ciso" [3%N] ["staff"] "" "key_1".
Definition release : PublishInput := mkPublish "2.0" None "key_2".

Definition d0 : DB := mkDB [] [] [(tenant, user)] [mkKey tenant (Some user) None false ["staff"]; mkKey tenant (Some 6%N) None true []] [].
Definition d1 : DB := (Create (env_at 0) input d0).2.
Definition d2 : DB := (SubmitForReview (env_at 1) 11 "key_1" d1).2.
Definition d3 : DB := (Policy.Approve (env_at 2) 11 "key_2" d2).2.
Definition d4 : DB := (Policy.Publish (env_at 3) 11 release d3).2.

Lemma reached1 : reachable (env_now (env_at 0)) d1.
Proof. eapply (reach_create noon d0 (env_at 0) input); [by constructor|vm_compute; done|apply surjective_pairing]. Qed.
Lemma reached2 : reachable (env_now (env_at 1)) d2.
Proof. eapply (reach_submit _ d1 (env_at 1) 11 "key_1"); [apply reached1|vm_compute; done|apply surjective_pairing]. Qed.
Lemma reached3 : reachable (env_now (env_at 2)) d3.
Proof. eapply (reach_approve _ d2 (env_at 2) 11 "key_2"); [apply reached2|vm_compute; done|apply surjective_pairing]. Qed.
Lemma reached4 : reachable (env_now (env_at 3)) d4.
Proof. eapply (reach_publish _ d3 (env_at 3) 11 release); [apply reached3|vm_compute; done|apply surjective_pairing]. Qed.

Definition final : Row := hd (mkRow 0 0 "" "" None "" [] "" 0 0 None "" "" [] "" "" None None None None None None None None) (policies d4).

Lemma d4_rows : policies d4 = [final].
Proof. vm_compute. reflexivity. Qed.

(** Version 2.0 was asked for; what is published is version 1.0. *)
Example published_version : (row_Status final, row_Version final) = ("published", "1.0").
Proof. vm_compute. reflexivity. Qed.

Lemma lifecycle_refines_witness : (Policy.Publish (env_at 3) 11 release d3).1 = Ok (policyFromRow final).
Proof.
  pose proof (lifecycle_refines (env_now (env_at 2)) (env_at 3) tenant 11 (Release release) d3 reached3 eq_refl eq_refl
    ltac:(done) ltac:(vm_compute; reflexivity)) as H. cbn [perform] in H. rewrite H. vm_compute. reflexivity.
Defined.

Lemma published_was_reviewed_witness : ∃ a b c, a ≤ b ∧ b ≤ c ∧ row_PublishedAt final = Some c.
Proof.
  destruct (published_was_reviewed (env_now (env_at 3)) d4 final reached4) as (a & b & c & _ & _ & [Hc _] & [_ H1] & [H2 _] & _).
  - rewrite d4_rows. left.
  - vm_compute. reflexivity.
  - by exists a, b, c.
Defined.

Lemma Publish_never_supersedes_witness : ∃ p, Policy.Publish (env_at 3) 11 release d3 = (Ok p, d4) ∧ Version p = "1.0".
Proof.
  exists (policyFromRow final). assert (H : Policy.Publish (env_at 3) 11 release d3 = (Ok (policyFromRow final), d4)) by (vm_compute; reflexivity).
  split; [exact H|]. destruct (Publish_never_supersedes (env_at 3) 11 release d3 _ d4 H) as [(r & Hr & Hid & _ & Hv & _) _].
  rewrite Hv. clear -Hr. revert r Hr. apply Forall_forall. refine (bool_decide_unpack _ _). vm_compute. exact I.
Defined.

(** ** Acknowledging *)

Definition staff : AckCaller := mkCaller "a101" ["staff"] false.
Definition ack_env (k : Z) : AckEnv := mkAckEnv acme healthy (noon + k * time_Hour) (noon + k * time_Hour) 21 [].
Definition ack_input : RecordInput := mkRecordInput 11 staff None time_zero.
Definition recorded : result AckError Ack * DB := Record_ (ack_env 4) ack_input d4.
Definition the_ack : Ack := match recorded.1 with Ok a => a | Err _ => mkAck 0 0 0 0 0 "" None true end.
Definition pending_after (k : Z) : list Pending :=
  match (PendingForUser String.le (ack_env k) staff recorded.2).1 with Ok l => l | Err _ => [] end.

Lemma recorded_ok : Record_ (ack_env 4) ack_input d4 = (Ok the_ack, recorded.2).
Proof. vm_compute. reflexivity. Qed.

(** Off the list a day later, back on it a year later. *)
Lemma acknowledgement_lasts_a_year_witness :
  ¬ (11%N ∈ (pd_PolicyVersionID <$> pending_after 24)) ∧ 11%N ∈ (pd_PolicyVersionID <$> pending_after (400 * 24)).
Proof.
  assert (H : ∀ k, k = 24 ∨ k = 400 * 24 →
    PendingForUser String.le (ack_env k) staff recorded.2 = (Ok (pending_after k), recorded.2)).
  { intros k [->| ->]; vm_compute; reflexivity. }
  split.
  - refine (proj1 (acknowledgement_lasts_a_year String.le (ack_env 4) (ack_env 24) ack_input d4 the_ack recorded.2 recorded.2 [] _ _
      recorded_ok eq_refl eq_refl _ eq_refl (H _ (or_introl eq_refl))) _); [by rewrite app_nil_r|vm_compute; done].
  - refine (proj2 (acknowledgement_lasts_a_year String.le (ack_env 4) (ack_env (400 * 24)) ack_input d4 the_ack recorded.2 recorded.2 [] _ _
      recorded_ok eq_refl eq_refl _ eq_refl (H _ (or_intror eq_refl))) _ _); [by rewrite app_nil_r|..].
    + intros x Hx _. revert x Hx. apply Forall_forall. refine (bool_decide_unpack _ _). vm_compute. exact I.
    + intros q Hq _. revert q Hq. apply Forall_forall. refine (bool_decide_unpack _ _). vm_compute. exact I.
Defined.

Lemma rate_counts_due_users_witness :
  ∃ r, (Rate (ack_env 5) 11 recorded.2).1 = Ok r ∧ Numerator r = 1 ∧ Denominator r = 2 ∧ Numerator r ≤ Denominator r.
Proof.
  destruct (Rate (ack_env 5) 11 recorded.2) as [[r|e] d'] eqn:E; [|by vm_compute in E]. exists r.
  destruct (rate_counts_due_users (ack_env 5) 11 recorded.2 r d' E) as (t & p & us & as_ & _ & _ & _ & _ & _ & _ & _ & _ & _ & Hle & _).
  split; [done|]. vm_compute in E. injection E as <- _. split_and!; [reflexivity..|exact Hle].
Defined.

Lemma list_rate_agrees_witness :
  ∃ x, wr_policy x = wireFromAckRateBaseColumns final ∧ c_Numerator <$> wr_AckRate x = Some 1 ∧ c_Denominator <$> wr_AckRate x = Some 2.
Proof.
  destruct (list_rate_agrees (env_at 5) (ack_env 5) acme tenant recorded.2 final) as (out & x & rate & _ & _ & Hx & Hr & Hc); try done.
  - refine (bool_decide_unpack _ _). vm_compute. exact I.
  - assert (Hp : policies recorded.2 = [final]) by (vm_compute; reflexivity). rewrite Hp. left.
  - exists x. split; [done|]. vm_compute in Hr. injection Hr as <-. by rewrite Hc.
Defined.

(** ** The handler *)

Definition svc : Ingest.Service := Ingest.New (Ingest.mkValidator (λ _ _ _ _, None) (λ _ _, true) None None).
Definition cred : Credential := mkCred (Ingest.mkCredential "key_9" "a111" "" []) false false "a101" ["staff"].
Definition request : Request := mkRequest acme (Some cred) "a1101" "" [] "".
Definition api_env (k : Z) : AckApiEnv :=
  mkAckApiEnv (ack_env k)
    (Ingest.mkEnv (noon + k * time_Hour) (noon + k * time_Hour) healthy healthy 31 32 [] (λ _, "database error") (λ s, s)) (ack_env k).
Definition w0 : PolicyAckApi.World := mkWorld d4 (Ingest.mkWorld (Ingest.mkDB [] [] []) []).
Definition answered : Reply ackResponse * PolicyAckApi.World := Acknowledge (api_env 4) (Some svc) request w0.
Definition response : ackResponse :=
  match answered.1 with WriteJSON _ r => r | _ => mkAckResponse "" "" "" "" 0 "" None false false None end.

Lemma answered_ok : Acknowledge (api_env 4) (Some svc) request w0 = (WriteJSON StatusCreated response, answered.2).
Proof. vm_compute. reflexivity. Qed.

Lemma calm k : quiet (api_env k).
Proof. unfold quiet, quiet_ack. split_and!; reflexivity. Qed.

Lemma acknowledge_again_witness :
  ∃ w2, Acknowledge (api_env 5) (Some svc) request answered.2 = (WriteJSON StatusOK (duplicate response), w2) ∧ pol w2 = pol answered.2.
Proof.
  destruct (acknowledge_again (api_env 4) (api_env 5) svc request w0 StatusCreated response answered.2) as (w2 & H & Hp & _).
  - apply calm.
  - apply calm.
  - apply answered_ok.
  - vm_compute. reflexivity.
  - split; [refine (bool_decide_unpack _ _); vm_compute; exact I..|]. vm_compute. constructor; [done|constructor].
  - vm_compute. reflexivity.
  - vm_compute. done.
  - exists w2. split; [exact H|exact Hp].
Defined.

End PolicyDemo.
