(* ===== verification/ActionPlan.v ===== *)
(** * Action plans

    Models internal/actionplan (statemachine.go, store.go): a commitment to close a
    gap, with its life cycle, its links to risks and controls and its audit trail;
    with the statements of action_plans.sql and the constraints and the transition
    trigger of migration 20260612070000. *)

From S2P Require Import Prelude GoTime Tenancy Json Float64 GoJson TimeText Postgres.

Module ActionPlan.

(** ** The state machine and the validators (statemachine.go) *)

Definition StatusDraft := "draft".
Definition StatusInProgress := "in_progress".
Definition StatusBlocked := "blocked".
Definition StatusCompleted := "completed".
Definition StatusVerified := "verified".

Definition ActionCreated := "created".
Definition ActionUpdated := "updated".
Definition ActionStatusChanged := "status_changed".
Definition ActionRiskLinked := "risk_linked".
Definition ActionRiskUnlinked := "risk_unlinked".
Definition ActionControlLinked := "control_linked".
Definition ActionControlUnlinked := "control_unlinked".
Definition ActionTombstoned := "tombstoned".

Definition MaxTitleLen : nat := 200.
Definition MaxDescriptionLen : nat := 4000.
Definition MaxTriggeringEventLen : nat := 500.
Definition MaxDueDateYears : Z := 5.
Definition MaxLinkedRisks : Z := 50.
Definition MaxLinkedControls : Z := 50.
Definition DefaultPageLimit : Z := 25.
Definition MaxPageLimit : Z := 100.

Definition ValidStatus (s : string) : bool :=
  bool_decide (s ∈ [StatusDraft; StatusInProgress; StatusBlocked; StatusCompleted; StatusVerified]).

Definition AllowedTransition (from to : string) : bool :=
  if negb (ValidStatus from) || negb (ValidStatus to) then false
  else if bool_decide (from = to) then true
  else if bool_decide (from = StatusDraft) then bool_decide (to = StatusInProgress)
  else if bool_decide (from = StatusInProgress) then bool_decide (to = StatusBlocked) || bool_decide (to = StatusCompleted)
  else if bool_decide (from = StatusBlocked) then bool_decide (to = StatusInProgress) || bool_decide (to = StatusCompleted)
  else if bool_decide (from = StatusCompleted) then bool_decide (to = StatusVerified) || bool_decide (to = StatusInProgress)
  else false.

Inductive Error :=
| ErrNotFound
| ErrIllegalTransition
| ErrTitleRequired
| ErrTitleTooLong
| ErrDescriptionTooLong
| ErrTriggeringEventTooLong
| ErrOwnerRequired
| ErrOwnerNotInTenant
| ErrDueDateTooFar
| ErrInvalidStatus
| ErrLinkTargetNotFound
| ErrAlreadyLinked
| ErrNotLinked
| ErrLimitExceeded
| ErrStatement (what : string) (e : SqlErr)
| ErrTx (e : TxErr).
#[global] Instance Error_tx : TxError Error := ErrTx.

Definition ValidateTitle (title : string) : option Error :=
  if bool_decide (title = "") then Some ErrTitleRequired
  else if (MaxTitleLen <? String.length title)%nat then Some ErrTitleTooLong else None.

Definition ValidateDescription (desc : string) : option Error :=
  if (MaxDescriptionLen <? String.length desc)%nat then Some ErrDescriptionTooLong else None.

Definition ValidateTriggeringEvent (ev : string) : option Error :=
  if (MaxTriggeringEventLen <? String.length ev)%nat then Some ErrTriggeringEventTooLong else None.

(** [clock] is [time.Now().UTC()]. *)
Definition ValidateDueDate (clock : Time) (due : option Time) (now : Time) : option Error :=
  match due with
  | None => None
  | Some due =>
      let now := if IsZero now then clock else now in
      if After due (AddDate now MaxDueDateYears 0 0) then Some ErrDueDateTooFar else None
  end.

Definition ClampLimit (limit : Z) : Z :=
  if limit <=? 0 then DefaultPageLimit else if MaxPageLimit <? limit then MaxPageLimit else limit.

(** ** Tables *)

(** [dbx.ActionPlan] *)
Record Row := mkRow {
  row_ID : UUID;
  row_TenantID : UUID;
  row_Title : string;
  row_Description : option string;
  row_TriggeringEvent : option string;
  row_OwnerID : UUID;
  row_DueDate : option Time;
  row_Status : string;
  row_AuditPeriodID : option UUID;
  row_TombstonedAt : option Time;
  row_CreatedAt : Time;
  row_UpdatedAt : Time;
}.
#[global] Instance Row_eq_dec : EqDecision Row.
Proof. solve_decision. Defined.

(** [dbx.ActionPlanRisk], [dbx.ActionPlanControl] *)
Record LinkRow := mkLinkRow {
  ln_ActionPlanID : UUID;
  ln_TargetID : UUID;
  ln_TenantID : UUID;
  ln_LinkedAt : Time;
  ln_LinkedBy : UUID;
}.

(** [dbx.ActionPlanAuditLog]; the two states are the texts of jsonb columns. *)
Record LogRow := mkLogRow {
  lg_ID : UUID;
  lg_TenantID : UUID;
  lg_ActionPlanID : UUID;
  lg_ActorID : UUID;
  lg_ActionType : string;
  lg_BeforeState : option string;
  lg_AfterState : option string;
  lg_CreatedAt : Time;
}.

(** The last four hold the (tenant_id, id) pairs of the rows plans refer to. *)
Record DB := mkDB {
  action_plans : list Row;
  action_plan_risks : list LinkRow;
  action_plan_controls : list LinkRow;
  action_plan_audit_log : list LogRow;
  users : list (UUID * UUID);
  risks : list (UUID * UUID);
  controls : list (UUID * UUID);
  audit_periods : list (UUID * UUID);
}.
Definition with_plans (d : DB) (t : list Row) : DB :=
  mkDB t (action_plan_risks d) (action_plan_controls d) (action_plan_audit_log d) (users d) (risks d) (controls d) (audit_periods d).
Definition with_plan_risks (d : DB) (t : list LinkRow) : DB :=
  mkDB (action_plans d) t (action_plan_controls d) (action_plan_audit_log d) (users d) (risks d) (controls d) (audit_periods d).
Definition with_plan_controls (d : DB) (t : list LinkRow) : DB :=
  mkDB (action_plans d) (action_plan_risks d) t (action_plan_audit_log d) (users d) (risks d) (controls d) (audit_periods d).
Definition with_log (d : DB) (t : list LogRow) : DB :=
  mkDB (action_plans d) (action_plan_risks d) (action_plan_controls d) t (users d) (risks d) (controls d) (audit_periods d).

(** ** Constraints *)

Definition fits (bound : nat) (s : option string) : bool :=
  match s with Some s => (pg_length s <=? bound)%nat | None => true end.

(** The CHECK constraints, in name order. *)
Definition check_row (r : Row) : option string :=
  if negb (fits 4000 (row_Description r)) then Some "action_plans_description_check"
  else if negb (bool_decide (row_Status r ∈ ["draft"; "in_progress"; "blocked"; "completed"; "verified"]))
  then Some "action_plans_status_check"
  else if negb ((0 <? pg_length (row_Title r))%nat && (pg_length (row_Title r) <=? 200)%nat) then Some "action_plans_title_check"
  else if negb (fits 500 (row_TriggeringEvent r)) then Some "action_plans_triggering_event_check"
  else None.

(** The trigger function; [true] returns NEW. *)
Definition action_plans_status_transition_guard (old new : Row) : bool :=
  let o := row_Status old in let n := row_Status new in
  bool_decide (n = o) ||
  bool_decide (o = "draft") && bool_decide (n = "in_progress") ||
  bool_decide (o = "in_progress") && bool_decide (n ∈ ["blocked"; "completed"]) ||
  bool_decide (o = "blocked") && bool_decide (n ∈ ["in_progress"; "completed"]) ||
  bool_decide (o = "completed") && bool_decide (n ∈ ["verified"; "in_progress"]).

Definition texts_ok (r : Row) : bool :=
  pg_text (row_Title r) && pg_text_opt (row_Description r) && pg_text_opt (row_TriggeringEvent r) && pg_text (row_Status r).

(** The foreign keys of a plan name the identifier only, not the tenant. *)
Definition owner_known (d : DB) (r : Row) : bool := bool_decide (row_OwnerID r ∈ (users d).*2).
Definition period_known (d : DB) (r : Row) : bool :=
  match row_AuditPeriodID r with None => true | Some p => bool_decide (p ∈ (audit_periods d).*2) end.

(** ** Statements *)

Record CreateActionPlanParams := mkCreateParams {
  cp_ID : UUID;
  cp_TenantID : UUID;
  cp_Title : string;
  cp_Description : option string;
  cp_TriggeringEvent : option string;
  cp_OwnerID : UUID;
  cp_DueDate : option Time;
  cp_Status : string;
  cp_AuditPeriodID : option UUID;
}.

(** A date column keeps the day. *)
Definition CreateActionPlan (now : Time) (a : CreateActionPlanParams) (d : DB) : result SqlErr (Row * DB) :=
  let r := mkRow (cp_ID a) (cp_TenantID a) (cp_Title a) (cp_Description a) (cp_TriggeringEvent a) (cp_OwnerID a)
             (truncDate <$> cp_DueDate a) (cp_Status a) (cp_AuditPeriodID a) None now now in
  if negb (texts_ok r) then Err OtherViolation
  else match check_row r with
  | Some c => Err (CheckViolation c)
  | None =>
      if bool_decide (row_ID r ∈ row_ID <$> action_plans d) then Err UniqueViolation
      else if owner_known d r && period_known d r then Ok (r, with_plans d (action_plans d ++ [r]))
      else Err ForeignKeyViolation
  end.

Definition live_at (tenantID id : UUID) (r : Row) : bool :=
  bool_decide (row_TenantID r = tenantID) && bool_decide (row_ID r = id) && bool_decide (row_TombstonedAt r = None).

Definition GetActionPlanByID (tenantID id : UUID) (d : DB) : result SqlErr (Row * DB) :=
  first_row (select_where (live_at tenantID id) (action_plans d)) d.

(** ORDER BY created_at DESC, id DESC *)
Definition newest_first (r1 r2 : Row) : Prop :=
  row_CreatedAt r2 < row_CreatedAt r1 ∨ (row_CreatedAt r1 = row_CreatedAt r2 ∧ (row_ID r2 ≤ row_ID r1)%N).
#[global] Instance newest_first_dec : RelDecision newest_first.
Proof. intros r1 r2. unfold newest_first. apply _. Defined.

(** [(created_at, id) < (cursor_created_at, cursor_id)]; comparing with a NULL
    identifier is not true. *)
Definition past_cursor (created : option Time) (id : option UUID) (r : Row) : bool :=
  match created with
  | None => true
  | Some c =>
      bool_decide (row_CreatedAt r < c) ||
      bool_decide (row_CreatedAt r = c) && match id with Some i => bool_decide (row_ID r < i)%N | None => false end
  end.

Record ListActionPlansParams := mkListParams {
  lp_TenantID : UUID;
  lp_Status : option string;
  lp_CursorCreatedAt : option Time;
  lp_CursorID : option UUID;
  lp_RowLimit : Z;
}.

Definition listed (a : ListActionPlansParams) (r : Row) : bool :=
  bool_decide (row_TenantID r = lp_TenantID a) && bool_decide (row_TombstonedAt r = None) &&
  match lp_Status a with None => true | Some s => bool_decide (row_Status r = s) end &&
  past_cursor (to_micros <$> lp_CursorCreatedAt a) (lp_CursorID a) r.

Definition ListActionPlans (a : ListActionPlansParams) (d : DB) : result SqlErr (list Row * DB) :=
  if negb (pg_text_opt (lp_Status a)) || (lp_RowLimit a <? 0) then Err OtherViolation
  else Ok (take (Z.to_nat (lp_RowLimit a)) (merge_sort newest_first (select_where (listed a) (action_plans d))), d).

Definition ListActionPlansSnapshot (tenantID : UUID) (createdAt : Time) (d : DB) : list Row :=
  merge_sort newest_first
    (select_where (λ r, bool_decide (row_TenantID r = tenantID) && bool_decide (row_TombstonedAt r = None) &&
                        bool_decide (row_CreatedAt r ≤ to_micros createdAt)) (action_plans d)).

(** What an UPDATE of a plan meets: the trigger, the CHECK constraints, and the
    foreign keys whose column changed. *)
Definition update_error (d : DB) (old new : Row) : option SqlErr :=
  if negb (action_plans_status_transition_guard old new) then Some (CheckViolation "")
  else match check_row new with
  | Some c => Some (CheckViolation c)
  | None =>
      if (bool_decide (row_OwnerID new = row_OwnerID old) || owner_known d new) &&
         (bool_decide (row_AuditPeriodID new = row_AuditPeriodID old) || period_known d new)
      then None else Some ForeignKeyViolation
  end.

Definition update_one (p : Row → bool) (f : Row → Row) (d : DB) : result SqlErr (Row * DB) :=
  match select_where p (action_plans d) with
  | [] => Err NoRows
  | (r :: _) as rs =>
      match omap (M := list) (λ x, update_error d x (f x)) rs with
      | e :: _ => Err e
      | [] => Ok (f r, with_plans d (update_where p f (action_plans d)))
      end
  end.

Record UpdateActionPlanParams := mkUpdateParams {
  up_TenantID : UUID;
  up_ID : UUID;
  up_Title : string;
  up_Description : option string;
  up_TriggeringEvent : option string;
  up_OwnerID : UUID;
  up_DueDate : option Time;
  up_Status : string;
  up_AuditPeriodID : option UUID;
}.

Definition updated_row (now : Time) (a : UpdateActionPlanParams) (r : Row) : Row :=
  mkRow (row_ID r) (row_TenantID r) (up_Title a) (up_Description a) (up_TriggeringEvent a) (up_OwnerID a)
    (truncDate <$> up_DueDate a) (up_Status a) (up_AuditPeriodID a) (row_TombstonedAt r) (row_CreatedAt r) now.

Definition UpdateActionPlan (now : Time) (a : UpdateActionPlanParams) (d : DB) : result SqlErr (Row * DB) :=
  if negb (pg_text (up_Title a) && pg_text_opt (up_Description a) && pg_text_opt (up_TriggeringEvent a) && pg_text (up_Status a))
  then Err OtherViolation
  else update_one (live_at (up_TenantID a) (up_ID a)) (updated_row now a) d.

Definition tombstoned_row (now : Time) (r : Row) : Row :=
  mkRow (row_ID r) (row_TenantID r) (row_Title r) (row_Description r) (row_TriggeringEvent r) (row_OwnerID r) (row_DueDate r)
    (row_Status r) (row_AuditPeriodID r) (Some now) (row_CreatedAt r) now.

Definition TombstoneActionPlan (now : Time) (tenantID id : UUID) : DB → result SqlErr (Row * DB) :=
  update_one (live_at tenantID id) (tombstoned_row now).

(** *** Links *)

Definition link_at (tenantID planID targetID : UUID) (l : LinkRow) : bool :=
  bool_decide (ln_TenantID l = tenantID) && bool_decide (ln_ActionPlanID l = planID) && bool_decide (ln_TargetID l = targetID).
Definition links_of (tenantID planID : UUID) (t : list LinkRow) : list LinkRow :=
  select_where (λ l, bool_decide (ln_TenantID l = tenantID) && bool_decide (ln_ActionPlanID l = planID)) t.

(** An INSERT into one of the two link tables, with its primary key and its
    composite foreign keys. *)
Definition insert_link (targets : list (UUID * UUID)) (table : list LinkRow) (put : list LinkRow → DB) (l : LinkRow) (d : DB)
  : result SqlErr (() * DB) :=
  if existsb (λ x, bool_decide (ln_ActionPlanID x = ln_ActionPlanID l) && bool_decide (ln_TargetID x = ln_TargetID l)) table
  then Err UniqueViolation
  else if bool_decide ((ln_TenantID l, ln_ActionPlanID l) ∈ (λ r, (row_TenantID r, row_ID r)) <$> action_plans d) &&
          bool_decide ((ln_TenantID l, ln_TargetID l) ∈ targets)
  then Ok (tt, put (table ++ [l]))
  else Err ForeignKeyViolation.

Definition LinkActionPlanRisk (now : Time) (planID riskID tenantID linkedBy : UUID) (d : DB) : result SqlErr (() * DB) :=
  insert_link (risks d) (action_plan_risks d) (with_plan_risks d) (mkLinkRow planID riskID tenantID now linkedBy) d.
Definition LinkActionPlanControl (now : Time) (planID controlID tenantID linkedBy : UUID) (d : DB) : result SqlErr (() * DB) :=
  insert_link (controls d) (action_plan_controls d) (with_plan_controls d) (mkLinkRow planID controlID tenantID now linkedBy) d.

(** [:execrows], the number of rows deleted. *)
Definition UnlinkActionPlanRisk (tenantID planID riskID : UUID) (d : DB) : result SqlErr (Z * DB) :=
  Ok (Z.of_nat (length (select_where (link_at tenantID planID riskID) (action_plan_risks d))),
      with_plan_risks d (select_where (λ l, negb (link_at tenantID planID riskID l)) (action_plan_risks d))).
Definition UnlinkActionPlanControl (tenantID planID controlID : UUID) (d : DB) : result SqlErr (Z * DB) :=
  Ok (Z.of_nat (length (select_where (link_at tenantID planID controlID) (action_plan_controls d))),
      with_plan_controls d (select_where (λ l, negb (link_at tenantID planID controlID l)) (action_plan_controls d))).

Definition CountActionPlanRisks (tenantID planID : UUID) (d : DB) : Z := Z.of_nat (length (links_of tenantID planID (action_plan_risks d))).
Definition CountActionPlanControls (tenantID planID : UUID) (d : DB) : Z :=
  Z.of_nat (length (links_of tenantID planID (action_plan_controls d))).

Definition ActionPlanRiskExists (tenantID planID riskID : UUID) (d : DB) : bool :=
  existsb (link_at tenantID planID riskID) (action_plan_risks d).
Definition ActionPlanControlExists (tenantID planID controlID : UUID) (d : DB) : bool :=
  existsb (link_at tenantID planID controlID) (action_plan_controls d).

Definition ActionPlanRiskExistsInTenant (tenantID id : UUID) (d : DB) : bool := bool_decide ((tenantID, id) ∈ risks d).
Definition ActionPlanControlExistsInTenant (tenantID id : UUID) (d : DB) : bool := bool_decide ((tenantID, id) ∈ controls d).
Definition ActionPlanOwnerExistsInTenant (tenantID id : UUID) (d : DB) : bool := bool_decide ((tenantID, id) ∈ users d).

(** ORDER BY linked_at ASC; ORDER BY ap.created_at DESC *)
Definition linked_first (a b : LinkRow) : Prop := ln_LinkedAt a ≤ ln_LinkedAt b.
#[global] Instance linked_first_dec : RelDecision linked_first.
Proof. intros a b. unfold linked_first. apply _. Defined.
Definition created_last (a b : Row) : Prop := row_CreatedAt b ≤ row_CreatedAt a.
#[global] Instance created_last_dec : RelDecision created_last.
Proof. intros a b. unfold created_last. apply _. Defined.

Section Orders.
Context {PL : Planner}.

Definition ListActionPlanRisks (tenantID planID : UUID) (d : DB) : list LinkRow :=
  merge_sort linked_first (plan (links_of tenantID planID (action_plan_risks d))).
Definition ListActionPlanControls (tenantID planID : UUID) (d : DB) : list LinkRow :=
  merge_sort linked_first (plan (links_of tenantID planID (action_plan_controls d))).

(** The plans the links of a target lead to. *)
Definition plans_linked (tenantID targetID : UUID) (table : list LinkRow) (d : DB) : list Row :=
  merge_sort created_last (plan
    (select_where (λ l, bool_decide (ln_TenantID l = tenantID) && bool_decide (ln_TargetID l = targetID)) table ≫= λ l,
       select_where (λ r, bool_decide (row_ID r = ln_ActionPlanID l) && bool_decide (row_TenantID r = ln_TenantID l) &&
                          bool_decide (row_TombstonedAt r = None)) (action_plans d))).
Definition ListActionPlanIDsForRisk (tenantID riskID : UUID) (d : DB) : list Row :=
  plans_linked tenantID riskID (action_plan_risks d) d.
Definition ListActionPlanIDsForControl (tenantID controlID : UUID) (d : DB) : list Row :=
  plans_linked tenantID controlID (action_plan_controls d) d.

End Orders.

(** *** The audit trail *)

Definition action_types : list string :=
  [ActionCreated; ActionUpdated; ActionStatusChanged; ActionRiskLinked; ActionRiskUnlinked; ActionControlLinked;
   ActionControlUnlinked; ActionTombstoned].

(** The parameters are a row whose states are the texts sent for the jsonb columns. *)
Definition WriteActionPlanAuditLog {JB : JsonB} (now : Time) (a : LogRow) (d : DB) : result SqlErr (LogRow * DB) :=
  let stored s := match s with None => Some None | Some s => t ← jsonb_in s; Some (Some t) end in
  match stored (lg_BeforeState a), stored (lg_AfterState a) with
  | Some before, Some after =>
      let r := mkLogRow (lg_ID a) (lg_TenantID a) (lg_ActionPlanID a) (lg_ActorID a) (lg_ActionType a) before after now in
      if negb (bool_decide (lg_ActionType a ∈ action_types)) then Err (CheckViolation "action_plan_audit_log_action_type_check")
      else if bool_decide (lg_ID a ∈ lg_ID <$> action_plan_audit_log d) then Err UniqueViolation
      else Ok (r, with_log d (action_plan_audit_log d ++ [r]))
  | _, _ => Err OtherViolation
  end.

(** ORDER BY created_at ASC, id ASC *)
Definition log_order (a b : LogRow) : Prop :=
  lg_CreatedAt a < lg_CreatedAt b ∨ (lg_CreatedAt a = lg_CreatedAt b ∧ (lg_ID a ≤ lg_ID b)%N).
#[global] Instance log_order_dec : RelDecision log_order.
Proof. intros a b. unfold log_order. apply _. Defined.

Definition ListActionPlanAuditLog (tenantID planID : UUID) (d : DB) : list LogRow :=
  merge_sort log_order
    (select_where (λ l, bool_decide (lg_TenantID l = tenantID) && bool_decide (lg_ActionPlanID l = planID)) (action_plan_audit_log d)).

(** ** Domain shapes *)

Record ActionPlan := mkPlan {
  ID : UUID;
  TenantID : UUID;
  Title : string;
  Description : string;
  TriggeringEvent : string;
  OwnerID : UUID;
  DueDate : option Time;
  Status : string;
  AuditPeriodID : option UUID;
  TombstonedAt : option Time;
  CreatedAt : Time;
  UpdatedAt : Time;
}.

Record Link := mkLink { TargetID : UUID; LinkedAt : Time; LinkedBy : UUID }.
Record Linkage := mkLinkage { Risks : list Link; Controls : list Link }.
Record PlanRef := mkRef { ref_ID : UUID; ref_Title : string; ref_Status : string; ref_DueDate : option Time }.
Record AuditEntry := mkEntry {
  e_ID : UUID;
  e_ActionPlanID : UUID;
  e_ActorID : UUID;
  e_ActionType : string;
  e_BeforeState : string;
  e_AfterState : string;
  e_CreatedAt : Time;
}.

(** [period.ActionPlanRef] *)
Record ActionPlanRef := mkPeriodRef {
  pr_ID : UUID;
  pr_Title : string;
  pr_Status : string;
  pr_OwnerID : UUID;
  pr_DueDate : option Time;
  pr_AuditPeriodID : option UUID;
  pr_CreatedAt : Time;
}.

Record CreateInput := mkCreate {
  in_Title : string;
  in_Description : string;
  in_TriggeringEvent : string;
  in_OwnerID : UUID;
  in_DueDate : option Time;
  in_AuditPeriodID : option UUID;
  in_Actor : UUID;
  in_Now : Time;
}.

Record UpdateInput := mkUpdate {
  ui_Title : option string;
  ui_Description : option string;
  ui_TriggeringEvent : option string;
  ui_OwnerID : option UUID;
  ui_DueDate : option Time;
  ui_ClearDueDate : bool;
  ui_Status : option string;
  ui_Actor : UUID;
  ui_Now : Time;
}.

Record ListFilter := mkFilter {
  lf_Status : string;
  lf_Limit : Z;
  lf_CursorCreatedAt : option Time;
  lf_CursorID : option UUID;
}.

Definition planFromRow (r : Row) : ActionPlan :=
  mkPlan (row_ID r) (row_TenantID r) (row_Title r) (default "" (row_Description r)) (default "" (row_TriggeringEvent r))
    (row_OwnerID r) (row_DueDate r) (row_Status r) (row_AuditPeriodID r) (row_TombstonedAt r) (row_CreatedAt r) (row_UpdatedAt r).

(** An empty text is stored as NULL. *)
Definition strPtr (s : string) : option string := stringPtr s.
Definition nilIfEmpty (s : string) : option string := stringPtr s.

Definition refFromRow (r : Row) : PlanRef := mkRef (row_ID r) (row_Title r) (row_Status r) (row_DueDate r).
Definition linkFromRow (l : LinkRow) : Link := mkLink (ln_TargetID l) (ln_LinkedAt l) (ln_LinkedBy l).
Definition entryFromRow (l : LogRow) : AuditEntry :=
  mkEntry (lg_ID l) (lg_ActionPlanID l) (lg_ActorID l) (lg_ActionType l) (default "" (lg_BeforeState l)) (default "" (lg_AfterState l))
    (lg_CreatedAt l).

(** The surroundings of a call: context, pool, process clock, transaction clock, the
    identifiers [uuid.New] draws for a plan and for an audit row, and what other
    transactions commit between the reads of the call and its writes. *)
Record Env := mkEnv {
  env_ctx : Context;
  env_infra : Infra;
  env_clock : Time;
  env_now : Time;
  env_newID : UUID;
  env_auditID : UUID;
  env_rival : DB → DB;
}.

Section Store.
Context {UT : UUIDText} {JB : JsonB} {PL : Planner}.

(** [json.Marshal] of the snapshot map: keys in order.  A timestamp comes from the
    driver in the zone of the process, taken to be UTC. *)
Definition planSnapshot (p : ActionPlan) : json :=
  JObj ([("description", JStr (Description p))] ++
        match DueDate p with Some t => [("due_date", JStr (FormatDate t))] | None => [] end ++
        [("owner_id", JStr (uuid_String (OwnerID p))); ("status", JStr (Status p)); ("title", JStr (Title p))] ++
        match TombstonedAt p with Some t => [("tombstoned_at", JStr (FormatRFC3339 t))] | None => [] end ++
        [("triggering_event", JStr (TriggeringEvent p))]).
Definition marshal (j : json) : string := render go_quote j.
Definition link_detail (targetID : UUID) : json := JObj [("target_id", JStr (uuid_String targetID))].

(** ** The store *)

Definition inTx {A} (env : Env) (fn : UUID → Tx (Session DB) Error A) : Tx DB Error A := λ d,
  let '(r, se) := Tenancy.inTx (env_infra env) (env_ctx env) fn (mkSession d false) in (r, s_db se).

(** The point between reads and writes, and a transaction with such a point: what
    the others committed stays when this one is rolled back. *)
Definition meanwhile (env : Env) : Tx (Session DB) Error () := λ se, (Ok (), mkSession (env_rival env (s_db se)) (aborted se)).
Definition contended {A} (env : Env) (fn : UUID → Tx (Session DB) Error A) : Tx DB Error A := λ d,
  match inTx env fn d with
  | (Ok a, d') => (Ok a, d')
  | (Err e, _) => (Err e, env_rival env d)
  end.

Definition writeAudit (env : Env) (tenantID planID actor : UUID) (action : string) (before after : option string)
  : Tx (Session DB) Error () :=
  tx_try (stmt (WriteActionPlanAuditLog (env_now env)
                  (mkLogRow (env_auditID env) tenantID planID actor action before after time_zero)))
    (λ r, match r with
          | Err e => tx_fail (ErrStatement ("write action plan audit (" +:+ action +:+ ")") e)
          | Ok _ => mret ()
          end).

(** A read that must find the live plan. *)
Definition getPlan (what : string) (tenantID id : UUID) : Tx (Session DB) Error Row :=
  tx_try (stmt (GetActionPlanByID tenantID id))
    (λ r, match r with
          | Err NoRows => tx_fail ErrNotFound
          | Err e => tx_fail (ErrStatement what e)
          | Ok row => mret row
          end).

Definition checkOwner (tenantID ownerID : UUID) : Tx (Session DB) Error () :=
  tx_try (stmt (query (ActionPlanOwnerExistsInTenant tenantID ownerID)))
    (λ r, match r with
          | Err e => tx_fail (ErrStatement "owner existence probe" e)
          | Ok ok => if ok then mret () else tx_fail ErrOwnerNotInTenant
          end).

Definition validateCreate (env : Env) (i : CreateInput) : option Error :=
  match ValidateTitle (in_Title i) with
  | Some e => Some e
  | None =>
  match ValidateDescription (in_Description i) with
  | Some e => Some e
  | None =>
  match ValidateTriggeringEvent (in_TriggeringEvent i) with
  | Some e => Some e
  | None =>
      if bool_decide (in_OwnerID i = uuid_Nil) then Some ErrOwnerRequired
      else ValidateDueDate (env_clock env) (in_DueDate i) (if IsZero (in_Now i) then env_clock env else in_Now i)
  end end end.

Definition Create (env : Env) (i : CreateInput) : Tx DB Error ActionPlan :=
  match validateCreate env i with
  | Some e => tx_fail e
  | None =>
      contended env (λ tenantID,
        _ ← checkOwner tenantID (in_OwnerID i);
        _ ← meanwhile env;
        tx_try (stmt (CreateActionPlan (env_now env)
                        (mkCreateParams (env_newID env) tenantID (in_Title i) (strPtr (in_Description i)) (strPtr (in_TriggeringEvent i))
                           (in_OwnerID i) (in_DueDate i) StatusDraft (in_AuditPeriodID i))))
          (λ r, match r with
                | Err e => tx_fail (ErrStatement "create action plan" e)
                | Ok row =>
                    let out := planFromRow row in
                    _ ← writeAudit env tenantID (env_newID env) (in_Actor i) ActionCreated None (Some (marshal (planSnapshot out)));
                    mret out
                end))
  end.

Definition Get (env : Env) (id : UUID) : Tx DB Error ActionPlan :=
  inTx env (λ tenantID, row ← getPlan "get action plan" tenantID id; mret (planFromRow row)).

Definition loadLinkage (tenantID planID : UUID) : Tx (Session DB) Error Linkage :=
  tx_try (stmt (query (ListActionPlanRisks tenantID planID)))
    (λ rs, match rs with
           | Err e => tx_fail (ErrStatement "list action plan risks" e)
           | Ok rs =>
               tx_try (stmt (query (ListActionPlanControls tenantID planID)))
                 (λ cs, match cs with
                        | Err e => tx_fail (ErrStatement "list action plan controls" e)
                        | Ok cs => mret (mkLinkage (linkFromRow <$> rs) (linkFromRow <$> cs))
                        end)
           end).

Definition GetWithLinkage (env : Env) (id : UUID) : Tx DB Error (ActionPlan * Linkage) :=
  inTx env (λ tenantID,
    row ← getPlan "get action plan" tenantID id;
    lk ← loadLinkage tenantID id;
    mret (planFromRow row, lk)).

(** A read of rows, or the error of its statement. *)
Definition readRows {A B} (what : string) (q : DB → result SqlErr (list A * DB)) (f : A → B) : Tx (Session DB) Error (list B) :=
  tx_try (stmt q) (λ r, match r with Err e => tx_fail (ErrStatement what e) | Ok rows => mret (f <$> rows) end).

Definition List_ (env : Env) (f : ListFilter) : Tx DB Error (list ActionPlan) :=
  let limit := ClampLimit (lf_Limit f) in
  inTx env (λ tenantID,
    readRows "list action plans"
      (ListActionPlans (mkListParams tenantID (nilIfEmpty (lf_Status f)) (lf_CursorCreatedAt f) (lf_CursorID f) (int32 limit))) planFromRow).

Definition ListSnapshot (env : Env) (frozenAt : Time) : Tx DB Error (list ActionPlan) :=
  inTx env (λ tenantID, readRows "list action plans snapshot" (query (ListActionPlansSnapshot tenantID frozenAt)) planFromRow).

(** The closure handed to the audit periods; [None] is its error. *)
Definition periodRef (p : ActionPlan) : ActionPlanRef :=
  mkPeriodRef (ID p) (Title p) (Status p) (OwnerID p) (DueDate p) (AuditPeriodID p) (CreatedAt p).
Definition PeriodSnapshotLister (env : Env) (d : DB) : Time → option (list ActionPlanRef) := λ horizon,
  match (ListSnapshot env horizon d).1 with
  | Err _ => None
  | Ok plans => Some (periodRef <$> plans)
  end.

(** *** Update *)

Definition validateUpdate (i : UpdateInput) : option Error :=
  match ui_Title i ≫= ValidateTitle with
  | Some e => Some e
  | None =>
  match ui_Description i ≫= ValidateDescription with
  | Some e => Some e
  | None =>
  match ui_TriggeringEvent i ≫= ValidateTriggeringEvent with
  | Some e => Some e
  | None => match ui_Status i with Some s => if ValidStatus s then None else Some ErrInvalidStatus | None => None end
  end end end.

(** The due date after the edit. *)
Definition next_due (env : Env) (i : UpdateInput) (cur : ActionPlan) : result Error (option Time) :=
  if ui_ClearDueDate i then Ok None
  else match ui_DueDate i with
  | Some due =>
      match ValidateDueDate (env_clock env) (Some due) (if IsZero (ui_Now i) then env_clock env else ui_Now i) with
      | Some e => Err e
      | None => Ok (Some due)
      end
  | None => Ok (DueDate cur)
  end.

(** The status after the edit, and whether it changes. *)
Definition next_status (i : UpdateInput) (cur : ActionPlan) : result Error (string * bool) :=
  match ui_Status i with
  | Some s =>
      if bool_decide (s = Status cur) then Ok (Status cur, false)
      else if AllowedTransition (Status cur) s then Ok (s, true) else Err ErrIllegalTransition
  | None => Ok (Status cur, false)
  end.

Definition update_params (tenantID id : UUID) (i : UpdateInput) (cur : ActionPlan) (due : option Time) (status : string)
  : UpdateActionPlanParams :=
  mkUpdateParams tenantID id (default (Title cur) (ui_Title i)) (strPtr (default (Description cur) (ui_Description i)))
    (strPtr (default (TriggeringEvent cur) (ui_TriggeringEvent i))) (default (OwnerID cur) (ui_OwnerID i)) due status
    (AuditPeriodID cur).

Definition Update (env : Env) (id : UUID) (i : UpdateInput) : Tx DB Error ActionPlan :=
  match validateUpdate i with
  | Some e => tx_fail e
  | None =>
      contended env (λ tenantID,
        before ← getPlan "get action plan (update)" tenantID id;
        let cur := planFromRow before in
        _ ← (match ui_OwnerID i with Some o => checkOwner tenantID o | None => mret () end);
        due ← tx_lift (next_due env i cur);
        '(status, statusChanged) ← tx_lift (next_status i cur);
        _ ← meanwhile env;
        tx_try (stmt (UpdateActionPlan (env_now env) (update_params tenantID id i cur due status)))
          (λ r, match r with
                | Err NoRows => tx_fail ErrNotFound
                | Err (CheckViolation _) => tx_fail ErrIllegalTransition
                | Err e => tx_fail (ErrStatement "update action plan" e)
                | Ok row =>
                    let out := planFromRow row in
                    _ ← writeAudit env tenantID id (ui_Actor i) (if statusChanged : bool then ActionStatusChanged else ActionUpdated)
                          (Some (marshal (planSnapshot cur))) (Some (marshal (planSnapshot out)));
                    mret out
                end))
  end.

Definition Tombstone (env : Env) (id actor : UUID) : Tx DB Error () :=
  contended env (λ tenantID,
    before ← getPlan "get action plan (tombstone)" tenantID id;
    _ ← meanwhile env;
    tx_try (stmt (TombstoneActionPlan (env_now env) tenantID id))
      (λ r, match r with
            | Err NoRows => tx_fail ErrNotFound
            | Err e => tx_fail (ErrStatement "tombstone action plan" e)
            | Ok row =>
                writeAudit env tenantID id actor ActionTombstoned (Some (marshal (planSnapshot (planFromRow before))))
                  (Some (marshal (planSnapshot (planFromRow row))))
            end)).

(** *** Links *)

Record linkSpec := mkLinkSpec {
  planID : UUID;
  targetID : UUID;
  actor : UUID;
  action : string;
  maxCap : Z;
  targetExists : UUID → DB → bool;
  count : UUID → DB → Z;
  linkExists : UUID → DB → bool;
  insert : UUID → DB → result SqlErr (() * DB);
}.

(** A probe, or the error of its statement. *)
Definition probe {A} (what : string) (q : DB → A) : Tx (Session DB) Error A :=
  tx_try (stmt (query q)) (λ r, match r with Err e => tx_fail (ErrStatement what e) | Ok a => mret a end).

Definition link (env : Env) (spec : linkSpec) : Tx DB Error () :=
  contended env (λ tenantID,
    _ ← getPlan "get action plan (link)" tenantID (planID spec);
    targetOK ← probe "link target existence probe" (targetExists spec tenantID);
    if negb targetOK then tx_fail ErrLinkTargetNotFound
    else
      exists_ ← probe "link existence probe" (linkExists spec tenantID);
      if exists_ : bool then tx_fail ErrAlreadyLinked
      else
        n ← probe "link count probe" (count spec tenantID);
        if maxCap spec <=? n then tx_fail ErrLimitExceeded
        else
          _ ← meanwhile env;
          tx_try (stmt (insert spec tenantID))
            (λ r, match r with
                  | Err UniqueViolation => tx_fail ErrAlreadyLinked
                  | Err ForeignKeyViolation => tx_fail ErrLinkTargetNotFound
                  | Err e => tx_fail (ErrStatement "insert link" e)
                  | Ok _ =>
                      writeAudit env tenantID (planID spec) (actor spec) (action spec) None (Some (marshal (link_detail (targetID spec))))
                  end)).

Definition unlink (env : Env) (planID actor : UUID) (action : string) (targetID : UUID) (del : UUID → DB → result SqlErr (Z * DB))
  : Tx DB Error () :=
  contended env (λ tenantID,
    _ ← getPlan "get action plan (unlink)" tenantID planID;
    _ ← meanwhile env;
    tx_try (stmt (del tenantID))
      (λ r, match r with
            | Err e => tx_fail (ErrStatement "delete link" e)
            | Ok n =>
                if bool_decide (n = 0) then tx_fail ErrNotLinked
                else writeAudit env tenantID planID actor action (Some (marshal (link_detail targetID))) None
            end)).

Definition LinkRisk (env : Env) (planID riskID actor : UUID) : Tx DB Error () :=
  link env (mkLinkSpec planID riskID actor ActionRiskLinked MaxLinkedRisks
    (λ t, ActionPlanRiskExistsInTenant t riskID) (λ t, CountActionPlanRisks t planID) (λ t, ActionPlanRiskExists t planID riskID)
    (λ t, LinkActionPlanRisk (env_now env) planID riskID t actor)).

Definition LinkControl (env : Env) (planID controlID actor : UUID) : Tx DB Error () :=
  link env (mkLinkSpec planID controlID actor ActionControlLinked MaxLinkedControls
    (λ t, ActionPlanControlExistsInTenant t controlID) (λ t, CountActionPlanControls t planID)
    (λ t, ActionPlanControlExists t planID controlID) (λ t, LinkActionPlanControl (env_now env) planID controlID t actor)).

Definition UnlinkRisk (env : Env) (planID riskID actor : UUID) : Tx DB Error () :=
  unlink env planID actor ActionRiskUnlinked riskID (λ t, UnlinkActionPlanRisk t planID riskID).

Definition UnlinkControl (env : Env) (planID controlID actor : UUID) : Tx DB Error () :=
  unlink env planID actor ActionControlUnlinked controlID (λ t, UnlinkActionPlanControl t planID controlID).

(** *** Reads by target, and the trail *)

Definition PlansForRisk (env : Env) (riskID : UUID) : Tx DB Error (list PlanRef) :=
  inTx env (λ t, readRows "list plans for risk" (query (ListActionPlanIDsForRisk t riskID)) refFromRow).
Definition PlansForControl (env : Env) (controlID : UUID) : Tx DB Error (list PlanRef) :=
  inTx env (λ t, readRows "list plans for control" (query (ListActionPlanIDsForControl t controlID)) refFromRow).
Definition ListAuditLog (env : Env) (planID : UUID) : Tx DB Error (list AuditEntry) :=
  inTx env (λ t, readRows "list action plan audit log" (query (ListActionPlanAuditLog t planID)) entryFromRow).

End Store.
End ActionPlan.
