(* ===== verification/ActionPlanApi.v ===== *)
(** * The action-plan handlers

    Models internal/api/actionplans (handlers.go, authz.go): who may read and write,
    how requests are read, the pages of the list and their cursors, and how the
    store's errors become status codes.  Decoding the JSON body is a parameter: the
    handlers get the decoded request, or [None]. *)

From Stdlib Require Import Ascii.
From S2P Require Import Prelude GoTime Tenancy Json Float64 GoJson TimeText Postgres Ingest Http ActionPlan.
Import ActionPlan.

Module ActionPlanApi.

(** The path's identifiers and the query's parameters, with the context and the
    credential the middleware left in it. *)
Record Request := mkRequest {
  rq_ctx : Context;
  rq_cred : option Credential;
  rq_id : string;
  rq_target : string;
  rq_status : string;
  rq_limit : string;
  rq_cursor : string;
}.

Record createReq := mkCreateReq {
  cr_Title : string;
  cr_Description : string;
  cr_TriggeringEvent : string;
  cr_OwnerID : string;
  cr_DueDate : option Time;
  cr_AuditPeriodID : option string;
}.

Record updateReq := mkUpdateReq {
  ur_Title : option string;
  ur_Description : option string;
  ur_TriggeringEvent : option string;
  ur_OwnerID : option string;
  ur_DueDate : option Time;
  ur_ClearDueDate : bool;
  ur_Status : option string;
}.

Record linkWire := mkLinkWire { lw_TargetID : string; lw_LinkedAt : Time; lw_LinkedBy : string }.
Record linkageWire := mkLinkageWire { lw_Risks : list linkWire; lw_Controls : list linkWire }.

Record planWire := mkPlanWire {
  pw_ID : string;
  pw_Title : string;
  pw_Description : string;
  pw_TriggeringEvent : string;
  pw_OwnerID : string;
  pw_DueDate : option string;
  pw_Status : string;
  pw_AuditPeriodID : option string;
  pw_CreatedAt : Time;
  pw_UpdatedAt : Time;
}.

Record refWire := mkRefWire { rw_ID : string; rw_Title : string; rw_Status : string; rw_DueDate : option string }.

(** The bodies of the replies. *)
Record listBody := mkListBody { lb_action_plans : list planWire; lb_count : Z; lb_next_cursor : option string }.
Record linkBody := mkLinkBody { kb_linked : bool; kb_action_plan_id : string; kb_target : string }.

(** ** Roles (authz.go) *)

Definition hasProgramRead (c : Credential) : bool := cred_IsAdmin c || cred_IsApprover c || negb (bool_decide (cred_OwnerRoles c = [])).
Definition hasProgramWrite (c : Credential) : bool := cred_IsAdmin c || cred_IsApprover c || negb (bool_decide (cred_OwnerRoles c = [])).

Definition requireProgramRead (r : Request) : bool := match rq_cred r with Some c => hasProgramRead c | None => false end.
Definition requireProgramWrite (r : Request) : bool := match rq_cred r with Some c => hasProgramWrite c | None => false end.

Definition read_denied {A} : Reply A := WriteError StatusForbidden "role does not grant risk/program-read access".
Definition write_denied {A} : Reply A := WriteError StatusForbidden "role does not grant risk/program-write access".

(** ** Cursors *)

(** [strings.SplitN(s, ",", 2)], when it has two parts. *)
Fixpoint cut_comma (s : string) : option (string * string) :=
  match s with
  | "" => None
  | String c s => if bool_decide (c = ","%char) then Some ("", s) else '(a, b) ← cut_comma s; Some (String c a, b)
  end.

(** [strconv.Atoi] *)
Definition Atoi (s : string) : option Z :=
  let '(neg, ds) := match s with
                    | String "-"%char t => (true, t)
                    | String "+"%char t => (false, t)
                    | t => (false, t)
                    end in
  if bool_decide (ds = "") || negb (all_digits ds) then None
  else let n := if neg : bool then - digits_val ds 0 else digits_val ds 0 in
       if bool_decide (- 2 ^ 63 ≤ n < 2 ^ 63) then Some n else None.

(** [jwtmw.SubjectUserID] *)
Definition SubjectUserID (s : string) : string :=
  if String.prefix "user:" s then String.substring 5 (String.length s - 5) s else s.

Section Api.
Context {UT : UUIDText} {JB : JsonB} {PL : Planner}.

Definition encodeCursor (ts : Time) (id : UUID) : string := FormatRFC3339Nano ts +:+ "," +:+ uuid_String id.
Definition parseCursor (raw : string) : option (Time * UUID) :=
  '(a, b) ← cut_comma raw; ts ← ParseRFC3339Nano a; id ← uuid_Parse b; Some (ts, id).

(** ** Wire shapes *)

Definition planWireFrom (p : ActionPlan) : planWire :=
  mkPlanWire (uuid_String (ID p)) (Title p) (Description p) (TriggeringEvent p) (uuid_String (OwnerID p)) (FormatDate <$> DueDate p)
    (Status p) (uuid_String <$> AuditPeriodID p) (CreatedAt p) (UpdatedAt p).
Definition linkSliceWire (links : list Link) : list linkWire :=
  (λ l, mkLinkWire (uuid_String (TargetID l)) (LinkedAt l) (uuid_String (LinkedBy l))) <$> links.
Definition linkageWireFrom (lk : Linkage) : linkageWire := mkLinkageWire (linkSliceWire (Risks lk)) (linkSliceWire (Controls lk)).
Definition refWireFrom (r : PlanRef) : refWire := mkRefWire (uuid_String (ref_ID r)) (ref_Title r) (ref_Status r) (FormatDate <$> ref_DueDate r).

(** ** Errors *)

Definition writeStoreErr {A} (op : string) (e : Error) : Reply A :=
  match e with
  | ErrNotFound => WriteError StatusNotFound "action plan not found"
  | ErrLinkTargetNotFound => WriteError StatusNotFound "link target not found"
  | ErrNotLinked => WriteError StatusNotFound "link does not exist"
  | ErrAlreadyLinked => WriteError StatusConflict "already linked"
  | ErrIllegalTransition => WriteError StatusUnprocessableEntity "illegal status transition"
  | ErrLimitExceeded => WriteError StatusUnprocessableEntity "limit_exceeded"
  | ErrTitleRequired => WriteError StatusBadRequest "actionplan: title is required"
  | ErrTitleTooLong => WriteError StatusBadRequest "actionplan: title exceeds 200 characters"
  | ErrDescriptionTooLong => WriteError StatusBadRequest "actionplan: description exceeds 4000 characters"
  | ErrTriggeringEventTooLong => WriteError StatusBadRequest "actionplan: triggering_event exceeds 500 characters"
  | ErrOwnerRequired => WriteError StatusBadRequest "actionplan: owner_id is required"
  | ErrOwnerNotInTenant => WriteError StatusBadRequest "actionplan: owner_id is not a user in this tenant"
  | ErrDueDateTooFar => WriteError StatusBadRequest "actionplan: due_date exceeds 5-year horizon"
  | ErrInvalidStatus => WriteError StatusBadRequest "actionplan: invalid status"
  | ErrStatement _ _ | ErrTx _ => WriteInternal op
  end.

(** ** Identity *)

Definition tenantCtx (r : Request) : option (Context * Credential) :=
  match rq_cred r with
  | None => None
  | Some cred =>
      if bool_decide (cred_TenantID cred = "") then None
      else match TenantFromContext (rq_ctx r) with
           | Err _ => None
           | Ok _ => Some (rq_ctx r, cred)
           end
  end.

Definition identity {A} (r : Request) : result (Reply A) (Context * UUID) :=
  match tenantCtx r with
  | None => Err (WriteError StatusUnauthorized "tenant context missing")
  | Some (ctx, cred) =>
      match uuid_Parse (SubjectUserID (cred_UserID cred)) with
      | None => Err (WriteError StatusForbidden "action plan mutation requires a user credential")
      | Some actor => Ok (ctx, actor)
      end
  end.

(** The store works with the request's context. *)
Definition with_ctx (env : Env) (ctx : Context) : Env :=
  mkEnv ctx (env_infra env) (env_clock env) (env_now env) (env_newID env) (env_auditID env) (env_rival env).

Definition reply {A B} (op : string) (code : Z) (f : A → B) (r : result Error A * DB) : Reply B * DB :=
  (match r.1 with Ok a => WriteJSON code (f a) | Err e => writeStoreErr op e end, r.2).

(** ** The routes *)

Definition bad {A} (msg : string) : Reply A := WriteError StatusBadRequest msg.

(** An absent or blank period is none. *)
Definition period_of (s : option string) : option (option UUID) :=
  match s with
  | None => Some None
  | Some s => if bool_decide (TrimSpace s = "") then Some None else Some <$> uuid_Parse (TrimSpace s)
  end.

Definition CreateActionPlan (env : Env) (r : Request) (body : option createReq) (d : DB) : Reply planWire * DB :=
  if negb (requireProgramWrite r) then (write_denied, d)
  else match identity r with
  | Err rep => (rep, d)
  | Ok (ctx, actor) =>
      match body with
      | None => (bad "invalid JSON body", d)
      | Some req =>
          if bool_decide (TrimSpace (cr_Title req) = "") then (bad "title is required", d)
          else match uuid_Parse (TrimSpace (cr_OwnerID req)) with
          | None => (bad "owner_id must be a UUID", d)
          | Some ownerID =>
              match period_of (cr_AuditPeriodID req) with
              | None => (bad "audit_period_id must be a UUID", d)
              | Some apID =>
                  reply "create action plan" StatusCreated planWireFrom
                    (Create (with_ctx env ctx) (mkCreate (cr_Title req) (cr_Description req) (cr_TriggeringEvent req) ownerID
                                                   (cr_DueDate req) apID actor time_zero) d)
              end
          end
      end
  end.

(** The filter the query's parameters ask for, or the reply to a bad one. *)
Definition listFilter (r : Request) : result string ListFilter :=
  let status := TrimSpace (rq_status r) in
  if bool_decide (status ≠ "") && negb (ValidStatus status) then Err "status is not a valid action plan status"
  else
    limit ← (let raw := TrimSpace (rq_limit r) in
             if bool_decide (raw = "") then Ok 0
             else match Atoi raw with
                  | Some n => if n <? 0 then Err "limit must be a non-negative integer" else Ok n
                  | None => Err "limit must be a non-negative integer"
                  end);
    let raw := TrimSpace (rq_cursor r) in
    if bool_decide (raw = "") then Ok (mkFilter status limit None None)
    else match parseCursor raw with
         | None => Err "cursor is malformed"
         | Some (ts, id) => Ok (mkFilter status limit (Some ts) (Some id))
         end.

(** A cursor to the next page when this one is full. *)
Definition next_cursor (f : ListFilter) (rows : list ActionPlan) : option string :=
  if bool_decide (Z.of_nat (length rows) = ClampLimit (lf_Limit f)) && bool_decide (rows ≠ [])
  then (λ p, encodeCursor (CreatedAt p) (ID p)) <$> last rows else None.

Definition ListActionPlans (env : Env) (r : Request) (d : DB) : Reply listBody * DB :=
  if negb (requireProgramRead r) then (read_denied, d)
  else match tenantCtx r with
  | None => (WriteError StatusUnauthorized "tenant context missing", d)
  | Some (ctx, _) =>
      match listFilter r with
      | Err msg => (bad msg, d)
      | Ok f =>
          reply "list action plans" StatusOK
            (λ rows, mkListBody (planWireFrom <$> rows) (Z.of_nat (length rows)) (next_cursor f rows))
            (List_ (with_ctx env ctx) f d)
      end
  end.

Definition GetActionPlan (env : Env) (r : Request) (d : DB) : Reply (planWire * linkageWire) * DB :=
  if negb (requireProgramRead r) then (read_denied, d)
  else match tenantCtx r with
  | None => (WriteError StatusUnauthorized "tenant context missing", d)
  | Some (ctx, _) =>
      match uuid_Parse (rq_id r) with
      | None => (bad "id must be a UUID", d)
      | Some id =>
          reply "get action plan" StatusOK (λ '(p, lk), (planWireFrom p, linkageWireFrom lk)) (GetWithLinkage (with_ctx env ctx) id d)
      end
  end.

Definition UpdateActionPlan (env : Env) (r : Request) (body : option updateReq) (d : DB) : Reply planWire * DB :=
  if negb (requireProgramWrite r) then (write_denied, d)
  else match identity r with
  | Err rep => (rep, d)
  | Ok (ctx, actor) =>
      match uuid_Parse (rq_id r) with
      | None => (bad "id must be a UUID", d)
      | Some id =>
          match body with
          | None => (bad "invalid JSON body", d)
          | Some req =>
              match (match ur_OwnerID req with None => Some None | Some o => Some <$> uuid_Parse (TrimSpace o) end) with
              | None => (bad "owner_id must be a UUID", d)
              | Some owner =>
                  reply "update action plan" StatusOK planWireFrom
                    (Update (with_ctx env ctx) id
                       (mkUpdate (ur_Title req) (ur_Description req) (ur_TriggeringEvent req) owner (ur_DueDate req) (ur_ClearDueDate req)
                          (ur_Status req) actor time_zero) d)
              end
          end
      end
  end.

Definition DeleteActionPlan (env : Env) (r : Request) (d : DB) : Reply string * DB :=
  if negb (requireProgramWrite r) then (write_denied, d)
  else match identity r with
  | Err rep => (rep, d)
  | Ok (ctx, actor) =>
      match uuid_Parse (rq_id r) with
      | None => (bad "id must be a UUID", d)
      | Some id => reply "delete action plan" StatusOK (λ _, uuid_String id) (Tombstone (with_ctx env ctx) id actor d)
      end
  end.

(** [linkHandler] and [unlinkHandler] differ in the operation's name and the reply's
    flag. *)
Definition linkHandler (op : string) (flag : bool) (param : string) (fn : Env → UUID → UUID → UUID → Tx DB Error ()) (env : Env) (r : Request)
    (d : DB) : Reply linkBody * DB :=
  if negb (requireProgramWrite r) then (write_denied, d)
  else match identity r with
  | Err rep => (rep, d)
  | Ok (ctx, actor) =>
      match uuid_Parse (rq_id r) with
      | None => (bad "id must be a UUID", d)
      | Some planID =>
          match uuid_Parse (rq_target r) with
          | None => (bad (param +:+ " must be a UUID"), d)
          | Some target =>
              reply op StatusOK (λ _, mkLinkBody flag (uuid_String planID) (uuid_String target)) (fn (with_ctx env ctx) planID target actor d)
          end
      end
  end.

Definition LinkRisk : Env → Request → DB → Reply linkBody * DB := linkHandler "link" true "risk_id" ActionPlan.LinkRisk.
Definition UnlinkRisk : Env → Request → DB → Reply linkBody * DB := linkHandler "unlink" false "risk_id" ActionPlan.UnlinkRisk.
Definition LinkControl : Env → Request → DB → Reply linkBody * DB := linkHandler "link" true "control_id" ActionPlan.LinkControl.
Definition UnlinkControl : Env → Request → DB → Reply linkBody * DB := linkHandler "unlink" false "control_id" ActionPlan.UnlinkControl.

Definition plansForTarget (fn : Env → UUID → Tx DB Error (list PlanRef)) (env : Env) (r : Request) (d : DB) : Reply (list refWire) * DB :=
  if negb (requireProgramRead r) then (read_denied, d)
  else match tenantCtx r with
  | None => (WriteError StatusUnauthorized "tenant context missing", d)
  | Some (ctx, _) =>
      match uuid_Parse (rq_id r) with
      | None => (bad "id must be a UUID", d)
      | Some target => reply "list linked action plans" StatusOK (fmap refWireFrom) (fn (with_ctx env ctx) target d)
      end
  end.

Definition PlansForRisk : Env → Request → DB → Reply (list refWire) * DB := plansForTarget ActionPlan.PlansForRisk.
Definition PlansForControl : Env → Request → DB → Reply (list refWire) * DB := plansForTarget ActionPlan.PlansForControl.

End Api.
End ActionPlanApi.
