(* ===== verification/ActionPlanSpec.v ===== *)
(** * Action plans: what every interleaving keeps, and what it does not

    The calls of the store as steps; the history of a plan; its audit trail; its
    links; and two places where the store departs from its comments. *)

From S2P Require Import Prelude GoTime Tenancy Json Sha256 Float64 GoJson TimeText Postgres AuditPeriod ActionPlan.
Import ActionPlan.

Module ActionPlanSpec.

(** ** One statement at a time *)

Lemma plan_live_at t id r : live_at t id r = true ↔ row_TenantID r = t ∧ row_ID r = id ∧ row_TombstonedAt r = None.
Proof. unfold live_at. rewrite !andb_true_iff, !bool_decide_eq_true. tauto. Qed.

Lemma plan_update_one_Ok p f d r d' :
  update_one p f d = Ok (r, d') →
  (∃ x, x ∈ action_plans d ∧ p x = true ∧ r = f x) ∧ d' = with_plans d (update_where p f (action_plans d)) ∧
  ∀ y, y ∈ action_plans d → p y = true → update_error d y (f y) = None.
Proof.
  unfold update_one. destruct (select_where p (action_plans d)) as [|x xs] eqn:Hs; [done|].
  destruct (omap (M := list) _ (x :: xs)) as [|e es] eqn:Ho; [|done]. intros [= <- <-]. split_and!; [|done|].
  - exists x. assert (Hx : x ∈ select_where p (action_plans d)) by (rewrite Hs; left). apply elem_of_select_where in Hx as [? ?]. eauto.
  - intros y Hy Hp. destruct (update_error d y (f y)) as [e|] eqn:E; [|done]. exfalso.
    assert (Hin : e ∈ omap (M := list) (λ x, update_error d x (f x)) (x :: xs)).
    { apply list_elem_of_omap. exists y. split; [|done]. rewrite <- Hs. by apply elem_of_select_where. }
    rewrite Ho in Hin. by apply elem_of_nil in Hin.
Qed.

Lemma update_error_None d old new :
  update_error d old new = None → action_plans_status_transition_guard old new = true ∧ check_row new = None.
Proof. unfold update_error. repeat case_match; try done. intros _. by apply negb_false_iff in H. Qed.

(** *** The trigger and the state machine *)

Lemma check_status r : check_row r = None → ValidStatus (row_Status r) = true.
Proof. unfold check_row. repeat case_match; try done. intros _. by apply negb_false_iff in H0. Qed.

Ltac by_status H := unfold ValidStatus in H; apply bool_decide_eq_true in H; rewrite !elem_of_cons, elem_of_nil in H.

(** On rows the CHECK constraint admits, the trigger lets pass exactly the edges of
    [AllowedTransition]. *)
Lemma guard_agrees old new :
  check_row old = None → check_row new = None →
  action_plans_status_transition_guard old new = AllowedTransition (row_Status old) (row_Status new).
Proof.
  intros Ho%check_status Hn%check_status. unfold action_plans_status_transition_guard. revert Ho Hn.
  generalize (row_Status old), (row_Status new). intros o n Ho Hn. by_status Ho. by_status Hn.
  destruct Ho as [->|[->|[->|[->|[->|[]]]]]], Hn as [->|[->|[->|[->|[->|[]]]]]]; reflexivity.
Qed.

(** *** The pieces of a call *)

Section Calls.
Context {UT : UUIDText} {JB : JsonB} {PL : Planner}.

Lemma contended_cases {A} env (fn : UUID → Tx (Session DB) Error A) d r d' :
  contended env fn d = (r, d') →
  (∃ t a ab, tenant_of (env_ctx env) = Some t ∧ r = Ok a ∧ fn t (mkSession d false) = (Ok a, mkSession d' ab)) ∨
  (∃ e, r = Err e ∧ d' = env_rival env d).
Proof using UT.
  unfold contended, inTx. destruct (Tenancy.inTx _ _ _ _) as [r0 [d0 ab]] eqn:E.
  apply (inTx_cases s_db) in E as [(t & a & Ht & -> & H)|(e & -> & ?)]; intros [= <- <-]; [left|right]; eauto 10.
Qed.

Lemma getPlan_Ok what t id d r se :
  getPlan what t id (mkSession d false) = (Ok r, se) → se = mkSession d false ∧ r ∈ action_plans d ∧ live_at t id r = true.
Proof using.
  unfold getPlan. rewrite try_live. destruct (GetActionPlanByID t id d) as [[x d0]|e] eqn:E; [|by destruct e].
  apply first_row_Ok in E as [Hx ->]. intros [= <- <-]. apply elem_of_select_where in Hx as [? ?]. auto.
Qed.

Lemma checkOwner_Ok t o d u se : checkOwner t o (mkSession d false) = (Ok u, se) → se = mkSession d false ∧ (t, o) ∈ users d.
Proof using.
  unfold checkOwner. rewrite try_live. cbn [query]. unfold ActionPlanOwnerExistsInTenant. case_bool_decide; [|done].
  by intros [= _ <-].
Qed.

Lemma probe_Ok {A} what (q : DB → A) d : probe what q (mkSession d false) = (Ok (q d), mkSession d false).
Proof using. done. Qed.

(** The jsonb column's text for a parameter. *)
Definition stored (s t : option string) : Prop :=
  match s with None => t = None | Some s => ∃ x, jsonb_in s = Some x ∧ t = Some x end.

Lemma writeAudit_Ok env t id actor act b a d u se :
  writeAudit env t id actor act b a (mkSession d false) = (Ok u, se) →
  ∃ b' a', stored b b' ∧ stored a a' ∧ ¬ (env_auditID env ∈ lg_ID <$> action_plan_audit_log d) ∧
    se = mkSession (with_log d (action_plan_audit_log d ++ [mkLogRow (env_auditID env) t id actor act b' a' (env_now env)])) false.
Proof using.
  unfold writeAudit. rewrite try_live.
  destruct (WriteActionPlanAuditLog _ _ d) as [[x d0]|e] eqn:E; [|done]. intros [= _ <-].
  unfold WriteActionPlanAuditLog in E. cbn [lg_BeforeState lg_AfterState lg_ID lg_TenantID lg_ActionPlanID lg_ActorID lg_ActionType] in E.
  assert (Hs : ∀ s y, match s with None => Some None | Some s => t ← jsonb_in s; Some (Some t) end = Some y → stored s y).
  { intros [s|] y; [|by intros [= <-]]. cbn. destruct (jsonb_in s); [|done]. intros [= <-]. eauto. }
  destruct (match b with Some _ => _ | None => _ end) as [b'|] eqn:Eb; [|done].
  destruct (match a with Some _ => _ | None => _ end) as [a'|] eqn:Ea; [|done].
  case_match; [done|]. case_bool_decide; [done|]. injection E as _ <-. eauto 10.
Qed.

(** What a successful call did, with the state the rivals left as its start. *)
Lemma plan_Create_Ok env i d p d' :
  Create env i d = (Ok p, d') →
  validateCreate env i = None ∧ ∃ t row d2 a,
    tenant_of (env_ctx env) = Some t ∧ (t, in_OwnerID i) ∈ users d ∧
    CreateActionPlan (env_now env)
      (mkCreateParams (env_newID env) t (in_Title i) (strPtr (in_Description i)) (strPtr (in_TriggeringEvent i))
         (in_OwnerID i) (in_DueDate i) StatusDraft (in_AuditPeriodID i)) (env_rival env d) = Ok (row, d2) ∧
    p = planFromRow row ∧ jsonb_in (marshal (planSnapshot p)) = Some a ∧
    d' = with_log d2 (action_plan_audit_log d2 ++
           [mkLogRow (env_auditID env) t (env_newID env) (in_Actor i) ActionCreated None (Some a) (env_now env)]).
Proof using UT.
  unfold Create. destruct (validateCreate env i); [done|].
  intros [(t & ? & ab & Ht & [= <-] & H)|(e & [=] & _)]%contended_cases. split; [done|].
  apply tx_bind_Ok in H as (? & s & [-> Ho]%checkOwner_Ok & H). apply tx_bind_Ok in H as (? & s & [= _ <-] & H).
  cbn [s_db aborted] in H. rewrite try_live in H. destruct (CreateActionPlan _ _ _) as [[row d2]|e] eqn:E; [|done].
  apply tx_bind_Ok in H as (? & s & (b & a & Hb & Ha & _ & ->)%writeAudit_Ok & [= <- <- _]).
  cbn in Hb, Ha. subst b. destruct Ha as (y & Hy & ->). exists t, row, d2, y. by split_and!.
Qed.

Lemma plan_Update_Ok env id i d p d' :
  Update env id i d = (Ok p, d') →
  validateUpdate i = None ∧ ∃ t before due status changed row d2 b a,
    tenant_of (env_ctx env) = Some t ∧ before ∈ action_plans d ∧ live_at t id before = true ∧
    (∀ o, ui_OwnerID i = Some o → (t, o) ∈ users d) ∧
    next_due env i (planFromRow before) = Ok due ∧ next_status i (planFromRow before) = Ok (status, changed) ∧
    UpdateActionPlan (env_now env) (update_params t id i (planFromRow before) due status) (env_rival env d) = Ok (row, d2) ∧
    p = planFromRow row ∧ jsonb_in (marshal (planSnapshot (planFromRow before))) = Some b ∧ jsonb_in (marshal (planSnapshot p)) = Some a ∧
    d' = with_log d2 (action_plan_audit_log d2 ++
           [mkLogRow (env_auditID env) t id (ui_Actor i) (if changed : bool then ActionStatusChanged else ActionUpdated) (Some b) (Some a)
              (env_now env)]).
Proof using UT.
  unfold Update. destruct (validateUpdate i); [done|].
  intros [(t & ? & ab & Ht & [= <-] & H)|(e & [=] & _)]%contended_cases. split; [done|].
  apply tx_bind_Ok in H as (before & s & (-> & Hb & Hl)%getPlan_Ok & H). cbv zeta in H.
  apply tx_bind_Ok in H as (? & s & Ho & H).
  assert (Hown : s = mkSession d false ∧ ∀ o, ui_OwnerID i = Some o → (t, o) ∈ users d).
  { destruct (ui_OwnerID i) as [o|].
    - apply checkOwner_Ok in Ho as [-> Ho]. split; [done|]. by intros ? [= <-].
    - by injection Ho as _ <-. }
  destruct Hown as [-> Hown]. apply tx_bind_Ok in H as (due & s & [Hd ->]%tx_lift_Ok & H).
  apply tx_bind_Ok in H as ([status changed] & s & [Hs ->]%tx_lift_Ok & H). apply tx_bind_Ok in H as (? & s & [= _ <-] & H).
  cbn [s_db aborted] in H. rewrite try_live in H. destruct (UpdateActionPlan _ _ _) as [[row d2]|e] eqn:E; [|by destruct e].
  apply tx_bind_Ok in H as (? & s & (b & a & Hbs & Ha & _ & ->)%writeAudit_Ok & [= <- <- _]).
  destruct Hbs as (v & Hv & ->), Ha as (y & Hy & ->). exists t, before, due, status, changed, row, d2, v, y. by split_and!.
Qed.

Lemma plan_Tombstone_Ok env id actor d u d' :
  Tombstone env id actor d = (Ok u, d') →
  ∃ t before row d2 b a,
    tenant_of (env_ctx env) = Some t ∧ before ∈ action_plans d ∧ live_at t id before = true ∧
    TombstoneActionPlan (env_now env) t id (env_rival env d) = Ok (row, d2) ∧
    jsonb_in (marshal (planSnapshot (planFromRow before))) = Some b ∧ jsonb_in (marshal (planSnapshot (planFromRow row))) = Some a ∧
    d' = with_log d2 (action_plan_audit_log d2 ++
           [mkLogRow (env_auditID env) t id actor ActionTombstoned (Some b) (Some a) (env_now env)]).
Proof using UT.
  unfold Tombstone. intros [(t & ? & ab & Ht & [= <-] & H)|(e & [=] & _)]%contended_cases.
  apply tx_bind_Ok in H as (before & s & (-> & Hb & Hl)%getPlan_Ok & H). apply tx_bind_Ok in H as (? & s & [= _ <-] & H).
  cbn [s_db aborted] in H. rewrite try_live in H. destruct (TombstoneActionPlan _ _ _ _) as [[row d2]|e] eqn:E; [|by destruct e].
  apply writeAudit_Ok in H as (b & a & Hbs & Ha & _ & [= -> _]).
  destruct Hbs as (v & Hv & ->), Ha as (y & Hy & ->). exists t, before, row, d2, v, y. by split_and!.
Qed.

Lemma plan_link_Ok env spec d u d' :
  link env spec d = (Ok u, d') →
  ∃ t before d2 a,
    tenant_of (env_ctx env) = Some t ∧ before ∈ action_plans d ∧ live_at t (planID spec) before = true ∧
    targetExists spec t d = true ∧ linkExists spec t d = false ∧ count spec t d < maxCap spec ∧
    insert spec t (env_rival env d) = Ok (tt, d2) ∧
    d' = with_log d2 (action_plan_audit_log d2 ++
           [mkLogRow (env_auditID env) t (planID spec) (actor spec) (action spec) None (Some a) (env_now env)]).
Proof using UT.
  unfold link. intros [(t & ? & ab & Ht & [= <-] & H)|(e & [=] & _)]%contended_cases.
  apply tx_bind_Ok in H as (before & s & (-> & Hb & Hl)%getPlan_Ok & H).
  apply tx_bind_Ok in H as (? & s & [= <- <-] & H). destruct (targetExists spec t d) eqn:Ht1; [cbn [negb] in H|done].
  apply tx_bind_Ok in H as (? & s & [= <- <-] & H). destruct (linkExists spec t d) eqn:Hx; [done|].
  apply tx_bind_Ok in H as (? & s & [= <- <-] & H). destruct (maxCap spec <=? count spec t d) eqn:Hc; [done|].
  apply tx_bind_Ok in H as (? & s & [= _ <-] & H). cbn [s_db aborted] in H. rewrite try_live in H.
  destruct (insert spec t _) as [[[] d2]|e] eqn:E; [|by destruct e].
  apply writeAudit_Ok in H as (b & a & Hbs & Ha & _ & [= -> _]). cbn in Hbs. subst b. destruct Ha as (y & Hy & ->).
  exists t, before, d2, y. apply Z.leb_gt in Hc. by split_and!.
Qed.

Lemma plan_unlink_Ok env planID actor action targetID del d u d' :
  unlink env planID actor action targetID del d = (Ok u, d') →
  ∃ t before n d2 b,
    tenant_of (env_ctx env) = Some t ∧ before ∈ action_plans d ∧ live_at t planID before = true ∧
    del t (env_rival env d) = Ok (n, d2) ∧ n ≠ 0 ∧
    d' = with_log d2 (action_plan_audit_log d2 ++
           [mkLogRow (env_auditID env) t planID actor action (Some b) None (env_now env)]).
Proof using UT.
  unfold unlink. intros [(t & ? & ab & Ht & [= <-] & H)|(e & [=] & _)]%contended_cases.
  apply tx_bind_Ok in H as (before & s & (-> & Hb & Hl)%getPlan_Ok & H). apply tx_bind_Ok in H as (? & s & [= _ <-] & H).
  cbn [s_db aborted] in H. rewrite try_live in H. destruct (del t _) as [[n d2]|e] eqn:E; [|done].
  case_bool_decide; [done|]. apply writeAudit_Ok in H as (b & a & Hbs & Ha & _ & [= -> _]). cbn in Ha. subst a.
  destruct Hbs as (y & Hy & ->). exists t, before, n, d2, y. by split_and!.
Qed.

(** ** The calls that write, as steps *)

Inductive Request :=
| RCreate (i : CreateInput)
| RUpdate (id : UUID) (i : UpdateInput)
| RTombstone (id actor : UUID)
| RLinkRisk (plan risk actor : UUID)
| RUnlinkRisk (plan risk actor : UUID)
| RLinkControl (plan control actor : UUID)
| RUnlinkControl (plan control actor : UUID).

Definition outcome {A} (p : result Error A * DB) : option Error * DB :=
  (match p.1 with Ok _ => None | Err e => Some e end, p.2).

Definition perform (env : Env) (rq : Request) (d : DB) : option Error * DB :=
  match rq with
  | RCreate i => outcome (Create env i d)
  | RUpdate id i => outcome (Update env id i d)
  | RTombstone id a => outcome (Tombstone env id a d)
  | RLinkRisk p r a => outcome (LinkRisk env p r a d)
  | RUnlinkRisk p r a => outcome (UnlinkRisk env p r a d)
  | RLinkControl p c a => outcome (LinkControl env p c a d)
  | RUnlinkControl p c a => outcome (UnlinkControl env p c a d)
  end.

(** The rest of the program adds and removes users, risks, controls and periods; a
    removed target takes its links with it. *)
Definition elsewhere (d d' : DB) : Prop :=
  action_plans d' = action_plans d ∧ action_plan_audit_log d' = action_plan_audit_log d ∧
  (∃ p, action_plan_risks d' = select_where p (action_plan_risks d)) ∧
  (∃ p, action_plan_controls d' = select_where p (action_plan_controls d)) ∧
  (∀ l, l ∈ action_plan_risks d' → (ln_TenantID l, ln_TargetID l) ∈ risks d') ∧
  (∀ l, l ∈ action_plan_controls d' → (ln_TenantID l, ln_TargetID l) ∈ controls d').

(** What any number of callers can do: between the reads and the writes of a call
    others run to their end. *)
Inductive runs : DB → DB → Prop :=
| runs_refl d : runs d d
| runs_call d d1 env rq e d2 : runs d d1 → runs d1 (env_rival env d1) → perform env rq d1 = (e, d2) → runs d d2
| runs_other d d1 d2 : runs d d1 → elsewhere d1 d2 → runs d d2.

(** A call fails and leaves what it found, or succeeds. *)
Lemma outcome_cases {A} (p : result Error A * DB) e d' :
  outcome p = (e, d') → (∃ a, p = (Ok a, d') ∧ e = None) ∨ (∃ x, p = (Err x, d') ∧ e = Some x).
Proof using. destruct p as [[a|x] d0]; intros [= <- <-]; eauto. Qed.

Lemma contended_Err {A} env (fn : UUID → Tx (Session DB) Error A) d x d' : contended env fn d = (Err x, d') → d' = env_rival env d.
Proof using UT. by intros [(? & ? & ? & _ & [=] & _)|(? & _ & ->)]%contended_cases. Qed.

Lemma failed_keeps env rq d x d' : perform env rq d = (Some x, d') → d' = d ∨ d' = env_rival env d.
Proof using UT.
  destruct rq; cbn [perform]; intros [(? & _ & [=])|(? & H & _)]%outcome_cases;
    try (right; by apply contended_Err in H).
  - unfold Create in H. case_match; [left; by injection H|right; by apply contended_Err in H].
  - unfold Update in H. case_match; [left; by injection H|right; by apply contended_Err in H].
Qed.

(** What the statements do to the tables. *)
Definition linked (env : Env) (planID targetID by_ t : UUID) : LinkRow := mkLinkRow planID targetID t (env_now env) by_.

Lemma insert_link_Ok targets table put l d u d' :
  insert_link targets table put l d = Ok (u, d') →
  d' = put (table ++ [l]) ∧
  (∀ x, x ∈ table → ¬ (ln_ActionPlanID x = ln_ActionPlanID l ∧ ln_TargetID x = ln_TargetID l)) ∧
  (ln_TenantID l, ln_ActionPlanID l) ∈ ((λ r, (row_TenantID r, row_ID r)) <$> action_plans d) ∧ (ln_TenantID l, ln_TargetID l) ∈ targets.
Proof using.
  unfold insert_link. destruct (existsb _ _) eqn:E; [done|]. case_match eqn:H; [|done]. intros [= _ <-].
  apply andb_true_iff in H as [H1%bool_decide_eq_true H2%bool_decide_eq_true]. split_and!; try done.
  intros x Hx [Hp Ht]. apply not_true_iff_false in E. apply E, existsb_exists. exists x. rewrite <- list_elem_of_In.
  split; [done|]. by rewrite Hp, Ht, !bool_decide_eq_true_2.
Qed.

(** *** The history of a plan *)

Definition sound (d : DB) : Prop := NoDup (row_ID <$> action_plans d) ∧ ∀ r, r ∈ action_plans d → check_row r = None.

Definition edge (a b : string) : Prop := AllowedTransition a b = true.
Definition plan_later (r r' : Row) : Prop :=
  row_ID r' = row_ID r ∧ row_TenantID r' = row_TenantID r ∧ row_CreatedAt r' = row_CreatedAt r ∧
  rtc edge (row_Status r) (row_Status r') ∧ (row_TombstonedAt r ≠ None → r' = r).
Definition later (d d' : DB) : Prop :=
  (∀ r, r ∈ action_plans d → ∃ r', r' ∈ action_plans d' ∧ plan_later r r') ∧
  action_plan_audit_log d `prefix_of` action_plan_audit_log d'.

#[local] Instance plan_later_preorder : PreOrder plan_later.
Proof using.
  split.
  - intros r. by split_and!.
  - intros a b c (? & ? & ? & Hab & Ha) (? & ? & ? & Hbc & Hb). split_and!; [congruence..|by etrans|].
    intros Ht. specialize (Ha Ht). subst b. auto.
Qed.
#[local] Instance later_preorder : PreOrder later.
Proof using.
  split.
  - intros d. split; [|done]. intros r Hr. by exists r.
  - intros a b c [Hab ?] [Hbc ?]. split; [|by etrans]. intros r Hr.
    destruct (Hab r Hr) as (r1 & Hr1 & H1). destruct (Hbc r1 Hr1) as (r2 & Hr2 & H2). exists r2. split; [done|by etrans].
Qed.

(** Same plans, one more line in the log. *)
Lemma later_log d d' es : action_plans d' = action_plans d → action_plan_audit_log d' = action_plan_audit_log d ++ es → later d d'.
Proof using. intros Hp Hl. split; rewrite ?Hp, ?Hl; [|by apply prefix_app_r]. intros r Hr. by exists r. Qed.

Lemma update_later t id f d r d2 l :
  sound d → update_one (live_at t id) f d = Ok (r, d2) →
  (∀ x, row_ID (f x) = row_ID x ∧ row_TenantID (f x) = row_TenantID x ∧ row_CreatedAt (f x) = row_CreatedAt x) →
  sound (with_log d2 (action_plan_audit_log d2 ++ [l])) ∧ later d (with_log d2 (action_plan_audit_log d2 ++ [l])).
Proof using.
  intros [Hnd Hc] (_ & -> & He)%plan_update_one_Ok Hf. split; split; cbn [action_plans action_plan_audit_log with_log with_plans].
  - rewrite update_where_key; [done|]. intros x. by destruct (Hf x).
  - intros y (x & Hx & ->)%elem_of_update_where. destruct (live_at t id x) eqn:E; [|auto].
    by apply (update_error_None d x); auto.
  - intros x Hx. destruct (live_at t id x) eqn:E.
    + exists (f x). split; [apply elem_of_update_where; exists x; by rewrite E|]. destruct (Hf x) as (? & ? & ?).
      destruct (update_error_None _ _ _ (He x Hx E)) as [Hg Hk]. rewrite guard_agrees in Hg by auto. apply plan_live_at in E as (_ & _ & Ht).
      split_and!; [done..|by apply rtc_once|by rewrite Ht].
    + exists x. split; [apply elem_of_update_where; exists x; by rewrite E|done].
  - by apply prefix_app_r.
Qed.

Lemma create_later now a d row d2 l :
  sound d → CreateActionPlan now a d = Ok (row, d2) →
  sound (with_log d2 (action_plan_audit_log d2 ++ [l])) ∧ later d (with_log d2 (action_plan_audit_log d2 ++ [l])).
Proof using.
  intros [Hnd Hc]. unfold CreateActionPlan. cbv zeta. case_match; [done|]. destruct (check_row _) eqn:Hk; [done|].
  case_bool_decide as Hid; [done|]. case_match; [|done]. intros [= <- <-].
  split; split; cbn [action_plans action_plan_audit_log with_log with_plans].
  - rewrite fmap_app. apply NoDup_app. split_and!; [done| |apply NoDup_singleton].
    intros x Hx ->%list_elem_of_singleton. done.
  - intros x [?| ->%list_elem_of_singleton]%elem_of_app; auto.
  - intros r Hr. exists r. split; [|done]. rewrite elem_of_app. by left.
  - by apply prefix_app_r.
Qed.

Lemma sound_same d d' : action_plans d' = action_plans d → sound d → sound d'.
Proof using. unfold sound. by intros ->. Qed.

Lemma same_later d d' l :
  action_plans d' = action_plans d → action_plan_audit_log d' = action_plan_audit_log d ++ [l] → sound d → sound d' ∧ later d d'.
Proof using. intros Hp Hl Hs. split; [by eapply sound_same|by eapply later_log]. Qed.

Lemma succeeded_later env rq d d' : sound (env_rival env d) → perform env rq d = (None, d') → sound d' ∧ later (env_rival env d) d'.
Proof using UT.
  intros Hs. destruct rq; cbn [perform]; intros [(a & H & _)|(? & _ & [=])]%outcome_cases.
  - apply plan_Create_Ok in H as (_ & t & row & d2 & x & _ & _ & E & _ & _ & ->). by eapply create_later.
  - apply plan_Update_Ok in H as (_ & t & b & due & st & ch & row & d2 & x & y & _ & _ & _ & _ & _ & _ & E & _ & _ & _ & ->).
    unfold UpdateActionPlan in E. case_match; [done|]. by eapply update_later.
  - apply plan_Tombstone_Ok in H as (t & b & row & d2 & x & y & _ & _ & _ & E & _ & _ & ->). by eapply update_later.
  - apply plan_link_Ok in H as (t & b & d2 & x & _ & _ & _ & _ & _ & _ & (-> & _)%insert_link_Ok & ->). by eapply same_later.
  - apply plan_unlink_Ok in H as (t & b & n & d2 & x & _ & _ & _ & [= _ <-] & _ & ->). by eapply same_later.
  - apply plan_link_Ok in H as (t & b & d2 & x & _ & _ & _ & _ & _ & _ & (-> & _)%insert_link_Ok & ->). by eapply same_later.
  - apply plan_unlink_Ok in H as (t & b & n & d2 & x & _ & _ & _ & [= _ <-] & _ & ->). by eapply same_later.
Qed.

Lemma runs_later d d' : runs d d' → sound d → sound d' ∧ later d d'.
Proof using UT.
  induction 1 as [d|d d1 env rq e d2 H1 IH1 H2 IH2 Hp|d d1 d2 H1 IH1 (Hp & Hl & _)]; intros Hs.
  - done.
  - destruct (IH1 Hs) as [Hs1 Hl1]. destruct (IH2 Hs1) as [Hs2 Hl2]. destruct e as [x|].
    + destruct (failed_keeps _ _ _ _ _ Hp) as [->| ->]; [done|]. split; [done|by etrans].
    + destruct (succeeded_later _ _ _ _ Hs2 Hp) as [Hs3 Hl3]. split; [done|].
      etrans; [exact Hl1|]. etrans; [exact Hl2|exact Hl3].
  - destruct (IH1 Hs) as [Hs1 Hl1]. split; [by eapply sound_same|]. etrans; [done|].
    apply (later_log _ _ []); [done|by rewrite app_nil_r].
Qed.

(** Verification is final, and nothing returns to draft. *)
Lemma verified_final a s : rtc edge a s → a = StatusVerified → s = StatusVerified.
Proof using.
  induction 1 as [|a b c Hab _ IH]; [done|]. intros ->. apply IH.
  unfold edge, AllowedTransition in Hab. change (ValidStatus StatusVerified) with true in Hab. destruct (ValidStatus b); [|done].
  cbn [negb orb] in Hab. case_bool_decide; [done|discriminate Hab].
Qed.

Lemma draft_only_first a s : rtc edge a s → s = StatusDraft → a = StatusDraft.
Proof using.
  induction 1 as [|a b c Hab _ IH]; [done|]. intros Hc. specialize (IH Hc). subst b.
  unfold edge, AllowedTransition in Hab. destruct (ValidStatus a) eqn:Hv; [|done]. cbn in Hab.
  repeat (case_bool_decide; try done).
Qed.

(** C29: Whatever calls run against the tables, also with others committing between
    the reads and the writes of each, a plan is never deleted and keeps its
    identifier, tenant and creation time; its status moves only along the edges of
    the state machine, so a verified plan stays verified and no plan goes back to
    draft; a tombstoned plan does not change again; and the audit log only grows. *)
Theorem plan_history d d' r :
  sound d → runs d d' → r ∈ action_plans d →
  (∃ r', r' ∈ action_plans d' ∧ row_ID r' = row_ID r ∧ row_TenantID r' = row_TenantID r ∧ row_CreatedAt r' = row_CreatedAt r ∧
     rtc edge (row_Status r) (row_Status r') ∧ (row_Status r = StatusVerified → row_Status r' = StatusVerified) ∧
     (row_Status r' = StatusDraft → row_Status r = StatusDraft) ∧ (row_TombstonedAt r ≠ None → r' = r)) ∧
  action_plan_audit_log d `prefix_of` action_plan_audit_log d'.
Proof using UT.
  intros Hs Hr Hin. destruct (runs_later _ _ Hr Hs) as [_ [Hp Hl]]. destruct (Hp r Hin) as (r' & Hr' & ? & ? & ? & He & ?).
  split; [|done]. exists r'. split_and!; try done; [|by apply draft_only_first].
  by apply verified_final.
Qed.

(** ** The audit trail, when nobody interferes *)

Definition quiet (env : Env) : Prop := ∀ d, env_rival env d = d.

(** One call after the other. *)
Inductive alone : DB → Prop :=
| alone_start d :
    action_plans d = [] → action_plan_risks d = [] → action_plan_controls d = [] → action_plan_audit_log d = [] → alone d
| alone_call d env rq e d' : alone d → quiet env → perform env rq d = (e, d') → alone d'
| alone_other d d' : alone d → elsewhere d d' → alone d'.

Definition state_actions : list string := [ActionCreated; ActionUpdated; ActionStatusChanged; ActionTombstoned].
(** The lines of the log about the state of a plan. *)
Definition about (id : UUID) (l : LogRow) : bool := bool_decide (lg_ActionPlanID l = id) && bool_decide (lg_ActionType l ∈ state_actions).
Definition trail (id : UUID) (log : list LogRow) : list LogRow := select_where (about id) log.

(** The text a column holds for a version of a plan. *)
Definition recorded_as (r : Row) (t : option string) : Prop := ∃ x, jsonb_in (marshal (planSnapshot (planFromRow r))) = Some x ∧ t = Some x.

(** A trail that tells every version of a plan, from its draft to [r]. *)
Inductive tells : list LogRow → Row → Prop :=
| tells_created l r :
    lg_ActionType l = ActionCreated → lg_BeforeState l = None → recorded_as r (lg_AfterState l) →
    row_Status r = StatusDraft → row_TombstonedAt r = None → tells [l] r
| tells_edit ls v l r :
    tells ls v → recorded_as v (lg_BeforeState l) → recorded_as r (lg_AfterState l) →
    row_TombstonedAt v = None → row_TombstonedAt r = None → edge (row_Status v) (row_Status r) →
    lg_ActionType l = (if bool_decide (row_Status r = row_Status v) then ActionUpdated else ActionStatusChanged) →
    tells (ls ++ [l]) r
| tells_tombstoned ls v l now :
    tells ls v → recorded_as v (lg_BeforeState l) → recorded_as (tombstoned_row now v) (lg_AfterState l) →
    row_TombstonedAt v = None → lg_ActionType l = ActionTombstoned → tells (ls ++ [l]) (tombstoned_row now v).

Definition told (d : DB) : Prop :=
  sound d ∧ (∀ l, l ∈ action_plan_audit_log d → lg_ActionPlanID l ∈ row_ID <$> action_plans d) ∧
  ∀ r, r ∈ action_plans d → tells (trail (row_ID r) (action_plan_audit_log d)) r.

Lemma trail_snoc id log l : trail id (log ++ [l]) = trail id log ++ (if about id l then [l] else []).
Proof using.
  unfold trail. rewrite select_where_app. f_equal. unfold select_where. rewrite filter_cons, filter_nil.
  destruct (about id l); [by rewrite decide_True|by rewrite decide_False].
Qed.

Lemma about_other id l : lg_ActionPlanID l ≠ id → about id l = false.
Proof using. intros. unfold about. by rewrite bool_decide_eq_false_2. Qed.

(** An update in place that tells the new version of the one plan it changes. *)
Lemma told_update t id f d before l d' :
  action_plans d' = update_where (live_at t id) f (action_plans d) → action_plan_audit_log d' = action_plan_audit_log d ++ [l] →
  told d → sound d' → before ∈ action_plans d → live_at t id before = true →
  lg_ActionPlanID l = id → (∀ x, row_ID (f x) = row_ID x) → lg_ActionType l ∈ state_actions →
  (∀ ls, tells ls before → tells (ls ++ [l]) (f before)) → told d'.
Proof using.
  intros Hp Hlog (Hs & Hids & Ht) Hs' Hb Hl Hid Hf Hact Hstep.
  assert (Hbid : row_ID before = id) by by apply plan_live_at in Hl as (_ & ? & _).
  split_and!; [done|..].
  - rewrite Hp, Hlog, update_where_key by done. intros x [?| ->%list_elem_of_singleton]%elem_of_app; [auto|].
    rewrite Hid, <- Hbid. by apply list_elem_of_fmap_2.
  - rewrite Hp, Hlog. intros r (x & Hx & ->)%elem_of_update_where. rewrite trail_snoc.
    destruct (decide (row_ID x = id)) as [Hxid|Hne].
    + assert (x = before) as -> by (apply (NoDup_key_inj row_ID (action_plans d)); [by destruct Hs|done..|congruence]).
      rewrite Hl, Hf. unfold about. rewrite !bool_decide_eq_true_2 by congruence. apply Hstep. auto.
    + destruct (live_at t id x) eqn:E; [by apply plan_live_at in E as (_ & ? & _)|]. rewrite about_other by congruence.
      rewrite app_nil_r. auto.
Qed.

(** A line about links leaves the trails alone. *)
Lemma told_link d d' l :
  told d → action_plans d' = action_plans d → action_plan_audit_log d' = action_plan_audit_log d ++ [l] →
  lg_ActionPlanID l ∈ row_ID <$> action_plans d → ¬ (lg_ActionType l ∈ state_actions) → told d'.
Proof using.
  intros (Hs & Hids & Ht) Hp Hlog Hid Hact. unfold told. rewrite Hp, Hlog. split_and!; [by eapply sound_same|..].
  - intros x [?| ->%list_elem_of_singleton]%elem_of_app; auto.
  - intros r Hr. rewrite trail_snoc. unfold about. rewrite (bool_decide_eq_false_2 (_ ∈ state_actions)), andb_false_r, app_nil_r by done. auto.
Qed.

Lemma next_status_spec i cur status changed :
  next_status i cur = Ok (status, changed) → ValidStatus (Status cur) = true →
  edge (Status cur) status ∧ changed = negb (bool_decide (status = Status cur)).
Proof using.
  intros H Hv. assert (Hrefl : edge (Status cur) (Status cur)).
  { unfold edge, AllowedTransition. rewrite Hv. cbn [negb orb]. by rewrite bool_decide_eq_true_2. }
  unfold next_status in H. repeat case_match; simplify_eq; try (split; [done|]; by rewrite bool_decide_eq_true_2).
  apply bool_decide_eq_false in H1. split; [done|]. by rewrite bool_decide_eq_false_2.
Qed.

Lemma told_Create env i d p d' : quiet env → told d → sound d' → Create env i d = (Ok p, d') → told d'.
Proof using UT.
  intros Hq (Hs & Hids & Ht) Hs' (_ & t & row & d2 & x & _ & _ & E & -> & Hx & ->)%plan_Create_Ok. rewrite Hq in E.
  unfold CreateActionPlan in E. cbv zeta in E. case_match; [done|]. destruct (check_row _); [done|].
  case_bool_decide as Hid; [done|]. case_match; [|done]. injection E as <- <-.
  split_and!; [done|..]; cbn [action_plans action_plan_audit_log with_log with_plans].
  - intros l [Hl| ->%list_elem_of_singleton]%elem_of_app; rewrite fmap_app, elem_of_app; [left; auto|right].
    by apply list_elem_of_singleton.
  - intros r [Hr| ->%list_elem_of_singleton]%elem_of_app; rewrite trail_snoc.
    + rewrite about_other; [rewrite app_nil_r; auto|]. cbn. intros E. destruct Hid. cbn. rewrite E. by apply list_elem_of_fmap_2.
    + cbn [row_ID]. unfold trail. rewrite select_where_none.
      2: { intros l Hl. apply about_other. intros E. destruct Hid. cbn. rewrite <- E. auto. }
      unfold about. cbn [lg_ActionPlanID]. rewrite !bool_decide_eq_true_2; [|by left|done]. cbn [andb app].
      apply tells_created; [done..| |done|done]. by exists x.
Qed.

Lemma live_unique d t id x y :
  sound d → x ∈ action_plans d → y ∈ action_plans d → live_at t id x = true → live_at t id y = true → x = y.
Proof using.
  intros [Hn _] Hx Hy (_ & ? & _)%plan_live_at (_ & ? & _)%plan_live_at.
  apply (NoDup_key_inj row_ID (action_plans d)); [done..|congruence].
Qed.

Lemma told_Update env id i d p d' : quiet env → told d → sound d' → Update env id i d = (Ok p, d') → told d'.
Proof using UT.
  intros Hq Hd Hs' (_ & t & b & due & st & ch & row & d2 & x & y & _ & Hb & Hl & _ & _ & Hst & E & -> & Hx & Hy & ->)%plan_Update_Ok.
  rewrite Hq in E. unfold UpdateActionPlan in E. case_match; [done|]. apply plan_update_one_Ok in E as ((z & Hz & Hzl & ->) & -> & _).
  assert (Hs : sound d) by by destruct Hd. cbn [update_params up_TenantID up_ID] in Hzl, Hs'.
  assert (z = b) as -> by by apply (live_unique d t id).
  destruct (next_status_spec _ _ _ _ Hst) as [Hedge ->]; [apply check_status; destruct Hs; auto|].
  eapply (told_update t id _ d b); [reflexivity|reflexivity|done..| |].
  - cbn. destruct (bool_decide _); [right; left|right; right; left].
  - intros ls Hls. apply plan_live_at in Hl as (_ & _ & Hlt). eapply tells_edit; [exact Hls|by exists x|by exists y|done..|].
    cbn [lg_ActionType updated_row row_Status update_params up_Status]. by destruct (bool_decide _).
Qed.

Lemma told_Tombstone env id actor d u d' : quiet env → told d → sound d' → Tombstone env id actor d = (Ok u, d') → told d'.
Proof using UT.
  intros Hq Hd Hs' (t & b & row & d2 & x & y & _ & Hb & Hl & E & Hx & Hy & ->)%plan_Tombstone_Ok. rewrite Hq in E.
  apply plan_update_one_Ok in E as ((z & Hz & Hzl & ->) & -> & _).
  assert (z = b) as -> by (apply (live_unique d t id); [by destruct Hd|done..]).
  eapply (told_update t id _ d b); [reflexivity|reflexivity|done..| |].
  - right. right. right. left.
  - intros ls Hls. apply plan_live_at in Hl as (_ & _ & Hlt). eapply tells_tombstoned; [exact Hls|by exists x|by exists y|done|done].
Qed.

Lemma told_linked env spec d u d' : quiet env → told d →
  (∀ t dd v d2, insert spec t dd = Ok (v, d2) → action_plans d2 = action_plans dd ∧ action_plan_audit_log d2 = action_plan_audit_log dd) →
  ¬ (action spec ∈ state_actions) → link env spec d = (Ok u, d') → told d'.
Proof using UT.
  intros Hq Hd Hi Ha (t & b & d2 & x & _ & Hb & Hl & _ & _ & _ & E & ->)%plan_link_Ok. rewrite Hq in E.
  destruct (Hi _ _ _ _ E) as [Hp Hg]. eapply (told_link d); [done|done|by cbn; rewrite Hg| |done].
  apply plan_live_at in Hl as (_ & Hid & _). cbn [lg_ActionPlanID]. rewrite <- Hid. by apply list_elem_of_fmap_2.
Qed.

Lemma told_unlinked env planID actor action targetID del d u d' : quiet env → told d →
  (∀ t dd v d2, del t dd = Ok (v, d2) → action_plans d2 = action_plans dd ∧ action_plan_audit_log d2 = action_plan_audit_log dd) →
  ¬ (action ∈ state_actions) → unlink env planID actor action targetID del d = (Ok u, d') → told d'.
Proof using UT.
  intros Hq Hd Hi Ha (t & b & n & d2 & x & _ & Hb & Hl & E & _ & ->)%plan_unlink_Ok. rewrite Hq in E.
  destruct (Hi _ _ _ _ E) as [Hp Hg]. eapply (told_link d); [done|done|by cbn; rewrite Hg| |done].
  apply plan_live_at in Hl as (_ & Hid & _). cbn [lg_ActionPlanID]. rewrite <- Hid. by apply list_elem_of_fmap_2.
Qed.

Lemma told_call env rq d d' : quiet env → told d → perform env rq d = (None, d') → told d'.
Proof using UT.
  intros Hq Hd H. assert (Hs' : sound d').
  { apply (succeeded_later env rq d); [rewrite Hq; by destruct Hd|done]. }
  destruct rq; cbn [perform] in H; apply outcome_cases in H as [(a & H & _)|(? & _ & [=])].
  - by eapply told_Create.
  - by eapply told_Update.
  - by eapply told_Tombstone.
  - eapply told_linked; [done..| | |exact H]; [by intros t dd v d2 (-> & _)%insert_link_Ok|refine (bool_decide_unpack _ _); vm_compute; exact I].
  - eapply told_unlinked; [done..| | |exact H]; [by intros t dd v d2 [= _ <-]|refine (bool_decide_unpack _ _); vm_compute; exact I].
  - eapply told_linked; [done..| | |exact H]; [by intros t dd v d2 (-> & _)%insert_link_Ok|refine (bool_decide_unpack _ _); vm_compute; exact I].
  - eapply told_unlinked; [done..| | |exact H]; [by intros t dd v d2 [= _ <-]|refine (bool_decide_unpack _ _); vm_compute; exact I].
Qed.

Lemma quiet_failed env rq d x d' : quiet env → perform env rq d = (Some x, d') → d' = d.
Proof using UT. intros Hq [->| ->]%failed_keeps; [done|apply Hq]. Qed.

(** C30: When the calls run one after the other, the audit log tells every version of
    every plan: the first line of a plan's trail records its draft, each later one the
    version before and the version after it, named status_changed exactly when the
    status moved and then along an edge, tombstoned when the plan was, and the last
    one the plan as it stands. *)
Theorem trail_tells_plan d r : alone d → r ∈ action_plans d → tells (trail (row_ID r) (action_plan_audit_log d)) r.
Proof using UT.
  intros Ha. revert r. assert (Ht : told d); [|by destruct Ht as (_ & _ & ?)].
  induction Ha as [d Hp _ _ Hl|d env rq e d' _ IH Hq H|d d' _ IH (Hp & Hl & _)].
  - unfold told, sound. rewrite Hp, Hl. split_and!; [constructor|by intros ? ?%elem_of_nil..].
  - destruct e as [x|]; [by apply quiet_failed in H as ->|by eapply told_call].
  - unfold told, sound in *. by rewrite Hp, Hl.
Qed.

(** ** Links *)

Definition plan_keys (d : DB) : list (UUID * UUID) := (λ r, (row_TenantID r, row_ID r)) <$> action_plans d.
(** A link table: no pair twice, plan and target of the link's own tenant. *)
Definition table_ok (keys targets : list (UUID * UUID)) (table : list LinkRow) : Prop :=
  NoDup ((λ l, (ln_ActionPlanID l, ln_TargetID l)) <$> table) ∧
  ∀ l, l ∈ table → (ln_TenantID l, ln_ActionPlanID l) ∈ keys ∧ (ln_TenantID l, ln_TargetID l) ∈ targets.
Definition links_ok (d : DB) : Prop :=
  table_ok (plan_keys d) (risks d) (action_plan_risks d) ∧ table_ok (plan_keys d) (controls d) (action_plan_controls d).

Lemma table_ok_keys keys keys' targets table : keys ⊆ keys' → table_ok keys targets table → table_ok keys' targets table.
Proof using. intros Hk [Hn Ht]. split; [done|]. intros l Hl. destruct (Ht l Hl). auto. Qed.

Lemma table_ok_select keys targets targets' p table :
  table_ok keys targets table → (∀ l, l ∈ select_where p table → (ln_TenantID l, ln_TargetID l) ∈ targets') →
  table_ok keys targets' (select_where p table).
Proof using.
  intros [Hn Ht] Hs. split; [|intros l Hl; split; [|auto]].
  - eapply sublist_NoDup; [exact Hn|]. apply fmap_sublist, sublist_filter.
  - apply elem_of_select_where in Hl as [_ Hl]. by apply Ht.
Qed.

Lemma table_ok_insert targets table put l d u d' :
  insert_link targets table put l d = Ok (u, d') → table_ok (plan_keys d) targets table → table_ok (plan_keys d) targets (table ++ [l]).
Proof using.
  intros (_ & Hu & Hk & Ht)%insert_link_Ok [Hn Hall]. split.
  - rewrite fmap_app. apply NoDup_app. split_and!; [done| |apply NoDup_singleton].
    intros x (y & -> & Hy)%list_elem_of_fmap Hx%list_elem_of_singleton. apply (Hu y Hy). by simplify_eq.
  - intros x [?| ->%list_elem_of_singleton]%elem_of_app; auto.
Qed.

Lemma keys_later t id f d r d2 :
  update_one (live_at t id) f d = Ok (r, d2) → (∀ x, row_ID (f x) = row_ID x ∧ row_TenantID (f x) = row_TenantID x) →
  plan_keys d2 = plan_keys d ∧ action_plan_risks d2 = action_plan_risks d ∧ action_plan_controls d2 = action_plan_controls d ∧
  risks d2 = risks d ∧ controls d2 = controls d.
Proof using.
  intros (_ & -> & _)%plan_update_one_Ok Hf. split_and!; try done. unfold plan_keys. cbn. apply update_where_key.
  intros x. by destruct (Hf x) as [-> ->].
Qed.

Lemma succeeded_links env rq d d' : links_ok (env_rival env d) → perform env rq d = (None, d') → links_ok d'.
Proof using UT.
  intros [Hr Hc]. destruct rq; cbn [perform]; intros [(a & H & _)|(? & _ & [=])]%outcome_cases.
  - apply plan_Create_Ok in H as (_ & t & row & d2 & x & _ & _ & E & _ & _ & ->).
    unfold CreateActionPlan in E. cbv zeta in E. repeat case_match; try done. injection E as <- <-.
    split; eapply table_ok_keys; [|exact Hr| |exact Hc]; unfold plan_keys; cbn; rewrite fmap_app; set_solver.
  - apply plan_Update_Ok in H as (_ & t & b & due & st & ch & row & d2 & x & y & _ & _ & _ & _ & _ & _ & E & _ & _ & _ & ->).
    unfold UpdateActionPlan in E. case_match; [done|]. apply keys_later in E as (Hk & H1 & H2 & H3 & H4); [|done].
    unfold links_ok, plan_keys in *. cbn. by rewrite Hk, H1, H2, H3, H4.
  - apply plan_Tombstone_Ok in H as (t & b & row & d2 & x & y & _ & _ & _ & E & _ & _ & ->).
    apply keys_later in E as (Hk & H1 & H2 & H3 & H4); [|done]. unfold links_ok, plan_keys in *. cbn. by rewrite Hk, H1, H2, H3, H4.
  - apply plan_link_Ok in H as (t & b & d2 & x & _ & _ & _ & _ & _ & _ & E & ->). split; [|].
    + apply (table_ok_insert _ _ _ _ _ _ _ E) in Hr. apply insert_link_Ok in E as (-> & _). done.
    + apply insert_link_Ok in E as (-> & _). done.
  - apply plan_unlink_Ok in H as (t & b & n & d2 & x & _ & _ & _ & [= _ <-] & _ & ->). split; [|done].
    eapply table_ok_select; [exact Hr|]. intros l [_ Hl]%elem_of_select_where. by apply Hr.
  - apply plan_link_Ok in H as (t & b & d2 & x & _ & _ & _ & _ & _ & _ & E & ->). split.
    + apply insert_link_Ok in E as (-> & _). done.
    + apply (table_ok_insert _ _ _ _ _ _ _ E) in Hc. apply insert_link_Ok in E as (-> & _). done.
  - apply plan_unlink_Ok in H as (t & b & n & d2 & x & _ & _ & _ & [= _ <-] & _ & ->). split; [done|].
    eapply table_ok_select; [exact Hc|]. intros l [_ Hl]%elem_of_select_where. by apply Hc.
Qed.

Lemma elsewhere_links d d' : elsewhere d d' → links_ok d → links_ok d'.
Proof using.
  intros (Hp & _ & (p & Er) & (q & Ec) & Hr & Hc) [H1 H2]. unfold links_ok, plan_keys. rewrite Hp, Er, Ec in *.
  split; by eapply table_ok_select.
Qed.

(** Links never leave the tenant, whatever runs concurrently. *)
Lemma links_in_tenant d d' : runs d d' → links_ok d → links_ok d'.
Proof using UT.
  induction 1 as [d|d d1 env rq e d2 H1 IH1 H2 IH2 Hp|d d1 d2 H1 IH1 He]; intros Hs; [done| |by eapply elsewhere_links; auto].
  destruct e as [x|]; [destruct (failed_keeps _ _ _ _ _ Hp) as [->| ->]; auto|]. eapply succeeded_links; [|exact Hp]. auto.
Qed.

Definition capped (table : list LinkRow) : Prop := ∀ t p, Z.of_nat (length (links_of t p table)) ≤ 50.

Lemma capped_select q table : capped table → capped (select_where q table).
Proof using.
  intros Hc t p. specialize (Hc t p). unfold links_of in *.
  assert (length (select_where (λ l, bool_decide (ln_TenantID l = t) && bool_decide (ln_ActionPlanID l = p)) (select_where q table)) ≤
          length (select_where (λ l, bool_decide (ln_TenantID l = t) && bool_decide (ln_ActionPlanID l = p)) table))%nat; [|lia].
  clear Hc. unfold select_where. induction table as [|x l IH]; [done|]. rewrite !filter_cons.
  repeat (case_decide; rewrite ?filter_cons); simpl; try lia; try done; rewrite ?decide_True by done; simpl; lia.
Qed.

Lemma capped_insert table l :
  capped table → Z.of_nat (length (links_of (ln_TenantID l) (ln_ActionPlanID l) table)) < 50 → capped (table ++ [l]).
Proof using.
  intros Hc Hn t p. specialize (Hc t p). unfold links_of in *. rewrite select_where_app, length_app.
  unfold select_where at 2. rewrite filter_cons, filter_nil. case_decide as H; simpl; [|lia].
  apply andb_true_iff in H as [<-%bool_decide_eq_true <-%bool_decide_eq_true]. lia.
Qed.

Definition all_capped (d : DB) : Prop := capped (action_plan_risks d) ∧ capped (action_plan_controls d).

Lemma capped_call env rq d d' : quiet env → all_capped d → perform env rq d = (None, d') → all_capped d'.
Proof using UT.
  intros Hq [Hr Hc]. destruct rq; cbn [perform]; intros [(a & H & _)|(? & _ & [=])]%outcome_cases.
  - apply plan_Create_Ok in H as (_ & t & row & d2 & x & _ & _ & E & _ & _ & ->). rewrite Hq in E.
    unfold CreateActionPlan in E. cbv zeta in E. repeat case_match; try done. injection E as <- <-. done.
  - apply plan_Update_Ok in H as (_ & t & b & due & st & ch & row & d2 & x & y & _ & _ & _ & _ & _ & _ & E & _ & _ & _ & ->).
    rewrite Hq in E. unfold UpdateActionPlan in E. case_match; [done|]. apply plan_update_one_Ok in E as (_ & -> & _). done.
  - apply plan_Tombstone_Ok in H as (t & b & row & d2 & x & y & _ & _ & _ & E & _ & _ & ->). rewrite Hq in E.
    apply plan_update_one_Ok in E as (_ & -> & _). done.
  - apply plan_link_Ok in H as (t & b & d2 & x & _ & _ & _ & _ & _ & Hn & E & ->). rewrite Hq in E.
    apply insert_link_Ok in E as (-> & _). split; [|done]. by apply capped_insert.
  - apply plan_unlink_Ok in H as (t & b & n & d2 & x & _ & _ & _ & [= _ <-] & _ & ->). rewrite Hq. split; [|done]. by apply capped_select.
  - apply plan_link_Ok in H as (t & b & d2 & x & _ & _ & _ & _ & _ & Hn & E & ->). rewrite Hq in E.
    apply insert_link_Ok in E as (-> & _). split; [done|]. by apply capped_insert.
  - apply plan_unlink_Ok in H as (t & b & n & d2 & x & _ & _ & _ & [= _ <-] & _ & ->). rewrite Hq. split; [done|]. by apply capped_select.
Qed.

Lemma alone_links d : alone d → links_ok d ∧ all_capped d.
Proof using UT.
  induction 1 as [d _ H1 H2 _|d env rq e d' _ [IH1 IH2] Hq H|d d' _ [IH1 [Hr Hc]] He].
  - split; split; rewrite ?H1, ?H2; try (intros t p; done); (split; [constructor|by intros ? ?%elem_of_nil]).
  - destruct e as [x|]; [by apply quiet_failed in H as ->|].
    split; [eapply succeeded_links; [|exact H]; by rewrite Hq|by eapply capped_call].
  - split; [by eapply elsewhere_links|]. destruct He as (_ & _ & (p & E1) & (q & E2) & _).
    split; rewrite ?E1, ?E2; by apply capped_select.
Qed.

(** Calls that run one after the other keep at most fifty risks and fifty
    controls on a plan, no target twice, and every link between a plan and a target
    of the link's own tenant. *)
Theorem links_capped d t p :
  alone d →
  CountActionPlanRisks t p d ≤ MaxLinkedRisks ∧ CountActionPlanControls t p d ≤ MaxLinkedControls ∧
  NoDup (ln_TargetID <$> links_of t p (action_plan_risks d)) ∧ NoDup (ln_TargetID <$> links_of t p (action_plan_controls d)) ∧
  (∀ l, l ∈ links_of t p (action_plan_risks d) → (t, p) ∈ plan_keys d ∧ (t, ln_TargetID l) ∈ risks d) ∧
  (∀ l, l ∈ links_of t p (action_plan_controls d) → (t, p) ∈ plan_keys d ∧ (t, ln_TargetID l) ∈ controls d).
Proof using UT.
  intros [[Hr Hc] [Kr Kc]]%alone_links.
  assert (Hof : ∀ l table, l ∈ links_of t p table → l ∈ table ∧ ln_TenantID l = t ∧ ln_ActionPlanID l = p).
  { intros l table [H Hl]%elem_of_select_where. by apply andb_true_iff in H as [?%bool_decide_eq_true ?%bool_decide_eq_true]. }
  assert (Hnd : ∀ keys targets table, table_ok keys targets table → NoDup (ln_TargetID <$> links_of t p table)).
  { intros keys targets table [Hn _]. apply (NoDup_fmap_1 (p,.)). rewrite <- list_fmap_compose.
    replace ((p,.) ∘ ln_TargetID <$> links_of t p table)
      with ((λ l, (ln_ActionPlanID l, ln_TargetID l)) <$> links_of t p table).
    - eapply sublist_NoDup; [exact Hn|]. apply fmap_sublist, sublist_filter.
    - apply list_fmap_ext. intros ? l Hl%list_elem_of_lookup_2. apply Hof in Hl as (_ & _ & <-). done. }
  split_and!; [apply Kr|apply Kc|by eapply Hnd..| |].
  - intros l (Hl & Ht & <-)%Hof. destruct Hr as [_ Hr]. destruct (Hr l Hl). by rewrite <- Ht.
  - intros l (Hl & Ht & <-)%Hof. destruct Hc as [_ Hc]. destruct (Hc l Hl). by rewrite <- Ht.
Qed.

(** ** A concurrent edit restores the status it read *)

(** An edit that names no status writes back the status it read.  When another
    call moved the plan in between and the way back is an edge (completed to
    in_progress), the edit succeeds, undoes the move, and is logged as an update. *)
Theorem edit_restores_read_status env id i d p d' :
  sound (env_rival env d) → ui_Status i = None → Update env id i d = (Ok p, d') →
  ∃ t before between after l,
    tenant_of (env_ctx env) = Some t ∧ before ∈ action_plans d ∧ live_at t id before = true ∧
    between ∈ action_plans (env_rival env d) ∧ live_at t id between = true ∧
    after ∈ action_plans d' ∧ live_at t id after = true ∧ p = planFromRow after ∧
    row_Status after = row_Status before ∧ AllowedTransition (row_Status between) (row_Status before) = true ∧
    action_plan_audit_log d' = action_plan_audit_log (env_rival env d) ++ [l] ∧ lg_ActionType l = ActionUpdated.
Proof using UT.
  intros [Hn Hck] Hst (_ & t & b & due & st & ch & row & d2 & x & y & Ht & Hb & Hl & _ & _ & Hs & E & -> & _ & _ & ->)%plan_Update_Ok.
  unfold next_status in Hs. rewrite Hst in Hs. injection Hs as <- <-.
  unfold UpdateActionPlan in E. case_match; [done|]. apply plan_update_one_Ok in E as ((z & Hz & Hzl & ->) & -> & He).
  cbn [update_params up_TenantID up_ID] in Hzl, He. destruct (update_error_None _ _ _ (He z Hz Hzl)) as [Hg Hk].
  rewrite guard_agrees in Hg by auto. cbn [updated_row row_Status update_params up_Status planFromRow Status] in Hg.
  eexists t, b, z, (updated_row (env_now env) (update_params t id i (planFromRow b) due (row_Status b)) z), _. split_and!; try done.
  apply elem_of_update_where. exists z. split; [done|]. cbn [update_params up_TenantID up_ID]. by rewrite Hzl.
Qed.

(** ** The frozen view of a period follows later edits *)

Lemma ListSnapshot_Ok env h d rows d0 :
  ListSnapshot env h d = (Ok rows, d0) →
  ∃ t, tenant_of (env_ctx env) = Some t ∧ ∀ d1, (ListSnapshot env h d1).1 = Ok (planFromRow <$> ListActionPlansSnapshot t h d1).
Proof using UT.
  unfold ListSnapshot, inTx, Tenancy.inTx, withTx, tenant_of, ApplyTenant.
  destruct (TenantFromContext (env_ctx env)) as [s|]; [|done]. destruct (uuid_Parse s) as [t|]; [|done].
  destruct (begin_ok _); [|done]. cbn. destruct (set_config_ok _); [|done]. destruct (commit_ok _); [|done]. eauto.
Qed.

Lemma PeriodSnapshotLister_Some env d h refs :
  PeriodSnapshotLister env d h = Some refs →
  ∃ t, tenant_of (env_ctx env) = Some t ∧
    ∀ d1, PeriodSnapshotLister env d1 h = Some (periodRef ∘ planFromRow <$> ListActionPlansSnapshot t h d1).
Proof using UT.
  unfold PeriodSnapshotLister. destruct (ListSnapshot env h d) as [[rows|e] d0] eqn:E; [|done]. intros _.
  apply ListSnapshot_Ok in E as (t & Ht & H). exists t. split; [done|]. intros d1. by rewrite H, list_fmap_compose.
Qed.

Lemma elem_of_snapshot t h d r :
  r ∈ ListActionPlansSnapshot t h d ↔ r ∈ action_plans d ∧ row_TenantID r = t ∧ row_TombstonedAt r = None ∧ row_CreatedAt r ≤ to_micros h.
Proof using.
  unfold ListActionPlansSnapshot. rewrite merge_sort_Permutation, elem_of_select_where, !andb_true_iff, !bool_decide_eq_true. tauto.
Qed.

(** C31: Across audit periods and action plans: once a period is frozen, a plan its
    view shows can still be edited, and the view then shows the plan as edited, under
    the same freeze horizon. *)
Theorem frozen_view_follows_edits penv periodID env env' id i w d p d' v :
  sound d → quiet env → env_ctx env' = env_ctx env →
  AuditPeriod.Snapshot penv periodID (Some (PeriodSnapshotLister env' d)) w = Some (Ok v) → AuditPeriod.Frozen _ v = true →
  id ∈ pr_ID <$> AuditPeriod.ActionPlans _ v → Update env id i d = (Ok p, d') →
  ∃ v', AuditPeriod.Snapshot penv periodID (Some (PeriodSnapshotLister env' d')) w = Some (Ok v') ∧
    AuditPeriod.Frozen _ v' = true ∧ AuditPeriod.Horizon _ v' = AuditPeriod.Horizon _ v ∧ periodRef p ∈ AuditPeriod.ActionPlans _ v'.
Proof using UT.
  intros Hs Hq Hctx Hv Hf Hid Hup. unfold AuditPeriod.Snapshot in *. destruct (AuditPeriod.inTx _ _ w) as [[[h fr]|e] w1]; [|done].
  destruct (PeriodSnapshotLister env' d h) as [refs|] eqn:E; [|done]. injection Hv as <-. cbn in Hf, Hid. subst fr.
  pose proof E as E0. apply PeriodSnapshotLister_Some in E as (t & Ht & Hlist). rewrite Hlist in E0. injection E0 as <-. rewrite Hlist.
  eexists. split; [reflexivity|]. split_and!; [done..|]. cbn.
  apply plan_Update_Ok in Hup as (_ & t' & b & due & st & ch & row & d2 & x & y & Ht' & Hb & Hl & _ & _ & _ & Eu & -> & _ & _ & ->).
  rewrite Hctx, Ht' in Ht. injection Ht as <-. rewrite Hq in Eu. unfold UpdateActionPlan in Eu. case_match; [done|].
  apply plan_update_one_Ok in Eu as ((z & Hz & Hzl & ->) & -> & _). cbn [update_params up_TenantID up_ID] in Hzl.
  apply list_elem_of_fmap in Hid as (ref & -> & Href). apply list_elem_of_fmap in Href as (r & -> & Hr).
  apply elem_of_snapshot in Hr as (Hr & Hrt & Hrn & Hrc). cbn in Hzl.
  apply (list_elem_of_fmap_2' (periodRef ∘ planFromRow) _ (updated_row (env_now env) (update_params t' (row_ID r) i (planFromRow b) due st) z)); [|done].
  assert (z = r) as ->.
  { apply (live_unique d t' (row_ID r)); [done..|]. by apply plan_live_at. }
  apply elem_of_snapshot. split_and!; [|done..]. cbn. apply elem_of_update_where. exists r. split; [done|]. cbn. by rewrite Hzl.
Qed.
End Calls.
End ActionPlanSpec.
