(* ===== verification/ActionPlanPages.v ===== *)
(** * Walking the pages of the action-plan list

    A client that follows next_cursor sees every live plan once, newest first, and
    the walk ends.

    Module ActionPlanDemo applies the theorems of ActionPlanSpec and of this file to one
    plan, from draft to verification. *)

From Stdlib Require Import Ascii.
From S2P Require Import Prelude GoTime Tenancy Json Sha256 Float64 GoJson TimeText Postgres AuditPeriod Ingest Http ActionPlan ActionPlanApi ActionPlanSpec.

Import ActionPlan ActionPlanApi.

Module ActionPlanPages.

(** ** Keyset order *)

Definition before_row (a b : Row) : Prop :=
  row_CreatedAt b < row_CreatedAt a ∨ (row_CreatedAt a = row_CreatedAt b ∧ (row_ID b < row_ID a)%N).

Lemma newest_first_strict l : NoDup (row_ID <$> l) → StronglySorted before_row (merge_sort newest_first l).
Proof.
  intros Hnd. assert (Hs : StronglySorted newest_first (merge_sort newest_first l)).
  { apply StronglySorted_merge_sort; intros x y; [intros z|]; unfold newest_first; lia. }
  assert (Hnd' : NoDup (row_ID <$> merge_sort newest_first l)) by by rewrite merge_sort_Permutation.
  induction Hs as [|x k Hs IH Hx]; [constructor|]. apply NoDup_cons in Hnd' as [Hni Hnd']. constructor; [by apply IH|].
  rewrite Forall_forall in Hx |- *. intros y Hy. specialize (Hx y Hy). unfold before_row, newest_first in *.
  assert (row_ID x ≠ row_ID y); [|lia]. intros E. apply Hni. rewrite E. by apply list_elem_of_fmap_2.
Qed.

(** The rows of a list request from a cursor on. *)
Definition params (t : UUID) (status : option string) (c : option (Time * UUID)) (n : Z) : ListActionPlansParams :=
  mkListParams t status (fst <$> c) (snd <$> c) n.
Definition rows_from (t : UUID) (status : option string) (c : option (Time * UUID)) (d : DB) : list Row :=
  merge_sort newest_first (select_where (listed (params t status c 0)) (action_plans d)).
Definition cursor_of (r : Row) : Time * UUID := (row_CreatedAt r, row_ID r).

(** What a [timestamptz] column holds. *)
Definition stored_times (d : DB) : Prop :=
  ∀ r, r ∈ action_plans d → to_micros (row_CreatedAt r) = row_CreatedAt r ∧ four_digit_year (row_CreatedAt r).

Lemma rows_from_strict t s c d : NoDup (row_ID <$> action_plans d) → StronglySorted before_row (rows_from t s c d).
Proof. intros Hnd. apply newest_first_strict. eapply sublist_NoDup; [exact Hnd|]. apply fmap_sublist, sublist_filter. Qed.

Lemma rows_from_ids t s c d : NoDup (row_ID <$> action_plans d) → NoDup (rows_from t s c d).
Proof.
  intros Hnd. unfold rows_from. rewrite merge_sort_Permutation. eapply sublist_NoDup; [by apply (NoDup_fmap_1 row_ID)|].
  apply sublist_filter.
Qed.

Lemma elem_of_rows_from t s c d r :
  r ∈ rows_from t s c d ↔ r ∈ rows_from t s None d ∧ past_cursor (to_micros <$> (fst <$> c)) (snd <$> c) r = true.
Proof.
  unfold rows_from. rewrite !merge_sort_Permutation, !elem_of_select_where. unfold listed, params. cbn.
  rewrite !andb_true_iff. tauto.
Qed.

Lemma past_cursor_of d x r :
  stored_times d → x ∈ action_plans d → past_cursor (to_micros <$> (fst <$> Some (cursor_of x))) (snd <$> Some (cursor_of x)) r = true ↔ before_row x r.
Proof.
  intros Hst Hx. destruct (Hst x Hx) as [Hm _]. cbn. rewrite Hm. unfold before_row.
  rewrite orb_true_iff, andb_true_iff, !bool_decide_eq_true. intuition lia.
Qed.

Lemma before_trans x y z : before_row x y → before_row y z → before_row x z.
Proof. unfold before_row. lia. Qed.

(** The rows after the last of a page are the rest. *)
Lemma rows_from_page t s c d page x rest :
  NoDup (row_ID <$> action_plans d) → stored_times d →
  rows_from t s c d = (page ++ [x]) ++ rest → rows_from t s (Some (cursor_of x)) d = rest.
Proof.
  intros Hnd Hst E. pose proof (rows_from_strict t s c d Hnd) as Hs. rewrite E in Hs.
  apply StronglySorted_app in Hs as (Hlt & Hs1 & Hs2).
  assert (Hx : x ∈ rows_from t s c d) by (rewrite E; set_solver).
  assert (Hxd : x ∈ action_plans d).
  { unfold rows_from in Hx. rewrite merge_sort_Permutation in Hx. by apply elem_of_select_where in Hx as [_ ?]. }
  apply (StronglySorted_unique_strong before_row); [|by apply rows_from_strict|done|].
  { intros a b _ _. unfold before_row. lia. }
  apply NoDup_Permutation; [by apply rows_from_ids| |].
  - pose proof (rows_from_ids t s c d Hnd) as Hn. rewrite E in Hn. by apply NoDup_app in Hn as (_ & _ & ?).
  - intros r. rewrite elem_of_rows_from, (past_cursor_of d) by done. apply elem_of_rows_from in Hx as [Hx0 Hxc]. split.
    + intros [Hr Hb]. assert (Hin : r ∈ rows_from t s c d).
      { apply elem_of_rows_from. split; [done|]. destruct c as [[ct ci]|]; [|done]. cbn in Hxc |- *. revert Hxc.
        rewrite !orb_true_iff, !andb_true_iff, !bool_decide_eq_true. unfold before_row in Hb. lia. }
      rewrite E in Hin. apply elem_of_app in Hin as [Hin|?]; [|done]. exfalso. revert Hb.
      apply elem_of_app in Hin as [Hin| ->%list_elem_of_singleton]; [|unfold before_row; lia].
      apply StronglySorted_app in Hs1 as (Hlt1 & _ & _). specialize (Hlt1 r x Hin ltac:(left)). unfold before_row in *. lia.
    + intros Hr. assert (Hin : r ∈ rows_from t s c d) by (rewrite E; set_solver). apply elem_of_rows_from in Hin as [? _].
      split; [done|]. apply Hlt; set_solver.
Qed.

(** ** Cursors read back *)

Fixpoint no_comma (s : string) : bool :=
  match s with "" => true | String c s => negb (bool_decide (c = ","%char)) && no_comma s end.

Lemma cut_no_comma a b : no_comma a = true → cut_comma (a +:+ "," +:+ b) = Some (a, b).
Proof.
  induction a as [|c a IH]; [done|]. cbn [no_comma]. intros [Hc Ha]%andb_true_iff. rewrite str_app_cons. cbn [cut_comma].
  apply negb_true_iff in Hc. rewrite Hc, IH by done. done.
Qed.

Lemma no_comma_app a b : no_comma (a +:+ b) = no_comma a && no_comma b.
Proof. induction a as [|c a IH]; [done|]. rewrite str_app_cons. simpl. by rewrite IH, andb_assoc. Qed.

(** Digits are neither commas nor blanks. *)
Lemma digits_plain s : all_digits s = true → no_comma s = true ∧ all_solid s = true.
Proof.
  induction s as [|c s IH]; [done|]. cbn. intros [Hc Hs]%andb_true_iff. destruct (IH Hs) as [-> ->]. rewrite (solid_digit c Hc), !andb_true_r.
  split; [|done]. apply negb_true_iff, bool_decide_eq_false. intros ->. done.
Qed.

Lemma trim_zeros_digits s : all_digits s = true → all_digits (trim_zeros s) = true.
Proof. intros H. destruct (trim_zeros_split s) as [k E]. rewrite E, all_digits_app in H. by apply andb_true_iff in H as [? _]. Qed.

Lemma nano_plain t : no_comma (FormatRFC3339Nano t) = true ∧ all_solid (FormatRFC3339Nano t) = true.
Proof.
  unfold FormatRFC3339Nano. destruct (civil_of_day (day_of t)) as [[y m] d].
  assert (Hf : no_comma (frac_digits (t mod ns_per_second)) = true ∧ all_solid (frac_digits (t mod ns_per_second)) = true).
  { unfold frac_digits. case_bool_decide; [done|]. change (String.string_of_list_ascii _) with (trim_zeros (digits 9 (t mod ns_per_second))).
    rewrite no_comma_app, all_solid_app. destruct (digits_plain (trim_zeros (digits 9 (t mod ns_per_second)))) as [-> ->]; [|done].
    apply trim_zeros_digits, digits_all. }
  destruct Hf as [Hf1 Hf2]. rewrite !no_comma_app, !all_solid_app, Hf1, Hf2.
  repeat match goal with |- context [digits ?w ?n] => destruct (digits_plain _ (digits_all w n)) as [-> ->] end. done.
Qed.

Section Pages.
Context {UT : UUIDText} {JB : JsonB} {PL : Planner}.

Lemma uuid_solid s : uuid_text s = true → all_solid s = true.
Proof using.
  induction s as [|c s IH]; [done|]. cbn [uuid_text all_solid]. intros [Hc Hs]%andb_true_iff. rewrite IH by done. rewrite andb_true_r.
  unfold uuid_char in Hc. unfold solid, between. rewrite !orb_true_iff, !andb_true_iff, ?N.leb_le, ?N.eqb_eq in Hc.
  rewrite andb_true_iff, negb_true_iff, orb_false_iff, andb_false_iff, bool_decide_eq_false, N.ltb_lt, !N.leb_gt. lia.
Qed.

Lemma parse_encode t id : four_digit_year t → parseCursor (encodeCursor t id) = Some (t, id).
Proof using.
  intros Hy. unfold parseCursor, encodeCursor. rewrite cut_no_comma by apply nano_plain. cbn [mbind option_bind].
  rewrite FormatRFC3339Nano_reads by done. cbn [mbind option_bind]. by rewrite uuid_Parse_String.
Qed.

Lemma cursor_trims t id : TrimSpace (encodeCursor t id) = encodeCursor t id ∧ encodeCursor t id ≠ "".
Proof using.
  assert (Ha : all_solid (encodeCursor t id) = true).
  { unfold encodeCursor. rewrite !all_solid_app. destruct (nano_plain t) as [_ ->]. by rewrite (uuid_solid _ (uuid_String_text id)). }
  assert (Hn : encodeCursor t id ≠ "").
  { unfold encodeCursor. intros E. assert (Hl : String.length (FormatRFC3339Nano t +:+ "," +:+ uuid_String id) = 0%nat) by by rewrite E.
    rewrite !length_app_str in Hl. cbn in Hl. lia. }
  split; [|done]. destruct (encodeCursor t id) as [|c s] eqn:E; [done|]. apply TrimSpace_id.
  - by apply andb_true_iff in Ha as [? _].
  - by apply all_solid_last.
Qed.

(** ** The walk *)

Definition at_cursor (r : Request) (c : string) : Request :=
  mkRequest (rq_ctx r) (rq_cred r) (rq_id r) (rq_target r) (rq_status r) (rq_limit r) c.

(** A client that asks for the next page until there is no cursor. *)
Fixpoint walk (fuel : nat) (env : Env) (r : Request) (c : string) (d : DB) : option (list planWire) :=
  match fuel with
  | O => None
  | S fuel =>
      match ListActionPlans env (at_cursor r c) d with
      | (WriteJSON _ b, _) =>
          match lb_next_cursor b with
          | None => Some (lb_action_plans b)
          | Some c => rest ← walk fuel env r c d; Some (lb_action_plans b ++ rest)
          end
      | _ => None
      end
  end.

(** A request the handler answers. *)
Record admitted (env : Env) (r : Request) (t : UUID) (status : string) (limit : Z) : Prop := {
  ad_read : requireProgramRead r = true;
  ad_ctx : ∃ cred, tenantCtx r = Some (rq_ctx r, cred);
  ad_tenant : tenant_of (rq_ctx r) = Some t;
  ad_infra : env_infra env = healthy;
  ad_filter : listFilter (at_cursor r "") = Ok (mkFilter status limit None None);
}.

Lemma ClampLimit_bounds n : 1 ≤ ClampLimit n ≤ 100.
Proof using. unfold ClampLimit, DefaultPageLimit, MaxPageLimit. destruct (Z.leb_spec n 0); [lia|]. destruct (Z.ltb_spec 100 n); lia. Qed.

Lemma status_text s : (bool_decide (s ≠ "") && negb (ValidStatus s)) = false → pg_text_opt (nilIfEmpty s) = true.
Proof using.
  unfold nilIfEmpty, stringPtr. case_bool_decide as Hs; case_bool_decide as Hs'; [done| |done|by destruct Hs]. cbn. intros Hv%negb_false_iff.
  apply bool_decide_eq_true in Hv. rewrite !elem_of_cons, elem_of_nil in Hv.
  destruct Hv as [->|[->|[->|[->|[->|[]]]]]]; reflexivity.
Qed.

Lemma listFilter_at r c status limit :
  listFilter (at_cursor r "") = Ok (mkFilter status limit None None) → four_digit_year c.1 →
  listFilter (at_cursor r (encodeCursor c.1 c.2)) = Ok (mkFilter status limit (Some c.1) (Some c.2)).
Proof using.
  intros H Hy. unfold listFilter in *. cbn [at_cursor rq_status rq_limit rq_cursor] in *. case_match; [done|].
  apply result_bind_Ok in H as (n & -> & H). cbn. destruct (cursor_trims c.1 c.2) as [-> Hne]. rewrite bool_decide_eq_false_2 by done.
  rewrite parse_encode by done. change (bool_decide (TrimSpace "" = "")) with true in H. cbn in H. by injection H as <- <-.
Qed.

Lemma listFilter_status r c f : listFilter (at_cursor r c) = Ok f → pg_text_opt (nilIfEmpty (lf_Status f)) = true.
Proof using.
  unfold listFilter. cbn [at_cursor rq_status rq_limit rq_cursor]. destruct (bool_decide _ && _) eqn:E; [done|].
  intros (n & _ & H)%result_bind_Ok. assert (lf_Status f = TrimSpace (rq_status r)) as ->; [|by apply status_text].
  repeat case_match; simplify_eq; done.
Qed.

(** One page: the first rows from the cursor on. *)
Lemma list_page env r t status limit c txt d :
  admitted env r t status limit →
  listFilter (at_cursor r txt) = Ok (mkFilter status limit (fst <$> c) (snd <$> c)) →
  let rows := planFromRow <$> take (Z.to_nat (ClampLimit limit)) (rows_from t (nilIfEmpty status) c d) in
  ListActionPlans env (at_cursor r txt) d =
    (WriteJSON StatusOK (mkListBody (planWireFrom <$> rows) (Z.of_nat (length rows))
                           (next_cursor (mkFilter status limit (fst <$> c) (snd <$> c)) rows)), d).
Proof using.
  intros [Hread [cred Hctx] Ht Hinf _] Hf rows. unfold ListActionPlans. cbn [at_cursor requireProgramRead rq_cred] in *.
  change (requireProgramRead (at_cursor r txt)) with (requireProgramRead r). change (tenantCtx (at_cursor r txt)) with (tenantCtx r).
  rewrite Hread, Hctx, Hf. cbn [negb]. unfold reply, List_, inTx, Tenancy.inTx, withTx, ApplyTenant.
  unfold tenant_of in Ht. cbn [with_ctx env_ctx env_infra]. rewrite Hinf. cbn [healthy begin_ok set_config_ok commit_ok negb].
  destruct (TenantFromContext (rq_ctx r)) as [s|]; [|done]. rewrite Ht. cbn [mbind result_bind]. cbn.
  pose proof (listFilter_status _ _ _ Hf) as Hs. cbn [lf_Status] in Hs.
  unfold readRows. rewrite try_live. unfold ActionPlan.ListActionPlans. cbn [lp_Status lp_RowLimit]. rewrite Hs. cbn [negb orb].
  pose proof (ClampLimit_bounds limit) as Hb. rewrite int32_small by lia. destruct (Z.ltb_spec (ClampLimit limit) 0); [lia|]. cbn.
  done.
Qed.

Lemma walk_spec env r t status limit d fuel c txt :
  admitted env r t status limit → NoDup (row_ID <$> action_plans d) → stored_times d →
  listFilter (at_cursor r txt) = Ok (mkFilter status limit (fst <$> c) (snd <$> c)) →
  (length (rows_from t (nilIfEmpty status) c d) < fuel)%nat →
  walk fuel env r txt d = Some (planWireFrom ∘ planFromRow <$> rows_from t (nilIfEmpty status) c d).
Proof using.
  intros Had Hnd Hst. revert c txt. induction fuel as [|fuel IH]; intros c txt Hf Hl; [lia|]. cbn [walk].
  rewrite (list_page env r t status limit c txt d Had Hf). cbn [lb_next_cursor lb_action_plans].
  pose proof (ClampLimit_bounds limit) as Hb. set (R := rows_from t (nilIfEmpty status) c d) in *. set (n := Z.to_nat (ClampLimit limit)).
  unfold next_cursor. cbn [lf_Limit]. rewrite length_fmap, length_take. destruct (bool_decide (_ = ClampLimit limit) && _) eqn:E.
  - apply andb_true_iff in E as [E%bool_decide_eq_true Hne%bool_decide_eq_true].
    assert (Hp : take n R ≠ []) by (intros E'; by rewrite E' in Hne). destruct (exists_last Hp) as (page & x & Ex).
    rewrite Ex. rewrite fmap_last, last_snoc. cbn [fmap option_fmap option_map].
    assert (Hsplit : R = (page ++ [x]) ++ drop n R) by by rewrite <- Ex, take_drop.
    pose proof (rows_from_page _ _ _ _ _ _ _ Hnd Hst Hsplit) as Hrest.
    assert (Hx : x ∈ action_plans d).
    { assert (Hin : x ∈ R) by (rewrite Hsplit; set_solver). unfold R, rows_from in Hin. rewrite merge_sort_Permutation in Hin.
      by apply elem_of_select_where in Hin as [_ ?]. }
    rewrite (IH (Some (cursor_of x))).
    + rewrite Hrest. cbn [mbind option_bind]. f_equal. rewrite Hsplit at 2. rewrite (fmap_app _ (page ++ [x])). f_equal.
      symmetry. apply list_fmap_compose.
    + change (listFilter (at_cursor r (encodeCursor (cursor_of x).1 (cursor_of x).2)) =
              Ok (mkFilter status limit (Some (cursor_of x).1) (Some (cursor_of x).2))).
      apply listFilter_at; [exact (ad_filter _ _ _ _ _ Had)|]. exact (proj2 (Hst x Hx)).
    + rewrite Hrest. rewrite Hsplit in Hl at 1. rewrite !length_app in Hl. cbn in Hl. lia.
  - f_equal. rewrite list_fmap_compose. do 2 f_equal. apply take_ge. apply andb_false_iff in E as [E%bool_decide_eq_false|E%bool_decide_eq_false].
    + lia.
    + apply dec_stable in E. apply fmap_nil_inv in E. assert (Hn : n ≠ 0%nat) by (unfold n; lia). clearbody n R. destruct R, n; done || simpl; lia.
Qed.

(** C32: Following next_cursor from the first page to the last lists every live plan
    of the tenant (with the status asked for) exactly once, newest first, whatever the
    page size; and the walk ends. *)
Theorem pages_cover env r t status limit d :
  admitted env r t status limit → NoDup (row_ID <$> action_plans d) → stored_times d →
  let rows := rows_from t (nilIfEmpty status) None d in
  walk (S (length (action_plans d))) env r "" d = Some (planWireFrom ∘ planFromRow <$> rows) ∧
  NoDup rows ∧ StronglySorted before_row rows ∧
  ∀ x, x ∈ rows ↔ x ∈ action_plans d ∧ row_TenantID x = t ∧ row_TombstonedAt x = None ∧ (status = "" ∨ row_Status x = status).
Proof using.
  intros Had Hnd Hst rows. split_and!.
  - apply (walk_spec env r t status limit d _ None); [done..|exact (ad_filter _ _ _ _ _ Had)|]. unfold rows_from. rewrite merge_sort_Permutation.
    unfold select_where. pose proof (length_filter (λ r, listed (params t (nilIfEmpty status) None 0) r = true) (action_plans d)). lia.
  - by apply rows_from_ids.
  - by apply rows_from_strict.
  - intros x. unfold rows, rows_from. rewrite merge_sort_Permutation, elem_of_select_where. unfold listed, params, nilIfEmpty, stringPtr. cbn.
    rewrite !andb_true_iff, !bool_decide_eq_true. case_bool_decide; [intuition|]. rewrite bool_decide_eq_true. intuition.
Qed.
End Pages.
End ActionPlanPages.

Module ActionPlanDemo.
Import ActionPlanApi ActionPlan ActionPlanSpec ActionPlanPages.
#[local] Existing Instance binary_uuid.
#[local] Existing Instance canonical_jsonb.
#[local] Existing Instance table_order.

Definition tenant : UUID := 7%N.
Definition acme : Context := {| ctx_tenant := Some "a111" |}.
Definition day (n : Z) : Time := (739000 + n) * ns_per_day.
Definition env_at (n : Z) (rival : DB → DB) : Env := mkEnv acme healthy (day n) (day n) 11 (100 + Z.to_N n) rival.
Definition calm (n : Z) : Env := env_at n (λ d, d).

Definition d0 : DB := mkDB [] [] [] [] [(tenant, 5%N)] [(tenant, 30%N)] [] [].
Definition draft : CreateInput := mkCreate "Rotate keys" "" "pen test" 5 (Some (day 400)) None 5 time_zero.
Definition move (s : string) : UpdateInput := mkUpdate None None None None None false (Some s) 5 time_zero.
Definition rename (s : string) : UpdateInput := mkUpdate (Some s) None None None None false None 5 time_zero.

Definition d1 : DB := (Create (calm 1) draft d0).2.
Definition d2 : DB := (Update (calm 2) 11 (move "in_progress") d1).2.
Definition d3 : DB := (LinkRisk (calm 3) 11 30 5 d2).2.
Definition complete (d : DB) : DB := (Update (calm 4) 11 (move "completed") d).2.

Lemma calm_quiet n : quiet (calm n).
Proof. done. Qed.

Lemma plan_reached1 : alone d1.
Proof. apply (alone_call d0 (calm 1) (RCreate draft) None d1); [by apply alone_start|apply calm_quiet|vm_compute; reflexivity]. Qed.
Lemma plan_reached2 : alone d2.
Proof. apply (alone_call d1 (calm 2) (RUpdate 11 (move "in_progress")) None d2); [apply plan_reached1|apply calm_quiet|vm_compute; reflexivity]. Qed.
Lemma plan_reached3 : alone d3.
Proof. apply (alone_call d2 (calm 3) (RLinkRisk 11 30 5) None d3); [apply plan_reached2|apply calm_quiet|vm_compute; reflexivity]. Qed.

Definition row_of (d : DB) : Row := hd (mkRow 0 0 "" None None 0 None "" None None 0 0) (action_plans d).

Lemma rows d : d ∈ [d1; d2; d3; complete d3] → action_plans d = [row_of d] ∧ sound d.
Proof.
  rewrite !elem_of_cons, elem_of_nil. intros [->|[->|[->|[->|[]]]]]; (split; [vm_compute; reflexivity|split]);
    first [refine (bool_decide_unpack _ _); vm_compute; exact I
          |apply Forall_forall; refine (bool_decide_unpack _ _); vm_compute; exact I].
Qed.

Lemma row3 : action_plans d3 = [row_of d3] ∧ sound d3.
Proof. apply rows. do 2 right. left. Qed.
Lemma completed : sound (complete d3).
Proof. apply (proj2 (rows (complete d3) ltac:(do 3 right; left))). Qed.

(** A title edit that raced with the completion of the plan. *)
Definition raced : Env := env_at 5 complete.
Definition d4 : DB := (Update raced 11 (rename "Rotate all keys") d3).2.

Lemma plan_history_witness : ∃ r', r' ∈ action_plans d4 ∧ row_Status r' = "in_progress" ∧ rtc edge "in_progress" (row_Status r').
Proof.
  assert (Hr : runs d3 d4).
  { apply (runs_call d3 d3 raced (RUpdate 11 (rename "Rotate all keys")) None d4); [apply runs_refl| |vm_compute; reflexivity].
    apply (runs_call d3 d3 (calm 4) (RUpdate 11 (move "completed")) None (complete d3)); [apply runs_refl..|vm_compute; reflexivity]. }
  destruct row3 as [H3 Hs].
  destruct (plan_history d3 d4 (row_of d3) Hs Hr) as [(r' & Hr' & Hid & _ & _ & He & _) _]; [rewrite H3; left|].
  exists r'. split; [done|]. assert (H4 : action_plans d4 = [row_of d4]) by (vm_compute; reflexivity).
  rewrite H4 in Hr'. apply list_elem_of_singleton in Hr' as ->. split; [vm_compute; reflexivity|exact He].
Defined.

Lemma trail_tells_plan_witness :
  tells (trail 11 (action_plan_audit_log d3)) (row_of d3) ∧
  lg_ActionType <$> trail 11 (action_plan_audit_log d3) = ["created"; "status_changed"].
Proof.
  split; [|vm_compute; reflexivity]. destruct row3 as [H3 _].
  apply (trail_tells_plan d3 (row_of d3) plan_reached3). rewrite H3. left.
Defined.

(** The completed plan is in progress again, and the log calls it an update. *)
Lemma edit_restores_read_status_witness :
  row_Status (row_of (complete d3)) = "completed" ∧
  ∃ p l, Update raced 11 (rename "Rotate all keys") d3 = (Ok p, d4) ∧ Status p = "in_progress" ∧
    last (action_plan_audit_log d4) = Some l ∧ lg_ActionType l = "updated".
Proof.
  split; [vm_compute; reflexivity|].
  assert (H : Update raced 11 (rename "Rotate all keys") d3 = (Ok (planFromRow (row_of d4)), d4)) by (vm_compute; reflexivity).
  pose proof (edit_restores_read_status raced 11 (rename "Rotate all keys") d3 (planFromRow (row_of d4)) d4 completed eq_refl H) as Hw.
  destruct Hw as (t & b & m & a & l & _ & _ & _ & _ & _ & _ & _ & _ & _ & _ & Hl & Hu).
  exists (planFromRow (row_of d4)), l. split_and!; [exact H|vm_compute; reflexivity| |exact Hu]. rewrite Hl. apply last_snoc.
Defined.

Lemma links_capped_witness : CountActionPlanRisks tenant 11 d3 = 1 ∧ CountActionPlanRisks tenant 11 d3 ≤ MaxLinkedRisks.
Proof. split; [vm_compute; reflexivity|]. exact (proj1 (links_capped d3 tenant 11 plan_reached3)). Defined.

(** A fifty-first risk, when another link is committed after the count. *)
Definition fifty : list (UUID * UUID) := (λ n, (tenant, N.of_nat n)) <$> seq 100 51.
Definition nearly_full : DB :=
  mkDB (action_plans d2) ((λ k, mkLinkRow 11 k.2 tenant (day 3) 5) <$> take 49 fifty) [] (action_plan_audit_log d2) (users d2) fifty [] [].
Example cap_race :
  let other d := (LinkRisk (calm 8) 11 149 5 d).2 in
  (LinkRisk (env_at 9 other) 11 150 5 nearly_full).1 = Ok () ∧
  CountActionPlanRisks tenant 11 (LinkRisk (env_at 9 other) 11 150 5 nearly_full).2 = 51.
Proof. vm_compute. done. Qed.

(** ** The frozen quarter *)

Definition q2 : AuditPeriod.PeriodRow :=
  AuditPeriod.mkRow 1%N tenant "SOC 2 Q2" 3%N (day 0) (day 90) AuditPeriod.StatusFrozen (Some (day 3)) (Some "ab") (Some "bob") "ann" (day 0) (day 3).
Definition w : AuditPeriod.World := AuditPeriod.mkWorld (AuditPeriod.mkDB [q2] [] [] [] [] [] []) [].
Definition auditor : AuditPeriod.Env := AuditPeriod.mkEnv acme healthy (day 10) 1%N healthy.
Definition view (d : DB) : list ActionPlanRef :=
  match AuditPeriod.Snapshot auditor 1%N (Some (PeriodSnapshotLister (calm 10) d)) w with
  | Some (Ok v) => AuditPeriod.ActionPlans _ v
  | _ => []
  end.

(** The period was frozen on day 3 with the plan in progress; on day 4 it is
    completed, and the frozen view says so. *)
Lemma frozen_view_follows_edits_witness :
  pr_Status <$> view d3 = ["in_progress"] ∧ ∃ ref, ref ∈ view (complete d3) ∧ pr_Status ref = "completed".
Proof.
  split; [vm_compute; reflexivity|].
  destruct (AuditPeriod.Snapshot auditor 1%N (Some (PeriodSnapshotLister (calm 10) d3)) w) as [[v|e]|] eqn:E; [|by vm_compute in E..].
  assert (H : Update (calm 4) 11 (move "completed") d3 = (Ok (planFromRow (row_of (complete d3))), complete d3)) by (vm_compute; reflexivity).
  destruct (frozen_view_follows_edits auditor 1%N (calm 4) (calm 10) 11 (move "completed") w d3
    (planFromRow (row_of (complete d3))) (complete d3) v) as (v' & Hv' & _ & _ & Hin).
  - exact (proj2 row3).
  - apply calm_quiet.
  - reflexivity.
  - exact E.
  - vm_compute in E. injection E as <-. reflexivity.
  - vm_compute in E. injection E as <-. left.
  - exact H.
  - exists (periodRef (planFromRow (row_of (complete d3)))). split; [|vm_compute; reflexivity]. unfold view. rewrite Hv'. exact Hin.
Defined.

(** ** Three plans, one a page *)

Definition three : DB :=
  mkDB ((λ n, mkRow (N.of_nat n) tenant "Plan" None None 5 None "draft" None None (day (Z.of_nat (n / 2))) (day 9)) <$> seq 1 3) [] [] [] [] [] [] [].
Definition reader : Credential := mkCred (Ingest.mkCredential "key_1" "a111" "" []) false false "user:a101" ["staff"].
Definition ask : ActionPlanApi.Request := mkRequest acme (Some reader) "" "" "" "1" "".

Lemma pages_cover_witness :
  ∃ out, walk 4 (calm 9) ask "" three = Some out ∧ pw_ID <$> out = ["a11"; "a01"; "a1"].
Proof.
  destruct (pages_cover (calm 9) ask tenant "" 1 three) as [H _].
  - constructor; [reflexivity|by exists reader|reflexivity..].
  - refine (bool_decide_unpack _ _). vm_compute. exact I.
  - intros r Hr. revert r Hr. apply Forall_forall. unfold four_digit_year. refine (bool_decide_unpack _ _). vm_compute. exact I.
  - eexists. split; [exact H|]. vm_compute. reflexivity.
Defined.
End ActionPlanDemo.
