(* ===== verification/AggRule.v ===== *)
(** * Declarative aggregation rules

    Models internal/risk/aggrule: dsl.go (the rule document), severity.go,
    engine.go (the evaluation of active rules) and store.go (the rule
    lifecycle), with the statements of aggregation_rules.sql.  The state is the risk
    register with the three rule tables and the external audit sink; a rollback
    restores the tables and cannot recall what the sink was given.  Window starts
    are assumed to lie in the range of timestamptz. *)

From Stdlib Require Import Ascii SpecFloat.
From S2P Require Import Prelude GoTime Tenancy Json Sha256 Float64 Scope GoJson Risk RiskDB.

(** gopkg.in/yaml.v3 and the sandboxed OPA query, by what they answer. *)
Inductive rego_value := RegoInt (z : Z) | RegoFloat (f : float64) | RegoNumber (lit : string) | RegoOther.
Inductive rego_answer := RegoError | RegoUndefined | RegoValue (v : rego_value).
Class SeverityPolicy := opa_severity : string → list Z → rego_answer.

Module AggRule.
Import Risk.

(** ** The rule document *)

Record Rule := mkRule {
  RuleID : string;
  TargetTheme : string;
  MinRisks : Z;
  MinTeams : Z;
  WindowDays : Z;
  ParentLevel : string;
  SeverityFunction : string;
  TitleTemplate : string;
  CustomRego : string;
}.

Definition zero_rule : Rule := mkRule "" "" 0 0 0 "" "" "" "".

(** The fields in declaration order, and the names of their members in upper
    case. *)
Definition rule_slots (r : Rule) : list slot :=
  [SStr (RuleID r); SStr (TargetTheme r); SInt (MinRisks r); SInt (MinTeams r); SInt (WindowDays r); SStr (ParentLevel r);
   SStr (SeverityFunction r); SStr (TitleTemplate r); SStr (CustomRego r)].
Definition rule_names : list string :=
  ["RULE_ID"; "TARGET_THEME"; "MIN_RISKS"; "MIN_TEAMS"; "WINDOW_DAYS"; "PARENT_LEVEL"; "SEVERITY_FUNCTION";
   "TITLE_TEMPLATE"; "CUSTOM_REGO"].
Definition rule_of (st : list slot) : option Rule :=
  match st with
  | [SStr id; SStr theme; SInt risks; SInt teams; SInt days; SStr level; SStr fn; SStr title; SStr rego] =>
      Some (mkRule id theme risks teams days level fn title rego)
  | _ => None
  end.

(** [strict] is DisallowUnknownFields. *)
Definition decode_rule (strict : bool) (j : json) : option Rule :=
  match j with
  | JNull => Some zero_rule
  | JObj ms => let '(st, e) := decode_fields strict rule_names ms (rule_slots zero_rule) in if e then None else rule_of st
  | _ => None
  end.

Inductive Format := FormatJSON | FormatYAML | FormatUnknown.

(** The decoder reads the first value of a JSON body and ignores what follows. *)
Definition ParseRule (yaml : string → option Rule) (raw : string) (format : Format) : option Rule :=
  match format with
  | FormatJSON => j ← decode_first raw; decode_rule true j
  | FormatYAML => yaml raw
  | FormatUnknown => None
  end.

(** [json.Unmarshal] into a [Rule] *)
Definition Unmarshal_rule (raw : string) : option Rule := j ← decode_all raw; decode_rule false j.

Definition rule_json (r : Rule) : json :=
  JObj [("rule_id", JStr (RuleID r)); ("target_theme", JStr (TargetTheme r)); ("min_risks", JNum (Itoa (MinRisks r)));
        ("min_teams", JNum (Itoa (MinTeams r))); ("window_days", JNum (Itoa (WindowDays r)));
        ("parent_level", JStr (ParentLevel r)); ("severity_function", JStr (SeverityFunction r));
        ("title_template", JStr (TitleTemplate r)); ("custom_rego", JStr (CustomRego r))].

Definition CanonicalJSON (r : Rule) : string := render go_quote (rule_json r).

(** [strings.HasPrefix], [strings.Contains] and [strings.ReplaceAll] (of a
    non-empty text). *)
Fixpoint HasPrefix (s p : string) : bool :=
  match p, s with
  | "", _ => true
  | String c p, String c' s => bool_decide (c = c') && HasPrefix s p
  | _, "" => false
  end.

Fixpoint Contains (s sub : string) : bool :=
  HasPrefix s sub || match s with "" => false | String _ s => Contains s sub end.

(** [skip] bytes of a match are still to be passed over. *)
Fixpoint replace_from (skip : nat) (s old new : string) : string :=
  match s with
  | "" => ""
  | String c t =>
      match skip with
      | S skip => replace_from skip t old new
      | O => if HasPrefix s old then new +:+ replace_from (pred (String.length old)) t old new
             else String c (replace_from 0 t old new)
      end
  end.
Definition ReplaceAll (s old new : string) : string := replace_from 0 s old new.

Record FieldError := mkFieldError { Field : string; Message : string }.

Definition validSeverityFunctions : list string := ["max"; "weighted_max"; "sum"; "custom_rego"].
Definition validParentLevels : list string := ["team"; "org"; "company"].

Definition blank (s : string) : bool := bool_decide (TrimSpace s = "").
Definition report (b : bool) (field msg : string) : list FieldError := if b then [mkFieldError field msg] else [].

(** Every problem, in the order of the checks; none for a valid rule. *)
Definition Validate (r : Rule) : list FieldError :=
  report (blank (RuleID r)) "rule_id" "must not be empty" ++
  report (blank (TargetTheme r)) "target_theme" "must not be empty" ++
  report (MinRisks r <=? 0) "min_risks" "must be a positive integer" ++
  report (MinTeams r <=? 0) "min_teams" "must be a positive integer" ++
  report (WindowDays r <=? 0) "window_days" "must be a positive integer" ++
  report (negb (bool_decide (ParentLevel r ∈ validParentLevels))) "parent_level" "must be one of team, org, company" ++
  report (negb (bool_decide (SeverityFunction r ∈ validSeverityFunctions))) "severity_function"
    "must be one of max, weighted_max, sum, custom_rego" ++
  (if bool_decide (SeverityFunction r = "custom_rego")
   then report (blank (CustomRego r)) "custom_rego"
          "must be a non-empty Rego policy when severity_function is custom_rego"
   else report (negb (blank (CustomRego r))) "custom_rego" "must be empty unless severity_function is custom_rego") ++
  report (negb (bool_decide (RuleID r = "")) &&
          (Contains (TargetTheme r) (RuleID r) || Contains (TitleTemplate r) (RuleID r) || Contains (CustomRego r) (RuleID r)))
    "rule_id" "rule is self-referential: rule_id must not appear in target_theme, title_template, or custom_rego".

Definition Title (r : Rule) : string :=
  let tmpl := if blank (TitleTemplate r) then "Aggregated " +:+ TargetTheme r +:+ " pattern" else TitleTemplate r in
  ReplaceAll tmpl "{theme}" (TargetTheme r).

(** ** Severity of a fired rule *)

Inductive Error :=
| ErrNotFound
| ErrWrongState
| ErrDuplicateRuleID
| ErrValidation (errs : list FieldError)
| ErrCustomRego
| ErrSeverity (e : Risk.Error)
| ErrRuleBody
| ErrStatement (stmt : string)
| ErrTx (e : TxErr).
#[global] Instance Error_tx : TxError Error := ErrTx.

Definition clampSeverity (v : Z) : Z := if v <? 0 then 0 else if SeverityScaleMax <? v then SeverityScaleMax else v.

Section Severity.
Context {GA : GoArch} {GM : GoMath} {SP : SeverityPolicy}.

Definition coerceSeverity (v : rego_value) : option Z :=
  match v with
  | RegoInt z => Some z
  | RegoFloat f => Some (int_of f)
  | RegoNumber lit => ParseInt lit
  | RegoOther => None
  end.

Definition evalCustomRego (policy : string) (scores : list Z) : result Error Z :=
  if bool_decide (policy = "") then Err ErrCustomRego
  else
    match opa_severity policy scores with
    | RegoValue v => match coerceSeverity v with Some z => Ok (clampSeverity z) | None => Err ErrCustomRego end
    | RegoError | RegoUndefined => Err ErrCustomRego
    end.

Definition ComputeRuleSeverity (fn : string) (scores : list Z) (regoPolicy : string) : result Error Z :=
  if bool_decide (length scores = 0%nat) then Err (ErrSeverity ErrEmptyChildren)
  else if bool_decide (fn ∈ ["max"; "weighted_max"; "sum"]) then
    match ComputeSeverity fn (map (mkScore 1) scores) with Ok s => Ok s | Err e => Err (ErrSeverity e) end
  else if bool_decide (fn = "custom_rego") then evalCustomRego regoPolicy scores
  else Err (ErrSeverity ErrUnknownSeverityFunction).
End Severity.

(** ** Helpers of the engine *)

Definition toInt32 (v : Z) : Z := if v <? 0 then 0 else if 2 ^ 31 - 1 <? v then 2 ^ 31 - 1 else v.

Definition dayFloorUTC (t : Time) : Time := truncDate t.

Definition windowKey {UT : UUIDText} (ruleID : UUID) (windowStart : Time) : string :=
  sha256_hex (uuid_String ruleID +:+ "|" +:+ FormatRFC3339 windowStart).

Definition isRuleGenerated (inherent : string) : bool :=
  match Unmarshal_map inherent with
  | None => false
  | Some raw => match get_bool raw "rule_generated" with Some b => b | None => false end
  end.

(** [None] for a score that cannot be read. *)
Definition severityFromInherent {GA : GoArch} (inherent : string) : option Z :=
  raw ← Unmarshal_map inherent;
  match get_num raw "severity" with
  | Some s => Some (int_of s)
  | None => lf ← get_num raw "likelihood"; imp ← get_num raw "impact"; Some (int64 (int_of lf * int_of imp))
  end.

End AggRule.
