(* ===== verification/AggRuleStore.v ===== *)
(** * The aggregation engine and the rule store

    Models internal/risk/aggrule/engine.go and store.go over the tables of
    migration 20260511000026 and the risk register. *)

From Stdlib Require Import Ascii SpecFloat.
From S2P Require Import Prelude GoTime Tenancy Json Sha256 Float64 Scope GoJson Risk RiskDB AggRule.

Module AggRuleStore.
Import Risk AggRule.

(** ** Tables *)

(** [dbx.AggregationRule] *)
Record RuleRow := mkRuleRow {
  ar_ID : UUID;
  ar_TenantID : UUID;
  ar_RuleID : string;
  ar_TargetTheme : string;
  ar_MinRisks : Z;
  ar_MinTeams : Z;
  ar_WindowDays : Z;
  ar_ParentLevel : string;
  ar_SeverityFunction : string;
  ar_RuleBody : string;
  ar_Status : string;
  ar_ActivatedBy : option string;
  ar_ActivatedAt : option Time;
  ar_CreatedAt : Time;
  ar_UpdatedAt : Time;
}.

Record EvaluationRow := mkEvaluationRow {
  ev_ID : UUID;
  ev_TenantID : UUID;
  ev_RuleID : UUID;
  ev_Outcome : string;
  ev_RiskCount : Z;
  ev_TeamCount : Z;
  ev_WindowStart : option Time;
  ev_MetaRiskID : option UUID;
  ev_EvaluatedAt : Time;
}.

Record AuditRow := mkAuditRow {
  au_ID : UUID;
  au_TenantID : UUID;
  au_RuleID : UUID;
  au_Event : string;
  au_Actor : string;
  au_FromStatus : option string;
  au_ToStatus : option string;
  au_Detail : string;
  au_CreatedAt : Time;
}.

Record DB := mkDB {
  register : RiskDB.DB;
  aggregation_rules : list RuleRow;
  evaluations : list EvaluationRow;
  audit_log : list AuditRow;
}.

(** What [emitSinkAggregationRule] hands to the external sink. *)
Record SinkEntry := mkSink {
  sk_TenantID : UUID;
  sk_RuleID : UUID;
  sk_AuditID : UUID;
  sk_Event : string;
  sk_Actor : string;
  sk_FromStatus : string;
  sk_ToStatus : string;
}.

Record World := mkWorld { db : DB; sink : list SinkEntry }.

#[global] Instance World_rollback : TxState World := λ before after, mkWorld (db before) (sink after).
#[global] Instance World_atomic : Atomic db.
Proof. done. Qed.

Definition set_register (w : World) (d : RiskDB.DB) : World :=
  mkWorld (mkDB d (aggregation_rules (db w)) (evaluations (db w)) (audit_log (db w))) (sink w).
Definition set_rules (w : World) (t : list RuleRow) : World :=
  mkWorld (mkDB (register (db w)) t (evaluations (db w)) (audit_log (db w))) (sink w).
Definition set_evaluations (w : World) (t : list EvaluationRow) : World :=
  mkWorld (mkDB (register (db w)) (aggregation_rules (db w)) t (audit_log (db w))) (sink w).
Definition set_audit (w : World) (t : list AuditRow) : World :=
  mkWorld (mkDB (register (db w)) (aggregation_rules (db w)) (evaluations (db w)) t) (sink w).

(** ** Statements *)

Inductive QueryErr := NoRows | UniqueViolation | PgError.

Definition on_register {A} (m : Tx RiskDB.DB RiskDB.QueryErr A) : Tx World QueryErr A := λ w,
  match m (register (db w)) with
  | (Ok a, d) => (Ok a, set_register w d)
  | (Err RiskDB.NoRows, d) => (Err NoRows, set_register w d)
  | (Err RiskDB.PgError, d) => (Err PgError, set_register w d)
  end.

Definition one {A} (l : list A) : result QueryErr A := match l with [] => Err NoRows | x :: _ => Ok x end.

Definition rule_at (tenantID id : UUID) (r : RuleRow) : bool :=
  bool_decide (ar_TenantID r = tenantID) && bool_decide (ar_ID r = id).

(** The CHECK constraints of [aggregation_rules]. *)
Definition check_rego (r : RuleRow) : bool :=
  bool_decide (ar_SeverityFunction r ≠ "custom_rego") ||
  match RiskDB.arrow (ar_RuleBody r) "custom_rego" with Some (JStr s) => bool_decide (s ≠ "") | _ => false end.

Definition check_activation (r : RuleRow) : bool :=
  (bool_decide (ar_Status r = "staged") && bool_decide (ar_ActivatedBy r = None) && bool_decide (ar_ActivatedAt r = None)) ||
  (bool_decide (ar_Status r ∈ ["active"; "inactive"]) && bool_decide (is_Some (ar_ActivatedBy r)) &&
   bool_decide (is_Some (ar_ActivatedAt r))).

Definition check_rule (r : RuleRow) : bool :=
  bool_decide (ar_RuleID r ≠ "") && bool_decide (ar_TargetTheme r ≠ "") &&
  (0 <? ar_MinRisks r) && (0 <? ar_MinTeams r) && (0 <? ar_WindowDays r) &&
  bool_decide (ar_ParentLevel r ∈ Levels) &&
  bool_decide (ar_SeverityFunction r ∈ ["max"; "weighted_max"; "sum"; "custom_rego"]) &&
  bool_decide (ar_Status r ∈ ["staged"; "active"; "inactive"]) && check_rego r && check_activation r.

Section Statements.
Context {JB : JsonB}.

Definition CreateAggregationRule (now : Time) (id tenantID : UUID) (ruleID theme : string) (minRisks minTeams windowDays : Z)
    (level fn body : string) : Tx World QueryErr RuleRow := λ w,
  match jsonb_in body with
  | None => (Err PgError, w)
  | Some b =>
      let r := mkRuleRow id tenantID ruleID theme minRisks minTeams windowDays level fn b "staged" None None now now in
      let rs := aggregation_rules (db w) in
      if negb (check_rule r) then (Err PgError, w)
      else if bool_decide (id ∈ (ar_ID <$> rs)) ||
              existsb (λ x, bool_decide (ar_TenantID x = tenantID) && bool_decide (ar_RuleID x = ruleID)) rs
      then (Err UniqueViolation, w)
      else (Ok r, set_rules w (rs ++ [r]))
  end.
End Statements.

Definition GetAggregationRuleByID (tenantID id : UUID) : Tx World QueryErr RuleRow := λ w,
  (one (select_where (rule_at tenantID id) (aggregation_rules (db w))), w).

(** ORDER BY created_at DESC, id ASC *)
Definition newest_rule (a b : RuleRow) : Prop :=
  ar_CreatedAt b < ar_CreatedAt a ∨ (ar_CreatedAt a = ar_CreatedAt b ∧ (ar_ID a ≤ ar_ID b)%N).
(** ORDER BY created_at ASC, id ASC *)
Definition oldest_rule (a b : RuleRow) : Prop :=
  ar_CreatedAt a < ar_CreatedAt b ∨ (ar_CreatedAt a = ar_CreatedAt b ∧ (ar_ID a ≤ ar_ID b)%N).
(** ORDER BY evaluated_at DESC, id ASC *)
Definition newest_evaluation (a b : EvaluationRow) : Prop :=
  ev_EvaluatedAt b < ev_EvaluatedAt a ∨ (ev_EvaluatedAt a = ev_EvaluatedAt b ∧ (ev_ID a ≤ ev_ID b)%N).
(** ORDER BY created_at DESC, id ASC *)
Definition newest_audit (a b : AuditRow) : Prop :=
  au_CreatedAt b < au_CreatedAt a ∨ (au_CreatedAt a = au_CreatedAt b ∧ (au_ID a ≤ au_ID b)%N).
#[global] Instance newest_rule_dec : RelDecision newest_rule.
Proof. intros a b. unfold newest_rule. apply _. Defined.
#[global] Instance oldest_rule_dec : RelDecision oldest_rule.
Proof. intros a b. unfold oldest_rule. apply _. Defined.
#[global] Instance newest_evaluation_dec : RelDecision newest_evaluation.
Proof. intros a b. unfold newest_evaluation. apply _. Defined.
#[global] Instance newest_audit_dec : RelDecision newest_audit.
Proof. intros a b. unfold newest_audit. apply _. Defined.

Definition ListAggregationRules (tenantID : UUID) (w : World) : list RuleRow :=
  merge_sort newest_rule (select_where (λ r, bool_decide (ar_TenantID r = tenantID)) (aggregation_rules (db w))).

Definition ListActiveAggregationRules (tenantID : UUID) (w : World) : list RuleRow :=
  merge_sort oldest_rule
    (select_where (λ r, bool_decide (ar_TenantID r = tenantID) && bool_decide (ar_Status r = "active"))
       (aggregation_rules (db w))).

Definition activate_row (now : Time) (by_ : string) (r : RuleRow) : RuleRow :=
  mkRuleRow (ar_ID r) (ar_TenantID r) (ar_RuleID r) (ar_TargetTheme r) (ar_MinRisks r) (ar_MinTeams r) (ar_WindowDays r)
    (ar_ParentLevel r) (ar_SeverityFunction r) (ar_RuleBody r) "active" (Some by_) (Some now) (ar_CreatedAt r) now.
Definition deactivate_row (now : Time) (r : RuleRow) : RuleRow :=
  mkRuleRow (ar_ID r) (ar_TenantID r) (ar_RuleID r) (ar_TargetTheme r) (ar_MinRisks r) (ar_MinTeams r) (ar_WindowDays r)
    (ar_ParentLevel r) (ar_SeverityFunction r) (ar_RuleBody r) "inactive" (ar_ActivatedBy r) (ar_ActivatedAt r)
    (ar_CreatedAt r) now.

Definition update_rules (p : RuleRow → bool) (f : RuleRow → RuleRow) : Tx World QueryErr RuleRow := λ w,
  match updated_rows p f (aggregation_rules (db w)) with
  | [] => (Err NoRows, w)
  | r :: rest =>
      if forallb check_rule (r :: rest) then (Ok r, set_rules w (update_where p f (aggregation_rules (db w))))
      else (Err PgError, w)
  end.

Definition ActivateAggregationRule (now : Time) (tenantID id : UUID) (by_ : string) : Tx World QueryErr RuleRow :=
  update_rules (λ r, rule_at tenantID id r && bool_decide (ar_Status r ∈ ["staged"; "inactive"])) (activate_row now by_).

Definition DeactivateAggregationRule (now : Time) (tenantID id : UUID) : Tx World QueryErr RuleRow :=
  update_rules (λ r, rule_at tenantID id r && bool_decide (ar_Status r = "active")) (deactivate_row now).

Definition ListCandidateRisksForRule (tenantID : UUID) (theme : string) (windowStart : Time) (w : World) : list RiskDB.Row :=
  merge_sort RiskDB.oldest_first
    (select_where (λ r, bool_decide (RiskDB.r_TenantID r = tenantID) && bool_decide (theme ∈ RiskDB.r_Themes r) &&
                        (windowStart <=? RiskDB.r_CreatedAt r) &&
                        bool_decide (RiskDB.r_Methodology r ∈ ["nist_800_30"; "qualitative_5x5"]))
       (RiskDB.risks (register (db w)))).

Definition check_status (s : option string) : bool :=
  match s with None => true | Some s => bool_decide (s ∈ ["staged"; "active"; "inactive"]) end.

Definition rule_exists (w : World) (tenantID id : UUID) : bool := existsb (rule_at tenantID id) (aggregation_rules (db w)).

(** The actor is never empty, the event and states are known, the rule exists. *)
Definition WriteAggregationRuleAuditLog (now : Time) (id tenantID ruleID : UUID) (event actor : string)
    (from to_ : option string) : Tx World QueryErr () := λ w,
  let log := audit_log (db w) in
  if bool_decide (event ∈ ["created"; "activated"; "deactivated"; "reactivated"; "threshold_changed"]) &&
     bool_decide (actor ≠ "") && check_status from && check_status to_ && rule_exists w tenantID ruleID &&
     negb (bool_decide (id ∈ (au_ID <$> log)))
  then (Ok (), set_audit w (log ++ [mkAuditRow id tenantID ruleID event actor from to_ "{}" now]))
  else (Err PgError, w).

Definition WriteAggregationRuleEvaluation (now : Time) (id tenantID ruleID : UUID) (outcome : string) (riskCount teamCount : Z)
    (window : option Time) (metaRisk : option UUID) : Tx World QueryErr EvaluationRow := λ w,
  let evs := evaluations (db w) in
  let fired := bool_decide (is_Some window) && bool_decide (is_Some metaRisk) in
  let unfired := bool_decide (window = None) && bool_decide (metaRisk = None) in
  if bool_decide (outcome ∈ ["fired"; "near_miss"; "no_match"]) && (0 <=? riskCount) && (0 <=? teamCount) &&
     (if bool_decide (outcome = "fired") then fired else unfired) && rule_exists w tenantID ruleID &&
     negb (bool_decide (id ∈ (ev_ID <$> evs)))
  then
    let e := mkEvaluationRow id tenantID ruleID outcome riskCount teamCount window metaRisk now in
    (Ok e, set_evaluations w (evs ++ [e]))
  else (Err PgError, w).

(** ** Surroundings *)

(** [env_clock n] is what [time.Now] answers for the [n]-th rule, [env_newID] what
    [uuid.New] draws. *)
Record Env := mkEnv { env_ctx : Context; env_infra : Infra; env_now : Time; env_clock : nat → Time; env_newID : nat → UUID }.

Definition run {A} (stmt : string) (m : Tx World QueryErr A) (norows : Error) : Tx World Error A :=
  tx_try m (λ r, match r with
                 | Ok a => mret a
                 | Err NoRows => tx_fail norows
                 | Err _ => tx_fail (ErrStatement stmt)
                 end).
Definition exec {A} (stmt : string) (m : Tx World QueryErr A) : Tx World Error A := run stmt m (ErrStatement stmt).

Section Engine.
Context {UT : UUIDText} {JB : JsonB} {GA : GoArch} {GM : GoMath} {SP : SeverityPolicy} {PL : Planner}.

Definition inTx {A} (env : Env) (fn : UUID → Tx World Error A) : Tx World Error A :=
  Tenancy.inTx (env_infra env) (env_ctx env) fn.

(** ** The engine *)

Record Evaluation := mkEvaluation {
  e_ID : UUID;
  e_RuleID : UUID;
  e_Outcome : string;
  e_RiskCount : Z;
  e_TeamCount : Z;
  e_WindowStart : option Time;
  e_MetaRiskID : option UUID;
  e_EvaluatedAt : Time;
}.

(** The later of the start of the window's day and the last activation. *)
Definition window_start (now : Time) (row : RuleRow) : Time :=
  let windowStart := dayFloorUTC (AddDate now 0 0 (- ar_WindowDays row)) in
  match ar_ActivatedAt row with
  | Some activated => if After activated windowStart then activated else windowStart
  | None => windowStart
  end.

(** The candidates with a readable score, paired with it. *)
Definition scored (eligible : list RiskDB.Row) : list (RiskDB.Row * Z) :=
  omap (λ c, s ← severityFromInherent (RiskDB.r_InherentScore c); Some (c, s)) eligible.

Definition teamKey (c : RiskDB.Row) : string :=
  match RiskDB.r_OrgUnitID c with Some u => uuid_String u | None => "unassigned" end.

(** The first category that is not empty. *)
Definition meta_category (cs : list RiskDB.Row) : string :=
  default "operational" (head (filter (λ s, s ≠ "") (RiskDB.r_Category <$> cs))).

(** [json.Marshal] of the score map: keys in order. *)
Definition meta_score (rule : Rule) (key : string) (windowStart : Time) (severity likelihood impact childCount : Z) : json :=
  JObj [("aggregation_key", JStr key); ("child_count", JNum (Itoa childCount)); ("impact", JNum (Itoa impact));
        ("likelihood", JNum (Itoa likelihood)); ("rule_generated", JBool true); ("rule_id", JStr (RuleID rule));
        ("severity", JNum (Itoa severity)); ("severity_function", JStr (SeverityFunction rule));
        ("window_start", JStr (FormatRFC3339 windowStart))].

Definition linkChildren (now : Time) (tenantID metaRiskID ruleID : UUID) (childIDs : list UUID) : Tx World Error () :=
  tx_iter (λ c, exec "link child" (on_register (RiskDB.LinkRiskAggregation now metaRiskID c (Some ruleID) tenantID))) childIDs.

Definition GetRuleMetaRiskByKey (tenantID : UUID) (key : string) : Tx World QueryErr RiskDB.Row :=
  on_register (RiskDB.GetRiskByAggregationKey tenantID key).

Definition upsertMetaRisk (env : Env) (newID tenantID : UUID) (rule : Rule) (ruleID : UUID) (key : string)
    (windowStart : Time) (severity likelihood impact childCount : Z) (category : string) (themes : list string)
    (childIDs : list UUID) : Tx World Error UUID :=
  let inherent := render go_quote (meta_score rule key windowStart severity likelihood impact childCount) in
  tx_try (GetRuleMetaRiskByKey tenantID key) (λ found,
    match found with
    | Ok existing =>
        _ ← exec "update meta-risk"
              (on_register (RiskDB.UpdateMetaRiskInherentScore (env_now env) tenantID (RiskDB.r_ID existing) inherent));
        _ ← linkChildren (env_now env) tenantID (RiskDB.r_ID existing) ruleID childIDs;
        mret (RiskDB.r_ID existing)
    | Err NoRows =>
        _ ← exec "create meta-risk"
              (on_register (RiskDB.CreateAggregateRisk (env_now env) newID tenantID (Title rule)
                 ("Rule-generated aggregation (" +:+ RuleID rule +:+ ") of " +:+ Itoa childCount +:+ " child risks via " +:+
                  SeverityFunction rule +:+ ".")
                 category Qualitative5x5 inherent "avoid" "" "{}" "" "" (ParentLevel rule) None themes));
        _ ← linkChildren (env_now env) tenantID newID ruleID childIDs;
        mret newID
    | Err _ => tx_fail (ErrStatement "meta-risk key lookup")
    end).

Definition writeEvaluation (env : Env) (id tenantID ruleID : UUID) (outcome : string) (riskCount teamCount : Z)
    (window : option Time) (metaRiskID : option UUID) : Tx World Error Evaluation :=
  row ← exec "write evaluation"
          (WriteAggregationRuleEvaluation (env_now env) id tenantID ruleID outcome (toInt32 riskCount) (toInt32 teamCount)
             window metaRiskID);
  mret (mkEvaluation (ev_ID row) ruleID outcome riskCount teamCount window metaRiskID (ev_EvaluatedAt row)).

(** [n] numbers the evaluated rules of a cycle. *)
Definition evaluateRule (env : Env) (n : nat) (tenantID : UUID) (row : RuleRow) : Tx World Error Evaluation :=
  match Unmarshal_rule (ar_RuleBody row) with
  | None => tx_fail ErrRuleBody
  | Some rule =>
      let ruleID := ar_ID row in
      let windowStart := window_start (env_clock env n) row in
      candidates ← tx_gets (ListCandidateRisksForRule tenantID (TargetTheme rule) windowStart);
      let eligible := filter (λ c, isRuleGenerated (RiskDB.r_InherentScore c) = false) candidates in
      let children := scored eligible in
      let childIDs := RiskDB.r_ID <$> children.*1 in
      let riskCount := Z.of_nat (length childIDs) in
      let teamCount := Z.of_nat (length (remove_dups (teamKey <$> children.*1))) in
      let enoughRisks := ar_MinRisks row <=? riskCount in
      let enoughTeams := ar_MinTeams row <=? teamCount in
      let evalID := env_newID env (2 * n + 1)%nat in
      if negb (enoughRisks && enoughTeams) then
        let outcome := if xorb enoughRisks enoughTeams then "near_miss" else "no_match" in
        writeEvaluation env evalID tenantID ruleID outcome riskCount teamCount None None
      else
        severity ← tx_lift (ComputeRuleSeverity (SeverityFunction rule) children.*2 (CustomRego rule));
        let '(likelihood, impact) := DeriveGridCell severity in
        let key := windowKey ruleID windowStart in
        let themes := plan (remove_dups (children.*1 ≫= RiskDB.r_Themes)) in
        metaRiskID ← upsertMetaRisk env (env_newID env (2 * n)%nat) tenantID rule ruleID key windowStart severity likelihood
                       impact riskCount (meta_category children.*1) themes childIDs;
        writeEvaluation env evalID tenantID ruleID "fired" riskCount teamCount (Some windowStart) (Some metaRiskID)
  end.

(** No trigger themes: every active rule. *)
Definition triggered (triggerThemes : list string) (row : RuleRow) : bool :=
  bool_decide (length triggerThemes = 0%nat) || bool_decide (ar_TargetTheme row ∈ triggerThemes).

Fixpoint evaluateRules (env : Env) (n : nat) (tenantID : UUID) (rows : list RuleRow) : Tx World Error (list Evaluation) :=
  match rows with
  | [] => mret []
  | row :: rows =>
      ev ← evaluateRule env n tenantID row;
      evs ← evaluateRules env (S n) tenantID rows;
      mret (ev :: evs)
  end.

Definition Evaluate (env : Env) (tenantID : UUID) (triggerThemes : list string) : Tx World Error (list Evaluation) :=
  rules ← tx_gets (ListActiveAggregationRules tenantID);
  evaluateRules env 0 tenantID (filter (λ r, triggered triggerThemes r = true) rules).

(** ** The store *)

Record StoredRule := mkStored {
  sr_ID : UUID;
  sr_TenantID : UUID;
  sr_Rule : Rule;
  sr_Status : string;
  sr_ActivatedBy : option string;
  sr_ActivatedAt : option Time;
  sr_CreatedAt : Time;
  sr_UpdatedAt : Time;
}.

Definition storedRuleFromRow (row : RuleRow) : result Error StoredRule :=
  match Unmarshal_rule (ar_RuleBody row) with
  | None => Err ErrRuleBody
  | Some rule => Ok (mkStored (ar_ID row) (ar_TenantID row) rule (ar_Status row) (ar_ActivatedBy row) (ar_ActivatedAt row)
                       (ar_CreatedAt row) (ar_UpdatedAt row))
  end.

Definition emitSink (tenantID ruleID auditID : UUID) (event actor from to_ : string) : Tx World Error () :=
  tx_modify (λ w, mkWorld (db w) (sink w ++ [mkSink tenantID ruleID auditID event actor from to_])).

Definition Create (env : Env) (r : Rule) (actor : string) : Tx World Error StoredRule :=
  match Validate r with
  | e :: es => tx_fail (ErrValidation (e :: es))
  | [] =>
      inTx env (λ tenantID,
        row ← tx_try (CreateAggregationRule (env_now env) (env_newID env 0) tenantID (RuleID r) (TargetTheme r)
                        (toInt32 (MinRisks r)) (toInt32 (MinTeams r)) (toInt32 (WindowDays r)) (ParentLevel r)
                        (SeverityFunction r) (CanonicalJSON r))
                (λ res, match res with
                        | Ok row => mret row
                        | Err UniqueViolation => tx_fail ErrDuplicateRuleID
                        | Err _ => tx_fail (ErrStatement "create rule")
                        end);
        let auditID := env_newID env 1 in
        _ ← exec "write created audit log"
              (WriteAggregationRuleAuditLog (env_now env) auditID tenantID (ar_ID row) "created" actor None (Some "staged"));
        _ ← emitSink tenantID (ar_ID row) auditID "created" actor "" "staged";
        tx_lift (storedRuleFromRow row))
  end.

Definition Get (env : Env) (id : UUID) : Tx World Error StoredRule :=
  inTx env (λ tenantID,
    row ← run "get rule" (GetAggregationRuleByID tenantID id) ErrNotFound;
    tx_lift (storedRuleFromRow row)).

Fixpoint store_all (rows : list RuleRow) : result Error (list StoredRule) :=
  match rows with
  | [] => Ok []
  | row :: rows =>
      match storedRuleFromRow row with
      | Err e => Err e
      | Ok s => match store_all rows with Err e => Err e | Ok ss => Ok (s :: ss) end
      end
  end.

Definition List (env : Env) (statusFilter : string) : Tx World Error (list StoredRule) :=
  inTx env (λ tenantID,
    rows ← tx_gets (ListAggregationRules tenantID);
    tx_lift (store_all (filter (λ r, statusFilter = "" ∨ ar_Status r = statusFilter) rows))).

Definition Activate (env : Env) (id : UUID) (actor : string) : Tx World Error StoredRule :=
  inTx env (λ tenantID,
    current ← run "activate get" (GetAggregationRuleByID tenantID id) ErrNotFound;
    if bool_decide (ar_Status current = "active") then tx_fail ErrWrongState
    else
      let fromStatus := ar_Status current in
      let event := if bool_decide (fromStatus = "inactive") then "reactivated" else "activated" in
      row ← run "activate rule" (ActivateAggregationRule (env_now env) tenantID id actor) ErrWrongState;
      let auditID := env_newID env 0 in
      _ ← exec "write audit log"
            (WriteAggregationRuleAuditLog (env_now env) auditID tenantID (ar_ID row) event actor (Some fromStatus) (Some "active"));
      _ ← emitSink tenantID (ar_ID row) auditID event actor fromStatus "active";
      tx_lift (storedRuleFromRow row)).

Definition Deactivate (env : Env) (id : UUID) (actor : string) : Tx World Error StoredRule :=
  inTx env (λ tenantID,
    current ← run "deactivate get" (GetAggregationRuleByID tenantID id) ErrNotFound;
    if negb (bool_decide (ar_Status current = "active")) then tx_fail ErrWrongState
    else
      row ← run "deactivate rule" (DeactivateAggregationRule (env_now env) tenantID id) ErrWrongState;
      let auditID := env_newID env 0 in
      _ ← exec "write deactivated audit log"
            (WriteAggregationRuleAuditLog (env_now env) auditID tenantID (ar_ID row) "deactivated" actor (Some "active")
               (Some "inactive"));
      _ ← emitSink tenantID (ar_ID row) auditID "deactivated" actor "active" "inactive";
      tx_lift (storedRuleFromRow row)).

Definition AuditLog (env : Env) (ruleID : UUID) : Tx World Error (list AuditRow) :=
  inTx env (λ tenantID, tx_gets (λ w,
    merge_sort newest_audit
      (select_where (λ a, bool_decide (au_TenantID a = tenantID) && bool_decide (au_RuleID a = ruleID)) (audit_log (db w))))).

Definition ListAggregationRuleEvaluations (tenantID ruleID : UUID) (w : World) : list EvaluationRow :=
  merge_sort newest_evaluation
    (select_where (λ e, bool_decide (ev_TenantID e = tenantID) && bool_decide (ev_RuleID e = ruleID)) (evaluations (db w))).

Definition Evaluations (env : Env) (ruleID : UUID) : Tx World Error (list Evaluation) :=
  inTx env (λ tenantID,
    rows ← tx_gets (ListAggregationRuleEvaluations tenantID ruleID);
    mret (map (λ r, mkEvaluation (ev_ID r) (ev_RuleID r) (ev_Outcome r) (ev_RiskCount r) (ev_TeamCount r)
                      (ev_WindowStart r) (ev_MetaRiskID r) (ev_EvaluatedAt r)) rows)).

(** [Store.Evaluate] *)
Definition EvaluateRules (env : Env) (triggerThemes : list string) : Tx World Error (list Evaluation) :=
  inTx env (λ tenantID, Evaluate env tenantID triggerThemes).

End Engine.
End AggRuleStore.
