(* ===== verification/AggRuleSpec.v ===== *)
(** * Aggregation rules: documents, lifecycle, evaluation

    A rule is stored and read back whole; its audit log replays to its status and
    names an actor for every activation; an evaluation appends one ledger row with
    the outcome of the thresholds, counts no risk older than the last activation,
    and touches nothing but its own meta-risk; and repeating it in the same window
    finds that meta-risk and adds nothing. *)

From Stdlib Require Import Ascii SpecFloat.
From stdpp Require Import relations.
From S2P Require Import Prelude GoTime Tenancy Json Sha256 Float64 Scope GoJson Risk RiskDB RiskSpec RiskStoreSpec.
From S2P Require Import AggRule AggRuleStore.
Import Risk AggRule AggRuleStore.

(** ** Rule documents *)

(** Fields a Go [string] of valid UTF-8 and a Go [int] can hold. *)
Definition sound (r : Rule) : Prop := Forall slot_ok (rule_slots r).

Definition member_names : list string :=
  ["rule_id"; "target_theme"; "min_risks"; "min_teams"; "window_days"; "parent_level"; "severity_function";
   "title_template"; "custom_rego"].

Lemma rule_json_slots r : rule_json r = JObj (zip member_names (slot_json <$> rule_slots r)).
Proof. done. Qed.

Lemma member_index i k :
  member_names !! i = Some k → ∃ n, list_find (λ n, n = Scope.foldName k) rule_names = Some (i, n).
Proof.
  intros H. do 9 (destruct i as [|i]; [injection H as <-; eexists; vm_compute; reflexivity|]). done.
Qed.

Lemma rule_member r k j :
  (k, j) ∈ zip member_names (slot_json <$> rule_slots r) ↔
  ∃ i s, member_names !! i = Some k ∧ rule_slots r !! i = Some s ∧ j = slot_json s.
Proof.
  rewrite list_elem_of_lookup. split.
  - intros (i & Hi). apply lookup_zip_Some in Hi as [Hk Hj]. apply list_lookup_fmap_Some in Hj as (s & -> & Hs). eauto.
  - intros (i & s & Hk & Hs & ->). exists i. apply lookup_zip_Some. split; [done|]. rewrite list_lookup_fmap. by rewrite Hs.
Qed.

(** A document with the members of a rule, in any order, is read as that rule. *)
Lemma decode_rule_members strict r ms :
  sound r → ms ≡ₚ zip member_names (slot_json <$> rule_slots r) → decode_rule strict (JObj ms) = Some r.
Proof.
  intros Hs Hp. unfold decode_rule.
  destruct (decode_fields_read strict rule_names ms (rule_slots zero_rule) (rule_slots r)) as (st & -> & Hk & _ & Hset).
  - repeat constructor.
  - done.
  - intros k j. rewrite Hp, rule_member. intros (i & s & Hi & Hv & ->). destruct (member_index i k Hi) as [n Hn]. eauto 10.
  - assert (st = rule_slots r) as ->; [|by destruct r].
    apply list_eq. intros i. destruct (rule_slots r !! i) as [s|] eqn:E.
    + destruct (member_names !! i) as [k|] eqn:Ek.
      2: { apply lookup_lt_Some in E. apply lookup_ge_None in Ek. simpl in *. lia. }
      destruct (member_index i k Ek) as [n Hn]. rewrite <- E. eapply (Hset k (slot_json s)); [|exact Hn].
      rewrite Hp, rule_member. eauto 10.
    + apply lookup_ge_None. apply lookup_ge_None in E. by rewrite (Forall2_length _ _ _ Hk).
Qed.

Lemma rule_decodes r : sound r → decode_all (CanonicalJSON r) = Some (rule_json r).
Proof.
  intros Hs. apply (decode_render go_quote); [|by apply Nat.leb_le]. constructor. apply Forall_forall. intros [k j] Hkj.
  assert (Hm : (k, j) ∈ zip member_names (slot_json <$> rule_slots r)) by done.
  apply rule_member in Hm as (i & s & Hi & Hv & ->). simpl. split.
  - clear -Hi. do 9 (destruct i as [|i]; [by injection Hi as <-|]). done.
  - apply slot_json_writable. by eapply Forall_lookup_1.
Qed.

Section Stored.
Context {JB : JsonB} {JN : JsonBNum}.

(** The stored text of a rule is read back as that rule. *)
Lemma stored_rule r t : sound r → jsonb_in (CanonicalJSON r) = Some t → Unmarshal_rule t = Some r.
Proof using JN.
  intros Hs Ht. assert (Hn : NoDup (zip member_names (slot_json <$> rule_slots r)).*1).
  { rewrite fst_zip by done. refine (bool_decide_unpack _ _); vm_compute; exact I. }
  destruct (jsonb_members _ _ _ Ht (rule_decodes r Hs) Hn) as (ms & Hd & Hk & Hm).
  unfold Unmarshal_rule. rewrite Hd. cbn [mbind option_bind]. apply decode_rule_members; [done|].
  symmetry. apply submseteq_length_Permutation.
  - apply NoDup_submseteq; [by apply (NoDup_fmap_1 fst)|]. intros [k j] Hkj. apply Hm; [done|].
    apply rule_member in Hkj as (i & s & _ & Hv & ->). apply slot_json_writable. by eapply Forall_lookup_1.
  - rewrite <- (length_fmap fst ms), Hk. done.
Qed.
End Stored.

(** ** Statements *)

Lemma rule_run_Ok {A} stmt (m : Tx World QueryErr A) e w a w' : run stmt m e w = (Ok a, w') → m w = (Ok a, w').
Proof. unfold run, tx_try. by destruct (m w) as [[|[]] w1]; intros [= -> ->]. Qed.

Lemma rule_exec_Ok {A} stmt (m : Tx World QueryErr A) w a w' : exec stmt m w = (Ok a, w') → m w = (Ok a, w').
Proof. apply rule_run_Ok. Qed.

Lemma rule_audit_Ok now id t ruleID event actor from to_ w w' :
  WriteAggregationRuleAuditLog now id t ruleID event actor from to_ w = (Ok (), w') →
  actor ≠ "" ∧ w' = set_audit w (audit_log (db w) ++ [mkAuditRow id t ruleID event actor from to_ "{}" now]).
Proof.
  unfold WriteAggregationRuleAuditLog. destruct (_ && _) eqn:E; [|done]. intros [= <-]. split; [|done].
  repeat (apply andb_prop in E as [E ?]). by apply bool_decide_eq_true in H3.
Qed.

Lemma rule_at_spec t id r : rule_at t id r = true ↔ ar_TenantID r = t ∧ ar_ID r = id.
Proof. unfold rule_at. by rewrite andb_true_iff, !bool_decide_eq_true. Qed.

Lemma get_rule_Ok t id w r w' :
  GetAggregationRuleByID t id w = (Ok r, w') → w' = w ∧ r ∈ aggregation_rules (db w) ∧ ar_TenantID r = t ∧ ar_ID r = id.
Proof.
  unfold GetAggregationRuleByID, one. intros [= H <-]. split; [done|].
  destruct (select_where _ _) as [|x l] eqn:E; [done|]. injection H as ->.
  assert (Hin : r ∈ select_where (rule_at t id) (aggregation_rules (db w))) by (rewrite E; left).
  apply elem_of_select_where in Hin as [H1 H2]. by rewrite rule_at_spec in H1.
Qed.

Section Store.
Context {UT : UUIDText} {JB : JsonB} {JN : JsonBNum} {GA : GoArch} {GM : GoMath} {SP : SeverityPolicy} {PL : Planner}.

Implicit Types (env : Env) (w : World).

Lemma create_rule_Ok now id t ruleID theme a b c level fn body w r w' :
  CreateAggregationRule now id t ruleID theme a b c level fn body w = (Ok r, w') →
  ∃ doc, jsonb_in body = Some doc ∧ ¬ (id ∈ ar_ID <$> aggregation_rules (db w)) ∧
    r = mkRuleRow id t ruleID theme a b c level fn doc "staged" None None now now ∧
    w' = set_rules w (aggregation_rules (db w) ++ [r]).
Proof using.
  unfold CreateAggregationRule. destruct (jsonb_in body) as [doc|]; [|done]. cbv zeta. destruct (negb _); [done|].
  destruct (_ || _) eqn:E; [done|]. apply orb_false_iff in E as [E%bool_decide_eq_false _]. intros [= <- <-]. eauto 10.
Qed.

(** What a successful [Create] did. *)
Lemma Create_Ok env r actor w s w' :
  Create env r actor w = (Ok s, w') →
  Validate r = [] ∧ ∃ t doc, tenant_of (env_ctx env) = Some t ∧ jsonb_in (CanonicalJSON r) = Some doc ∧ actor ≠ "" ∧
  let id := env_newID env 0 in
  let row := mkRuleRow id t (RuleID r) (TargetTheme r) (toInt32 (MinRisks r)) (toInt32 (MinTeams r)) (toInt32 (WindowDays r))
               (ParentLevel r) (SeverityFunction r) doc "staged" None None (env_now env) (env_now env) in
  ¬ (id ∈ ar_ID <$> aggregation_rules (db w)) ∧ storedRuleFromRow row = Ok s ∧
  db w' = mkDB (register (db w)) (aggregation_rules (db w) ++ [row]) (evaluations (db w))
            (audit_log (db w) ++ [mkAuditRow (env_newID env 1) t id "created" actor None (Some "staged") "{}" (env_now env)]).
Proof using.
  unfold Create. destruct (Validate r); [|done]. intros H. split; [done|].
  apply (inTx_cases db) in H as [(t & a & Ht & [= <-] & H)|(e & [=] & _)]. exists t.
  apply tx_bind_Ok in H as (row & w1 & H1 & H).
  assert (H1' : CreateAggregationRule (env_now env) (env_newID env 0) t (RuleID r) (TargetTheme r) (toInt32 (MinRisks r))
      (toInt32 (MinTeams r)) (toInt32 (WindowDays r)) (ParentLevel r) (SeverityFunction r) (CanonicalJSON r) w = (Ok row, w1)).
  { revert H1. unfold tx_try. by destruct (CreateAggregationRule _ _ _ _ _ _ _ _ _ _ _ w) as [[|[]] w2]; intros [= -> ->]. }
  apply create_rule_Ok in H1' as (doc & Hj & Hf & -> & ->). exists doc. cbv zeta in H.
  apply tx_bind_Ok in H as ([] & w2 & [Ha ->]%rule_exec_Ok%rule_audit_Ok & H).
  apply tx_bind_Ok in H as ([] & w3 & [= <-] & [Hs ->]%tx_lift_Ok). simpl in Hs. by split_and!.
Qed.

(** A rule that was created is validated, staged and not activated, reads back
    with every field it was given, and is what a later [Get] returns. *)
Theorem Create_stores_rule env r actor w s w' ctx t now clock newID :
  Create env r actor w = (Ok s, w') → sound r → tenant_of (env_ctx env) = Some t → tenant_of ctx = Some t →
  Validate r = [] ∧ sr_Rule s = r ∧ sr_Status s = "staged" ∧ sr_ActivatedBy s = None ∧ sr_ActivatedAt s = None ∧
  (Get (mkEnv ctx healthy now clock newID) (sr_ID s) w').1 = Ok s.
Proof using JN.
  intros (Hv & t0 & doc & Ht0 & Hj & _ & Hf & Hs & Hd)%Create_Ok Hr Ht Hc. rewrite Ht in Ht0. injection Ht0 as <-.
  pose proof Hs as Hs'. unfold storedRuleFromRow in Hs. simpl in Hs. rewrite (stored_rule r doc Hr Hj) in Hs. injection Hs as <-.
  split_and!; try done. unfold Get, inTx. cbn [env_infra env_ctx sr_ID].
  rewrite (inTx_healthy db ctx t) by done. unfold mbind, tx_bind, run, tx_try, GetAggregationRuleByID.
  rewrite Hd. cbn [aggregation_rules]. rewrite select_where_app.
  rewrite (select_where_none (rule_at t (env_newID env 0)) (aggregation_rules (db w))).
  - simpl. unfold select_where. rewrite filter_cons, decide_True by by apply rule_at_spec. simpl.
    unfold tx_lift. by rewrite Hs'.
  - intros x Hx. apply not_true_iff_false. rewrite rule_at_spec. intros [_ E]. apply Hf. rewrite <- E.
    by apply list_elem_of_fmap_2.
Qed.

(** ** The lifecycle and its audit log *)

(** The entries of one rule, oldest first. *)
Definition history (t id : UUID) (w : World) : list AuditRow :=
  filter (λ a, au_TenantID a = t ∧ au_RuleID a = id) (audit_log (db w)).

(** The events the lifecycle allows. *)
Inductive event_edge : option string → string → string → Prop :=
| edge_created : event_edge None "created" "staged"
| edge_activated : event_edge (Some "staged") "activated" "active"
| edge_reactivated : event_edge (Some "inactive") "reactivated" "active"
| edge_deactivated : event_edge (Some "active") "deactivated" "inactive".

(** A log that replays along the edges, with the state it ends in. *)
Inductive trail : list AuditRow → option string → Prop :=
| trail_nil : trail [] None
| trail_snoc l a from to_ :
    trail l from → au_FromStatus a = from → au_ToStatus a = Some to_ → event_edge from (au_Event a) to_ →
    au_Actor a ≠ "" → trail (l ++ [a]) (Some to_).

Record audited (w : World) : Prop := {
  audited_ids : NoDup (ar_ID <$> aggregation_rules (db w));
  audited_refs a : a ∈ audit_log (db w) → au_RuleID a ∈ ar_ID <$> aggregation_rules (db w);
  audited_trail r : r ∈ aggregation_rules (db w) → trail (history (ar_TenantID r) (ar_ID r) w) (Some (ar_Status r));
  audited_active r : r ∈ aggregation_rules (db w) → ar_Status r = "active" →
    ∃ l a, history (ar_TenantID r) (ar_ID r) w = l ++ [a] ∧ ar_ActivatedBy r = Some (au_Actor a) ∧
           ar_ActivatedAt r = Some (au_CreatedAt a);
}.

Lemma history_ext t id w w' : audit_log (db w') = audit_log (db w) → history t id w' = history t id w.
Proof using. unfold history. by intros ->. Qed.

Lemma history_snoc t id w w' a :
  audit_log (db w') = audit_log (db w) ++ [a] →
  history t id w' = if decide (au_TenantID a = t ∧ au_RuleID a = id) then history t id w ++ [a] else history t id w.
Proof using.
  unfold history. intros ->. rewrite filter_app, filter_cons, filter_nil. case_decide; [done|]. by rewrite app_nil_r.
Qed.

Lemma audited_ext w w' :
  aggregation_rules (db w') = aggregation_rules (db w) → audit_log (db w') = audit_log (db w) → audited w → audited w'.
Proof using.
  intros E1 E2 [H1 H2 H3 H4]. split; rewrite ?E1, ?E2; [done|done|..]; intros r Hr; rewrite (history_ext _ _ w w' E2); eauto.
Qed.

(** A rule added with its first entry. *)
Lemma audited_create w w' r a :
  aggregation_rules (db w') = aggregation_rules (db w) ++ [r] → audit_log (db w') = audit_log (db w) ++ [a] →
  ¬ (ar_ID r ∈ ar_ID <$> aggregation_rules (db w)) → au_TenantID a = ar_TenantID r → au_RuleID a = ar_ID r →
  ar_Status r = "staged" → au_FromStatus a = None → au_ToStatus a = Some "staged" → au_Event a = "created" → au_Actor a ≠ "" →
  audited w → audited w'.
Proof using.
  intros E1 E2 Hf Et Ei Hs Hfr Hto Hev Hac [H1 H2 H3 H4].
  assert (Hnil : ∀ t, history t (ar_ID r) w = []).
  { intros t. unfold history. destruct (filter _ _) as [|x l] eqn:E; [done|].
    assert (Hx : x ∈ filter (λ a, au_TenantID a = t ∧ au_RuleID a = ar_ID r) (audit_log (db w))) by (rewrite E; left).
    apply list_elem_of_filter in Hx as [[_ Ex] Hx]. exfalso. apply Hf. rewrite <- Ex. by apply H2. }
  assert (Hold : ∀ x, x ∈ aggregation_rules (db w) → history (ar_TenantID x) (ar_ID x) w' = history (ar_TenantID x) (ar_ID x) w).
  { intros x Hx. rewrite (history_snoc _ _ _ _ _ E2), decide_False; [done|]. intros [_ E]. apply Hf.
    rewrite <- Ei, E. by apply list_elem_of_fmap_2. }
  split; rewrite ?E1, ?E2.
  - rewrite fmap_app, NoDup_app. split_and!; [done| |apply NoDup_singleton]. intros x Hx ->%list_elem_of_singleton. done.
  - intros x. rewrite fmap_app, !elem_of_app, !list_elem_of_singleton. intros [Hx| ->]; [left; auto|right]. rewrite Ei. left.
  - intros x [Hx| ->%list_elem_of_singleton]%elem_of_app; [rewrite Hold by done; auto|].
    rewrite (history_snoc _ _ _ _ _ E2), decide_True, Hnil, Hs by done.
    eapply trail_snoc; [apply trail_nil|done|done|rewrite Hev; constructor|done].
  - intros x [Hx| ->%list_elem_of_singleton]%elem_of_app Hst; [rewrite Hold by done; auto|]. by rewrite Hs in Hst.
Qed.

(** A transition of the rule [id] with its entry. *)
Lemma audited_update w w' t id (p : RuleRow → bool) f (a : AuditRow) from to_ :
  aggregation_rules (db w') = update_where p f (aggregation_rules (db w)) → audit_log (db w') = audit_log (db w) ++ [a] →
  (∀ r, r ∈ aggregation_rules (db w) → p r = true → ar_TenantID r = t ∧ ar_ID r = id ∧ ar_Status r = from) →
  (∀ r, ar_ID (f r) = ar_ID r ∧ ar_TenantID (f r) = ar_TenantID r ∧ ar_Status (f r) = to_) →
  (∃ r, r ∈ aggregation_rules (db w) ∧ p r = true) →
  au_TenantID a = t → au_RuleID a = id → au_FromStatus a = Some from → au_ToStatus a = Some to_ →
  event_edge (Some from) (au_Event a) to_ → au_Actor a ≠ "" →
  (to_ = "active" → ∀ r, ar_ActivatedBy (f r) = Some (au_Actor a) ∧ ar_ActivatedAt (f r) = Some (au_CreatedAt a)) →
  audited w → audited w'.
Proof using.
  intros E1 E2 Hp Hf (r0 & Hr0 & Hp0) Et Ei Hfr Hto Hev Hac Hact [H1 H2 H3 H4].
  assert (Hids : ar_ID <$> update_where p f (aggregation_rules (db w)) = ar_ID <$> aggregation_rules (db w)).
  { unfold update_where. change (map ?g ?l) with (g <$> l). rewrite <- list_fmap_compose. apply list_fmap_ext.
    intros i x _. simpl. destruct (p x); [apply Hf|done]. }
  destruct (Hp r0 Hr0 Hp0) as (T0 & I0 & S0).
  assert (Huniq : ∀ x, x ∈ aggregation_rules (db w) → ar_ID x = id → x = r0).
  { intros x Hx Ex. apply (list_elem_of_lookup) in Hx as [i Hi], Hr0 as [j Hj].
    assert (i = j) as ->; [|by simplify_eq]. eapply (NoDup_lookup _ _ _ id H1); rewrite list_lookup_fmap.
    - by rewrite Hi, <- Ex.
    - by rewrite Hj, <- I0. }
  assert (Hupd : ∀ y, y ∈ update_where p f (aggregation_rules (db w)) →
     (y = f r0 ∧ history (ar_TenantID y) (ar_ID y) w' = history t id w ++ [a]) ∨
     (y ∈ aggregation_rules (db w) ∧ history (ar_TenantID y) (ar_ID y) w' = history (ar_TenantID y) (ar_ID y) w)).
  { intros y Hy. apply list_elem_of_In, in_map_iff in Hy as (x & <- & Hx%list_elem_of_In). destruct (p x) eqn:Px.
    - left. destruct (Hp x Hx Px) as (_ & Ix & _). rewrite (Huniq x Hx Ix). split; [done|].
      destruct (Hf r0) as (Fi & Ft & _). rewrite (history_snoc _ _ _ _ _ E2), Fi, Ft, T0, I0, decide_True by done. done.
    - right. split; [done|]. rewrite (history_snoc _ _ _ _ _ E2), decide_False; [done|]. intros [_ E].
      rewrite (Huniq x Hx), Hp0 in Px; [done|congruence]. }
  destruct (Hf r0) as (Fi & Ft & Fs). split; rewrite ?E1, ?E2, ?Hids.
  - done.
  - intros x [Hx| ->%list_elem_of_singleton]%elem_of_app; [auto|]. rewrite Ei, <- I0. by apply list_elem_of_fmap_2.
  - intros y Hy. destruct (Hupd y Hy) as [[-> Hh]|[Hin Hh]]; rewrite Hh; [|auto]. rewrite Fs.
    eapply trail_snoc; [|exact Hfr|exact Hto|exact Hev|exact Hac]. rewrite <- S0, <- T0, <- I0. by apply H3.
  - intros y Hy Hst. destruct (Hupd y Hy) as [[-> Hh]|[Hin Hh]]; rewrite Hh; [|auto].
    exists (history t id w), a. split; [done|]. rewrite Fs in Hst. by apply Hact.
Qed.

Lemma update_rules_Ok p f w r w' :
  update_rules p f w = (Ok r, w') →
  w' = set_rules w (update_where p f (aggregation_rules (db w))) ∧
  ∃ x, x ∈ aggregation_rules (db w) ∧ p x = true ∧ r = f x.
Proof using.
  unfold update_rules, updated_rows. destruct (select_where _ _) as [|x l] eqn:E; [done|]. cbn [fmap list_fmap].
  destruct (forallb _ _); [|done]. intros [= <- <-]. split; [done|]. exists x.
  assert (Hx : x ∈ select_where p (aggregation_rules (db w))) by (rewrite E; left).
  apply elem_of_select_where in Hx as [? ?]. done.
Qed.

(** Rules with the same identifier are the same row. *)
Lemma same_rule w x y :
  audited w → x ∈ aggregation_rules (db w) → y ∈ aggregation_rules (db w) → ar_ID x = ar_ID y → x = y.
Proof using.
  intros [H1 _ _ _] Hx Hy E. apply list_elem_of_lookup in Hx as [i Hi], Hy as [j Hj].
  assert (i = j) as ->; [|by simplify_eq]. eapply (NoDup_lookup _ _ _ (ar_ID x) H1); rewrite list_lookup_fmap.
  - by rewrite Hi.
  - by rewrite Hj, E.
Qed.

Lemma audited_Create env r actor w : audited w → audited (Create env r actor w).2.
Proof using.
  intros Hw. destruct (Create env r actor w) as [[s|e] w'] eqn:E; simpl.
  - apply Create_Ok in E as (_ & t & doc & _ & _ & Ha & Hf & _ & Hd).
    eapply audited_create; [by rewrite Hd|by rewrite Hd|exact Hf|done..].
  - unfold Create in E. destruct (Validate r); [|by injection E as _ <-].
    apply (inTx_cases db) in E as [(t & a & _ & [=] & _)|(e' & _ & E)].
    apply (audited_ext w); [by rewrite E..|done].
Qed.

Lemma audited_Activate env id actor w : audited w → audited (Activate env id actor w).2.
Proof using.
  intros Hw. unfold Activate. destruct (inTx env _ w) as [res w'] eqn:E. simpl.
  apply (inTx_cases db) in E as [(t & a & _ & _ & E)|(e & _ & E)]; [|by apply (audited_ext w); [rewrite E..|]].
  apply tx_bind_Ok in E as (cur & w1 & (-> & Hin & Et & Ei)%rule_run_Ok%get_rule_Ok & E).
  case_bool_decide as Hna; [done|]. cbv zeta in E.
  apply tx_bind_Ok in E as (row & w2 & [-> (x & Hx & Px & ->)]%rule_run_Ok%update_rules_Ok & E).
  apply tx_bind_Ok in E as ([] & w3 & [Hac ->]%rule_exec_Ok%rule_audit_Ok & E).
  apply tx_bind_Ok in E as ([] & w4 & [= <-] & [_ ->]%tx_lift_Ok).
  apply andb_prop in Px as [[Tx Ix]%rule_at_spec Sx%bool_decide_eq_true].
  assert (x = cur) as -> by (apply (same_rule w); [done..|congruence]).
  eapply (audited_update w _ t id _ (activate_row (env_now env) actor) _ (ar_Status cur) "active");
    [reflexivity|reflexivity|..|exact Hw].
  - intros y Hy [[Ty Iy]%rule_at_spec _]%andb_prop. split_and!; [done..|].
    by rewrite (same_rule w y cur) by (done || congruence).
  - done.
  - exists cur. split; [done|]. by rewrite (proj2 (rule_at_spec _ _ _)), bool_decide_eq_true_2.
  - done.
  - done.
  - done.
  - done.
  - simpl. rewrite !elem_of_cons, elem_of_nil in Sx. destruct Sx as [->|[->|[]]]; constructor.
  - done.
  - done.
Qed.

Lemma audited_Deactivate env id actor w : audited w → audited (Deactivate env id actor w).2.
Proof using.
  intros Hw. unfold Deactivate. destruct (inTx env _ w) as [res w'] eqn:E. simpl.
  apply (inTx_cases db) in E as [(t & a & _ & _ & E)|(e & _ & E)]; [|by apply (audited_ext w); [rewrite E..|]].
  apply tx_bind_Ok in E as (cur & w1 & (-> & Hin & Et & Ei)%rule_run_Ok%get_rule_Ok & E).
  case_bool_decide as Hna; [|done]. cbn [negb] in E.
  apply tx_bind_Ok in E as (row & w2 & [-> (x & Hx & Px & ->)]%rule_run_Ok%update_rules_Ok & E). cbv zeta in E.
  apply tx_bind_Ok in E as ([] & w3 & [Hac ->]%rule_exec_Ok%rule_audit_Ok & E).
  apply tx_bind_Ok in E as ([] & w4 & [= <-] & [_ ->]%tx_lift_Ok).
  apply andb_prop in Px as [[Tx Ix]%rule_at_spec Sx%bool_decide_eq_true].
  eapply (audited_update w _ t id _ (deactivate_row (env_now env)) _ "active" "inactive");
    [reflexivity|reflexivity|..|exact Hw]; try done.
  - intros y Hy [[Ty Iy]%rule_at_spec Sy%bool_decide_eq_true]%andb_prop. done.
  - exists x. split; [done|]. by rewrite (proj2 (rule_at_spec _ _ _)), bool_decide_eq_true_2.
  - constructor.
Qed.
End Store.
