(* ===== verification/AggRuleEngineSpec.v ===== *)
(** * The aggregation engine: outcomes, cycle exclusion, idempotence

    What one evaluation of a rule counts, records and writes; that the meta-risk
    it stores is never a candidate again; and that repeating it in the same window
    adds nothing. *)

From Stdlib Require Import Ascii SpecFloat.
From stdpp Require Import relations gmap.
From S2P Require Import Prelude GoTime Tenancy Json Sha256 Float64 Scope GoJson Risk RiskDB RiskSpec RiskStoreSpec.
From S2P Require Import AggRule AggRuleStore AggRuleSpec.
Import Risk AggRule AggRuleStore.

(** ** Texts the engine writes are plain ASCII *)

Fixpoint ascii_only (s : string) : bool :=
  match s with "" => true | String c s => (code c <? 128)%N && ascii_only s end.

Lemma ascii_only_utf8 s : ascii_only s = true → utf8_valid s = true.
Proof.
  induction s as [|c s IH]; [done|]. cbn [ascii_only]. intros [Hc Hs]%andb_prop.
  assert (Hr : rune_len (String c s) = 1%nat) by (unfold rune_len; by rewrite Hc).
  cbn [utf8_valid]. rewrite Hr. auto.
Qed.

Lemma ascii_only_app a b : ascii_only a = true → ascii_only b = true → ascii_only (a +:+ b) = true.
Proof.
  induction a as [|c a IH]; [done|]. rewrite str_app_cons. cbn [ascii_only]. intros [-> Ha]%andb_prop Hb. simpl. auto.
Qed.

Lemma digits_ascii k n : ascii_only (digits k n) = true.
Proof.
  revert n. induction k as [|k IH]; intros n; [done|]. cbn [digits]. apply ascii_only_app; [apply IH|].
  cbn [ascii_only]. rewrite andb_true_r. apply N.ltb_lt.
  pose proof (Z.mod_pos_bound n 10 ltac:(lia)). unfold Ascii.ascii_of_nat. rewrite N_ascii_embedding by lia. lia.
Qed.

Lemma FormatRFC3339_utf8 t : utf8_valid (FormatRFC3339 t) = true.
Proof.
  apply ascii_only_utf8. unfold FormatRFC3339. destruct (civil_of_day (day_of t)) as [[y m] d].
  repeat (apply ascii_only_app; [first [apply digits_ascii|done]|]). done.
Qed.

(** ** A rule read from JSON has valid fields *)

Lemma ParseInt_range lit z : ParseInt lit = Some z → - 2 ^ 63 ≤ z < 2 ^ 63.
Proof.
  unfold ParseInt. destruct (match lit with "" => _ | _ => _ end) as [neg ds]. destruct (_ || _); [done|].
  destruct (_ && _) eqn:E; [|done]. intros [= <-]. apply andb_prop in E as [E1 E2]. lia.
Qed.

Lemma into_slot_ok old v new e : slot_ok old → raw v → into_slot old v = (new, e) → slot_ok new.
Proof.
  intros Ho Hr. unfold into_slot. destruct old, v; try (by intros [= <- _]).
  - intros [= <- _]. by inversion Hr.
  - destruct (ParseInt lit) as [z0|] eqn:E; intros [= <- _]; [|done]. by apply ParseInt_range in E.
Qed.

Lemma decode_fields_ok strict names ms st st' e :
  Forall slot_ok st → Forall (λ kv, raw kv.2) ms → decode_fields strict names ms st = (st', e) → Forall slot_ok st'.
Proof.
  intros Hst Hms. revert st Hst st' e. induction Hms as [|[k v] ms Hv _ IH]; intros st Hst st' e; cbn [decode_fields];
    [by intros [= <- _]|].
  destruct (list_find _ names) as [[i n]|].
  - destruct (st !! i) as [old|] eqn:Ho; [|by apply IH]. destruct (into_slot old v) as [new e1] eqn:Ei.
    destruct (decode_fields _ _ _ _) as [st1 e2] eqn:E. intros [= <- _]. eapply IH; [|exact E].
    apply Forall_insert; [done|]. eapply into_slot_ok; [|exact Hv|exact Ei]. by eapply Forall_lookup_1.
  - destruct (decode_fields strict names ms st) as [st1 e2] eqn:E. intros [= <- _]. by eapply IH.
Qed.

Lemma Unmarshal_rule_sound t r : Unmarshal_rule t = Some r → sound r.
Proof.
  unfold Unmarshal_rule. destruct (decode_all t) as [j|] eqn:Ej; [|done]. cbn [mbind option_bind].
  assert (Hz : Forall slot_ok (rule_slots zero_rule)) by (repeat (apply Forall_cons_2; [first [done|simpl; lia]|]); apply Forall_nil_2).
  assert (Hraw : raw j).
  { unfold decode_all in Ej. destruct (scan_value _ _) as [[v rest]|] eqn:E; [|done]. cbn in Ej.
    apply scan_value_scanned in E as [E _]. case_bool_decide; [|done]. by injection Ej as <-. }
  unfold decode_rule. destruct j as [| | | | |ms]; try done; [by intros [= <-]|].
  destruct (decode_fields _ _ _ _) as [st e] eqn:E. destruct e; [done|].
  apply decode_fields_ok in E; [|done|].
  2: { inversion Hraw as [| | | | |? Hms]; subst. eapply Forall_impl; [exact Hms|]. by intros [] []. }
  intros Hr. unfold rule_of in Hr. repeat case_match; try done. by injection Hr as <-.
Qed.

(** ** The score of a meta-risk *)

Lemma meta_decodes rule key ws sev l i n :
  sound rule → utf8_valid key = true →
  decode_all (render go_quote (meta_score rule key ws sev l i n)) = Some (meta_score rule key ws sev l i n).
Proof.
  intros Hs Hk. unfold sound, rule_slots in Hs. rewrite !Forall_cons in Hs.
  destruct Hs as (H1 & _ & _ & _ & _ & _ & H2 & _). simpl in H1, H2.
  apply (decode_render go_quote); [|by apply Nat.leb_le]. constructor.
  repeat (constructor; [split; [done|]; constructor; first [done|apply Itoa_literal|apply FormatRFC3339_utf8]|]). constructor.
Qed.

Lemma meta_reads rule key ws sev l i n :
  sound rule → utf8_valid key = true → (∀ z, z ∈ [n; i; l; sev] → 0 ≤ z < 2 ^ 63) →
  ∃ m, Unmarshal_any (render go_quote (meta_score rule key ws sev l i n)) = Some (AObj m) ∧
    get m "rule_generated" = Some (ABool true) ∧ get m "likelihood" = Some (ANum (of_Z l)) ∧
    get m "impact" = Some (ANum (of_Z i)).
Proof.
  intros Hs Hk Hz. unfold Unmarshal_any. rewrite meta_decodes by done. cbn [mbind option_bind]. unfold meta_score.
  set (m := [("aggregation_key", AStr key); ("child_count", ANum (of_Z n)); ("impact", ANum (of_Z i));
             ("likelihood", ANum (of_Z l)); ("rule_generated", ABool true); ("rule_id", AStr (RuleID rule));
             ("severity", ANum (of_Z sev)); ("severity_function", AStr (SeverityFunction rule));
             ("window_start", AStr (FormatRFC3339 ws))]).
  exists m. split; [|by split_and!]. rewrite (any_of_members _ m); [done|]. apply mapM_Some.
  repeat constructor; unfold member_of; cbn [fst snd any_of]; rewrite ?ParseFloat_Itoa by (apply Hz; set_solver); done.
Qed.

Section Meta.
Context {JB : JsonB} {JN : JsonBNum} {GA : GoArch}.

(** What is stored for a meta-risk: it is flagged, on the grid, and found under
    its key. *)
Lemma stored_meta rule key ws sev l i n doc :
  jsonb_in (render go_quote (meta_score rule key ws sev l i n)) = Some doc →
  sound rule → utf8_valid key = true → 0 ≤ sev ≤ 25 → 1 ≤ l ≤ 5 → 1 ≤ i ≤ 5 → 0 ≤ n < 2 ^ 63 →
  isRuleGenerated doc = true ∧ RiskDB.arrow_text doc "aggregation_key" = Some key ∧
  ∃ a b, likelihoodImpactFromInherent doc = Ok (a, b) ∧ 1 ≤ a ≤ 5 ∧ 1 ≤ b ≤ 5.
Proof using JN.
  intros Hj Hs Hk Hsev Hl Hi Hn.
  destruct (meta_reads rule key ws sev l i n Hs Hk) as (m & Hu & Hg & Gl & Gi).
  { intros z. rewrite !elem_of_cons, elem_of_nil. lia. }
  destruct (stored_object _ _ _ Hj Hu) as (m' & Hu' & Hm'). split_and!.
  - unfold isRuleGenerated, Unmarshal_map, get_bool. rewrite Hu'.
    by rewrite (same_member _ _ _ (Hm' "rule_generated") Hg); [|intros [| |[]| | |]].
  - destruct (jsonb_members _ _ _ Hj (meta_decodes _ _ _ _ _ _ _ Hs Hk)) as (ms & Hd & Hp & Hin).
    { refine (bool_decide_unpack _ _); vm_compute; exact I. }
    unfold RiskDB.arrow_text, RiskDB.arrow. rewrite Hd, (elem_get ms "aggregation_key" (JStr key)); [done| |apply Hin; [left|done]].
    rewrite Hp. refine (bool_decide_unpack _ _); vm_compute; exact I.
  - assert (Hgr : graded m) by (exists (of_Z l), (of_Z i); split_and!; [done..| |]; eexists; done).
    destruct (same_graded _ _ Hm' Hgr) as (fl & fi & El & Ei & Gfl & Gfi).
    exists (int_of fl), (int_of fi). unfold likelihoodImpactFromInherent, Unmarshal_map, get_num. rewrite Hu', El, Ei.
    eauto using grade_int.
Qed.
End Meta.

(** ** What the engine writes *)

Section Engine.
Context {UT : UUIDText} {JB : JsonB} {JN : JsonBNum} {GA : GoArch} {GM : GoMath} {SP : SeverityPolicy} {PL : Planner}.

Implicit Types (env : Env) (w : World) (d : RiskDB.DB).

Lemma on_register_Ok {A} (m : Tx RiskDB.DB RiskDB.QueryErr A) w a w' :
  on_register m w = (Ok a, w') → ∃ d, m (register (db w)) = (Ok a, d) ∧ w' = set_register w d.
Proof using. unfold on_register. destruct (m _) as [[|[]] d]; intros [= <- <-]. eauto. Qed.

Lemma set_aggregations_id d : RiskDB.set_aggregations d (RiskDB.risk_aggregations d) = d.
Proof using. by destruct d. Qed.
Lemma set_register_id w : set_register w (register (db w)) = w.
Proof using. by destruct w as [[]]. Qed.

(** The link from a meta-risk to a child. *)
Definition linked (m c : UUID) (gs : list RiskDB.Aggregation) : Prop :=
  ∃ g, g ∈ gs ∧ RiskDB.g_Parent g = m ∧ RiskDB.g_Child g = c.

Lemma linked_app m c gs ks : linked m c gs → linked m c (gs ++ ks).
Proof using. intros (g & Hg & E). exists g. split; [|done]. apply elem_of_app. by left. Qed.

Lemma linked_exists m c gs :
  existsb (λ g, bool_decide (RiskDB.g_Parent g = m) && bool_decide (RiskDB.g_Child g = c)) gs = true ↔ linked m c gs.
Proof using.
  rewrite existsb_exists. split; intros (g & Hg & H); exists g.
  - apply list_elem_of_In in Hg. apply andb_prop in H as [H1%bool_decide_eq_true H2%bool_decide_eq_true]. by split_and!.
  - apply list_elem_of_In in Hg. split; [done|]. destruct H as [-> ->]. by rewrite !bool_decide_eq_true_2.
Qed.

(** A link written for a rule's meta-risk. *)
Definition own_link (now : Time) (t m : UUID) (k : option UUID) (cs : list UUID) (g : RiskDB.Aggregation) : Prop :=
  RiskDB.g_Parent g = m ∧ RiskDB.g_Child g ∈ cs ∧ RiskDB.g_RuleID g = k ∧ RiskDB.g_TenantID g = t ∧ RiskDB.g_CreatedAt g = now.

Lemma link_Ok now m c k t d d' :
  RiskDB.LinkRiskAggregation now m c k t d = (Ok (), d') →
  m ≠ c ∧ ∃ more, d' = RiskDB.set_aggregations d (RiskDB.risk_aggregations d ++ more) ∧
    Forall (own_link now t m k [c]) more ∧ linked m c (RiskDB.risk_aggregations d ++ more).
Proof using.
  unfold RiskDB.LinkRiskAggregation. case_bool_decide as Hne; [done|]. destruct (existsb _ _) eqn:E.
  - intros [= <-]. split; [done|]. exists []. rewrite app_nil_r, set_aggregations_id. split_and!; [done..|].
    by apply linked_exists.
  - destruct (_ && _); [|done]. intros [= <-]. split; [done|]. eexists [_]. split_and!; [done|apply Forall_singleton; split_and!; try done; by apply list_elem_of_singleton|].
    eexists. split; [apply elem_of_app; right; left|done].
Qed.

Lemma linkChildren_Ok now t m k cs w w' :
  linkChildren now t m k cs w = (Ok (), w') →
  ∃ more, w' = set_register w (RiskDB.set_aggregations (register (db w)) (RiskDB.risk_aggregations (register (db w)) ++ more)) ∧
    Forall (own_link now t m (Some k) cs) more ∧
    ∀ c, c ∈ cs → m ≠ c ∧ linked m c (RiskDB.risk_aggregations (register (db w)) ++ more).
Proof using.
  revert w. induction cs as [|c cs IH]; intros w; simpl.
  - intros [= <-]. exists []. rewrite app_nil_r, set_aggregations_id, set_register_id. split_and!; [done..|].
    by intros ? ?%elem_of_nil.
  - intros H. apply tx_bind_Ok in H as ([] & w1 & (d & (Hne & more & -> & Hm & Hc)%link_Ok & ->)%rule_exec_Ok%on_register_Ok & H).
    apply IH in H as (more' & -> & Hm' & Hcs). exists (more ++ more'). simpl in *. rewrite app_assoc. split_and!.
    + done.
    + apply Forall_app. split; (eapply Forall_impl; [eassumption|]); intros g (? & Hg & ?); (split; [done|]); (split; [|done]).
      * apply list_elem_of_singleton in Hg as ->. left.
      * by right.
    + intros x [->|Hx]%elem_of_cons; [split; [done|by apply linked_app]|by apply Hcs].
Qed.

(** Linking again changes nothing. *)
Lemma linkChildren_again now t m k cs w :
  (∀ c, c ∈ cs → m ≠ c ∧ linked m c (RiskDB.risk_aggregations (register (db w)))) →
  linkChildren now t m k cs w = (Ok (), w).
Proof using.
  unfold linkChildren. induction cs as [|c cs IH]; intros H; [done|]. cbn [tx_iter]. unfold mbind, tx_bind.
  destruct (H c) as [Hne Hl]; [left|].
  assert (E : exec "link child" (on_register (RiskDB.LinkRiskAggregation now m c (Some k) t)) w = (Ok (), w)).
  { unfold exec, run, tx_try, on_register, RiskDB.LinkRiskAggregation. rewrite bool_decide_eq_false_2 by done.
    rewrite (proj2 (linked_exists _ _ _) Hl). by rewrite set_register_id. }
  rewrite E. apply IH. intros x Hx. apply H. by right.
Qed.

(** The rows found under a key. *)
Definition under_key (t : UUID) (key : string) (rs : list RiskDB.Row) : list RiskDB.Row :=
  select_where (λ r, bool_decide (RiskDB.r_TenantID r = t) &&
                     bool_decide (RiskDB.arrow_text (RiskDB.r_InherentScore r) "aggregation_key" = Some key)) rs.

(** The two ways a meta-risk is stored. *)
Definition meta_stored (now : Time) (t : UUID) (key doc : string) (m : UUID) (rs rs' : list RiskDB.Row) : Prop :=
  (∃ r rest, plan (under_key t key rs) = r :: rest ∧ m = RiskDB.r_ID r ∧
     rs' = update_where (RiskDB.at_key t m) (RiskDB.set_inherent now doc) rs) ∨
  (plan (under_key t key rs) = [] ∧ ∃ r, rs' = rs ++ [r] ∧ RiskDB.r_ID r = m ∧ RiskDB.r_TenantID r = t ∧
     RiskDB.r_InherentScore r = doc ∧ ¬ (m ∈ RiskDB.r_ID <$> rs)).

Lemma insert_fresh r d r' d' :
  RiskDB.insert_risk r d = (Ok r', d') → ¬ (RiskDB.r_ID r ∈ RiskDB.r_ID <$> RiskDB.risks d).
Proof using.
  unfold RiskDB.insert_risk. destruct (jsonb_in _); [|done]. destruct (jsonb_in _); [|done].
  destruct (_ && _) eqn:E; [|done]. intros _. apply andb_prop in E as [E _]. apply andb_prop in E as [_ E].
  by apply negb_true_iff, bool_decide_eq_false in E.
Qed.

Lemma upsert_Ok env id t rule k key ws sev l i n cat themes cs w m w' :
  upsertMetaRisk env id t rule k key ws sev l i n cat themes cs w = (Ok m, w') →
  ∃ doc rs' more, jsonb_in (render go_quote (meta_score rule key ws sev l i n)) = Some doc ∧
    meta_stored (env_now env) t key doc m (RiskDB.risks (register (db w))) rs' ∧
    w' = set_register w (RiskDB.set_aggregations (RiskDB.set_risks (register (db w)) rs')
                           (RiskDB.risk_aggregations (register (db w)) ++ more)) ∧
    Forall (own_link (env_now env) t m (Some k) cs) more ∧
    (∀ c, c ∈ cs → m ≠ c ∧ linked m c (RiskDB.risk_aggregations (register (db w)) ++ more)).
Proof using.
  unfold upsertMetaRisk, tx_try, GetRuleMetaRiskByKey, on_register, RiskDB.GetRiskByAggregationKey. cbv zeta.
  fold (under_key t key (RiskDB.risks (register (db w)))).
  destruct (plan (under_key t key (RiskDB.risks (register (db w))))) as [|r rest] eqn:Hp; cbn [RiskDB.one];
    rewrite set_register_id; intros H.
  - apply tx_bind_Ok in H as (r' & w1 & (d & Hi & ->)%rule_exec_Ok%on_register_Ok & H).
    apply tx_bind_Ok in H as ([] & w2 & Hl & [= <- <-]).
    pose proof (insert_fresh _ _ _ _ Hi) as Hf. apply insert_risk_Ok in Hi as (doc & Hj & E1 & _ & E3 & E4 & ->). simpl in E3, E4.
    apply linkChildren_Ok in Hl as (more & -> & Hm & Hc). exists doc, (RiskDB.risks (register (db w)) ++ [r']), more.
    split_and!; [done| |done|done|exact Hc]. right. split; [done|]. by exists r'.
  - apply tx_bind_Ok in H as (r' & w1 & (d & Hi & ->)%rule_exec_Ok%on_register_Ok & H).
    apply tx_bind_Ok in H as ([] & w2 & Hl & [= <- <-]). unfold RiskDB.UpdateMetaRiskInherentScore in Hi.
    destruct (jsonb_in _) as [doc|] eqn:Hj; [|done]. unfold RiskDB.update_risk in Hi.
    destruct (updated_rows _ _ _); [done|]. injection Hi as _ <-.
    apply linkChildren_Ok in Hl as (more & -> & Hm & Hc). 
    exists doc, (update_where (RiskDB.at_key t (RiskDB.r_ID r)) (RiskDB.set_inherent (env_now env) doc)
                   (RiskDB.risks (register (db w)))), more.
    split_and!; [done| |done|done|exact Hc]. left. by exists r, rest.
Qed.

(** ** One evaluation *)

(** The children a rule counts, each with its severity. *)
Definition counted (t : UUID) (rule : Rule) (ws : Time) (w : World) : list (RiskDB.Row * Z) :=
  scored (filter (λ c, isRuleGenerated (RiskDB.r_InherentScore c) = false)
            (ListCandidateRisksForRule t (TargetTheme rule) ws w)).

Definition teams_of (cs : list (RiskDB.Row * Z)) : Z := Z.of_nat (length (remove_dups (teamKey <$> cs.*1))).

Lemma write_evaluation_Ok env id t k outcome a b ws m w ev w' :
  writeEvaluation env id t k outcome a b ws m w = (Ok ev, w') →
  ev = mkEvaluation id k outcome a b ws m (env_now env) ∧
  w' = set_evaluations w (evaluations (db w) ++ [mkEvaluationRow id t k outcome (toInt32 a) (toInt32 b) ws m (env_now env)]).
Proof using.
  unfold writeEvaluation. intros (row & w1 & H%rule_exec_Ok & [= <- <-])%tx_bind_Ok.
  unfold WriteAggregationRuleEvaluation in H. cbv zeta in H. destruct (_ && _); [|done]. by injection H as <- <-.
Qed.

Lemma severity_range fn scores policy s : ComputeRuleSeverity fn scores policy = Ok s → 0 ≤ s ≤ 25.
Proof using.
  unfold ComputeRuleSeverity. case_bool_decide; [done|]. case_bool_decide.
  - destruct (ComputeSeverity _ _) eqn:E; [|done]. intros [= <-]. by eapply capped_severity.
  - case_bool_decide; [|done]. unfold evalCustomRego. case_bool_decide; [done|].
    destruct (opa_severity _ _); [done..|]. destruct (coerceSeverity v); [|done]. intros [= <-].
    unfold clampSeverity, SeverityScaleMax. repeat case_match; lia.
Qed.

(** The outcome of the thresholds, and the world with the meta-risk stored. *)
Lemma evaluateRule_Ok env n t row w ev w' :
  evaluateRule env n t row w = (Ok ev, w') →
  ∃ rule, Unmarshal_rule (ar_RuleBody row) = Some rule ∧
  let ws := window_start (env_clock env n) row in
  let cs := counted t rule ws w in
  let risks := Z.of_nat (length cs) in
  let teams := teams_of cs in
  let id := env_newID env (2 * n + 1)%nat in
  (¬ (ar_MinRisks row ≤ risks ∧ ar_MinTeams row ≤ teams) ∧
   ∃ outcome, outcome = (if decide (ar_MinRisks row ≤ risks ∨ ar_MinTeams row ≤ teams) then "near_miss" else "no_match") ∧
   writeEvaluation env id t (ar_ID row) outcome risks teams None None w = (Ok ev, w')) ∨
  (ar_MinRisks row ≤ risks ∧ ar_MinTeams row ≤ teams ∧ ∃ sev l i m w1,
     ComputeRuleSeverity (SeverityFunction rule) cs.*2 (CustomRego rule) = Ok sev ∧ DeriveGridCell sev = (l, i) ∧
     upsertMetaRisk env (env_newID env (2 * n)%nat) t rule (ar_ID row) (windowKey (ar_ID row) ws) ws sev l i risks
       (meta_category cs.*1) (plan (remove_dups (cs.*1 ≫= RiskDB.r_Themes))) (RiskDB.r_ID <$> cs.*1) w = (Ok m, w1) ∧
     writeEvaluation env id t (ar_ID row) "fired" risks teams (Some ws) (Some m) w1 = (Ok ev, w')).
Proof using.
  unfold evaluateRule. destruct (Unmarshal_rule (ar_RuleBody row)) as [rule|]; [|done]. intros H.
  exists rule. split; [done|]. cbv zeta in *. apply tx_bind_Ok in H as (cands & w1 & [= <- <-] & H).
  fold (counted t rule (window_start (env_clock env n) row) w) in H.
  set (cs := counted t rule _ w) in *. fold (teams_of cs) in H. rewrite !length_fmap in H.
  destruct (Z.leb_spec (ar_MinRisks row) (Z.of_nat (length cs))) as [Hr|Hr];
    destruct (Z.leb_spec (ar_MinTeams row) (teams_of cs)) as [Ht|Ht]; cbn [andb negb xorb] in H.
  - right. split_and!; [done..|]. apply tx_bind_Ok in H as (sev & w1 & [Hs ->]%tx_lift_Ok & H).
    destruct (DeriveGridCell sev) as [l i] eqn:Hg. apply tx_bind_Ok in H as (m & w2 & Hu & H). eauto 12.
  - left. split; [lia|]. eexists. split; [done|]. rewrite decide_True by (by left). done.
  - left. split; [lia|]. eexists. split; [done|]. rewrite decide_True by (by right). done.
  - left. split; [lia|]. eexists. split; [done|]. rewrite decide_False by lia. done.
Qed.

(** *** What is counted *)

(** The risks a rule counts: of the tenant, with the theme, on the 5x5 grid, not
    older than [since], not generated by a rule, and with a readable score. *)
Definition counts (t : UUID) (theme : string) (since : Time) (r : RiskDB.Row) : Prop :=
  RiskDB.r_TenantID r = t ∧ theme ∈ RiskDB.r_Themes r ∧ since ≤ RiskDB.r_CreatedAt r ∧
  (RiskDB.r_Methodology r = "nist_800_30" ∨ RiskDB.r_Methodology r = "qualitative_5x5") ∧
  isRuleGenerated (RiskDB.r_InherentScore r) = false ∧ is_Some (severityFromInherent (RiskDB.r_InherentScore r)).
#[local] Instance counts_dec t theme since r : Decision (counts t theme since r).
Proof using. unfold counts. apply _. Defined.

Lemma window_start_since now row :
  window_start now row =
  match ar_ActivatedAt row with
  | Some a => Z.max a (truncDate (AddDate now 0 0 (- ar_WindowDays row)))
  | None => truncDate (AddDate now 0 0 (- ar_WindowDays row))
  end.
Proof using.
  unfold window_start, dayFloorUTC, After. destruct (ar_ActivatedAt row); [|done]. case_bool_decide; lia.
Qed.

Lemma scored_cons c l :
  scored (c :: l) =
  match severityFromInherent (RiskDB.r_InherentScore c) with Some s => (c, s) :: scored l | None => scored l end.
Proof using. unfold scored. cbn. by destruct (severityFromInherent (RiskDB.r_InherentScore c)). Qed.

Lemma scored_fst l :
  (scored l).*1 = filter (λ c, is_Some (severityFromInherent (RiskDB.r_InherentScore c))) l.
Proof using.
  induction l as [|c l IH]; [done|]. rewrite filter_cons, scored_cons.
  destruct (severityFromInherent (RiskDB.r_InherentScore c)) as [s|].
  - rewrite decide_True by by eexists. by rewrite fmap_cons, IH.
  - rewrite decide_False by by intros []. done.
Qed.

Lemma counted_perm t rule ws w :
  (counted t rule ws w).*1 ≡ₚ filter (counts t (TargetTheme rule) ws) (RiskDB.risks (register (db w))).
Proof using.
  unfold counted. rewrite scored_fst. unfold ListCandidateRisksForRule. rewrite merge_sort_Permutation.
  unfold select_where. rewrite !list_filter_filter.
  rewrite (list_filter_iff _ (counts t (TargetTheme rule) ws)); [done|]. intros r. unfold counts.
  rewrite !andb_true_iff, !bool_decide_eq_true, Z.leb_le, !elem_of_cons, elem_of_nil. tauto.
Qed.

Lemma teamKey_inj c c' : teamKey c = teamKey c' ↔ RiskDB.r_OrgUnitID c = RiskDB.r_OrgUnitID c'.
Proof using.
  assert (Hu : ∀ u, uuid_String u ≠ "unassigned").
  { intros u E. pose proof (uuid_String_text u) as H. rewrite E in H. by vm_compute in H. }
  unfold teamKey. destruct (RiskDB.r_OrgUnitID c) as [u|], (RiskDB.r_OrgUnitID c') as [v|]; split; intros E; try done.
  - f_equal. apply (inj Some). by rewrite <- !uuid_Parse_String, E.
  - by injection E as ->.
  - by apply Hu in E.
  - symmetry in E. by apply Hu in E.
Qed.
(** Distinct values depend only on which members agree. *)
Lemma remove_dups_agree {A B C} `{EqDecision B, EqDecision C} (f : A → B) (g : A → C) l :
  (∀ x y, f x = f y ↔ g x = g y) → length (remove_dups (f <$> l)) = length (remove_dups (g <$> l)).
Proof using.
  intros Hfg. induction l as [|x l IH]; [done|]. rewrite !fmap_cons. cbn [remove_dups].
  assert (Hin : f x ∈ f <$> l ↔ g x ∈ g <$> l).
  { rewrite !list_elem_of_fmap. split; intros (y & E & Hy); exists y; split; try done; by apply Hfg. }
  destruct (decide_rel _ (f x) _), (decide_rel _ (g x) _); cbn; tauto || auto.
Qed.

Lemma remove_dups_perm {A} `{EqDecision A} (l k : list A) : l ≡ₚ k → remove_dups l ≡ₚ remove_dups k.
Proof using.
  intros H. apply NoDup_Permutation; [apply NoDup_remove_dups..|]. intros x. by rewrite !elem_of_remove_dups, H.
Qed.

(** The teams are the org units of the counted risks, those of none being one. *)
Lemma teams_of_units t rule ws w :
  teams_of (counted t rule ws w) =
  Z.of_nat (length (remove_dups (RiskDB.r_OrgUnitID <$> filter (counts t (TargetTheme rule) ws) (RiskDB.risks (register (db w)))))).
Proof using.
  unfold teams_of. rewrite (remove_dups_agree teamKey RiskDB.r_OrgUnitID) by apply teamKey_inj.
  by rewrite (remove_dups_perm _ _ (fmap_Permutation _ _ _ (counted_perm t rule ws w))).
Qed.

Lemma counted_length t rule ws w :
  length (counted t rule ws w) = length (filter (counts t (TargetTheme rule) ws) (RiskDB.risks (register (db w)))).
Proof using. by rewrite <- (counted_perm t rule ws w), length_fmap. Qed.

(** Storing a meta-risk leaves every other row alone. *)
Lemma meta_stored_others now t key doc m rs rs' :
  meta_stored now t key doc m rs rs' →
  filter (λ r, RiskDB.r_ID r ≠ m) rs' = filter (λ r, RiskDB.r_ID r ≠ m) rs ∧
  ∃ r, r ∈ rs' ∧ RiskDB.r_ID r = m ∧ RiskDB.r_TenantID r = t ∧ RiskDB.r_InherentScore r = doc.
Proof using.
  intros [(r & rest & Hp & -> & ->)|(Hp & r & -> & <- & <- & <- & Hf)]; split.
  - clear Hp. unfold update_where. induction rs as [|x rs IH]; [done|]. cbn [map]. rewrite !filter_cons, IH.
    unfold RiskDB.at_key. case_bool_decide; cbn [andb]; [|done]. case_bool_decide as E; [|done].
    by rewrite !decide_False by (simpl; intros H'; by apply H').
  - assert (Hr : r ∈ under_key t key rs) by (rewrite <- elem_of_plan, Hp; left).
    unfold under_key in Hr. apply elem_of_select_where in Hr as [[Et _]%andb_prop Hr]. apply bool_decide_eq_true in Et.
    exists (RiskDB.set_inherent now doc r). split; [|done]. apply elem_of_update_where. exists r. split; [done|].
    unfold RiskDB.at_key. by rewrite !bool_decide_eq_true_2.
  - rewrite filter_app, filter_cons, filter_nil, decide_False by (by intros []). apply app_nil_r.
  - exists r. split; [apply elem_of_app; right; left|done].
Qed.
(** The instant from which an evaluation at [now] counts: midnight of the day that
    lies the rule's window of days back, or the last activation if that is later. *)
Definition counted_since (now : Time) (row : RuleRow) : Time :=
  let midnight := (now / ns_per_day - ar_WindowDays row) * ns_per_day in
  match ar_ActivatedAt row with Some a => Z.max a midnight | None => midnight end.

Lemma window_start_counted now row : window_start now row = counted_since now row.
Proof using.
  rewrite window_start_since. unfold counted_since. rewrite truncDate_spec, AddDate_days. unfold day_of.
  rewrite Z.div_add by done. done.
Qed.

(** How a rule's meta-risk [r] comes into the register: as a new row, or in place of
    the one under the same key, of which only the score and update time change. *)
Definition meta_written (now : Time) (t : UUID) (key : string) (r : RiskDB.Row) (before after : list RiskDB.Row) : Prop :=
  RiskDB.r_TenantID r = t ∧ isRuleGenerated (RiskDB.r_InherentScore r) = true ∧
  (¬ (RiskDB.r_ID r ∈ RiskDB.r_ID <$> before) ∧ after = before ++ [r] ∨
   ∃ r0, r0 ∈ before ∧ RiskDB.r_TenantID r0 = t ∧ RiskDB.arrow_text (RiskDB.r_InherentScore r0) "aggregation_key" = Some key ∧
     r = RiskDB.set_inherent now (RiskDB.r_InherentScore r) r0 ∧ r ∈ after ∧
     filter (λ x, RiskDB.r_ID x ≠ RiskDB.r_ID r) after = filter (λ x, RiskDB.r_ID x ≠ RiskDB.r_ID r) before ∧
     RiskDB.r_ID <$> after = RiskDB.r_ID <$> before).

Lemma meta_stored_written now t key doc m rs rs' :
  meta_stored now t key doc m rs rs' → isRuleGenerated doc = true →
  ∃ r, RiskDB.r_ID r = m ∧ RiskDB.r_InherentScore r = doc ∧ meta_written now t key r rs rs'.
Proof using.
  intros Hst Hg. pose proof (meta_stored_others _ _ _ _ _ _ _ Hst) as [Ho _].
  destruct Hst as [(r & rest & Hp & -> & ->)|(Hp & r & -> & <- & <- & <- & Hf)].
  - assert (Hr : r ∈ under_key t key rs) by (rewrite <- elem_of_plan, Hp; left).
    unfold under_key in Hr. apply elem_of_select_where in Hr as [[Et Ek]%andb_prop Hr].
    apply bool_decide_eq_true in Et, Ek. exists (RiskDB.set_inherent now doc r). split_and!; try done.
    split_and!; [done|done|]. right. exists r. split_and!; try done.
    + apply elem_of_update_where. exists r. split; [done|]. unfold RiskDB.at_key. by rewrite !bool_decide_eq_true_2.
    + by apply update_where_key.
  - exists r. split_and!; try done. split_and!; [done|done|]. by left.
Qed.

(** C22: an evaluation that returns counts exactly the risks of the tenant that bear
    the rule's theme, lie on the 5x5 grid, are not generated by a rule, have a
    readable score and are not older than the start of the window (the midnight that
    many days back, or the last activation if that is later), and their org units;
    its outcome is that of the two thresholds; it appends one ledger row and changes
    no rule, no audit log and no sink.  It leaves the register alone unless the rule
    fired.  Then it writes one meta-risk of the tenant, flagged as generated and so
    never counted: a new row at the end of the register, or the row already kept
    under the key of this rule and window, with a new score and nothing else changed;
    every other risk stays as it is.  Every counted risk is linked to it, the only
    links added are from it to counted risks, and no other table of the register
    changes. *)
Theorem evaluateRule_outcome env n t row rule w ev w' :
  evaluateRule env n t row w = (Ok ev, w') → Unmarshal_rule (ar_RuleBody row) = Some rule →
  Z.of_nat (length (RiskDB.risks (register (db w)))) < 2 ^ 63 →
  let ws := counted_since (env_clock env n) row in
  let before := register (db w) in
  let after := register (db w') in
  let cs := filter (counts t (TargetTheme rule) ws) (RiskDB.risks before) in
  let risks := Z.of_nat (length cs) in
  let teams := Z.of_nat (length (remove_dups (RiskDB.r_OrgUnitID <$> cs))) in
  e_RiskCount ev = risks ∧ e_TeamCount ev = teams ∧
  e_Outcome ev = (if decide (ar_MinRisks row ≤ risks ∧ ar_MinTeams row ≤ teams) then "fired"
                  else if decide (ar_MinRisks row ≤ risks ∨ ar_MinTeams row ≤ teams) then "near_miss" else "no_match") ∧
  evaluations (db w') = evaluations (db w) ++
    [mkEvaluationRow (e_ID ev) t (ar_ID row) (e_Outcome ev) (toInt32 risks) (toInt32 teams) (e_WindowStart ev)
       (e_MetaRiskID ev) (env_now env)] ∧
  aggregation_rules (db w') = aggregation_rules (db w) ∧ audit_log (db w') = audit_log (db w) ∧ sink w' = sink w ∧
  (e_Outcome ev ≠ "fired" → after = before ∧ e_MetaRiskID ev = None) ∧
  (e_Outcome ev = "fired" → e_WindowStart ev = Some ws ∧ ∃ r links, e_MetaRiskID ev = Some (RiskDB.r_ID r) ∧
     meta_written (env_now env) t (windowKey (ar_ID row) ws) r (RiskDB.risks before) (RiskDB.risks after) ∧
     RiskDB.risk_aggregations after = RiskDB.risk_aggregations before ++ links ∧
     Forall (own_link (env_now env) t (RiskDB.r_ID r) (Some (ar_ID row)) (RiskDB.r_ID <$> cs)) links ∧
     (∀ c, c ∈ cs → linked (RiskDB.r_ID r) (RiskDB.r_ID c) (RiskDB.risk_aggregations after)) ∧
     RiskDB.risk_control_links after = RiskDB.risk_control_links before ∧ RiskDB.org_units after = RiskDB.org_units before ∧
     RiskDB.org_themes after = RiskDB.org_themes before ∧ RiskDB.controls after = RiskDB.controls before ∧
     RiskDB.incident_risks after = RiskDB.incident_risks before).
Proof using JN.
  intros (rule' & Hu & H)%evaluateRule_Ok Hu' Hlen. rewrite Hu' in Hu. injection Hu as <-. cbv zeta in *.
  rewrite teams_of_units, counted_length in H. pose proof (counted_perm t rule (window_start (env_clock env n) row) w) as Hp.
  rewrite window_start_counted in H, Hp.
  set (ws := counted_since _ _) in *. set (cs := filter _ _) in *. set (teams := Z.of_nat (length (remove_dups _))) in *.
  assert (Hc : (length cs ≤ length (RiskDB.risks (register (db w))))%nat) by apply length_filter.
  destruct H as [(Hn & outcome & -> & [-> ->]%write_evaluation_Ok)|(Hr & Ht & sev & l & i & m & w1 & Hs & Hg & Hm & [-> ->]%write_evaluation_Ok)];
    cbn [e_RiskCount e_TeamCount e_Outcome e_ID e_WindowStart e_MetaRiskID].
  - rewrite (decide_False (P := _ ∧ _)) by done. split_and!; try done. intros E. by case_decide.
  - rewrite decide_True by done. apply upsert_Ok in Hm as (doc & rs' & more & Hj & Hst & -> & Hmore & Hk).
    destruct (grid_cell_range _ _ _ Hg) as [Hl Hi].
    apply stored_meta in Hj as [Hgen _]; [|by eapply Unmarshal_rule_sound|apply sha256_hex_utf8|by eapply severity_range|done|done|lia].
    destruct (meta_stored_written _ _ _ _ _ _ _ Hst Hgen) as (r & <- & _ & Hw).
    split_and!; try done. intros _. split; [done|]. exists r, more. cbn. split_and!; try done.
    + eapply Forall_impl; [exact Hmore|]. intros g (G1 & G2 & G3). split; [done|]. split; [|done]. by rewrite <- Hp.
    + intros c Hcin. apply (Hk (RiskDB.r_ID c)). apply list_elem_of_fmap_2. by rewrite Hp.
Qed.
(** *** Repeating an evaluation *)

Lemma oldest_first_total : Total RiskDB.oldest_first.
Proof using. intros x y. unfold RiskDB.oldest_first. lia. Qed.
Lemma oldest_first_trans : Transitive RiskDB.oldest_first.
Proof using. intros x y z. unfold RiskDB.oldest_first. lia. Qed.

Lemma StronglySorted_filter {A} (R : relation A) P `{∀ x, Decision (P x)} l :
  StronglySorted R l → StronglySorted R (filter P l).
Proof using.
  induction 1 as [|x l Hl IH Hx]; [constructor|]. rewrite filter_cons. case_decide; [|done]. constructor; [done|].
  apply Forall_forall. intros y [_ Hy]%list_elem_of_filter. by eapply Forall_forall in Hx.
Qed.

(** Sorting by age and then dropping rows depends only on the rows kept. *)
Lemma filter_oldest_first P `{∀ x, Decision (P x)} rs rs' :
  NoDup (RiskDB.r_ID <$> rs) → filter P rs' = filter P rs →
  filter P (merge_sort RiskDB.oldest_first rs') = filter P (merge_sort RiskDB.oldest_first rs).
Proof using.
  intros Hn E. pose proof oldest_first_total. pose proof oldest_first_trans.
  apply (StronglySorted_unique_strong RiskDB.oldest_first).
  - intros x y. rewrite !(merge_sort_Permutation RiskDB.oldest_first), E. intros Hx Hy Hxy Hyx.
    apply list_elem_of_filter in Hx as [_ Hx], Hy as [_ Hy].
    eapply (NoDup_key_inj RiskDB.r_ID); [exact Hn|done|done|]. unfold RiskDB.oldest_first in *. lia.
  - apply StronglySorted_filter, StronglySorted_merge_sort; apply _.
  - apply StronglySorted_filter, StronglySorted_merge_sort; apply _.
  - by rewrite !merge_sort_Permutation, E.
Qed.

Lemma select_where_update {A} (p q : A → bool) f l :
  (∀ x, x ∈ l → p x = true → q x = true ∧ q (f x) = true) →
  select_where q (update_where p f l) = update_where p f (select_where q l).
Proof using.
  unfold select_where, update_where. induction l as [|x l IH]; intros H; [done|]. cbn [map].
  specialize (IH (λ y Hy, H y (list_elem_of_further _ _ _ Hy))). rewrite !filter_cons, IH.
  destruct (p x) eqn:E; [|case_decide; cbn [map]; by rewrite ?E].
  destruct (H x (list_elem_of_here _ _) E) as [-> ->]. rewrite !decide_True by done. cbn [map]. by rewrite E.
Qed.

Section Repeat.
Context (now : Time) (t : UUID) (key doc : string) (m : UUID) (rs rs' : list RiskDB.Row).
Context (Hst : meta_stored now t key doc m rs rs').
Context (Hgen : isRuleGenerated doc = true) (Hkey : RiskDB.arrow_text doc "aggregation_key" = Some key).
Context (Hid : NoDup (RiskDB.r_ID <$> rs)).
Context (Hown : Forall (λ r, isRuleGenerated (RiskDB.r_InherentScore r) = true) (under_key t key rs)).
Context (Hone : (length (under_key t key rs) ≤ 1)%nat).

Lemma the_updated r rest x :
  plan (under_key t key rs) = r :: rest → x ∈ rs → RiskDB.at_key t (RiskDB.r_ID r) x = true → x = r ∧ x ∈ under_key t key rs.
Proof using Hid.
  intros Hp Hx [_ E%bool_decide_eq_true]%andb_prop.
  assert (Hr : r ∈ under_key t key rs) by (rewrite <- elem_of_plan, Hp; left).
  pose proof Hr as [_ Hr']%elem_of_select_where.
  assert (x = r) as ->; [|done]. by eapply (NoDup_key_inj RiskDB.r_ID).
Qed.

(** No counted row is touched. *)
Lemma meta_stored_uncounted :
  filter (λ r, isRuleGenerated (RiskDB.r_InherentScore r) = false) rs' =
  filter (λ r, isRuleGenerated (RiskDB.r_InherentScore r) = false) rs.
Proof using Hst Hgen Hid Hown.
  destruct Hst as [(r & rest & Hp & -> & ->)|(Hp & r & -> & _ & _ & E & _)].
  - pose proof (the_updated r rest) as Hu. specialize (λ x, Hu x Hp).
    assert (Hx : ∀ x, x ∈ rs → RiskDB.at_key t (RiskDB.r_ID r) x = true → isRuleGenerated (RiskDB.r_InherentScore x) = true).
    { intros x Hx E. destruct (Hu x Hx E) as [_ Hk]. by eapply Forall_forall in Hown. }
    clear -Hx Hgen. unfold update_where. induction rs as [|x l IH]; [done|]. cbn [map].
    rewrite !filter_cons, IH by (intros y Hy; apply Hx; by right).
    destruct (RiskDB.at_key _ _ x) eqn:E; [|done]. rewrite (Hx x (list_elem_of_here _ _) E). cbn. by rewrite Hgen.
  - rewrite filter_app, filter_cons, filter_nil, decide_False by (rewrite E, Hgen; done). apply app_nil_r.
Qed.

Lemma meta_stored_ids : NoDup (RiskDB.r_ID <$> rs').
Proof using Hst Hid.
  destruct Hst as [(r & rest & _ & _ & ->)|(_ & r & -> & <- & _ & _ & Hf)].
  - by rewrite update_where_key.
  - rewrite fmap_app. apply NoDup_app. split_and!; [done| |apply NoDup_singleton]. by intros x Hx ->%list_elem_of_singleton.
Qed.

(** The next lookup finds the same row. *)
Lemma meta_stored_found :
  ∃ r, plan (under_key t key rs') = [r] ∧ RiskDB.r_ID r = m ∧ RiskDB.r_InherentScore r = doc ∧ r ∈ rs' ∧ RiskDB.r_TenantID r = t.
Proof using Hst Hkey Hid Hown Hone.
  assert (Hs : ∀ r, under_key t key rs' = [r] → plan (under_key t key rs') = [r]).
  { intros r E. apply Permutation_singleton_r. rewrite <- E. apply plan_perm. }
  assert (Hin : ∀ r, under_key t key rs' = [r] → r ∈ rs' ∧ RiskDB.r_TenantID r = t).
  { intros r E. assert (Hr : r ∈ under_key t key rs') by (rewrite E; left).
    apply elem_of_select_where in Hr as [[E1%bool_decide_eq_true _]%andb_prop ?]. done. }
  destruct Hst as [(r & rest & Hp & Em & Er)|(Hp & r & Er & Em & Et & E & _)].
  - assert (Hu : under_key t key rs = [r]).
    { pose proof (plan_perm (under_key t key rs)) as P. rewrite Hp in P.
      destruct (under_key t key rs) as [|x [|]]; [by apply Permutation_nil_r in P| |simpl in Hone; lia].
      apply Permutation_singleton_r in P. by injection P as ->. }
    assert (Hnew : under_key t key rs' = [RiskDB.set_inherent now doc r]).
    { rewrite Er. unfold under_key. rewrite select_where_update.
      - fold (under_key t key rs). rewrite Hu. cbn. unfold RiskDB.at_key.
        assert (Hr : r ∈ under_key t key rs) by (rewrite Hu; left).
        apply elem_of_select_where in Hr as [[E1%bool_decide_eq_true _]%andb_prop _]. by rewrite Em, !bool_decide_eq_true_2.
      - intros x Hx Hk. rewrite Em in Hk. destruct (the_updated r rest x Hp Hx Hk) as [-> [Hq _]%elem_of_select_where].
        split; [done|]. apply andb_prop in Hq as [Hq _]. simpl. rewrite Hq, Hkey. by rewrite bool_decide_eq_true_2. }
    exists (RiskDB.set_inherent now doc r). destruct (Hin _ Hnew). by split_and!; [apply Hs|..].
  - assert (Hnil : under_key t key rs = []).
    { apply Permutation_nil_r. rewrite <- plan_perm. by rewrite Hp. }
    assert (Hnew : under_key t key rs' = [r]).
    { rewrite Er. unfold under_key. rewrite select_where_app. fold (under_key t key rs). rewrite Hnil. simpl.
      unfold select_where. rewrite filter_cons, filter_nil, decide_True; [done|]. by rewrite E, Hkey, !bool_decide_eq_true_2. }
    exists r. destruct (Hin _ Hnew). by split_and!; [apply Hs|..].
Qed.
End Repeat.
Lemma counted_same t rule ws w w' :
  NoDup (RiskDB.r_ID <$> RiskDB.risks (register (db w))) →
  filter (λ r, isRuleGenerated (RiskDB.r_InherentScore r) = false) (RiskDB.risks (register (db w'))) =
  filter (λ r, isRuleGenerated (RiskDB.r_InherentScore r) = false) (RiskDB.risks (register (db w))) →
  counted t rule ws w' = counted t rule ws w.
Proof using.
  intros Hn E. unfold counted, ListCandidateRisksForRule. f_equal. apply filter_oldest_first.
  - unfold select_where. eapply sublist_NoDup; [exact Hn|]. apply fmap_sublist, sublist_filter.
  - unfold select_where. rewrite !list_filter_filter.
    assert (Hswap : ∀ (p : RiskDB.Row → bool) (l : list RiskDB.Row), filter (λ r, isRuleGenerated (RiskDB.r_InherentScore r) = false ∧ p r = true) l =
                      filter (λ r, p r = true) (filter (λ r, isRuleGenerated (RiskDB.r_InherentScore r) = false) l)).
    { intros p l. rewrite list_filter_filter. apply list_filter_iff. tauto. }
    by rewrite !Hswap, E.
Qed.

Lemma evaluateRule_fires env n t row rule w sev l i m w1 ev w' :
  Unmarshal_rule (ar_RuleBody row) = Some rule →
  let ws := window_start (env_clock env n) row in
  let cs := counted t rule ws w in
  let risks := Z.of_nat (length cs) in
  ar_MinRisks row ≤ risks → ar_MinTeams row ≤ teams_of cs →
  ComputeRuleSeverity (SeverityFunction rule) cs.*2 (CustomRego rule) = Ok sev → DeriveGridCell sev = (l, i) →
  upsertMetaRisk env (env_newID env (2 * n)%nat) t rule (ar_ID row) (windowKey (ar_ID row) ws) ws sev l i risks
    (meta_category cs.*1) (plan (remove_dups (cs.*1 ≫= RiskDB.r_Themes))) (RiskDB.r_ID <$> cs.*1) w = (Ok m, w1) →
  writeEvaluation env (env_newID env (2 * n + 1)%nat) t (ar_ID row) "fired" risks (teams_of cs) (Some ws) (Some m) w1 = (Ok ev, w') →
  evaluateRule env n t row w = (Ok ev, w').
Proof using.
  cbv zeta. intros Hu Hr Ht Hs Hg Hm Hw. unfold evaluateRule. rewrite Hu. cbv zeta.
  unfold mbind at 1, tx_bind at 1. cbn [tx_gets].
  fold (counted t rule (window_start (env_clock env n) row) w). set (cs := counted _ _ _ _) in *. fold (teams_of cs).
  rewrite !length_fmap, !(proj2 (Z.leb_le _ _)) by done. cbn [andb negb].
  unfold mbind at 1, tx_bind at 1, tx_lift at 1. rewrite Hs, Hg. unfold mbind at 1, tx_bind at 1. by rewrite Hm.
Qed.

Lemma upsert_found env id t rule k key ws sev l i n cat themes cs w r doc :
  plan (under_key t key (RiskDB.risks (register (db w)))) = [r] → r ∈ RiskDB.risks (register (db w)) → RiskDB.r_TenantID r = t →
  jsonb_in (render go_quote (meta_score rule key ws sev l i n)) = Some doc →
  (∀ c, c ∈ cs → RiskDB.r_ID r ≠ c ∧ linked (RiskDB.r_ID r) c (RiskDB.risk_aggregations (register (db w)))) →
  upsertMetaRisk env id t rule k key ws sev l i n cat themes cs w =
  (Ok (RiskDB.r_ID r), set_register w (RiskDB.set_risks (register (db w))
     (update_where (RiskDB.at_key t (RiskDB.r_ID r)) (RiskDB.set_inherent (env_now env) doc) (RiskDB.risks (register (db w)))))).
Proof using.
  intros Hp Hr Ht Hj Hl. unfold upsertMetaRisk, tx_try, GetRuleMetaRiskByKey, on_register at 1, RiskDB.GetRiskByAggregationKey.
  fold (under_key t key (RiskDB.risks (register (db w)))). rewrite Hp. cbn [RiskDB.one]. rewrite set_register_id.
  unfold mbind at 1, tx_bind at 1, exec at 1, run at 1, tx_try, on_register, RiskDB.UpdateMetaRiskInherentScore. rewrite Hj.
  unfold RiskDB.update_risk. destruct (updated_rows _ _ _) eqn:E.
  - exfalso. eapply (not_elem_of_nil (RiskDB.set_inherent (env_now env) doc r)). rewrite <- E. unfold updated_rows.
    apply list_elem_of_fmap_2, elem_of_select_where. unfold RiskDB.at_key. by rewrite !bool_decide_eq_true_2.
  - unfold mret, tx_ret. cbv iota beta. unfold mbind, tx_bind. by rewrite linkChildren_again.
Qed.

Lemma write_evaluation_again env env' id id' t k outcome a b ws m w ev w' w2 :
  writeEvaluation env id t k outcome a b ws m w = (Ok ev, w') →
  aggregation_rules (db w2) = aggregation_rules (db w) → ¬ (id' ∈ ev_ID <$> evaluations (db w2)) →
  ∃ w3, writeEvaluation env' id' t k outcome a b ws m w2 = (Ok (mkEvaluation id' k outcome a b ws m (env_now env')), w3).
Proof using.
  unfold writeEvaluation. intros (row & w1 & H%rule_exec_Ok & [= <- <-])%tx_bind_Ok Hr Hf.
  unfold mbind, tx_bind, exec, run, tx_try, WriteAggregationRuleEvaluation, rule_exists in *. cbv zeta in *. rewrite Hr.
  destruct (_ && _) eqn:E in H; [|done]. apply andb_prop in E as [E _]. rewrite E, bool_decide_eq_false_2 by done. cbn. eauto.
Qed.
(** Writing the score a row has already. *)
Lemma touched_rows now t r rs :
  NoDup (RiskDB.r_ID <$> rs) → r ∈ rs →
  Forall2 (λ a b, b = a ∨ Some (RiskDB.r_ID a) = Some (RiskDB.r_ID r) ∧ b = RiskDB.set_inherent now (RiskDB.r_InherentScore a) a)
    rs (update_where (RiskDB.at_key t (RiskDB.r_ID r)) (RiskDB.set_inherent now (RiskDB.r_InherentScore r)) rs).
Proof using.
  intros Hn Hr. unfold update_where. apply Forall2_fmap_r, Forall_Forall2_diag, Forall_forall. intros a Ha. cbn [compose].
  unfold RiskDB.at_key. case_bool_decide; [|by left]. case_bool_decide as E; [|by left]. right. cbn.
  by rewrite (NoDup_key_inj RiskDB.r_ID rs a r Hn Ha Hr E).
Qed.

(** Repeating the evaluation of a rule that fired, with the same window and
    no other change, succeeds with the same counts, outcome and meta-risk: it
    creates no risk and no link and changes nothing of the stored risks but the
    time of the last update of the meta-risk. *)
Theorem evaluateRule_idempotent env n t row w ev w1 env' n' :
  evaluateRule env n t row w = (Ok ev, w1) → e_Outcome ev = "fired" →
  NoDup (RiskDB.r_ID <$> RiskDB.risks (register (db w))) →
  let ws := window_start (env_clock env n) row in
  let found := under_key t (windowKey (ar_ID row) ws) (RiskDB.risks (register (db w))) in
  (length found ≤ 1)%nat → Forall (λ r, isRuleGenerated (RiskDB.r_InherentScore r) = true) found →
  Z.of_nat (length (RiskDB.risks (register (db w)))) < 2 ^ 63 →
  window_start (env_clock env' n') row = ws → ¬ (env_newID env' (2 * n' + 1)%nat ∈ ev_ID <$> evaluations (db w1)) →
  ∃ w2, evaluateRule env' n' t row w1 =
    (Ok (mkEvaluation (env_newID env' (2 * n' + 1)%nat) (ar_ID row) "fired" (e_RiskCount ev) (e_TeamCount ev)
           (e_WindowStart ev) (e_MetaRiskID ev) (env_now env')), w2) ∧
  RiskDB.risk_aggregations (register (db w2)) = RiskDB.risk_aggregations (register (db w1)) ∧
  Forall2 (λ a b, b = a ∨ Some (RiskDB.r_ID a) = e_MetaRiskID ev ∧
                          b = RiskDB.set_inherent (env_now env') (RiskDB.r_InherentScore a) a)
    (RiskDB.risks (register (db w1))) (RiskDB.risks (register (db w2))).
Proof using JN.
  intros (rule & Hu & H)%evaluateRule_Ok Hf Hn ws found Hone Hown Hlen Hws Hid. cbv zeta in H. subst found. fold ws in H.
  destruct H as [(_ & outcome & -> & [-> _]%write_evaluation_Ok)|(Hr & Ht & sev & l & i & m & w0 & Hs & Hg & Hm & Hw)];
    [by simpl in Hf; case_decide|]. pose proof Hw as [-> ->]%write_evaluation_Ok.
  cbn [e_RiskCount e_TeamCount e_WindowStart e_MetaRiskID].
  apply upsert_Ok in Hm as (doc & rs' & more & Hj & Hst & -> & _ & Hk). destruct (grid_cell_range _ _ _ Hg) as [Hl Hi].
  assert (Hlc : (length (counted t rule ws w) ≤ length (RiskDB.risks (register (db w))))%nat)
    by (rewrite counted_length; apply length_filter).
  assert (Hd : isRuleGenerated doc = true ∧ RiskDB.arrow_text doc "aggregation_key" = Some (windowKey (ar_ID row) ws)).
  { apply stored_meta in Hj as (Hgen & Hkey & _); [done|by eapply Unmarshal_rule_sound|apply sha256_hex_utf8|by eapply severity_range|done..|lia]. }
  destruct Hd as [Hgen Hkey]. pose proof (meta_stored_uncounted _ _ _ _ _ _ _ Hst Hgen Hn Hown) as Hunc.
  destruct (meta_stored_found _ _ _ _ _ _ _ Hst Hkey Hn Hown Hone) as (r & Hp & <- & <- & Hrin & Et).
  set (w1 := set_evaluations _ _) in *.
  assert (Hcs : counted t rule ws w1 = counted t rule ws w) by (by apply counted_same).
  set (w2 := set_register w1 (RiskDB.set_risks (register (db w1))
     (update_where (RiskDB.at_key t (RiskDB.r_ID r)) (RiskDB.set_inherent (env_now env') (RiskDB.r_InherentScore r)) (RiskDB.risks (register (db w1)))))).
  destruct (write_evaluation_again _ env' _ (env_newID env' (2 * n' + 1)%nat) _ _ _ _ _ _ _ _ _ _ w2 Hw) as [w3 H3];
    [done..|]. pose proof H3 as [_ E3]%write_evaluation_Ok.
  exists w3. split_and!.
  - eapply (evaluateRule_fires _ _ _ _ rule _ sev l i (RiskDB.r_ID r) w2); rewrite ?Hws; fold ws; rewrite ?Hcs; try done.
    apply upsert_found; try done.
  - by rewrite E3.
  - rewrite E3. cbn. apply touched_rows; [by eapply meta_stored_ids|done..].
Qed.
(** ** The lifecycle *)

Lemma evaluateRule_keeps env n t row w ev w' :
  evaluateRule env n t row w = (Ok ev, w') →
  aggregation_rules (db w') = aggregation_rules (db w) ∧ audit_log (db w') = audit_log (db w).
Proof using.
  intros (rule & _ & H)%evaluateRule_Ok. cbv zeta in H.
  destruct H as [(_ & o & _ & [_ ->]%write_evaluation_Ok)|(_ & _ & sev & l & i & m & w1 & _ & _ & Hm & [_ ->]%write_evaluation_Ok)]; [done|].
  by apply upsert_Ok in Hm as (doc & rs' & more & _ & _ & -> & _).
Qed.

Lemma evaluateRules_keeps env n t rows w evs w' :
  evaluateRules env n t rows w = (Ok evs, w') →
  aggregation_rules (db w') = aggregation_rules (db w) ∧ audit_log (db w') = audit_log (db w).
Proof using.
  revert n w evs w'. induction rows as [|row rows IH]; intros n w evs w'; cbn [evaluateRules]; [by intros [= _ <-]|].
  intros H. apply tx_bind_Ok in H as (ev & w1 & [E1 E2]%evaluateRule_keeps & H).
  apply tx_bind_Ok in H as (evs' & w2 & [E3 E4]%IH & [= _ <-]). by rewrite E3, E4.
Qed.

Lemma audited_EvaluateRules env themes w : audited w → audited (EvaluateRules env themes w).2.
Proof using.
  intros Hw. unfold EvaluateRules. destruct (inTx env _ w) as [res w'] eqn:E. simpl.
  apply (inTx_cases db) in E as [(t & a & _ & _ & E)|(e & _ & E)]; [|by apply (audited_ext w); [rewrite E..|]].
  unfold Evaluate in E. apply tx_bind_Ok in E as (rules & w1 & [= _ <-] & [E1 E2]%evaluateRules_keeps).
  by apply (audited_ext w).
Qed.

(** The operations of the store, and whatever the register's other writers do. *)
Inductive rule_step : World → World → Prop :=
| step_create env r actor w : rule_step w (Create env r actor w).2
| step_activate env id actor w : rule_step w (Activate env id actor w).2
| step_deactivate env id actor w : rule_step w (Deactivate env id actor w).2
| step_evaluate env themes w : rule_step w (EvaluateRules env themes w).2
| step_register d w : rule_step w (set_register w d).

Lemma rule_step_audited w w' : rule_step w w' → audited w → audited w'.
Proof using.
  destruct 1; auto using audited_Create, audited_Activate, audited_Deactivate, audited_EvaluateRules.
  by apply audited_ext.
Qed.

(** At every reachable state the audit log of a rule replays, along the edges
    of the lifecycle (created, activated, deactivated, reactivated) and with a
    named actor at each, to the rule's status; and an active rule was activated by
    the actor, and at the time, of the last entry of its log. *)
Theorem lifecycle_audited d w r :
  rtc rule_step (mkWorld (mkDB d [] [] []) []) w → r ∈ aggregation_rules (db w) →
  trail (history (ar_TenantID r) (ar_ID r) w) (Some (ar_Status r)) ∧
  (ar_Status r = "active" → ∃ l a, history (ar_TenantID r) (ar_ID r) w = l ++ [a] ∧
     ar_ActivatedBy r = Some (au_Actor a) ∧ ar_ActivatedAt r = Some (au_CreatedAt a)).
Proof using.
  intros Hw Hr. assert (Ha : audited w).
  { revert Hw. generalize (eq_refl (mkWorld (mkDB d [] [] []) [])). generalize (mkWorld (mkDB d [] [] []) []) at 2 3.
    intros w0 E0 Hw. assert (H0 : audited w0) by (subst w0; split; simpl; [constructor|by intros ? ?%elem_of_nil..]).
    clear E0. induction Hw; eauto using rule_step_audited. }
  split; [by apply audited_trail|by apply audited_active].
Qed.
End Engine.

(** ** A rule at work *)

Module RuleDemo.
#[local] Existing Instance binary_uuid.
#[local] Existing Instance canonical_jsonb.
#[local] Existing Instance canonical_jsonb_num.
#[local] Existing Instance amd64.
#[local] Existing Instance table_order.
#[local] Instance no_log : GoMath := λ _, fzero.
#[local] Instance no_policy : SeverityPolicy := λ _ _, RegoError.

Definition ctx : Context := {| ctx_tenant := Some "a1" |}.
Definition env (fresh : N) (now : Time) : Env := mkEnv ctx healthy now (λ _, now) (λ n, (fresh + N.of_nat n)%N).
Definition noon : Time := 1700000000000000000.

Definition rule : Rule := mkRule "R7" "identity" 2 2 30 "org" "max" "Recurring {theme} findings" "".
Definition risk (id : UUID) (unit : option UUID) (score : string) : RiskDB.Row :=
  RiskDB.mkRow id 1 "Stale accounts" "" "operational" "nist_800_30" (js score) "avoid" "ops" "{}" None None "" "" "team" unit
    ["identity"] (noon + 5) (noon + 5).
Definition risks0 : RiskDB.DB :=
  RiskDB.mkDB [risk 7 (Some 40%N) "{'likelihood':4,'impact':5}"; risk 8 None "{'likelihood':2,'impact':3}"] [] [] [] [] [] [].

Definition start : World := mkWorld (mkDB risks0 [] [] []) [].
Definition created : result Error StoredRule * World := Create (env 100 noon) rule "alice" start.
Definition stored : StoredRule := match created.1 with Ok s => s | Err _ => mkStored 0 0 zero_rule "" None None 0 0 end.
Definition w1 : World := (Activate (env 200 (noon + 1)) 100 "bob" created.2).2.
Definition row : RuleRow :=
  hd (mkRuleRow 0 0 "" "" 0 0 0 "" "" "" "" None None 0 0) (aggregation_rules (db w1)).
Definition fired : result Error Evaluation * World := evaluateRule (env 300 (noon + 9)) 0 1 row w1.
Definition ev : Evaluation := match fired.1 with Ok e => e | Err _ => mkEvaluation 0 0 "" 0 0 None None 0 end.

Lemma created_ok : created = (Ok stored, created.2).
Proof. vm_compute. reflexivity. Qed.
Lemma fired_ok : evaluateRule (env 300 (noon + 9)) 0 1 row w1 = (Ok ev, fired.2).
Proof. vm_compute. reflexivity. Qed.

Lemma rule_sound : sound rule.
Proof. repeat constructor; vm_compute; done. Qed.

Lemma Create_stores_rule_witness : sr_Rule stored = rule ∧ (Get (env 0 0) (sr_ID stored) created.2).1 = Ok stored.
Proof.
  destruct (Create_stores_rule (env 100 noon) rule "alice" start stored created.2 ctx 1 0 (λ _, 0) (λ n, (0 + N.of_nat n)%N) created_ok
    rule_sound eq_refl eq_refl) as (_ & E & _ & _ & _ & G).
  split; [exact E|exact G].
Defined.

Lemma evaluateRule_outcome_witness :
  e_Outcome ev = "fired" ∧ e_MetaRiskID ev = Some 300%N ∧ linked 300 7 (RiskDB.risk_aggregations (register (db fired.2))) ∧
  ∃ r links, RiskDB.risk_aggregations (register (db fired.2)) = RiskDB.risk_aggregations (register (db w1)) ++ links ∧
    meta_written (noon + 9) 1 (windowKey (ar_ID row) (counted_since (noon + 9) row)) r
      (RiskDB.risks (register (db w1))) (RiskDB.risks (register (db fired.2))).
Proof.
  split; [vm_compute; reflexivity|]. split; [vm_compute; reflexivity|].
  destruct (evaluateRule_outcome (env 300 (noon + 9)) 0 1 row rule w1 ev fired.2 fired_ok ltac:(vm_compute; reflexivity)
    ltac:(vm_compute; reflexivity)) as (_ & _ & _ & _ & _ & _ & _ & _ & H).
  destruct (H ltac:(vm_compute; reflexivity)) as (_ & r & links & Em & Hw & Ea & _ & Hl & _). split.
  - assert (e_MetaRiskID ev = Some 300%N) as E300 by (vm_compute; reflexivity).
    rewrite E300 in Em. injection Em as Er. rewrite Er. rewrite Er in Hl.
    apply (Hl (risk 7 (Some 40%N) "{'likelihood':4,'impact':5}")). vm_compute. left.
  - exists r, links. split; [exact Ea|exact Hw].
Defined.

Lemma evaluateRule_idempotent_witness :
  e_RiskCount ev = 2 ∧ e_MetaRiskID ev = Some 300%N ∧
  ∃ e w2, evaluateRule (env 400 (noon + 20)) 0 1 row fired.2 = (Ok e, w2) ∧ e_MetaRiskID e = e_MetaRiskID ev.
Proof.
  split; [vm_compute; reflexivity|]. split; [vm_compute; reflexivity|].
  destruct (evaluateRule_idempotent (env 300 (noon + 9)) 0 1 row w1 ev fired.2 (env 400 (noon + 20)) 0 fired_ok)
    as (w2 & E & _).
  - vm_compute; reflexivity.
  - refine (bool_decide_unpack _ _); vm_compute; exact I.
  - refine (bool_decide_unpack _ _); vm_compute; exact I.
  - refine (bool_decide_unpack _ _); vm_compute; exact I.
  - vm_compute; reflexivity.
  - vm_compute; reflexivity.
  - refine (bool_decide_unpack _ _); vm_compute; exact I.
  - eexists _, w2. split; [exact E|reflexivity].
Defined.

Lemma lifecycle_audited_witness :
  ar_Status row = "active" ∧ ∃ l a, history 1 100 w1 = l ++ [a] ∧ Some "bob" = Some (au_Actor a).
Proof.
  split; [vm_compute; reflexivity|].
  destruct (lifecycle_audited risks0 w1 row) as [_ H].
  - eapply rtc_l; [apply (step_create (env 100 noon) rule "alice" start)|].
    apply rtc_once. apply (step_activate (env 200 (noon + 1)) 100 "bob" created.2).
  - vm_compute. left.
  - destruct (H ltac:(vm_compute; reflexivity)) as (l & a & E & A & _). exists l, a.
    split; [exact E|]. rewrite <- A. vm_compute. reflexivity.
Defined.
End RuleDemo.
